(* ===== verification/_CoqProject ===== *)
-Q . S2P
Prelude.v
Kernel.v
Object.v
Capability.v
Invariant.v
Endpoint.v
Ring.v
Grant.v
Pmm.v
Vmm.v
Heap.v
HeapVm.v
AddressSpace.v
Scheduler.v
Threads.v
CString.v
Initrd.v
InitrdDir.v
UserMemory.v
HeapPages.v
UserGrant.v
UserTask.v
TaskCreate.v
Usermode.v
Process.v
KernelStack.v
UserMessage.v
UserRing.v
Syscall.v
Circular.v
Keyboard.v
Framebuffer.v
TextConsole.v
ConsoleBackend.v
LogFormat.v
Log.v
Console.v
Component.v
Files.v
FileService.v
Devices.v
Timer.v
Loader.v
