(* ===== verification/Prelude.v ===== *)
(** * SCDK: a verification library for the kernel under [src/src]

    SCDK is a small capability kernel for x86-64 in C: objects named by
    generation-tagged ids, capabilities over them, endpoints that run handlers,
    rings, memory grants, a page allocator with page tables and a heap above it,
    a round-robin scheduler, a boot file system, user tasks that run in ring 3
    and call back through endpoints, grants and rings, a console made of a PS/2
    keyboard, a framebuffer, a serial port, the log and the service in front of
    them, file, device, session and process services with a loader, and a timer
    that preempts threads. This library models these parts as executable functions and
    proves what each promises to the others.

    ** The program and the files

    - [Prelude]: machine integers, status codes, the error-and-state monad with
      its proof rules and tactics, list and bit lemmas. [result] separates a
      status code from undefined behaviour ([Ub]), so "this call is defined" is
      a statement. [Keeps] and [Once] are the classes by which an operation
      states which part of the state it leaves alone, or steps at most once.
    - [Kernel]: every table and variable of the kernel as records with the
      fields of the C structs, the kernel record, and its state at boot.
    - [Object] (core/object.c), [Capability] (core/capability.c, core/revoke.c):
      the two tables everything rests on. [Invariant]: the kernel-wide
      well-formedness [kernel_wf], and the pattern "create an object, fill its
      slot, mint its capability, undo on failure" ([mint], [minted]) that the
      next files share; [OffCore] is the interface between the core tables and
      the component tables.
    - [Endpoint] (ipc/message.c, core/endpoint.c): messages, endpoints, the
      service registry. [Ring] (core/ring.c). [Grant] (core/grant.c).
    - [Pmm] (mm/pmm.c), [Vmm] (mm/vmm.c), [Heap] (mm/heap.c), [HeapVm] (heap and
      page tables together), [AddressSpace] (mm/address_space.c), [HeapPages]
      (the pages behind the heap, so that heap blocks can hold data).
    - [Scheduler] and [Threads] (core/scheduler.c): the run queue and the
      switches, then creation of tasks and threads.
    - [CString] (kernel/string.c), [Initrd] and [InitrdDir] (mm/initrd.c).
    - [UserMemory] (validation and copies of ipc/user_ipc.c), [UserGrant]
      (core/user_grant.c).
    - [UserTask] and [Process] (core/task.c), [TaskCreate] (what creating a
      user task leaves alone), [Usermode]
      (arch/x86_64/usermode.c, fault.c, syscall.c and the state kept by
      core/syscall_dispatch.c), [KernelStack].
    - [UserMessage] (the messages of ipc/user_ipc.c), [UserRing]
      (core/user_ring.c), [Syscall] (the switch of core/syscall_dispatch.c over
      the three).
    - [Circular]: circular buffers, shared by the keyboard queue and the trace
      ring of the log. [Keyboard] (drivers/input/ps2_keyboard.c,
      services/tty_service.c).
    - [Framebuffer] and [TextConsole] (arch/x86_64/framebuffer.c): drawing into
      the framebuffer, then the text console drawn with it. [ConsoleBackend]
      (arch/x86_64/serial.c, drivers/console_backend.c).
    - [LogFormat] and [Log] (kernel/log.c, kernel/panic.c), [Console]
      (services/console_service.c): these two call each other in the code, a log
      line being a message to the console endpoint and the console handler
      writing to the backend, and meet in [Console.services].
    - [Component]: services with state of their own ([Component.Beside]), and
      what the core tables have left. [Files] (services/tmpfs_service.c,
      services/vfs_service.c) with [FileService], the abstract file service it
      refines; [Devices] (services/devmgr_service.c,
      services/session_service.c); [Timer] (arch/x86_64/timer.c); [Loader]
      (core/loader.c, services/proc_service.c and [launch_init] of
      kernel/main.c).

    ** Correspondence with the code

    A C function is a definition with the same name. A function that only reads
    is a function of the kernel to a [result]; one that writes is in the monad
    [K] (or [MM] for the machine, the kernel with the state the processor-facing
    files keep); statements keep their order, early returns are [guard]s, an
    ignored status is [attempt] or [ignore], clean-up before a return is
    [on_error] or [recover]. An out-parameter is part of the result, so the
    guards against a null out-parameter have no counterpart. A pointer into a
    static table is an index; a pointer to heap storage is its address; a
    pointer to bytes is the list of bytes up to the end of its object.
    [uint32_t] and [uint64_t] values are integers with [wrap32] and [wrap64]
    wherever an operation can leave the range.

    Physical memory is a map from 8-aligned addresses to 64-bit words. Kernel
    code reaches it through the direct map, so the direct-map offset appears
    only where the code tests it. Page tables live in this memory and are walked
    as the code walks them. User memory is accessed byte by byte through a walk
    from CR3 ([UserMemory.mmu]); a store needs the writable bit of the page, as
    CR0.WP asks for in kernel mode too ([UserMemory.mmu_write]). The TLB is not
    modelled, and huge pages count as not mapped. Heap block headers are kept
    apart from memory, as records; the payload of a block is memory, reached
    through the page tables, except the address-space structs kept in blocks,
    which are records too. For the same reason [scdk_kzalloc] is the allocation
    alone: the struct whose block it clears is a record that starts cleared.

    An endpoint's handler may change more than the kernel record, so the call
    path is written once for every state that contains it: [Endpoint.HasKernel]
    (a lens), with the instances kernel, machine ([UserMessage.HasMachine]) and
    the whole system of [Log]. A service is written for every state that contains
    the machine and its own part ([Component.Beside]), so services can be put
    together: [Loader] needs the files and the process service in one state. [UserMessage.UserStruct] is what a struct copied
    between user and kernel memory must provide, its layout with the round trip.

    The framebuffer is a memory of its own, a map from addresses to bytes, and a
    pixel is four of them; the theorems on the console read colours back from
    the bytes. Text is a list of character codes, and a cell of the text grid is
    the block of pixels its glyph paints.

    Parameters, that is, code that is not in the repository or not C: what a
    user program does between entry to ring 3 and the return
    ([Usermode.enter_user]), the bytes of the assembled stubs and link-time
    addresses ([Usermode.platform]), the addresses of the buffers the console
    service and the log pass by reference, the handler an endpoint runs (an
    argument of [scdk_endpoint_call]; [Console.services] takes the handlers it
    does not model as one), the bootloader's memory map and module list, the
    registers a context switch saves, the keyboard controller
    ([Keyboard.PS2], a status and a data port) and the serial chip
    ([ConsoleBackend.UART]: a byte written while the holding register is empty is
    sent, a byte written otherwise is not promised to be); the entry stub of the timer interrupt (an address),
    the address of a path and the bytes there (a handler gets the bytes its
    message points to). The loader takes the run of a task
    ([Process.scdk_user_task_run_flat] on the state it works in) as an argument,
    since the user code calls the services again. A theorem that needs something of a parameter has
    it as a hypothesis, with a witness at a concrete parameter.

    Loops are structural where C counts; otherwise they have fuel. Running out
    of it is [Ub], and theorems that say a call succeeds or is defined thereby
    say the fuel is enough: the memory-map scan (one turn per page of the
    region), the heap block list (one turn per block), archive parsing (one turn
    per 512-byte block, [Initrd.initrd_parse_total]), page validation (one turn
    per page of the range). Taking a thread from the run queue has as many turns
    as the queue has entries and every turn removes one, so there the fuel and
    the loop condition end together. The text console writes a tab with at most
    seven spaces ([TextConsole.TAB_ROUNDS]), enough on any screen with four
    columns; on a narrower one the loop does not end at all, which
    [TextConsole.console_tab_hangs] shows for every number of turns. Line numbers
    of the console are below 2^62, so that their arithmetic does not wrap.
    Formatting has a turn per character of the format and the digits of a number
    the 32 slots of the buffer the code has; waiting for the serial port has the
    100000 turns the code counts. The file services call each other to a depth of
    two, VFS and tmpfs ([Files.file_services]). The loader reads a file of n bytes
    with at most n turns, since a turn reads a byte or ends the loop.

    ** What the theorems show

    - Capabilities: minting gives exactly the authority asked for; a revoked
      token is refused at once and, for fewer than 2^32 - 2 table operations,
      for ever.
    - Endpoints, services, rings, grants: calls reach exactly the installed
      handler and need SEND; the registry is a write-once map; a ring refines
      two bounded FIFO queues up to counter wrap-around (where it loses a
      descriptor); grants admit exactly the granted ranges and rights, and
      nothing after revocation.
    - Memory: the scan manages exactly the usable pages; no page is handed out
      twice; mapping and unmapping change exactly one translation and nothing on
      failure; a heap allocation always returns, a fresh, aligned and disjoint
      block or null when there is no room; a growth of the heap that runs out of
      pages half way is never recovered from; address spaces are private; user memory is read and written exactly, without kernel
      faults.
    - Scheduler: refinement of round robin with one running thread, and bounded
      waiting.
    - Timer: with preemption on a thread in the run queue runs after as many
      interrupts as its place in it, when the handlers run one after another; an
      interrupt inside a yield can lose a thread;
      the ports written leave exactly one interrupt line on, at the rate asked for
      (the interrupt controllers as their data sheet describes them).
    - Files: requests through the VFS endpoint are answered as by a map from
      capabilities to contents, a read storing the bytes of the file and changing
      no other memory; a file can be opened only as often as the kernel has
      objects; a read sent to tmpfs directly writes where the sender likes, as far
      as the kernel has the range mapped writable.
    - Loader: the program a task runs is the file, in a new block that making the
      task does not touch; without room for the block the load is NOMEM, and a
      task that cannot be created frees it again; a file that is refused stays
      open, and 32 of them leave none that can be opened.
    - Devices and sessions: a bind needs a live capability with BIND on a queue
      in use and one with SEND on an endpoint, and nothing else; the session
      service answers for five services.
    - Boot files: an archive written from files is read back; parsing is total;
      stat and listdir agree with the set of packed paths. [memmove] equals a
      copy from a snapshot.
    - User tasks: along every nesting of runs a task only moves forward in its
      life cycle, and a run leaves it DEAD; the table of tasks is never refilled;
      after a nested run the stack for faults is a page that has been freed.
    - System calls: a user message reaches an endpoint only under the caller's
      own authority and with the fields the kernel puts in, the reply buffer of a
      READ being checked for the VFS only; user rings deliver
      exactly what was submitted, in order, until the completion queue overruns;
      whatever system calls a program makes, its task only moves forward in its
      life cycle.
    - Keyboard: polling the terminal service loses and reorders no event, and
      typing a text on a US keyboard, whose layout is written down apart from the
      driver, makes the terminal read that text.
    - Console: after any writes and scrolls the pixels are those that drawing the
      whole view again would give; after a text they show the last lines of a
      terminal with unlimited lines; a write reaches serial port and screen, with
      the errors the code reports.
    - Log: a line formatted from its arguments goes through the console endpoint
      to the trace and the screen, and once to a serial port that works; the
      digits printed for
      a number have its value; the console's ring prints the granted texts in
      order and stops at the first descriptor that names no readable grant.

    ** Not modelled

    Timer interrupts that come while a handler runs are modelled only as one
    interrupt inside a yield ([Timer.interrupted_yield]); runs of interrupts are
    taken one after another.

    The boot sequence apart from the start of [/init]: [kmain] and the early
    console only call what is modelled, once and in a fixed order, and print.
    Calls to the log inside the other components have no counterpart there.
    The self test only runs the other parts on fixed inputs. Assembly and the
    boot protocol header are not C code of the kernel's own. *)
From stdpp Require Import base gmap list numbers.
From Stdlib Require Import ZArith Lia.

#[local] Open Scope Z_scope.

(** Arithmetic on literals is done by [lia] and [vm_compute], never by [simpl]. *)
#[global] Arguments Z.land : simpl never.
#[global] Arguments Z.lor : simpl never.
#[global] Arguments Z.shiftl : simpl never.
#[global] Arguments Z.shiftr : simpl never.
#[global] Arguments Z.modulo : simpl never.
#[global] Arguments Z.div : simpl never.
#[global] Arguments Z.mul : simpl never.
#[global] Arguments Z.add : simpl never.
#[global] Arguments Z.sub : simpl never.
#[global] Arguments Z.pow : simpl never.
#[global] Arguments Z.leb : simpl never.
#[global] Arguments Z.ltb : simpl never.
#[global] Arguments Z.eqb : simpl never.
#[global] Arguments Z.to_nat : simpl never.
#[global] Arguments Z.of_nat : simpl never.

(** ** Machine integers

    A [uintN_t] value is a [Z] in [0, 2^N); every operation of the source that
    can leave that range is wrapped explicitly. *)
Definition two32 : Z := 4294967296.
Definition two64 : Z := 18446744073709551616.

Definition wrap32 (z : Z) : Z := z mod two32.
Definition wrap64 (z : Z) : Z := z mod two64.

Definition u32 (z : Z) : Prop := 0 <= z < two32.
Definition u64 (z : Z) : Prop := 0 <= z < two64.

(** [~x] on a 64-bit word. *)
Definition not64 (z : Z) : Z := two64 - 1 - z.

(** ** Status codes ([src/include/scdk/status.h]) *)
Inductive err : Set :=
  | SCDK_ERR_INVAL
  | SCDK_ERR_NOMEM
  | SCDK_ERR_NOENT
  | SCDK_ERR_PERM
  | SCDK_ERR_BOUNDS
  | SCDK_ERR_BUSY
  | SCDK_ERR_NOTSUP.

#[global] Instance err_eq_dec : EqDecision err.
Proof. solve_decision. Defined.

Definition SCDK_OK : Z := 0.

Definition err_code (e : err) : Z :=
  match e with
  | SCDK_ERR_INVAL => -1
  | SCDK_ERR_NOMEM => -2
  | SCDK_ERR_NOENT => -3
  | SCDK_ERR_PERM => -4
  | SCDK_ERR_BOUNDS => -5
  | SCDK_ERR_BUSY => -6
  | SCDK_ERR_NOTSUP => -7
  end.

(** ** Results and the kernel monad

    [Ok a] is a [SCDK_OK] return with the value of the out parameters, [Err e]
    an error return, and [Ub] an execution the C standard gives no meaning to
    (a pointer read at the wrong struct type, an index outside an array, a
    division by zero, a dereferenced null pointer). *)
Inductive result (A : Type) : Type :=
  | Ok (a : A)
  | Err (e : err)
  | Ub.
Arguments Ok {A} a.
Arguments Err {A} e.
Arguments Ub {A}.

#[global] Instance Ok_inj {A} : Inj (=) (=) (@Ok A).
Proof. by intros x y [= ->]. Qed.

Definition rbind {A B} (r : result A) (f : A → result B) : result B :=
  match r with
  | Ok a => f a
  | Err e => Err e
  | Ub => Ub
  end.

(** State survives an error return: what a function wrote before it failed
    stays written. *)
Definition M (S A : Type) : Type := S → result A * S.

Definition ret {S A} (a : A) : M S A := λ s, (Ok a, s).
Definition fail {S A} (e : err) : M S A := λ s, (Err e, s).
Definition ub {S A} : M S A := λ s, (Ub, s).
Definition bind {S A B} (m : M S A) (f : A → M S B) : M S B := λ s,
  match m s with
  | (Ok a, s') => f a s'
  | (Err e, s') => (Err e, s')
  | (Ub, s') => (Ub, s')
  end.
Definition gets {S A} (f : S → A) : M S A := λ s, (Ok (f s), s).
Definition modify {S} (f : S → S) : M S unit := λ s, (Ok tt, f s).
(** A call that only reads the state. *)
Definition query {S A} (f : S → result A) : M S A := λ s, (f s, s).
(** [if (b) return e;] *)
Definition guard {S} (b : bool) (e : err) : M S unit :=
  if b then fail e else ret tt.
(** The status of a call kept in a variable instead of being returned. *)
Definition attempt {S A} (m : M S A) : M S (result A) := λ s,
  match m s with
  | (Ub, s') => (Ub, s')
  | (r, s') => (Ok r, s')
  end.
(** [status = m; if (status != SCDK_OK) { cleanup; return status; }] *)
Definition on_error {S A} (m : M S A) (cleanup : S → S) : M S A := λ s,
  match m s with
  | (Err e, s') => (Err e, cleanup s')
  | r => r
  end.
(** The same with a cleanup that makes calls of its own, whose statuses are
    ignored. *)
Definition recover {S A B} (m : M S A) (cleanup : M S B) : M S A := λ s,
  match m s with
  | (Err e, s') =>
      match cleanup s' with
      | (Ub, s'') => (Ub, s'')
      | (_, s'') => (Err e, s'')
      end
  | r => r
  end.
(** Re-raise a status kept by [attempt]. *)
Definition lift {S A} (r : result A) : M S A := λ s, (r, s).

Declare Scope scdk_scope.
Delimit Scope scdk_scope with scdk.
Notation "'let*' x ':=' m 'in' k" := (bind m (λ x, k))
  (at level 10, x binder, m at level 100, k at level 200) : scdk_scope.
Notation "m ;; k" := (bind m (λ _, k))
  (at level 100, k at level 200, right associativity) : scdk_scope.
Notation "'let?' x ':=' r 'in' k" := (rbind r (λ x, k))
  (at level 10, x binder, r at level 100, k at level 200) : scdk_scope.
#[global] Open Scope scdk_scope.

(** [if (b) return e;] in a function that only reads the state. *)
Definition rguard (b : bool) (e : err) : result unit :=
  if b then Err e else Ok tt.
(** A read of the object a pointer designates; [None] when it designates no
    object of the expected type. *)
Definition deref {A} (o : option A) : result A :=
  match o with Some a => Ok a | None => Ub end.

(** Whether a run is free of undefined behaviour. *)
Definition defined {A} (r : result A) : Prop := r ≠ Ub.

Definition is_Ok {A} (r : result A) : Prop := ∃ a, r = Ok a.

(** ** Reasoning about the monad *)
Section monad_laws.
Context {S A B : Type}.

Lemma bind_Ok (m : M S A) (f : A → M S B) s a s' :
  m s = (Ok a, s') → bind m f s = f a s'.
Proof. intros H. unfold bind. by rewrite H. Qed.

Lemma bind_Err (m : M S A) (f : A → M S B) s e s' :
  m s = (Err e, s') → bind m f s = (Err e, s').
Proof. intros H. unfold bind. by rewrite H. Qed.

Lemma bind_inv_Ok (m : M S A) (f : A → M S B) s b s'' :
  bind m f s = (Ok b, s'') →
  ∃ a s', m s = (Ok a, s') ∧ f a s' = (Ok b, s'').
Proof. unfold bind. destruct (m s) as [[a| |] s'] eqn:?; naive_solver. Qed.

Lemma bind_inv (m : M S A) (f : A → M S B) s r s'' :
  bind m f s = (r, s'') →
  (∃ a s', m s = (Ok a, s') ∧ f a s' = (r, s'')) ∨
  (∃ e, m s = (Err e, s'') ∧ r = Err e) ∨
  (m s = (Ub, s'') ∧ r = Ub).
Proof. unfold bind. destruct (m s) as [[a| |] s'] eqn:?; naive_solver. Qed.

Lemma rbind_inv_Ok (r : result A) (f : A → result B) b :
  rbind r f = Ok b → ∃ a, r = Ok a ∧ f a = Ok b.
Proof. destruct r; simpl; naive_solver. Qed.

Lemma rbind_Ok (r : result A) (f : A → result B) a :
  r = Ok a → rbind r f = f a.
Proof. by intros ->. Qed.

Lemma rbind_defined (r : result A) (f : A → result B) :
  defined r → (∀ a, r = Ok a → defined (f a)) → defined (rbind r f).
Proof. unfold defined. destruct r; simpl; naive_solver. Qed.

Lemma bind_defined (m : M S A) (f : A → M S B) s :
  defined (m s).1 → (∀ a s', m s = (Ok a, s') → defined (f a s').1) →
  defined (bind m f s).1.
Proof. unfold defined, bind. destruct (m s) as [[a| |] s']; simpl; naive_solver. Qed.
End monad_laws.

(** Passing a guard, and returning at it. *)
Lemma rpass {A} b e (f : unit → result A) : b = false → rbind (rguard b e) f = f tt.
Proof. by intros ->. Qed.
Lemma rstop {A} b e (f : unit → result A) : b = true → rbind (rguard b e) f = Err e.
Proof. by intros ->. Qed.

Lemma rguard_defined b e : defined (rguard b e).
Proof. by destruct b. Qed.

(** Running a bind whose first part is known. *)
Section bind_run.
Context {S A B : Type}.
Implicit Types s : S.

Lemma bind_guard b e (f : unit → M S B) s : b = false → bind (guard b e) f s = f tt s.
Proof. by intros ->. Qed.
Lemma bind_stop b e (f : unit → M S B) s : b = true → bind (guard b e) f s = (Err e, s).
Proof. by intros ->. Qed.
Lemma bind_query (g : S → result A) (f : A → M S B) s a : g s = Ok a → bind (query g) f s = f a s.
Proof. intros H. unfold bind, query. by rewrite H. Qed.
Lemma bind_gets (g : S → A) (f : A → M S B) s : bind (gets g) f s = f (g s) s.
Proof. done. Qed.
Lemma bind_modify (g : S → S) (f : unit → M S B) s : bind (modify g) f s = f tt (g s).
Proof. done. Qed.
Lemma bind_ret (a : A) (f : A → M S B) s : bind (ret a) f s = f a s.
Proof. done. Qed.
End bind_run.

(** A run by its result. *)
Lemma run_eq {S A} (m : M S A) (s : S) (r : result A) :
  (m s).1 = r → m s = (r, (m s).2).
Proof. intros <-. by destruct (m s). Qed.

(** The same with the final state named: used on concrete runs. *)
Lemma run_to {S A} (m : M S A) (s s' : S) (r : result A) :
  s' = (m s).2 → (m s).1 = r → m s = (r, s').
Proof. intros -> <-. by destruct (m s). Qed.

Lemma on_error_inv_Ok {S A} (m : M S A) (f : S → S) s a s' :
  on_error m f s = (Ok a, s') → m s = (Ok a, s').
Proof. unfold on_error. destruct (m s) as [[] ?]; congruence. Qed.

Lemma recover_inv_Ok {S A B} (m : M S A) (c : M S B) s a s' :
  recover m c s = (Ok a, s') → m s = (Ok a, s').
Proof.
  unfold recover. destruct (m s) as [[] s1]; [done| |done]. by destruct (c s1) as [[] ?].
Qed.

(** A state predicate kept by every run of an operation, whatever it returns. *)
Definition preserves {S A} (P : S → Prop) (m : M S A) : Prop :=
  ∀ s, P s → P (m s).2.

Section preserves.
Context {S : Type} (P : S → Prop).

Lemma preserves_ret {A} (a : A) : preserves P (ret a).
Proof. by intros s. Qed.
Lemma preserves_fail {A} e : preserves P (fail (A:=A) e).
Proof. by intros s. Qed.
Lemma preserves_ub {A} : preserves P (ub (A:=A)).
Proof. by intros s. Qed.
Lemma preserves_gets {A} (f : S → A) : preserves P (gets f).
Proof. by intros s. Qed.
Lemma preserves_query {A} (f : S → result A) : preserves P (query f).
Proof. by intros s. Qed.
Lemma preserves_lift {A} (r : result A) : preserves P (lift r).
Proof. by intros s. Qed.
Lemma preserves_guard b e : preserves P (guard b e).
Proof. by destruct b; intros s. Qed.
Lemma preserves_bind {A B} (m : M S A) (f : A → M S B) :
  preserves P m → (∀ a, preserves P (f a)) → preserves P (bind m f).
Proof.
  intros Hm Hf s Hs. specialize (Hm s Hs). unfold bind.
  destruct (m s) as [[a| |] s']; simpl in *; auto. by apply Hf.
Qed.
Lemma preserves_modify (f : S → S) : (∀ s, P s → P (f s)) → preserves P (modify f).
Proof. intros Hf s Hs. by apply Hf. Qed.
Lemma preserves_on_error {A} (m : M S A) (f : S → S) :
  preserves P m → (∀ s, P s → P (f s)) → preserves P (on_error m f).
Proof.
  intros Hm Hf s Hs. specialize (Hm s Hs). unfold on_error.
  destruct (m s) as [[a| |] s']; simpl in *; auto.
Qed.
Lemma preserves_recover {A B} (m : M S A) (c : M S B) :
  preserves P m → preserves P c → preserves P (recover m c).
Proof.
  intros Hm Hc s Hs. specialize (Hm s Hs). unfold recover.
  destruct (m s) as [[a|e|] s']; simpl in *; auto. specialize (Hc s' Hm).
  by destruct (c s') as [[] ?].
Qed.
Lemma preserves_attempt {A} (m : M S A) :
  preserves P m → preserves P (attempt m).
Proof.
  intros Hm s Hs. specialize (Hm s Hs). unfold attempt.
  destruct (m s) as [[a| |] s']; auto.
Qed.
End preserves.

Create HintDb scdk.
(** Close a [preserves] goal by following the structure of the operation. *)
Ltac preserves_tac :=
  repeat lazymatch goal with
  | |- preserves _ (bind _ _) => apply preserves_bind; [|intros ?]
  | |- preserves _ (on_error _ _) => apply preserves_on_error
  | |- preserves _ (recover _ _) => apply preserves_recover
  | |- preserves _ (modify _) => apply preserves_modify; intros ? ?
  | |- preserves _ (match ?x with _ => _ end) => destruct x
  | |- preserves _ _ => solve [eauto with scdk]
  end.

#[export] Hint Resolve preserves_ret preserves_fail preserves_ub preserves_gets
  preserves_query preserves_lift preserves_guard preserves_attempt : scdk.

(** [minv H] peels the binds of a successful run [H] into the runs of its
    parts; [mgo] executes a run whose parts are known. *)
Ltac minv_step H :=
  lazymatch type of H with
  | bind _ _ _ = (Ok _, _) =>
      let a := fresh "a" in let s := fresh "s" in let E := fresh "E" in
      apply bind_inv_Ok in H; destruct H as (a & s & E & H)
  | rbind _ _ = Ok _ =>
      let a := fresh "a" in let E := fresh "E" in
      apply rbind_inv_Ok in H; destruct H as (a & E & H)
  end.

Lemma query_inv {S A} (f : S → result A) s a s' :
  query f s = (Ok a, s') → f s = Ok a ∧ s' = s.
Proof. unfold query. naive_solver. Qed.
Lemma guard_inv {S} b e (s : S) u s' :
  guard b e s = (Ok u, s') → b = false ∧ s' = s.
Proof. destruct b; unfold guard, fail, ret; naive_solver. Qed.
Lemma rguard_inv b e u : rguard b e = Ok u → b = false.
Proof. by destruct b. Qed.
Lemma gets_inv {S A} (f : S → A) s a s' :
  gets f s = (Ok a, s') → a = f s ∧ s' = s.
Proof. unfold gets. naive_solver. Qed.
Lemma modify_inv {S} (f : S → S) s u s' :
  modify f s = (Ok u, s') → s' = f s.
Proof. unfold modify. naive_solver. Qed.
Lemma ret_inv {S A} (a b : A) (s s' : S) :
  ret a s = (Ok b, s') → b = a ∧ s' = s.
Proof. unfold ret. naive_solver. Qed.
Lemma lift_inv {S A} (r : result A) (s : S) b s' :
  lift r s = (Ok b, s') → r = Ok b ∧ s' = s.
Proof. unfold lift. naive_solver. Qed.
Lemma deref_inv {A} (o : option A) a : deref o = Ok a → o = Some a.
Proof. destruct o; naive_solver. Qed.

Ltac minv_leaf :=
  match goal with
  | E : query _ _ = (Ok _, _) |- _ => apply query_inv in E; destruct E as [E ->]
  | E : guard _ _ _ = (Ok _, _) |- _ => apply guard_inv in E; destruct E as [E ->]
  | E : rguard _ _ = Ok _ |- _ => apply rguard_inv in E
  | E : gets _ _ = (Ok _, _) |- _ => apply gets_inv in E; destruct E as [-> ->]
  | E : modify _ _ = (Ok _, _) |- _ => apply modify_inv in E; subst
  | E : ret _ _ = (Ok _, _) |- _ => apply ret_inv in E; destruct E as [-> ->]
  | E : lift _ _ = (Ok _, _) |- _ => apply lift_inv in E; destruct E as [E ->]
  | E : deref _ = Ok _ |- _ => apply deref_inv in E
  | E : Ok _ = Ok _ |- _ => injection E; clear E; intros; subst
  end.

Ltac minv H := repeat minv_step H; repeat minv_leaf.

(** Split the boolean conditions of guards into arithmetic facts. *)
Ltac bsplit :=
  repeat match goal with
  | H : _ || _ = false |- _ => apply orb_false_iff in H; destruct H
  | H : _ && _ = true |- _ => apply andb_true_iff in H; destruct H
  | H : negb _ = true |- _ => apply negb_true_iff in H
  | H : negb _ = false |- _ => apply negb_false_iff in H
  | H : (_ =? _) = true |- _ => apply Z.eqb_eq in H
  | H : (_ =? _) = false |- _ => apply Z.eqb_neq in H
  | H : (_ <=? _) = true |- _ => apply Z.leb_le in H
  | H : (_ <=? _) = false |- _ => apply Z.leb_gt in H
  | H : (_ <? _) = true |- _ => apply Z.ltb_lt in H
  | H : (_ <? _) = false |- _ => apply Z.ltb_ge in H
  end.

(** ** First matching slot of a static table

    [for (i = 0; i < MAX; i++) { if (!p(table[i])) continue; ... }] *)
Fixpoint find_slot {A} (p : A → bool) (l : list A) : option nat :=
  match l with
  | [] => None
  | x :: l => if p x then Some 0%nat else S <$> find_slot p l
  end.

Section find_slot.
Context {A : Type} (p : A → bool).
Implicit Types l : list A.

Lemma find_slot_Some l i :
  find_slot p l = Some i →
  (∃ x, l !! i = Some x ∧ p x = true) ∧
  (∀ j y, (j < i)%nat → l !! j = Some y → p y = false).
Proof.
  revert i. induction l as [|x l IH]; intros i; simpl; [done|].
  destruct (p x) eqn:Hp.
  - intros [= <-]. split; [by exists x|]. lia.
  - destruct (find_slot p l) as [i'|]; simpl; [|done]. intros [= <-].
    destruct (IH i' eq_refl) as [Hx Hlt]. split; [done|].
    intros [|j] y Hj Hy; simpl in *; [congruence|]. apply (Hlt j); auto. lia.
Qed.

Lemma find_slot_lt l i : find_slot p l = Some i → (i < length l)%nat.
Proof. intros [[x [Hx _]] _]%find_slot_Some. by eapply lookup_lt_Some. Qed.

Lemma find_slot_None l :
  find_slot p l = None ↔ ∀ j y, l !! j = Some y → p y = false.
Proof.
  induction l as [|x l IH]; simpl; [split; [by intros _ []|done]|].
  destruct (p x) eqn:Hp; split.
  - done.
  - intros H. specialize (H 0%nat x eq_refl). congruence.
  - destruct (find_slot p l) eqn:E; [done|]. intros _ [|j] y Hy; simpl in Hy.
    + congruence.
    + destruct IH as [IH _]. by eapply IH.
  - intros H. destruct IH as [_ IH]. rewrite IH; [done|].
    intros j y Hy. by apply (H (S j)).
Qed.

Lemma find_slot_is_Some l j y :
  l !! j = Some y → p y = true → ∃ i, find_slot p l = Some i ∧ (i ≤ j)%nat.
Proof.
  intros Hy Hp. destruct (find_slot p l) as [i|] eqn:E.
  - exists i. split; [done|]. destruct (decide (i ≤ j)%nat); [done|].
    apply find_slot_Some in E as [_ E]. rewrite (E j y) in Hp; [done|lia|done].
  - rewrite find_slot_None in E. specialize (E j y Hy). congruence.
Qed.
End find_slot.

(** ** Bits *)
Lemma lor_disjoint_add (a b n : Z) :
  0 <= n → 0 <= b < 2 ^ n → Z.lor (Z.shiftl a n) b = a * 2 ^ n + b.
Proof.
  intros Hn Hb. rewrite <-Z.shiftl_mul_pow2 by done.
  assert (Z.land (Z.shiftl a n) b = 0) as Hland.
  { apply Z.bits_inj'. intros i Hi. rewrite Z.land_spec, Z.bits_0, Z.shiftl_spec by done.
    destruct (Z.ltb_spec i n).
    - by rewrite Z.testbit_neg_r by lia.
    - rewrite (Z.testbit_eqb b i) by lia.
      rewrite (Z.div_small b (2 ^ i)).
      + by rewrite andb_false_r.
      + split; [lia|]. apply Z.lt_le_trans with (2 ^ n); [lia|].
        apply Z.pow_le_mono_r; lia. }
  pose proof (Z.add_lor_land (Z.shiftl a n) b). lia.
Qed.

Lemma land_subset (r q : Z) :
  Z.land r q = q ↔ ∀ i, 0 <= i → Z.testbit q i = true → Z.testbit r i = true.
Proof.
  split.
  - intros H i Hi Hq. rewrite <-H, Z.land_spec in Hq.
    by apply andb_true_iff in Hq as [? _].
  - intros H. apply Z.bits_inj'. intros i Hi. rewrite Z.land_spec.
    destruct (Z.testbit q i) eqn:Hq; [|by rewrite andb_false_r].
    by rewrite (H i Hi Hq).
Qed.

Lemma land_mask_mod (x n : Z) : 0 <= n → Z.land x (2 ^ n - 1) = x mod 2 ^ n.
Proof.
  intros Hn. rewrite <-Z.land_ones by done. f_equal. rewrite Z.ones_equiv. lia.
Qed.

Lemma land_not64 (v m : Z) : u64 v → u64 m → Z.land v (not64 m) = Z.ldiff v m.
Proof.
  intros Hv Hm. unfold u64, not64 in *.
  assert (two64 - 1 - m = Z.land (Z.lnot m) (Z.ones 64)) as ->.
  { rewrite Z.land_ones by done. change (2 ^ 64) with two64. unfold Z.lnot, Z.pred.
    apply (Z.mod_unique _ _ (-1)); unfold two64 in *; lia. }
  rewrite (Z.land_comm (Z.lnot m)), Z.land_assoc, Z.land_ones by done.
  change (2 ^ 64) with two64. rewrite Z.mod_small by done. by rewrite Z.ldiff_land.
Qed.

Lemma ldiff_mask (v n : Z) : 0 <= n → Z.ldiff v (2 ^ n - 1) = v - v mod 2 ^ n.
Proof.
  intros Hn. replace (2 ^ n - 1) with (Z.ones n) by (rewrite Z.ones_equiv; lia).
  rewrite Z.ldiff_ones_r, Z.shiftl_mul_pow2, Z.shiftr_div_pow2 by done.
  pose proof (Z.div_mod v (2 ^ n)) as H. assert (2 ^ n ≠ 0) by (pose proof (Z.pow_pos_nonneg 2 n); lia).
  specialize (H ltac:(done)). lia.
Qed.

(** Run an operation of one component on its part of the state. *)
Definition zoom {S T A} (get : S → T) (put : T → S → S) (m : M T A) : M S A := λ s,
  let (r, t) := m (get s) in (r, put t s).

Lemma zoom_inv {S T A} (get : S → T) (put : T → S → S) (m : M T A) s a s' :
  zoom get put m s = (Ok a, s') → ∃ t', m (get s) = (Ok a, t') ∧ s' = put t' s.
Proof. unfold zoom. destruct (m (get s)) as [r t]. intros [= -> <-]. eauto. Qed.

(** ** Parts of the state an operation leaves alone

    [Keeps π m]: the view [π] of the state is the same after every run of [m],
    whatever it returns. The instances follow the structure of the code. *)
Class Keeps {S T A} (π : S → T) (m : M S A) : Prop := keeps : ∀ s, π (m s).2 = π s.
#[global] Hint Mode Keeps ! ! ! ! ! : typeclass_instances.

Section keeps.
Context {S T : Type} (π : S → T) {A B : Type}.

#[global] Instance keeps_ret (a : A) : Keeps π (ret a).
Proof. done. Qed.
#[global] Instance keeps_fail e : Keeps (A:=A) π (fail e).
Proof. done. Qed.
#[global] Instance keeps_ub : Keeps (A:=A) π ub.
Proof. done. Qed.
#[global] Instance keeps_gets (f : S → A) : Keeps π (gets f).
Proof. done. Qed.
#[global] Instance keeps_query (f : S → result A) : Keeps π (query f).
Proof. done. Qed.
#[global] Instance keeps_lift (r : result A) : Keeps π (lift r).
Proof. done. Qed.
#[global] Instance keeps_guard b e : Keeps π (guard b e).
Proof. by destruct b. Qed.
#[global] Instance keeps_bind (m : M S A) (f : A → M S B) :
  Keeps π m → (∀ a, Keeps π (f a)) → Keeps π (bind m f).
Proof.
  intros Hm Hf s. specialize (Hm s). unfold bind. destruct (m s) as [[a| |] s']; simpl in *; [|done|done].
  by rewrite (Hf a s').
Qed.
#[global] Instance keeps_attempt (m : M S A) : Keeps π m → Keeps π (attempt m).
Proof. intros Hm s. specialize (Hm s). unfold attempt. by destruct (m s) as [[]]. Qed.
#[global] Instance keeps_recover (m : M S A) (c : M S B) :
  Keeps π m → Keeps π c → Keeps π (recover m c).
Proof.
  intros Hm Hc s. specialize (Hm s). unfold recover. destruct (m s) as [[a|e|] s']; simpl in *; [done| |done].
  rewrite <-Hm, <-(Hc s'). by destruct (c s') as [[]].
Qed.
Lemma keeps_on_error (m : M S A) f : Keeps π m → (∀ s, π (f s) = π s) → Keeps π (on_error m f).
Proof.
  intros Hm Hf s. specialize (Hm s). unfold on_error. destruct (m s) as [[a|e|] s']; simpl in *; [done| |done].
  by rewrite Hf.
Qed.
Lemma keeps_run (m : M S A) s r s' : Keeps π m → m s = (r, s') → π s' = π s.
Proof. intros H E. specialize (H s). by rewrite E in H. Qed.
End keeps.
#[global] Hint Extern 1 (Keeps _ (modify _)) => (intros ?; reflexivity) : typeclass_instances.
#[global] Hint Extern 1 (Keeps _ (on_error _ _)) =>
  (apply keeps_on_error; [|intros ?; reflexivity]) : typeclass_instances.
#[global] Hint Extern 5 (Keeps _ (match ?x with _ => _ end)) => destruct x : typeclass_instances.

(** Run on a part of the state that determines the view, or on another part. *)
Lemma keeps_zoom {S U T A} (get : S → U) (put : U → S → S) (π : U → T) (ρ : S → T) (m : M U A) :
  Keeps π m → (∀ s, ρ s = π (get s)) → (∀ u s, π (get (put u s)) = π u) → Keeps ρ (zoom get put m).
Proof.
  intros Hm Hget Hput s. specialize (Hm (get s)). unfold zoom.
  destruct (m (get s)) as [r u]. simpl in *. by rewrite !Hget, Hput.
Qed.
Lemma keeps_zoom_other {S U T A} (get : S → U) (put : U → S → S) (ρ : S → T) (m : M U A) :
  (∀ u s, ρ (put u s) = ρ s) → Keeps ρ (zoom get put m).
Proof. intros Hput s. unfold zoom. destruct (m (get s)) as [r u]. apply Hput. Qed.

(** [Once π R m]: a run of [m] leaves the view alone or takes one [R] step. *)
Class Once {S T A} (π : S → T) (R : T → T → Prop) (m : M S A) : Prop :=
  once : ∀ s, π (m s).2 = π s ∨ R (π s) (π (m s).2).
#[global] Hint Mode Once ! ! ! ! ! ! : typeclass_instances.

Section once.
Context {S T : Type} (π : S → T) (R : T → T → Prop) {A B : Type}.

Lemma keeps_once (m : M S A) : Keeps π m → Once π R m.
Proof. intros H s. left. apply H. Qed.
(** The step is taken by the rest, or by the first part. *)
Lemma once_then (m : M S A) (f : A → M S B) :
  Keeps π m → (∀ a, Once π R (f a)) → Once π R (bind m f).
Proof.
  intros Hm Hf s. specialize (Hm s). unfold bind. destruct (m s) as [[a| |] s']; simpl in *; [|by left|by left].
  destruct (Hf a s') as [H|H]; rewrite Hm in H; auto.
Qed.
Lemma once_first (m : M S A) (f : A → M S B) :
  Once π R m → (∀ a, Keeps π (f a)) → Once π R (bind m f).
Proof.
  intros Hm Hf s. specialize (Hm s). unfold bind. destruct (m s) as [[a| |] s']; simpl in *; [|done|done].
  by rewrite (Hf a s').
Qed.
End once.
