(* ===== verification/Kernel.v ===== *)
(** * The kernel state

    The structs and the static variables of the components, and the record
    [kernel] that holds one field per component.  Static tables are lists of
    the C array's length; a pointer to a slot of a table is the slot's index
    ([payload] tags the table, [option nat] is a nullable slot pointer).
    Integers are [Z]; an enum that the code stores in an integer field is the
    integer. *)
From stdpp Require Import base gmap list numbers.
From Stdlib Require Import ZArith Lia.
From S2P Require Import Prelude.
#[local] Open Scope Z_scope.

(** ** Constants *)
Definition SCDK_BOOT_CORE : Z := 0.
Definition SCDK_MAX_CORES : Z := 1.
Definition SCDK_MAX_OBJECTS : Z := 4096.
Definition SCDK_MAX_CAPS : Z := 4096.
Definition SCDK_MAX_ENDPOINTS : Z := 64.
Definition SCDK_MAX_SERVICES : Z := 32.
Definition SCDK_MAX_RINGS : Z := 64.
Definition SCDK_RING_MAX_ENTRIES : Z := 64.
Definition SCDK_MAX_GRANTS : Z := 128.
Definition SCDK_MAX_USER_GRANTS : Z := 128.
Definition SCDK_MAX_USER_RINGS : Z := 64.
Definition SCDK_MAX_TASKS : Z := 64.
Definition SCDK_MAX_THREADS : Z := 128.

Definition SCDK_OBJ_NONE : Z := 0.
Definition SCDK_OBJ_FRAME : Z := 1.
Definition SCDK_OBJ_ADDRESS_SPACE : Z := 2.
Definition SCDK_OBJ_TASK : Z := 3.
Definition SCDK_OBJ_THREAD : Z := 4.
Definition SCDK_OBJ_ENDPOINT : Z := 5.
Definition SCDK_OBJ_RING : Z := 6.
Definition SCDK_OBJ_GRANT : Z := 7.
Definition SCDK_OBJ_SERVICE : Z := 8.
Definition SCDK_OBJ_FILE : Z := 9.
Definition SCDK_OBJ_DEVICE : Z := 10.
Definition SCDK_OBJ_DEVICE_QUEUE : Z := 11.

Definition SCDK_RIGHT_READ : Z := 1.
Definition SCDK_RIGHT_WRITE : Z := 2.
Definition SCDK_RIGHT_EXEC : Z := 4.
Definition SCDK_RIGHT_MAP : Z := 8.
Definition SCDK_RIGHT_SEND : Z := 16.
Definition SCDK_RIGHT_RECV : Z := 32.
Definition SCDK_RIGHT_BIND : Z := 64.
Definition SCDK_RIGHT_REVOKE : Z := 128.

(** ** Object and capability tables *)

(** What an object's [void *payload] points to: nothing, a slot of one of the
    static tables, or a block of the kernel heap. *)
Inductive payload : Set :=
  | P_null
  | P_endpoint (i : nat)
  | P_ring (i : nat)
  | P_grant (i : nat)
  | P_user_grant (i : nat)
  | P_task (i : nat)
  | P_thread (i : nat)
  | P_file (i : nat)
  | P_device (i : nat)
  | P_device_queue (i : nat)
  | P_heap (addr : Z)
  | P_other (addr : Z).

#[global] Instance payload_eq_dec : EqDecision payload.
Proof. solve_decision. Defined.

Record scdk_object := mk_object {
  obj_id : Z;
  obj_type : Z;
  obj_generation : Z;
  obj_owner_core : Z;
  obj_flags : Z;
  obj_payload : payload
}.

Record objects := mk_objects {
  object_table : list scdk_object;
  object_generations : list Z
}.

Record scdk_cap_entry := mk_cap_entry {
  ce_object_id : Z;
  ce_generation : Z;
  ce_object_type : Z;
  ce_revoked : Z;
  ce_rights : Z
}.

Record caps := mk_caps {
  cap_table : list scdk_cap_entry;
  cap_generations : list Z
}.

(** ** Messages, endpoints, services *)
Record scdk_message := mk_message {
  msg_sender : Z;
  msg_target : Z;
  msg_type : Z;
  msg_arg0 : Z;
  msg_arg1 : Z;
  msg_arg2 : Z;
  msg_arg3 : Z;
  msg_status : Z
}.

(** The functions the sources install as endpoint handlers. *)
Inductive handler_id : Set :=
  | console_endpoint_handler
  | tmpfs_endpoint_handler
  | vfs_endpoint_handler
  | proc_endpoint_handler
  | tty_endpoint_handler
  | devmgr_endpoint_handler
  | session_endpoint_handler
  | test_endpoint_handler (n : Z).

#[global] Instance handler_id_eq_dec : EqDecision handler_id.
Proof. solve_decision. Defined.

(** [handler = None] is the null function pointer. *)
Record scdk_endpoint := mk_endpoint {
  ep_object_id : Z;
  ep_handler : option handler_id;
  ep_context : Z
}.

Record scdk_service_slot := mk_service_slot {
  sv_service_id : Z;
  sv_endpoint : Z
}.

Record endpoints := mk_endpoints {
  endpoint_table : list scdk_endpoint;
  service_table : list scdk_service_slot
}.

(** ** Rings *)
Record scdk_ring_desc := mk_ring_desc {
  rd_op : Z;
  rd_cap : Z;
  rd_grant : Z;
  rd_offset : Z;
  rd_length : Z;
  rd_flags : Z
}.

Record scdk_completion := mk_completion {
  cp_op : Z;
  cp_status : Z;
  cp_result0 : Z;
  cp_result1 : Z
}.

(** The [sq] and [cq] pointers of the C struct point to the slot's own
    storage arrays, which are kept here in their place. *)
Record scdk_ring := mk_ring {
  rg_entries : Z;
  rg_submit_head : Z;
  rg_submit_tail : Z;
  rg_complete_head : Z;
  rg_complete_tail : Z;
  rg_sq : list scdk_ring_desc;
  rg_cq : list scdk_completion;
  rg_bound_target : Z
}.

Record scdk_ring_slot := mk_ring_slot {
  rs_object_id : Z;
  rs_ring : scdk_ring
}.

(** ** Grants *)
Record scdk_grant := mk_grant {
  gr_frame_cap : Z;
  gr_base : Z;
  gr_offset : Z;
  gr_length : Z;
  gr_rights : Z;
  gr_lifetime : Z;
  gr_refcount : Z
}.

Record scdk_grant_slot := mk_grant_slot {
  gs_object_id : Z;
  gs_grant : scdk_grant
}.

Record scdk_user_grant_slot := mk_user_grant_slot {
  ug_object_id : Z;
  ug_source_task : Z;
  ug_target_endpoint : Z;
  ug_user_base : Z;
  ug_length : Z;
  ug_rights : Z;
  ug_lifetime : Z;
  ug_revoked : bool
}.

Record scdk_user_ring_slot := mk_user_ring_slot {
  ur_in_use : bool;
  ur_source_task : Z;
  ur_ring_cap : Z;
  ur_target_endpoint : Z
}.

(** ** Physical pages, page tables, heap blocks, address spaces *)
Record scdk_pmm_region := mk_region {
  rgn_base : Z;
  rgn_length : Z;
  rgn_type : Z
}.

(** [page_stack] is the used prefix of the C array, top of the stack first, so
    that [free_pages] is its length; the two region lists are the used
    prefixes of the region arrays. *)
Record pmm := mk_pmm {
  page_stack : list Z;
  managed_pages : Z;
  allocated_pages : Z;
  usable_regions : list scdk_pmm_region;
  reserved_regions : list scdk_pmm_region;
  pmm_initialized : bool
}.

(** [memory] is the physical memory, as 64-bit words by 8-aligned physical
    address (a word that was never written is 0); the kernel pointer
    [phys_to_hhdm(p)] designates physical address [p], which is the direct map
    the bootloader sets up.  [cr3] is the register. *)
Record vmm := mk_vmm {
  cr3 : Z;
  active_cr3_phys : Z;
  active_hhdm_offset : Z;
  vmm_initialized : bool;
  memory : gmap Z Z
}.

Record scdk_heap_block := mk_heap_block {
  hb_magic : Z;
  hb_size : Z;
  hb_free : bool;
  hb_prev : Z;
  hb_next : Z
}.

(** The block headers by address (a removed block's header stays in memory,
    as in the C heap). *)
Record heap := mk_heap {
  heap_blocks : gmap Z scdk_heap_block;
  heap_head : Z;
  heap_tail : Z;
  heap_commit_end : Z;
  heap_initialized : bool
}.

Record scdk_address_space := mk_aspace {
  as_object_id : Z;
  as_root_phys : Z;
  as_owner_core : Z;
  as_flags : Z
}.

(** ** Tasks, threads, run queue *)
Record scdk_thread_context := mk_context {
  cx_r15 : Z;
  cx_r14 : Z;
  cx_r13 : Z;
  cx_r12 : Z;
  cx_rbx : Z;
  cx_rbp : Z;
  cx_rsp : Z
}.

Record scdk_task_slot := mk_task_slot {
  tk_object_id : Z;
  tk_cap : Z;
  tk_owner_core : Z;
  tk_address_space : Z;
  tk_main_thread : Z
}.

(** [th_entry] is the address of the entry function (0 for none). *)
Record scdk_thread_slot := mk_thread_slot {
  th_context : scdk_thread_context;
  th_object_id : Z;
  th_cap : Z;
  th_task_cap : Z;
  th_task_id : Z;
  th_entry : Z;
  th_arg : Z;
  th_kernel_stack : Z;
  th_stack_top : Z;
  th_owner_core : Z;
  th_state : Z;
  th_queued : bool
}.

Record scdk_run_queue := mk_run_queue {
  rq_entries : list Z;
  rq_head : Z;
  rq_tail : Z;
  rq_count : Z
}.

Record sched := mk_sched {
  task_table : list scdk_task_slot;
  thread_table : list scdk_thread_slot;
  run_queues : list scdk_run_queue;
  current_thread_slot : option nat;
  scheduler_driver_slot : option nat;
  current_task : Z;
  current_thread : Z;
  scheduler_initialized : bool
}.

Record scdk_user_task_slot := mk_user_task_slot {
  ut_in_use : bool;
  ut_task_cap : Z;
  ut_task_id : Z;
  ut_address_space_cap : Z;
  ut_address_space_id : Z;
  ut_main_thread_cap : Z;
  ut_capability_table_placeholder : Z;
  ut_owner_core : Z;
  ut_state : Z;
  ut_exit_status : Z
}.

Record scdk_user_thread_slot := mk_user_thread_slot {
  uh_in_use : bool;
  uh_thread_cap : Z;
  uh_thread_id : Z;
  uh_task_id : Z;
  uh_user_stack_top : Z;
  uh_instruction_pointer : Z;
  uh_owner_core : Z;
  uh_state : Z
}.

Record user_tasks_state := mk_user_tasks {
  user_tasks : list scdk_user_task_slot;
  user_threads : list scdk_user_thread_slot;
  current_user_task : Z
}.

(** ** The kernel *)
Record kernel := mk_kernel {
  k_objs : objects;
  k_caps : caps;
  k_eps : endpoints;
  k_rings : list scdk_ring_slot;
  k_grants : list scdk_grant_slot;
  k_ugrants : list scdk_user_grant_slot;
  k_urings : list scdk_user_ring_slot;
  k_pmm : pmm;
  k_vmm : vmm;
  k_heap : heap;
  k_aspaces : gmap Z scdk_address_space;
  k_sched : sched;
  k_utasks : user_tasks_state
}.

Definition set_objs (x : objects) (k : kernel) : kernel :=
  mk_kernel x (k_caps k) (k_eps k) (k_rings k) (k_grants k) (k_ugrants k) (k_urings k)
    (k_pmm k) (k_vmm k) (k_heap k) (k_aspaces k) (k_sched k) (k_utasks k).
Definition set_caps (x : caps) (k : kernel) : kernel :=
  mk_kernel (k_objs k) x (k_eps k) (k_rings k) (k_grants k) (k_ugrants k) (k_urings k)
    (k_pmm k) (k_vmm k) (k_heap k) (k_aspaces k) (k_sched k) (k_utasks k).
Definition set_eps (x : endpoints) (k : kernel) : kernel :=
  mk_kernel (k_objs k) (k_caps k) x (k_rings k) (k_grants k) (k_ugrants k) (k_urings k)
    (k_pmm k) (k_vmm k) (k_heap k) (k_aspaces k) (k_sched k) (k_utasks k).
Definition set_rings (x : list scdk_ring_slot) (k : kernel) : kernel :=
  mk_kernel (k_objs k) (k_caps k) (k_eps k) x (k_grants k) (k_ugrants k) (k_urings k)
    (k_pmm k) (k_vmm k) (k_heap k) (k_aspaces k) (k_sched k) (k_utasks k).
Definition set_grants (x : list scdk_grant_slot) (k : kernel) : kernel :=
  mk_kernel (k_objs k) (k_caps k) (k_eps k) (k_rings k) x (k_ugrants k) (k_urings k)
    (k_pmm k) (k_vmm k) (k_heap k) (k_aspaces k) (k_sched k) (k_utasks k).
Definition set_ugrants (x : list scdk_user_grant_slot) (k : kernel) : kernel :=
  mk_kernel (k_objs k) (k_caps k) (k_eps k) (k_rings k) (k_grants k) x (k_urings k)
    (k_pmm k) (k_vmm k) (k_heap k) (k_aspaces k) (k_sched k) (k_utasks k).
Definition set_urings (x : list scdk_user_ring_slot) (k : kernel) : kernel :=
  mk_kernel (k_objs k) (k_caps k) (k_eps k) (k_rings k) (k_grants k) (k_ugrants k) x
    (k_pmm k) (k_vmm k) (k_heap k) (k_aspaces k) (k_sched k) (k_utasks k).
Definition set_pmm (x : pmm) (k : kernel) : kernel :=
  mk_kernel (k_objs k) (k_caps k) (k_eps k) (k_rings k) (k_grants k) (k_ugrants k)
    (k_urings k) x (k_vmm k) (k_heap k) (k_aspaces k) (k_sched k) (k_utasks k).
Definition set_vmm (x : vmm) (k : kernel) : kernel :=
  mk_kernel (k_objs k) (k_caps k) (k_eps k) (k_rings k) (k_grants k) (k_ugrants k)
    (k_urings k) (k_pmm k) x (k_heap k) (k_aspaces k) (k_sched k) (k_utasks k).
Definition set_heap (x : heap) (k : kernel) : kernel :=
  mk_kernel (k_objs k) (k_caps k) (k_eps k) (k_rings k) (k_grants k) (k_ugrants k)
    (k_urings k) (k_pmm k) (k_vmm k) x (k_aspaces k) (k_sched k) (k_utasks k).
Definition set_aspaces (x : gmap Z scdk_address_space) (k : kernel) : kernel :=
  mk_kernel (k_objs k) (k_caps k) (k_eps k) (k_rings k) (k_grants k) (k_ugrants k)
    (k_urings k) (k_pmm k) (k_vmm k) (k_heap k) x (k_sched k) (k_utasks k).
Definition set_sched (x : sched) (k : kernel) : kernel :=
  mk_kernel (k_objs k) (k_caps k) (k_eps k) (k_rings k) (k_grants k) (k_ugrants k)
    (k_urings k) (k_pmm k) (k_vmm k) (k_heap k) (k_aspaces k) x (k_utasks k).
Definition set_utasks (x : user_tasks_state) (k : kernel) : kernel :=
  mk_kernel (k_objs k) (k_caps k) (k_eps k) (k_rings k) (k_grants k) (k_ugrants k)
    (k_urings k) (k_pmm k) (k_vmm k) (k_heap k) (k_aspaces k) (k_sched k) x.

(** A static table of [n] zero-initialised slots. *)
Definition zeroed {A} (n : Z) (x : A) : list A := replicate (Z.to_nat n) x.

Definition null_object : scdk_object := mk_object 0 SCDK_OBJ_NONE 0 0 0 P_null.
Definition null_cap_entry : scdk_cap_entry := mk_cap_entry 0 0 0 0 0.
Definition null_ring_desc : scdk_ring_desc := mk_ring_desc 0 0 0 0 0 0.
Definition null_completion : scdk_completion := mk_completion 0 0 0 0.
Definition null_ring : scdk_ring :=
  mk_ring 0 0 0 0 0 (zeroed SCDK_RING_MAX_ENTRIES null_ring_desc)
    (zeroed SCDK_RING_MAX_ENTRIES null_completion) 0.
Definition null_user_grant : scdk_user_grant_slot :=
  mk_user_grant_slot 0 0 0 0 0 0 0 false.
Definition null_context : scdk_thread_context := mk_context 0 0 0 0 0 0 0.

(** The kernel before any initialisation: every static variable is zero. *)
Definition boot_objects : objects :=
  mk_objects (zeroed SCDK_MAX_OBJECTS null_object) (zeroed SCDK_MAX_OBJECTS 0).
Definition boot_caps : caps :=
  mk_caps (zeroed SCDK_MAX_CAPS null_cap_entry) (zeroed SCDK_MAX_CAPS 0).
Definition boot_endpoints : endpoints :=
  mk_endpoints (zeroed SCDK_MAX_ENDPOINTS (mk_endpoint 0 None 0))
    (zeroed SCDK_MAX_SERVICES (mk_service_slot 0 0)).
Definition boot_sched : sched :=
  mk_sched (zeroed SCDK_MAX_TASKS (mk_task_slot 0 0 0 0 0))
    (zeroed SCDK_MAX_THREADS (mk_thread_slot null_context 0 0 0 0 0 0 0 0 0 0 false))
    (zeroed SCDK_MAX_CORES (mk_run_queue (zeroed SCDK_MAX_THREADS 0) 0 0 0))
    None None 0 0 false.
Definition boot_kernel : kernel :=
  mk_kernel boot_objects boot_caps boot_endpoints
    (zeroed SCDK_MAX_RINGS (mk_ring_slot 0 null_ring))
    (zeroed SCDK_MAX_GRANTS (mk_grant_slot 0 (mk_grant 0 0 0 0 0 0 0)))
    (zeroed SCDK_MAX_USER_GRANTS null_user_grant)
    (zeroed SCDK_MAX_USER_RINGS (mk_user_ring_slot false 0 0 0))
    (mk_pmm [] 0 0 [] [] false)
    (mk_vmm 0 0 0 false ∅)
    (mk_heap ∅ 0 0 0 false)
    ∅
    boot_sched
    (mk_user_tasks (zeroed SCDK_MAX_TASKS (mk_user_task_slot false 0 0 0 0 0 0 0 0 0))
       (zeroed SCDK_MAX_THREADS (mk_user_thread_slot false 0 0 0 0 0 0 0)) 0).

(** The kernel monad. *)
Definition K (A : Type) : Type := M kernel A.
