(* ===== verification/Object.v ===== *)
(** * Object table ([src/core/object.c])

    Metadata entries named by a 64-bit id whose low half is the slot index and
    whose high half is the slot's generation. *)
From stdpp Require Import base gmap list numbers.
From Stdlib Require Import ZArith Lia.
From S2P Require Import Prelude.
From S2P Require Import Kernel.
#[local] Open Scope Z_scope.

(** ** Identifiers: [(generation << 32) | index] *)
Definition object_make_id (index generation : Z) : Z :=
  Z.lor (Z.shiftl generation 32) index.
Definition object_id_index (id : Z) : Z := wrap32 (Z.land id 0xffffffff).
Definition object_id_generation (id : Z) : Z := wrap32 (Z.shiftr id 32).

(** The generation after [g]: a 32-bit increment that skips 0. *)
Definition gen_succ (g : Z) : Z :=
  let generation := wrap32 (g + 1) in
  if generation =? 0 then 1 else generation.

Definition set_object_generation (i : nat) (g : Z) (k : kernel) : kernel :=
  set_objs (mk_objects (object_table (k_objs k))
                       (<[i:=g]> (object_generations (k_objs k)))) k.
Definition set_object (i : nat) (o : scdk_object) (k : kernel) : kernel :=
  set_objs (mk_objects (<[i:=o]> (object_table (k_objs k)))
                       (object_generations (k_objs k))) k.

Definition next_generation (index : nat) : K Z :=
  let* old := query (λ k, deref (object_generations (k_objs k) !! index)) in
  let generation := gen_succ old in
  modify (set_object_generation index generation) ;;
  ret generation.

Definition scdk_object_create (type owner_core flags : Z) (pl : payload) : K Z :=
  guard ((type =? SCDK_OBJ_NONE) || (SCDK_MAX_CORES <=? owner_core)) SCDK_ERR_INVAL ;;
  let* slot := gets (λ k, find_slot (λ o, obj_type o =? SCDK_OBJ_NONE)
                            (object_table (k_objs k))) in
  match slot with
  | None => fail SCDK_ERR_NOMEM
  | Some i =>
      let* generation := next_generation i in
      let id := object_make_id (Z.of_nat i) generation in
      modify (set_object i (mk_object id type generation owner_core flags pl)) ;;
      ret id
  end.

Definition scdk_object_lookup (k : kernel) (id : Z) : result scdk_object :=
  let? _ := rguard (id =? 0) SCDK_ERR_INVAL in
  let index := object_id_index id in
  let generation := object_id_generation id in
  let? _ := rguard ((SCDK_MAX_OBJECTS <=? index) || (generation =? 0)) SCDK_ERR_NOENT in
  let? object := deref (object_table (k_objs k) !! Z.to_nat index) in
  let? _ := rguard ((obj_type object =? SCDK_OBJ_NONE)
                    || negb (obj_generation object =? generation)
                    || negb (obj_id object =? id)) SCDK_ERR_NOENT in
  Ok object.

(** ** Identifier arithmetic *)
Section ids.
Implicit Types i g : Z.

Lemma object_make_id_val i g : u32 i → object_make_id i g = g * two32 + i.
Proof. intros Hi. unfold object_make_id. by rewrite lor_disjoint_add. Qed.

Lemma object_id_index_make i g : u32 i → object_id_index (object_make_id i g) = i.
Proof.
  intros Hi. unfold object_id_index. rewrite object_make_id_val by done.
  change 0xffffffff with (2 ^ 32 - 1). rewrite land_mask_mod by lia.
  change (2 ^ 32) with two32. unfold wrap32, u32, two32 in *.
  rewrite Z.mod_mod by lia. rewrite Z.add_comm, Z.mod_add by lia. by apply Z.mod_small.
Qed.

Lemma object_id_generation_make i g :
  u32 i → u32 g → object_id_generation (object_make_id i g) = g.
Proof.
  intros Hi Hg. unfold object_id_generation. rewrite object_make_id_val by done.
  rewrite Z.shiftr_div_pow2 by lia. change (2 ^ 32) with two32.
  unfold wrap32, u32, two32 in *.
  rewrite Z.div_add_l by lia. rewrite (Z.div_small i) by lia.
  rewrite Z.add_0_r. by apply Z.mod_small.
Qed.

Lemma object_make_id_u64 i g : u32 i → u32 g → u64 (object_make_id i g).
Proof. intros Hi Hg. rewrite object_make_id_val by done. unfold u32, u64, two32, two64 in *. lia. Qed.

Lemma object_make_id_nonzero i g : u32 i → 0 < g → object_make_id i g ≠ 0.
Proof. intros Hi Hg. rewrite object_make_id_val by done. unfold u32, two32 in *. lia. Qed.

Lemma object_make_id_inj i1 g1 i2 g2 :
  u32 i1 → u32 i2 → object_make_id i1 g1 = object_make_id i2 g2 → i1 = i2 ∧ g1 = g2.
Proof.
  intros H1 H2. rewrite !object_make_id_val by done. unfold u32, two32 in *. lia.
Qed.

Lemma gen_succ_range g : 0 < gen_succ g < two32.
Proof.
  unfold gen_succ, wrap32. pose proof (Z.mod_pos_bound (g + 1) two32 eq_refl).
  destruct (Z.eqb_spec ((g + 1) mod two32) 0); unfold two32 in *; lia.
Qed.

Lemma gen_succ_neq g : u32 g → gen_succ g ≠ g.
Proof.
  intros Hg. unfold gen_succ, wrap32, u32, two32 in *.
  destruct (decide (g = 4294967295)) as [->|].
  - done.
  - rewrite Z.mod_small by lia. destruct (Z.eqb_spec (g + 1) 0); lia.
Qed.
End ids.

(** ** Well-formed object tables *)
Record objects_wf (s : objects) : Prop := {
  owf_table_length : length (object_table s) = Z.to_nat SCDK_MAX_OBJECTS;
  owf_gens_length : length (object_generations s) = Z.to_nat SCDK_MAX_OBJECTS;
  owf_gens_u32 : ∀ i g, object_generations s !! i = Some g → u32 g;
  owf_live : ∀ i o, object_table s !! i = Some o → obj_type o ≠ SCDK_OBJ_NONE →
    0 < obj_generation o ∧
    obj_id o = object_make_id (Z.of_nat i) (obj_generation o) ∧
    object_generations s !! i = Some (obj_generation o)
}.

Lemma table_index_u32 (n : nat) (z : Z) : (n < Z.to_nat z)%nat → z <= 4096 → u32 (Z.of_nat n).
Proof. unfold u32, two32. lia. Qed.

Lemma lookup_zeroed_inv {A} n (x y : A) (i : nat) :
  zeroed n x !! i = Some y → y = x.
Proof. unfold zeroed. by intros [-> _]%lookup_replicate. Qed.

Lemma boot_objects_wf : objects_wf boot_objects.
Proof.
  split; unfold boot_objects; simpl object_table; simpl object_generations.
  - apply length_replicate.
  - apply length_replicate.
  - intros i g ->%lookup_zeroed_inv. done.
  - intros i o ->%lookup_zeroed_inv. done.
Qed.

Section object_facts.
Implicit Types k : kernel.

Lemma next_generation_run k i g :
  object_generations (k_objs k) !! i = Some g →
  next_generation i k = (Ok (gen_succ g), set_object_generation i (gen_succ g) k).
Proof. intros H. unfold next_generation, bind, query. by rewrite H. Qed.

(** The complete behaviour of [scdk_object_create]. *)
Lemma object_create_inv k type owner flags pl r k' :
  scdk_object_create type owner flags pl k = (r, k') →
  objects_wf (k_objs k) →
  (r = Err SCDK_ERR_INVAL ∧ k' = k ∧ (type = SCDK_OBJ_NONE ∨ SCDK_MAX_CORES <= owner)) ∨
  (r = Err SCDK_ERR_NOMEM ∧ k' = k ∧
     ∀ i o, object_table (k_objs k) !! i = Some o → obj_type o ≠ SCDK_OBJ_NONE) ∨
  (∃ i o0 g, type ≠ SCDK_OBJ_NONE ∧ owner < SCDK_MAX_CORES ∧
     object_table (k_objs k) !! i = Some o0 ∧ obj_type o0 = SCDK_OBJ_NONE ∧
     object_generations (k_objs k) !! i = Some g ∧
     r = Ok (object_make_id (Z.of_nat i) (gen_succ g)) ∧
     k' = set_object i (mk_object (object_make_id (Z.of_nat i) (gen_succ g)) type
                          (gen_succ g) owner flags pl)
            (set_object_generation i (gen_succ g) k)).
Proof.
  intros Hrun Hwf. unfold scdk_object_create, bind at 1, guard in Hrun.
  destruct (_ || _) eqn:Hg; cbn -[find_slot] in Hrun.
  { injection Hrun as <- <-. left. apply orb_true_iff in Hg as [?%Z.eqb_eq|?%Z.leb_le]; auto. }
  apply orb_false_iff in Hg as [?%Z.eqb_neq ?%Z.leb_gt]. right.
  unfold bind at 1, gets in Hrun. destruct (find_slot _ _) as [i|] eqn:Hf; cbn -[next_generation] in Hrun.
  - right. pose proof (find_slot_lt _ _ _ Hf) as Hlt.
    apply find_slot_Some in Hf as [[o0 [Ho0 ?%Z.eqb_eq]] _].
    destruct (lookup_lt_is_Some_2 (object_generations (k_objs k)) i) as [g Hgen].
    { rewrite (owf_gens_length _ Hwf). by rewrite <-(owf_table_length _ Hwf). }
    unfold bind in Hrun. rewrite (next_generation_run _ _ _ Hgen) in Hrun. cbn in Hrun.
    injection Hrun as <- <-. exists i, o0, g. done.
  - left. injection Hrun as <- <-. split_and!; [done..|]. intros i o Hi Ho.
    rewrite find_slot_None in Hf. specialize (Hf i o Hi). by apply Z.eqb_neq in Hf.
Qed.

Lemma object_create_wf type owner flags pl :
  preserves (λ k, objects_wf (k_objs k)) (scdk_object_create type owner flags pl).
Proof.
  intros k Hwf. destruct (scdk_object_create _ _ _ _ k) as [r k'] eqn:Hrun.
  destruct (object_create_inv _ _ _ _ _ _ _ Hrun Hwf)
    as [(->&->&?)|[(->&->&?)|(i&o0&g&?&?&Ho0&?&Hg&->&->)]]; [done..|].
  simpl. pose proof (lookup_lt_Some _ _ _ Ho0) as Hlt.
  pose proof (lookup_lt_Some _ _ _ Hg) as Hlt'.
  pose proof (gen_succ_range g). destruct Hwf as [Hl Hgl Hu Hlive]. split; simpl.
  - by rewrite length_insert.
  - by rewrite length_insert.
  - intros j g' Hj. apply list_lookup_insert_Some in Hj as [(<-&<-&_)|(_&Hj)].
    + unfold u32. lia.
    + by eapply Hu.
  - intros j o Hj Hty. apply list_lookup_insert_Some in Hj as [(<-&<-&_)|(Hne&Hj)]; simpl.
    + rewrite list_lookup_insert_eq by done. split_and!; [lia|done..].
    + rewrite list_lookup_insert_ne by done. by apply Hlive.
Qed.

(** Where a successful lookup finds its object. *)
Lemma object_lookup_Ok k id o :
  scdk_object_lookup k id = Ok o →
  ∃ i, object_table (k_objs k) !! i = Some o ∧ obj_type o ≠ SCDK_OBJ_NONE ∧
    obj_id o = id ∧ obj_generation o = object_id_generation id ∧
    id ≠ 0 ∧ i = Z.to_nat (object_id_index id).
Proof.
  unfold scdk_object_lookup. intros H. minv H. bsplit. eauto 10.
Qed.

Lemma object_lookup_live k i o :
  objects_wf (k_objs k) →
  object_table (k_objs k) !! i = Some o → obj_type o ≠ SCDK_OBJ_NONE →
  scdk_object_lookup k (obj_id o) = Ok o.
Proof.
  intros Hwf Hi Hty. destruct (owf_live _ Hwf i o Hi Hty) as (Hpos & Hid & Hg).
  pose proof (owf_gens_u32 _ Hwf _ _ Hg) as Hgu.
  pose proof (lookup_lt_Some _ _ _ Hi) as Hlt. rewrite (owf_table_length _ Hwf) in Hlt.
  assert (Hiu : u32 (Z.of_nat i)) by (eapply table_index_u32; [done|by vm_compute]).
  unfold scdk_object_lookup. rewrite Hid.
  rewrite object_id_index_make, object_id_generation_make by done.
  pose proof (object_make_id_nonzero (Z.of_nat i) _ Hiu Hpos).
  destruct (Z.eqb_spec (object_make_id (Z.of_nat i) (obj_generation o)) 0); [done|]. simpl.
  destruct (Z.leb_spec SCDK_MAX_OBJECTS (Z.of_nat i)); [unfold SCDK_MAX_OBJECTS in *; lia|].
  destruct (Z.eqb_spec (obj_generation o) 0); [lia|]. simpl.
  rewrite Nat2Z.id, Hi. simpl.
  destruct (Z.eqb_spec (obj_type o) SCDK_OBJ_NONE); [done|]. simpl.
  by rewrite Hid, !Z.eqb_refl.
Qed.

Lemma object_lookup_objs k1 k2 id :
  k_objs k1 = k_objs k2 → scdk_object_lookup k1 id = scdk_object_lookup k2 id.
Proof. intros H. unfold scdk_object_lookup. by rewrite H. Qed.

Lemma object_lookup_defined k id :
  objects_wf (k_objs k) → defined (scdk_object_lookup k id).
Proof.
  intros Hwf. unfold scdk_object_lookup.
  apply rbind_defined; [by destruct (id =? 0)|intros _ _].
  destruct (_ || _) eqn:Hb; [discriminate|]. bsplit.
  apply rbind_defined; [discriminate|intros _ _].
  apply rbind_defined; [|by intros o _; destruct (_ || _)].
  destruct (lookup_lt_is_Some_2 (object_table (k_objs k)) (Z.to_nat (object_id_index id)))
    as [o Ho]; [|by rewrite Ho].
  rewrite (owf_table_length _ Hwf). unfold SCDK_MAX_OBJECTS in *. lia.
Qed.

(** A successful creation: the new object, found under its id; nothing else
    of the kernel changes and every earlier object is still found. *)
Record object_created (k k' : kernel) (id type owner flags : Z) (pl : payload) : Prop := {
  oc_frame : k' = set_objs (k_objs k') k;
  oc_wf : objects_wf (k_objs k');
  oc_nonzero : id ≠ 0;
  oc_u64 : u64 id;
  oc_fresh : ∀ o, scdk_object_lookup k id ≠ Ok o;
  oc_lookup : ∃ g, 0 < g < two32 ∧
    scdk_object_lookup k' id = Ok (mk_object id type g owner flags pl);
  oc_keep : ∀ id' o, scdk_object_lookup k id' = Ok o → scdk_object_lookup k' id' = Ok o;
  oc_only : ∀ id' o, scdk_object_lookup k' id' = Ok o →
    scdk_object_lookup k id' = Ok o ∨
    id' = id ∧ obj_type o = type ∧ obj_payload o = pl ∧ obj_owner_core o = owner;
  oc_type : type ≠ SCDK_OBJ_NONE;
  oc_owner : owner < SCDK_MAX_CORES
}.

Lemma object_create_Ok k type owner flags pl id k' :
  objects_wf (k_objs k) →
  scdk_object_create type owner flags pl k = (Ok id, k') →
  object_created k k' id type owner flags pl.
Proof.
  intros Hwf Hrun.
  pose proof (object_create_wf type owner flags pl k Hwf) as Hwf'. rewrite Hrun in Hwf'.
  simpl in Hwf'.
  destruct (object_create_inv _ _ _ _ _ _ _ Hrun Hwf)
    as [(?&_)|[(?&_)|(i&o0&g&Hty&How&Ho0&Hn&Hg&[= ->]&->)]]; [done..|].
  pose proof (lookup_lt_Some _ _ _ Ho0) as Hlt.
  pose proof Hlt as Hlt'. rewrite (owf_table_length _ Hwf) in Hlt'.
  assert (Hiu : u32 (Z.of_nat i)) by (eapply table_index_u32; [done|by vm_compute]).
  pose proof (gen_succ_range g) as Hgr.
  set (id := object_make_id (Z.of_nat i) (gen_succ g)) in *.
  set (o := mk_object id type (gen_succ g) owner flags pl) in *.
  set (k' := set_object i o (set_object_generation i (gen_succ g) k)) in *.
  assert (Hi' : object_table (k_objs k') !! i = Some o) by (by apply list_lookup_insert_eq).
  assert (Hne : ∀ j, j ≠ i →
    object_table (k_objs k') !! j = object_table (k_objs k) !! j).
  { intros j Hj. simpl. by rewrite list_lookup_insert_ne. }
  split; try done.
  - by apply object_make_id_nonzero; [|lia].
  - apply object_make_id_u64; [done|]. unfold u32. lia.
  - intros o' (j&Hj&Hjt&Hjid&Hjg&_&->)%object_lookup_Ok. unfold id in Hj.
    rewrite object_id_index_make, Nat2Z.id, Ho0 in Hj by done. congruence.
  - exists (gen_succ g). split; [done|]. by apply (object_lookup_live k' i o).
  - intros id' o' (j&Hj&Hjt&<-&_)%object_lookup_Ok.
    apply (object_lookup_live k' j); [done| |done]. rewrite Hne; [done|]. congruence.
  - intros id' o' (j&Hj&Hjt&<-&_)%object_lookup_Ok. destruct (decide (j = i)) as [->|Hj'].
    + right. rewrite Hi' in Hj. injection Hj as <-. done.
    + left. rewrite Hne in Hj by done. by apply (object_lookup_live k j).
Qed.

Lemma object_create_Err k type owner flags pl e k' :
  objects_wf (k_objs k) →
  scdk_object_create type owner flags pl k = (Err e, k') → k' = k.
Proof.
  intros Hwf Hrun. destruct (object_create_inv _ _ _ _ _ _ _ Hrun Hwf)
    as [(_&->&_)|[(_&->&_)|(?&?&?&_&_&_&_&_&?&_)]]; done.
Qed.

Lemma object_create_defined k type owner flags pl :
  objects_wf (k_objs k) → defined (scdk_object_create type owner flags pl k).1.
Proof.
  intros Hwf. destruct (scdk_object_create _ _ _ _ k) as [r k'] eqn:Hrun.
  destruct (object_create_inv _ _ _ _ _ _ _ Hrun Hwf)
    as [(->&_)|[(->&_)|(?&?&?&_&_&_&_&_&->&_)]]; done.
Qed.

(** Two live objects never share an id. *)
Lemma object_ids_unique k i j o1 o2 :
  objects_wf (k_objs k) →
  object_table (k_objs k) !! i = Some o1 → object_table (k_objs k) !! j = Some o2 →
  obj_type o1 ≠ SCDK_OBJ_NONE → obj_type o2 ≠ SCDK_OBJ_NONE →
  obj_id o1 = obj_id o2 → i = j.
Proof.
  intros Hwf H1 H2 T1 T2 Heq.
  destruct (owf_live _ Hwf _ _ H1 T1) as (_ & E1 & _).
  destruct (owf_live _ Hwf _ _ H2 T2) as (_ & E2 & _).
  pose proof (lookup_lt_Some _ _ _ H1) as L1. pose proof (lookup_lt_Some _ _ _ H2) as L2.
  rewrite (owf_table_length _ Hwf) in L1, L2. rewrite E1, E2 in Heq.
  apply object_make_id_inj in Heq; [lia| |]; eapply table_index_u32; try done; by vm_compute.
Qed.
End object_facts.
