(* ===== verification/Capability.v ===== *)
(** * Capability table ([src/core/capability.c], [src/core/revoke.c])

    A capability token names a slot of the table and the generation the slot
    had when the token was minted; revoking a token advances the generation. *)
From stdpp Require Import base gmap list numbers relations.
From Stdlib Require Import ZArith Lia.
From S2P Require Import Prelude.
From S2P Require Import Kernel.
From S2P Require Import Object.
#[local] Open Scope Z_scope.

Definition cap_make_token (index generation : Z) : Z :=
  Z.lor (Z.shiftl generation 32) index.
Definition cap_index (cap : Z) : Z := wrap32 (Z.land cap 0xffffffff).
Definition cap_generation (cap : Z) : Z := wrap32 (Z.shiftr cap 32).

Definition set_cap_generation (i : nat) (g : Z) (k : kernel) : kernel :=
  set_caps (mk_caps (cap_table (k_caps k)) (<[i:=g]> (cap_generations (k_caps k)))) k.
Definition set_cap_entry (i : nat) (e : scdk_cap_entry) (k : kernel) : kernel :=
  set_caps (mk_caps (<[i:=e]> (cap_table (k_caps k))) (cap_generations (k_caps k))) k.

Definition next_cap_generation (index : nat) : K Z :=
  let* old := query (λ k, deref (cap_generations (k_caps k) !! index)) in
  let generation := gen_succ old in
  modify (set_cap_generation index generation) ;;
  ret generation.

Definition validate_cap_slot (k : kernel) (cap : Z) : result scdk_cap_entry :=
  let? _ := rguard (cap =? 0) SCDK_ERR_INVAL in
  let index := cap_index cap in
  let generation := cap_generation cap in
  let? _ := rguard ((SCDK_MAX_CAPS <=? index) || (generation =? 0)) SCDK_ERR_NOENT in
  let? current := deref (cap_generations (k_caps k) !! Z.to_nat index) in
  let? _ := rguard (negb (current =? generation)) SCDK_ERR_NOENT in
  let? entry := deref (cap_table (k_caps k) !! Z.to_nat index) in
  let? _ := rguard ((ce_object_id entry =? 0) || negb (ce_revoked entry =? 0))
              SCDK_ERR_NOENT in
  Ok entry.

Definition scdk_cap_create (object_id rights : Z) : K Z :=
  guard (rights =? 0) SCDK_ERR_INVAL ;;
  let* object := query (λ k, scdk_object_lookup k object_id) in
  let* slot := gets (λ k, find_slot (λ e, negb (negb (ce_object_id e =? 0)
                                                && (ce_revoked e =? 0)))
                            (cap_table (k_caps k))) in
  match slot with
  | None => fail SCDK_ERR_NOMEM
  | Some i =>
      let* cap_gen := next_cap_generation i in
      modify (set_cap_entry i (mk_cap_entry (obj_id object) (obj_generation object)
                                 (obj_type object) 0 rights)) ;;
      ret (cap_make_token (Z.of_nat i) cap_gen)
  end.

Definition scdk_cap_lookup (k : kernel) (cap : Z) : result scdk_cap_entry :=
  let? entry := validate_cap_slot k cap in
  let? object := scdk_object_lookup k (ce_object_id entry) in
  let? _ := rguard (negb (obj_generation object =? ce_generation entry)
                    || negb (obj_type object =? ce_object_type entry)) SCDK_ERR_NOENT in
  Ok entry.

Definition scdk_cap_check (k : kernel) (cap required_rights expected_type : Z)
  : result scdk_cap_entry :=
  let? _ := rguard (required_rights =? 0) SCDK_ERR_INVAL in
  let? entry := scdk_cap_lookup k cap in
  let? _ := rguard (negb (expected_type =? SCDK_OBJ_NONE)
                    && negb (ce_object_type entry =? expected_type)) SCDK_ERR_PERM in
  let? _ := rguard (negb (Z.land (ce_rights entry) required_rights =? required_rights))
              SCDK_ERR_PERM in
  Ok entry.

Definition mark_revoked (e : scdk_cap_entry) : scdk_cap_entry :=
  mk_cap_entry (ce_object_id e) (ce_generation e) (ce_object_type e) 1 (ce_rights e).

Definition scdk_cap_revoke (cap : Z) : K unit :=
  let* _ := query (λ k, scdk_cap_lookup k cap) in
  let index := Z.to_nat (cap_index cap) in
  let* entry := query (λ k, deref (cap_table (k_caps k) !! index)) in
  modify (set_cap_entry index (mark_revoked entry)) ;;
  let* _ := next_cap_generation index in
  ret tt.

Definition scdk_cap_revoke_stub (cap : Z) : K unit :=
  let* _ := query (λ k, scdk_cap_lookup k cap) in
  scdk_cap_revoke cap.

(** [src/core/revoke.c] *)
Definition scdk_revoke_capability (cap : Z) : K unit := scdk_cap_revoke cap.

(** ** Well-formed capability tables *)
Definition cap_live (e : scdk_cap_entry) : Prop :=
  ce_object_id e ≠ 0 ∧ ce_revoked e = 0.

#[global] Instance cap_live_dec e : Decision (cap_live e).
Proof. unfold cap_live. apply _. Defined.

Record caps_wf (k : kernel) : Prop := {
  cwf_objs : objects_wf (k_objs k);
  cwf_table_length : length (cap_table (k_caps k)) = Z.to_nat SCDK_MAX_CAPS;
  cwf_gens_length : length (cap_generations (k_caps k)) = Z.to_nat SCDK_MAX_CAPS;
  cwf_gens_u32 : ∀ i g, cap_generations (k_caps k) !! i = Some g → u32 g;
  cwf_live : ∀ i e, cap_table (k_caps k) !! i = Some e → cap_live e →
    (∃ g, cap_generations (k_caps k) !! i = Some g ∧ 0 < g) ∧
    ce_rights e ≠ 0 ∧
    ∃ o, scdk_object_lookup k (ce_object_id e) = Ok o ∧
      obj_generation o = ce_generation e ∧ obj_type o = ce_object_type e
}.

Lemma boot_caps_wf : caps_wf boot_kernel.
Proof.
  split.
  - apply boot_objects_wf.
  - apply length_replicate.
  - apply length_replicate.
  - intros i g. unfold boot_kernel, boot_caps; simpl k_caps. simpl cap_generations.
    intros ->%lookup_zeroed_inv. done.
  - intros i e. unfold boot_kernel, boot_caps; simpl k_caps. simpl cap_table.
    intros ->%lookup_zeroed_inv [Hn _]. done.
Qed.

Section cap_facts.
Implicit Types k : kernel.

Lemma next_cap_generation_run k i g :
  cap_generations (k_caps k) !! i = Some g →
  next_cap_generation i k = (Ok (gen_succ g), set_cap_generation i (gen_succ g) k).
Proof. intros H. unfold next_cap_generation, bind, query. by rewrite H. Qed.

(** What a valid token designates. *)
Definition cap_at (k : kernel) (i : nat) (e : scdk_cap_entry) (cap : Z) : Prop :=
  ∃ g, cap_table (k_caps k) !! i = Some e ∧ cap_generations (k_caps k) !! i = Some g ∧
    cap_live e ∧ 0 < g ∧ cap = cap_make_token (Z.of_nat i) g.

Lemma cap_token_split cap :
  u64 cap → cap = cap_make_token (cap_index cap) (cap_generation cap).
Proof.
  intros Hc. unfold u64, cap_index, cap_generation, wrap32 in *.
  change 0xffffffff with (2 ^ 32 - 1). rewrite land_mask_mod by lia.
  rewrite Z.shiftr_div_pow2 by lia. change (2 ^ 32) with two32.
  rewrite Z.mod_mod by done.
  change cap_make_token with object_make_id. rewrite object_make_id_val.
  - rewrite (Z.mod_small (cap / two32)).
    + pose proof (Z.div_mod cap two32). unfold two32 in *. lia.
    + unfold two64, two32 in *. split; [apply Z.div_pos; lia|].
      apply Z.div_lt_upper_bound; lia.
  - apply Z.mod_pos_bound. done.
Qed.

Lemma cap_lookup_at k i e cap :
  caps_wf k → cap_at k i e cap → scdk_cap_lookup k cap = Ok e.
Proof.
  intros Hwf (g & Hi & Hg & [Hn Hr] & Hpos & ->).
  destruct (cwf_live _ Hwf i e Hi (conj Hn Hr)) as (_ & _ & o & Ho & Hog & Hot).
  pose proof (cwf_gens_u32 _ Hwf _ _ Hg) as Hgu.
  pose proof (lookup_lt_Some _ _ _ Hi) as Hlt. rewrite (cwf_table_length _ Hwf) in Hlt.
  assert (Hiu : u32 (Z.of_nat i)) by (eapply table_index_u32; [done|by vm_compute]).
  assert (validate_cap_slot k (cap_make_token (Z.of_nat i) g) = Ok e) as Hv.
  { unfold validate_cap_slot. change cap_make_token with object_make_id.
    change cap_index with object_id_index. change cap_generation with object_id_generation.
    rewrite object_id_index_make, object_id_generation_make by done.
    pose proof (object_make_id_nonzero (Z.of_nat i) _ Hiu Hpos) as Hnz.
    apply Z.eqb_neq in Hnz. rewrite Hnz. simpl.
    assert ((SCDK_MAX_CAPS <=? Z.of_nat i) = false) as ->
      by (apply Z.leb_gt; unfold SCDK_MAX_CAPS in *; lia).
    assert ((g =? 0) = false) as -> by (apply Z.eqb_neq; lia). simpl.
    rewrite Nat2Z.id, Hg. simpl. rewrite Z.eqb_refl. simpl. rewrite Hi. simpl.
    apply Z.eqb_neq in Hn. rewrite Hn, Hr. done. }
  unfold scdk_cap_lookup. rewrite Hv. simpl. rewrite Ho. simpl.
  by rewrite Hog, Hot, !Z.eqb_refl.
Qed.

Lemma cap_lookup_Ok k cap e :
  caps_wf k → scdk_cap_lookup k cap = Ok e → u64 cap →
  cap_at k (Z.to_nat (cap_index cap)) e cap.
Proof.
  intros Hwf H Hc. unfold scdk_cap_lookup, validate_cap_slot in H.
  minv H. minv E. bsplit. subst.
  exists (cap_generation cap). repeat split; try done.
  - unfold cap_generation, wrap32 in *.
    pose proof (Z.mod_pos_bound (Z.shiftr cap 32) two32 eq_refl). lia.
  - rewrite Z2Nat.id; [by apply cap_token_split|].
    unfold cap_index, wrap32. pose proof (Z.mod_pos_bound (Z.land cap 0xffffffff) two32 eq_refl). lia.
Qed.

Lemma cap_lookup_defined k cap : caps_wf k → defined (scdk_cap_lookup k cap).
Proof.
  intros Hwf. unfold scdk_cap_lookup, validate_cap_slot.
  apply rbind_defined; [|intros e _].
  - apply rbind_defined; [by destruct (cap =? 0)|intros _ _].
    destruct (_ || _) eqn:Hb; [discriminate|]. bsplit.
    assert (Z.to_nat (cap_index cap) < Z.to_nat SCDK_MAX_CAPS)%nat as Hlt
      by (unfold SCDK_MAX_CAPS in *; lia).
    apply rbind_defined; [discriminate|intros _ _].
    apply rbind_defined; [|intros g _; apply rbind_defined; [by destruct (negb _)|intros _ _]].
    + destruct (lookup_lt_is_Some_2 (cap_generations (k_caps k)) (Z.to_nat (cap_index cap)))
        as [g Hg]; [by rewrite (cwf_gens_length _ Hwf)|by rewrite Hg].
    + apply rbind_defined; [|by intros e _; destruct (_ || _)].
      destruct (lookup_lt_is_Some_2 (cap_table (k_caps k)) (Z.to_nat (cap_index cap)))
        as [e He]; [by rewrite (cwf_table_length _ Hwf)|by rewrite He].
  - apply rbind_defined; [apply object_lookup_defined, Hwf|]. by intros o _; destruct (_ || _).
Qed.

Lemma cap_check_defined k cap r t : caps_wf k → defined (scdk_cap_check k cap r t).
Proof.
  intros Hwf. unfold scdk_cap_check.
  apply rbind_defined; [by destruct (r =? 0)|intros _ _].
  apply rbind_defined; [by apply cap_lookup_defined|intros e _].
  apply rbind_defined; [by destruct (_ && _)|intros _ _].
  by destruct (negb _).
Qed.

(** What passing [scdk_cap_check] means. *)
Lemma cap_check_Ok k cap r t e :
  scdk_cap_check k cap r t = Ok e ↔
  r ≠ 0 ∧ scdk_cap_lookup k cap = Ok e ∧
  (t = SCDK_OBJ_NONE ∨ ce_object_type e = t) ∧ Z.land (ce_rights e) r = r.
Proof.
  unfold scdk_cap_check. split.
  - intros H. minv H. bsplit. split_and!; [done..| |done].
    apply andb_false_iff in E1 as [E1|E1]; bsplit; auto.
  - intros (Hr & Hl & Ht & Hrights). apply Z.eqb_neq in Hr. rewrite Hr. simpl.
    rewrite Hl. simpl. rewrite Hrights, Z.eqb_refl.
    destruct Ht as [->| ->]; [by rewrite Z.eqb_refl|]. by rewrite Z.eqb_refl, andb_false_r.
Qed.

Lemma cap_check_object k cap r t e :
  scdk_cap_check k cap r t = Ok e →
  ∃ o, scdk_object_lookup k (ce_object_id e) = Ok o ∧
    obj_type o = ce_object_type e ∧ obj_generation o = ce_generation e.
Proof.
  intros (_ & H & _)%cap_check_Ok. unfold scdk_cap_lookup in H. minv H. bsplit. eauto.
Qed.

Lemma cap_lookup_tables k1 k2 cap :
  k_objs k1 = k_objs k2 → k_caps k1 = k_caps k2 →
  scdk_cap_lookup k1 cap = scdk_cap_lookup k2 cap.
Proof.
  intros Ho Hc. unfold scdk_cap_lookup, validate_cap_slot, scdk_object_lookup.
  by rewrite Ho, Hc.
Qed.

Lemma cap_check_tables k1 k2 cap r t :
  k_objs k1 = k_objs k2 → k_caps k1 = k_caps k2 →
  scdk_cap_check k1 cap r t = scdk_cap_check k2 cap r t.
Proof. intros Ho Hc. unfold scdk_cap_check. by rewrite (cap_lookup_tables k1 k2). Qed.

Lemma caps_wf_tables k1 k2 :
  k_objs k1 = k_objs k2 → k_caps k1 = k_caps k2 → caps_wf k1 → caps_wf k2.
Proof.
  intros Ho Hc [H1 H2 H3 H4 H5]. rewrite Ho in *. rewrite Hc in *.
  split; [done..|]. intros i e Hi He. destruct (H5 i e Hi He) as (?&?&o&Hl&?).
  split_and!; [done..|]. exists o. by rewrite <-(object_lookup_objs k1).
Qed.

(** Creating an object keeps every capability. *)
Lemma object_created_caps k k' id type owner flags pl :
  caps_wf k → object_created k k' id type owner flags pl →
  k_caps k' = k_caps k ∧ caps_wf k' ∧
  (∀ cap e, scdk_cap_lookup k cap = Ok e → scdk_cap_lookup k' cap = Ok e).
Proof.
  intros Hwf Hc. assert (k_caps k' = k_caps k) as Hcaps by (by rewrite (oc_frame _ _ _ _ _ _ _ Hc)).
  split; [done|]. split.
  - destruct Hwf as [H1 H2 H3 H4 H5]. split; rewrite ?Hcaps; try done; [apply Hc|].
    intros i e Hi He. destruct (H5 i e Hi He) as (?&?&o&Hl&?).
    split_and!; [done..|]. exists o. split; [|done]. by eapply oc_keep.
  - intros cap e H. unfold scdk_cap_lookup in *. minv H.
    unfold validate_cap_slot in *. rewrite Hcaps. rewrite E. simpl.
    rewrite (oc_keep _ _ _ _ _ _ _ Hc _ _ E0). simpl. by rewrite E1.
Qed.

Lemma object_created_caps_back k k' id type owner flags pl cap e :
  caps_wf k → object_created k k' id type owner flags pl →
  scdk_cap_lookup k' cap = Ok e → scdk_cap_lookup k cap = Ok e.
Proof.
  intros Hwf Hc H. assert (k_caps k' = k_caps k) as Hcaps by (by rewrite (oc_frame _ _ _ _ _ _ _ Hc)).
  unfold scdk_cap_lookup in *. minv_step H. minv_step H. minv_step H. apply (inj Ok) in H. subst a.
  assert (validate_cap_slot k cap = Ok e) as Hv by (unfold validate_cap_slot in *; by rewrite <-Hcaps).
  rewrite Hv. cbn [rbind]. assert (∃ i, cap_table (k_caps k) !! i = Some e ∧ cap_live e) as (i & Hi & Hlive).
  { unfold validate_cap_slot in Hv. do 6 minv_step Hv. apply (inj Ok) in Hv. subst. repeat minv_leaf. bsplit.
    eexists. split; [eassumption|]. done. }
  destruct (cwf_live _ Hwf i e Hi Hlive) as (_ & _ & o & Ho & Hg & Ht). rewrite Ho. cbn [rbind].
  by rewrite Hg, Ht, !Z.eqb_refl.
Qed.
End cap_facts.

(** ** Minting *)
Section mint.
Implicit Types k : kernel.

(** The new token, found with the requested rights over the object; the
    tokens that were valid stay valid with the same entry; nothing else of
    the kernel changes. *)
Record cap_created (k k' : kernel) (cap oid rights : Z) : Prop := {
  cc_frame : k' = set_caps (k_caps k') k;
  cc_wf : caps_wf k';
  cc_u64 : u64 cap;
  cc_nonzero : cap ≠ 0;
  cc_fresh : ∀ e, scdk_cap_lookup k cap ≠ Ok e;
  cc_lookup : ∃ o, scdk_object_lookup k oid = Ok o ∧
    scdk_cap_lookup k' cap = Ok (mk_cap_entry oid (obj_generation o) (obj_type o) 0 rights);
  cc_keep : ∀ c e, u64 c → scdk_cap_lookup k c = Ok e → scdk_cap_lookup k' c = Ok e;
  cc_only : ∀ c e, u64 c → scdk_cap_lookup k' c = Ok e →
    scdk_cap_lookup k c = Ok e ∨ c = cap
}.

Definition free_cap_slot (e : scdk_cap_entry) : bool :=
  negb (negb (ce_object_id e =? 0) && (ce_revoked e =? 0)).

Lemma free_cap_slot_spec e : free_cap_slot e = true ↔ ¬ cap_live e.
Proof.
  unfold free_cap_slot, cap_live. rewrite negb_true_iff, andb_false_iff, negb_false_iff.
  rewrite Z.eqb_eq, Z.eqb_neq. destruct (decide (ce_object_id e = 0)), (decide (ce_revoked e = 0)); tauto.
Qed.

Lemma cap_create_inv k oid rights r k' :
  scdk_cap_create oid rights k = (r, k') → caps_wf k →
  (∃ e, r = Err e ∧ k' = k ∧
     (rights = 0 ∧ e = SCDK_ERR_INVAL ∨
      rights ≠ 0 ∧ scdk_object_lookup k oid = Err e ∨
      rights ≠ 0 ∧ e = SCDK_ERR_NOMEM ∧
        ∀ i c, cap_table (k_caps k) !! i = Some c → cap_live c)) ∨
  (∃ o i e0 g, rights ≠ 0 ∧ scdk_object_lookup k oid = Ok o ∧
     cap_table (k_caps k) !! i = Some e0 ∧ ¬ cap_live e0 ∧
     cap_generations (k_caps k) !! i = Some g ∧
     r = Ok (cap_make_token (Z.of_nat i) (gen_succ g)) ∧
     k' = set_cap_entry i (mk_cap_entry (obj_id o) (obj_generation o) (obj_type o) 0 rights)
            (set_cap_generation i (gen_succ g) k)).
Proof.
  intros Hrun Hwf. unfold scdk_cap_create, bind at 1, guard in Hrun.
  destruct (Z.eqb_spec rights 0) as [Hz|Hnz].
  { injection Hrun as <- <-. left. exists SCDK_ERR_INVAL. auto. }
  unfold ret, bind at 1, query in Hrun.
  destruct (scdk_object_lookup k oid) as [o|e|] eqn:Ho.
  2: { injection Hrun as <- <-. left. exists e. naive_solver. }
  2: { by apply object_lookup_defined in Ho; [|apply Hwf]. }
  unfold bind at 1, gets in Hrun. fold free_cap_slot in Hrun.
  change (λ e, negb (negb (ce_object_id e =? 0) && (ce_revoked e =? 0)))
    with free_cap_slot in Hrun.
  destruct (find_slot free_cap_slot _) as [i|] eqn:Hf.
  - right. pose proof (find_slot_lt _ _ _ Hf) as Hlt.
    apply find_slot_Some in Hf as [[e0 [He0 Hfree%free_cap_slot_spec]] _].
    destruct (lookup_lt_is_Some_2 (cap_generations (k_caps k)) i) as [g Hgen].
    { rewrite (cwf_gens_length _ Hwf). by rewrite <-(cwf_table_length _ Hwf). }
    unfold bind in Hrun. rewrite (next_cap_generation_run _ _ _ Hgen) in Hrun.
    injection Hrun as <- <-. by exists o, i, e0, g.
  - left. injection Hrun as <- <-. exists SCDK_ERR_NOMEM. split_and!; [done..|].
    right. right. split_and!; [done..|]. intros i c Hi.
    rewrite find_slot_None in Hf. specialize (Hf i c Hi).
    destruct (decide (cap_live c)) as [|Hn]; [done|].
    apply free_cap_slot_spec in Hn. congruence.
Qed.

Lemma cap_create_Err k oid rights e k' :
  caps_wf k → scdk_cap_create oid rights k = (Err e, k') → k' = k.
Proof.
  intros Hwf Hrun. destruct (cap_create_inv _ _ _ _ _ Hrun Hwf)
    as [(?&_&->&_)|(?&?&?&?&_&_&_&_&_&?&_)]; done.
Qed.

Lemma cap_create_defined k oid rights :
  caps_wf k → defined (scdk_cap_create oid rights k).1.
Proof.
  intros Hwf. destruct (scdk_cap_create oid rights k) as [r k'] eqn:Hrun.
  destruct (cap_create_inv _ _ _ _ _ Hrun Hwf)
    as [(?&->&_)|(?&?&?&?&_&_&_&_&_&->&_)]; done.
Qed.

(** Writing a live entry with a fresh generation into a dead slot. *)
Lemma cap_slot_write k i e0 g e :
  caps_wf k → cap_table (k_caps k) !! i = Some e0 →
  cap_generations (k_caps k) !! i = Some g →
  ¬ cap_live e0 → ce_rights e ≠ 0 →
  (∃ o, scdk_object_lookup k (ce_object_id e) = Ok o ∧
     obj_generation o = ce_generation e ∧ obj_type o = ce_object_type e) →
  caps_wf (set_cap_entry i e (set_cap_generation i (gen_succ g) k)).
Proof.
  intros Hwf Hi Hg Hdead Hrights Hobj.
  pose proof (lookup_lt_Some _ _ _ Hi) as Hlt. pose proof (lookup_lt_Some _ _ _ Hg) as Hltg.
  pose proof (gen_succ_range g) as Hgr.
  destruct Hwf as [H1 H2 H3 H4 H5]. split; simpl; rewrite ?length_insert; try done.
  - intros j g' [(<-&<-&_)|(_&Hj)]%list_lookup_insert_Some; [unfold u32; lia|by eapply H4].
  - intros j e' [(<-&<-&_)|(Hne&Hj)]%list_lookup_insert_Some Hl.
    + rewrite list_lookup_insert_eq by done. split_and!; [exists (gen_succ g); split; [done|lia]|done|].
      destruct Hobj as (o & Ho & ?). by exists o.
    + rewrite list_lookup_insert_ne by done. by apply H5.
Qed.

Lemma cap_create_Ok k oid rights cap k' :
  caps_wf k → scdk_cap_create oid rights k = (Ok cap, k') →
  cap_created k k' cap oid rights.
Proof.
  intros Hwf Hrun. destruct (cap_create_inv _ _ _ _ _ Hrun Hwf)
    as [(?&?&_)|(o&i&e0&g&Hr&Ho&Hi&Hdead&Hg&[= ->]&->)]; [done|].
  pose proof (lookup_lt_Some _ _ _ Hi) as Hlt. pose proof Hlt as Hlt'.
  rewrite (cwf_table_length _ Hwf) in Hlt'.
  pose proof (lookup_lt_Some _ _ _ Hg) as Hltg.
  assert (Hiu : u32 (Z.of_nat i)) by (eapply table_index_u32; [done|by vm_compute]).
  pose proof (gen_succ_range g) as Hgr. assert (u32 (gen_succ g)) as Hgu by (unfold u32; lia).
  assert (obj_id o = oid ∧ oid ≠ 0) as [Hid Hoid0].
  { apply object_lookup_Ok in Ho as (?&_&_&?&_&?&_). done. }
  set (e := mk_cap_entry (obj_id o) (obj_generation o) (obj_type o) 0 rights) in *.
  set (k' := set_cap_entry i e (set_cap_generation i (gen_succ g) k)) in *.
  set (cap := cap_make_token (Z.of_nat i) (gen_succ g)) in *.
  assert (caps_wf k') as Hwf'.
  { eapply cap_slot_write; eauto. exists o. simpl. by rewrite Hid. }
  assert (∀ j e', j ≠ i → ∀ c, cap_at k' j e' c ↔ cap_at k j e' c) as Hne.
  { intros j e' Hj c. unfold cap_at. simpl.
    by setoid_rewrite list_lookup_insert_ne; [|done|done]. }
  assert (Hat : cap_at k' i e cap).
  { exists (gen_succ g). simpl. rewrite !list_lookup_insert_eq by done.
    repeat split; simpl; [congruence|lia]. }
  split; try done.
  - by apply object_make_id_u64.
  - apply object_make_id_nonzero; [done|lia].
  - intros e' He'. apply cap_lookup_Ok in He' as (g' & Hj & _ & Hl & _); [|done|by apply object_make_id_u64].
    unfold cap in Hj. change cap_index with object_id_index in Hj.
    change cap_make_token with object_make_id in Hj.
    rewrite object_id_index_make, Nat2Z.id, Hi in Hj by done. congruence.
  - exists o. split; [done|]. rewrite <-Hid. by eapply cap_lookup_at.
  - intros c e' Hc He'. apply cap_lookup_Ok in He' as He''; [|done|done].
    apply (cap_lookup_at k' (Z.to_nat (cap_index c))); [done|]. apply Hne; [|done].
    intros Heq. destruct He'' as (? & Hj & _ & Hl & _). rewrite Heq in Hj. congruence.
  - intros c e' Hc He'. apply cap_lookup_Ok in He' as He''; [|done|done].
    destruct (decide (Z.to_nat (cap_index c) = i)) as [Heq|Hj].
    + right. rewrite Heq in He''. destruct He'' as (g' & _ & Hg' & _ & _ & ->).
      simpl in Hg'. rewrite list_lookup_insert_eq in Hg' by done. by injection Hg' as <-.
    + left. eapply cap_lookup_at; [done|]. by apply Hne.
Qed.
End mint.

(** ** Revocation *)
Section revoke.
Implicit Types k : kernel.

Record cap_revoked (k k' : kernel) (cap : Z) : Prop := {
  cr_frame : k' = set_caps (k_caps k') k;
  cr_wf : caps_wf k';
  cr_dead : scdk_cap_lookup k' cap = Err SCDK_ERR_NOENT;
  cr_keep : ∀ c e, u64 c → c ≠ cap → scdk_cap_lookup k c = Ok e → scdk_cap_lookup k' c = Ok e;
  cr_only : ∀ c e, u64 c → scdk_cap_lookup k' c = Ok e →
    scdk_cap_lookup k c = Ok e ∧ c ≠ cap
}.

Lemma cap_revoke_run k cap e :
  caps_wf k → u64 cap → scdk_cap_lookup k cap = Ok e →
  ∃ g, cap_at k (Z.to_nat (cap_index cap)) e cap ∧
    cap_generations (k_caps k) !! Z.to_nat (cap_index cap) = Some g ∧
    cap_generation cap = g ∧
    scdk_cap_revoke cap k =
      (Ok tt, set_cap_generation (Z.to_nat (cap_index cap)) (gen_succ g)
                (set_cap_entry (Z.to_nat (cap_index cap)) (mark_revoked e) k)).
Proof.
  intros Hwf Hc Hl. pose proof (cap_lookup_Ok _ _ _ Hwf Hl Hc) as Hat.
  destruct Hat as (g & Hi & Hg & Hlive & Hpos & Heq). exists g.
  split; [by exists g|]. split; [done|]. split.
  - rewrite Heq. change cap_generation with object_id_generation.
    apply object_id_generation_make.
    + pose proof (lookup_lt_Some _ _ _ Hi) as Hlt. rewrite (cwf_table_length _ Hwf) in Hlt.
      eapply table_index_u32; [done|by vm_compute].
    + by eapply cwf_gens_u32.
  - unfold scdk_cap_revoke, bind, query. rewrite Hl, Hi. simpl.
    by rewrite (next_cap_generation_run _ _ g).
Qed.

Lemma cap_revoke_fails k cap :
  (∀ e, scdk_cap_lookup k cap ≠ Ok e) →
  scdk_cap_revoke cap k = (match scdk_cap_lookup k cap with
                           | Ok _ => Ok tt | Err e => Err e | Ub => Ub end, k).
Proof.
  intros H. unfold scdk_cap_revoke, bind, query.
  destruct (scdk_cap_lookup k cap) as [e| |]; [by destruct (H e)|done..].
Qed.

Lemma cap_slot_kill k i e g :
  caps_wf k → cap_table (k_caps k) !! i = Some e →
  cap_generations (k_caps k) !! i = Some g →
  caps_wf (set_cap_generation i (gen_succ g) (set_cap_entry i (mark_revoked e) k)).
Proof.
  intros Hwf Hi Hg. pose proof (gen_succ_range g) as Hgr.
  destruct Hwf as [H1 H2 H3 H4 H5]. split; simpl; rewrite ?length_insert; try done.
  - intros j g' [(<-&<-&_)|(_&Hj)]%list_lookup_insert_Some; [unfold u32; lia|by eapply H4].
  - intros j e' [(<-&<-&_)|(Hne&Hj)]%list_lookup_insert_Some Hl.
    + by destruct Hl as [_ ?].
    + rewrite list_lookup_insert_ne by done. by apply H5.
Qed.

Lemma cap_revoke_Ok k cap k' :
  caps_wf k → u64 cap → scdk_cap_revoke cap k = (Ok tt, k') →
  cap_revoked k k' cap.
Proof.
  intros Hwf Hc Hrun.
  destruct (scdk_cap_lookup k cap) as [e|e|] eqn:Hl.
  2-3: by rewrite cap_revoke_fails, Hl in Hrun by (by rewrite Hl).
  destruct (cap_revoke_run _ _ _ Hwf Hc Hl) as (g & Hat & Hg & Hgen & Hrun').
  rewrite Hrun' in Hrun. injection Hrun as <-.
  destruct Hat as (g' & Hi & Hg' & Hlive & Hpos & Heq).
  rewrite Hg in Hg'. injection Hg' as <-.
  set (i := Z.to_nat (cap_index cap)) in *.
  pose proof (lookup_lt_Some _ _ _ Hi) as Hlt. pose proof (lookup_lt_Some _ _ _ Hg) as Hltg.
  assert (u32 (Z.of_nat i)) as Hiu.
  { eapply table_index_u32; [by rewrite <-(cwf_table_length _ Hwf)|by vm_compute]. }
  set (k' := set_cap_generation _ _ _).
  assert (caps_wf k') as Hwf' by (by apply cap_slot_kill).
  assert (Hne : ∀ j e' c, j ≠ i → cap_at k' j e' c ↔ cap_at k j e' c).
  { intros j e' c Hj. unfold cap_at. simpl.
    by setoid_rewrite list_lookup_insert_ne; [|done|done]. }
  assert (Hdead : ∀ c e', u64 c → scdk_cap_lookup k' c = Ok e' →
    Z.to_nat (cap_index c) ≠ i).
  { intros c e' Hcu Hk' Hij. apply cap_lookup_Ok in Hk' as (? & Hj & _ & Hlv & _); [|done|done].
    rewrite Hij in Hj. simpl in Hj. rewrite list_lookup_insert_eq in Hj by done.
    injection Hj as <-. by destruct Hlv. }
  split; try done.
  - unfold scdk_cap_lookup, validate_cap_slot.
    assert ((cap =? 0) = false) as ->.
    { apply Z.eqb_neq. intros H0. apply (object_make_id_nonzero _ _ Hiu Hpos).
      exact (eq_trans (eq_sym Heq) H0). }
    fold i. simpl. rewrite Hgen.
    assert ((g =? 0) = false) as -> by (apply Z.eqb_neq; lia).
    assert ((SCDK_MAX_CAPS <=? cap_index cap) = false) as ->.
    { apply Z.leb_gt. pose proof Hlt as Hlt'. rewrite (cwf_table_length _ Hwf) in Hlt'.
      unfold i, SCDK_MAX_CAPS in *. lia. }
    simpl. rewrite list_lookup_insert_eq by done. simpl.
    assert ((gen_succ g =? g) = false) as ->; [|done].
    apply Z.eqb_neq, gen_succ_neq. exact (cwf_gens_u32 _ Hwf _ _ Hg).
  - intros c e' Hcu Hcc He'. apply (cap_lookup_at k' (Z.to_nat (cap_index c))); [done|].
    apply cap_lookup_Ok in He' as He''; [|done|done]. apply Hne; [|done].
    intros Hij. destruct He'' as (g2 & _ & Hg2 & _ & _ & Hc2). rewrite Hij in Hg2, Hc2.
    rewrite Hg in Hg2. injection Hg2 as <-. congruence.
  - intros c e' Hcu He'. pose proof (Hdead _ _ Hcu He') as Hij. split.
    + apply (cap_lookup_at k (Z.to_nat (cap_index c))); [done|].
      apply Hne; [done|]. by apply cap_lookup_Ok.
    + by intros ->.
Qed.

Lemma cap_revoke_wf cap :
  u64 cap → preserves caps_wf (scdk_cap_revoke cap).
Proof.
  intros Hc k Hwf. destruct (scdk_cap_lookup k cap) as [e|e|] eqn:Hl.
  - destruct (cap_revoke_run _ _ _ Hwf Hc Hl) as (g & (?&Hi&?) & Hg & _ & ->). simpl.
    by apply cap_slot_kill.
  - by rewrite cap_revoke_fails by (by rewrite Hl).
  - by rewrite cap_revoke_fails by (by rewrite Hl).
Qed.

Lemma cap_revoke_defined k cap :
  caps_wf k → u64 cap → defined (scdk_cap_revoke cap k).1.
Proof.
  intros Hwf Hc. destruct (scdk_cap_lookup k cap) as [e|e|] eqn:Hl.
  - destruct (cap_revoke_run _ _ _ Hwf Hc Hl) as (g & _ & _ & _ & ->). done.
  - by rewrite cap_revoke_fails, Hl by (by rewrite Hl).
  - by apply cap_lookup_defined in Hl.
Qed.
End revoke.

Lemma cap_create_wf oid rights : preserves caps_wf (scdk_cap_create oid rights).
Proof.
  intros k Hwf. destruct (scdk_cap_create oid rights k) as [[c|e|] k'] eqn:Hrun; simpl.
  - by apply (cap_create_Ok _ _ _ _ _ Hwf) in Hrun as [].
  - by rewrite (cap_create_Err _ _ _ _ _ Hwf Hrun).
  - pose proof (cap_create_defined _ oid rights Hwf) as Hd. by rewrite Hrun in Hd.
Qed.

Lemma object_create_caps_wf type owner flags pl :
  preserves caps_wf (scdk_object_create type owner flags pl).
Proof.
  intros k Hwf. destruct (scdk_object_create _ _ _ _ k) as [[c|e|] k'] eqn:Hrun; simpl.
  - apply object_create_Ok in Hrun; [|apply Hwf]. by apply (object_created_caps _ _ _ _ _ _ _ Hwf) in Hrun as (?&?&?).
  - apply object_create_Err in Hrun; [|apply Hwf]. by subst.
  - pose proof (object_create_defined k type owner flags pl) as Hd. rewrite Hrun in Hd.
    by destruct Hd; [apply Hwf|].
Qed.

(** ** Traces of table operations *)

(** One call that touches the tables, or any kernel activity that does not.
    Every operation of the kernel is a sequence of these. *)
Inductive core_step : kernel → kernel → Prop :=
  | step_object_create k type owner flags pl :
      core_step k (scdk_object_create type owner flags pl k).2
  | step_cap_create k oid rights :
      core_step k (scdk_cap_create oid rights k).2
  | step_cap_revoke k cap :
      u64 cap → core_step k (scdk_cap_revoke cap k).2
  | step_other k k' :
      k_objs k' = k_objs k → k_caps k' = k_caps k → core_step k k'.

Section traces.
Implicit Types k : kernel.

Lemma gen_succ_mod g : 1 <= g < two32 → gen_succ g = g mod (two32 - 1) + 1.
Proof.
  intros Hg. unfold gen_succ, wrap32. destruct (decide (g = two32 - 1)) as [->|Hne].
  - done.
  - rewrite !Z.mod_small by (unfold two32 in *; lia).
    destruct (Z.eqb_spec (g + 1) 0); lia.
Qed.

Lemma gen_iter n g : 1 <= g < two32 →
  Nat.iter n gen_succ g = (g - 1 + Z.of_nat n) mod (two32 - 1) + 1.
Proof.
  intros Hg. induction n as [|n IH]; cbn [Nat.iter nat_rect].
  - rewrite Z.add_0_r, Z.mod_small; lia.
  - change (nat_rect _ _ _ n) with (Nat.iter n gen_succ g). rewrite IH.
    pose proof (Z.mod_pos_bound (g - 1 + Z.of_nat n) (two32 - 1) eq_refl).
    rewrite gen_succ_mod by lia. rewrite Z.add_mod_idemp_l by done. do 2 f_equal. lia.
Qed.

(** A generation does not come back before [2^32 - 1] advances. *)
Lemma gen_iter_neq n g : 1 <= g < two32 → (0 < n)%nat → Z.of_nat n < two32 - 1 →
  Nat.iter n gen_succ g ≠ g.
Proof.
  intros Hg Hn Hlt. rewrite gen_iter by done. intros Heq.
  assert ((g - 1 + Z.of_nat n) mod (two32 - 1) = g - 1) as Hmod by lia.
  pose proof (Z.div_mod (g - 1 + Z.of_nat n) (two32 - 1)) as Hdm.
  rewrite Hmod in Hdm. unfold two32 in *. lia.
Qed.

Lemma core_step_wf k k' : caps_wf k → core_step k k' → caps_wf k'.
Proof.
  intros Hwf Hs. destruct Hs as [k type owner flags pl|k oid rights|k cap Hc|k k' Ho Hc].
  - by apply object_create_caps_wf.
  - by apply cap_create_wf.
  - by apply cap_revoke_wf.
  - by eapply caps_wf_tables; [..|exact Hwf].
Qed.

(** What one step does to one slot: nothing, or one advance of its generation. *)
Lemma core_step_slot k k' i e g :
  caps_wf k → core_step k k' →
  cap_table (k_caps k) !! i = Some e → cap_generations (k_caps k) !! i = Some g →
  (cap_table (k_caps k') !! i = Some e ∧ cap_generations (k_caps k') !! i = Some g) ∨
  cap_generations (k_caps k') !! i = Some (gen_succ g).
Proof.
  intros Hwf Hs Hi Hg. destruct Hs as [k type owner flags pl|k oid rights|k cap Hc|k k' Ho Hc].
  - left. destruct (scdk_object_create type owner flags pl k) as [r k'] eqn:Hrun.
    apply object_create_inv in Hrun; [|apply Hwf].
    by destruct Hrun as [(?&->&_)|[(?&->&_)|(?&?&?&_&_&_&_&_&_&->)]].
  - destruct (scdk_cap_create oid rights k) as [r k'] eqn:Hrun. simpl.
    destruct (cap_create_inv _ _ _ _ _ Hrun Hwf)
      as [(?&_&->&_)|(?&j&?&g'&_&_&Hj&_&Hg'&_&->)]; [by left|]. simpl.
    pose proof (lookup_lt_Some _ _ _ Hj). pose proof (lookup_lt_Some _ _ _ Hg').
    destruct (decide (i = j)) as [->|Hne].
    + right. rewrite list_lookup_insert_eq by done. congruence.
    + left. by rewrite !list_lookup_insert_ne.
  - destruct (scdk_cap_lookup k cap) as [e'|?|] eqn:Hl.
    + destruct (cap_revoke_run _ _ _ Hwf Hc Hl) as (g' & (?&Hj&_) & Hg' & _ & ->). simpl.
      set (j := Z.to_nat (cap_index cap)) in *.
      pose proof (lookup_lt_Some _ _ _ Hj). pose proof (lookup_lt_Some _ _ _ Hg').
      destruct (decide (i = j)) as [->|Hne].
      * right. rewrite list_lookup_insert_eq by done. congruence.
      * left. by rewrite !list_lookup_insert_ne.
    + left. by rewrite cap_revoke_fails by (by rewrite Hl).
    + left. by rewrite cap_revoke_fails by (by rewrite Hl).
  - left. by rewrite Hc.
Qed.

(** After [n] steps from a valid token: the slot is untouched, or its
    generation has advanced between 1 and [n] times. *)
Lemma core_steps_slot n k k' i e g :
  caps_wf k → nsteps core_step n k k' →
  cap_table (k_caps k) !! i = Some e → cap_generations (k_caps k) !! i = Some g →
  caps_wf k' ∧
  ((cap_table (k_caps k') !! i = Some e ∧ cap_generations (k_caps k') !! i = Some g) ∨
   ∃ m, (0 < m ≤ n)%nat ∧ cap_generations (k_caps k') !! i = Some (Nat.iter m gen_succ g)).
Proof.
  intros Hwf Hn. revert e g Hwf. induction Hn as [k|n k1 k2 k3 Hs _ IH]; intros e g Hwf Hi Hg.
  { split; [done|by left]. }
  pose proof (core_step_wf _ _ Hwf Hs) as Hwf2.
  destruct (core_step_slot _ _ _ _ _ Hwf Hs Hi Hg) as [[Hi2 Hg2]|Hg2].
  - destruct (IH _ _ Hwf2 Hi2 Hg2) as [Hwf3 [?|(m&Hm&Hgm)]]; split; try done; [by left|].
    right. exists m. split; [lia|done].
  - destruct (lookup_lt_is_Some_2 (cap_table (k_caps k2)) i) as [e2 Hi2].
    { apply lookup_lt_Some in Hg2. rewrite (cwf_gens_length _ Hwf2) in Hg2.
      by rewrite (cwf_table_length _ Hwf2). }
    destruct (IH _ _ Hwf2 Hi2 Hg2) as [Hwf3 Hcase]. split; [done|]. right.
    destruct Hcase as [[_ Hg3]|(m&Hm&Hgm)].
    + exists 1%nat. split; [lia|done].
    + exists (S m). split; [lia|]. rewrite Hgm.
      by rewrite <-Nat.iter_succ_r.
Qed.
End traces.

(** ** Properties *)

(** C1. Minting gives exactly the requested authority: after
    [scdk_cap_create] returns a token, [scdk_cap_check] on that token accepts
    a request for rights [req] on type [ty] if and only if [req] is not empty,
    [ty] is the object's type (or unspecified) and every requested bit is one
    of the minted rights; the token was not valid before, and every token that
    was valid still designates the same entry. *)
Theorem cap_create_authority (k k' : kernel) (oid rights cap : Z) (o : scdk_object)
  (Hwf : caps_wf k) (Ho : scdk_object_lookup k oid = Ok o)
  (Hrun : scdk_cap_create oid rights k = (Ok cap, k')) :
  (∀ req ty, (∃ e, scdk_cap_check k' cap req ty = Ok e) ↔
     req ≠ 0 ∧ (ty = SCDK_OBJ_NONE ∨ ty = obj_type o) ∧
     ∀ i, 0 <= i → Z.testbit req i = true → Z.testbit rights i = true) ∧
  (∀ e, scdk_cap_lookup k cap ≠ Ok e) ∧
  (∀ c e, u64 c → scdk_cap_lookup k c = Ok e → scdk_cap_lookup k' c = Ok e).
Proof.
  destruct (cap_create_Ok _ _ _ _ _ Hwf Hrun) as [_ _ _ _ Hfresh Hlk Hkeep _].
  split; [|done]. destruct Hlk as (o' & Ho' & Hl). rewrite Ho in Ho'. injection Ho' as <-.
  intros req ty. split.
  - intros (e & (Hr & Hl' & Ht & Hb)%cap_check_Ok). rewrite Hl in Hl'. injection Hl' as <-.
    simpl in *. rewrite land_subset in Hb. destruct Ht; auto.
  - intros (Hr & Ht & Hb). eexists. apply cap_check_Ok. split; [done|]. split; [exact Hl|].
    split; [destruct Ht; auto|]. by apply land_subset.
Qed.

(** C3. Revocation is effective and targeted: a revoked token is rejected by
    [scdk_cap_lookup] at once (with [SCDK_ERR_NOENT]), no rights check on it
    passes, and every other valid token keeps its entry. *)
Theorem cap_revoke_effective (k k' : kernel) (cap : Z)
  (Hwf : caps_wf k) (Hc : u64 cap) (Hrun : scdk_revoke_capability cap k = (Ok tt, k')) :
  scdk_cap_lookup k' cap = Err SCDK_ERR_NOENT ∧
  (∀ req ty e, scdk_cap_check k' cap req ty ≠ Ok e) ∧
  (∀ c e, u64 c → c ≠ cap → scdk_cap_lookup k c = Ok e ↔ scdk_cap_lookup k' c = Ok e).
Proof.
  destruct (cap_revoke_Ok _ _ _ Hwf Hc Hrun) as [_ _ Hdead Hkeep Honly]. split; [done|]. split.
  - intros req ty e (_ & Hl & _)%cap_check_Ok. congruence.
  - intros c e Hu Hne. split; [by apply Hkeep|]. intros Hl. by apply Honly in Hl as [? _].
Qed.

(** C2. Revocation is permanent over every interleaving of table operations
    shorter than the 32-bit generation space: no sequence of fewer than
    [2^32 - 2] object creations, mintings and revocations makes a revoked
    token valid again. *)
Theorem revoked_token_stays_dead (k k1 k2 : kernel) (cap : Z) (n : nat)
  (Hwf : caps_wf k) (Hc : u64 cap) (Hrun : scdk_cap_revoke cap k = (Ok tt, k1))
  (Hsteps : nsteps core_step n k1 k2) (Hn : Z.of_nat n < two32 - 2) :
  ∀ e, scdk_cap_lookup k2 cap ≠ Ok e.
Proof.
  destruct (scdk_cap_lookup k cap) as [e|?|] eqn:Hl.
  2-3: by rewrite cap_revoke_fails, Hl in Hrun by (by rewrite Hl).
  destruct (cap_revoke_run _ _ _ Hwf Hc Hl) as (g & (?&Hi&_&_&Hpos&_) & Hg & Hgen & Hrun').
  pose proof (cwf_gens_u32 _ Hwf _ _ Hg) as Hgu.
  pose proof (cap_revoke_wf cap Hc k Hwf) as Hwf1. rewrite Hrun in Hwf1. simpl in Hwf1.
  rewrite Hrun in Hrun'. injection Hrun' as Hk1. set (i := Z.to_nat (cap_index cap)) in *.
  assert (cap_table (k_caps k1) !! i = Some (mark_revoked e)) as Hi1.
  { rewrite Hk1. simpl. apply list_lookup_insert_eq. by eapply lookup_lt_Some. }
  assert (cap_generations (k_caps k1) !! i = Some (gen_succ g)) as Hg1.
  { rewrite Hk1. simpl. apply list_lookup_insert_eq. by eapply lookup_lt_Some. }
  intros e' He'. destruct (core_steps_slot _ _ _ _ _ _ Hwf1 Hsteps Hi1 Hg1) as [Hwf2 Hcase].
  destruct (cap_lookup_Ok _ _ _ Hwf2 He' Hc) as (g2 & Hi2 & Hg2 & Hlive & Hpos2 & Heq2).
  fold i in Hi2, Hg2, Heq2.
  assert (g2 = g) as ->.
  { destruct (cap_lookup_Ok _ _ _ Hwf Hl Hc) as (g3 & Hi3 & Hg3 & _ & _ & Heq3).
    fold i in Hg3, Heq3. rewrite Hg in Hg3. injection Hg3 as <-.
    apply lookup_lt_Some in Hi3. rewrite (cwf_table_length _ Hwf) in Hi3.
    eapply object_make_id_inj; [..|exact (eq_trans (eq_sym Heq2) Heq3)];
      (eapply table_index_u32; [exact Hi3|by vm_compute]). }
  destruct Hcase as [[Ht2 _]|(m & Hm & Hgm)].
  - rewrite Ht2 in Hi2. injection Hi2 as <-. by destruct Hlive.
  - rewrite Hg2 in Hgm. injection Hgm as Hgm. rewrite <-Nat.iter_succ_r in Hgm.
    apply (gen_iter_neq (S m) g); [unfold u32 in *; lia|lia|lia|done].
Qed.

(** ** Witnesses *)

(** The tables after the first object and its first capability are created. *)
Definition demo_object : kernel := (scdk_object_create SCDK_OBJ_ENDPOINT 0 0 P_null boot_kernel).2.
Definition demo_cap : kernel := (scdk_cap_create 4294967296 80 demo_object).2.
Definition demo_revoked : kernel := (scdk_cap_revoke 4294967296 demo_cap).2.

Lemma demo_object_wf : caps_wf demo_object.
Proof. apply object_create_caps_wf, boot_caps_wf. Qed.
Lemma demo_cap_wf : caps_wf demo_cap.
Proof. apply cap_create_wf, demo_object_wf. Qed.

Lemma cap_create_authority_witness :
  (∃ e, scdk_cap_check demo_cap 4294967296 SCDK_RIGHT_SEND SCDK_OBJ_ENDPOINT = Ok e) ↔
    SCDK_RIGHT_SEND ≠ 0 ∧ (SCDK_OBJ_ENDPOINT = SCDK_OBJ_NONE ∨ SCDK_OBJ_ENDPOINT = SCDK_OBJ_ENDPOINT) ∧
    ∀ i, 0 <= i → Z.testbit SCDK_RIGHT_SEND i = true → Z.testbit 80 i = true.
Proof.
  apply (cap_create_authority demo_object demo_cap 4294967296 80 4294967296
           (mk_object 4294967296 SCDK_OBJ_ENDPOINT 1 0 0 P_null)).
  - exact demo_object_wf.
  - vm_compute. reflexivity.
  - apply run_eq. vm_compute. reflexivity.
Defined.

Lemma cap_revoke_effective_witness :
  scdk_cap_lookup demo_revoked 4294967296 = Err SCDK_ERR_NOENT.
Proof.
  apply (cap_revoke_effective demo_cap demo_revoked 4294967296).
  - exact demo_cap_wf.
  - unfold u64, two64. lia.
  - apply run_eq. vm_compute. reflexivity.
Defined.

Lemma revoked_token_stays_dead_witness :
  scdk_cap_lookup (scdk_cap_create 4294967296 80 demo_revoked).2 4294967296
    ≠ Ok (mk_cap_entry 4294967296 1 SCDK_OBJ_ENDPOINT 0 80).
Proof.
  apply (revoked_token_stays_dead demo_cap demo_revoked _ 4294967296 1).
  - exact demo_cap_wf.
  - unfold u64, two64. lia.
  - apply run_eq. vm_compute. reflexivity.
  - apply nsteps_once. constructor.
  - unfold two32. lia.
Defined.
