(* ===== verification/Invariant.v ===== *)
(** * The kernel-wide invariant

    The tables have the sizes of the C arrays, the object and capability
    tables are well formed, and the payload of every object points to the
    table that the object's type calls for, so that the casts
    [struct X *slot = object->payload] of the lookups are type-correct. *)
From stdpp Require Import base gmap list numbers relations.
From Stdlib Require Import ZArith Lia.
From S2P Require Import Prelude.
From S2P Require Import Kernel.
From S2P Require Import Object.
From S2P Require Import Capability.
#[local] Open Scope Z_scope.

(** The types whose payload some lookup dereferences. *)
Definition slot_typed (ty : Z) : bool :=
  (ty =? SCDK_OBJ_ENDPOINT) || (ty =? SCDK_OBJ_RING) || (ty =? SCDK_OBJ_GRANT)
  || (ty =? SCDK_OBJ_TASK) || (ty =? SCDK_OBJ_THREAD) || (ty =? SCDK_OBJ_FILE)
  || (ty =? SCDK_OBJ_DEVICE_QUEUE) || (ty =? SCDK_OBJ_ADDRESS_SPACE).

Definition payload_typed (ty : Z) (p : payload) : Prop :=
  match p with
  | P_null => True
  | P_endpoint i => ty = SCDK_OBJ_ENDPOINT ∧ Z.of_nat i < SCDK_MAX_ENDPOINTS
  | P_ring i => ty = SCDK_OBJ_RING ∧ Z.of_nat i < SCDK_MAX_RINGS
  | P_grant i => ty = SCDK_OBJ_GRANT ∧ Z.of_nat i < SCDK_MAX_GRANTS
  | P_user_grant i => ty = SCDK_OBJ_GRANT ∧ Z.of_nat i < SCDK_MAX_USER_GRANTS
  | P_task i => ty = SCDK_OBJ_TASK ∧ Z.of_nat i < SCDK_MAX_TASKS
  | P_thread i => ty = SCDK_OBJ_THREAD ∧ Z.of_nat i < SCDK_MAX_THREADS
  | P_file i => ty = SCDK_OBJ_FILE
  | P_device i => ty = SCDK_OBJ_DEVICE
  | P_device_queue i => ty = SCDK_OBJ_DEVICE_QUEUE
  | P_heap _ => ty = SCDK_OBJ_ADDRESS_SPACE
  | P_other _ => slot_typed ty = false
  end.

Record tables_sized (k : kernel) : Prop := {
  ts_eps : length (endpoint_table (k_eps k)) = Z.to_nat SCDK_MAX_ENDPOINTS;
  ts_services : length (service_table (k_eps k)) = Z.to_nat SCDK_MAX_SERVICES;
  ts_rings : length (k_rings k) = Z.to_nat SCDK_MAX_RINGS;
  ts_grants : length (k_grants k) = Z.to_nat SCDK_MAX_GRANTS;
  ts_ugrants : length (k_ugrants k) = Z.to_nat SCDK_MAX_USER_GRANTS;
  ts_urings : length (k_urings k) = Z.to_nat SCDK_MAX_USER_RINGS;
  ts_tasks : length (task_table (k_sched k)) = Z.to_nat SCDK_MAX_TASKS;
  ts_threads : length (thread_table (k_sched k)) = Z.to_nat SCDK_MAX_THREADS
}.

Record kernel_wf (k : kernel) : Prop := {
  kwf_caps : caps_wf k;
  kwf_sized : tables_sized k;
  kwf_payload : ∀ id o, scdk_object_lookup k id = Ok o →
    payload_typed (obj_type o) (obj_payload o)
}.

Lemma boot_kernel_wf : kernel_wf boot_kernel.
Proof.
  split.
  - apply boot_caps_wf.
  - split; apply length_replicate.
  - intros id o (i&Hi&Hty&_)%object_lookup_Ok.
    unfold boot_kernel, boot_objects in Hi; simpl k_objs in Hi. simpl object_table in Hi.
    apply lookup_zeroed_inv in Hi as ->. done.
Qed.

(** Frame: an update that leaves the two core tables and the table sizes. *)
Lemma kernel_wf_frame k k' :
  kernel_wf k → k_objs k' = k_objs k → k_caps k' = k_caps k → tables_sized k' → kernel_wf k'.
Proof.
  intros [Hc Hs Hp] Ho Hk Hs'. split; [|done|].
  - by eapply caps_wf_tables; [..|exact Hc].
  - intros id o. rewrite (object_lookup_objs k' k) by done. apply Hp.
Qed.

Lemma tables_sized_core k k' :
  tables_sized k → k_eps k' = k_eps k → k_rings k' = k_rings k → k_grants k' = k_grants k →
  k_ugrants k' = k_ugrants k → k_urings k' = k_urings k → k_sched k' = k_sched k →
  tables_sized k'.
Proof. intros [] E1 E2 E3 E4 E5 E6. split; by rewrite ?E1, ?E2, ?E3, ?E4, ?E5, ?E6. Qed.

Lemma object_created_kwf k k' id type owner flags pl :
  kernel_wf k → object_created k k' id type owner flags pl → payload_typed type pl →
  kernel_wf k'.
Proof.
  intros [Hc Hs Hp] Hoc Hpl. pose proof (oc_frame _ _ _ _ _ _ _ Hoc) as Hf. split.
  - by eapply object_created_caps.
  - eapply tables_sized_core; [exact Hs|by rewrite Hf..].
  - intros id' o Ho. destruct (oc_only _ _ _ _ _ _ _ Hoc _ _ Ho) as [?|(_&->&->&_)]; [by eapply Hp|done].
Qed.

Lemma object_create_kwf type owner flags pl :
  payload_typed type pl → preserves kernel_wf (scdk_object_create type owner flags pl).
Proof.
  intros Hpl k Hwf. assert (objects_wf (k_objs k)) as Ho by apply Hwf.
  destruct (scdk_object_create _ _ _ _ k) as [[c|e|] k'] eqn:Hrun; simpl.
  - apply object_create_Ok in Hrun; [|done]. by eapply object_created_kwf.
  - apply object_create_Err in Hrun; [|done]. by subst.
  - pose proof (object_create_defined k type owner flags pl Ho) as Hd. by rewrite Hrun in Hd.
Qed.

Lemma cap_table_only_kwf k k' :
  kernel_wf k → k' = set_caps (k_caps k') k → caps_wf k' → kernel_wf k'.
Proof.
  intros [Hc Hs Hp] Hf Hc'. split; [done| |].
  - eapply tables_sized_core; [exact Hs|by rewrite Hf..].
  - intros id o. rewrite (object_lookup_objs k' k) by (by rewrite Hf). apply Hp.
Qed.

Lemma cap_create_kwf oid rights : preserves kernel_wf (scdk_cap_create oid rights).
Proof.
  intros k Hwf. pose proof (kwf_caps _ Hwf) as Hc.
  destruct (scdk_cap_create oid rights k) as [[c|e|] k'] eqn:Hrun; simpl.
  - apply cap_create_Ok in Hrun; [|done]. eapply cap_table_only_kwf; [done|apply Hrun..].
  - apply cap_create_Err in Hrun; [|done]. by subst.
  - pose proof (cap_create_defined k oid rights Hc) as Hd. by rewrite Hrun in Hd.
Qed.

Lemma cap_revoke_kwf cap : u64 cap → preserves kernel_wf (scdk_cap_revoke cap).
Proof.
  intros Hu k Hwf. pose proof (kwf_caps _ Hwf) as Hc.
  destruct (scdk_cap_revoke cap k) as [[[]|e|] k'] eqn:Hrun; simpl.
  - apply cap_revoke_Ok in Hrun; [|done..]. eapply cap_table_only_kwf; [done|apply Hrun..].
  - destruct (scdk_cap_lookup k cap) as [?|?|] eqn:Hl.
    + destruct (cap_revoke_run _ _ _ Hc Hu Hl) as (?&_&_&_&Hr). congruence.
    + rewrite cap_revoke_fails in Hrun by (by rewrite Hl). congruence.
    + by apply cap_lookup_defined in Hl.
  - pose proof (cap_revoke_defined k cap Hc Hu) as Hd. by rewrite Hrun in Hd.
Qed.

#[export] Hint Resolve object_create_kwf cap_create_kwf cap_revoke_kwf : scdk.

(** Slot updates of the tables. *)
Ltac kwf_update :=
  match goal with
  | H : kernel_wf ?k |- kernel_wf _ =>
      apply (kernel_wf_frame k); [exact H|reflexivity|reflexivity|];
      destruct (kwf_sized _ H); split; simpl; rewrite ?length_insert, ?length_alter; assumption
  end.

(** The object a checked capability designates: its payload is the slot of
    the table its type calls for. *)
Lemma checked_payload k cap r t e o :
  kernel_wf k → t ≠ SCDK_OBJ_NONE → scdk_cap_check k cap r t = Ok e →
  scdk_object_lookup k (ce_object_id e) = Ok o → payload_typed t (obj_payload o).
Proof.
  intros Hwf Ht Hc Ho. pose proof (cap_check_object _ _ _ _ _ Hc) as (o' & Ho' & Hty & _).
  rewrite Ho in Ho'. injection Ho' as <-. apply cap_check_Ok in Hc as (_&_&[?|<-]&_); [done|].
  rewrite <-Hty. by eapply kwf_payload.
Qed.

(** Keep the payload cases that [payload_typed] allows for a known type. *)
Ltac payload_cases p Hp :=
  let E := fresh "Hpl" in
  destruct p eqn:E; simpl in Hp;
  try (lazymatch type of Hp with
       | _ ∧ _ => exfalso; destruct Hp as [Hp _]; discriminate Hp
       | slot_typed _ = _ => exfalso; vm_compute in Hp; discriminate Hp
       | _ = _ => discriminate Hp
       end).

(** ** Component invariants

    A predicate on the tables of one component does not depend on the object
    and capability tables, so the core operations keep it. *)
Class OffCore (P : kernel → Prop) : Prop := {
  off_objs : ∀ x k, P k → P (set_objs x k);
  off_caps : ∀ x k, P k → P (set_caps x k)
}.

#[export] Hint Extern 0 (OffCore _) => typeclasses eauto : scdk.

Section off_core.
Context (P : kernel → Prop) `{!OffCore P}.

Lemma object_create_off type owner flags pl : preserves P (scdk_object_create type owner flags pl).
Proof.
  unfold scdk_object_create, next_generation. preserves_tac; by apply off_objs.
Qed.

Lemma cap_create_off oid rights : preserves P (scdk_cap_create oid rights).
Proof.
  unfold scdk_cap_create, next_cap_generation. preserves_tac; by apply off_caps.
Qed.

Lemma cap_revoke_off cap : preserves P (scdk_cap_revoke cap).
Proof.
  unfold scdk_cap_revoke, next_cap_generation. preserves_tac; by apply off_caps.
Qed.

#[global] Instance off_core_and Q : OffCore Q → OffCore (λ k, P k ∧ Q k).
Proof. intros HQ. split; intros x k [??]; (split; [by apply OffCore0|by apply HQ]). Qed.
End off_core.

#[export] Hint Resolve object_create_off cap_create_off cap_revoke_off : scdk.

(** ** Minting an object with its first capability

    Every [scdk_*_create] of a static table ends the same way: create the
    object over a free slot, fill the slot in, mint the capability, and undo
    the slot when that fails. *)
Section mint.
Context (type owner flags : Z) (pl : payload) (rights : Z).
Context (fill : Z → kernel → kernel) (undo : kernel → kernel).

Definition mint : K Z :=
  let* object_id := scdk_object_create type owner flags pl in
  modify (fill object_id) ;;
  on_error (scdk_cap_create object_id rights) undo.

Record minted (k k' : kernel) (cap oid : Z) : Prop := {
  mt_state : k' = set_caps (k_caps k') (set_objs (k_objs k') (fill oid k));
  mt_caps : caps_wf k';
  mt_nonzero : oid ≠ 0;
  mt_u64 : u64 cap;
  mt_object : ∃ g, scdk_object_lookup k' oid = Ok (mk_object oid type g owner flags pl) ∧
    scdk_cap_lookup k' cap = Ok (mk_cap_entry oid g type 0 rights);
  mt_fresh : ∀ o, scdk_object_lookup k oid ≠ Ok o;
  mt_fresh_cap : ∀ e, scdk_cap_lookup k cap ≠ Ok e;
  mt_keep_object : ∀ id o, scdk_object_lookup k id = Ok o → scdk_object_lookup k' id = Ok o;
  mt_keep_cap : ∀ c e, u64 c → scdk_cap_lookup k c = Ok e → scdk_cap_lookup k' c = Ok e;
  mt_only : ∀ id o, scdk_object_lookup k' id = Ok o →
    scdk_object_lookup k id = Ok o ∨ id = oid ∧ obj_type o = type ∧ obj_payload o = pl
}.

Context (Hfill : ∀ oid x k, fill oid (set_objs x k) = set_objs x (fill oid k)).
Context (Hfill_caps : ∀ oid k, k_caps (fill oid k) = k_caps k).

Lemma fill_objs oid k : k_objs (fill oid k) = k_objs k.
Proof.
  assert (k = set_objs (k_objs k) k) as E by (by destruct k). rewrite E at 1. by rewrite Hfill.
Qed.

Lemma mint_Ok k cap k' :
  caps_wf k → mint k = (Ok cap, k') → ∃ oid, minted k k' cap oid.
Proof.
  intros Hwf H. unfold mint in H. do 2 minv_step H. repeat minv_leaf. apply on_error_inv_Ok in H.
  apply object_create_Ok in E; [|apply Hwf]. rename a into oid, s into k1.
  destruct (object_created_caps _ _ _ _ _ _ _ Hwf E) as (Hcaps & Hwf1 & Hkeep).
  assert (caps_wf (fill oid k1)) as Hwf2.
  { apply (caps_wf_tables k1); [by rewrite fill_objs|by rewrite Hfill_caps|done]. }
  apply cap_create_Ok in H; [|done]. exists oid.
  assert (k_objs k' = k_objs k1) as Hobjs by (by rewrite (cc_frame _ _ _ _ _ H); apply fill_objs).
  assert (∀ id, scdk_object_lookup k' id = scdk_object_lookup k1 id) as Hlk.
  { intros id. by apply object_lookup_objs. }
  assert (∀ c, scdk_cap_lookup (fill oid k1) c = scdk_cap_lookup k1 c) as Hcl.
  { intros c. apply cap_lookup_tables; [apply fill_objs|apply Hfill_caps]. }
  split.
  - rewrite (cc_frame _ _ _ _ _ H) at 1. rewrite Hobjs. f_equal.
    rewrite (oc_frame _ _ _ _ _ _ _ E) at 1. by rewrite Hfill.
  - apply H.
  - apply E.
  - apply H.
  - destruct (oc_lookup _ _ _ _ _ _ _ E) as (g & _ & Hg). exists g. rewrite Hlk. split; [done|].
    destruct (cc_lookup _ _ _ _ _ H) as (o & Ho & Hl).
    rewrite (object_lookup_objs _ k1) in Ho by apply fill_objs. rewrite Hg in Ho.
    injection Ho as <-. exact Hl.
  - apply E.
  - intros e He%Hkeep. rewrite <-Hcl in He. by apply H in He.
  - intros id o. rewrite Hlk. apply E.
  - intros c e Hu Hc. apply H; [done|]. rewrite Hcl. by apply Hkeep.
  - intros id o. rewrite Hlk. intros [?|(?&?&?&_)]%(oc_only _ _ _ _ _ _ _ E); tauto.
Qed.

Lemma minted_check k k' cap oid r :
  minted k k' cap oid → r ≠ 0 → Z.land rights r = r →
  ∃ g, scdk_cap_check k' cap r type = Ok (mk_cap_entry oid g type 0 rights) ∧
       scdk_object_lookup k' oid = Ok (mk_object oid type g owner flags pl).
Proof.
  intros H Hr Hs. destruct (mt_object _ _ _ _ H) as (g & Ho & Hl). exists g. split; [|done].
  apply cap_check_Ok. split_and!; [done|done|by right|done].
Qed.

Lemma mint_kwf :
  payload_typed type pl →
  (∀ oid k, kernel_wf k → kernel_wf (fill oid k)) → (∀ k, kernel_wf k → kernel_wf (undo k)) →
  preserves kernel_wf mint.
Proof. intros Hp Hf Hu. unfold mint. preserves_tac; eauto with scdk. Qed.

Lemma mint_Err k e k' :
  kernel_wf k → mint k = (Err e, k') →
  k' = k ∨ ∃ oid k1, object_created k k1 oid type owner flags pl ∧ k' = undo (fill oid k1).
Proof.
  intros Hwf H. unfold mint in H.
  destruct (bind_inv _ _ _ _ _ H) as [(oid&k1&E&H1)|[(?&E&?)|(?&?)]]; [| |done].
  - right. apply object_create_Ok in E; [|apply Hwf]. exists oid, k1. split; [done|].
    unfold bind, modify, on_error in H1.
    destruct (scdk_cap_create oid rights (fill oid k1)) as [[c|e'|] k3] eqn:Hc; [done| |done].
    injection H1 as _ <-. f_equal. apply cap_create_Err in Hc; [done|].
    destruct (object_created_caps _ _ _ _ _ _ _ (kwf_caps _ Hwf) E) as (_ & Hw & _).
    apply (caps_wf_tables k1); [by rewrite fill_objs|by rewrite Hfill_caps|done].
  - left. apply object_create_Err in E; [done|apply Hwf].
Qed.

Lemma mint_defined k : kernel_wf k → defined (mint k).1.
Proof.
  intros Hwf. unfold mint. apply bind_defined; [apply object_create_defined, Hwf|].
  intros oid k1 E. apply object_create_Ok in E; [|apply Hwf].
  destruct (object_created_caps _ _ _ _ _ _ _ (kwf_caps _ Hwf) E) as (_ & Hw & _).
  unfold bind, modify, on_error.
  assert (caps_wf (fill oid k1)) as Hc.
  { apply (caps_wf_tables k1); [by rewrite fill_objs|by rewrite Hfill_caps|done]. }
  pose proof (cap_create_defined (fill oid k1) oid rights Hc) as Hd.
  by destruct (scdk_cap_create oid rights (fill oid k1)) as [[] ?].
Qed.
End mint.
