(* ===== verification/Endpoint.v ===== *)
(** * Messages, endpoints and the service registry
    ([src/ipc/message.c], [src/core/endpoint.c])

    [scdk_endpoint_call] is given the function that runs an installed handler
    as an argument: the handlers are the services, which are modelled after
    this file and call endpoints themselves. *)
From stdpp Require Import base gmap list numbers relations.
From Stdlib Require Import ZArith Lia.
From S2P Require Import Prelude.
From S2P Require Import Kernel.
From S2P Require Import Object.
From S2P Require Import Capability.
From S2P Require Import Invariant.
#[local] Open Scope Z_scope.

Definition SCDK_SERVICE_NONE : Z := 0.
Definition SCDK_SERVICE_CONSOLE : Z := 1.
Definition SCDK_SERVICE_TMPFS : Z := 2.
Definition SCDK_SERVICE_VFS : Z := 3.
Definition SCDK_SERVICE_PROC : Z := 4.
Definition SCDK_SERVICE_GRANT_TEST : Z := 5.
Definition SCDK_SERVICE_DEVMGR : Z := 6.
Definition SCDK_SERVICE_TTY : Z := 7.
Definition SCDK_SERVICE_SESSION : Z := 8.

Definition SCDK_MSG_NONE : Z := 0.
Definition SCDK_MSG_OPEN : Z := 1.
Definition SCDK_MSG_CLOSE : Z := 2.
Definition SCDK_MSG_READ : Z := 3.
Definition SCDK_MSG_WRITE : Z := 4.
Definition SCDK_MSG_DEVICE_REGISTER : Z := 5.
Definition SCDK_MSG_DEVICE_QUEUE_BIND : Z := 6.
Definition SCDK_MSG_SERVICE_REGISTER : Z := 7.
Definition SCDK_MSG_SERVICE_LOOKUP : Z := 8.
Definition SCDK_MSG_PROCESS_SPAWN : Z := 9.
Definition SCDK_MSG_PROCESS_EXIT : Z := 10.
Definition SCDK_MSG_PROCESS_WAIT_STUB : Z := 11.
Definition SCDK_MSG_RING_PROCESS : Z := 12.
Definition SCDK_MSG_CONSOLE_WRITE : Z := 0x2000.
Definition SCDK_MSG_CONSOLE_CLEAR : Z := 0x2001.
Definition SCDK_MSG_CONSOLE_GET_INFO : Z := 0x2002.
Definition SCDK_MSG_CONSOLE_BIND_OUTPUT_RING : Z := 0x2003.
Definition SCDK_MSG_CONSOLE_SCROLL : Z := 0x2004.
Definition SCDK_MSG_TTY_POLL_EVENT : Z := 0x2100.
Definition SCDK_MSG_TTY_BIND_INPUT_RING : Z := 0x2101.
Definition SCDK_MSG_TTY_GET_INFO : Z := 0x2102.
Definition SCDK_MSG_STAT : Z := 0x3000.
Definition SCDK_MSG_LISTDIR : Z := 0x3001.

(** ** Messages *)

(** [(uint64_t)status] *)
Definition status_word (r : result unit) : Z :=
  match r with
  | Ok _ => SCDK_OK
  | Err e => wrap64 (err_code e)
  | Ub => SCDK_OK
  end.

Definition scdk_message_init (sender target type : Z) : scdk_message :=
  mk_message sender target type 0 0 0 0 (wrap64 (err_code SCDK_ERR_INVAL)).

Definition set_msg_status (m : scdk_message) (s : Z) : scdk_message :=
  mk_message (msg_sender m) (msg_target m) (msg_type m)
    (msg_arg0 m) (msg_arg1 m) (msg_arg2 m) (msg_arg3 m) s.
Definition set_msg_target (m : scdk_message) (t : Z) : scdk_message :=
  mk_message (msg_sender m) t (msg_type m)
    (msg_arg0 m) (msg_arg1 m) (msg_arg2 m) (msg_arg3 m) (msg_status m).
Definition set_msg_args (m : scdk_message) (a0 a1 a2 a3 : Z) : scdk_message :=
  mk_message (msg_sender m) (msg_target m) (msg_type m) a0 a1 a2 a3 (msg_status m).

Definition scdk_message_init_write (sender target buffer len : Z) : result scdk_message :=
  let? _ := rguard (buffer =? 0) SCDK_ERR_INVAL in
  Ok (set_msg_status (set_msg_args (scdk_message_init sender target SCDK_MSG_WRITE)
                        buffer len 0 0) SCDK_OK).

(** ** Endpoints *)
Definition set_endpoint (i : nat) (ep : scdk_endpoint) (k : kernel) : kernel :=
  set_eps (mk_endpoints (<[i:=ep]> (endpoint_table (k_eps k))) (service_table (k_eps k))) k.
Definition set_service (i : nat) (s : scdk_service_slot) (k : kernel) : kernel :=
  set_eps (mk_endpoints (endpoint_table (k_eps k)) (<[i:=s]> (service_table (k_eps k)))) k.

Definition scdk_endpoint_create (owner_core : Z) (handler : option handler_id) (context : Z)
  : K Z :=
  guard (bool_decide (handler = None)) SCDK_ERR_INVAL ;;
  let* slot := gets (λ k, find_slot (λ e, ep_object_id e =? 0) (endpoint_table (k_eps k))) in
  match slot with
  | None => fail SCDK_ERR_NOMEM
  | Some i =>
      let* object_id := scdk_object_create SCDK_OBJ_ENDPOINT owner_core 0 (P_endpoint i) in
      modify (set_endpoint i (mk_endpoint object_id handler context)) ;;
      on_error (scdk_cap_create object_id (Z.lor SCDK_RIGHT_SEND SCDK_RIGHT_BIND))
        (set_endpoint i (mk_endpoint 0 None 0))
  end.

(** The endpoint struct an object's payload points to ([None] when null). *)
Definition endpoint_payload (k : kernel) (p : payload) : result (option scdk_endpoint) :=
  match p with
  | P_null => Ok None
  | P_endpoint i => let? ep := deref (endpoint_table (k_eps k) !! i) in Ok (Some ep)
  | _ => Ub
  end.

(** The handler that a call through a capability reaches, with its context and
    the object id written to [msg->target]. *)
Definition endpoint_target (k : kernel) (endpoint : Z) : result (Z * handler_id * Z) :=
  let? entry := scdk_cap_check k endpoint SCDK_RIGHT_SEND SCDK_OBJ_ENDPOINT in
  let? object := scdk_object_lookup k (ce_object_id entry) in
  let? target := endpoint_payload k (obj_payload object) in
  match target with
  | None => Err SCDK_ERR_NOENT
  | Some ep =>
      if negb (ep_object_id ep =? ce_object_id entry) then Err SCDK_ERR_NOENT
      else match ep_handler ep with
           | None => Err SCDK_ERR_NOENT
           | Some h => Ok (ce_object_id entry, h, ep_context ep)
           end
  end.

(** The kernel inside a larger state: handlers run on the state of the whole
    system. *)
Class HasKernel (T : Type) := kernel_of : T → kernel.
#[global] Instance kernel_self : HasKernel kernel := λ k, k.

(** A handler gets the endpoint capability it was called through, the message
    and its context, and gives back the message and its status. *)
Definition handler_on (T : Type) : Type :=
  handler_id → Z → scdk_message → Z → M T (scdk_message * result unit).
Definition handler_fn : Type := handler_on kernel.

Section call.
Context {T : Type} `{HasKernel T} (invoke : handler_on T).

Definition scdk_endpoint_call (endpoint : Z) (msg : scdk_message)
  : M T (scdk_message * result unit) := λ s,
  match endpoint_target (kernel_of s) endpoint with
  | Ub => (Ub, s)
  | Err e => (Ok (set_msg_status msg (status_word (Err e)), Err e), s)
  | Ok (object_id, h, context) =>
      (let* reply := invoke h endpoint (set_msg_target msg object_id) context in
       ret (set_msg_status reply.1 (status_word reply.2), reply.2)) s
  end.
End call.

(** ** Service registry *)
Definition scdk_service_register (service_id endpoint : Z) : K unit :=
  guard (service_id =? SCDK_SERVICE_NONE) SCDK_ERR_INVAL ;;
  let* _ := query (λ k, scdk_cap_check k endpoint SCDK_RIGHT_BIND SCDK_OBJ_ENDPOINT) in
  let* taken := gets (λ k, find_slot (λ s, sv_service_id s =? service_id)
                             (service_table (k_eps k))) in
  guard (bool_decide (is_Some taken)) SCDK_ERR_BUSY ;;
  let* slot := gets (λ k, find_slot (λ s, sv_service_id s =? SCDK_SERVICE_NONE)
                            (service_table (k_eps k))) in
  match slot with
  | None => fail SCDK_ERR_NOMEM
  | Some i => modify (set_service i (mk_service_slot service_id endpoint))
  end.

Definition scdk_service_lookup (k : kernel) (service_id : Z) : result Z :=
  let? _ := rguard (service_id =? SCDK_SERVICE_NONE) SCDK_ERR_INVAL in
  match find_slot (λ s, sv_service_id s =? service_id) (service_table (k_eps k)) with
  | None => Err SCDK_ERR_NOENT
  | Some i => let? s := deref (service_table (k_eps k) !! i) in Ok (sv_endpoint s)
  end.

(** ** Endpoints: lemmas *)
Section endpoint_facts.
Implicit Types k : kernel.

Lemma set_endpoint_kwf i ep k : kernel_wf k → kernel_wf (set_endpoint i ep k).
Proof. intros H. kwf_update. Qed.

Lemma set_service_kwf i s k : kernel_wf k → kernel_wf (set_service i s k).
Proof. intros H. kwf_update. Qed.

Lemma endpoint_create_kwf owner h ctx : preserves kernel_wf (scdk_endpoint_create owner h ctx).
Proof.
  unfold scdk_endpoint_create. apply preserves_bind; [eauto with scdk|intros _].
  intros k Hwf. unfold bind at 1, gets.
  destruct (find_slot _ _) as [i|] eqn:Hf; [|done].
  revert k Hf Hwf. intros k Hf%find_slot_lt Hwf. revert k Hwf Hf.
  intros k Hwf Hlt. rewrite (ts_eps _ (kwf_sized _ Hwf)) in Hlt.
  revert k Hwf.
  change (preserves kernel_wf
    (bind (scdk_object_create SCDK_OBJ_ENDPOINT owner 0 (P_endpoint i)) (λ object_id,
      bind (modify (set_endpoint i (mk_endpoint object_id h ctx))) (λ _,
       on_error (scdk_cap_create object_id (Z.lor SCDK_RIGHT_SEND SCDK_RIGHT_BIND))
        (set_endpoint i (mk_endpoint 0 None 0)))))).
  apply preserves_bind; [|intros oid; preserves_tac; eauto using set_endpoint_kwf with scdk].
  apply object_create_kwf. split; [done|]. unfold SCDK_MAX_ENDPOINTS in *. lia.
Qed.

Lemma endpoint_target_defined k endpoint : kernel_wf k → defined (endpoint_target k endpoint).
Proof.
  intros Hwf. unfold endpoint_target.
  apply rbind_defined; [apply cap_check_defined, Hwf|]. intros e He.
  apply rbind_defined; [apply object_lookup_defined, Hwf|]. intros o Ho.
  assert (payload_typed SCDK_OBJ_ENDPOINT (obj_payload o)) as Hp
    by (by eapply checked_payload; [..|exact He|exact Ho]).
  apply rbind_defined.
  - unfold endpoint_payload. payload_cases (obj_payload o) Hp; [done|].
    destruct Hp as [_ Hi]. destruct (lookup_lt_is_Some_2 (endpoint_table (k_eps k)) i) as [ep Hep].
    { rewrite (ts_eps _ (kwf_sized _ Hwf)). unfold SCDK_MAX_ENDPOINTS in *. lia. }
    by rewrite Hep.
  - intros [ep|] _; [|done]. destruct (negb _); [done|].
    by destruct (ep_handler ep).
Qed.

(** Which endpoint struct a call reaches. *)
Lemma endpoint_target_Ok k endpoint oid h ctx :
  endpoint_target k endpoint = Ok (oid, h, ctx) ↔
  ∃ e o i, scdk_cap_check k endpoint SCDK_RIGHT_SEND SCDK_OBJ_ENDPOINT = Ok e ∧
    oid = ce_object_id e ∧ scdk_object_lookup k oid = Ok o ∧ obj_payload o = P_endpoint i ∧
    endpoint_table (k_eps k) !! i = Some (mk_endpoint oid (Some h) ctx).
Proof.
  unfold endpoint_target. split.
  - intros H. minv H. destruct a1 as [ep|]; [|done].
    destruct (negb _) eqn:Hid; [done|]. bsplit. destruct ep as [eid [h'|] ec]; [|done].
    simpl in *. injection H as <- <- <-.
    unfold endpoint_payload in E1. destruct (obj_payload a0) eqn:Hp; try done.
    minv E1. exists a, a0, i. by subst.
  - intros (e & o & i & -> & -> & Ho & Hp & Hi). simpl. rewrite Ho. simpl. rewrite Hp. simpl.
    rewrite Hi. simpl. by rewrite Z.eqb_refl.
Qed.
End endpoint_facts.

(** ** The registry as a finite map *)
Section registry.
Implicit Types t : list scdk_service_slot.

Fixpoint registry_of t : gmap Z Z :=
  match t with
  | [] => ∅
  | s :: t => if sv_service_id s =? SCDK_SERVICE_NONE then registry_of t
              else <[sv_service_id s := sv_endpoint s]> (registry_of t)
  end.

Definition slot_named (id : Z) (s : scdk_service_slot) : bool := sv_service_id s =? id.

Lemma registry_lookup t id : id ≠ SCDK_SERVICE_NONE →
  registry_of t !! id =
  match find_slot (slot_named id) t with
  | Some i => sv_endpoint <$> t !! i
  | None => None
  end.
Proof.
  intros Hid. induction t as [|s t IH]; [done|]. cbn [registry_of find_slot].
  unfold slot_named at 1. destruct (Z.eqb_spec (sv_service_id s) id) as [->|Hne].
  - apply Z.eqb_neq in Hid. rewrite Hid. by rewrite lookup_insert_eq.
  - assert ((if sv_service_id s =? SCDK_SERVICE_NONE then registry_of t
             else <[sv_service_id s:=sv_endpoint s]> (registry_of t)) !! id
            = registry_of t !! id) as ->.
    { destruct (_ =? SCDK_SERVICE_NONE); [done|]. by rewrite lookup_insert_ne. }
    rewrite IH. by destruct (find_slot (slot_named id) t).
Qed.

Lemma registry_lookup_none t : registry_of t !! SCDK_SERVICE_NONE = None.
Proof.
  induction t as [|s t IH]; [done|]. cbn [registry_of].
  destruct (Z.eqb_spec (sv_service_id s) SCDK_SERVICE_NONE); [done|]. by rewrite lookup_insert_ne.
Qed.

(** Filling a free slot with a new name adds one binding. *)
Lemma registry_insert t i s id ep :
  t !! i = Some s → sv_service_id s = SCDK_SERVICE_NONE → id ≠ SCDK_SERVICE_NONE →
  find_slot (slot_named id) t = None →
  registry_of (<[i:=mk_service_slot id ep]> t) = <[id:=ep]> (registry_of t).
Proof.
  revert i. induction t as [|s' t IH]; intros i Hi Hs Hid Hf; [done|].
  cbn [find_slot] in Hf. unfold slot_named at 1 in Hf.
  destruct (Z.eqb_spec (sv_service_id s') id) as [|Hne]; [done|].
  assert (find_slot (slot_named id) t = None) as Hf' by (by destruct (find_slot _ t)).
  destruct i as [|i]; simpl in Hi.
  - injection Hi as ->.
    change (<[0%nat:=mk_service_slot id ep]> (s :: t)) with (mk_service_slot id ep :: t).
    cbn [registry_of sv_service_id sv_endpoint]. rewrite Hs. apply Z.eqb_neq in Hid. by rewrite Hid.
  - change (<[S i:=mk_service_slot id ep]> (s' :: t))
      with (s' :: <[i:=mk_service_slot id ep]> t).
    cbn [registry_of]. rewrite (IH i) by done. destruct (_ =? SCDK_SERVICE_NONE); [done|].
    by rewrite insert_insert_ne.
Qed.
End registry.

(** ** Creation: lemmas *)
Section create_facts.
Implicit Types k : kernel.

Lemma object_lookup_nonzero k id o : scdk_object_lookup k id = Ok o → id ≠ 0.
Proof. by intros (?&?&?&?&?&?&?)%object_lookup_Ok. Qed.

(** Writing a slot no live endpoint uses keeps every call target. *)
Lemma set_endpoint_keeps k i ep0 ep c t :
  endpoint_table (k_eps k) !! i = Some ep0 → ep_object_id ep0 = 0 →
  endpoint_target k c = Ok t → endpoint_target (set_endpoint i ep k) c = Ok t.
Proof.
  intros Hi Hz. destruct t as [[oid h] ctx]. rewrite !endpoint_target_Ok.
  intros (e & o & j & Hc & Hoid & Ho & Hp & Hj). exists e, o, j. split_and!; try done.
  simpl. rewrite list_lookup_insert_ne; [done|]. intros ->. rewrite Hi in Hj.
  injection Hj as ->. simpl in Hz. by apply object_lookup_nonzero in Ho.
Qed.

Lemma endpoint_target_tables k k' c t :
  k_eps k' = k_eps k →
  (∀ e, scdk_cap_lookup k c = Ok e → scdk_cap_lookup k' c = Ok e) →
  (∀ id o, scdk_object_lookup k id = Ok o → scdk_object_lookup k' id = Ok o) →
  endpoint_target k c = Ok t → endpoint_target k' c = Ok t.
Proof.
  intros He Hc Ho. destruct t as [[oid h] ctx]. rewrite !endpoint_target_Ok.
  intros (e & o & j & (Hr&Hl&?&?)%cap_check_Ok & Hoid & Hlo & Hp & Hj).
  exists e, o, j. rewrite He. split_and!; auto. apply cap_check_Ok. auto.
Qed.

Lemma endpoint_create_Ok k owner h ctx cap k' :
  kernel_wf k → scdk_endpoint_create owner h ctx k = (Ok cap, k') →
  ∃ i oid k1 ep0, h ≠ None ∧
    endpoint_table (k_eps k) !! i = Some ep0 ∧ ep_object_id ep0 = 0 ∧
    object_created k k1 oid SCDK_OBJ_ENDPOINT owner 0 (P_endpoint i) ∧
    cap_created (set_endpoint i (mk_endpoint oid h ctx) k1) k' cap oid 80.
Proof.
  intros Hwf H. unfold scdk_endpoint_create in H. do 2 minv_step H. repeat minv_leaf.
  destruct (find_slot _ _) as [i|] eqn:Hf; [|done].
  apply find_slot_Some in Hf as [(ep0 & Hi & Hz) _]. bsplit.
  do 2 minv_step H. repeat minv_leaf. apply on_error_inv_Ok in H.
  apply bool_decide_eq_false in E.
  apply object_create_Ok in E0; [|apply Hwf].
  exists i, a0, s, ep0. split_and!; try done.
  apply cap_create_Ok; [|done].
  destruct (object_created_caps _ _ _ _ _ _ _ (kwf_caps _ Hwf) E0) as (_&Hc&_).
  by apply (caps_wf_tables s).
Qed.

(** Every way [scdk_endpoint_create] can fail: before the object exists, or
    when no capability can be minted for it. *)
Lemma endpoint_create_Err k owner h ctx e k' :
  kernel_wf k → scdk_endpoint_create owner h ctx k = (Err e, k') →
  k' = k ∨
  ∃ i oid k1 ep0, endpoint_table (k_eps k) !! i = Some ep0 ∧ ep_object_id ep0 = 0 ∧
    object_created k k1 oid SCDK_OBJ_ENDPOINT owner 0 (P_endpoint i) ∧
    k' = set_endpoint i (mk_endpoint 0 None 0) (set_endpoint i (mk_endpoint oid h ctx) k1).
Proof.
  intros Hwf H. unfold scdk_endpoint_create in H.
  destruct h as [h|]; [|injection H as _ <-; by left].
  destruct (bind_inv _ _ _ _ _ H) as [(?&s&E&H1)|[(?&E&?)|(?&?)]]; [|done..].
  injection E as _ <-. clear H.
  unfold bind at 1, gets in H1. destruct (find_slot _ _) as [i|] eqn:Hf; [|by injection H1 as _ <-; left].
  apply find_slot_Some in Hf as [(ep0 & Hi & Hz) _]. bsplit.
  destruct (bind_inv _ _ _ _ _ H1) as [(oid&k1&E&H)|[(?&E&?)|(?&?)]]; [| |done].
  - right. apply object_create_Ok in E; [|apply Hwf].
    unfold bind, modify, on_error in H. set (k2 := set_endpoint _ _ _) in H.
    destruct (scdk_cap_create oid _ k2) as [[c|e'|] k3] eqn:Hc; [done| |done].
    injection H as <- <-. apply cap_create_Err in Hc.
    + subst k3. by exists i, oid, k1, ep0.
    + destruct (object_created_caps _ _ _ _ _ _ _ (kwf_caps _ Hwf) E) as (_&Hcw&_).
      by apply (caps_wf_tables k1).
  - left. apply object_create_Err in E; [done|apply Hwf].
Qed.
End create_facts.

(** ** Properties *)

(** C25. Endpoint creation is sound: a call through the returned capability
    runs exactly the installed handler, on the endpoint's object id and with
    the installed context, whatever the message; the invariant is kept, and
    every call that reached a handler before reaches the same one still. *)
Theorem endpoint_create_delivers (k k' : kernel) (owner : Z) (h : handler_id) (ctx cap : Z)
  (Hwf : kernel_wf k) (Hrun : scdk_endpoint_create owner (Some h) ctx k = (Ok cap, k')) :
  kernel_wf k' ∧
  (∃ oid, oid ≠ 0 ∧ ∀ invoke msg,
     scdk_endpoint_call invoke cap msg k' =
     (let* reply := invoke h cap (set_msg_target msg oid) ctx in
      ret (set_msg_status reply.1 (status_word reply.2), reply.2)) k') ∧
  (∀ c t, u64 c → endpoint_target k c = Ok t → endpoint_target k' c = Ok t).
Proof.
  split.
  { pose proof (endpoint_create_kwf owner (Some h) ctx k Hwf) as Hk. by rewrite Hrun in Hk. }
  destruct (endpoint_create_Ok _ _ _ _ _ _ Hwf Hrun)
    as (i & oid & k1 & ep0 & _ & Hi & Hz & Hoc & Hcc).
  set (k2 := set_endpoint i _ k1) in *.
  pose proof (oc_frame _ _ _ _ _ _ _ Hoc) as Hf1. pose proof (cc_frame _ _ _ _ _ Hcc) as Hf2.
  assert (k_eps k1 = k_eps k) as He1 by (by rewrite Hf1).
  assert (k_eps k' = k_eps k2) as He2 by (by rewrite Hf2).
  assert (∀ id, scdk_object_lookup k' id = scdk_object_lookup k1 id) as Hok'.
  { intros id. apply object_lookup_objs. by rewrite Hf2. }
  split.
  - exists oid. split; [apply Hoc|]. intros invoke msg.
    assert (endpoint_target k' cap = Ok (oid, h, ctx)) as Ht.
    { destruct (cc_lookup _ _ _ _ _ Hcc) as (o & Ho & Hl).
      destruct (oc_lookup _ _ _ _ _ _ _ Hoc) as (g & _ & Hlo).
      apply endpoint_target_Ok. eexists _, _, i. split.
      { apply cap_check_Ok. split; [done|]. split; [exact Hl|]. split; [right|done]. simpl.
        rewrite (object_lookup_objs k2 k1) in Ho by done. rewrite Hlo in Ho. by injection Ho as <-. }
      split; [done|]. split; [rewrite Hok'; exact Hlo|]. split; [done|].
      rewrite He2. simpl. apply list_lookup_insert_eq. rewrite He1. by eapply lookup_lt_Some. }
    unfold scdk_endpoint_call, kernel_of, kernel_self. by rewrite Ht.
  - intros c t Hc Ht. apply (endpoint_target_tables k2); [done|..].
    + intros e. by apply (cc_keep _ _ _ _ _ Hcc).
    + intros id o. rewrite Hok'. by rewrite (object_lookup_objs k2 k1).
    + eapply set_endpoint_keeps; [by rewrite He1|done|].
      apply (endpoint_target_tables k); [done|..|done].
      * intros e. apply (object_created_caps _ _ _ _ _ _ _ (kwf_caps _ Hwf) Hoc).
      * apply Hoc.
Qed.

(** A failed endpoint creation is invisible to callers: whatever the
    error (no slot, no object, no capability), no message reaches a different
    handler than before and no capability appears. *)
Theorem endpoint_create_failure_atomic (k k' : kernel) (owner : Z) (h : option handler_id) (ctx : Z)
  (e : err) (Hwf : kernel_wf k) (Hrun : scdk_endpoint_create owner h ctx k = (Err e, k')) :
  kernel_wf k' ∧ k_caps k' = k_caps k ∧
  ∀ c t, u64 c → endpoint_target k' c = Ok t ↔ endpoint_target k c = Ok t.
Proof.
  split.
  { pose proof (endpoint_create_kwf owner h ctx k Hwf) as Hk. by rewrite Hrun in Hk. }
  destruct (endpoint_create_Err _ _ _ _ _ _ Hwf Hrun)
    as [->|(i & oid & k1 & ep0 & Hi & Hz & Hoc & ->)]; [done|].
  pose proof (oc_frame _ _ _ _ _ _ _ Hoc) as Hf1.
  assert (k_eps k1 = k_eps k) as He1 by (by rewrite Hf1).
  destruct (object_created_caps _ _ _ _ _ _ _ (kwf_caps _ Hwf) Hoc) as (Hcaps & Hwf1 & Hkeep).
  split; [done|]. intros c [[oid' h'] ctx'] Hc. split; rewrite !endpoint_target_Ok.
  - intros (en & o & j & Hck & Hoid & Ho & Hp & Hj).
    rewrite (cap_check_tables _ k1) in Hck by done.
    rewrite (object_lookup_objs _ k1) in Ho by done.
    pose proof Hck as (Hr & Hl & Hty & Hrt)%cap_check_Ok.
    assert (i ≠ j) as Hij.
    { intros ->. simpl in Hj. rewrite list_insert_insert_eq, list_lookup_insert_eq in Hj.
      - injection Hj as H0 _ _. by apply object_lookup_nonzero in Ho.
      - rewrite He1. by eapply lookup_lt_Some. }
    simpl in Hj. rewrite !list_lookup_insert_ne, He1 in Hj by done.
    destruct (oc_only _ _ _ _ _ _ _ Hoc _ _ Ho) as [Ho'|(Hnew & Hot & Hpl & _)].
    + exists en, o, j. split_and!; try done. apply cap_check_Ok. split_and!; try done.
      apply cap_lookup_Ok in Hl; [|done|done].
      eapply cap_lookup_at; [apply Hwf|]. unfold cap_at in *. by rewrite <-Hcaps.
    + rewrite Hpl in Hp. by injection Hp.
  - intros (en & o & j & Hck & Hoid & Ho & Hp & Hj).
    assert (i ≠ j) as Hij.
    { intros ->. rewrite Hi in Hj. injection Hj as ->. by apply object_lookup_nonzero in Ho. }
    exists en, o, j. split_and!; [|done| |done|].
    + rewrite (cap_check_tables _ k1) by done. apply cap_check_Ok in Hck as (?&?&?&?).
      apply cap_check_Ok. auto.
    + rewrite (object_lookup_objs _ k1) by done. by apply Hoc.
    + simpl. by rewrite !list_lookup_insert_ne, He1 by done.
Qed.

(** ** The service registry refines a finite map *)

(** The abstract registry: names bind endpoint capabilities, a name is bound
    once and never rebound. *)
Definition registry (k : kernel) : gmap Z Z := registry_of (service_table (k_eps k)).
Definition registry_full (k : kernel) : bool :=
  forallb (λ s, negb (sv_service_id s =? SCDK_SERVICE_NONE)) (service_table (k_eps k)).

Definition spec_lookup (r : gmap Z Z) (id : Z) : result Z :=
  if id =? SCDK_SERVICE_NONE then Err SCDK_ERR_INVAL
  else match r !! id with Some ep => Ok ep | None => Err SCDK_ERR_NOENT end.

Definition spec_register (r : gmap Z Z) (full : bool) (authority : result scdk_cap_entry)
  (id ep : Z) : result (gmap Z Z) :=
  let? _ := rguard (id =? SCDK_SERVICE_NONE) SCDK_ERR_INVAL in
  let? _ := authority in
  let? _ := rguard (bool_decide (is_Some (r !! id))) SCDK_ERR_BUSY in
  let? _ := rguard full SCDK_ERR_NOMEM in
  Ok (<[id:=ep]> r).

Lemma registry_full_slot k :
  find_slot (λ s, sv_service_id s =? SCDK_SERVICE_NONE) (service_table (k_eps k)) = None
  ↔ registry_full k = true.
Proof.
  unfold registry_full. rewrite find_slot_None. rewrite forallb_forall. split.
  - intros H s Hs%list_elem_of_In%list_elem_of_lookup. destruct Hs as [i Hi].
    by rewrite (H i s Hi).
  - intros H j s Hj. apply negb_true_iff, H, list_elem_of_In. by eapply list_elem_of_lookup_2.
Qed.

Lemma service_lookup_spec k id : scdk_service_lookup k id = spec_lookup (registry k) id.
Proof.
  unfold scdk_service_lookup, spec_lookup, rguard. destruct (Z.eqb_spec id SCDK_SERVICE_NONE); [done|].
  simpl. unfold registry. rewrite registry_lookup by done. fold (slot_named id).
  destruct (find_slot _ _) as [i|] eqn:Hf; [|done].
  apply find_slot_Some in Hf as [(s & Hs & _) _]. by rewrite Hs.
Qed.

Lemma registry_taken k id : id ≠ SCDK_SERVICE_NONE →
  is_Some (registry k !! id) ↔ is_Some (find_slot (slot_named id) (service_table (k_eps k))).
Proof.
  intros Hid. unfold registry. rewrite registry_lookup by done.
  destruct (find_slot _ _) as [i|] eqn:Hf; [|done].
  apply find_slot_Some in Hf as [(s & Hs & _) _]. rewrite Hs. split; intros _; by eexists.
Qed.

Lemma service_register_kwf id ep : preserves kernel_wf (scdk_service_register id ep).
Proof.
  unfold scdk_service_register. preserves_tac. by apply set_service_kwf.
Qed.

(** The service table refines a map from names to endpoint capabilities:
    lookup is map lookup; registration of a non-zero name with a capability
    that carries BIND adds exactly that binding, a bound name gives BUSY
    whatever the authority, a full table gives NOMEM, and on every error the
    kernel is left as it was.  Objects, capabilities and endpoints are never
    touched. *)
Theorem service_registry_refines_map (k : kernel) (id ep : Z) :
  scdk_service_lookup k id = spec_lookup (registry k) id ∧
  match spec_register (registry k) (registry_full k)
          (scdk_cap_check k ep SCDK_RIGHT_BIND SCDK_OBJ_ENDPOINT) id ep with
  | Ok r' => ∃ k', scdk_service_register id ep k = (Ok tt, k') ∧ registry k' = r' ∧
      k' = set_eps (mk_endpoints (endpoint_table (k_eps k)) (service_table (k_eps k'))) k
  | Err e => scdk_service_register id ep k = (Err e, k)
  | Ub => scdk_service_register id ep k = (Ub, k)
  end.
Proof.
  split; [apply service_lookup_spec|].
  unfold spec_register, scdk_service_register, rguard, guard, bind, query, gets, ret, fail, modify.
  destruct (Z.eqb_spec id SCDK_SERVICE_NONE) as [|Hid]; simpl; [done|].
  destruct (scdk_cap_check _ _ _ _) as [en|e|]; simpl; [|done..].
  fold (slot_named id). rewrite (bool_decide_ext _ _ (registry_taken k id Hid)).
  case_bool_decide as Ht; simpl; [done|].
  destruct (find_slot (λ s, _ =? SCDK_SERVICE_NONE) _) as [i|] eqn:Hf.
  - destruct (registry_full k) eqn:Hfull; [apply registry_full_slot in Hfull; congruence|]. simpl.
    apply find_slot_Some in Hf as [(s & Hs & Hz) _]. bsplit.
    eexists. split; [done|]. split; [|done]. apply registry_insert with s; try done.
    destruct (find_slot (slot_named id) _) eqn:Hn; [|done]. by destruct Ht.
  - apply registry_full_slot in Hf. by rewrite Hf.
Qed.

(** ** Reachability of handlers *)

(** No message passes without authority: a call through a capability that
    fails the SEND check on an endpoint object returns the check's error in
    the status and in [msg->status], runs no handler and changes nothing;
    after the capability is revoked every further call ends this way. *)
Theorem endpoint_call_needs_send (k k' : kernel) (invoke : handler_fn) (cap : Z) (msg : scdk_message)
  (Hwf : kernel_wf k) (Hu : u64 cap) (Hrevoke : scdk_cap_revoke cap k = (Ok tt, k')) :
  (∀ e, scdk_cap_check k cap SCDK_RIGHT_SEND SCDK_OBJ_ENDPOINT = Err e →
     scdk_endpoint_call invoke cap msg k = (Ok (set_msg_status msg (status_word (Err e)), Err e), k)) ∧
  ∃ e, scdk_endpoint_call invoke cap msg k' =
       (Ok (set_msg_status msg (status_word (Err e)), Err e), k').
Proof.
  assert (∀ k0 e, scdk_cap_check k0 cap SCDK_RIGHT_SEND SCDK_OBJ_ENDPOINT = Err e →
    scdk_endpoint_call invoke cap msg k0 =
    (Ok (set_msg_status msg (status_word (Err e)), Err e), k0)) as Hcall.
  { intros k0 e He. unfold scdk_endpoint_call, kernel_of, kernel_self, endpoint_target. by rewrite He. }
  split; [apply Hcall|]. apply cap_revoke_Ok in Hrevoke; [|apply Hwf|done].
  destruct (scdk_cap_check k' cap SCDK_RIGHT_SEND SCDK_OBJ_ENDPOINT) as [en|e|] eqn:Hc.
  - exfalso. apply cap_check_Ok in Hc as (_&Hl&_).
    pose proof (cr_dead _ _ _ Hrevoke). congruence.
  - exists e. by apply Hcall.
  - by apply cap_check_defined in Hc; [|apply Hrevoke].
Qed.

(** ** Witnesses *)

(** The first endpoint of a booted kernel. *)
Definition demo_endpoint : kernel :=
  (scdk_endpoint_create 0 (Some console_endpoint_handler) 7 boot_kernel).2.

Lemma demo_endpoint_wf : kernel_wf demo_endpoint.
Proof. apply endpoint_create_kwf, boot_kernel_wf. Qed.

Lemma endpoint_create_delivers_witness :
  kernel_wf demo_endpoint ∧
  ∃ oid, oid ≠ 0 ∧ ∀ invoke msg,
    scdk_endpoint_call invoke 4294967296 msg demo_endpoint =
     (let* reply := invoke console_endpoint_handler 4294967296 (set_msg_target msg oid) 7 in
      ret (set_msg_status reply.1 (status_word reply.2), reply.2)) demo_endpoint.
Proof.
  assert (scdk_endpoint_create 0 (Some console_endpoint_handler) 7 boot_kernel
          = (Ok 4294967296, demo_endpoint)) as Hrun.
  { apply run_to; [reflexivity|]. vm_compute. reflexivity. }
  destruct (endpoint_create_delivers boot_kernel demo_endpoint 0 console_endpoint_handler 7
    4294967296 boot_kernel_wf Hrun) as (H1 & H2 & _).
  exact (conj H1 H2).
Defined.

(** A null handler is refused. *)
Lemma endpoint_create_failure_atomic_witness : kernel_wf boot_kernel.
Proof.
  apply (endpoint_create_failure_atomic boot_kernel boot_kernel 0 None 0 SCDK_ERR_INVAL
           boot_kernel_wf).
  reflexivity.
Defined.

Lemma endpoint_call_needs_send_witness :
  ∃ e, scdk_endpoint_call (λ _ _ m _, ret (m, Ok tt)) 4294967296 (scdk_message_init 0 0 0)
         (scdk_cap_revoke 4294967296 demo_endpoint).2 =
       (Ok (set_msg_status (scdk_message_init 0 0 0) (status_word (Err e)), Err e),
        (scdk_cap_revoke 4294967296 demo_endpoint).2).
Proof.
  apply (endpoint_call_needs_send demo_endpoint).
  - exact demo_endpoint_wf.
  - unfold u64, two64. lia.
  - apply run_eq. vm_compute. reflexivity.
Defined.
