(* ===== verification/Ring.v ===== *)
(** * Rings ([src/core/ring.c])

    A ring object is a pair of bounded queues, submissions and completions,
    over fixed storage, with free-running 32-bit head and tail counters. *)
From stdpp Require Import base gmap list numbers relations.
From Stdlib Require Import ZArith Lia.
From S2P Require Import Prelude.
From S2P Require Import Kernel.
From S2P Require Import Object.
From S2P Require Import Capability.
From S2P Require Import Invariant.
From S2P Require Import Endpoint.
#[local] Open Scope Z_scope.

Definition SCDK_RING_OP_NONE : Z := 0.
Definition SCDK_RING_OP_CONSOLE_WRITE : Z := 1.

(** ** Operations *)
Definition queue_count (head tail : Z) : Z := wrap32 (tail - head).

(** [queue[position % entries]], read and written. *)
Definition queue_read {A} (q : list A) (position entries : Z) : result A :=
  if entries =? 0 then Ub else deref (q !! Z.to_nat (position mod entries)).
Definition queue_write {A} (q : list A) (position entries : Z) (x : A) : result (list A) :=
  if entries =? 0 then Ub
  else let i := Z.to_nat (position mod entries) in
       if bool_decide (i < length q)%nat then Ok (<[i:=x]> q) else Ub.

Definition set_ring (i : nat) (r : scdk_ring) (k : kernel) : kernel :=
  set_rings (alter (λ s, mk_ring_slot (rs_object_id s) r) i (k_rings k)) k.
Definition ring_at (k : kernel) (i : nat) : result scdk_ring :=
  let? s := deref (k_rings k !! i) in Ok (rs_ring s).

(** The slot a ring capability reaches. *)
Definition ring_lookup (k : kernel) (cap required_rights : Z) : result nat :=
  let? entry := scdk_cap_check k cap required_rights SCDK_OBJ_RING in
  let? object := scdk_object_lookup k (ce_object_id entry) in
  match obj_payload object with
  | P_null => Err SCDK_ERR_NOENT
  | P_ring i =>
      let? slot := deref (k_rings k !! i) in
      if negb (rs_object_id slot =? ce_object_id entry) then Err SCDK_ERR_NOENT else Ok i
  | _ => Ub
  end.

(** [if (target != 0) status = scdk_cap_check(target, SEND, ENDPOINT, 0);] *)
Definition check_bound_target (k : kernel) (target : Z) : result unit :=
  if target =? 0 then Ok tt
  else let? _ := scdk_cap_check k target SCDK_RIGHT_SEND SCDK_OBJ_ENDPOINT in Ok tt.

(** The slot filled in by [scdk_ring_create]; the storage is not cleared. *)
Definition init_ring_slot (i : nat) (entries bound_target object_id : Z) (k : kernel) : kernel :=
  set_rings (alter (λ s, mk_ring_slot object_id
               (mk_ring entries 0 0 0 0 (rg_sq (rs_ring s)) (rg_cq (rs_ring s)) bound_target))
             i (k_rings k)) k.
Definition clear_ring_slot (i : nat) (k : kernel) : kernel :=
  set_rings (alter (λ s, mk_ring_slot 0 (rs_ring s)) i (k_rings k)) k.

Definition scdk_ring_create (owner_core entries bound_target : Z) : K Z :=
  guard ((entries =? 0) || (SCDK_RING_MAX_ENTRIES <? entries)) SCDK_ERR_INVAL ;;
  query (λ k, check_bound_target k bound_target) ;;
  let* slot := gets (λ k, find_slot (λ s, rs_object_id s =? 0) (k_rings k)) in
  match slot with
  | None => fail SCDK_ERR_NOMEM
  | Some i =>
      let* object_id := scdk_object_create SCDK_OBJ_RING owner_core 0 (P_ring i) in
      modify (init_ring_slot i entries bound_target object_id) ;;
      on_error
        (scdk_cap_create object_id
           (Z.lor (Z.lor SCDK_RIGHT_READ SCDK_RIGHT_WRITE) SCDK_RIGHT_BIND))
        (clear_ring_slot i)
  end.

Definition scdk_ring_bind_target (ring target : Z) : K unit :=
  guard (target =? 0) SCDK_ERR_INVAL ;;
  query (λ k, scdk_cap_check k target SCDK_RIGHT_SEND SCDK_OBJ_ENDPOINT) ;;
  let* i := query (λ k, ring_lookup k ring SCDK_RIGHT_BIND) in
  let* r := query (λ k, ring_at k i) in
  modify (set_ring i (mk_ring (rg_entries r) (rg_submit_head r) (rg_submit_tail r)
            (rg_complete_head r) (rg_complete_tail r) (rg_sq r) (rg_cq r) target)).

Definition scdk_ring_bound_target (k : kernel) (ring : Z) : result Z :=
  let? i := ring_lookup k ring SCDK_RIGHT_READ in
  let? r := ring_at k i in
  let? _ := check_bound_target k (rg_bound_target r) in
  Ok (rg_bound_target r).

Definition scdk_ring_submit (ring : Z) (desc : scdk_ring_desc) : K unit :=
  let* i := query (λ k, ring_lookup k ring SCDK_RIGHT_WRITE) in
  let* r := query (λ k, ring_at k i) in
  guard (rg_entries r <=? queue_count (rg_submit_head r) (rg_submit_tail r)) SCDK_ERR_BUSY ;;
  let* sq := lift (queue_write (rg_sq r) (rg_submit_tail r) (rg_entries r) desc) in
  modify (set_ring i (mk_ring (rg_entries r) (rg_submit_head r) (wrap32 (rg_submit_tail r + 1))
            (rg_complete_head r) (rg_complete_tail r) sq (rg_cq r) (rg_bound_target r))).

Definition scdk_ring_consume (ring : Z) : K scdk_ring_desc :=
  let* i := query (λ k, ring_lookup k ring SCDK_RIGHT_READ) in
  let* r := query (λ k, ring_at k i) in
  guard (rg_submit_head r =? rg_submit_tail r) SCDK_ERR_NOENT ;;
  let* desc := lift (queue_read (rg_sq r) (rg_submit_head r) (rg_entries r)) in
  modify (set_ring i (mk_ring (rg_entries r) (wrap32 (rg_submit_head r + 1)) (rg_submit_tail r)
            (rg_complete_head r) (rg_complete_tail r) (rg_sq r) (rg_cq r) (rg_bound_target r))) ;;
  ret desc.

Definition scdk_ring_complete (ring : Z) (completion : scdk_completion) : K unit :=
  let* i := query (λ k, ring_lookup k ring SCDK_RIGHT_WRITE) in
  let* r := query (λ k, ring_at k i) in
  guard (rg_entries r <=? queue_count (rg_complete_head r) (rg_complete_tail r)) SCDK_ERR_BUSY ;;
  let* cq := lift (queue_write (rg_cq r) (rg_complete_tail r) (rg_entries r) completion) in
  modify (set_ring i (mk_ring (rg_entries r) (rg_submit_head r) (rg_submit_tail r)
            (rg_complete_head r) (wrap32 (rg_complete_tail r + 1)) (rg_sq r) cq
            (rg_bound_target r))).

Definition scdk_ring_poll (ring : Z) : K scdk_completion :=
  let* i := query (λ k, ring_lookup k ring SCDK_RIGHT_READ) in
  let* r := query (λ k, ring_at k i) in
  guard (rg_complete_head r =? rg_complete_tail r) SCDK_ERR_NOENT ;;
  let* completion := lift (queue_read (rg_cq r) (rg_complete_head r) (rg_entries r)) in
  modify (set_ring i (mk_ring (rg_entries r) (rg_submit_head r) (rg_submit_tail r)
            (wrap32 (rg_complete_head r + 1)) (rg_complete_tail r) (rg_sq r) (rg_cq r)
            (rg_bound_target r))) ;;
  ret completion.

(** ** The queue a pair of counters delimits *)
Section window.
Context {A : Type}.
Implicit Types (q : list A) (head tail entries : Z).

Definition window_slot head entries (i : nat) : nat :=
  Z.to_nat (wrap32 (head + Z.of_nat i) mod entries).

(** The elements between [head] and [tail], oldest first. *)
Definition window q head tail entries : list A :=
  omap (λ i, q !! window_slot head entries i) (seq 0 (Z.to_nat (queue_count head tail))).

(** Counters and storage are in range. *)
Record queue_ok q head tail entries : Prop := {
  qo_entries : 0 < entries <= SCDK_RING_MAX_ENTRIES;
  qo_storage : length q = Z.to_nat SCDK_RING_MAX_ENTRIES;
  qo_head : u32 head;
  qo_tail : u32 tail;
  qo_count : queue_count head tail <= entries
}.

(** Successive counter values hit successive slots: the capacity divides 2^32,
    or the counters do not wrap while [n] more elements pass. *)
Definition steady head tail entries (n : Z) : Prop :=
  (entries | two32) ∨ (head <= tail ∧ tail + n < two32).
End window.

Section window_facts.
Context {A : Type}.
Implicit Types (q : list A) (head tail entries : Z).

Lemma omap_ext_in {B} (f g : nat → option B) (l : list nat) :
  (∀ i, i ∈ l → f i = g i) → omap f l = omap g l.
Proof.
  induction l as [|i l IH]; intros H; [done|]. csimpl. rewrite (H i) by left.
  rewrite IH; [done|]. intros j Hj. apply H. by right.
Qed.

Lemma wrap32_range z : 0 <= wrap32 z < two32.
Proof. apply Z.mod_pos_bound. done. Qed.

Lemma wrap32_small z : u32 z → wrap32 z = z.
Proof. apply Z.mod_small. Qed.

Lemma queue_count_succ head tail entries :
  queue_count head tail < entries → entries <= SCDK_RING_MAX_ENTRIES →
  queue_count head (wrap32 (tail + 1)) = queue_count head tail + 1.
Proof.
  unfold queue_count, wrap32, SCDK_RING_MAX_ENTRIES, two32. intros. Z.to_euclidean_division_equations. lia.
Qed.

Lemma queue_count_pred head tail :
  u32 head → u32 tail → head ≠ tail →
  queue_count head tail = queue_count (wrap32 (head + 1)) tail + 1.
Proof.
  unfold queue_count, wrap32, u32, two32. intros. Z.to_euclidean_division_equations. lia.
Qed.

Lemma queue_count_zero head tail : u32 head → u32 tail → queue_count head tail = 0 ↔ head = tail.
Proof.
  unfold queue_count, wrap32, u32, two32. intros. split; Z.to_euclidean_division_equations; lia.
Qed.

Lemma queue_count_end head tail : u32 tail → wrap32 (head + queue_count head tail) = tail.
Proof.
  unfold queue_count, wrap32, u32, two32. intros. Z.to_euclidean_division_equations. lia.
Qed.

Lemma window_slot_lt head entries i :
  0 < entries <= SCDK_RING_MAX_ENTRIES → (window_slot head entries i < 64)%nat.
Proof.
  unfold window_slot, SCDK_RING_MAX_ENTRIES. intros.
  pose proof (Z.mod_pos_bound (wrap32 (head + Z.of_nat i)) entries). lia.
Qed.

(** In a steady window two positions less than [entries] apart share no slot. *)
Lemma window_slot_ne head tail entries (i : nat) :
  u32 head → u32 tail → 0 < entries → steady head tail entries 0 →
  Z.of_nat i < queue_count head tail < entries →
  window_slot head entries i ≠ Z.to_nat (tail mod entries).
Proof.
  intros Hh Ht He Hs Hi Heq. unfold window_slot in Heq.
  apply Z2Nat.inj in Heq; [|apply Z.mod_pos_bound; lia..].
  assert (∃ m, (head + Z.of_nat i) mod entries = (head + m) mod entries
               ∧ m = queue_count head tail) as (m & Hm & ->).
  { exists (queue_count head tail). split; [|done].
    rewrite <-(queue_count_end head tail Ht) in Heq at 1. unfold wrap32 in Heq at 1 2.
    destruct Hs as [Hdiv|[Hle Hlt]].
    - rewrite !Z.mod_mod_divide in Heq by done. done.
    - assert (queue_count head tail = tail - head) as Hc.
      { unfold queue_count. apply wrap32_small. unfold u32, two32 in *. lia. }
      rewrite (Z.mod_small (head + Z.of_nat i) two32) in Heq by (unfold u32, two32 in *; lia).
      rewrite (Z.mod_small (head + queue_count head tail) two32) in Heq
        by (unfold u32, two32 in *; lia).
      done. }
  assert ((queue_count head tail - Z.of_nat i) mod entries = 0) as H0.
  { replace (queue_count head tail - Z.of_nat i)
      with ((head + queue_count head tail) - (head + Z.of_nat i)) by lia.
    rewrite Zminus_mod, Hm, Z.sub_diag. by apply Zmod_0_l. }
  rewrite Z.mod_small in H0 by lia. lia.
Qed.

Lemma queue_slot_lt q head tail entries pos :
  queue_ok q head tail entries → (Z.to_nat (pos mod entries) < length q)%nat.
Proof.
  intros [He Hl _ _ _]. rewrite Hl. pose proof (Z.mod_pos_bound pos entries). lia.
Qed.

Lemma window_slot_ok q head tail entries i :
  queue_ok q head tail entries → is_Some (q !! window_slot head entries i).
Proof. intros H. apply lookup_lt_is_Some_2. by eapply queue_slot_lt. Qed.

Lemma window_length q head tail entries :
  queue_ok q head tail entries → Z.of_nat (length (window q head tail entries)) = queue_count head tail.
Proof.
  intros Hok. unfold window.
  assert (∀ l, length (omap (λ i, q !! window_slot head entries i) l) = length l) as ->.
  { induction l as [|i l IH]; [done|]. csimpl.
    destruct (window_slot_ok q head tail entries i Hok) as [x ->]. csimpl. by rewrite IH. }
  rewrite length_seq. pose proof (wrap32_range (tail - head)). unfold queue_count. lia.
Qed.

Lemma window_push q head tail entries x :
  queue_ok q head tail entries → queue_count head tail < entries → steady head tail entries 0 →
  let q' := <[Z.to_nat (tail mod entries):=x]> q in
  queue_write q tail entries x = Ok q' ∧
  queue_ok q' head (wrap32 (tail + 1)) entries ∧
  window q' head (wrap32 (tail + 1)) entries = window q head tail entries ++ [x].
Proof.
  intros Hok Hc Hs. pose proof (queue_slot_lt _ _ _ _ tail Hok) as Hlt.
  pose proof Hok as [He Hl Hh Ht Hcount]. split_and!.
  - unfold queue_write. rewrite (proj2 (Z.eqb_neq _ _)) by lia. by rewrite bool_decide_true.
  - split; [done|by rewrite length_insert|done|apply wrap32_range|].
    rewrite (queue_count_succ _ _ entries) by lia. lia.
  - unfold window. rewrite (queue_count_succ _ _ entries) by lia.
    pose proof (wrap32_range (tail - head)) as Hw. change (wrap32 (tail - head)) with (queue_count head tail) in Hw.
    rewrite Z2Nat.inj_add by lia. change (Z.to_nat 1) with 1%nat. rewrite Nat.add_1_r, seq_S.
    rewrite omap_app. f_equal.
    + apply omap_ext_in. intros i Hi%elem_of_seq. apply list_lookup_insert_ne.
      intros E. symmetry in E. revert E. apply window_slot_ne with (tail := tail); try done; lia.
    + csimpl. unfold window_slot. rewrite Z2Nat.id by lia.
      rewrite queue_count_end by done. by rewrite list_lookup_insert_eq.
Qed.

Lemma window_pop q head tail entries :
  queue_ok q head tail entries → head ≠ tail →
  ∃ x, queue_read q head entries = Ok x ∧
    queue_ok q (wrap32 (head + 1)) tail entries ∧
    window q head tail entries = x :: window q (wrap32 (head + 1)) tail entries.
Proof.
  intros Hok Hne. pose proof Hok as [He Hl Hh Ht Hcount].
  destruct (window_slot_ok q head tail entries 0 Hok) as [x Hx]. exists x.
  unfold window_slot in Hx. rewrite Z.add_0_r, wrap32_small in Hx by done.
  pose proof (queue_count_pred head tail Hh Ht Hne) as Hp.
  pose proof (wrap32_range (tail - wrap32 (head + 1))) as Hw.
  change (wrap32 (tail - wrap32 (head + 1))) with (queue_count (wrap32 (head + 1)) tail) in Hw.
  split_and!.
  - unfold queue_read. rewrite (proj2 (Z.eqb_neq _ _)) by lia. by rewrite Hx.
  - split; [done|done|apply wrap32_range|done|lia].
  - unfold window. rewrite Hp. rewrite Z2Nat.inj_add by lia. change (Z.to_nat 1) with 1%nat.
    rewrite Nat.add_1_r. cbn [seq]. csimpl.
    unfold window_slot at 1. rewrite Z.add_0_r, wrap32_small, Hx by done. csimpl. f_equal.
    rewrite <-seq_shift. change (map S) with (fmap (M:=list) S).
    generalize (seq 0 (Z.to_nat (queue_count (wrap32 (head + 1)) tail))). intros l.
    induction l as [|i l IH]; [done|]. csimpl.
    replace (window_slot head entries (S i)) with (window_slot (wrap32 (head + 1)) entries i).
    + destruct (q !! window_slot _ _ i) as [y|]; [by rewrite IH|exact IH].
    + unfold window_slot. f_equal. f_equal. unfold wrap32. rewrite Zplus_mod_idemp_l. f_equal. lia.
Qed.

Lemma steady_le head tail entries n m : steady head tail entries n → m <= n → steady head tail entries m.
Proof. intros [?|[??]] ?; [by left|right; lia]. Qed.

Lemma steady_push head tail entries n :
  u32 tail → 0 <= n → steady head tail entries (n + 1) → steady head (wrap32 (tail + 1)) entries n.
Proof.
  intros Ht Hn [?|[??]]; [by left|]. right. rewrite wrap32_small by (unfold u32 in *; lia). lia.
Qed.

Lemma steady_pop head tail entries n :
  u32 head → u32 tail → head ≠ tail → steady head tail entries n →
  steady (wrap32 (head + 1)) tail entries n.
Proof.
  intros Hh Ht Hne [?|[??]]; [by left|]. right.
  rewrite wrap32_small by (unfold u32, two32 in *; lia). lia.
Qed.
End window_facts.

(** ** Invariant of the ring table *)
Definition ring_ok (r : scdk_ring) : Prop :=
  queue_ok (rg_sq r) (rg_submit_head r) (rg_submit_tail r) (rg_entries r) ∧
  queue_ok (rg_cq r) (rg_complete_head r) (rg_complete_tail r) (rg_entries r).

Record ring_slot_ok (s : scdk_ring_slot) : Prop := {
  rso_sq : length (rg_sq (rs_ring s)) = Z.to_nat SCDK_RING_MAX_ENTRIES;
  rso_cq : length (rg_cq (rs_ring s)) = Z.to_nat SCDK_RING_MAX_ENTRIES;
  rso_ring : rs_object_id s ≠ 0 → ring_ok (rs_ring s)
}.

Definition rings_wf (k : kernel) : Prop := Forall ring_slot_ok (k_rings k).

Lemma boot_rings_wf : rings_wf boot_kernel.
Proof. apply Forall_replicate. split; [done..|]. by intros []. Qed.

(** ** The specification: two bounded queues *)
Record fifo := mk_fifo {
  ff_capacity : Z;
  ff_submissions : list scdk_ring_desc;
  ff_completions : list scdk_completion
}.

Inductive ring_op : Type :=
  | op_submit (d : scdk_ring_desc)
  | op_consume
  | op_complete (c : scdk_completion)
  | op_poll.

Inductive ring_reply : Type :=
  | reply_done
  | reply_desc (d : scdk_ring_desc)
  | reply_completion (c : scdk_completion).

Definition fifo_step (f : fifo) (op : ring_op) : result ring_reply * fifo :=
  match op with
  | op_submit d =>
      if ff_capacity f <=? Z.of_nat (length (ff_submissions f)) then (Err SCDK_ERR_BUSY, f)
      else (Ok reply_done, mk_fifo (ff_capacity f) (ff_submissions f ++ [d]) (ff_completions f))
  | op_consume =>
      match ff_submissions f with
      | [] => (Err SCDK_ERR_NOENT, f)
      | d :: q => (Ok (reply_desc d), mk_fifo (ff_capacity f) q (ff_completions f))
      end
  | op_complete c =>
      if ff_capacity f <=? Z.of_nat (length (ff_completions f)) then (Err SCDK_ERR_BUSY, f)
      else (Ok reply_done, mk_fifo (ff_capacity f) (ff_submissions f) (ff_completions f ++ [c]))
  | op_poll =>
      match ff_completions f with
      | [] => (Err SCDK_ERR_NOENT, f)
      | c :: q => (Ok (reply_completion c), mk_fifo (ff_capacity f) (ff_submissions f) q)
      end
  end.

Fixpoint fifo_run (f : fifo) (ops : list ring_op) : list (result ring_reply) * fifo :=
  match ops with
  | [] => ([], f)
  | op :: ops => let (r, f) := fifo_step f op in
                 let (rs, f) := fifo_run f ops in (r :: rs, f)
  end.

(** The same calls on the kernel. *)
Definition ring_step (cap : Z) (op : ring_op) : K ring_reply :=
  match op with
  | op_submit d => scdk_ring_submit cap d ;; ret reply_done
  | op_consume => let* d := scdk_ring_consume cap in ret (reply_desc d)
  | op_complete c => scdk_ring_complete cap c ;; ret reply_done
  | op_poll => let* c := scdk_ring_poll cap in ret (reply_completion c)
  end.

Fixpoint ring_run (cap : Z) (ops : list ring_op) (k : kernel) : list (result ring_reply) * kernel :=
  match ops with
  | [] => ([], k)
  | op :: ops => let (r, k) := ring_step cap op k in
                 let (rs, k) := ring_run cap ops k in (r :: rs, k)
  end.

Definition ring_fifo (r : scdk_ring) : fifo :=
  mk_fifo (rg_entries r)
    (window (rg_sq r) (rg_submit_head r) (rg_submit_tail r) (rg_entries r))
    (window (rg_cq r) (rg_complete_head r) (rg_complete_tail r) (rg_entries r)).

Definition ring_steady (r : scdk_ring) (n : Z) : Prop :=
  steady (rg_submit_head r) (rg_submit_tail r) (rg_entries r) n ∧
  steady (rg_complete_head r) (rg_complete_tail r) (rg_entries r) n.

(** [cap] reads and writes ring [r], which is in slot [i]. *)
Record ring_reach (k : kernel) (cap : Z) (i : nat) (r : scdk_ring) : Prop := {
  rr_read : ring_lookup k cap SCDK_RIGHT_READ = Ok i;
  rr_write : ring_lookup k cap SCDK_RIGHT_WRITE = Ok i;
  rr_at : ring_at k i = Ok r
}.

Section simulation.
Implicit Types (k : kernel) (r : scdk_ring).

Lemma set_ring_id k i r : ring_at k i = Ok r → set_ring i r k = k.
Proof.
  unfold ring_at, set_ring. intros H. minv H. subst.
  assert (alter (λ s, mk_ring_slot (rs_object_id s) (rs_ring a)) i (k_rings k) = k_rings k) as ->.
  { apply list_eq. intros j. destruct (decide (i = j)) as [->|].
    - rewrite list_lookup_alter_eq, E. simpl. by destruct a.
    - by rewrite list_lookup_alter_ne. }
  by destruct k.
Qed.

Lemma set_ring_set k i r1 r2 : set_ring i r2 (set_ring i r1 k) = set_ring i r2 k.
Proof.
  unfold set_ring, set_rings. simpl. f_equal. apply list_eq. intros j.
  destruct (decide (i = j)) as [->|].
  - rewrite !list_lookup_alter_eq. by destruct (k_rings k !! j).
  - by rewrite !list_lookup_alter_ne.
Qed.

Lemma ring_at_set k i r r' : ring_at k i = Ok r → ring_at (set_ring i r' k) i = Ok r'.
Proof.
  unfold ring_at, set_ring. intros H. minv H. simpl. by rewrite list_lookup_alter_eq, E.
Qed.

Lemma ring_lookup_set k i r cap rights :
  ring_lookup (set_ring i r k) cap rights = ring_lookup k cap rights.
Proof.
  unfold ring_lookup. rewrite (cap_check_tables _ k) by done.
  destruct (scdk_cap_check k cap rights SCDK_OBJ_RING) as [e| |]; [|done..]. simpl.
  rewrite (object_lookup_objs _ k) by done.
  destruct (scdk_object_lookup _ _) as [o| |]; [|done..]. simpl.
  destruct (obj_payload o) as [| |j| | | | | | | | | ]; try done. simpl.
  destruct (decide (i = j)) as [->|].
  - rewrite list_lookup_alter_eq. by destruct (k_rings k !! j).
  - by rewrite list_lookup_alter_ne.
Qed.

Lemma ring_reach_set k cap i r r' : ring_reach k cap i r → ring_reach (set_ring i r' k) cap i r'.
Proof.
  intros [Hr Hw Ha]. split; [by rewrite ring_lookup_set..|]. by eapply ring_at_set.
Qed.

Lemma set_ring_kwf i r k : kernel_wf k → kernel_wf (set_ring i r k).
Proof. intros H. kwf_update. Qed.

Lemma ring_unchanged k cap i r n (a : result ring_reply) :
  ring_reach k cap i r → ring_ok r → ring_steady r (n + 1) → (a, k) = (a, set_ring i r k) ∧
  ring_ok r ∧ ring_fifo r = ring_fifo r ∧ ring_steady r n.
Proof.
  intros Hr Hok [Hs1 Hs2]. rewrite (set_ring_id k i r) by apply Hr. split_and!; [done..|].
  split; (eapply steady_le; [eassumption|lia]).
Qed.

(** One call on the kernel is one step of the specification. *)
Lemma ring_step_sim k cap i r op n :
  ring_reach k cap i r → ring_ok r → 0 <= n → ring_steady r (n + 1) →
  ∃ r', ring_step cap op k = ((fifo_step (ring_fifo r) op).1, set_ring i r' k) ∧
    ring_ok r' ∧ ring_fifo r' = (fifo_step (ring_fifo r) op).2 ∧ ring_steady r' n.
Proof.
  intros Hr Hok Hn Hst. pose proof Hr as [Hread Hwrite Hat].
  pose proof Hok as [Hsq Hcq]. pose proof Hst as [Hs1 Hs2].
  pose proof (window_length _ _ _ _ Hsq) as Hl1. pose proof (window_length _ _ _ _ Hcq) as Hl2.
  destruct op as [d| |c|];
    unfold ring_step, scdk_ring_submit, scdk_ring_consume, scdk_ring_complete, scdk_ring_poll,
      bind, query, guard, lift, modify, ret, fail; rewrite ?Hread, ?Hwrite, Hat;
    cbn [fifo_step ring_fifo ff_capacity ff_submissions ff_completions]; rewrite ?Hl1, ?Hl2.
  - destruct (rg_entries r <=? _) eqn:Hfull.
    { exists r. by apply (ring_unchanged k cap). }
    bsplit. destruct (window_push _ _ _ _ d Hsq) as (Hw & Hq & He); [done|apply (steady_le _ _ _ _ 0 Hs1); lia|].
    rewrite Hw. eexists. split; [done|]. split; [by split|]. split; [unfold ring_fifo; simpl; by rewrite He|].
    split; simpl; [apply steady_push; [apply Hsq|done..]|eapply steady_le; [done|lia]].
  - destruct (rg_submit_head r =? _) eqn:Hempty; bsplit.
    { assert (window (rg_sq r) (rg_submit_head r) (rg_submit_tail r) (rg_entries r) = []) as ->.
      { apply length_zero_iff_nil. apply queue_count_zero in Hempty; [|apply Hsq..]. lia. }
      exists r. by apply (ring_unchanged k cap). }
    destruct (window_pop _ _ _ _ Hsq Hempty) as (d & Hrd & Hq & He). rewrite Hrd, He.
    eexists. split; [done|]. split; [by split|]. split; [done|].
    split; simpl; (apply (steady_le _ _ _ (n + 1)); [|lia]); [|done].
    apply steady_pop; [apply Hsq..|done|done].
  - destruct (rg_entries r <=? _) eqn:Hfull.
    { exists r. by apply (ring_unchanged k cap). }
    bsplit. destruct (window_push _ _ _ _ c Hcq) as (Hw & Hq & He); [done|apply (steady_le _ _ _ _ 0 Hs2); lia|].
    rewrite Hw. eexists. split; [done|]. split; [by split|]. split; [unfold ring_fifo; simpl; by rewrite He|].
    split; simpl; [eapply steady_le; [done|lia]|apply steady_push; [apply Hcq|done..]].
  - destruct (rg_complete_head r =? _) eqn:Hempty; bsplit.
    { assert (window (rg_cq r) (rg_complete_head r) (rg_complete_tail r) (rg_entries r) = []) as ->.
      { apply length_zero_iff_nil. apply queue_count_zero in Hempty; [|apply Hcq..]. lia. }
      exists r. by apply (ring_unchanged k cap). }
    destruct (window_pop _ _ _ _ Hcq Hempty) as (d & Hrd & Hq & He). rewrite Hrd, He.
    eexists. split; [done|]. split; [by split|]. split; [done|].
    split; simpl; (apply (steady_le _ _ _ (n + 1)); [|lia]); [done|].
    apply steady_pop; [apply Hcq..|done|done].
Qed.

Lemma ring_run_sim cap i ops : ∀ k r,
  ring_reach k cap i r → ring_ok r → ring_steady r (Z.of_nat (length ops)) →
  ∃ r', ring_run cap ops k = ((fifo_run (ring_fifo r) ops).1, set_ring i r' k) ∧
    ring_ok r' ∧ ring_fifo r' = (fifo_run (ring_fifo r) ops).2.
Proof.
  induction ops as [|op ops IH]; intros k r Hr Hok Hs.
  - exists r. cbn. split_and!; [|done..]. by rewrite (set_ring_id k i r) by apply Hr.
  - simpl length in Hs. rewrite Nat2Z.inj_succ in Hs. unfold Z.succ in Hs.
    destruct (ring_step_sim k cap i r op (Z.of_nat (length ops)) Hr Hok) as (r1 & Hrun & Hok1 & Hf & Hs1);
      [lia|done|].
    cbn [ring_run fifo_run]. rewrite Hrun. destruct (fifo_step (ring_fifo r) op) as [a f] eqn:Hstep.
    simpl in Hf, Hrun |- *. subst f.
    destruct (IH (set_ring i r1 k) r1) as (r2 & Hrun2 & Hok2 & Hf2);
      [by eapply ring_reach_set|done|done|].
    rewrite Hrun2. destruct (fifo_run (ring_fifo r1) ops) as [rs f2]. simpl in *.
    exists r2. split_and!; [|done..]. by rewrite set_ring_set.
Qed.
End simulation.

(** ** Creation *)
Section create.
Implicit Types k : kernel.

Lemma init_ring_slot_kwf i entries target oid k :
  kernel_wf k → kernel_wf (init_ring_slot i entries target oid k).
Proof. intros H. kwf_update. Qed.
Lemma clear_ring_slot_kwf i k : kernel_wf k → kernel_wf (clear_ring_slot i k).
Proof. intros H. kwf_update. Qed.

Lemma ring_create_Ok k owner entries target cap k' :
  kernel_wf k → u32 entries → scdk_ring_create owner entries target k = (Ok cap, k') →
  ∃ i oid s, 0 < entries <= SCDK_RING_MAX_ENTRIES ∧ check_bound_target k target = Ok tt ∧
    k_rings k !! i = Some s ∧ rs_object_id s = 0 ∧
    minted SCDK_OBJ_RING owner 0 (P_ring i) 67 (init_ring_slot i entries target) k k' cap oid.
Proof.
  intros Hwf Hu H. unfold scdk_ring_create in H. do 3 minv_step H. repeat minv_leaf. bsplit.
  destruct (find_slot _ _) as [i|] eqn:Hf; [|done].
  apply find_slot_Some in Hf as [(s & Hi & Hz) _]. bsplit.
  apply mint_Ok in H as [oid H]; [|done..|apply Hwf].
  exists i, oid, s. destruct a0. unfold u32 in Hu. split_and!; try done; lia.
Qed.

Lemma ring_create_kwf owner entries target : preserves kernel_wf (scdk_ring_create owner entries target).
Proof.
  unfold scdk_ring_create. apply preserves_bind; [eauto with scdk|intros _].
  apply preserves_bind; [eauto with scdk|intros _]. intros k Hwf. unfold bind at 1, gets.
  destruct (find_slot _ _) as [i|] eqn:Hf; [|done]. apply find_slot_lt in Hf.
  rewrite (ts_rings _ (kwf_sized _ Hwf)) in Hf. revert k Hwf Hf. intros k Hwf Hf.
  refine (mint_kwf SCDK_OBJ_RING owner 0 (P_ring i) 67 (init_ring_slot i entries target)
    (clear_ring_slot i) _ _ _ k Hwf).
  - split; [done|]. unfold SCDK_MAX_RINGS in *. lia.
  - intros. by apply init_ring_slot_kwf.
  - intros. by apply clear_ring_slot_kwf.
Qed.

(** The ring a new capability reaches. *)
Lemma ring_created_reach k k' owner i s entries target cap oid :
  k_rings k !! i = Some s →
  minted SCDK_OBJ_RING owner 0 (P_ring i) 67 (init_ring_slot i entries target) k k' cap oid →
  ring_reach k' cap i (mk_ring entries 0 0 0 0 (rg_sq (rs_ring s)) (rg_cq (rs_ring s)) target).
Proof.
  intros Hi Hm.
  assert (k_rings k' !! i = Some (mk_ring_slot oid (mk_ring entries 0 0 0 0 (rg_sq (rs_ring s))
    (rg_cq (rs_ring s)) target))) as Hi'.
  { rewrite (mt_state _ _ _ _ _ _ _ _ _ _ Hm). simpl. by rewrite list_lookup_alter_eq, Hi. }
  assert (∀ r, r ≠ 0 → Z.land 67 r = r → ring_lookup k' cap r = Ok i) as Hl.
  { intros r Hr Hs. destruct (minted_check _ _ _ _ _ _ _ _ _ _ r Hm Hr Hs) as (g & Hc & Ho).
    unfold ring_lookup. rewrite Hc. simpl. rewrite Ho. simpl. rewrite Hi'. simpl.
    by rewrite Z.eqb_refl. }
  split; [by apply Hl..|]. unfold ring_at. by rewrite Hi'.
Qed.
End create.

(** ** Safety of the operations *)
Section safety.
Implicit Types k : kernel.

Definition ring_inv k : Prop := kernel_wf k ∧ rings_wf k.

Lemma queue_push_ok {A} (q : list A) head tail entries x :
  queue_ok q head tail entries → queue_count head tail < entries →
  ∃ q', queue_write q tail entries x = Ok q' ∧ queue_ok q' head (wrap32 (tail + 1)) entries.
Proof.
  intros Hok Hc. pose proof (queue_slot_lt _ _ _ _ tail Hok) as Hlt. pose proof Hok as [He Hl Hh Ht Hn].
  eexists. unfold queue_write. rewrite (proj2 (Z.eqb_neq _ _)) by lia.
  rewrite bool_decide_true by done. split; [done|].
  split; [done|by rewrite length_insert|done|apply wrap32_range|].
  rewrite (queue_count_succ _ _ entries) by lia. lia.
Qed.

Lemma ring_lookup_defined k cap rights : kernel_wf k → defined (ring_lookup k cap rights).
Proof.
  intros Hwf. unfold ring_lookup.
  apply rbind_defined; [apply cap_check_defined, Hwf|]. intros e He.
  apply rbind_defined; [apply object_lookup_defined, Hwf|]. intros o Ho.
  assert (payload_typed SCDK_OBJ_RING (obj_payload o)) as Hp
    by (by eapply checked_payload; [..|exact He|exact Ho]).
  payload_cases (obj_payload o) Hp; [done|]. destruct Hp as [_ Hi].
  destruct (lookup_lt_is_Some_2 (k_rings k) i) as [s Hs].
  { rewrite (ts_rings _ (kwf_sized _ Hwf)). unfold SCDK_MAX_RINGS in *. lia. }
  rewrite Hs. simpl. by destruct (negb _).
Qed.

(** A reached slot is a live ring in good order. *)
Lemma ring_lookup_ok k cap rights i :
  rings_wf k → ring_lookup k cap rights = Ok i →
  ∃ s, k_rings k !! i = Some s ∧ rs_object_id s ≠ 0 ∧ ring_ok (rs_ring s).
Proof.
  intros Hr H. unfold ring_lookup in H. do 2 minv_step H.
  destruct (obj_payload a0); try done. minv H. rename a1 into s.
  destruct (negb _) eqn:Hid; [done|]. injection H as <-. bsplit.
  exists s. apply object_lookup_nonzero in E0. rewrite <-Hid in E0.
  split_and!; [done..|]. by eapply Forall_lookup_1 in Hr as [_ _ ?]; [|done]; auto.
Qed.

Lemma set_ring_inv k i r s :
  ring_inv k → k_rings k !! i = Some s → ring_ok r → ring_inv (set_ring i r k).
Proof.
  intros [Hwf Hr] Hi Hok. split; [by apply set_ring_kwf|].
  unfold rings_wf, set_ring. simpl. apply Forall_alter; [done|].
  intros s' Hs' _. split; [apply Hok..|]. by intros _.
Qed.

(** Every data-plane call, on any token at all, is defined and keeps the
    invariant. *)
Lemma ring_step_safe cap op k :
  ring_inv k → defined (ring_step cap op k).1 ∧ ring_inv (ring_step cap op k).2.
Proof.
  intros Hinv. pose proof Hinv as [Hwf Hrw].
  assert (∀ rights, ring_lookup k cap rights ≠ Ub) as Hd by (intros; by apply ring_lookup_defined).
  destruct op as [d| |c|];
    unfold ring_step, scdk_ring_submit, scdk_ring_consume, scdk_ring_complete, scdk_ring_poll,
      bind, query, guard, lift, modify, ret, fail;
    match goal with |- context [ring_lookup k cap ?rt] =>
      specialize (Hd rt); destruct (ring_lookup k cap rt) as [i|e|] eqn:Hl; [|done|done] end;
    destruct (ring_lookup_ok _ _ _ _ Hrw Hl) as (s & Hs & Hid & Hok);
    unfold ring_at; rewrite Hs; simpl; destruct (rs_ring s) as [en sh st ch ct sq cq bt];
    destruct Hok as [Hsq Hcq]; simpl in *.
  - destruct (en <=? _) eqn:Hf; [done|]. bsplit.
    destruct (queue_push_ok sq sh st en d Hsq Hf) as (q' & -> & Hq'). split; [done|].
    eapply set_ring_inv; [done..|]. by split.
  - destruct (sh =? st) eqn:Hf; [done|]. bsplit.
    destruct (window_pop sq sh st en Hsq Hf) as (x & -> & Hq' & _). split; [done|].
    eapply set_ring_inv; [done..|]. by split.
  - destruct (en <=? _) eqn:Hf; [done|]. bsplit.
    destruct (queue_push_ok cq ch ct en c Hcq Hf) as (q' & -> & Hq'). split; [done|].
    eapply set_ring_inv; [done..|]. by split.
  - destruct (ch =? ct) eqn:Hf; [done|]. bsplit.
    destruct (window_pop cq ch ct en Hcq Hf) as (x & -> & Hq' & _). split; [done|].
    eapply set_ring_inv; [done..|]. by split.
Qed.

#[global] Instance rings_wf_off : OffCore rings_wf.
Proof. by split. Qed.

Lemma init_ring_slot_rings i entries target oid k :
  0 < entries <= SCDK_RING_MAX_ENTRIES → rings_wf k → rings_wf (init_ring_slot i entries target oid k).
Proof.
  intros He Hr. apply Forall_alter; [done|]. intros s Hs [H1 H2 _]. split; [done..|]. intros _.
  split; (split; [done|done|done|done|]);
    unfold queue_count; simpl; rewrite Z.sub_0_r; change (wrap32 0) with 0; lia.
Qed.

Lemma clear_ring_slot_rings i k : rings_wf k → rings_wf (clear_ring_slot i k).
Proof. intros Hr. apply Forall_alter; [done|]. intros s Hs [? ? _]. by split. Qed.

Lemma ring_create_rings owner entries target :
  u32 entries → preserves rings_wf (scdk_ring_create owner entries target).
Proof.
  intros Hu. unfold scdk_ring_create. intros k Hr. unfold bind at 1, guard.
  destruct ((entries =? 0) || _) eqn:Hg; [done|]. bsplit. unfold ret.
  revert k Hr. change (preserves rings_wf (
    let* _ := query (λ k, check_bound_target k target) in
    let* slot := gets (λ k, find_slot (λ s, rs_object_id s =? 0) (k_rings k)) in
    match slot with
    | None => fail SCDK_ERR_NOMEM
    | Some i => mint SCDK_OBJ_RING owner 0 (P_ring i) 67 (init_ring_slot i entries target)
                  (clear_ring_slot i)
    end)).
  unfold mint. preserves_tac; eauto using clear_ring_slot_rings with scdk.
  apply init_ring_slot_rings; [unfold u32 in Hu; lia|done].
Qed.

Lemma ring_bind_target_safe ring target : preserves ring_inv (scdk_ring_bind_target ring target).
Proof.
  intros k Hinv. destruct (scdk_ring_bind_target ring target k) as [r k'] eqn:H.
  unfold scdk_ring_bind_target, bind, guard, query, modify, ret, fail in H.
  destruct (target =? 0); [by simplify_eq|].
  destruct (scdk_cap_check _ _ _ _); [|by simplify_eq..].
  destruct (ring_lookup _ _ _) as [i| |] eqn:Hl; [|by simplify_eq..].
  destruct (ring_lookup_ok _ _ _ _ (proj2 Hinv) Hl) as (s & Hs & _ & Hok).
  unfold ring_at in H. rewrite Hs in H. simpl in H. simplify_eq. by eapply set_ring_inv.
Qed.
End safety.

Section targets.
Implicit Types k : kernel.

Definition retarget (target : Z) (r : scdk_ring) : scdk_ring :=
  mk_ring (rg_entries r) (rg_submit_head r) (rg_submit_tail r)
    (rg_complete_head r) (rg_complete_tail r) (rg_sq r) (rg_cq r) target.

Lemma ring_lookup_Ok k cap rights i :
  ring_lookup k cap rights = Ok i →
  ∃ e o, rights ≠ 0 ∧ scdk_cap_lookup k cap = Ok e ∧
    scdk_object_lookup k (ce_object_id e) = Ok o ∧ obj_payload o = P_ring i.
Proof.
  intros H. unfold ring_lookup in H. minv H. apply cap_check_Ok in E as (?&?&_).
  exists a, a0. destruct (obj_payload a0); try done. minv H. destruct (negb _); [done|].
  by injection H as ->.
Qed.

Lemma ring_lookup_agree k1 k2 cap r1 r2 i1 i2 :
  k_objs k1 = k_objs k2 →
  (∀ e1 e2, scdk_cap_lookup k1 cap = Ok e1 → scdk_cap_lookup k2 cap = Ok e2 → e1 = e2) →
  ring_lookup k1 cap r1 = Ok i1 → ring_lookup k2 cap r2 = Ok i2 → i1 = i2.
Proof.
  intros Ho Hc (e1&o1&_&Hc1&Ho1&Hp1)%ring_lookup_Ok (e2&o2&_&Hc2&Ho2&Hp2)%ring_lookup_Ok.
  rewrite (Hc _ _ Hc1 Hc2), (object_lookup_objs _ k2), Ho2 in Ho1 by done. congruence.
Qed.

Lemma ring_bind_target_Ok k k' ring target j :
  scdk_ring_bind_target ring target k = (Ok tt, k') → ring_lookup k ring SCDK_RIGHT_READ = Ok j →
  ∃ r, target ≠ 0 ∧ is_Ok (scdk_cap_check k target SCDK_RIGHT_SEND SCDK_OBJ_ENDPOINT) ∧
    ring_at k j = Ok r ∧ k' = set_ring j (retarget target r) k.
Proof.
  intros H Hj. unfold scdk_ring_bind_target in H. minv H. bsplit.
  assert (a1 = j) as ->.
  { eapply (ring_lookup_agree k k); [done| |exact E1|exact Hj]. congruence. }
  exists a2. split_and!; [done|by eexists|done|done].
Qed.

Lemma bound_target_usable k ring t :
  scdk_ring_bound_target k ring = Ok t →
  t = 0 ∨ is_Ok (scdk_cap_check k t SCDK_RIGHT_SEND SCDK_OBJ_ENDPOINT).
Proof.
  intros H. unfold scdk_ring_bound_target in H. minv H. unfold check_bound_target in *.
  destruct (Z.eqb_spec (rg_bound_target a0) 0); [by left|right]. minv E1. by eexists.
Qed.

Lemma check_target_defined k t : kernel_wf k → defined (check_bound_target k t).
Proof.
  intros Hwf. unfold check_bound_target. destruct (t =? 0); [done|].
  apply rbind_defined; [apply cap_check_defined, Hwf|done].
Qed.
Lemma ring_create_defined owner entries target k :
  kernel_wf k → defined (scdk_ring_create owner entries target k).1.
Proof.
  intros Hwf. unfold scdk_ring_create. apply bind_defined; [by destruct (_ || _)|]. intros [] k1 [_ ->]%guard_inv.
  apply bind_defined; [by apply check_target_defined|]. intros [] k2 [_ ->]%query_inv. rewrite bind_gets.
  destruct (find_slot _ _) as [i|]; [|done].
  apply bind_defined; [apply object_create_defined, Hwf|]. intros oid k3 Ho.
  apply object_create_Ok in Ho; [|apply Hwf].
  destruct (object_created_caps _ _ _ _ _ _ _ (kwf_caps _ Hwf) Ho) as (_ & Hwf1 & _).
  rewrite bind_modify. unfold on_error. set (k4 := init_ring_slot i entries target oid k3).
  pose proof (cap_create_defined k4 oid (Z.lor (Z.lor SCDK_RIGHT_READ SCDK_RIGHT_WRITE) SCDK_RIGHT_BIND)) as Hd.
  specialize (Hd ltac:(by apply (caps_wf_tables k3))). by destruct (scdk_cap_create _ _ k4) as [[] ?].
Qed.
Lemma bind_target_defined ring target k : ring_inv k → defined (scdk_ring_bind_target ring target k).1.
Proof.
  intros [Hwf Hr]. unfold scdk_ring_bind_target. apply bind_defined; [by destruct (_ =? 0)|]. intros [] k1 [_ ->]%guard_inv.
  apply bind_defined; [apply cap_check_defined, Hwf|]. intros e k2 [_ ->]%query_inv.
  apply bind_defined; [by apply ring_lookup_defined|]. intros i k3 [Hl ->]%query_inv.
  destruct (ring_lookup_ok _ _ _ _ Hr Hl) as (s & Hs & _).
  apply bind_defined; [unfold query, ring_at; simpl; by rewrite Hs|]. done.
Qed.
Lemma bound_target_defined k ring : ring_inv k → defined (scdk_ring_bound_target k ring).
Proof.
  intros [Hwf Hr]. unfold scdk_ring_bound_target. apply rbind_defined; [by apply ring_lookup_defined|].
  intros i Hi. destruct (ring_lookup_ok _ _ _ _ Hr Hi) as (s & Hs & _).
  unfold ring_at. rewrite Hs. simpl. apply rbind_defined; [|done].
  unfold check_bound_target. destruct (_ =? 0); [done|].
  apply rbind_defined; [apply cap_check_defined, Hwf|done].
Qed.
End targets.

(** ** Long runs *)
Section long_runs.
Implicit Types (k : kernel) (r : scdk_ring).

(** [n] submissions, each consumed at once. *)
Definition churn (d : scdk_ring_desc) (n : nat) : list ring_op :=
  mjoin (replicate n [op_submit d; op_consume]).

Definition with_submit (r : scdk_ring) (head tail : Z) (sq : list scdk_ring_desc) : scdk_ring :=
  mk_ring (rg_entries r) head tail (rg_complete_head r) (rg_complete_tail r) sq (rg_cq r)
    (rg_bound_target r).

Lemma ring_run_app cap l1 l2 k :
  ring_run cap (l1 ++ l2) k =
  (let (a1, k1) := ring_run cap l1 k in let (a2, k2) := ring_run cap l2 k1 in (a1 ++ a2, k2)).
Proof.
  revert k. induction l1 as [|op l1 IH]; intros k; simpl.
  - by destruct (ring_run cap l2 k).
  - destruct (ring_step cap op k) as [a k1]. rewrite IH. destruct (ring_run cap l1 k1) as [a1 k2].
    by destruct (ring_run cap l2 k2).
Qed.

Lemma fifo_run_app l1 l2 f :
  fifo_run f (l1 ++ l2) =
  (let (a1, f1) := fifo_run f l1 in let (a2, f2) := fifo_run f1 l2 in (a1 ++ a2, f2)).
Proof.
  revert f. induction l1 as [|op l1 IH]; intros f; simpl.
  - by destruct (fifo_run f l2).
  - destruct (fifo_step f op) as [a f1]. rewrite IH. destruct (fifo_run f1 l1) as [a1 f2].
    by destruct (fifo_run f2 l2).
Qed.

Lemma ring_submit_step k cap i r d :
  ring_reach k cap i r → 0 < rg_entries r <= 64 → length (rg_sq r) = 64%nat →
  queue_count (rg_submit_head r) (rg_submit_tail r) < rg_entries r →
  ring_step cap (op_submit d) k =
  (Ok reply_done, set_ring i (with_submit r (rg_submit_head r) (wrap32 (rg_submit_tail r + 1))
     (<[Z.to_nat (rg_submit_tail r mod rg_entries r):=d]> (rg_sq r))) k).
Proof.
  intros [_ Hw Ha] He Hl Hc. unfold ring_step, scdk_ring_submit, bind, query, guard, lift, modify, ret.
  rewrite Hw, Ha. rewrite (proj2 (Z.leb_gt _ _)) by done. unfold queue_write.
  rewrite (proj2 (Z.eqb_neq _ _)) by lia. rewrite bool_decide_true; [done|].
  pose proof (Z.mod_pos_bound (rg_submit_tail r) (rg_entries r)). lia.
Qed.

Lemma ring_consume_step k cap i r d :
  ring_reach k cap i r → rg_entries r ≠ 0 → rg_submit_head r ≠ rg_submit_tail r →
  rg_sq r !! Z.to_nat (rg_submit_head r mod rg_entries r) = Some d →
  ring_step cap op_consume k =
  (Ok (reply_desc d), set_ring i (with_submit r (wrap32 (rg_submit_head r + 1)) (rg_submit_tail r)
     (rg_sq r)) k).
Proof.
  intros [Hr _ Ha] He Hne Hd. unfold ring_step, scdk_ring_consume, bind, query, guard, lift, modify, ret.
  rewrite Hr, Ha. rewrite (proj2 (Z.eqb_neq _ _)) by done. unfold queue_read.
  rewrite (proj2 (Z.eqb_neq _ _)) by done. by rewrite Hd.
Qed.

Lemma ring_churn cap i d n : ∀ k r,
  ring_reach k cap i r → 0 < rg_entries r <= 64 → length (rg_sq r) = 64%nat →
  rg_submit_head r = rg_submit_tail r → 0 <= rg_submit_tail r →
  rg_submit_tail r + Z.of_nat n < two32 →
  ∃ sq, length sq = 64%nat ∧
    (ring_run cap (churn d n) k).2 =
    set_ring i (with_submit r (rg_submit_tail r + Z.of_nat n) (rg_submit_tail r + Z.of_nat n) sq) k.
Proof.
  induction n as [|n IH]; intros k r Hr He Hl Hht Ht Hn.
  - exists (rg_sq r). split; [done|]. change (Z.of_nat 0) with 0. rewrite Z.add_0_r.
    change (churn d 0) with (@nil ring_op). cbn. rewrite set_ring_id; [done|].
    rewrite <-Hht at 1. destruct r. apply Hr.
  - change (churn d (S n)) with ([op_submit d; op_consume] ++ churn d n). rewrite ring_run_app.
    assert (∀ pos, (Z.to_nat (pos mod rg_entries r) < length (rg_sq r))%nat) as Hlt.
    { intros pos. rewrite Hl. pose proof (Z.mod_pos_bound pos (rg_entries r)). lia. }
    rewrite Nat2Z.inj_succ in Hn.
    assert (wrap32 (rg_submit_tail r + 1) = rg_submit_tail r + 1) as Hw1
      by (apply wrap32_small; unfold u32; lia).
    cbn [ring_run]. rewrite (ring_submit_step k cap i r d Hr); [|done|done|].
    2: { unfold queue_count. rewrite Hht, Z.sub_diag. change (wrap32 0) with 0. lia. }
    set (q1 := <[_:=d]> _). set (r1 := with_submit r _ _ _).
    pose proof (ring_reach_set _ _ _ _ r1 Hr) as Hr1.
    rewrite (ring_consume_step _ cap i r1 d Hr1); [|simpl; lia|simpl; lia|].
    2: { simpl. rewrite Hht. by apply list_lookup_insert_eq. }
    rewrite set_ring_set. simpl.
    set (r2 := with_submit r1 _ _ _). pose proof (ring_reach_set _ _ _ _ r2 Hr) as Hr2.
    destruct (IH (set_ring i r2 k) r2 Hr2) as (sq & Hsq & Hrun).
    + done.
    + unfold r2, r1, with_submit, q1. cbn [rg_sq]. by rewrite length_insert.
    + unfold r2, r1, with_submit. cbn [rg_submit_head rg_submit_tail]. by rewrite Hht.
    + unfold r2, r1, with_submit. cbn [rg_submit_tail]. lia.
    + unfold r2, r1, with_submit. cbn [rg_submit_tail]. lia.
    + exists sq. split; [done|]. destruct (ring_run cap (churn d n) _) as [l k2]. simpl in *.
      rewrite Hrun, set_ring_set. f_equal. unfold r2, r1, with_submit. simpl. f_equal; lia.
Qed.

Lemma fifo_churn cap d n : 0 < cap → (fifo_run (mk_fifo cap [] []) (churn d n)).2 = mk_fifo cap [] [].
Proof.
  intros Hc. induction n as [|n IH]; [done|].
  change (churn d (S n)) with ([op_submit d; op_consume] ++ churn d n). rewrite fifo_run_app.
  cbn [fifo_run fifo_step ff_capacity ff_submissions ff_completions length].
  rewrite (proj2 (Z.leb_gt _ _)) by (simpl; lia). cbn.
  by destruct (fifo_run (mk_fifo cap [] []) (churn d n)).
Qed.
End long_runs.

(** ** Properties *)

(** C4. A ring is a pair of bounded queues.  After a successful
    [scdk_ring_create], any sequence of fewer than 2^32 submit, consume,
    complete and poll calls through the new capability answers exactly as two
    FIFO queues of the requested capacity do, BUSY when full and NOENT when
    empty included; when the capacity divides 2^32 the bound on the length is
    not needed. *)
Theorem ring_refines_fifo (k k' : kernel) (owner entries target cap : Z) (ops : list ring_op)
  (Hwf : kernel_wf k) (Hr : rings_wf k) (Hu : u32 entries)
  (Hrun : scdk_ring_create owner entries target k = (Ok cap, k'))
  (Hlen : Z.of_nat (length ops) < two32 ∨ (entries | two32)) :
  (ring_run cap ops k').1 = (fifo_run (mk_fifo entries [] []) ops).1.
Proof.
  destruct (ring_create_Ok _ _ _ _ _ _ Hwf Hu Hrun) as (i & oid & s & He & _ & Hi & _ & Hm).
  pose proof (ring_created_reach _ _ _ _ _ _ _ _ _ Hi Hm) as Hreach.
  destruct (Forall_lookup_1 _ _ _ _ Hr Hi) as [Hsq Hcq _].
  set (r := mk_ring _ _ _ _ _ _ _ _) in Hreach.
  assert (ring_fifo r = mk_fifo entries [] []) as Hf by done.
  assert (ring_ok r) as Hok.
  { split; (split; [done|done|done|done|]); simpl; change (queue_count 0 0) with 0; lia. }
  destruct (ring_run_sim cap i ops k' r Hreach Hok) as (r' & Hrun' & _).
  { split; (destruct Hlen; [right; simpl; unfold two32 in *; lia|by left]). }
  by rewrite Hrun', Hf.
Qed.

(** C30. Ring calls are memory safe on every input: on any token and with any
    arguments no call (create, bind, the bound target, submit, consume, complete,
    poll) reads or writes outside a table or the queue storage, divides by a zero
    capacity or follows a wrong pointer, and the invariants of the kernel and of
    the ring table survive, so the next call is safe again. *)
Theorem ring_calls_safe (k : kernel) (cap : Z) (op : ring_op) (owner entries target : Z)
  (Hwf : kernel_wf k) (Hr : rings_wf k) (Hu : u32 entries) :
  (defined (ring_step cap op k).1 ∧ kernel_wf (ring_step cap op k).2 ∧ rings_wf (ring_step cap op k).2) ∧
  (let run := scdk_ring_create owner entries target k in defined run.1 ∧ kernel_wf run.2 ∧ rings_wf run.2) ∧
  (let run := scdk_ring_bind_target cap target k in defined run.1 ∧ kernel_wf run.2 ∧ rings_wf run.2) ∧
  defined (scdk_ring_bound_target k cap).
Proof.
  split; [by apply ring_step_safe|]. split; [|split].
  - split_and!; [by apply ring_create_defined|by apply ring_create_kwf|by apply ring_create_rings].
  - split; [by apply bind_target_defined|by apply ring_bind_target_safe].
  - by apply bound_target_defined.
Qed.

(** A ring names a target only while the target is usable: what
    [scdk_ring_bound_target] returns is 0 or a capability that carries SEND on
    a live endpoint now; binding a non-null target makes it the one returned;
    and once the target is revoked the ring reports an error, not the target. *)
Theorem ring_bound_target_live (k k' k'' : kernel) (ring target : Z)
  (Hwf : kernel_wf k) (Hr : rings_wf k) (Hur : u64 ring) (Hu : u64 target)
  (Hread : is_Ok (ring_lookup k ring SCDK_RIGHT_READ))
  (Hbind : scdk_ring_bind_target ring target k = (Ok tt, k'))
  (Hrev : scdk_cap_revoke target k' = (Ok tt, k'')) :
  (∀ t, scdk_ring_bound_target k ring = Ok t →
     t = 0 ∨ is_Ok (scdk_cap_check k t SCDK_RIGHT_SEND SCDK_OBJ_ENDPOINT)) ∧
  scdk_ring_bound_target k' ring = Ok target ∧
  ∃ e, scdk_ring_bound_target k'' ring = Err e.
Proof.
  split; [apply bound_target_usable|].
  pose proof (ring_bind_target_safe ring target k (conj Hwf Hr)) as Hinv'. rewrite Hbind in Hinv'.
  simpl in Hinv'. destruct Hread as [j Hj].
  destruct (ring_bind_target_Ok _ _ _ _ _ Hbind Hj) as (r & Hne & Hck & Hat & ->).
  pose proof (cap_revoke_Ok _ _ _ (kwf_caps _ (proj1 Hinv')) Hu Hrev) as Hcr.
  split.
  - unfold scdk_ring_bound_target. rewrite ring_lookup_set, Hj. simpl.
    rewrite (ring_at_set k j r) by done. simpl. unfold check_bound_target. simpl.
    rewrite (proj2 (Z.eqb_neq _ _)) by done. rewrite (cap_check_tables _ k) by done.
    destruct Hck as [e ->]. done.
  - assert (ring_inv k'') as Hinv''.
    { split.
      - pose proof (cap_revoke_kwf target Hu _ (proj1 Hinv')) as H. by rewrite Hrev in H.
      - pose proof (cap_revoke_off rings_wf target _ (proj2 Hinv')) as H. by rewrite Hrev in H. }
    destruct (scdk_ring_bound_target k'' ring) as [t|e|] eqn:Hb; [exfalso|by exists e|].
    + pose proof (bound_target_usable _ _ _ Hb) as Ht.
      unfold scdk_ring_bound_target in Hb. minv Hb.
      assert (a = j) as ->.
      { eapply (ring_lookup_agree k'' (set_ring j (retarget target r) k)); [..|exact E|].
        - by rewrite (cr_frame _ _ _ Hcr).
        - intros e1 e2 H1%(cr_only _ _ _ Hcr) H2; [|done]. destruct H1. congruence.
        - by rewrite ring_lookup_set. }
      unfold ring_at in E0. rewrite (cr_frame _ _ _ Hcr) in E0.
      change (ring_at (set_ring j (retarget target r) k) j = Ok a0) in E0.
      rewrite (ring_at_set k j r) in E0 by done. injection E0 as <-. simpl in Ht.
      destruct Ht as [|[e Ht]]; [done|]. apply cap_check_Ok in Ht as (_&Ht&_).
      rewrite (cr_dead _ _ _ Hcr) in Ht. done.
    + by apply bound_target_defined in Hb.
Qed.

(** C31. The bound of [ring_refines_fifo] is needed: on a ring of 3 entries
    (3 does not divide 2^32), after 2^32 - 1 descriptors have passed, three
    accepted submissions [a], [b], [c] are read back starting with [b]: the
    wrapped tail maps to the slot that holds [a], which is lost, where a FIFO
    queue gives [a]. *)
Theorem ring_wrap_loses_descriptor (k k' : kernel) (owner target cap : Z) (a b c : scdk_ring_desc)
  (Hwf : kernel_wf k) (Hr : rings_wf k)
  (Hrun : scdk_ring_create owner 3 target k = (Ok cap, k')) :
  ∃ ops, last (fifo_run (mk_fifo 3 [] []) ops).1 = Some (Ok (reply_desc a)) ∧
         last (ring_run cap ops k').1 = Some (Ok (reply_desc b)).
Proof.
  exists (churn a (Z.to_nat 4294967295) ++ [op_submit a; op_submit b; op_submit c; op_consume]).
  assert (u32 3) as Hu by done.
  destruct (ring_create_Ok _ _ _ _ _ _ Hwf Hu Hrun) as (i & oid & s & He & _ & Hi & _ & Hm).
  pose proof (ring_created_reach _ _ _ _ _ _ _ _ _ Hi Hm) as Hreach.
  destruct (Forall_lookup_1 _ _ _ _ Hr Hi) as [Hsq Hcq _].
  set (r := mk_ring _ _ _ _ _ _ _ _) in Hreach.
  destruct (ring_churn cap i a (Z.to_nat 4294967295) k' r Hreach) as (sq & Hlen & Hchurn);
    [done|done|done|done|rewrite Z2Nat.id by done; done|].
  split.
  - rewrite fifo_run_app.
    pose proof (fifo_churn 3 a (Z.to_nat 4294967295)) as Hf.
    destruct (fifo_run _ (churn a _)) as [l f]. simpl in Hf. rewrite Hf by done.
    change (fifo_run (mk_fifo 3 [] []) [op_submit a; op_submit b; op_submit c; op_consume])
      with ([Ok reply_done; Ok reply_done; Ok reply_done; Ok (reply_desc a)], mk_fifo 3 [b; c] []).
    cbn [fst]. by rewrite last_app.
  - rewrite ring_run_app. destruct (ring_run cap (churn a _) k') as [l k1]. simpl in Hchurn. subst k1.
    rewrite Z2Nat.id by done. set (r1 := with_submit r _ _ sq).
    assert (ring_reach (set_ring i r1 k') cap i r1) as Hr1 by (by eapply ring_reach_set).
    destruct sq as [|x0 [|x1 sq]]; [done..|].
    cbn [ring_run]. rewrite (ring_submit_step _ cap i r1 a Hr1); [|done|done|done].
    set (r2 := with_submit r1 _ _ _). rewrite set_ring_set.
    assert (length (rg_sq r2) = 64%nat) as Hl2 by (etrans; [apply length_insert|exact Hlen]).
    assert (ring_reach (set_ring i r2 k') cap i r2) as Hr2 by (by eapply ring_reach_set).
    rewrite (ring_submit_step _ cap i r2 b Hr2); [|done|exact Hl2|done].
    set (r3 := with_submit r2 _ _ _). rewrite set_ring_set.
    assert (length (rg_sq r3) = 64%nat) as Hl3 by (etrans; [apply length_insert|exact Hl2]).
    assert (ring_reach (set_ring i r3 k') cap i r3) as Hr3 by (by eapply ring_reach_set).
    rewrite (ring_submit_step _ cap i r3 c Hr3); [|done|exact Hl3|done].
    set (r4 := with_submit r3 _ _ _). rewrite set_ring_set.
    assert (ring_reach (set_ring i r4 k') cap i r4) as Hr4 by (by eapply ring_reach_set).
    rewrite (ring_consume_step _ cap i r4 b Hr4); [|done|done|done].
    cbn [fst]. by rewrite last_app.
Qed.

(** ** Witnesses *)

(** A ring of two entries bound to the first endpoint. *)
Definition demo_ring : kernel := (scdk_ring_create 0 2 4294967296 demo_endpoint).2.
Definition demo_desc : scdk_ring_desc := mk_ring_desc SCDK_RING_OP_CONSOLE_WRITE 0 0 0 5 0.
Definition demo_bound : kernel := (scdk_ring_bind_target 4294967297 4294967296 demo_ring).2.

Lemma demo_endpoint_rings : rings_wf demo_endpoint.
Proof.
  assert (preserves rings_wf (scdk_endpoint_create 0 (Some console_endpoint_handler) 7)) as H.
  { unfold scdk_endpoint_create. preserves_tac; done. }
  apply H, boot_rings_wf.
Qed.

Lemma demo_ring_inv : ring_inv demo_ring.
Proof.
  split; [apply ring_create_kwf, demo_endpoint_wf|].
  apply ring_create_rings; [done|apply demo_endpoint_rings].
Qed.

Lemma ring_refines_fifo_witness :
  (ring_run 4294967297 [op_submit demo_desc; op_consume; op_consume] demo_ring).1 =
  [Ok reply_done; Ok (reply_desc demo_desc); Err SCDK_ERR_NOENT].
Proof.
  rewrite (ring_refines_fifo demo_endpoint demo_ring 0 2 4294967296).
  - reflexivity.
  - exact demo_endpoint_wf.
  - exact demo_endpoint_rings.
  - done.
  - apply run_to; [reflexivity|]. vm_compute. reflexivity.
  - left. done.
Defined.

Lemma ring_calls_safe_witness : kernel_wf (ring_step 4294967297 op_poll demo_ring).2.
Proof.
  destruct demo_ring_inv as [Hwf Hr]. assert (u32 2) as Hu by done.
  destruct (ring_calls_safe demo_ring 4294967297 op_poll 0 2 0 Hwf Hr Hu) as [(_ & H & _) _].
  exact H.
Defined.

Lemma ring_bound_target_live_witness :
  scdk_ring_bound_target demo_bound 4294967297 = Ok 4294967296.
Proof.
  apply (ring_bound_target_live demo_ring demo_bound (scdk_cap_revoke 4294967296 demo_bound).2).
  - apply demo_ring_inv.
  - apply demo_ring_inv.
  - unfold u64, two64. lia.
  - unfold u64, two64. lia.
  - exists 0%nat. vm_compute. reflexivity.
  - apply run_to; [reflexivity|]. vm_compute. reflexivity.
  - apply run_to; [reflexivity|]. vm_compute. reflexivity.
Defined.

Lemma ring_wrap_loses_descriptor_witness :
  ∃ ops, last (fifo_run (mk_fifo 3 [] []) ops).1 = Some (Ok (reply_desc demo_desc)) ∧
         last (ring_run 4294967297 ops (scdk_ring_create 0 3 0 demo_endpoint).2).1
         = Some (Ok (reply_desc null_ring_desc)).
Proof.
  apply (ring_wrap_loses_descriptor demo_endpoint _ 0 0 4294967297 _ _ null_ring_desc).
  - exact demo_endpoint_wf.
  - exact demo_endpoint_rings.
  - apply run_to; [reflexivity|]. vm_compute. reflexivity.
Defined.
