(* ===== verification/Grant.v ===== *)
(** * Kernel memory grants ([src/core/grant.c])

    A grant object gives the holders of its capabilities access to a range of
    kernel memory.  Kernel grants and user grants are objects of the same
    type; the lookups of the two tables do not tell them apart, so a kernel
    grant lookup on a user grant reads the slot at the wrong struct type. *)
From stdpp Require Import base gmap list numbers relations.
From Stdlib Require Import ZArith Lia.
From S2P Require Import Prelude.
From S2P Require Import Kernel.
From S2P Require Import Object.
From S2P Require Import Capability.
From S2P Require Import Invariant.
From S2P Require Import Endpoint.
#[local] Open Scope Z_scope.

(** [SCDK_RIGHT_READ | SCDK_RIGHT_WRITE | SCDK_RIGHT_MAP] *)
Definition SCDK_GRANT_RIGHTS_MASK : Z := 11.

(** ** Operations *)
Definition grant_lookup (k : kernel) (cap required_rights : Z) : result scdk_grant :=
  let? entry := scdk_cap_check k cap required_rights SCDK_OBJ_GRANT in
  let? object := scdk_object_lookup k (ce_object_id entry) in
  match obj_payload object with
  | P_null => Err SCDK_ERR_NOENT
  | P_grant i =>
      let? slot := deref (k_grants k !! i) in
      if negb (gs_object_id slot =? ce_object_id entry) then Err SCDK_ERR_NOENT
      else Ok (gs_grant slot)
  | _ => Ub
  end.

Definition grant_check_range (grant : scdk_grant) (required_rights offset length : Z) : result unit :=
  let? _ := rguard ((required_rights =? 0)
                    || negb (Z.land required_rights (not64 SCDK_GRANT_RIGHTS_MASK) =? 0)
                    || (length =? 0)) SCDK_ERR_INVAL in
  let? _ := rguard (negb (Z.land (gr_rights grant) required_rights =? required_rights))
              SCDK_ERR_PERM in
  let? _ := rguard (offset <? gr_offset grant) SCDK_ERR_BOUNDS in
  let relative_offset := wrap64 (offset - gr_offset grant) in
  rguard ((gr_length grant <? relative_offset)
          || (wrap64 (gr_length grant - relative_offset) <? length)) SCDK_ERR_BOUNDS.

Definition init_grant_slot (i : nat) (base length rights lifetime object_id : Z) (k : kernel)
  : kernel :=
  set_grants (<[i:=mk_grant_slot object_id (mk_grant 0 base 0 length rights lifetime 1)]>
                (k_grants k)) k.
Definition clear_grant_slot (i : nat) (k : kernel) : kernel :=
  set_grants (alter (λ s, mk_grant_slot 0 (gs_grant s)) i (k_grants k)) k.

Definition scdk_grant_create (base length rights lifetime : Z) : K Z :=
  guard ((base =? 0) || (length =? 0) || (rights =? 0)
         || negb (Z.land rights (not64 SCDK_GRANT_RIGHTS_MASK) =? 0)) SCDK_ERR_INVAL ;;
  let* slot := gets (λ k, find_slot (λ s, gs_object_id s =? 0) (k_grants k)) in
  match slot with
  | None => fail SCDK_ERR_NOMEM
  | Some i =>
      let* object_id := scdk_object_create SCDK_OBJ_GRANT SCDK_BOOT_CORE 0 (P_grant i) in
      modify (init_grant_slot i base length rights lifetime object_id) ;;
      on_error (scdk_cap_create object_id rights) (clear_grant_slot i)
  end.

Definition scdk_grant_check (k : kernel) (grant required_rights offset length : Z) : result unit :=
  let? target := grant_lookup k grant required_rights in
  grant_check_range target required_rights offset length.

Definition scdk_grant_resolve (k : kernel) (grant required_rights offset length : Z) : result Z :=
  let? target := grant_lookup k grant required_rights in
  let? _ := grant_check_range target required_rights offset length in
  Ok (wrap64 (gr_base target + wrap64 (offset - gr_offset target))).

(** ** Facts *)
Section grants.
Implicit Types k : kernel.

(** The range check accepts exactly the non-empty sub-ranges of the grant for
    rights the grant has; no arithmetic in it wraps. *)
Lemma grant_check_range_iff g r off len :
  u64 off → u64 len → u64 (gr_length g) → u64 (gr_offset g) →
  grant_check_range g r off len = Ok tt ↔
  (r ≠ 0 ∧ Z.land r (not64 SCDK_GRANT_RIGHTS_MASK) = 0 ∧ Z.land (gr_rights g) r = r) ∧
  0 < len ∧ gr_offset g <= off ∧ off + len <= gr_offset g + gr_length g.
Proof.
  intros Ho Hl Hgl Hgo. unfold grant_check_range, u64 in *. split.
  - intros H. minv H. bsplit.
    unfold wrap64, two64 in *. rewrite (Z.mod_small (off - _)) in * by lia.
    rewrite Z.mod_small in * by lia. split_and!; try done; lia.
  - intros ((Hr & Hm & Hs) & H1 & H2 & H3).
    rewrite (proj2 (Z.eqb_neq r 0)) by done. rewrite Hm, Hs, !Z.eqb_refl. simpl.
    rewrite (proj2 (Z.eqb_neq len 0)) by lia. simpl.
    rewrite (proj2 (Z.ltb_ge off _)) by lia. simpl. unfold wrap64, two64 in *.
    rewrite (Z.mod_small (off - _)) by lia. rewrite Z.mod_small by lia.
    rewrite (proj2 (Z.ltb_ge _ _)) by lia. rewrite (proj2 (Z.ltb_ge _ _)) by lia. done.
Qed.

Lemma init_grant_slot_kwf i b l r t oid k :
  kernel_wf k → kernel_wf (init_grant_slot i b l r t oid k).
Proof. intros H. kwf_update. Qed.
Lemma clear_grant_slot_kwf i k : kernel_wf k → kernel_wf (clear_grant_slot i k).
Proof. intros H. kwf_update. Qed.

Lemma grant_create_kwf b l r t : preserves kernel_wf (scdk_grant_create b l r t).
Proof.
  unfold scdk_grant_create. apply preserves_bind; [eauto with scdk|intros _].
  intros k Hwf. unfold bind at 1, gets.
  destruct (find_slot _ _) as [i|] eqn:Hf; [|done]. apply find_slot_lt in Hf.
  rewrite (ts_grants _ (kwf_sized _ Hwf)) in Hf.
  refine (mint_kwf SCDK_OBJ_GRANT SCDK_BOOT_CORE 0 (P_grant i) r (init_grant_slot i b l r t)
    (clear_grant_slot i) _ _ _ k Hwf).
  - split; [done|]. unfold SCDK_MAX_GRANTS in *. lia.
  - intros. by apply init_grant_slot_kwf.
  - intros. by apply clear_grant_slot_kwf.
Qed.

Lemma grant_create_Ok k b l r t cap k' :
  kernel_wf k → scdk_grant_create b l r t k = (Ok cap, k') →
  ∃ i oid, b ≠ 0 ∧ l ≠ 0 ∧ r ≠ 0 ∧ Z.land r (not64 SCDK_GRANT_RIGHTS_MASK) = 0 ∧
    (i < length (k_grants k))%nat ∧
    minted SCDK_OBJ_GRANT SCDK_BOOT_CORE 0 (P_grant i) r (init_grant_slot i b l r t) k k' cap oid.
Proof.
  intros Hwf H. unfold scdk_grant_create in H. do 2 minv_step H. repeat minv_leaf. bsplit.
  destruct (find_slot _ _) as [i|] eqn:Hf; [|done]. apply find_slot_lt in Hf.
  apply mint_Ok in H as [oid H]; [|done..|apply Hwf]. exists i, oid. split_and!; done.
Qed.

(** The grant a new capability reaches, for the rights it was minted with. *)
Lemma grant_created_lookup k k' i b l r t cap oid q :
  (i < length (k_grants k))%nat →
  minted SCDK_OBJ_GRANT SCDK_BOOT_CORE 0 (P_grant i) r (init_grant_slot i b l r t) k k' cap oid →
  q ≠ 0 → Z.land r q = q →
  grant_lookup k' cap q = Ok (mk_grant 0 b 0 l r t 1).
Proof.
  intros Hi Hm Hq Hs. destruct (minted_check _ _ _ _ _ _ _ _ _ _ q Hm Hq Hs) as (g & Hc & Ho).
  unfold grant_lookup. rewrite Hc. simpl. rewrite Ho. simpl.
  rewrite (mt_state _ _ _ _ _ _ _ _ _ _ Hm). simpl. rewrite list_lookup_insert_eq by done. simpl.
  by rewrite Z.eqb_refl.
Qed.

Lemma grant_lookup_rights k k' i b l r t cap oid q g :
  minted SCDK_OBJ_GRANT SCDK_BOOT_CORE 0 (P_grant i) r (init_grant_slot i b l r t) k k' cap oid →
  grant_lookup k' cap q = Ok g → q ≠ 0 ∧ Z.land r q = q.
Proof.
  intros Hm H. unfold grant_lookup in H. minv H. apply cap_check_Ok in E as (?&Hl&_&Hr).
  destruct (mt_object _ _ _ _ _ _ _ _ _ _ Hm) as (g' & _ & Hl'). rewrite Hl in Hl'.
  injection Hl' as ->. done.
Qed.
End grants.

(** ** Properties *)

(** A kernel grant delimits memory exactly: through the capability that
    [scdk_grant_create] returns, a range check succeeds if and only if the
    rights are a non-empty part of the granted ones and the range is a
    non-empty sub-range of [0, length), for all 64-bit offsets and lengths,
    and the pointer a successful resolve returns keeps the whole range inside
    the granted memory. *)
Theorem grant_exact (k k' : kernel) (base len rights lifetime cap : Z) (q off n : Z)
  (Hwf : kernel_wf k) (Hb : 0 <= base) (Hl : 0 <= len) (Hfit : base + len <= two64)
  (Hoff : u64 off) (Hn : u64 n) (Hlen : u64 len)
  (Hrun : scdk_grant_create base len rights lifetime k = (Ok cap, k')) :
  (scdk_grant_check k' cap q off n = Ok tt ↔
     q ≠ 0 ∧ Z.land rights q = q ∧ 0 < n ∧ off + n <= len) ∧
  (∀ p, scdk_grant_resolve k' cap q off n = Ok p →
     p = base + off ∧ base <= p ∧ p + n <= base + len) ∧
  kernel_wf k'.
Proof.
  destruct (grant_create_Ok _ _ _ _ _ _ _ Hwf Hrun) as (i & oid & Hb0 & Hl0 & Hr0 & Hmask & Hi & Hm).
  pose proof (grant_check_range_iff (mk_grant 0 base 0 len rights lifetime 1) q off n) as Hiff.
  simpl in Hiff. specialize (Hiff Hoff Hn Hlen ltac:(done)).
  assert (∀ g, grant_lookup k' cap q = Ok g → g = mk_grant 0 base 0 len rights lifetime 1) as Hg.
  { intros g Hg. destruct (grant_lookup_rights _ _ _ _ _ _ _ _ _ _ _ Hm Hg) as [Hq Hs].
    rewrite (grant_created_lookup _ _ _ _ _ _ _ _ _ q Hi Hm Hq Hs) in Hg. by injection Hg as <-. }
  split_and!.
  - unfold scdk_grant_check. split.
    + intros H. minv H. pose proof (grant_lookup_rights _ _ _ _ _ _ _ _ _ _ _ Hm E) as [Hq Hs].
      rewrite (Hg _ E) in H. apply Hiff in H as (_&?&?&?). split_and!; done || lia.
    + intros (Hq & Hs & Hpos & Hle).
      rewrite (grant_created_lookup _ _ _ _ _ _ _ _ _ q Hi Hm Hq Hs). simpl. apply Hiff.
      unfold u64 in *. split_and!; try done; try lia.
      rewrite <-Hs, (Z.land_comm rights), <-Z.land_assoc, Hmask. apply Z.land_0_r.
  - intros p H. unfold scdk_grant_resolve in H. minv H. rewrite (Hg _ E) in *. simpl in *.
    destruct a0. apply Hiff in E0 as (_&?&?&?).
    unfold wrap64. rewrite Z.sub_0_r, (Z.mod_small off), Z.mod_small by (unfold u64, two64 in *; lia).
    lia.
  - pose proof (grant_create_kwf base len rights lifetime k Hwf) as H. by rewrite Hrun in H.
Qed.

(** The two grant tables are confused: user grants carry the same object
    type, so the kernel grant calls accept a user grant's capability for any
    right it has and then read the user grant's slot as a kernel grant. *)
Lemma grant_check_confuses_user_grants (k : kernel) (cap q off n : Z) (e : scdk_cap_entry)
  (o : scdk_object) (i : nat)
  (Hcheck : scdk_cap_check k cap q SCDK_OBJ_GRANT = Ok e)
  (Hobj : scdk_object_lookup k (ce_object_id e) = Ok o) (Hpl : obj_payload o = P_user_grant i) :
  scdk_grant_check k cap q off n = Ub ∧ scdk_grant_resolve k cap q off n = Ub.
Proof.
  assert (grant_lookup k cap q = Ub) as H.
  { unfold grant_lookup. rewrite Hcheck. simpl. rewrite Hobj. simpl. by rewrite Hpl. }
  unfold scdk_grant_check, scdk_grant_resolve. by rewrite H.
Qed.

(** ** Witnesses *)
Definition demo_grant : kernel := (scdk_grant_create 4096 64 3 0 boot_kernel).2.

Lemma grant_exact_witness : scdk_grant_check demo_grant 4294967296 1 60 4 = Ok tt.
Proof.
  apply (grant_exact boot_kernel demo_grant 4096 64 3 0 4294967296 1 60 4 boot_kernel_wf);
    [lia|lia|done|done|done|done| |done].
  apply run_to; [reflexivity|]. vm_compute. reflexivity.
Defined.
