(* ===== verification/Pmm.v ===== *)
(** * Physical page allocator ([src/mm/pmm.c])

    The memory map is the bootloader's: its entries are a parameter of
    [scdk_pmm_init], and [memmap_ok] states what the Limine protocol promises
    of them (page-aligned usable entries that overlap no other entry, physical
    addresses below 2^52) together with the static limits of the allocator. *)
From stdpp Require Import base gmap list numbers relations.
From Stdlib Require Import ZArith Lia.
From S2P Require Import Prelude.
From S2P Require Import Kernel.
#[local] Open Scope Z_scope.

Definition SCDK_PAGE_SIZE : Z := 4096.
Definition SCDK_PMM_MAX_PAGES : Z := 262144.
Definition SCDK_PMM_MAX_REGIONS : Z := 128.
Definition LIMINE_MEMMAP_USABLE : Z := 0.

(** [struct limine_memmap_entry]; a null entry pointer is [None]. *)
Record memmap_entry := mk_memmap_entry {
  mm_base : Z;
  mm_length : Z;
  mm_type : Z
}.

(** ** Operations *)
Definition align_up (value alignment : Z) : Z :=
  Z.land (wrap64 (wrap64 (value + alignment) - 1)) (not64 (alignment - 1)).
Definition align_down (value alignment : Z) : Z :=
  Z.land value (not64 (alignment - 1)).

Definition range_contains_page (region : scdk_pmm_region) (phys : Z) : bool :=
  let e := wrap64 (rgn_base region + rgn_length region) in
  if e <? rgn_base region then false
  else (rgn_base region <=? phys) && (wrap64 (phys + SCDK_PAGE_SIZE) <=? e).

Definition page_overlaps_region (region : scdk_pmm_region) (phys : Z) : bool :=
  let page_end := wrap64 (phys + SCDK_PAGE_SIZE) in
  let region_end := wrap64 (rgn_base region + rgn_length region) in
  if (page_end <? phys) || (region_end <? rgn_base region) then true
  else (phys <? region_end) && (rgn_base region <? page_end).

Definition record_region (regions : list scdk_pmm_region) (base length type : Z)
  : list scdk_pmm_region :=
  if SCDK_PMM_MAX_REGIONS <=? Z.of_nat (List.length regions) then regions
  else regions ++ [mk_region base length type].

Definition page_stack_contains (s : pmm) (phys : Z) : bool :=
  existsb (λ p, p =? phys) (page_stack s).

Definition free_pages (s : pmm) : Z := Z.of_nat (length (page_stack s)).

Definition push_managed (page : Z) (s : pmm) : pmm :=
  mk_pmm (page :: page_stack s) (managed_pages s + 1) (allocated_pages s)
    (usable_regions s) (reserved_regions s) (pmm_initialized s).

(** [for (page = base; page + SIZE <= end; page += SIZE)]: [None] when the fuel
    is used up, the flag is [true] when the page stack is full. *)
Fixpoint collect_loop (fuel : nat) (page e : Z) (s : pmm) : option (bool * pmm) :=
  match fuel with
  | O => None
  | S fuel =>
      if wrap64 (page + SCDK_PAGE_SIZE) <=? e then
        if SCDK_PMM_MAX_PAGES <=? free_pages s then Some (true, s)
        else collect_loop fuel (wrap64 (page + SCDK_PAGE_SIZE)) e (push_managed page s)
      else Some (false, s)
  end.

(** A range that ends below the last page of the address space has
    [(end - base) / SIZE] pages; otherwise the loop ends when the stack is full. *)
Definition collect_fuel (base e : Z) : nat :=
  if e <? two64 - SCDK_PAGE_SIZE then S (Z.to_nat ((e - base) / SCDK_PAGE_SIZE))
  else S (Z.to_nat SCDK_PMM_MAX_PAGES).

Definition collect_usable_region (base e : Z) (s : pmm) : option (bool * pmm) :=
  collect_loop (collect_fuel base e) base e s.

Definition set_usable (r : list scdk_pmm_region) (s : pmm) : pmm :=
  mk_pmm (page_stack s) (managed_pages s) (allocated_pages s) r (reserved_regions s)
    (pmm_initialized s).
Definition set_reserved (r : list scdk_pmm_region) (s : pmm) : pmm :=
  mk_pmm (page_stack s) (managed_pages s) (allocated_pages s) (usable_regions s) r
    (pmm_initialized s).

(** The body of the entry loop: [None] when out of fuel, [true] for [break]. *)
Definition pmm_add_entry (entry : memmap_entry) (s : pmm) : option (bool * pmm) :=
  if mm_length entry =? 0 then Some (false, s)
  else
    let raw_end := wrap64 (mm_base entry + mm_length entry) in
    if raw_end <? mm_base entry then Some (false, s)
    else
      let base := align_up (mm_base entry) SCDK_PAGE_SIZE in
      let e := align_down raw_end SCDK_PAGE_SIZE in
      if e <=? base then Some (false, s)
      else if mm_type entry =? LIMINE_MEMMAP_USABLE then
        collect_usable_region base e
          (set_usable (record_region (usable_regions s) base (e - base) (mm_type entry)) s)
      else
        Some (false, set_reserved (record_region (reserved_regions s) base (e - base)
                                     (mm_type entry)) s).

Fixpoint pmm_scan (entries : list (option memmap_entry)) (s : pmm) : option pmm :=
  match entries with
  | [] => Some s
  | None :: rest => pmm_scan rest s
  | Some entry :: rest =>
      match pmm_add_entry entry s with
      | None => None
      | Some (true, s) => Some s
      | Some (false, s) => pmm_scan rest s
      end
  end.

(** [None] is a null [memmap] or [memmap->entries]. *)
Definition scdk_pmm_init (memmap : option (list (option memmap_entry))) : M pmm unit := λ s,
  match memmap with
  | None | Some [] => (Err SCDK_ERR_INVAL, s)
  | Some entries =>
      match pmm_scan entries (mk_pmm [] 0 0 [] [] false) with
      | None => (Ub, s)
      | Some s' =>
          if managed_pages s' =? 0 then (Err SCDK_ERR_NOMEM, s')
          else (Ok tt, mk_pmm (page_stack s') (managed_pages s') (allocated_pages s')
                         (usable_regions s') (reserved_regions s') true)
      end
  end.

Definition scdk_page_alloc : M pmm Z := λ s,
  if negb (pmm_initialized s) then (Err SCDK_ERR_NOTSUP, s)
  else match page_stack s with
       | [] => (Err SCDK_ERR_NOMEM, s)
       | phys :: rest =>
           (Ok phys, mk_pmm rest (managed_pages s) (wrap64 (allocated_pages s + 1))
                       (usable_regions s) (reserved_regions s) (pmm_initialized s))
       end.

Definition page_aligned (v : Z) : bool := Z.land v (SCDK_PAGE_SIZE - 1) =? 0.

Definition scdk_pmm_is_usable_page (s : pmm) (phys : Z) : bool :=
  if negb (page_aligned phys) then false
  else existsb (λ r, range_contains_page r phys) (usable_regions s).

Definition scdk_pmm_is_reserved_page (s : pmm) (phys : Z) : bool :=
  if negb (page_aligned phys) then true
  else if existsb (λ r, page_overlaps_region r phys) (reserved_regions s) then true
  else negb (scdk_pmm_is_usable_page s phys).

Definition scdk_page_free (phys : Z) : M pmm unit := λ s,
  if negb (pmm_initialized s) then (Err SCDK_ERR_NOTSUP, s)
  else if negb (page_aligned phys) then (Err SCDK_ERR_INVAL, s)
  else if negb (scdk_pmm_is_usable_page s phys) || scdk_pmm_is_reserved_page s phys
  then (Err SCDK_ERR_BOUNDS, s)
  else if page_stack_contains s phys then (Err SCDK_ERR_BUSY, s)
  else if SCDK_PMM_MAX_PAGES <=? free_pages s then (Err SCDK_ERR_NOMEM, s)
  else (Ok tt, mk_pmm (phys :: page_stack s) (managed_pages s)
                 (if 0 <? allocated_pages s then allocated_pages s - 1 else allocated_pages s)
                 (usable_regions s) (reserved_regions s) (pmm_initialized s)).

Record scdk_pmm_stats := mk_pmm_stats {
  st_managed_pages : Z;
  st_free_pages : Z;
  st_allocated_pages : Z;
  st_usable_regions : Z;
  st_reserved_regions : Z
}.

Definition scdk_pmm_get_stats (s : pmm) : scdk_pmm_stats :=
  mk_pmm_stats (managed_pages s) (free_pages s) (allocated_pages s)
    (Z.of_nat (length (usable_regions s))) (Z.of_nat (length (reserved_regions s))).

(** ** Alignment *)
Section alignment.
Implicit Types v : Z.

Lemma mask_4095 v : Z.land v 4095 = v mod 4096.
Proof. exact (land_mask_mod v 12 ltac:(done)). Qed.

Lemma page_aligned_iff v : page_aligned v = true ↔ v mod 4096 = 0.
Proof. unfold page_aligned. rewrite mask_4095. apply Z.eqb_eq. Qed.

Lemma align_down_val v : u64 v → align_down v SCDK_PAGE_SIZE = v - v mod 4096.
Proof.
  intros Hv. unfold align_down. rewrite land_not64 by done. exact (ldiff_mask v 12 ltac:(done)).
Qed.

Lemma align_down_le v : u64 v → align_down v SCDK_PAGE_SIZE <= v.
Proof. intros Hv. rewrite align_down_val by done. Z.to_euclidean_division_equations. lia. Qed.

Lemma align_up_val v : 0 <= v < 2 ^ 63 → align_up v SCDK_PAGE_SIZE = (v + 4095) - (v + 4095) mod 4096.
Proof.
  intros Hv. unfold align_up, wrap64, two64, SCDK_PAGE_SIZE. change (2 ^ 63) with 9223372036854775808 in Hv.
  rewrite (Z.mod_small (v + 4096)), Z.mod_small by lia.
  replace (v + 4096 - 1) with (v + 4095) by lia.
  fold SCDK_PAGE_SIZE. apply align_down_val. unfold u64, two64. lia.
Qed.

Lemma align_down_id v : u64 v → v mod 4096 = 0 → align_down v SCDK_PAGE_SIZE = v.
Proof. intros Hv H. rewrite align_down_val by done. lia. Qed.

Lemma align_up_id v : 0 <= v < 2 ^ 63 → v mod 4096 = 0 → align_up v SCDK_PAGE_SIZE = v.
Proof. intros Hv H. rewrite align_up_val by done. Z.to_euclidean_division_equations. lia. Qed.
End alignment.

(** ** The memory maps a bootloader hands over *)
Definition phys_limit : Z := 4503599627370496.  (* 2^52 *)

Definition usable (e : memmap_entry) : Prop := mm_type e = LIMINE_MEMMAP_USABLE.
#[global] Instance usable_dec e : Decision (usable e).
Proof. unfold usable. apply _. Defined.

(** [p] is the address of a page that lies inside entry [e]. *)
Definition page_of (e : memmap_entry) (p : Z) : Prop :=
  p mod 4096 = 0 ∧ mm_base e <= p ∧ p + SCDK_PAGE_SIZE <= mm_base e + mm_length e.

Definition disjoint_entries (a b : memmap_entry) : Prop :=
  mm_base a + mm_length a <= mm_base b ∨ mm_base b + mm_length b <= mm_base a.

Definition usable_size (es : list memmap_entry) : Z :=
  foldr Z.add 0 (mm_length <$> filter usable es).

Record memmap_ok (es : list memmap_entry) : Prop := {
  mo_range : ∀ e, e ∈ es → 0 <= mm_base e ∧ 0 <= mm_length e ∧ mm_base e + mm_length e <= phys_limit;
  mo_aligned : ∀ e, e ∈ es → usable e → mm_base e mod 4096 = 0 ∧ mm_length e mod 4096 = 0;
  mo_disjoint : ∀ i j a b, es !! i = Some a → es !! j = Some b → i ≠ j → usable a →
    disjoint_entries a b;
  mo_usable_count : Z.of_nat (length (filter usable es)) <= SCDK_PMM_MAX_REGIONS;
  mo_fits : usable_size es <= SCDK_PMM_MAX_PAGES * SCDK_PAGE_SIZE
}.

(** ** Collecting the pages of an entry *)
Fixpoint push_pages (base : Z) (n : nat) (s : pmm) : pmm :=
  match n with
  | O => s
  | S n => push_pages (base + SCDK_PAGE_SIZE) n (push_managed base s)
  end.

Section collect.
Implicit Types (s : pmm) (base e p : Z) (n : nat).

Lemma collect_loop_spec n : ∀ fuel base e s,
  (n < fuel)%nat → e = base + 4096 * Z.of_nat n → 0 <= base → e <= phys_limit →
  free_pages s + Z.of_nat n <= SCDK_PMM_MAX_PAGES →
  collect_loop fuel base e s = Some (false, push_pages base n s).
Proof.
  induction n as [|n IH]; intros fuel base e s Hf He Hb Hl Hc; (destruct fuel as [|fuel]; [lia|]);
    unfold phys_limit in Hl; cbn [collect_loop push_pages]; unfold wrap64 at 1;
    rewrite Z.mod_small by (unfold two64, SCDK_PAGE_SIZE; lia).
  - rewrite (proj2 (Z.leb_gt _ _)) by (unfold SCDK_PAGE_SIZE; lia). done.
  - rewrite (proj2 (Z.leb_le (base + _) _)) by (unfold SCDK_PAGE_SIZE; lia).
    rewrite (proj2 (Z.leb_gt _ _)) by lia. unfold wrap64.
    rewrite Z.mod_small by (unfold two64, SCDK_PAGE_SIZE; lia).
    apply IH; unfold SCDK_PAGE_SIZE, phys_limit, free_pages in *; simpl; lia.
Qed.

Lemma push_pages_stack n : ∀ base s p,
  p ∈ page_stack (push_pages base n s) ↔
  p ∈ page_stack s ∨ ∃ i, (i < n)%nat ∧ p = base + 4096 * Z.of_nat i.
Proof.
  induction n as [|n IH]; intros base s p; cbn [push_pages].
  - split; [by left|]. intros [?|(?&?&?)]; [done|lia].
  - rewrite IH. simpl. rewrite elem_of_cons. unfold SCDK_PAGE_SIZE. split.
    + intros [[->|?]|(i&?&->)]; [right; exists 0%nat; lia|by left|right; exists (S i); lia].
    + intros [?|([|i]&?&->)]; [tauto|left; left; lia|]. right. exists i. lia.
Qed.

Lemma push_pages_nodup n : ∀ base s,
  NoDup (page_stack s) → (∀ i, (i < n)%nat → base + 4096 * Z.of_nat i ∉ page_stack s) →
  NoDup (page_stack (push_pages base n s)).
Proof.
  induction n as [|n IH]; intros base s Hn Hd; cbn [push_pages]; [done|]. apply IH.
  - simpl. constructor; [|done]. specialize (Hd 0%nat). replace (base + _) with base in Hd by lia.
    apply Hd. lia.
  - intros i Hi. simpl. unfold SCDK_PAGE_SIZE. rewrite not_elem_of_cons. split; [lia|].
    specialize (Hd (S i)). replace (base + 4096 + _) with (base + 4096 * Z.of_nat (S i)) by lia.
    apply Hd. lia.
Qed.

Lemma push_pages_fields n : ∀ base s,
  managed_pages (push_pages base n s) = managed_pages s + Z.of_nat n ∧
  free_pages (push_pages base n s) = free_pages s + Z.of_nat n ∧
  allocated_pages (push_pages base n s) = allocated_pages s ∧
  usable_regions (push_pages base n s) = usable_regions s ∧
  reserved_regions (push_pages base n s) = reserved_regions s.
Proof.
  induction n as [|n IH]; intros base s; cbn [push_pages]; [split_and!; lia || done|].
  destruct (IH (base + SCDK_PAGE_SIZE) (push_managed base s)) as (-> & -> & -> & -> & ->).
  unfold free_pages; simpl. split_and!; lia || done.
Qed.

Lemma page_of_index (e : memmap_entry) p :
  0 <= mm_length e → mm_base e mod 4096 = 0 → mm_length e mod 4096 = 0 →
  page_of e p ↔ ∃ i, (i < Z.to_nat (mm_length e / 4096))%nat ∧ p = mm_base e + 4096 * Z.of_nat i.
Proof.
  intros Hl Hb Ha. unfold page_of, SCDK_PAGE_SIZE. split.
  - intros (Hp & H1 & H2). exists (Z.to_nat ((p - mm_base e) / 4096)).
    assert (0 <= (p - mm_base e) / 4096) by (apply Z.div_pos; lia).
    split; [apply Z2Nat.inj_lt; [lia|apply Z.div_pos; lia|]|rewrite Z2Nat.id by lia];
      Z.to_euclidean_division_equations; lia.
  - intros (i & Hi & ->). assert (Z.of_nat i < mm_length e / 4096) by lia.
    Z.to_euclidean_division_equations; lia.
Qed.
End collect.

(** ** What a scan of the memory map leaves *)
Record scan_ok (done : list memmap_entry) (s : pmm) : Prop := {
  sk_nodup : NoDup (page_stack s);
  sk_pages : ∀ p, p ∈ page_stack s ↔ ∃ e, e ∈ done ∧ usable e ∧ page_of e p;
  sk_usable : ∀ r, r ∈ usable_regions s ↔
    ∃ e, e ∈ done ∧ usable e ∧ mm_length e ≠ 0 ∧ r = mk_region (mm_base e) (mm_length e) (mm_type e);
  sk_usable_count : (length (usable_regions s) ≤ length (filter usable done))%nat;
  sk_reserved : ∀ r, r ∈ reserved_regions s → ∃ e, e ∈ done ∧ ¬ usable e ∧
    mm_base e <= rgn_base r ∧ 0 < rgn_length r ∧
    rgn_base r + rgn_length r <= mm_base e + mm_length e;
  sk_managed : managed_pages s = free_pages s;
  sk_allocated : allocated_pages s = 0;
  sk_size : free_pages s * 4096 = usable_size done
}.

Section scan.
Implicit Types (s : pmm) (e : memmap_entry).

Lemma foldr_add_shift (l : list Z) z : foldr Z.add z l = foldr Z.add 0 l + z.
Proof. induction l as [|x l IH]; simpl; lia. Qed.

Lemma usable_size_plus a b : usable_size (a ++ b) = usable_size a + usable_size b.
Proof. unfold usable_size. rewrite filter_app, fmap_app, foldr_app. apply foldr_add_shift. Qed.

Lemma usable_size_snoc done e :
  usable_size (done ++ [e]) = usable_size done + (if decide (usable e) then mm_length e else 0).
Proof.
  rewrite usable_size_plus. f_equal. unfold usable_size. rewrite filter_cons, filter_nil.
  destruct (decide (usable e)); simpl; lia.
Qed.

Lemma usable_size_app a b : (∀ e, e ∈ b → 0 <= mm_length e) → usable_size a <= usable_size (a ++ b).
Proof.
  intros Hpos. rewrite usable_size_plus. cut (0 <= usable_size b); [lia|].
  unfold usable_size. induction b as [|x b IH]; [done|]. rewrite filter_cons.
  assert (0 <= mm_length x) by (apply Hpos; left).
  specialize (IH ltac:(intros ? ?; apply Hpos; by right)). destruct (decide (usable x)); rewrite ?fmap_cons; cbn [foldr]; lia.
Qed.

Lemma filter_usable_snoc done e :
  length (filter usable (done ++ [e])) = (length (filter usable done) + (if decide (usable e) then 1 else 0))%nat.
Proof.
  rewrite filter_app, length_app, filter_cons, filter_nil. by destruct (decide (usable e)).
Qed.

Lemma snoc_ex done e (P : memmap_entry → Prop) :
  (∃ e', e' ∈ done ++ [e] ∧ P e') ↔ (∃ e', e' ∈ done ∧ P e') ∨ P e.
Proof.
  setoid_rewrite elem_of_app. setoid_rewrite list_elem_of_singleton. split.
  - intros (e' & [?| ->] & ?); eauto.
  - intros [(?&?&?)|?]; eauto.
Qed.

Lemma scan_ok_nil : scan_ok [] (mk_pmm [] 0 0 [] [] false).
Proof.
  split; simpl; try done; [apply NoDup_nil_2|..].
  - intros p. split; [by intros ?%elem_of_nil|]. by intros (? & ?%elem_of_nil & _).
  - intros p. split; [by intros ?%elem_of_nil|]. by intros (? & ?%elem_of_nil & _).
  - by intros r ?%elem_of_nil.
Qed.

(** An entry that contributes nothing. *)
Lemma scan_ok_skip done e s :
  scan_ok done s → (∀ p, usable e → ¬ page_of e p) → (usable e → mm_length e = 0) →
  scan_ok (done ++ [e]) s.
Proof.
  intros [H1 H2 H3 H4 H5 H6 H7 H8] Hp Hl. split; try done.
  - intros p. rewrite H2, snoc_ex. specialize (Hp p). tauto.
  - intros r. rewrite H3, snoc_ex. split; [tauto|]. intros [?|(Hu&?&_)]; [done|]. by rewrite Hl in *.
  - rewrite filter_usable_snoc. lia.
  - intros r Hr%H5. apply snoc_ex. by left.
  - rewrite usable_size_snoc, H8. destruct (decide (usable e)) as [Hu|]; [rewrite (Hl Hu)|]; lia.
Qed.

Lemma scan_ok_reserved done e s base len :
  scan_ok done s → ¬ usable e → mm_base e <= base → 0 < len → base + len <= mm_base e + mm_length e →
  scan_ok (done ++ [e]) (set_reserved (record_region (reserved_regions s) base len (mm_type e)) s).
Proof.
  intros Hs Hu H1 H2 H3. destruct (scan_ok_skip done e s Hs) as [G1 G2 G3 G4 G5 G6 G7 G8]; [done..|].
  split; try done. intros r. unfold set_reserved, record_region. simpl.
  destruct (_ <=? _); [apply G5|]. rewrite elem_of_app, list_elem_of_singleton.
  intros [?| ->]; [by apply G5|]. apply snoc_ex. by right.
Qed.

Lemma scan_ok_usable done e s :
  scan_ok done s → usable e → 0 <= mm_base e → 0 < mm_length e →
  mm_base e mod 4096 = 0 → mm_length e mod 4096 = 0 →
  (∀ e', e' ∈ done → usable e' → disjoint_entries e' e) →
  Z.of_nat (length (filter usable (done ++ [e]))) <= SCDK_PMM_MAX_REGIONS →
  scan_ok (done ++ [e])
    (push_pages (mm_base e) (Z.to_nat (mm_length e / 4096))
       (set_usable (record_region (usable_regions s) (mm_base e) (mm_length e) (mm_type e)) s)).
Proof.
  intros [H1 H2 H3 H4 H5 H6 H7 H8] Hu Hb Hl Hab Hal Hd Hc.
  set (n := Z.to_nat (mm_length e / 4096)). set (s1 := set_usable _ s).
  destruct (push_pages_fields n (mm_base e) s1) as (F1 & F2 & F3 & F4 & F5).
  assert (0 <= mm_length e / 4096) as Hn by (apply Z.div_pos; lia).
  assert (∀ p, p ∈ page_stack (push_pages (mm_base e) n s1) ↔ p ∈ page_stack s ∨ page_of e p) as Hp.
  { intros p. rewrite push_pages_stack, page_of_index by (done || lia). done. }
  assert (record_region (usable_regions s) (mm_base e) (mm_length e) (mm_type e) =
          usable_regions s ++ [mk_region (mm_base e) (mm_length e) (mm_type e)]) as Hr.
  { unfold record_region. rewrite (proj2 (Z.leb_gt _ _)); [done|].
    rewrite filter_usable_snoc in Hc. destruct (decide (usable e)); [|done]. lia. }
  split.
  - apply push_pages_nodup; [done|]. intros i Hi Hin. simpl in Hin. apply H2 in Hin as (e' & He' & Hu' & Hp').
    assert (page_of e (mm_base e + 4096 * Z.of_nat i)) as Hpe
      by (apply page_of_index; [lia|done|done|by exists i]).
    unfold page_of, SCDK_PAGE_SIZE in *. destruct (Hd e' He' Hu'); lia.
  - intros p. rewrite Hp, H2, snoc_ex. tauto.
  - intros r. rewrite F4. unfold s1, set_usable. cbn [usable_regions]. rewrite Hr.
    rewrite elem_of_app, list_elem_of_singleton, H3, snoc_ex.
    assert (mm_length e ≠ 0) by lia. tauto.
  - rewrite F4. unfold s1, set_usable. cbn [usable_regions]. rewrite Hr, length_app, filter_usable_snoc.
    simpl. destruct (decide (usable e)); [lia|done].
  - rewrite F5. intros r Hr5%H5. apply snoc_ex. by left.
  - rewrite F1, F2. simpl. rewrite H6. done.
  - by rewrite F3.
  - rewrite F2, usable_size_snoc. destruct (decide (usable e)); [|done].
    rewrite <-H8. unfold free_pages, s1, set_usable, n. simpl. rewrite Z2Nat.id by done.
    Z.to_euclidean_division_equations; lia.
Qed.
End scan.

(** ** Well-formed allocator *)

(** Addresses of pages other than the last one of the 64-bit address space,
    for which the end of the page wraps to 0 ([pmm_last_page_usable]). *)
Definition page_addr (p : Z) : Prop := 0 <= p < two64 - SCDK_PAGE_SIZE.

(** The usable pages are the free ones and the outstanding ones. *)
Record pmm_wf (s : pmm) : Prop := {
  pw_init : pmm_initialized s = true;
  pw_nodup : NoDup (page_stack s);
  pw_free : ∀ p, p ∈ page_stack s → page_addr p ∧ scdk_pmm_is_usable_page s p = true;
  pw_all : ∃ all, NoDup all ∧ (∀ p, page_addr p → scdk_pmm_is_usable_page s p = true ↔ p ∈ all) ∧
    (∀ p, p ∈ all → scdk_pmm_is_reserved_page s p = false ∧ 0 <= p ∧ p + 4096 <= phys_limit) ∧
    Z.of_nat (length all) = managed_pages s ∧ managed_pages s <= SCDK_PMM_MAX_PAGES;
  pw_count : free_pages s + allocated_pages s = managed_pages s
}.

(** Handed out and not given back. *)
Definition outstanding (s : pmm) (p : Z) : Prop :=
  page_addr p ∧ scdk_pmm_is_usable_page s p = true ∧ p ∉ page_stack s.

Section wf.
Implicit Types (s : pmm) (es : list memmap_entry).

(** The stack has room for every usable entry, and entries do not overlap. *)
Lemma usable_room done e rest s :
  memmap_ok (done ++ e :: rest) → scan_ok done s → usable e →
  free_pages s + mm_length e / 4096 <= SCDK_PMM_MAX_PAGES.
Proof.
  intros [Hr Ha Hd Hc Hf] Hs Hu.
  assert (usable_size (done ++ [e]) <= usable_size ((done ++ [e]) ++ rest)) as Hsz.
  { apply usable_size_app. intros e' He'. apply Hr. rewrite elem_of_app, elem_of_cons. tauto. }
  rewrite <-app_assoc in Hsz. simpl in Hsz.
  rewrite usable_size_snoc, <-(sk_size _ _ Hs) in Hsz. destruct (decide (usable e)); [|done].
  unfold SCDK_PAGE_SIZE, SCDK_PMM_MAX_PAGES in *. Z.to_euclidean_division_equations; lia.
Qed.

Lemma entry_apart done e rest e' :
  memmap_ok (done ++ e :: rest) → usable e → e' ∈ done → disjoint_entries e e'.
Proof.
  intros [_ _ Hd _ _] Hu [i Hi]%list_elem_of_lookup.
  apply (Hd (length done) i); [by rewrite lookup_app_r, Nat.sub_diag by lia|..|done].
  - by rewrite lookup_app_l by (by eapply lookup_lt_Some).
  - apply lookup_lt_Some in Hi. lia.
Qed.

Lemma pmm_add_entry_ok done e rest s :
  memmap_ok (done ++ e :: rest) → scan_ok done s →
  ∃ s', pmm_add_entry e s = Some (false, s') ∧ scan_ok (done ++ [e]) s'.
Proof.
  intros Hm Hs. pose proof Hm as [Hr Ha Hd Hc Hf].
  assert (e ∈ done ++ e :: rest) as He by (rewrite elem_of_app, elem_of_cons; tauto).
  destruct (Hr e He) as (Hb & Hl & Hlim). unfold phys_limit in Hlim.
  unfold pmm_add_entry. destruct (Z.eqb_spec (mm_length e) 0) as [Hz|Hz].
  { exists s. split; [done|]. apply scan_ok_skip; [done| |done].
    intros p _ (_&?&?). unfold SCDK_PAGE_SIZE in *. lia. }
  unfold wrap64. rewrite Z.mod_small by (unfold two64; lia).
  rewrite (proj2 (Z.ltb_ge _ _)) by lia.
  assert (u64 (mm_base e + mm_length e)) as Hu64 by (unfold u64, two64; lia).
  destruct (decide (usable e)) as [Hu|Hu].
  - destruct (Ha e He Hu) as [Hab Hal].
    rewrite align_up_id by (done || lia). rewrite align_down_id by
      (done || (rewrite Z.add_mod, Hab, Hal by done; done)).
    rewrite (proj2 (Z.leb_gt _ _)) by lia. rewrite (proj2 (Z.eqb_eq _ _)) by exact Hu.
    replace (mm_base e + mm_length e - mm_base e) with (mm_length e) by lia.
    eexists. split.
    + unfold collect_usable_region, collect_fuel.
      rewrite (proj2 (Z.ltb_lt _ _)) by (unfold two64, SCDK_PAGE_SIZE; lia).
      replace (mm_base e + mm_length e - mm_base e) with (mm_length e) by lia.
      assert (0 <= mm_length e / 4096) by (apply Z.div_pos; lia).
      apply (collect_loop_spec (Z.to_nat (mm_length e / 4096))).
      * unfold SCDK_PAGE_SIZE. lia.
      * rewrite Z2Nat.id by lia. Z.to_euclidean_division_equations; lia.
      * done.
      * unfold phys_limit. lia.
      * unfold free_pages. simpl. fold (free_pages s). rewrite Z2Nat.id by lia. by eapply usable_room.
    + apply scan_ok_usable; try done; [lia| |].
      * intros e' He' _. pose proof (entry_apart _ _ _ _ Hm Hu He') as Hdis.
        unfold disjoint_entries in *. tauto.
      * replace (done ++ e :: rest) with ((done ++ [e]) ++ rest) in Hc by (by rewrite <-app_assoc).
        rewrite filter_app, length_app in Hc. lia.
  - rewrite align_up_val by lia. rewrite align_down_val by done.
    set (lo := mm_base e + 4095 - _). set (hi := mm_base e + mm_length e - _).
    assert (mm_base e <= lo ∧ hi <= mm_base e + mm_length e) as [H1 H2].
    { unfold lo, hi. Z.to_euclidean_division_equations; lia. }
    destruct (hi <=? lo) eqn:Hle; bsplit.
    + exists s. split; [done|]. apply scan_ok_skip; done.
    + rewrite (proj2 (Z.eqb_neq _ _)) by exact Hu. eexists. split; [done|].
      apply scan_ok_reserved; done || lia.
Qed.

Lemma pmm_scan_ok entries : ∀ done s,
  memmap_ok (done ++ omap id entries) → scan_ok done s →
  ∃ s', pmm_scan entries s = Some s' ∧ scan_ok (done ++ omap id entries) s'.
Proof.
  induction entries as [|[e|] entries IH]; intros done s Hm Hs; csimpl in *.
  - exists s. by rewrite app_nil_r.
  - destruct (pmm_add_entry_ok _ _ _ _ Hm Hs) as (s1 & -> & Hs1).
    replace (done ++ e :: omap id entries) with ((done ++ [e]) ++ omap id entries) in *
      by (by rewrite <-app_assoc).
    by apply IH.
  - by apply IH.
Qed.

Lemma range_contains_iff r p :
  0 <= rgn_base r → 0 <= rgn_length r → rgn_base r + rgn_length r <= phys_limit → page_addr p →
  range_contains_page r p = true ↔ rgn_base r <= p ∧ p + 4096 <= rgn_base r + rgn_length r.
Proof.
  unfold range_contains_page, page_addr, phys_limit, wrap64, two64, SCDK_PAGE_SIZE. intros Hb Hl Hlim Hp.
  rewrite !Z.mod_small by lia. rewrite (proj2 (Z.ltb_ge _ _)) by lia.
  rewrite andb_true_iff, !Z.leb_le. done.
Qed.

Lemma page_overlaps_false r p :
  0 <= rgn_base r → 0 <= rgn_length r → rgn_base r + rgn_length r <= phys_limit → page_addr p →
  p + 4096 <= rgn_base r ∨ rgn_base r + rgn_length r <= p → page_overlaps_region r p = false.
Proof.
  unfold page_overlaps_region, page_addr, phys_limit, wrap64, two64, SCDK_PAGE_SIZE. intros Hb Hl Hlim Hp Hd.
  rewrite !Z.mod_small by lia. rewrite (proj2 (Z.ltb_ge (p + 4096) p)) by lia.
  rewrite (proj2 (Z.ltb_ge _ (rgn_base r))) by lia. simpl. apply andb_false_iff.
  rewrite !Z.ltb_ge. lia.
Qed.

Lemma scan_usable_page es s p :
  memmap_ok es → scan_ok es s → page_addr p →
  scdk_pmm_is_usable_page s p = true ↔ p ∈ page_stack s.
Proof.
  intros Hm Hs Hp. rewrite (sk_pages _ _ Hs). unfold scdk_pmm_is_usable_page.
  destruct (page_aligned p) eqn:Ha; simpl.
  - apply page_aligned_iff in Ha. rewrite existsb_exists. split.
    + intros (r & Hr%list_elem_of_In%(sk_usable _ _ Hs) & Hc).
      destruct Hr as (e & He & Hu & Hl & ->). destruct (mo_range _ Hm e He) as (?&?&?).
      apply range_contains_iff in Hc; [|done..]. exists e. unfold page_of. done.
    + intros (e & He & Hu & (_ & H1 & H2)). destruct (mo_range _ Hm e He) as (?&?&?).
      unfold SCDK_PAGE_SIZE in H2. exists (mk_region (mm_base e) (mm_length e) (mm_type e)). split.
      * apply list_elem_of_In, (sk_usable _ _ Hs). exists e. split_and!; try done. lia.
      * by apply range_contains_iff.
  - split; [done|]. intros (e & _ & _ & Hal & _). apply page_aligned_iff in Hal. congruence.
Qed.

Lemma scan_reserved_page es s p :
  memmap_ok es → scan_ok es s → page_addr p → p ∈ page_stack s → scdk_pmm_is_reserved_page s p = false.
Proof.
  intros Hm Hs Hp Hin. pose proof (proj2 (scan_usable_page es s p Hm Hs Hp) Hin) as Hu.
  unfold scdk_pmm_is_reserved_page. rewrite Hu. apply (sk_pages _ _ Hs) in Hin as (e & He & Hue & Hpe).
  rewrite (proj2 (page_aligned_iff p)) by apply Hpe. simpl.
  destruct (existsb _ _) eqn:Hex; [exfalso|done]. apply existsb_exists in Hex as (r & Hr & Ho).
  apply list_elem_of_In, (sk_reserved _ _ Hs) in Hr as (e' & He' & Hne & H1 & H2 & H3).
  destruct (mo_range _ Hm e' He') as (?&?&?). destruct (mo_range _ Hm e He) as (?&?&?).
  apply list_elem_of_lookup in He as [i Hi]. apply list_elem_of_lookup in He' as [j Hj].
  assert (disjoint_entries e e') as Hd.
  { eapply (mo_disjoint _ Hm i j); try done. intros ->. rewrite Hi in Hj. by injection Hj as <-. }
  rewrite page_overlaps_false in Ho; [done|lia|lia|lia|done|].
  destruct Hpe as (_&?&?). unfold disjoint_entries, SCDK_PAGE_SIZE in *. lia.
Qed.

Lemma scan_page_range es s p :
  memmap_ok es → scan_ok es s → p ∈ page_stack s → 0 <= p ∧ p + 4096 <= phys_limit.
Proof.
  intros Hm Hs (e & He & Hu & _ & H1 & H2)%(sk_pages _ _ Hs).
  destruct (mo_range _ Hm e He) as (?&?&?). unfold SCDK_PAGE_SIZE in *. lia.
Qed.

Lemma scan_pmm_wf es s :
  memmap_ok es → scan_ok es s →
  pmm_wf (mk_pmm (page_stack s) (managed_pages s) (allocated_pages s)
            (usable_regions s) (reserved_regions s) true).
Proof.
  intros Hm Hs.
  assert (∀ p, p ∈ page_stack s → page_addr p) as Haddr.
  { intros p Hp. destruct (scan_page_range es s p Hm Hs Hp).
    unfold page_addr, phys_limit, two64, SCDK_PAGE_SIZE in *. lia. }
  split; [done|apply Hs|..]; simpl.
  - intros p Hp. split; [by apply Haddr|]. by apply (scan_usable_page es s p Hm Hs (Haddr p Hp)).
  - exists (page_stack s). split_and!; [apply Hs|..].
    + intros p Hp. exact (scan_usable_page es s p Hm Hs Hp).
    + intros p Hp. split; [exact (scan_reserved_page es s p Hm Hs (Haddr p Hp) Hp)|].
      by eapply scan_page_range.
    + symmetry. apply Hs.
    + rewrite (sk_managed _ _ Hs). pose proof (sk_size _ _ Hs). pose proof (mo_fits _ Hm).
      unfold SCDK_PAGE_SIZE in *. lia.
  - rewrite (sk_allocated _ _ Hs), (sk_managed _ _ Hs). unfold free_pages. simpl. lia.
Qed.

Lemma page_alloc_cases s :
  pmm_wf s →
  (page_stack s = [] ∧ scdk_page_alloc s = (Err SCDK_ERR_NOMEM, s)) ∨
  ∃ p rest, page_stack s = p :: rest ∧
    scdk_page_alloc s = (Ok p, mk_pmm rest (managed_pages s) (allocated_pages s + 1)
                           (usable_regions s) (reserved_regions s) true).
Proof.
  intros Hwf. unfold scdk_page_alloc. rewrite (pw_init _ Hwf). simpl.
  pose proof (pw_count _ Hwf) as Hc. destruct (pw_all _ Hwf) as (_ & _ & _ & _ & _ & Hm).
  destruct (page_stack s) as [|p rest] eqn:Hst; [by left|]. right. exists p, rest. split; [done|].
  f_equal. f_equal. unfold wrap64, free_pages, SCDK_PMM_MAX_PAGES, two64 in *. rewrite Hst in Hc.
  assert (0 <= allocated_pages s) as Ha.
  { destruct (pw_all _ Hwf) as (all & Hnd & Hall & _ & Hlen & _).
    assert (length (page_stack s) ≤ length all)%nat as Hle.
    { apply submseteq_length, NoDup_submseteq; [apply Hwf|]. intros q Hq.
      destruct (pw_free _ Hwf q Hq). by apply Hall. }
    rewrite Hst in Hle. lia. }
  rewrite Z.mod_small; [done|]. lia.
Qed.

Lemma usable_aligned s p : scdk_pmm_is_usable_page s p = true → p mod 4096 = 0.
Proof.
  unfold scdk_pmm_is_usable_page. destruct (page_aligned p) eqn:Ha; [|done].
  intros _. by apply page_aligned_iff.
Qed.

Lemma page_alloc_Ok s p s' :
  pmm_wf s → scdk_page_alloc s = (Ok p, s') →
  pmm_wf s' ∧ page_stack s = p :: page_stack s' ∧ (p ∉ page_stack s') ∧ p mod 4096 = 0 ∧
  page_addr p ∧ 0 <= p ∧ p + 4096 <= phys_limit ∧
  (∀ q, scdk_pmm_is_usable_page s' q = scdk_pmm_is_usable_page s q) ∧
  (∀ q, scdk_pmm_is_reserved_page s' q = scdk_pmm_is_reserved_page s q).
Proof.
  intros Hwf Hrun. destruct (page_alloc_cases s Hwf) as [[_ H]|(p' & rest & Hst & H)]; [congruence|].
  rewrite H in Hrun. injection Hrun as <- <-. simpl.
  pose proof Hwf as [_ Hnd Hfree (all & Hnd' & Hall & Hres & Hlen & Hmax) Hcount].
  rewrite Hst in Hnd. apply NoDup_cons in Hnd as [Hni Hnd].
  destruct (Hfree p') as [Hpa Hpu]; [rewrite Hst; left|].
  assert (p' ∈ all) as Hin by (by apply Hall). destruct (Hres p' Hin) as (_&?&?).
  split_and!; try done; [|by eapply usable_aligned].
  split; simpl; [done|done| | |].
  - intros q Hq. apply Hfree. rewrite Hst. by right.
  - by exists all.
  - unfold free_pages in *. rewrite Hst in Hcount. simpl in *. lia.
Qed.

Lemma page_alloc_Err s e s' : pmm_wf s → scdk_page_alloc s = (Err e, s') → s' = s ∧ e = SCDK_ERR_NOMEM.
Proof.
  intros Hwf Hrun. destruct (page_alloc_cases s Hwf) as [[_ H]|(p' & rest & Hst & H)]; [|congruence].
  rewrite H in Hrun. by injection Hrun as <- <-.
Qed.

Lemma page_alloc_defined s : pmm_wf s → defined (scdk_page_alloc s).1.
Proof. intros Hwf. by destruct (page_alloc_cases s Hwf) as [[_ ->]|(?&?&_&->)]. Qed.
End wf.

(** Freeing: refused without effect, or the page goes back on the stack. *)
Lemma page_free_cases (s : pmm) (p : Z) :
  pmm_wf s → page_addr p →
  (¬ outstanding s p ∧ ∃ e, scdk_page_free p s = (Err e, s)) ∨
  outstanding s p ∧ ∃ s', scdk_page_free p s = (Ok tt, s') ∧ pmm_wf s' ∧
    page_stack s' = p :: page_stack s ∧
    ∀ q, scdk_pmm_is_usable_page s' q = scdk_pmm_is_usable_page s q.
Proof.
  intros Hwf Hp. pose proof Hwf as [Hi Hnd Hfree (all & Hnd' & Hall & Hres & Hlen & Hmax) Hcount].
  unfold scdk_page_free. rewrite Hi. cbn [negb].
  assert (outstanding s p → page_aligned p = true) as Hal.
  { intros (_ & Hu & _). unfold scdk_pmm_is_usable_page in Hu. by destruct (page_aligned p). }
  assert (page_stack_contains s p = true ↔ p ∈ page_stack s) as Hin.
  { unfold page_stack_contains. rewrite existsb_exists. setoid_rewrite <-list_elem_of_In. split.
    - intros (x & Hx & ->%Z.eqb_eq). done.
    - intros Hx. exists p. by rewrite Z.eqb_refl. }
  destruct (page_aligned p) eqn:Ha; cbn [negb];
    [|left; split; [intros Ho; by apply Hal in Ho|eauto]].
  destruct (scdk_pmm_is_usable_page s p) eqn:Hu; cbn [negb orb];
    [|left; split; [intros (_&?&_); congruence|eauto]].
  pose proof (proj1 (Hall p Hp) Hu) as Hpall. destruct (Hres p Hpall) as [Hr _]. rewrite Hr.
  destruct (page_stack_contains s p) eqn:Hc.
  { left. split; [intros (_&_&Hn); tauto|eauto]. }
  assert (p ∉ page_stack s) as Hni by (intros Hx; apply Hin in Hx; done).
  assert (S (length (page_stack s)) ≤ length all)%nat as Hle.
  { change (S (length (page_stack s))) with (length (p :: page_stack s)).
    apply submseteq_length, NoDup_submseteq; [by constructor|]. intros q Hq.
    apply elem_of_cons in Hq as [->|Hq]; [done|]. destruct (Hfree q Hq). by apply Hall. }
  rewrite (proj2 (Z.leb_gt _ _)) by (unfold free_pages; lia).
  right. split; [done|]. eexists. split; [reflexivity|]. split; [|done].
  split; simpl; [done|by constructor| |by exists all|].
  - intros q Hq. apply elem_of_cons in Hq as [->|Hq]; [done|]. by apply Hfree.
  - unfold free_pages in *. simpl. destruct (Z.ltb_spec 0 (allocated_pages s)); lia.
Qed.

(** ** Properties *)

(** C8. Initialisation manages exactly the bootloader's usable memory: for a
    memory map as the boot protocol promises it, the scan terminates, and the
    free pages are the pages inside usable entries, each once, none overlapping
    a reserved entry, with nothing outstanding. *)
Theorem pmm_init_exact (entries : list (option memmap_entry)) (s : pmm)
  (Hok : memmap_ok (omap id entries)) (Hsome : ∃ e, e ∈ omap id entries ∧ usable e ∧ 0 < mm_length e) :
  ∃ s', scdk_pmm_init (Some entries) s = (Ok tt, s') ∧ pmm_wf s' ∧
    (∀ p, p ∈ page_stack s' ↔ ∃ e, e ∈ omap id entries ∧ usable e ∧ page_of e p) ∧
    (∀ p, ¬ outstanding s' p) ∧ allocated_pages s' = 0.
Proof.
  destruct (pmm_scan_ok entries [] (mk_pmm [] 0 0 [] [] false)) as (s' & Hscan & Hs);
    [done|apply scan_ok_nil|].
  simpl in Hs.
  destruct Hsome as (e & He & Hu & Hl). destruct (mo_aligned _ Hok e He Hu) as [Hb Ha].
  assert (0 < managed_pages s') as Hpos.
  { rewrite (sk_managed _ _ Hs). unfold free_pages.
    assert (mm_base e ∈ page_stack s') as Hin.
    { apply (sk_pages _ _ Hs). exists e. split_and!; [done..|]. unfold page_of, SCDK_PAGE_SIZE.
      Z.to_euclidean_division_equations; lia. }
    destruct (page_stack s'); [by apply elem_of_nil in Hin|]. simpl. lia. }
  eexists. split.
  { unfold scdk_pmm_init. destruct entries as [|e0 entries]; [by apply elem_of_nil in He|].
    rewrite Hscan, (proj2 (Z.eqb_neq _ _)) by lia. done. }
  split; [by eapply scan_pmm_wf|]. split; [apply Hs|]. split; [|apply Hs].
  intros p (Hp & Husable & Hnot). apply Hnot. simpl. by apply (scan_usable_page _ s' p Hok Hs Hp).
Qed.

(** C9. Allocation never hands a page out twice: in a well-formed allocator
    [scdk_page_alloc] fails with NOMEM exactly when no page is free, and
    otherwise returns a page-aligned usable page that no reserved entry
    overlaps and nobody holds; that page becomes outstanding and the status of
    every other page stays as it was. *)
Theorem page_alloc_fresh (s : pmm) (Hwf : pmm_wf s) :
  (page_stack s = [] → scdk_page_alloc s = (Err SCDK_ERR_NOMEM, s)) ∧
  (page_stack s ≠ [] → ∃ p s', scdk_page_alloc s = (Ok p, s') ∧ pmm_wf s' ∧
     p mod 4096 = 0 ∧ ¬ outstanding s p ∧ outstanding s' p ∧ scdk_pmm_is_reserved_page s p = false ∧
     ∀ q, q ≠ p → outstanding s' q ↔ outstanding s q).
Proof.
  destruct (page_alloc_cases s Hwf) as [[Hst Hrun]|(p & rest & Hst & Hrun)].
  { split; [done|]. by rewrite Hst. }
  split; [by rewrite Hst|]. intros _. do 2 eexists. split; [exact Hrun|].
  destruct (page_alloc_Ok _ _ _ Hwf Hrun) as (Hwf' & _ & Hni & Hal & Hpa & _ & _ & Hu & Hr).
  destruct (pw_free _ Hwf p) as [_ Hpu]; [rewrite Hst; left|].
  destruct (pw_all _ Hwf) as (all & _ & Hall & Hres & _).
  split_and!; [done|done| |done|by apply Hres, Hall|].
  - intros (_ & _ & Hn). apply Hn. rewrite Hst. left.
  - intros q Hq. unfold outstanding. simpl. rewrite Hst, not_elem_of_cons.
    split; [tauto|]. intros (?&?&?&?). done.
Qed.

(** C10. Only outstanding pages can be freed: for every address but the last
    page of the address space, [scdk_page_free] succeeds if and only if the
    page is outstanding; then it is free again, the others keep their status,
    and the counters still add up.  Every refusal (unaligned, unknown,
    reserved, double free) leaves the allocator unchanged. *)
Theorem page_free_exact (s s' : pmm) (p : Z) (r : result unit) (Hwf : pmm_wf s) (Hp : page_addr p)
  (Hrun : scdk_page_free p s = (r, s')) :
  (r = Ok tt ↔ outstanding s p) ∧
  (r ≠ Ok tt → s' = s) ∧
  (r = Ok tt → pmm_wf s' ∧ p ∈ page_stack s' ∧ ¬ outstanding s' p ∧
     ∀ q, q ≠ p → outstanding s' q ↔ outstanding s q).
Proof.
  destruct (page_free_cases s p Hwf Hp) as [[Hno [e He]]|(Ho & s2 & Hok & Hwf2 & Hst & Hus)].
  - rewrite He in Hrun. apply pair_equal_spec in Hrun as [<- <-].
    split_and!; [split; [done|tauto]|done|done].
  - rewrite Hok in Hrun. apply pair_equal_spec in Hrun as [<- <-].
    split_and!; [done|done|]. intros _. unfold outstanding. setoid_rewrite Hus. rewrite Hst.
    split_and!; [done|left|rewrite not_elem_of_cons; tauto|].
    intros q Hq. rewrite not_elem_of_cons. tauto.
Qed.

(** The last page of the address space passes for usable as soon as there is
    one usable region: its end wraps to 0 in [range_contains_page]. *)
Lemma pmm_last_page_usable (s : pmm) (r : scdk_pmm_region)
  (Hr : r ∈ usable_regions s) (Hb : 0 <= rgn_base r) (Hl : 0 <= rgn_length r)
  (Hlim : rgn_base r + rgn_length r <= phys_limit) :
  scdk_pmm_is_usable_page s 18446744073709547520 = true.
Proof.
  unfold scdk_pmm_is_usable_page. change (negb (page_aligned 18446744073709547520)) with false.
  apply existsb_exists. exists r. split; [by apply list_elem_of_In|].
  unfold range_contains_page, phys_limit, wrap64, SCDK_PAGE_SIZE in *.
  change ((18446744073709547520 + 4096) mod two64) with 0.
  rewrite Z.mod_small by (unfold two64; lia).
  rewrite (proj2 (Z.ltb_ge _ _)) by lia. apply andb_true_iff. rewrite !Z.leb_le. lia.
Qed.

(** ** Witnesses *)

(** Eight usable pages between reserved ranges, one null entry. *)
Definition demo_memmap : list (option memmap_entry) :=
  [Some (mk_memmap_entry 0 4096 1); None; Some (mk_memmap_entry 4096 32768 0);
   Some (mk_memmap_entry 36864 100 5)].
Definition demo_pmm : pmm := (scdk_pmm_init (Some demo_memmap) (mk_pmm [] 0 0 [] [] false)).2.

Lemma demo_memmap_ok : memmap_ok (omap id demo_memmap).
Proof.
  change (omap id demo_memmap) with [mk_memmap_entry 0 4096 1; mk_memmap_entry 4096 32768 0;
    mk_memmap_entry 36864 100 5].
  split.
  - intros e He. repeat (apply elem_of_cons in He as [->|He]; [by split_and!|]). by apply elem_of_nil in He.
  - intros e He. repeat (apply elem_of_cons in He as [->|He]; [done|]). by apply elem_of_nil in He.
  - intros i j a b Hi Hj Hne Hu.
    destruct i as [|[|[|i]]]; [injection Hi as <-..|done]; [done| |done].
    destruct j as [|[|[|j]]]; [injection Hj as <-..|done]; [by right|done|by left].
  - vm_compute. discriminate.
  - vm_compute. discriminate.
Qed.

Lemma demo_pmm_wf : pmm_wf demo_pmm.
Proof.
  destruct (pmm_scan_ok demo_memmap [] (mk_pmm [] 0 0 [] [] false)) as (s' & Hscan & Hs);
    [exact demo_memmap_ok|apply scan_ok_nil|].
  unfold demo_pmm, scdk_pmm_init. unfold demo_memmap at 1. fold demo_memmap. rewrite Hscan.
  assert (managed_pages s' = 8) as Hm.
  { vm_compute in Hscan. injection Hscan as <-. reflexivity. }
  rewrite (proj2 (Z.eqb_neq _ _)) by lia. exact (scan_pmm_wf _ _ demo_memmap_ok Hs).
Qed.

Lemma pmm_init_exact_witness :
  ∃ s', scdk_pmm_init (Some demo_memmap) (mk_pmm [] 0 0 [] [] false) = (Ok tt, s') ∧ pmm_wf s'.
Proof.
  destruct (pmm_init_exact demo_memmap (mk_pmm [] 0 0 [] [] false) demo_memmap_ok)
    as (s' & H1 & H2 & _).
  - exists (mk_memmap_entry 4096 32768 0). split; [vm_compute; right; left|]. split; reflexivity.
  - exists s'. exact (conj H1 H2).
Defined.

Lemma page_alloc_fresh_witness :
  ∃ p s', scdk_page_alloc demo_pmm = (Ok p, s') ∧ pmm_wf s'.
Proof.
  destruct (page_alloc_fresh demo_pmm demo_pmm_wf) as [_ H].
  destruct H as (p & s' & H1 & H2 & _); [vm_compute; discriminate|].
  exists p, s'. exact (conj H1 H2).
Defined.

Lemma page_free_exact_witness :
  (scdk_page_free 8192 demo_pmm).2 = demo_pmm ∧ ¬ outstanding demo_pmm 8192.
Proof.
  assert (scdk_page_free 8192 demo_pmm = (Err SCDK_ERR_BUSY, (scdk_page_free 8192 demo_pmm).2)) as Hrun.
  { apply run_to; [reflexivity|]. vm_compute. reflexivity. }
  assert (page_addr 8192) as Hp by (unfold page_addr, two64, SCDK_PAGE_SIZE; lia).
  destruct (page_free_exact demo_pmm _ 8192 _ demo_pmm_wf Hp Hrun) as (H1 & H2 & _).
  split; [apply H2; discriminate|]. intros Ho. apply H1 in Ho. discriminate.
Defined.
