(* ===== verification/Vmm.v ===== *)
(** * Page tables ([src/mm/vmm.c])

    Four-level x86-64 page tables in physical memory, read and written through
    the direct map.  The translation look-aside buffer is not modelled, so
    [invlpg] has no counterpart; log output has none either. *)
From stdpp Require Import base gmap list numbers relations.
From Stdlib Require Import ZArith Lia.
From S2P Require Import Prelude.
From S2P Require Import Kernel.
From S2P Require Import Pmm.
#[local] Open Scope Z_scope.

Definition SCDK_VMM_MAP_WRITE : Z := 1.
Definition SCDK_VMM_MAP_USER : Z := 2.

Definition X86_PTE_PRESENT : Z := 1.
Definition X86_PTE_WRITABLE : Z := 2.
Definition X86_PTE_USER : Z := 4.
Definition X86_PTE_HUGE : Z := 128.
Definition X86_PTE_ADDR : Z := 0x000ffffffffff000.
Definition X86_CR3_ADDR : Z := 0x000ffffffffff000.

(** ** Physical memory *)
Definition load64 (k : kernel) (addr : Z) : Z := default 0 (memory (k_vmm k) !! addr).

Definition set_memory (m : gmap Z Z) (k : kernel) : kernel :=
  set_vmm (mk_vmm (cr3 (k_vmm k)) (active_cr3_phys (k_vmm k)) (active_hhdm_offset (k_vmm k))
             (vmm_initialized (k_vmm k)) m) k.
Definition store64 (addr v : Z) (k : kernel) : kernel :=
  set_memory (<[addr:=v]> (memory (k_vmm k))) k.

(** [memset(p, 0, 8 * n)] *)
Fixpoint zero_words (n : nat) (addr : Z) (m : gmap Z Z) : gmap Z Z :=
  match n with
  | O => m
  | S n => <[addr:=0]> (zero_words n (addr + 8) m)
  end.
Definition zero_page (phys : Z) (k : kernel) : kernel :=
  set_memory (zero_words 512 phys (memory (k_vmm k))) k.

(** ** Addresses *)
Definition is_canonical (virt : Z) : bool :=
  let top := Z.shiftr virt 48 in (top =? 0) || (top =? 0xffff).

Definition pml4_index (virt : Z) : Z := Z.land (Z.shiftr virt 39) 0x1ff.
Definition pdpt_index (virt : Z) : Z := Z.land (Z.shiftr virt 30) 0x1ff.
Definition pd_index (virt : Z) : Z := Z.land (Z.shiftr virt 21) 0x1ff.
Definition pt_index (virt : Z) : Z := Z.land (Z.shiftr virt 12) 0x1ff.

Definition validate_vmm_address (k : kernel) (virt : Z) : result unit :=
  let? _ := rguard (negb (vmm_initialized (k_vmm k))) SCDK_ERR_NOTSUP in
  rguard (negb (page_aligned virt) || negb (is_canonical virt)) SCDK_ERR_INVAL.

Definition validate_root (k : kernel) (root_phys : Z) : result unit :=
  let? _ := rguard (negb (vmm_initialized (k_vmm k))) SCDK_ERR_NOTSUP in
  rguard ((root_phys =? 0) || negb (page_aligned root_phys)) SCDK_ERR_INVAL.

(** ** Tables *)
Definition kpage_alloc : K Z := zoom k_pmm set_pmm scdk_page_alloc.
Definition kpage_free (phys : Z) : K unit := zoom k_pmm set_pmm (scdk_page_free phys).

Definition allocate_table : K Z :=
  let* phys := kpage_alloc in
  modify (zero_page phys) ;;
  ret phys.

Definition next_table (table index : Z) (create : bool) (table_flags : Z) : K Z :=
  let* entry := gets (λ k, load64 k (table + 8 * index)) in
  let* entry :=
    if Z.land entry X86_PTE_PRESENT =? 0 then
      if negb create then fail SCDK_ERR_NOENT
      else
        let* new_table_phys := allocate_table in
        let entry := Z.lor (Z.lor (Z.lor new_table_phys X86_PTE_PRESENT) X86_PTE_WRITABLE)
                       table_flags in
        modify (store64 (table + 8 * index) entry) ;;
        ret entry
    else ret entry in
  guard (negb (Z.land entry X86_PTE_HUGE =? 0)) SCDK_ERR_BUSY ;;
  ret (Z.land entry X86_PTE_ADDR).

Definition leaf_table_for_root (root_phys virt : Z) (create : bool) (table_flags : Z) : K Z :=
  let* pdpt := next_table root_phys (pml4_index virt) create table_flags in
  let* pd := next_table pdpt (pdpt_index virt) create table_flags in
  next_table pd (pd_index virt) create table_flags.

(** ** Interface *)
Definition scdk_vmm_init (hhdm_offset : Z) : K unit :=
  guard (hhdm_offset =? 0) SCDK_ERR_INVAL ;;
  modify (λ k, set_vmm (mk_vmm (cr3 (k_vmm k)) (Z.land (cr3 (k_vmm k)) X86_CR3_ADDR) hhdm_offset
                          (vmm_initialized (k_vmm k)) (memory (k_vmm k))) k) ;;
  let* active := gets (λ k, active_cr3_phys (k_vmm k)) in
  guard (active =? 0) SCDK_ERR_NOENT ;;
  modify (λ k, set_vmm (mk_vmm (cr3 (k_vmm k)) (active_cr3_phys (k_vmm k))
                          (active_hhdm_offset (k_vmm k)) true (memory (k_vmm k))) k).

Definition scdk_vmm_current_root (k : kernel) : result Z :=
  let? _ := rguard (negb (vmm_initialized (k_vmm k))) SCDK_ERR_NOTSUP in
  Ok (active_cr3_phys (k_vmm k)).

(** [for (i = first; i < first + n; i++) to[i] = from[i];] *)
Fixpoint copy_entries (n : nat) (first from to : Z) (k : kernel) : kernel :=
  match n with
  | O => k
  | S n => copy_entries n (first + 1) from to
             (store64 (to + 8 * first) (load64 k (from + 8 * first)) k)
  end.

Definition scdk_vmm_create_root : K Z :=
  let* ready := gets (λ k, vmm_initialized (k_vmm k)) in
  guard (negb ready) SCDK_ERR_NOTSUP ;;
  let* root_phys := kpage_alloc in
  modify (zero_page root_phys) ;;
  modify (λ k, copy_entries 256 256 (active_cr3_phys (k_vmm k)) root_phys k) ;;
  ret root_phys.

Definition scdk_vmm_activate_root (root_phys : Z) : K unit :=
  query (λ k, validate_root k root_phys) ;;
  modify (λ k, set_vmm (mk_vmm root_phys root_phys (active_hhdm_offset (k_vmm k))
                          (vmm_initialized (k_vmm k)) (memory (k_vmm k))) k).

Definition scdk_vmm_map_page_in_root (root_phys virt phys flags : Z) : K unit :=
  query (λ k, validate_root k root_phys) ;;
  query (λ k, validate_vmm_address k virt) ;;
  guard (negb (page_aligned phys)
         || negb (Z.land flags (not64 (Z.lor SCDK_VMM_MAP_WRITE SCDK_VMM_MAP_USER)) =? 0))
    SCDK_ERR_INVAL ;;
  let table_flags := if negb (Z.land flags SCDK_VMM_MAP_USER =? 0) then X86_PTE_USER else 0 in
  let* pt := leaf_table_for_root root_phys virt true table_flags in
  let index := pt_index virt in
  let* old := gets (λ k, load64 k (pt + 8 * index)) in
  guard (negb (Z.land old X86_PTE_PRESENT =? 0)) SCDK_ERR_BUSY ;;
  let pte_flags := X86_PTE_PRESENT in
  let pte_flags := if negb (Z.land flags SCDK_VMM_MAP_WRITE =? 0)
                   then Z.lor pte_flags X86_PTE_WRITABLE else pte_flags in
  let pte_flags := if negb (Z.land flags SCDK_VMM_MAP_USER =? 0)
                   then Z.lor pte_flags X86_PTE_USER else pte_flags in
  modify (store64 (pt + 8 * index) (Z.lor (Z.land phys X86_PTE_ADDR) pte_flags)).

Definition scdk_vmm_map_page (virt phys flags : Z) : K unit :=
  let* root := gets (λ k, active_cr3_phys (k_vmm k)) in
  scdk_vmm_map_page_in_root root virt phys flags.

Definition scdk_vmm_unmap_page_in_root (root_phys virt : Z) : K unit :=
  query (λ k, validate_root k root_phys) ;;
  query (λ k, validate_vmm_address k virt) ;;
  let* pt := leaf_table_for_root root_phys virt false 0 in
  let index := pt_index virt in
  let* old := gets (λ k, load64 k (pt + 8 * index)) in
  guard (Z.land old X86_PTE_PRESENT =? 0) SCDK_ERR_NOENT ;;
  modify (store64 (pt + 8 * index) 0).

Definition scdk_vmm_unmap_page (virt : Z) : K unit :=
  let* root := gets (λ k, active_cr3_phys (k_vmm k)) in
  scdk_vmm_unmap_page_in_root root virt.

(** The physical address and the flags; with [create] false the walk only
    reads, so the state it ends in is the one it started from
    ([leaf_table_reads]). *)
Definition scdk_vmm_virt_to_phys_in_root (k : kernel) (root_phys virt : Z) : result (Z * Z) :=
  let? _ := validate_root k root_phys in
  let? _ := validate_vmm_address k (Z.land virt (not64 (SCDK_PAGE_SIZE - 1))) in
  let? pt := (leaf_table_for_root root_phys virt false 0 k).1 in
  let entry := load64 k (pt + 8 * pt_index virt) in
  let? _ := rguard (Z.land entry X86_PTE_PRESENT =? 0) SCDK_ERR_NOENT in
  let flags := 0 in
  let flags := if negb (Z.land entry X86_PTE_WRITABLE =? 0)
               then Z.lor flags SCDK_VMM_MAP_WRITE else flags in
  let flags := if negb (Z.land entry X86_PTE_USER =? 0)
               then Z.lor flags SCDK_VMM_MAP_USER else flags in
  Ok (Z.lor (Z.land entry X86_PTE_ADDR) (Z.land virt (SCDK_PAGE_SIZE - 1)), flags).

Definition scdk_vmm_virt_to_phys (k : kernel) (virt : Z) : result (Z * Z) :=
  scdk_vmm_virt_to_phys_in_root k (active_cr3_phys (k_vmm k)) virt.

(** ** Entry bits *)
Section bits.
Implicit Types e p f m : Z.

Lemma land_low e m : 0 <= m < 4096 → Z.land e m = Z.land (e mod 4096) m.
Proof.
  intros Hm. rewrite <-mask_4095, <-Z.land_assoc. f_equal.
  rewrite Z.land_comm. rewrite mask_4095. symmetry. apply Z.mod_small. lia.
Qed.

Lemma pte_sum p f : p mod 4096 = 0 → 0 <= f < 4096 → Z.lor p f = p + f.
Proof.
  intros Hp Hf. pose proof (lor_disjoint_add (p / 4096) f 12 ltac:(done) Hf) as H.
  rewrite Z.shiftl_mul_pow2 in H by done. change (2 ^ 12) with 4096 in H.
  replace (p / 4096 * 4096) with p in H; [done|]. Z.to_euclidean_division_equations; lia.
Qed.

Lemma land_addr e : 0 <= e → Z.land e X86_PTE_ADDR = e mod phys_limit - e mod 4096.
Proof.
  intros He. change X86_PTE_ADDR with (Z.land (Z.ones 52) (Z.lnot (Z.ones 12))).
  rewrite Z.land_assoc, Z.land_ones, <-Z.ldiff_land by done.
  change (Z.ones 12) with (2 ^ 12 - 1). rewrite ldiff_mask by done.
  change (2 ^ 52) with phys_limit. change (2 ^ 12) with 4096. f_equal.
  apply Z.mod_mod_divide. exists 1099511627776. done.
Qed.

Lemma pte_addr p f :
  0 <= p < phys_limit → p mod 4096 = 0 → 0 <= f < 4096 → Z.land (Z.lor p f) X86_PTE_ADDR = p.
Proof.
  intros Hp Ha Hf. rewrite pte_sum by done. rewrite land_addr by lia.
  unfold phys_limit in *. Z.to_euclidean_division_equations; lia.
Qed.

Lemma pte_flags p f m :
  p mod 4096 = 0 → 0 <= f < 4096 → 0 <= m < 4096 → Z.land (Z.lor p f) m = Z.land f m.
Proof.
  intros Hp Hf Hm. rewrite pte_sum, land_low by done. f_equal.
  rewrite Z.add_mod, Hp by done. rewrite Z.add_0_l, Z.mod_mod by done. apply Z.mod_small. lia.
Qed.
End bits.

(** ** Walks *)

(** Where a present entry of an upper-level table leads. *)
Definition walk_entry (e : Z) : result Z :=
  if Z.land e X86_PTE_PRESENT =? 0 then Err SCDK_ERR_NOENT
  else if negb (Z.land e X86_PTE_HUGE =? 0) then Err SCDK_ERR_BUSY
  else Ok (Z.land e X86_PTE_ADDR).

(** The table reached from [table] through entries [idxs]. *)
Fixpoint reach (k : kernel) (table : Z) (idxs : list Z) : result Z :=
  match idxs with
  | [] => Ok table
  | i :: idxs => let? next := walk_entry (load64 k (table + 8 * i)) in reach k next idxs
  end.

Definition leaf_entry (e : Z) : result Z :=
  if Z.land e X86_PTE_PRESENT =? 0 then Err SCDK_ERR_NOENT else Ok e.

Definition path (virt : Z) : list Z := [pml4_index virt; pdpt_index virt; pd_index virt].

(** The page-table entry that maps [virt]. *)
Definition pte (k : kernel) (root virt : Z) : result Z :=
  let? pt := reach k root (path virt) in leaf_entry (load64 k (pt + 8 * pt_index virt)).

Definition pte_translation (virt entry : Z) : Z * Z :=
  (Z.lor (Z.land entry X86_PTE_ADDR) (Z.land virt 4095),
   Z.lor (if negb (Z.land entry X86_PTE_WRITABLE =? 0) then SCDK_VMM_MAP_WRITE else 0)
     (if negb (Z.land entry X86_PTE_USER =? 0) then SCDK_VMM_MAP_USER else 0)).

Section walks.
Implicit Types (k : kernel) (i virt : Z).

Lemma next_table_reads t i f k : next_table t i false f k = (walk_entry (load64 k (t + 8 * i)), k).
Proof.
  unfold next_table, bind, gets, walk_entry. simpl.
  destruct (Z.land _ X86_PTE_PRESENT =? 0); [done|]. unfold ret, guard, fail, ret.
  by destruct (negb _).
Qed.

Lemma leaf_table_reads root virt f k :
  leaf_table_for_root root virt false f k = (reach k root (path virt), k).
Proof.
  unfold leaf_table_for_root, bind. rewrite next_table_reads. cbn [path reach].
  destruct (walk_entry _) as [t| |]; [|done..]. cbn [rbind]. rewrite next_table_reads.
  destruct (walk_entry _) as [t'| |]; [|done..]. cbn [rbind]. rewrite next_table_reads.
  by destruct (walk_entry _).
Qed.

Lemma reach_defined k idxs : ∀ t, defined (reach k t idxs).
Proof.
  induction idxs as [|i idxs IH]; intros t; [done|]. apply rbind_defined; [|intros; apply IH].
  unfold walk_entry. by repeat case_match.
Qed.

Lemma virt_to_phys_pte k root virt :
  scdk_vmm_virt_to_phys_in_root k root virt =
  (let? _ := validate_root k root in
   let? _ := validate_vmm_address k (Z.land virt (not64 (SCDK_PAGE_SIZE - 1))) in
   let? entry := pte k root virt in Ok (pte_translation virt entry)).
Proof.
  unfold scdk_vmm_virt_to_phys_in_root, pte. rewrite leaf_table_reads.
  destruct (validate_root k root); [|done..]. destruct (validate_vmm_address _ _); [|done..].
  cbn [rbind fst]. destruct (reach k root (path virt)) as [pt| |]; [|done..].
  cbn [rbind]. unfold leaf_entry, rguard.
  destruct (Z.land _ X86_PTE_PRESENT =? 0); [done|]. cbn [rbind]. unfold pte_translation. do 2 f_equal.
  by repeat destruct (negb _).
Qed.

Lemma index_range virt :
  0 <= pml4_index virt < 512 ∧ 0 <= pdpt_index virt < 512 ∧
  0 <= pd_index virt < 512 ∧ 0 <= pt_index virt < 512.
Proof.
  unfold pml4_index, pdpt_index, pd_index, pt_index. change 511 with (2 ^ 9 - 1).
  rewrite !land_mask_mod by done. change (2 ^ 9) with 512.
  repeat split; apply Z.mod_pos_bound; done.
Qed.

Lemma path_range virt : Forall (λ i, 0 <= i < 512) (path virt).
Proof.
  destruct (index_range virt) as (?&?&?&?). unfold path.
  repeat (apply Forall_cons; split; [done|]). by apply Forall_nil.
Qed.

Lemma load_store k a b v : load64 (store64 a v k) b = if b =? a then v else load64 k b.
Proof.
  unfold load64, store64. simpl. destruct (Z.eqb_spec b a) as [->|].
  - by rewrite lookup_insert_eq.
  - by rewrite lookup_insert_ne.
Qed.

Lemma zero_words_in n : ∀ a m (i : nat),
  (i < n)%nat → default 0 (zero_words n a m !! (a + 8 * Z.of_nat i)) = 0.
Proof.
  induction n as [|n IH]; intros a m i Hi; cbn [zero_words]; [lia|].
  destruct (decide (a = a + 8 * Z.of_nat i)) as [<-|Hne]; [by rewrite lookup_insert_eq|].
  rewrite lookup_insert_ne by done. destruct i as [|i]; [lia|].
  replace (a + 8 * Z.of_nat (S i)) with (a + 8 + 8 * Z.of_nat i) by lia. apply IH. lia.
Qed.

Lemma zero_words_out n : ∀ a m b,
  (∀ i : nat, (i < n)%nat → b ≠ a + 8 * Z.of_nat i) → zero_words n a m !! b = m !! b.
Proof.
  induction n as [|n IH]; intros a m b Hb; cbn [zero_words]; [done|].
  rewrite lookup_insert_ne, IH; [done| |].
  - intros i Hi. specialize (Hb (S i)). lia.
  - specialize (Hb 0%nat). lia.
Qed.

Lemma load_zero_page k q i : 0 <= i < 512 → load64 (zero_page q k) (q + 8 * i) = 0.
Proof.
  intros Hi. unfold load64, zero_page, set_memory. cbn [k_vmm set_vmm memory].
  rewrite <-(Z2Nat.id i) by lia. apply zero_words_in. lia.
Qed.

Lemma load_zero_other k q p i :
  q mod 4096 = 0 → p mod 4096 = 0 → p ≠ q → 0 <= i < 512 →
  load64 (zero_page q k) (p + 8 * i) = load64 k (p + 8 * i).
Proof.
  intros Hq Hp Hne Hi. unfold load64, zero_page, set_memory. cbn [k_vmm set_vmm memory].
  rewrite zero_words_out; [done|]. intros j Hj E.
  Z.to_euclidean_division_equations; lia.
Qed.

Lemma word_inj p q i j :
  p mod 4096 = 0 → q mod 4096 = 0 → 0 <= i < 512 → 0 <= j < 512 →
  p + 8 * i = q + 8 * j → p = q ∧ i = j.
Proof. intros. Z.to_euclidean_division_equations; lia. Qed.
End walks.

(** ** Typed page tables

    [L] labels the pages that hold tables with the path that leads to them: the
    root that owns it and the indices taken from there.  The kernel half is
    shared by all roots, its tables have owner 0.  A table is thus reached by
    one path only. *)
Abbreviation label := (prod Z (list Z)).

Definition child (l : label) (i : Z) : label :=
  match l.2 with
  | [] => (if i <? 256 then l.1 else 0, [i])
  | _ => (l.1, l.2 ++ [i])
  end.

Record pt_typed (k : kernel) (L : gmap Z label) : Prop := {
  pt_pmm : pmm_wf (k_pmm k);
  pt_ready : vmm_initialized (k_vmm k) = true;
  pt_page : ∀ p l, L !! p = Some l →
    p mod 4096 = 0 ∧ 0 <= p < phys_limit ∧ p ∉ page_stack (k_pmm k);
  pt_root : ∀ p o, L !! p = Some (o, []) → o = p ∧ p ≠ 0;
  pt_entry : ∀ p l i q, L !! p = Some l → (length l.2 < 3)%nat → 0 <= i < 512 →
    walk_entry (load64 k (p + 8 * i)) = Ok q → L !! q = Some (child l i);
  pt_active : L !! active_cr3_phys (k_vmm k) = Some (active_cr3_phys (k_vmm k), []);
  pt_nonzero : 0 ∉ page_stack (k_pmm k)
}.

Section typed.
Implicit Types (k : kernel) (L : gmap Z label) (l : label).

Lemma child_length l i : length (child l i).2 = S (length l.2).
Proof. unfold child. destruct l as [o [|x p]]; simpl; [done|]. rewrite length_app. simpl. lia. Qed.

Lemma reach_typed k L idxs : ∀ p l q,
  pt_typed k L → L !! p = Some l → (length l.2 + length idxs ≤ 3)%nat →
  Forall (λ i, 0 <= i < 512) idxs → reach k p idxs = Ok q → L !! q = Some (foldl child l idxs).
Proof.
  induction idxs as [|i idxs IH]; intros p l q HT Hp Hlen Hr H; simpl in *.
  - by injection H as <-.
  - minv H. apply Forall_cons in Hr as [Hi Hr]. apply (IH a); try done.
    + eapply pt_entry; [done|done|lia|done|done].
    + rewrite child_length. lia.
Qed.

(** The table a walk reaches belongs to one path of one owner. *)
Lemma walk_label k L root virt pt :
  pt_typed k L → L !! root = Some (root, []) → reach k root (path virt) = Ok pt →
  L !! pt = Some (if pml4_index virt <? 256 then root else 0, path virt).
Proof.
  intros HT Hr H.
  by apply (reach_typed k L (path virt) root (root, [])) in H; [|done|done|simpl; lia|apply path_range].
Qed.

(** Walks only read tables of the upper levels. *)
Lemma reach_agree k k' L idxs : ∀ p l,
  pt_typed k L → L !! p = Some l → (length l.2 + length idxs ≤ 3)%nat →
  Forall (λ i, 0 <= i < 512) idxs →
  (∀ p' l' i, L !! p' = Some l' → (length l'.2 < 3)%nat → 0 <= i < 512 →
     load64 k' (p' + 8 * i) = load64 k (p' + 8 * i)) →
  reach k' p idxs = reach k p idxs.
Proof.
  induction idxs as [|i idxs IH]; intros p l HT Hp Hlen Hr Hag; simpl in *; [done|].
  apply Forall_cons in Hr as [Hi Hr]. rewrite (Hag p l) by (done || lia).
  destruct (walk_entry _) as [q| |] eqn:Hq; [|done..]. simpl.
  apply (IH q (child l i)); try done.
  - eapply pt_entry; [done|done|lia|done|done].
  - rewrite child_length. lia.
Qed.

Lemma walk_agree k k' L root virt :
  pt_typed k L → L !! root = Some (root, []) →
  (∀ p' l' i, L !! p' = Some l' → (length l'.2 < 3)%nat → 0 <= i < 512 →
     load64 k' (p' + 8 * i) = load64 k (p' + 8 * i)) →
  reach k' root (path virt) = reach k root (path virt).
Proof.
  intros HT Hr Hag. apply (reach_agree k k' L (path virt) root (root, [])); try done.
  apply path_range.
Qed.
End typed.

(** ** Adding a table *)
Section add_table.
Implicit Types (k : kernel) (L : gmap Z label) (l : label).

(** [k'] is [k] with a zeroed table at the free page [q], linked at entry [i]
    of table [t]. *)
Record table_added (k k' : kernel) (L : gmap Z label) (t i q e : Z) (l : label) : Prop := {
  ta_label : L !! t = Some l;
  ta_upper : (length l.2 < 3)%nat;
  ta_index : 0 <= i < 512;
  ta_absent : walk_entry (load64 k (t + 8 * i)) = Err SCDK_ERR_NOENT;
  ta_fresh : L !! q = None;
  ta_aligned : q mod 4096 = 0;
  ta_zero : ∀ j, 0 <= j < 512 → load64 k' (q + 8 * j) = 0;
  ta_entry : walk_entry (load64 k' (t + 8 * i)) = Ok q;
  ta_other : ∀ p l' j, L !! p = Some l' → 0 <= j < 512 → (p, j) ≠ (t, i) →
    load64 k' (p + 8 * j) = load64 k (p + 8 * j)
}.

Lemma reach_zero k q idxs :
  (∀ j, 0 <= j < 512 → load64 k (q + 8 * j) = 0) → Forall (λ i, 0 <= i < 512) idxs →
  idxs ≠ [] → reach k q idxs = Err SCDK_ERR_NOENT.
Proof. intros Hz Hr Hne. destruct Hr as [|i idxs Hi Hr]; [done|]. cbn [reach]. by rewrite Hz. Qed.

(** Following a path before and after: the same table, or an absent entry that
    now leads to the new, empty table. *)
Lemma reach_added k k' L t i q e l idxs : ∀ p lp,
  pt_typed k L → table_added k k' L t i q e l → L !! p = Some lp →
  (length lp.2 + length idxs ≤ 3)%nat → Forall (λ i, 0 <= i < 512) idxs →
  reach k' p idxs = reach k p idxs ∨
  reach k p idxs = Err SCDK_ERR_NOENT ∧ reach k' p idxs = Ok q.
Proof.
  induction idxs as [|j idxs IH]; intros p lp HT Ha Hp Hlen Hr; [by left|].
  apply Forall_cons in Hr as [Hj Hr]. cbn [length] in Hlen.
  destruct (decide ((p, j) = (t, i))) as [[= -> ->]|Hne].
  - cbn [reach]. rewrite (ta_absent _ _ _ _ _ _ _ _ Ha), (ta_entry _ _ _ _ _ _ _ _ Ha). cbn [rbind].
    destruct idxs as [|j' idxs]; [by right|]. left.
    rewrite reach_zero; [done|apply Ha|done|done].
  - cbn [reach]. rewrite (ta_other _ _ _ _ _ _ _ _ Ha p lp) by done.
    destruct (walk_entry _) as [x| |] eqn:Hx; [|by left..]. cbn [rbind].
    apply (IH x (child lp j)); try done.
    + eapply pt_entry; [done|done|lia|done|done].
    + rewrite child_length. lia.
Qed.

(** No translation changes. *)
Lemma pte_added k k' L t i q e l root virt :
  pt_typed k L → table_added k k' L t i q e l → L !! root = Some (root, []) →
  pte k' root virt = pte k root virt.
Proof.
  intros HT Ha Hroot. unfold pte. destruct (index_range virt) as (_&_&_&Hpt).
  destruct (reach_added k k' L t i q e l (path virt) root (root, [])) as [->|[-> ->]]; try done.
  - apply path_range.
  - destruct (reach k root (path virt)) as [pt| |] eqn:Hw; [|done..]. cbn [rbind].
    pose proof (walk_label _ _ _ _ _ HT Hroot Hw) as Hl.
    rewrite (ta_other _ _ _ _ _ _ _ _ Ha pt _ _ Hl); [done|done|].
    intros [= Heq _]. subst t. pose proof (ta_label _ _ _ _ _ _ _ _ Ha) as E.
    assert (l = (if pml4_index virt <? 256 then root else 0, path virt)) as -> by congruence.
    pose proof (ta_upper _ _ _ _ _ _ _ _ Ha) as Hu. simpl in Hu. lia.
  - cbn [rbind]. by rewrite (ta_zero _ _ _ _ _ _ _ _ Ha).
Qed.

Lemma typed_added k k' L t i q e l :
  pt_typed k L → table_added k k' L t i q e l → pmm_wf (k_pmm k') →
  (∀ x, x ∈ page_stack (k_pmm k') → x ∈ page_stack (k_pmm k) ∧ x ≠ q) →
  0 <= q < phys_limit →
  vmm_initialized (k_vmm k') = true → active_cr3_phys (k_vmm k') = active_cr3_phys (k_vmm k) →
  pt_typed k' (<[q:=child l i]> L).
Proof.
  intros HT Ha Hpmm Hst Hq Hinit Hact. pose proof Ha as [Hl Hup Hi Habs Hfr Hal Hz Hen Hot]. split; try done.
  - intros p lp Hp. destruct (decide (p = q)) as [->|Hne].
    + split_and!; try done; [lia..|]. by intros []%Hst.
    + rewrite lookup_insert_ne in Hp by done. destruct (pt_page _ _ HT p lp Hp) as (?&?&?).
      split_and!; try done; [lia..|]. intros [??]%Hst. done.
  - intros p o. destruct (decide (p = q)) as [->|Hne].
    + rewrite lookup_insert_eq. intros [= E]. pose proof (child_length l i) as Hc. rewrite E in Hc. done.
    + rewrite lookup_insert_ne by done. apply HT.
  - intros p lp j x Hp Hlen Hj Hx. destruct (decide (p = q)) as [->|Hne].
    { by rewrite Hz in Hx. }
    rewrite lookup_insert_ne in Hp by done. destruct (decide ((p, j) = (t, i))) as [[= -> ->]|Hne'].
    + rewrite Hen in Hx. injection Hx as <-. rewrite Hl in Hp. injection Hp as <-.
      by rewrite lookup_insert_eq.
    + rewrite (Hot p lp j Hp Hj Hne') in Hx. rewrite lookup_insert_ne.
      * by eapply pt_entry.
      * intros <-. assert (L !! q = Some (child lp j)) by (by eapply pt_entry). congruence.
  - rewrite Hact. rewrite lookup_insert_ne; [apply HT|]. intros E. rewrite E in Hfr.
    rewrite (pt_active _ _ HT) in Hfr. done.
  - intros H0. apply (pt_nonzero _ _ HT). by apply Hst.
Qed.

Lemma kpage_alloc_inv k L q k' :
  pt_typed k L → kpage_alloc k = (Ok q, k') →
  k' = set_pmm (k_pmm k') k ∧ pmm_wf (k_pmm k') ∧ L !! q = None ∧ q mod 4096 = 0 ∧
  0 <= q < phys_limit ∧ q ≠ 0 ∧
  (∀ x, x ∈ page_stack (k_pmm k') → x ∈ page_stack (k_pmm k) ∧ x ≠ q).
Proof.
  intros HT H. unfold kpage_alloc in H. apply zoom_inv in H as (s' & Hs & ->). simpl.
  destruct (page_alloc_Ok _ _ _ (pt_pmm _ _ HT) Hs) as (Hwf & Hst & Hni & Hal & Hpa & H0 & Hlim & _).
  assert (q ∈ page_stack (k_pmm k)) as Hin by (rewrite Hst; left).
  split_and!; try done; try lia.
  - destruct (L !! q) eqn:E; [|done]. by destruct (pt_page _ _ HT q _ E) as (_&_&?).
  - intros ->. by apply (pt_nonzero _ _ HT).
  - intros x Hx. rewrite Hst. split; [by right|]. by intros ->.
Qed.

Lemma kpage_alloc_Err k L e k' :
  pt_typed k L → kpage_alloc k = (Err e, k') → k' = k.
Proof.
  intros HT H. unfold kpage_alloc, zoom in H. destruct (scdk_page_alloc _) as [r s'] eqn:Hs.
  simplify_eq. destruct (page_alloc_Err _ _ _ (pt_pmm _ _ HT) Hs) as [-> _]. by destruct k.
Qed.
End add_table.

(** ** Walks that create tables *)
Section create_walk.
Implicit Types (k : kernel) (L : gmap Z label) (l : label).

(** Only the free pages and the memory change. *)
Definition vm_frame k k' : Prop :=
  k' = set_pmm (k_pmm k') (set_memory (memory (k_vmm k')) k).

Lemma vm_frame_refl k : vm_frame k k.
Proof. unfold vm_frame. by destruct k as [? ? ? ? ? ? ? ? [] ? ? ? ?]. Qed.

Lemma vm_frame_trans k1 k2 k3 : vm_frame k1 k2 → vm_frame k2 k3 → vm_frame k1 k3.
Proof. unfold vm_frame. intros H1 H2. rewrite H2, H1. done. Qed.

Lemma vm_frame_vmm k k' : vm_frame k k' →
  vmm_initialized (k_vmm k') = vmm_initialized (k_vmm k) ∧
  active_cr3_phys (k_vmm k') = active_cr3_phys (k_vmm k).
Proof. intros H. rewrite H. done. Qed.

(** Labelled pages that are no tables keep their words. *)
Definition data_kept k k' L : Prop := ∀ p l i, L !! p = Some l → (3 < length l.2)%nat → 0 <= i < 512 →
  load64 k' (p + 8 * i) = load64 k (p + 8 * i).

(** What a step that may add tables promises. *)
Record tables_grown (k k' : kernel) (L L' : gmap Z label) : Prop := {
  tg_frame : vm_frame k k';
  tg_labels : L ⊆ L';
  tg_typed : pt_typed k' L';
  tg_pte : ∀ root virt, L !! root = Some (root, []) → pte k' root virt = pte k root virt;
  tg_links : ∀ p l j x, L !! p = Some l → (length l.2 < 3)%nat → 0 <= j < 512 →
    walk_entry (load64 k (p + 8 * j)) = Ok x → walk_entry (load64 k' (p + 8 * j)) = Ok x;
  tg_data : data_kept k k' L
}.

Lemma tables_grown_refl k L : pt_typed k L → tables_grown k k L L.
Proof. intros HT. split; try done. apply vm_frame_refl. Qed.

Lemma tables_grown_trans k1 k2 k3 L1 L2 L3 :
  tables_grown k1 k2 L1 L2 → tables_grown k2 k3 L2 L3 → tables_grown k1 k3 L1 L3.
Proof.
  intros [F1 S1 T1 P1 K1 D1] [F2 S2 T2 P2 K2 D2]. split; try done.
  - by eapply vm_frame_trans.
  - by etrans.
  - intros root virt Hr. rewrite P2, P1; try done. by eapply lookup_weaken.
  - intros p l j x Hp Hl Hj Hx. apply (K2 p l); try done; [by eapply lookup_weaken|by eapply K1].
  - intros p l i Hp Hl Hi. rewrite (D2 p l); [by apply (D1 p l)|by eapply lookup_weaken|done|done].
Qed.

(** The entry written for a new table. *)
Lemma new_table_entry q fl :
  0 <= q < phys_limit → q mod 4096 = 0 → fl = 0 ∨ fl = X86_PTE_USER →
  walk_entry (Z.lor (Z.lor (Z.lor q X86_PTE_PRESENT) X86_PTE_WRITABLE) fl) = Ok q.
Proof.
  intros Hq Ha Hfl. rewrite <-!Z.lor_assoc. unfold walk_entry.
  assert (0 <= Z.lor X86_PTE_PRESENT (Z.lor X86_PTE_WRITABLE fl) < 4096) as Hr
    by (destruct Hfl as [->| ->]; vm_compute; split; solve [discriminate|reflexivity]).
  rewrite pte_addr, (pte_flags q _ X86_PTE_PRESENT), (pte_flags q _ X86_PTE_HUGE) by done.
  by destruct Hfl as [->| ->].
Qed.

Lemma next_table_create k L t i l fl r k' :
  pt_typed k L → L !! t = Some l → (length l.2 < 3)%nat → 0 <= i < 512 →
  fl = 0 ∨ fl = X86_PTE_USER → next_table t i true fl k = (r, k') →
  ∃ L', tables_grown k k' L L' ∧
    match r with
    | Ok q => L' !! q = Some (child l i) ∧ walk_entry (load64 k' (t + 8 * i)) = Ok q
    | Err _ => True
    | Ub => False
    end.
Proof.
  intros HT Ht Hlen Hi Hfl H. unfold next_table in H. unfold bind at 1, gets in H.
  destruct (Z.land (load64 k (t + 8 * i)) X86_PTE_PRESENT =? 0) eqn:Hpres.
  - destruct (kpage_alloc k) as [[q|e|] k1] eqn:Hal.
    + destruct (kpage_alloc_inv k L q k1 HT Hal) as (Hk1 & Hwf1 & Hfr & Hqa & Hq & _ & Hst).
      pose proof (new_table_entry q fl Hq Hqa Hfl) as Hent.
      cbn [negb] in H. unfold allocate_table, bind, modify, ret in H. rewrite Hal in H.
      set (en := Z.lor _ fl) in *. set (k2 := store64 _ en (zero_page q k1)) in *.
      assert (guard (negb (Z.land en X86_PTE_HUGE =? 0)) SCDK_ERR_BUSY k2 = (Ok tt, k2)
              ∧ Z.land en X86_PTE_ADDR = q) as [Hg Haddr].
      { unfold walk_entry in Hent. destruct (Z.land en X86_PTE_PRESENT =? 0); [done|].
        destruct (negb _); [done|]. by injection Hent as ->. }
      rewrite Hg, Haddr in H. injection H as <- <-.
      destruct (pt_page _ _ HT t l Ht) as (Hta & _ & _).
      assert (t ≠ q) as Htq by (intros ->; congruence).
      assert (table_added k k2 L t i q en l) as Hadd.
      { split; try done.
        - unfold walk_entry. by rewrite Hpres.
        - intros j Hj. unfold k2. rewrite load_store. destruct (Z.eqb_spec (q + 8 * j) (t + 8 * i)) as [E|].
          + apply word_inj in E as [-> _]; done.
          + by apply load_zero_page.
        - unfold k2. rewrite load_store, Z.eqb_refl. done.
        - intros p l' j Hp Hj Hne. destruct (pt_page _ _ HT p l' Hp) as (Hpa & _ & _).
          unfold k2. rewrite load_store. destruct (Z.eqb_spec (p + 8 * j) (t + 8 * i)) as [E|].
          + apply word_inj in E as [-> ->]; done.
          + rewrite load_zero_other; try done; [by rewrite Hk1|]. intros ->. congruence. }
      exists (<[q:=child l i]> L). split; [split|].
      * unfold vm_frame, k2, store64, zero_page, set_memory. rewrite Hk1. done.
      * by apply insert_subseteq.
      * eapply typed_added; try done; unfold k2, store64, zero_page, set_memory; simpl; rewrite Hk1; [apply HT|done].
      * intros root virt Hr. by eapply pte_added.
      * intros p lp j x Hp Hlp Hj Hx. rewrite (ta_other _ _ _ _ _ _ _ _ Hadd p lp); try done.
        intros [= -> ->]. rewrite (ta_absent _ _ _ _ _ _ _ _ Hadd) in Hx. done.
      * intros p lp j Hp Hlp Hj. apply (ta_other _ _ _ _ _ _ _ _ Hadd p lp); try done.
        intros [= -> ->]. rewrite Ht in Hp. injection Hp as <-. lia.
      * split; [by rewrite lookup_insert_eq|apply Hadd].
    + cbn [negb] in H. unfold allocate_table, bind in H. rewrite Hal in H. injection H as <- <-.
      rewrite (kpage_alloc_Err _ _ _ _ HT Hal). exists L. split; [by apply tables_grown_refl|done].
    + exfalso. unfold kpage_alloc, zoom in Hal. destruct (scdk_page_alloc (k_pmm k)) as [r' s'] eqn:Hs.
      injection Hal as -> _. apply (page_alloc_defined _ (pt_pmm _ _ HT)). by rewrite Hs.
  - exists L. unfold bind, ret, guard, fail, ret in H.
    destruct (negb _) eqn:Hh; injection H as <- <-; (split; [by apply tables_grown_refl|]); [done|].
    assert (walk_entry (load64 k (t + 8 * i)) = Ok (Z.land (load64 k (t + 8 * i)) X86_PTE_ADDR)) as Hw
      by (unfold walk_entry; by rewrite Hpres, Hh).
    split; [by eapply pt_entry|done].
Qed.
End create_walk.

(** ** Leaf entries *)

(** The page number as the tables see it: bits 12 to 47. *)
Definition page_bits (virt : Z) : Z := (virt / 4096) mod 68719476736.

Section leaf.
Implicit Types (k : kernel) (L : gmap Z label) (l : label).

Lemma leaf_table_create k L root virt fl r k' :
  pt_typed k L → L !! root = Some (root, []) → fl = 0 ∨ fl = X86_PTE_USER →
  leaf_table_for_root root virt true fl k = (r, k') →
  ∃ L', tables_grown k k' L L' ∧
    match r with
    | Ok pt => reach k' root (path virt) = Ok pt
    | Err _ => True
    | Ub => False
    end.
Proof.
  intros HT Hr Hfl H. destruct (index_range virt) as (H4&H3&H2&_).
  assert (length (child (root, []) (pml4_index virt)).2 < 3)%nat as N1
    by (rewrite child_length; simpl; lia).
  assert (length (child (child (root, []) (pml4_index virt)) (pdpt_index virt)).2 < 3)%nat as N2
    by (rewrite !child_length; simpl; lia).
  unfold leaf_table_for_root in H. unfold bind at 1 in H.
  destruct (next_table root _ _ _ k) as [r1 k1] eqn:E1.
  assert (length (root, @nil Z).2 < 3)%nat as N0 by (simpl; lia).
  destruct (next_table_create _ _ _ _ (root, []) _ _ _ HT Hr N0 H4 Hfl E1)
    as (L1 & G1 & Hm1).
  destruct r1 as [t1| |]; [|injection H as <- <-; by exists L1|done]. destruct Hm1 as [Hl1 Hw1].
  unfold bind at 1 in H. destruct (next_table t1 _ _ _ k1) as [r2 k2] eqn:E2.
  destruct (next_table_create _ _ _ _ _ _ _ _ (tg_typed _ _ _ _ G1) Hl1 N1 H3 Hfl E2)
    as (L2 & G2 & Hm2).
  destruct r2 as [t2| |];
    [|injection H as <- <-; exists L2; split; [by eapply tables_grown_trans|done]|done].
  destruct Hm2 as [Hl2 Hw2].
  destruct (next_table_create _ _ _ _ _ _ _ _ (tg_typed _ _ _ _ G2) Hl2 N2 H2 Hfl H)
    as (L3 & G3 & Hm3).
  exists L3. split; [eapply tables_grown_trans; [by eapply tables_grown_trans|done]|].
  destruct r as [t3| |]; [|done|done]. destruct Hm3 as [_ Hw3].
  assert (L1 !! root = Some (root, [])) as Hr1 by (by eapply lookup_weaken, G1).
  assert (L2 !! root = Some (root, [])) as Hr2 by (by eapply lookup_weaken, G2).
  assert (L2 !! t1 = Some (child (root, []) (pml4_index virt))) as Ht1 by (by eapply lookup_weaken, G2).
  cbn [path reach].
  pose proof (tg_links _ _ _ _ G2 root _ _ _ Hr1 N0 H4 Hw1) as Hw1'.
  rewrite (tg_links _ _ _ _ G3 root _ _ _ Hr2 N0 H4 Hw1').
  cbn [rbind]. rewrite (tg_links _ _ _ _ G3 t1 _ _ t2 Ht1 N1 H3 Hw2).
  cbn [rbind]. by rewrite Hw3.
Qed.

Lemma slot_bits v : 0 <= v →
  page_bits v = pt_index v + 512 * (pd_index v + 512 * (pdpt_index v + 512 * pml4_index v)).
Proof.
  intros Hv. unfold page_bits, pt_index, pd_index, pdpt_index, pml4_index.
  change 0x1ff with (2 ^ 9 - 1). rewrite !land_mask_mod, !Z.shiftr_div_pow2 by done.
  change (2 ^ 9) with 512. change (2 ^ 12) with 4096.
  change (2 ^ 21) with (4096 * 512). change (2 ^ 30) with (4096 * (512 * 512)).
  change (2 ^ 39) with (4096 * (512 * (512 * 512))).
  change 68719476736 with (512 * (512 * (512 * 512))).
  rewrite <-!Z.div_div by done. set (n := v / 4096).
  rewrite (Z.rem_mul_r n 512), (Z.rem_mul_r (n / 512) 512), (Z.rem_mul_r (n / 512 / 512) 512) by done.
  done.
Qed.

Lemma slot_eq v v' :
  0 <= v → 0 <= v' → path v = path v' → pt_index v = pt_index v' → page_bits v = page_bits v'.
Proof. intros Hv Hv' [= E1 E2 E3] E4. rewrite !slot_bits by done. congruence. Qed.

(** Writing the leaf entry of [virt]. *)
Lemma store_leaf k L root virt pt x :
  pt_typed k L → L !! root = Some (root, []) → reach k root (path virt) = Ok pt →
  let k' := store64 (pt + 8 * pt_index virt) x k in
  pt_typed k' L ∧ reach k' root (path virt) = Ok pt ∧ pte k' root virt = leaf_entry x ∧
  ∀ root' virt', L !! root' = Some (root', []) → 0 <= virt → 0 <= virt' →
    page_bits virt' ≠ page_bits virt ∨ root' ≠ root ∧ pml4_index virt < 256 →
    pte k' root' virt' = pte k root' virt'.
Proof.
  intros HT Hr Hw k'. pose proof (walk_label _ _ _ _ _ HT Hr Hw) as Hl.
  destruct (index_range virt) as (_&_&_&Hidx). destruct (pt_page _ _ HT _ _ Hl) as (Hpa & _ & _).
  assert (∀ p lp j, L !! p = Some lp → 0 <= j < 512 → (p, j) ≠ (pt, pt_index virt) →
    load64 k' (p + 8 * j) = load64 k (p + 8 * j)) as Hsame.
  { intros p lp j Hp Hj Hne. destruct (pt_page _ _ HT _ _ Hp) as (Ha & _ & _). unfold k'. rewrite load_store.
    destruct (Z.eqb_spec (p + 8 * j) (pt + 8 * pt_index virt)) as [E|]; [|done].
    apply word_inj in E as [-> ->]; done. }
  assert (∀ p lp i, L !! p = Some lp → (length lp.2 < 3)%nat → 0 <= i < 512 →
    load64 k' (p + 8 * i) = load64 k (p + 8 * i)) as Hup.
  { intros p lp i Hp Hlen Hi. apply (Hsame p lp); try done. intros [= -> _]. rewrite Hl in Hp.
    apply (inj Some) in Hp. rewrite <-Hp in Hlen. cbn [snd path length] in Hlen. lia. }
  assert (∀ root' virt', L !! root' = Some (root', []) →
    reach k' root' (path virt') = reach k root' (path virt')) as Hreach.
  { intros root' virt' Hr'. by eapply walk_agree. }
  split_and!.
  - pose proof HT as [T1 T2 T3 T4 T5 T6 T7]. split; try done.
    intros p lp i q Hp Hlen Hi. rewrite (Hup p lp) by done. by apply T5.
  - by rewrite Hreach.
  - unfold pte. rewrite Hreach, Hw by done. cbn [rbind]. unfold k'. by rewrite load_store, Z.eqb_refl.
  - intros root' virt' Hr' Hv Hv' Hne. unfold pte. rewrite Hreach by done.
    destruct (reach k root' (path virt')) as [pt'| |] eqn:Hw'; [|done..]. cbn [rbind].
    pose proof (walk_label _ _ _ _ _ HT Hr' Hw') as Hl'. destruct (index_range virt') as (_&_&_&Hidx').
    rewrite (Hsame pt' _ _ Hl'); [done|done|]. intros [= -> Hi]. rewrite Hl in Hl'.
    apply (inj Some), pair_equal_spec in Hl' as [Ho Hp]. destruct Hne as [Hne|[Hne Hlow]].
    + apply Hne. by apply slot_eq.
    + unfold path in Hp. assert (pml4_index virt' = pml4_index virt) as Hp4 by congruence.
      rewrite Hp4, (proj2 (Z.ltb_lt _ _)) in Ho by done. done.
Qed.

Lemma store_leaf_data k L root virt pt x :
  pt_typed k L → L !! root = Some (root, []) → reach k root (path virt) = Ok pt →
  data_kept k (store64 (pt + 8 * pt_index virt) x k) L.
Proof.
  intros HT Hr Hw p l i Hp Hlen Hi. pose proof (walk_label _ _ _ _ _ HT Hr Hw) as Hl.
  destruct (index_range virt) as (_&_&_&Hidx). destruct (pt_page _ _ HT _ _ Hl) as (Hpa & _ & _).
  destruct (pt_page _ _ HT _ _ Hp) as (Ha & _ & _). rewrite load_store.
  destruct (Z.eqb_spec (p + 8 * i) (pt + 8 * pt_index virt)) as [E|]; [|done].
  apply word_inj in E as [-> _]; [|done..]. rewrite Hl in Hp. apply (inj Some) in Hp. rewrite <-Hp in Hlen.
  cbn [snd path length] in Hlen. lia.
Qed.

(** The interface functions validate, then look at the leaf entry. *)
Lemma pte_same_translation k k' root virt :
  vmm_initialized (k_vmm k') = vmm_initialized (k_vmm k) → pte k' root virt = pte k root virt →
  scdk_vmm_virt_to_phys_in_root k' root virt = scdk_vmm_virt_to_phys_in_root k root virt.
Proof.
  intros Hi Hp. rewrite !virt_to_phys_pte. unfold validate_root, validate_vmm_address. by rewrite Hi, Hp.
Qed.
End leaf.

(** ** Mapping and unmapping *)
Section mapping.
Implicit Types (k : kernel) (L : gmap Z label) (l : label).

Definition leaf_flags (flags : Z) : Z :=
  let pte_flags := X86_PTE_PRESENT in
  let pte_flags := if negb (Z.land flags SCDK_VMM_MAP_WRITE =? 0)
                   then Z.lor pte_flags X86_PTE_WRITABLE else pte_flags in
  if negb (Z.land flags SCDK_VMM_MAP_USER =? 0)
  then Z.lor pte_flags X86_PTE_USER else pte_flags.

Lemma map_flags_cases flags :
  u64 flags → Z.land flags (not64 (Z.lor SCDK_VMM_MAP_WRITE SCDK_VMM_MAP_USER)) = 0 →
  flags = 0 ∨ flags = 1 ∨ flags = 2 ∨ flags = 3.
Proof.
  intros Hu H. change (Z.lor SCDK_VMM_MAP_WRITE SCDK_VMM_MAP_USER) with (2 ^ 2 - 1) in H.
  rewrite land_not64, ldiff_mask in H by done. change (2 ^ 2) with 4 in H.
  pose proof (Z.mod_pos_bound flags 4). lia.
Qed.

Lemma leaf_entry_translation phys flags virt off :
  0 <= phys < phys_limit → phys mod 4096 = 0 → virt mod 4096 = 0 → 0 <= off < 4096 →
  flags = 0 ∨ flags = 1 ∨ flags = 2 ∨ flags = 3 →
  let x := Z.lor (Z.land phys X86_PTE_ADDR) (leaf_flags flags) in
  leaf_entry x = Ok x ∧ pte_translation (virt + off) x = (phys + off, flags).
Proof.
  intros Hp Ha Hv Ho Hf.
  assert (Z.land phys X86_PTE_ADDR = phys) as ->.
  { rewrite land_addr by lia. rewrite Z.mod_small by lia. lia. }
  assert (0 <= leaf_flags flags < 4096) as Hlf
    by (destruct Hf as [->|[->|[->| ->]]]; vm_compute; split; solve [discriminate|reflexivity]).
  assert (Z.land (virt + off) 4095 = off) as Hoff.
  { rewrite mask_4095, Z.add_mod, Hv, Z.add_0_l, Z.mod_mod by done. apply Z.mod_small. lia. }
  intros x. unfold leaf_entry, pte_translation, x. rewrite Hoff, pte_addr by done.
  rewrite (pte_flags phys _ X86_PTE_PRESENT), (pte_flags phys _ X86_PTE_WRITABLE),
    (pte_flags phys _ X86_PTE_USER) by done.
  rewrite (pte_sum phys off) by done. destruct Hf as [->|[->|[->| ->]]]; done.
Qed.

Lemma validate_root_defined k root : defined (validate_root k root).
Proof. apply rbind_defined; [apply rguard_defined|intros; apply rguard_defined]. Qed.
Lemma validate_address_defined k virt : defined (validate_vmm_address k virt).
Proof. apply rbind_defined; [apply rguard_defined|intros; apply rguard_defined]. Qed.

Lemma map_page_cases k L root virt phys flags r k' :
  pt_typed k L → L !! root = Some (root, []) →
  scdk_vmm_map_page_in_root root virt phys flags k = (r, k') →
  ∃ k1 L1, tables_grown k k1 L L1 ∧
   (k' = k1 ∧ (∃ e, r = Err e) ∨
    ∃ pt, r = Ok tt ∧ validate_vmm_address k virt = Ok tt ∧ page_aligned phys = true ∧
      Z.land flags (not64 (Z.lor SCDK_VMM_MAP_WRITE SCDK_VMM_MAP_USER)) = 0 ∧
      reach k1 root (path virt) = Ok pt ∧
      Z.land (load64 k1 (pt + 8 * pt_index virt)) X86_PTE_PRESENT = 0 ∧
      k' = store64 (pt + 8 * pt_index virt) (Z.lor (Z.land phys X86_PTE_ADDR) (leaf_flags flags)) k1).
Proof.
  intros HT Hr H. pose proof (tables_grown_refl k L HT) as Hrefl.
  unfold scdk_vmm_map_page_in_root in H. unfold bind at 1, query in H.
  destruct (validate_root k root) as [[]|e|] eqn:Hvr;
    [|injection H as <- <-; exists k, L; split; [done|left; eauto]
     |by apply validate_root_defined in Hvr].
  unfold bind at 1 in H. destruct (validate_vmm_address k virt) as [[]|e|] eqn:Hva;
    [|injection H as <- <-; exists k, L; split; [done|left; eauto]
     |by apply validate_address_defined in Hva].
  unfold bind at 1, guard in H. destruct (negb (page_aligned phys) || _) eqn:Hg.
  { injection H as <- <-. exists k, L. split; [done|left; eauto]. }
  bsplit. unfold ret at 1 in H. unfold bind at 1 in H.
  set (tf := if negb (Z.land flags SCDK_VMM_MAP_USER =? 0) then X86_PTE_USER else 0) in H.
  assert (tf = 0 ∨ tf = X86_PTE_USER) as Htf by (unfold tf; destruct (negb _); auto).
  destruct (leaf_table_for_root root virt true tf k) as [r1 k1] eqn:E1.
  destruct (leaf_table_create _ _ _ _ _ _ _ HT Hr Htf E1) as (L1 & G1 & Hm).
  destruct r1 as [pt|e|]; [|injection H as <- <-; exists k1, L1; split; [done|left; eauto]|done].
  unfold bind at 1, gets in H. unfold bind at 1, guard in H.
  destruct (Z.land (load64 k1 _) X86_PTE_PRESENT =? 0) eqn:Hpr; simpl in H;
    [|injection H as <- <-; exists k1, L1; split; [done|left; eauto]].
  unfold ret, modify in H. injection H as <- <-. bsplit. exists k1, L1. split; [done|right].
  exists pt. done.
Qed.

Lemma map_page_data k L root virt phys flags r k' :
  pt_typed k L → L !! root = Some (root, []) →
  scdk_vmm_map_page_in_root root virt phys flags k = (r, k') → data_kept k k' L.
Proof.
  intros HT Hr Hrun. destruct (map_page_cases _ _ _ _ _ _ _ _ HT Hr Hrun)
    as (k1 & L1 & HG & [(-> & _)|(pt & _ & _ & _ & _ & Hw & _ & ->)]); [apply HG|].
  intros p l i Hp Hl Hi. rewrite (store_leaf_data k1 L1 root virt pt _ (tg_typed _ _ _ _ HG)) with (l := l);
    [by apply (tg_data _ _ _ _ HG p l)|by eapply lookup_weaken, HG|done|by eapply lookup_weaken, HG|done|done].
Qed.

Lemma validate_address_offset k virt off :
  u64 virt → 0 <= off < 4096 → validate_vmm_address k virt = Ok tt →
  virt mod 4096 = 0 ∧
  validate_vmm_address k (Z.land (virt + off) (not64 (SCDK_PAGE_SIZE - 1))) = Ok tt.
Proof.
  intros Hu Ho H. assert (virt mod 4096 = 0) as Ha.
  { unfold validate_vmm_address in H. minv H. bsplit. by apply page_aligned_iff. }
  split; [done|]. assert (u64 (virt + off)) as Hu'.
  { unfold u64, two64 in *. Z.to_euclidean_division_equations; lia. }
  rewrite land_not64 by done. change (SCDK_PAGE_SIZE - 1) with (2 ^ 12 - 1).
  rewrite ldiff_mask by done. change (2 ^ 12) with 4096.
  replace (virt + off - (virt + off) mod 4096) with virt; [done|].
  Z.to_euclidean_division_equations; lia.
Qed.

Lemma path_offset virt off :
  virt mod 4096 = 0 → 0 <= off < 4096 →
  path (virt + off) = path virt ∧ pt_index (virt + off) = pt_index virt.
Proof.
  intros Ha Ho. unfold path, pml4_index, pdpt_index, pd_index, pt_index.
  assert (∀ n, 12 <= n → Z.shiftr (virt + off) n = Z.shiftr virt n) as Hs.
  { intros n Hn. rewrite !Z.shiftr_div_pow2 by lia. replace n with (12 + (n - 12)) by lia.
    rewrite Z.pow_add_r by lia. change (2 ^ 12) with 4096.
    pose proof (Z.pow_pos_nonneg 2 (n - 12) ltac:(lia) ltac:(lia)).
    rewrite <-!Z.div_div by lia. f_equal. Z.to_euclidean_division_equations; lia. }
  by rewrite !Hs by lia.
Qed.
End mapping.

(** ** New roots *)
Section roots.
Implicit Types (k : kernel) (L : gmap Z label) (l : label).

Lemma copy_entries_frame n : ∀ first from to k,
  k_pmm (copy_entries n first from to k) = k_pmm k ∧ vm_frame k (copy_entries n first from to k).
Proof.
  induction n as [|n IH]; intros first from to k; cbn [copy_entries]; [split; [done|apply vm_frame_refl]|].
  destruct (IH (first + 1) from to (store64 (to + 8 * first) (load64 k (from + 8 * first)) k)) as [H1 H2].
  rewrite H1. split; [done|]. eapply vm_frame_trans; [|exact H2]. by destruct k as [? ? ? ? ? ? ? ? [] ? ? ? ?].
Qed.

Lemma copy_entries_load n : ∀ first from to k p i,
  from mod 4096 = 0 → to mod 4096 = 0 → p mod 4096 = 0 → from ≠ to →
  0 <= first → first + Z.of_nat n <= 512 → 0 <= i < 512 →
  load64 (copy_entries n first from to k) (p + 8 * i) =
  if (p =? to) && (first <=? i) && (i <? first + Z.of_nat n) then load64 k (from + 8 * i)
  else load64 k (p + 8 * i).
Proof.
  induction n as [|n IH]; intros first from to k p i Hf Ht Hp Hne H0 Hn Hi; cbn [copy_entries].
  { destruct (Z.leb_spec first i), (Z.ltb_spec i (first + Z.of_nat 0)); try lia; by rewrite ?andb_false_r. }
  rewrite IH by (done || lia). rewrite !load_store.
  assert ((from + 8 * i =? to + 8 * first) = false) as ->.
  { apply Z.eqb_neq. intros E. apply word_inj in E; try done; [|lia]. by destruct E. }
  destruct (Z.eqb_spec (p + 8 * i) (to + 8 * first)) as [E|E].
  - apply word_inj in E as [-> ->]; try done; [|lia]. rewrite Z.eqb_refl.
    rewrite (proj2 (Z.leb_gt (first + 1) first)), (proj2 (Z.leb_le first first)) by lia.
    rewrite (proj2 (Z.ltb_lt first (first + Z.of_nat (S n)))) by lia. done.
  - destruct (Z.eqb_spec p to) as [->|]; [|done]. simpl.
    destruct (Z.leb_spec (first + 1) i), (Z.leb_spec first i),
      (Z.ltb_spec i (first + 1 + Z.of_nat n)), (Z.ltb_spec i (first + Z.of_nat (S n))); simpl; try lia; done.
Qed.

(** The state after a successful [scdk_vmm_create_root]. *)
Lemma create_root_state k L q k' :
  pt_typed k L → scdk_vmm_create_root k = (Ok q, k') →
  L !! q = None ∧ q ≠ 0 ∧ pt_typed k' (<[q:=(q, [])]> L) ∧ vm_frame k k' ∧
  (∀ i, 0 <= i < 512 → load64 k' (q + 8 * i) =
     if i <? 256 then 0 else load64 k (active_cr3_phys (k_vmm k) + 8 * i)) ∧
  (∀ p l i, L !! p = Some l → 0 <= i < 512 → load64 k' (p + 8 * i) = load64 k (p + 8 * i)).
Proof.
  intros HT H. unfold scdk_vmm_create_root in H. minv H.
  rename a1 into q, s1 into s. destruct (kpage_alloc_inv _ _ _ _ HT E1) as (Hk1 & Hwf1 & Hfr & Hqa & Hq & Hq0 & Hst).
  set (a := active_cr3_phys (k_vmm k)). set (k1 := zero_page q s).
  assert (active_cr3_phys (k_vmm k1) = a) as Ha by (unfold k1, zero_page, set_memory; simpl; by rewrite Hk1).
  rewrite Ha. pose proof (pt_active _ _ HT) as Hact. fold a in Hact.
  destruct (pt_page _ _ HT _ _ Hact) as (Haa & _ & _).
  assert (a ≠ q) as Hne by (intros <-; congruence).
  destruct (copy_entries_frame 256 256 a q k1) as [Hpm Hfr1]. set (k2 := copy_entries 256 256 a q k1) in *.
  assert (∀ p i, p mod 4096 = 0 → p ≠ q → 0 <= i < 512 → load64 k2 (p + 8 * i) = load64 k (p + 8 * i)) as Hold.
  { intros p i Hp Hpq Hi. unfold k2. rewrite copy_entries_load by (done || lia).
    rewrite (proj2 (Z.eqb_neq p q)) by done. simpl. unfold k1. rewrite load_zero_other by done.
    by rewrite Hk1. }
  assert (∀ i, 0 <= i < 512 → load64 k2 (q + 8 * i) = if i <? 256 then 0 else load64 k (a + 8 * i)) as Hnew.
  { intros i Hi. unfold k2. rewrite copy_entries_load by (done || lia). rewrite Z.eqb_refl.
    change (Z.of_nat 256) with 256. rewrite (proj2 (Z.ltb_lt i (256 + 256))) by lia.
    destruct (Z.ltb_spec i 256).
    - rewrite (proj2 (Z.leb_gt 256 i)) by lia. by apply load_zero_page.
    - rewrite (proj2 (Z.leb_le 256 i)) by lia. simpl. unfold k1. rewrite load_zero_other by done.
      by rewrite Hk1. }
  assert (vm_frame k k2) as Hfk.
  { eapply vm_frame_trans; [|exact Hfr1]. unfold vm_frame, k1, zero_page, set_memory. rewrite Hk1. done. }
  destruct (vm_frame_vmm _ _ Hfk) as [Hi2 Ha2].
  assert (k_pmm k2 = k_pmm s) as Hp2 by (by rewrite Hpm).
  clearbody k2. clear E1 Hfr1.
  split; [exact Hfr|]. split; [exact Hq0|]. split; [|split; [exact Hfk|split; [exact Hnew|]]].
  - split; rewrite ?Hp2, ?Hi2, ?Ha2; [exact Hwf1|apply HT|..].
    + intros p l. destruct (decide (p = q)) as [->|Hpq].
      * rewrite lookup_insert_eq. intros _. split_and!; try done; try lia. by intros []%Hst.
      * rewrite lookup_insert_ne by done. intros Hp. destruct (pt_page _ _ HT p l Hp) as (?&?&?).
        split_and!; try done; try lia. by intros []%Hst.
    + intros p o. destruct (decide (p = q)) as [->|Hpq].
      * rewrite lookup_insert_eq. intros [= <-]. done.
      * rewrite lookup_insert_ne by done. apply HT.
    + intros p l i x. destruct (decide (p = q)) as [->|Hpq].
      * rewrite lookup_insert_eq. intros [= <-] _ Hi. rewrite Hnew by done.
        destruct (Z.ltb_spec i 256) as [|Hhi]; [done|]. intros Hx.
        assert (length (a, @nil Z).2 < 3)%nat as Hlen by (simpl; lia).
        pose proof (pt_entry _ _ HT a (a, []) i x Hact Hlen Hi Hx) as Hlx.
        rewrite lookup_insert_ne by congruence. rewrite Hlx. unfold child. simpl.
        by rewrite (proj2 (Z.ltb_ge _ _)) by lia.
      * rewrite lookup_insert_ne by done. intros Hp Hl Hi. destruct (pt_page _ _ HT p l Hp) as (Hpa & _ & _).
        rewrite Hold by done. intros Hx.
        assert (L !! x = Some (child l i)) as Hlx by (by eapply pt_entry).
        by rewrite lookup_insert_ne by congruence.
    + fold a. by rewrite lookup_insert_ne.
    + intros H0. apply (pt_nonzero _ _ HT). by apply Hst.
  - intros p l i Hp Hi. destruct (pt_page _ _ HT p l Hp) as (Hpa & _ & _). apply Hold; try done. congruence.
Qed.

(** Translations only depend on the words of the tables. *)
Lemma pte_tables_same k k' L :
  pt_typed k L →
  (∀ p l i, L !! p = Some l → 0 <= i < 512 → load64 k' (p + 8 * i) = load64 k (p + 8 * i)) →
  ∀ root virt, L !! root = Some (root, []) → pte k' root virt = pte k root virt.
Proof.
  intros HT Hold root virt Hr. unfold pte. rewrite (walk_agree k k' L) by (try done; intros; by eapply Hold).
  destruct (reach k root (path virt)) as [pt| |] eqn:Hw; [|done..]. cbn [rbind].
  rewrite (Hold pt _ _ (walk_label _ _ _ _ _ HT Hr Hw)); [done|apply index_range].
Qed.

Lemma create_root_fails k L r k' :
  pt_typed k L → scdk_vmm_create_root k = (r, k') → (∃ q, r = Ok q) ∨ (∃ e, r = Err e) ∧ k' = k.
Proof.
  intros HT. unfold scdk_vmm_create_root, bind at 1, gets. rewrite (pt_ready _ _ HT). unfold bind at 1, guard.
  cbn [negb]. unfold ret at 1, bind at 1. destruct (kpage_alloc k) as [[q|e|] k1] eqn:Hal.
  - intros H. left. exists q. by apply pair_equal_spec in H as [<- _].
  - intros H. apply pair_equal_spec in H as [<- <-]. right. split; [by exists e|].
    by apply (kpage_alloc_Err _ L) in Hal.
  - exfalso. unfold kpage_alloc, zoom in Hal. pose proof (page_alloc_defined _ (pt_pmm _ _ HT)) as Hd.
    destruct (scdk_page_alloc (k_pmm k)) as [r' s]. injection Hal as -> _. done.
Qed.
End roots.

Section effects.
Implicit Types (k : kernel) (L : gmap Z label) (l : label).

Lemma root_valid k L root : pt_typed k L → L !! root = Some (root, []) → validate_root k root = Ok tt.
Proof.
  intros HT Hr. unfold validate_root. rewrite (pt_ready _ _ HT).
  destruct (pt_page _ _ HT _ _ Hr) as (Hra & _ & _). destruct (pt_root _ _ HT _ _ Hr) as [_ Hr0].
  apply page_aligned_iff in Hra. rewrite Hra. by rewrite (proj2 (Z.eqb_neq _ _)) by done.
Qed.

(** The effect of a mapping request on the translations. *)
Lemma map_page_state k L root virt phys flags r k' :
  pt_typed k L → L !! root = Some (root, []) → u64 virt → 0 <= phys < phys_limit → u64 flags →
  scdk_vmm_map_page_in_root root virt phys flags k = (r, k') →
  ∃ L', L ⊆ L' ∧ pt_typed k' L' ∧ vm_frame k k' ∧
    (∀ root' virt', L !! root' = Some (root', []) → 0 <= virt' →
       page_bits virt' ≠ page_bits virt ∨ root' ≠ root ∧ pml4_index virt < 256 →
       pte k' root' virt' = pte k root' virt') ∧
    match r with
    | Ok _ => ∀ off, 0 <= off < 4096 →
        scdk_vmm_virt_to_phys_in_root k' root (virt + off) = Ok (phys + off, flags)
    | Err _ => ∀ root' virt', L !! root' = Some (root', []) → pte k' root' virt' = pte k root' virt'
    | Ub => False
    end.
Proof.
  intros HT Hroot Hv Hp Hf Hrun.
  destruct (map_page_cases _ _ _ _ _ _ _ _ HT Hroot Hrun)
    as (k1 & L1 & HG & [(-> & e & ->)|(pt & -> & Hva & Hpa & Hfl & Hw & _ & ->)]).
  { exists L1. split_and!; try apply HG. intros root' virt' Hr' _ _. by apply HG. }
  assert (L1 !! root = Some (root, [])) as Hr1 by (by eapply lookup_weaken, HG).
  set (x := Z.lor _ _). exists L1.
  destruct (store_leaf k1 L1 root virt pt x (tg_typed _ _ _ _ HG) Hr1 Hw) as (HT' & Hw' & Hpte & Hother).
  apply page_aligned_iff in Hpa. pose proof (map_flags_cases _ Hf Hfl) as Hcases. split_and!.
  - apply HG.
  - done.
  - eapply vm_frame_trans; [apply HG|done].
  - intros root' virt' Hr' Hv' Hne.
    rewrite Hother; [by apply HG|by eapply lookup_weaken, HG|apply Hv|done|done].
  - intros off Hoff. destruct (validate_address_offset k virt off Hv Hoff Hva) as [Hal Hvo].
    destruct (path_offset virt off Hal Hoff) as [Hpath Hidx].
    rewrite virt_to_phys_pte. unfold pte. rewrite Hpath, Hidx.
    fold (pte (store64 (pt + 8 * pt_index virt) x k1) root virt).
    rewrite Hpte. destruct (leaf_entry_translation phys flags virt off Hp Hpa Hal Hoff Hcases) as [Hle Htr].
    fold x in Hle, Htr. rewrite Hle. cbn [rbind]. rewrite Htr, (root_valid _ L1) by done.
    unfold validate_vmm_address in *. rewrite (pt_ready _ _ HT) in Hvo. rewrite (pt_ready _ _ HT').
    cbn [rbind negb rguard] in *. by rewrite Hvo.
Qed.

(** The effect of an unmapping request. *)
Lemma unmap_page_state k L root virt r k' :
  pt_typed k L → L !! root = Some (root, []) → u64 virt →
  scdk_vmm_unmap_page_in_root root virt k = (r, k') →
  pt_typed k' L ∧ vm_frame k k' ∧ k_pmm k' = k_pmm k ∧
  (∀ root' virt', L !! root' = Some (root', []) → 0 <= virt' →
     page_bits virt' ≠ page_bits virt ∨ root' ≠ root ∧ pml4_index virt < 256 →
     pte k' root' virt' = pte k root' virt') ∧
  match r with
  | Ok _ => (∃ t, scdk_vmm_virt_to_phys_in_root k root virt = Ok t) ∧
      ∀ t, scdk_vmm_virt_to_phys_in_root k' root virt ≠ Ok t
  | Err _ => k' = k
  | Ub => False
  end.
Proof.
  intros HT Hroot Hv Hrun. unfold scdk_vmm_unmap_page_in_root in Hrun.
  unfold bind at 1, query at 1 in Hrun. rewrite (root_valid _ _ _ HT Hroot) in Hrun.
  unfold bind at 1, query at 1 in Hrun.
  destruct (validate_vmm_address k virt) as [[]|e|] eqn:Hva;
    [|apply pair_equal_spec in Hrun as [<- <-]; split_and!; by auto using vm_frame_refl|by apply validate_address_defined in Hva].
  unfold bind at 1 in Hrun. rewrite leaf_table_reads in Hrun.
  destruct (reach k root (path virt)) as [pt|e|] eqn:Hw;
    [|apply pair_equal_spec in Hrun as [<- <-]; split_and!; by auto using vm_frame_refl|].
  2: { exfalso. revert Hw. apply reach_defined. }
  unfold bind at 1, gets in Hrun. unfold bind at 1, guard in Hrun.
  destruct (Z.land _ X86_PTE_PRESENT =? 0) eqn:Hpres; [apply pair_equal_spec in Hrun as [<- <-]; split_and!; by auto using vm_frame_refl|].
  unfold ret, modify in Hrun. apply pair_equal_spec in Hrun as [<- <-]. bsplit.
  destruct (store_leaf k L root virt pt 0 HT Hroot Hw) as (HT' & _ & Hpte & Hother).
  split_and!; [exact HT'|done|done| | |].
  - intros root' virt' Hr' Hv' Hne. apply Hother; try done. apply Hv.
  - rewrite virt_to_phys_pte, (root_valid _ _ _ HT Hroot). cbn [rbind].
    assert (0 <= 0 < 4096) as Hz by lia.
    destruct (validate_address_offset k virt 0 Hv Hz Hva) as [_ Hvo]. rewrite Z.add_0_r in Hvo. rewrite Hvo.
    cbn [rbind]. unfold pte. rewrite Hw. cbn [rbind]. unfold leaf_entry.
    rewrite (proj2 (Z.eqb_neq _ _)) by done. cbn [rbind]. by eexists.
  - intros t Ht. rewrite virt_to_phys_pte, Hpte in Ht. minv Ht. done.
Qed.
End effects.

(** ** Properties *)

(** C5. Mapping a page installs exactly that translation: after a successful
    [scdk_vmm_map_page_in_root] every byte of the page translates to the same
    byte of the physical page with exactly the requested flags; every other
    page of the same root, and, for a user-half address, every address of every
    other root, translates as before; the tables stay well typed. *)
Theorem vmm_map_page_exact (k k' : kernel) (L : gmap Z label) (root virt phys flags : Z)
  (HT : pt_typed k L) (Hroot : L !! root = Some (root, []))
  (Hv : u64 virt) (Hp : 0 <= phys < phys_limit) (Hf : u64 flags)
  (Hrun : scdk_vmm_map_page_in_root root virt phys flags k = (Ok tt, k')) :
  (∀ off, 0 <= off < 4096 →
     scdk_vmm_virt_to_phys_in_root k' root (virt + off) = Ok (phys + off, flags)) ∧
  (∀ root' virt', L !! root' = Some (root', []) → 0 <= virt' →
     page_bits virt' ≠ page_bits virt ∨ root' ≠ root ∧ pml4_index virt < 256 →
     scdk_vmm_virt_to_phys_in_root k' root' virt' = scdk_vmm_virt_to_phys_in_root k root' virt') ∧
  ∃ L', L ⊆ L' ∧ pt_typed k' L'.
Proof.
  destruct (map_page_state _ _ _ _ _ _ _ _ HT Hroot Hv Hp Hf Hrun) as (L' & Hsub & HT' & Hfr & Hother & Hnew).
  split_and!; [exact Hnew| |by exists L'].
  intros root' virt' Hr' Hv' Hne. apply pte_same_translation; [apply (vm_frame_vmm _ _ Hfr)|by apply Hother].
Qed.

(** A mapping request that fails (invalid or occupied address, no page for
    a table) changes no translation of any root, and the tables stay well
    typed; a request never runs into undefined behaviour. *)
Theorem vmm_map_page_failure (k k' : kernel) (L : gmap Z label) (root virt phys flags : Z)
  (r : result unit) (HT : pt_typed k L) (Hroot : L !! root = Some (root, []))
  (Hrun : scdk_vmm_map_page_in_root root virt phys flags k = (r, k')) :
  r = Ok tt ∨ (∃ e, r = Err e) ∧
    (∀ root' virt', L !! root' = Some (root', []) →
       scdk_vmm_virt_to_phys_in_root k' root' virt' = scdk_vmm_virt_to_phys_in_root k root' virt') ∧
    ∃ L', L ⊆ L' ∧ pt_typed k' L'.
Proof.
  destruct (map_page_cases _ _ _ _ _ _ _ _ HT Hroot Hrun)
    as (k1 & L1 & HG & [(-> & He)|(pt & -> & _)]); [right|by left].
  split; [done|]. split; [|exists L1; split; apply HG].
  intros root' virt' Hr'. apply pte_same_translation; [apply (vm_frame_vmm _ _ (tg_frame _ _ _ _ HG))|].
  by apply HG.
Qed.

(** Unmapping removes exactly one translation: after a successful
    [scdk_vmm_unmap_page_in_root] the page no longer translates, every other
    page of the root and, for a user-half address, every other root keeps its
    translations, and no page is freed or allocated. *)
Theorem vmm_unmap_page_exact (k k' : kernel) (L : gmap Z label) (root virt : Z)
  (HT : pt_typed k L) (Hroot : L !! root = Some (root, [])) (Hv : u64 virt)
  (Hrun : scdk_vmm_unmap_page_in_root root virt k = (Ok tt, k')) :
  (∃ t, scdk_vmm_virt_to_phys_in_root k root virt = Ok t) ∧
  (∀ t, scdk_vmm_virt_to_phys_in_root k' root virt ≠ Ok t) ∧
  (∀ root' virt', L !! root' = Some (root', []) → 0 <= virt' →
     page_bits virt' ≠ page_bits virt ∨ root' ≠ root ∧ pml4_index virt < 256 →
     scdk_vmm_virt_to_phys_in_root k' root' virt' = scdk_vmm_virt_to_phys_in_root k root' virt') ∧
  pt_typed k' L ∧ k_pmm k' = k_pmm k.
Proof.
  destruct (unmap_page_state _ _ _ _ _ _ HT Hroot Hv Hrun) as (HT' & Hfr & Hpmm & Hother & Hold & Hnew).
  split_and!; [done|done| |done|done].
  intros root' virt' Hr' Hv' Hne. apply pte_same_translation; [apply (vm_frame_vmm _ _ Hfr)|by apply Hother].
Qed.

(** A new root is an empty user half over the current kernel half: no
    user-half address translates in the root that [scdk_vmm_create_root]
    returns, every kernel-half address translates as in the active root, and
    no existing root changes. *)
Theorem vmm_create_root_exact (k k' : kernel) (L : gmap Z label) (q : Z)
  (HT : pt_typed k L) (Hrun : scdk_vmm_create_root k = (Ok q, k')) :
  (∀ virt t, pml4_index virt < 256 → scdk_vmm_virt_to_phys_in_root k' q virt ≠ Ok t) ∧
  (∀ virt, 256 <= pml4_index virt →
     scdk_vmm_virt_to_phys_in_root k' q virt =
     scdk_vmm_virt_to_phys_in_root k (active_cr3_phys (k_vmm k)) virt) ∧
  (∀ root' virt', L !! root' = Some (root', []) →
     scdk_vmm_virt_to_phys_in_root k' root' virt' = scdk_vmm_virt_to_phys_in_root k root' virt') ∧
  L !! q = None ∧ pt_typed k' (<[q:=(q, [])]> L).
Proof.
  destruct (create_root_state k L q k' HT Hrun) as (Hfr & Hq0 & HT' & Hframe & Hnew & Hold).
  destruct (vm_frame_vmm _ _ Hframe) as [Hi Ha]. pose proof (pt_active _ _ HT) as Hact.
  assert ((<[q:=(q, [])]> L) !! q = Some (q, [])) as Hlq by (by rewrite lookup_insert_eq).
  pose proof (pte_tables_same k k' L HT Hold) as Hpte.
  split_and!.
  - intros virt t Hlow Ht. rewrite virt_to_phys_pte in Ht. minv Ht. unfold pte in E1.
    cbn [path reach] in E1. destruct (index_range virt) as (H4&_). rewrite Hnew in E1 by done.
    by rewrite (proj2 (Z.ltb_lt _ _)) in E1 by done.
  - intros virt Hhigh. rewrite !virt_to_phys_pte. destruct (index_range virt) as (H4&H3&H2&H1).
    set (a := active_cr3_phys (k_vmm k)) in *.
    assert (validate_root k' q = Ok tt) as ->.
    { unfold validate_root. rewrite (pt_ready _ _ HT'). destruct (pt_page _ _ HT' _ _ Hlq) as (Hqa & _ & _).
      apply page_aligned_iff in Hqa. rewrite Hqa. by rewrite (proj2 (Z.eqb_neq _ _)) by done. }
    assert (validate_root k a = Ok tt) as ->.
    { unfold validate_root. rewrite (pt_ready _ _ HT). destruct (pt_page _ _ HT _ _ Hact) as (Hqa & _ & _).
      destruct (pt_root _ _ HT _ _ Hact) as [_ Ha0].
      apply page_aligned_iff in Hqa. rewrite Hqa. by rewrite (proj2 (Z.eqb_neq _ _)) by done. }
    cbn [rbind]. unfold validate_vmm_address. rewrite Hi. do 2 f_equal.
    rewrite <-(Hpte a virt Hact). unfold pte. cbn [path reach]. rewrite Hnew, (Hold a _ _ Hact) by done.
    by rewrite (proj2 (Z.ltb_ge _ _)) by done.
  - intros root' virt' Hr'. apply pte_same_translation; [done|]. by apply Hpte.
  - done.
  - done.
Qed.

(** The canonical check only looks at bits 48 to 63: the first address of the
    hole between the halves passes it, and selects the same entries as the
    first address of the kernel half. *)
Lemma canonical_check_accepts_hole :
  is_canonical 0x0000800000000000 = true ∧
  path 0x0000800000000000 = path 0xffff800000000000 ∧
  pt_index 0x0000800000000000 = pt_index 0xffff800000000000.
Proof. by vm_compute. Qed.

(** ** Witnesses *)

(** Eight free pages, an empty active root at 1 MiB. *)
Definition demo_vm : kernel :=
  set_pmm demo_pmm (set_vmm (mk_vmm 1048576 1048576 0xffff800000000000 true ∅) boot_kernel).
Definition demo_labels : gmap Z label := {[1048576 := (1048576, [])]}.

Lemma demo_vm_typed : pt_typed demo_vm demo_labels.
Proof.
  assert (page_stack (k_pmm demo_vm) = [32768; 28672; 24576; 20480; 16384; 12288; 8192; 4096]) as Hst
    by (vm_compute; reflexivity).
  assert (∀ p, p ∈ page_stack (k_pmm demo_vm) → 0 < p < 40000) as Hrange.
  { rewrite Hst. intros p Hp. repeat (apply elem_of_cons in Hp as [->|Hp]; [lia|]).
    by apply elem_of_nil in Hp. }
  unfold demo_labels. split; [exact demo_pmm_wf|done| | | | |].
  - intros p l [<- <-]%lookup_singleton_Some. split; [done|]. split; [done|].
    intros Hp%Hrange. lia.
  - intros p o [<- [= <-]]%lookup_singleton_Some. done.
  - intros p l i q _ _ _ H. assert (load64 demo_vm (p + 8 * i) = 0) as E by done.
    rewrite E in H. done.
  - apply lookup_singleton_Some. done.
  - intros H%Hrange. lia.
Qed.

Definition demo_mapped : kernel :=
  (scdk_vmm_map_page_in_root 1048576 4194304 69632 3 demo_vm).2.

Lemma demo_map_runs :
  scdk_vmm_map_page_in_root 1048576 4194304 69632 3 demo_vm = (Ok tt, demo_mapped).
Proof. apply run_to; [reflexivity|]. vm_compute. reflexivity. Qed.

Lemma demo_root : demo_labels !! 1048576 = Some (1048576, []).
Proof. by apply lookup_singleton_Some. Qed.

Lemma vmm_map_page_exact_witness :
  scdk_vmm_virt_to_phys_in_root demo_mapped 1048576 (4194304 + 5) = Ok (69632 + 5, 3).
Proof.
  assert (u64 4194304 ∧ 0 <= 69632 < phys_limit ∧ u64 3 ∧ 0 <= 5 < 4096) as (H1 & H2 & H3 & H4)
    by (unfold u64, two64, phys_limit; lia).
  destruct (vmm_map_page_exact demo_vm demo_mapped demo_labels 1048576 4194304 69632 3
    demo_vm_typed demo_root H1 H2 H3 demo_map_runs) as [H _].
  exact (H 5 H4).
Defined.

(** Mapping an unaligned address. *)
Lemma vmm_map_page_failure_witness :
  ∃ L', demo_labels ⊆ L' ∧ pt_typed (scdk_vmm_map_page_in_root 1048576 4194305 69632 3 demo_vm).2 L'.
Proof.
  assert (scdk_vmm_map_page_in_root 1048576 4194305 69632 3 demo_vm =
    (Err SCDK_ERR_INVAL, (scdk_vmm_map_page_in_root 1048576 4194305 69632 3 demo_vm).2)) as Hrun.
  { apply run_to; [reflexivity|]. vm_compute. reflexivity. }
  destruct (vmm_map_page_failure _ _ _ _ _ _ _ _ demo_vm_typed demo_root Hrun) as [H|(_ & _ & H)];
    [discriminate|exact H].
Defined.

Lemma vmm_unmap_page_exact_witness :
  ∃ k', scdk_vmm_unmap_page_in_root 1048576 4194304 demo_mapped = (Ok tt, k') ∧
        (∀ t, scdk_vmm_virt_to_phys_in_root k' 1048576 4194304 ≠ Ok t).
Proof.
  assert (u64 4194304) as Hu by (unfold u64, two64; lia).
  destruct (map_page_cases _ _ _ _ _ _ _ _ demo_vm_typed demo_root demo_map_runs)
    as (k1 & L1 & HG & [(_ & e & ?)|(pt & _ & _ & _ & _ & Hw & _ & Hk)]); [discriminate|].
  assert (L1 !! 1048576 = Some (1048576, [])) as Hr1 by (exact (lookup_weaken _ _ _ _ demo_root (tg_labels _ _ _ _ HG))).
  destruct (store_leaf k1 L1 1048576 4194304 pt (Z.lor (Z.land 69632 X86_PTE_ADDR) (leaf_flags 3))
    (tg_typed _ _ _ _ HG) Hr1 Hw) as (HT' & _).
  rewrite <-Hk in HT'.
  assert (scdk_vmm_unmap_page_in_root 1048576 4194304 demo_mapped =
    (Ok tt, (scdk_vmm_unmap_page_in_root 1048576 4194304 demo_mapped).2)) as Hrun.
  { apply run_to; [reflexivity|]. vm_compute. reflexivity. }
  eexists. split; [exact Hrun|].
  destruct (vmm_unmap_page_exact _ _ L1 1048576 4194304 HT' Hr1 Hu Hrun) as (_ & H & _). exact H.
Defined.

Lemma vmm_create_root_exact_witness :
  pt_typed (scdk_vmm_create_root demo_vm).2 (<[32768:=(32768, [])]> demo_labels).
Proof.
  assert (scdk_vmm_create_root demo_vm = (Ok 32768, (scdk_vmm_create_root demo_vm).2)) as Hrun.
  { apply run_to; [reflexivity|]. vm_compute. reflexivity. }
  destruct (vmm_create_root_exact _ _ _ _ demo_vm_typed Hrun) as (_ & _ & _ & _ & H). exact H.
Defined.
