(* ===== verification/Heap.v ===== *)
(** * Kernel heap ([src/mm/heap.c])

    The block headers are kept by address in [heap_blocks]; the payload bytes
    between them are not modelled.  The committed pages are mapped through the
    page tables of [Vmm]. *)
From stdpp Require Import base gmap list numbers relations.
From Stdlib Require Import ZArith Lia.
From S2P Require Import Prelude.
From S2P Require Import Kernel.
From S2P Require Import Pmm.
From S2P Require Import Vmm.
#[local] Open Scope Z_scope.

Definition SCDK_HEAP_BASE : Z := 0xffffffffd0000000.
Definition SCDK_HEAP_SIZE : Z := 4194304.
Definition SCDK_HEAP_ALIGN : Z := 16.
Definition SCDK_HEAP_MAGIC : Z := 0x5343444b48454150.
Definition SCDK_HEAP_MIN_SPLIT : Z := 16.
Definition SCDK_HEAP_INITIAL_PAGES : Z := 4.

(** ** Sizes *)
Definition align_up_size (value alignment : Z) : Z :=
  Z.land (wrap64 (wrap64 (value + alignment) - 1)) (not64 (alignment - 1)).

(** [sizeof(struct scdk_heap_block)] is 40. *)
Definition heap_header_size : Z := align_up_size 40 SCDK_HEAP_ALIGN.

(** [None] when the sum does not fit in 64 bits. *)
Definition checked_add_size (a b : Z) : option Z :=
  if two64 - 1 - b <? a then None else Some (a + b).
Definition checked_add_uintptr (a b : Z) : option Z :=
  if two64 - 1 - b <? a then None else Some (a + b).

Definition ptr_in_heap (k : kernel) (ptr : Z) : bool :=
  (SCDK_HEAP_BASE <=? ptr) && (ptr <? heap_commit_end (k_heap k)).

Definition block_payload (block : Z) : Z := wrap64 (block + heap_header_size).
Definition payload_block (ptr : Z) : Z := wrap64 (ptr - heap_header_size).

(** ** The block list *)
Definition set_blocks (m : gmap Z scdk_heap_block) (k : kernel) : kernel :=
  set_heap (mk_heap m (heap_head (k_heap k)) (heap_tail (k_heap k)) (heap_commit_end (k_heap k))
              (heap_initialized (k_heap k))) k.
Definition set_head (a : Z) (k : kernel) : kernel :=
  set_heap (mk_heap (heap_blocks (k_heap k)) a (heap_tail (k_heap k)) (heap_commit_end (k_heap k))
              (heap_initialized (k_heap k))) k.
Definition set_tail (a : Z) (k : kernel) : kernel :=
  set_heap (mk_heap (heap_blocks (k_heap k)) (heap_head (k_heap k)) a (heap_commit_end (k_heap k))
              (heap_initialized (k_heap k))) k.
Definition set_commit_end (a : Z) (k : kernel) : kernel :=
  set_heap (mk_heap (heap_blocks (k_heap k)) (heap_head (k_heap k)) (heap_tail (k_heap k)) a
              (heap_initialized (k_heap k))) k.
Definition set_heap_ready (k : kernel) : kernel :=
  set_heap (mk_heap (heap_blocks (k_heap k)) (heap_head (k_heap k)) (heap_tail (k_heap k))
              (heap_commit_end (k_heap k)) true) k.

Definition get_block (a : Z) : K scdk_heap_block :=
  query (λ k, deref (heap_blocks (k_heap k) !! a)).
Definition put_block (a : Z) (b : scdk_heap_block) : K unit :=
  modify (λ k, set_blocks (<[a:=b]> (heap_blocks (k_heap k))) k).

Definition with_size (b : scdk_heap_block) (size : Z) : scdk_heap_block :=
  mk_heap_block (hb_magic b) size (hb_free b) (hb_prev b) (hb_next b).
Definition with_free (b : scdk_heap_block) (f : bool) : scdk_heap_block :=
  mk_heap_block (hb_magic b) (hb_size b) f (hb_prev b) (hb_next b).
Definition with_prev (b : scdk_heap_block) (p : Z) : scdk_heap_block :=
  mk_heap_block (hb_magic b) (hb_size b) (hb_free b) p (hb_next b).
Definition with_next (b : scdk_heap_block) (n : Z) : scdk_heap_block :=
  mk_heap_block (hb_magic b) (hb_size b) (hb_free b) (hb_prev b) n.

(** [p->field = v], a read and a write of the header at [p]. *)
Definition update_block (a : Z) (f : scdk_heap_block → scdk_heap_block) : K unit :=
  let* b := get_block a in put_block a (f b).

Definition block_insert_tail (block : Z) : K unit :=
  let* tail := gets (λ k, heap_tail (k_heap k)) in
  update_block block (λ b, with_prev b tail) ;;
  update_block block (λ b, with_next b 0) ;;
  (if negb (tail =? 0) then update_block tail (λ b, with_next b block)
   else modify (set_head block)) ;;
  modify (set_tail block).

Definition block_remove (block : Z) : K unit :=
  let* b := get_block block in
  (if negb (hb_prev b =? 0) then update_block (hb_prev b) (λ p, with_next p (hb_next b))
   else modify (set_head (hb_next b))) ;;
  (if negb (hb_next b =? 0) then update_block (hb_next b) (λ n, with_prev n (hb_prev b))
   else modify (set_tail (hb_prev b))).

Definition block_coalesce_forward (block : Z) : K unit :=
  let* b := get_block block in
  let next := hb_next b in
  let block_end := wrap64 (wrap64 (block + heap_header_size) + hb_size b) in
  if next =? 0 then ret tt
  else
    let* n := get_block next in
    if negb (hb_free n) || negb (next =? block_end) then ret tt
    else
      update_block block (λ b, with_size b (wrap64 (hb_size b + wrap64 (heap_header_size + hb_size n)))) ;;
      block_remove next.

Definition block_split (block requested : Z) : K unit :=
  let header := heap_header_size in
  let* b := get_block block in
  if hb_size b <? wrap64 (wrap64 (requested + header) + SCDK_HEAP_MIN_SPLIT) then ret tt
  else
    let new_block := wrap64 (wrap64 (block + header) + requested) in
    put_block new_block
      (mk_heap_block SCDK_HEAP_MAGIC (wrap64 (wrap64 (hb_size b - requested) - header)) true block
         (hb_next b)) ;;
    (if negb (hb_next b =? 0) then update_block (hb_next b) (λ n, with_prev n new_block)
     else modify (set_tail new_block)) ;;
    update_block block (λ b, with_next b new_block) ;;
    update_block block (λ b, with_size b requested).

(** [for (block = heap_head; block != 0; block = block->next)]: at most one
    visit per header. *)
Fixpoint find_free_loop (fuel : nat) (k : kernel) (block size : Z) : result Z :=
  match fuel with
  | O => Ub
  | S fuel =>
      if block =? 0 then Ok 0
      else
        let? b := deref (heap_blocks (k_heap k) !! block) in
        if hb_free b && (size <=? hb_size b) then Ok block
        else find_free_loop fuel k (hb_next b) size
  end.
Definition find_free_block (k : kernel) (size : Z) : result Z :=
  find_free_loop (S (base.size (heap_blocks (k_heap k)))) k (heap_head (k_heap k)) size.

(** ** Committing pages *)

(** [while (mapped > 0)]: undo the [n] pages mapped so far. *)
Fixpoint unmap_heap_pages (n : nat) (base : Z) : K unit :=
  match n with
  | O => ret tt
  | S n =>
      let virt := wrap64 (base + SCDK_PAGE_SIZE * Z.of_nat n) in
      let* t := attempt (query (λ k, scdk_vmm_virt_to_phys k virt)) in
      match t with
      | Ok (mapped_phys, _) =>
          attempt (scdk_vmm_unmap_page virt) ;;
          attempt (kpage_free mapped_phys) ;;
          unmap_heap_pages n base
      | _ => unmap_heap_pages n base
      end
  end.

(** [while (mapped < length)], [n] pages to go and [mapped] pages done. *)
Fixpoint map_heap_loop (n mapped : nat) (base : Z) : K unit :=
  match n with
  | O => ret tt
  | S n =>
      let* phys := kpage_alloc in
      let* status := attempt (scdk_vmm_map_page (wrap64 (base + SCDK_PAGE_SIZE * Z.of_nat mapped)) phys
                                SCDK_VMM_MAP_WRITE) in
      match status with
      | Ok _ => map_heap_loop n (S mapped) base
      | _ =>
          attempt (kpage_free phys) ;;
          unmap_heap_pages mapped base ;;
          lift status
      end
  end.

Definition map_heap_pages (base length : Z) : K unit :=
  map_heap_loop (Z.to_nat ((length + SCDK_PAGE_SIZE - 1) / SCDK_PAGE_SIZE)) 0 base.

Definition heap_extend (min_payload : Z) : K unit :=
  let header := heap_header_size in
  match checked_add_size header min_payload with
  | None => fail SCDK_ERR_NOMEM
  | Some needed =>
      let commit_size := align_up_size needed SCDK_PAGE_SIZE in
      let commit_size := if commit_size <? SCDK_HEAP_INITIAL_PAGES * SCDK_PAGE_SIZE
                         then SCDK_HEAP_INITIAL_PAGES * SCDK_PAGE_SIZE else commit_size in
      let* commit_end := gets (λ k, heap_commit_end (k_heap k)) in
      match checked_add_uintptr commit_end commit_size with
      | None => fail SCDK_ERR_NOMEM
      | Some new_end =>
          guard (SCDK_HEAP_BASE + SCDK_HEAP_SIZE <? new_end) SCDK_ERR_NOMEM ;;
          map_heap_pages commit_end commit_size ;;
          let block := commit_end in
          put_block block (mk_heap_block SCDK_HEAP_MAGIC (wrap64 (commit_size - header)) true 0 0) ;;
          block_insert_tail block ;;
          modify (set_commit_end new_end) ;;
          let* b := get_block block in
          if negb (hb_prev b =? 0) then
            let* p := get_block (hb_prev b) in
            if hb_free p then block_coalesce_forward (hb_prev b) else ret tt
          else ret tt
      end
  end.

(** ** Interface *)
Definition scdk_heap_init : K unit :=
  let* ready := gets (λ k, heap_initialized (k_heap k)) in
  guard ready SCDK_ERR_BUSY ;;
  modify (set_head 0) ;;
  modify (set_tail 0) ;;
  modify (set_commit_end SCDK_HEAP_BASE) ;;
  heap_extend 0 ;;
  modify set_heap_ready.

(** The pointer, 0 when there is none. *)
Definition scdk_kalloc (size : Z) : K Z :=
  let header := heap_header_size in
  let* ready := gets (λ k, heap_initialized (k_heap k)) in
  if negb ready || (size =? 0) then ret 0
  else if SCDK_HEAP_SIZE - header <? size then ret 0
  else
    let requested := align_up_size size SCDK_HEAP_ALIGN in
    if (requested <? size) || (SCDK_HEAP_SIZE - header <? requested) then ret 0
    else
      let take block :=
        block_split block requested ;;
        update_block block (λ b, with_free b false) ;;
        ret (block_payload block) in
      let* block := query (λ k, find_free_block k requested) in
      if negb (block =? 0) then take block
      else
        let* status := attempt (heap_extend requested) in
        match status with
        | Ok _ =>
            let* block := query (λ k, find_free_block k requested) in
            if block =? 0 then ret 0 else take block
        | _ => ret 0
        end.

(** The struct put in the storage is a record of its own, built whole by the caller,
    so zeroing the payload leaves no trace. *)
Definition scdk_kzalloc (size : Z) : K Z := scdk_kalloc size.

Definition scdk_kfree (ptr : Z) : K unit :=
  let* ready := gets (λ k, heap_initialized (k_heap k)) in
  let* inside := gets (λ k, ptr_in_heap k ptr) in
  if (ptr =? 0) || negb ready || negb inside then ret tt
  else
    let block := payload_block ptr in
    let* inside := gets (λ k, ptr_in_heap k block) in
    if negb inside then ret tt
    else
      let* b := get_block block in
      if negb (hb_magic b =? SCDK_HEAP_MAGIC) || hb_free b then ret tt
      else
        update_block block (λ b, with_free b true) ;;
        block_coalesce_forward block ;;
        let* b := get_block block in
        if negb (hb_prev b =? 0) then
          let* p := get_block (hb_prev b) in
          if hb_free p then block_coalesce_forward (hb_prev b) else ret tt
        else ret tt.

Definition scdk_alloc_object_storage (object_type size : Z) : K Z :=
  if (object_type =? SCDK_OBJ_NONE) || (size =? 0) then ret 0 else scdk_kzalloc size.

(** ** The heap as a list of sizes

    The blocks tile the committed range: block [i] starts where block [i - 1]
    ends.  A heap is thus described by the sizes and free flags of its blocks
    in address order. *)
Abbreviation blocks := (list (Z * bool)).

Fixpoint seg_end (a : Z) (hs : blocks) : Z :=
  match hs with
  | [] => a
  | b :: hs => seg_end (a + 48 + b.1) hs
  end.

(** The address of the last block, [prev] when there is none. *)
Fixpoint last_addr (prev a : Z) (hs : blocks) : Z :=
  match hs with
  | [] => prev
  | b :: hs => last_addr a (a + 48 + b.1) hs
  end.

(** [m] holds the headers of [hs] from address [a] on, linked both ways; the
    first one points back to [prev], the last one on to [next]. *)
Fixpoint chain (m : gmap Z scdk_heap_block) (prev a : Z) (hs : blocks) (next : Z) : Prop :=
  match hs with
  | [] => True
  | b :: hs =>
      m !! a = Some (mk_heap_block SCDK_HEAP_MAGIC b.1 b.2 prev
                       (match hs with [] => next | _ => a + 48 + b.1 end)) ∧
      chain m a (a + 48 + b.1) hs next
  end.

Definition sizes_ok (hs : blocks) : Prop := Forall (λ b, 0 < b.1 ∧ b.1 mod 16 = 0) hs.

Section chains.
Implicit Types (m : gmap Z scdk_heap_block) (hs : blocks) (a prev next : Z).

Lemma seg_end_app a h1 h2 : seg_end a (h1 ++ h2) = seg_end (seg_end a h1) h2.
Proof. revert a. induction h1 as [|b h1 IH]; intros a; simpl; [done|apply IH]. Qed.

Lemma last_addr_app p a h1 h2 :
  last_addr p a (h1 ++ h2) = last_addr (last_addr p a h1) (seg_end a h1) h2.
Proof. revert p a. induction h1 as [|b h1 IH]; intros p a; simpl; [done|apply IH]. Qed.

Lemma seg_end_ge a hs : sizes_ok hs → a <= seg_end a hs.
Proof.
  intros H. revert a. induction H as [|b hs [Hb _] _ IH]; intros a; simpl; [lia|].
  specialize (IH (a + 48 + b.1)). lia.
Qed.

(** Where [h1] ends, [h2] begins. *)
Definition next_of (a : Z) (h2 : blocks) (next : Z) : Z :=
  match h2 with [] => next | _ => a end.

Lemma chain_app m p a h1 h2 n :
  chain m p a (h1 ++ h2) n ↔
  chain m p a h1 (next_of (seg_end a h1) h2 n) ∧ chain m (last_addr p a h1) (seg_end a h1) h2 n.
Proof.
  revert p a. induction h1 as [|b h1 IH]; intros p a; simpl; [tauto|].
  rewrite IH. destruct h1 as [|b' h1]; simpl; [|tauto]. destruct h2; simpl; tauto.
Qed.

(** Headers elsewhere do not matter. *)
Lemma chain_agree m m' p a hs n :
  sizes_ok hs → (∀ x, a <= x < seg_end a hs → m' !! x = m !! x) → chain m p a hs n → chain m' p a hs n.
Proof.
  intros Hs. revert p a. induction Hs as [|b hs [Hb Hb'] Hs IH]; intros p a Hag; simpl in *; [done|].
  pose proof (seg_end_ge (a + 48 + b.1) hs Hs). intros [Ha Hc]. split.
  - rewrite Hag by lia. done.
  - apply IH; [|done]. intros x Hx. apply Hag. lia.
Qed.

Lemma chain_insert_out m p a hs n x b :
  sizes_ok hs → x < a ∨ seg_end a hs <= x → chain m p a hs n → chain (<[x:=b]> m) p a hs n.
Proof.
  intros Hs Hx. apply chain_agree; [done|]. intros y Hy. apply lookup_insert_ne. lia.
Qed.

(** Relinking the front. *)
Lemma chain_set_prev m p p' a b hs n :
  sizes_ok (b :: hs) → chain m p a (b :: hs) n →
  ∃ h, m !! a = Some h ∧ chain (<[a:=with_prev h p']> m) p' a (b :: hs) n.
Proof.
  intros Hs [Ha Hc]. eexists. split; [exact Ha|]. apply Forall_cons in Hs as [[Hb _] Hs]. split.
  - by rewrite lookup_insert_eq.
  - apply chain_insert_out; [done|lia|done].
Qed.

(** Relinking the back. *)
Lemma chain_set_next m p a hs b n n' :
  sizes_ok (hs ++ [b]) → chain m p a (hs ++ [b]) n →
  ∃ h, m !! seg_end a hs = Some h ∧ chain (<[seg_end a hs:=with_next h n']> m) p a (hs ++ [b]) n'.
Proof.
  intros Hs [H1 [H2 _]]%chain_app. apply Forall_app in Hs as [Hs1 Hs2].
  eexists. split; [exact H2|]. apply chain_app. simpl. split.
  - apply chain_insert_out; [done|right; lia|]. done.
  - split; [by rewrite lookup_insert_eq|done].
Qed.

Lemma last_addr_snoc p a hs b : last_addr p a (hs ++ [b]) = seg_end a hs.
Proof. by rewrite last_addr_app. Qed.

(** The addresses of the blocks. *)
Fixpoint addrs (a : Z) (hs : blocks) : list Z :=
  match hs with
  | [] => []
  | b :: hs => a :: addrs (a + 48 + b.1) hs
  end.

Lemma addrs_range a hs x : sizes_ok hs → x ∈ addrs a hs → a <= x < seg_end a hs.
Proof.
  intros Hs. revert a. induction Hs as [|b hs [Hb _] Hs IH]; intros a; simpl; [by intros ?%elem_of_nil|].
  pose proof (seg_end_ge (a + 48 + b.1) hs Hs). intros [->|Hx]%elem_of_cons; [lia|].
  apply IH in Hx. lia.
Qed.

Lemma chain_length m p a hs n : sizes_ok hs → chain m p a hs n → (length hs ≤ size m)%nat.
Proof.
  intros Hs Hc. assert (NoDup (addrs a hs)) as Hnd.
  { clear Hc. revert a. induction Hs as [|b hs [Hb _] Hs IH]; intros a; simpl; [apply NoDup_nil_2|].
    constructor; [|apply IH]. intros Hx%addrs_range; [lia|done]. }
  assert (∀ x, x ∈ addrs a hs → x ∈ dom m) as Hdom.
  { clear Hnd Hs. revert p a Hc. induction hs as [|b hs IH]; intros p a Hc x; simpl in *.
    - by intros ?%elem_of_nil.
    - destruct Hc as [Ha Hc]. intros [->|Hx]%elem_of_cons; [by apply elem_of_dom_2 in Ha|by eapply IH]. }
  replace (length hs) with (length (addrs a hs)).
  - rewrite <-size_dom. rewrite <-(size_list_to_set (C:=gset Z) (addrs a hs)) by done.
    apply subseteq_size. intros x. rewrite elem_of_list_to_set. apply Hdom.
  - clear. revert a. induction hs as [|b hs IH]; intros a; simpl; [done|]. by rewrite IH.
Qed.
End chains.

(** ** List operations on described heaps *)
Record heap_list (h : heap) (hs : blocks) : Prop := {
  hl_chain : chain (heap_blocks h) 0 SCDK_HEAP_BASE hs 0;
  hl_head : heap_head h = next_of SCDK_HEAP_BASE hs 0;
  hl_tail : heap_tail h = last_addr 0 SCDK_HEAP_BASE hs;
  hl_sizes : sizes_ok hs;
  hl_end : seg_end SCDK_HEAP_BASE hs <= SCDK_HEAP_BASE + SCDK_HEAP_SIZE
}.

(** [k'] differs from [k] in the block list only, which is now [hs]. *)
Definition relisted (k k' : kernel) (hs : blocks) : Prop :=
  heap_list (k_heap k') hs ∧ k' = set_heap (k_heap k') k ∧
  heap_commit_end (k_heap k') = heap_commit_end (k_heap k) ∧
  heap_initialized (k_heap k') = heap_initialized (k_heap k).

Section heap_ops.
Implicit Types (k : kernel) (hs : blocks) (m : gmap Z scdk_heap_block).

Lemma relisted_trans k1 k2 k3 hs2 hs3 : relisted k1 k2 hs2 → relisted k2 k3 hs3 → relisted k1 k3 hs3.
Proof.
  intros (_ & E1 & C1 & I1) (H & E2 & C2 & I2). split; [done|]. rewrite C2, I2. split; [|done].
  rewrite E2, E1. done.
Qed.

Lemma header_48 : heap_header_size = 48.
Proof. reflexivity. Qed.

Lemma wrap_addr x : SCDK_HEAP_BASE <= x <= SCDK_HEAP_BASE + SCDK_HEAP_SIZE → wrap64 x = x.
Proof.
  intros Hx. apply Z.mod_small. unfold SCDK_HEAP_BASE, SCDK_HEAP_SIZE, two64 in *. lia.
Qed.

Lemma wrap_size x : 0 <= x <= 2 * SCDK_HEAP_SIZE → wrap64 x = x.
Proof. intros Hx. apply Z.mod_small. unfold SCDK_HEAP_SIZE, two64 in *. lia. Qed.

Lemma update_block_run a f k b :
  heap_blocks (k_heap k) !! a = Some b →
  update_block a f k = (Ok tt, set_blocks (<[a:=f b]> (heap_blocks (k_heap k))) k).
Proof. intros H. unfold update_block, bind, get_block, query. by rewrite H. Qed.

Lemma get_block_run a k b :
  heap_blocks (k_heap k) !! a = Some b → get_block a k = (Ok b, k).
Proof. intros H. unfold get_block, query. by rewrite H. Qed.

(** A block in the middle: its address, header and bounds. *)
Lemma mid_block h h1 s f h2 :
  heap_list h (h1 ++ (s, f) :: h2) →
  let x := seg_end SCDK_HEAP_BASE h1 in
  let e := x + 48 + s in
  heap_blocks h !! x = Some (mk_heap_block SCDK_HEAP_MAGIC s f (last_addr 0 SCDK_HEAP_BASE h1)
                               (next_of e h2 0)) ∧
  SCDK_HEAP_BASE <= x ∧ 0 < s ∧ s mod 16 = 0 ∧ e <= seg_end e h2 <= SCDK_HEAP_BASE + SCDK_HEAP_SIZE ∧
  sizes_ok h1 ∧ sizes_ok h2.
Proof.
  intros [[_ [Hx _]]%chain_app _ _ Hs He] x e.
  apply Forall_app in Hs as [Hs1 [[Hs Hs'] Hs2]%Forall_cons]. rewrite seg_end_app in He. simpl in *.
  pose proof (seg_end_ge SCDK_HEAP_BASE h1 Hs1). pose proof (seg_end_ge e h2 Hs2).
  split; [exact Hx|]. fold x e in He. split_and!; done || lia.
Qed.

(** Rebuilding a list around a replaced middle part. *)
Lemma rebuild m h1 mid h2 n :
  chain m 0 SCDK_HEAP_BASE h1 (next_of (seg_end SCDK_HEAP_BASE h1) (mid ++ h2) n) →
  chain m (last_addr 0 SCDK_HEAP_BASE h1) (seg_end SCDK_HEAP_BASE h1) mid
    (next_of (seg_end (seg_end SCDK_HEAP_BASE h1) mid) h2 n) →
  chain m (last_addr 0 SCDK_HEAP_BASE (h1 ++ mid)) (seg_end SCDK_HEAP_BASE (h1 ++ mid)) h2 n →
  chain m 0 SCDK_HEAP_BASE (h1 ++ mid ++ h2) n.
Proof.
  intros H1 H2 H3. apply chain_app. split; [done|]. apply chain_app. split; [done|].
  by rewrite last_addr_app, seg_end_app in H3.
Qed.

Lemma mid_chains h h1 mid h2 :
  heap_list h (h1 ++ mid ++ h2) →
  chain (heap_blocks h) 0 SCDK_HEAP_BASE h1 (next_of (seg_end SCDK_HEAP_BASE h1) (mid ++ h2) 0) ∧
  chain (heap_blocks h) (last_addr 0 SCDK_HEAP_BASE (h1 ++ mid)) (seg_end SCDK_HEAP_BASE (h1 ++ mid)) h2 0.
Proof.
  intros [[H1 [_ H2]%chain_app]%chain_app _ _ _ _]. split; [done|]. by rewrite last_addr_app, seg_end_app.
Qed.

(** Setting the free flag. *)
Lemma set_free_list k h1 s f f' h2 :
  heap_list (k_heap k) (h1 ++ (s, f) :: h2) →
  ∃ k', update_block (seg_end SCDK_HEAP_BASE h1) (λ b, with_free b f') k = (Ok tt, k') ∧
    relisted k k' (h1 ++ (s, f') :: h2).
Proof.
  intros H. destruct (mid_block _ _ _ _ _ H) as (Hx & Hb & Hs & Hs' & He & Hs1 & Hs2).
  eexists. split; [by apply update_block_run|].
  destruct (mid_chains _ h1 [(s, f)] h2 H) as [C1 C2]. rewrite seg_end_app, last_addr_app in C2.
  split; [|done]. pose proof H as [_ Hh Ht Hsz Hend]. split; simpl.
  - apply (rebuild _ h1 [(s, f')] h2).
    + apply chain_insert_out; [done|lia|exact C1].
    + split; [|done]. by rewrite lookup_insert_eq.
    + rewrite seg_end_app, last_addr_app. apply chain_insert_out; [done|simpl; lia|exact C2].
  - rewrite Hh. by destruct h1.
  - rewrite Ht, !last_addr_app. done.
  - apply Forall_app in Hsz as [? [? ?]%Forall_cons]. apply Forall_app. split; [done|]. by constructor.
  - rewrite seg_end_app in *. done.
Qed.
End heap_ops.

Section heap_edits.
Implicit Types (k : kernel) (hs : blocks) (m : gmap Z scdk_heap_block).

Definition heap_with (m : gmap Z scdk_heap_block) (tail : Z) (k : kernel) : kernel :=
  set_heap (mk_heap m (heap_head (k_heap k)) tail (heap_commit_end (k_heap k))
              (heap_initialized (k_heap k))) k.

(** The blocks from [e] on get a new predecessor [p]. *)
Lemma relink_after k e h2 q p :
  chain (heap_blocks (k_heap k)) q e h2 0 → sizes_ok h2 → e ≠ 0 →
  ∃ m', (if negb (next_of e h2 0 =? 0) then update_block (next_of e h2 0) (λ n, with_prev n p)
         else modify (set_tail p)) k
        = (Ok tt, heap_with m' (match h2 with [] => p | _ => heap_tail (k_heap k) end) k) ∧
    chain m' p e h2 0 ∧ (∀ x, x < e → m' !! x = heap_blocks (k_heap k) !! x).
Proof.
  intros Hc Hs He. destruct h2 as [|b h2]; simpl next_of.
  - exists (heap_blocks (k_heap k)). done.
  - rewrite (proj2 (Z.eqb_neq _ _)) by done. simpl negb. cbv iota.
    destruct (chain_set_prev _ _ p _ _ _ _ Hs Hc) as (h & Hh & Hc').
    exists (<[e:=with_prev h p]> (heap_blocks (k_heap k))).
    split; [exact (update_block_run e _ k h Hh)|]. split; [exact Hc'|].
    intros x Hx. apply lookup_insert_ne. lia.
Qed.

Lemma block_split_small k h1 s f h2 req :
  heap_list (k_heap k) (h1 ++ (s, f) :: h2) → 0 <= req <= SCDK_HEAP_SIZE → s < req + 64 →
  block_split (seg_end SCDK_HEAP_BASE h1) req k = (Ok tt, k).
Proof.
  intros H Hr Hs. destruct (mid_block _ _ _ _ _ H) as (Hx & _).
  unfold block_split. rewrite (bind_Ok _ _ _ _ _ (get_block_run _ _ _ Hx)). rewrite header_48.
  unfold SCDK_HEAP_MIN_SPLIT. rewrite (wrap_size (req + 48)) by (unfold SCDK_HEAP_SIZE in *; lia).
  rewrite (wrap_size (req + 48 + 16)) by (unfold SCDK_HEAP_SIZE in *; lia).
  cbn [hb_size]. by rewrite (proj2 (Z.ltb_lt s (req + 48 + 16))) by lia.
Qed.

Lemma block_split_list k h1 s f h2 req :
  heap_list (k_heap k) (h1 ++ (s, f) :: h2) → 0 < req → req mod 16 = 0 → req + 64 <= s →
  ∃ k', block_split (seg_end SCDK_HEAP_BASE h1) req k = (Ok tt, k') ∧
    relisted k k' (h1 ++ (req, f) :: (s - req - 48, true) :: h2).
Proof.
  intros H Hr Hr16 Hs. destruct (mid_block _ _ _ _ _ H) as (Hx & Hb & Hs0 & Hs16 & He & Hs1 & Hs2).
  set (x := seg_end SCDK_HEAP_BASE h1) in *. set (e := x + 48 + s) in *.
  assert (s <= SCDK_HEAP_SIZE) as Hsz by (unfold SCDK_HEAP_BASE, SCDK_HEAP_SIZE in *; lia).
  set (nb := x + 48 + req). set (m := heap_blocks (k_heap k)) in *.
  set (bnew := mk_heap_block SCDK_HEAP_MAGIC (s - req - 48) true x (next_of e h2 0)).
  destruct (mid_chains _ h1 [(s, f)] h2 H) as [C1 C2].
  rewrite seg_end_app, last_addr_app in C2. simpl in C2. fold x e m in C1, C2.
  set (k1 := set_blocks (<[nb:=bnew]> m) k).
  destruct (relink_after k1 e h2 x nb) as (m2 & Hrun2 & C2' & Hag2).
  { simpl. apply chain_insert_out; [done|left; unfold nb, e; lia|done]. }
  { done. }
  { unfold SCDK_HEAP_BASE in *. lia. }
  set (k2 := heap_with m2 _ k1) in Hrun2.
  assert (m2 !! x = Some (mk_heap_block SCDK_HEAP_MAGIC s f (last_addr 0 SCDK_HEAP_BASE h1) (next_of e h2 0))) as Hx2.
  { rewrite Hag2 by (unfold e; lia). simpl. by rewrite lookup_insert_ne by (unfold nb; lia). }
  assert (m2 !! nb = Some bnew) as Hnb2.
  { rewrite Hag2 by (unfold nb, e; lia). simpl. by rewrite lookup_insert_eq. }
  unfold block_split. rewrite (bind_Ok _ _ _ _ _ (get_block_run _ _ _ Hx)). rewrite header_48. cbn [hb_size].
  unfold SCDK_HEAP_MIN_SPLIT. rewrite (wrap_size (req + 48)) by (unfold SCDK_HEAP_SIZE in *; lia).
  rewrite (wrap_size (req + 48 + 16)) by (unfold SCDK_HEAP_SIZE in *; lia).
  rewrite (proj2 (Z.ltb_ge _ _)) by lia.
  rewrite (wrap_addr (x + 48)), (wrap_addr (x + 48 + req)) by lia.
  rewrite (wrap_size (s - req)), (wrap_size (s - req - 48)) by (unfold SCDK_HEAP_SIZE in *; lia).
  fold nb. simpl hb_next. fold bnew.
  rewrite (bind_Ok (put_block nb bnew) _ k tt k1) by done.
  rewrite (bind_Ok _ _ _ _ _ Hrun2). fold k2.
  rewrite (bind_Ok _ _ _ _ _ (update_block_run x _ k2 _ Hx2)).
  eexists. split; [apply update_block_run; simpl; by rewrite lookup_insert_eq|].
  simpl. rewrite insert_insert_eq. split; [|done]. pose proof H as [_ Hh Ht Hsz' Hend]. split; simpl.
  - apply (rebuild _ h1 [(req, f); (s - req - 48, true)] h2); fold x.
    + apply chain_insert_out; [done|right; unfold x; lia|].
      apply (chain_agree m); [done| |exact C1]. intros y Hy. fold x in Hy.
      rewrite Hag2 by (unfold e; lia). simpl. by rewrite lookup_insert_ne by (unfold nb; lia).
    + simpl. fold nb. split; [by rewrite lookup_insert_eq|]. split; [|done].
      rewrite lookup_insert_ne by (unfold nb; lia). rewrite Hnb2.
      replace (nb + 48 + (s - req - 48)) with e by (unfold nb, e; lia). done.
    + rewrite seg_end_app, last_addr_app. simpl. fold x nb.
      replace (nb + 48 + (s - req - 48)) with e by (unfold nb, e; lia).
      apply chain_insert_out; [done|left; unfold e; lia|exact C2'].
  - rewrite Hh. by destruct h1.
  - rewrite !last_addr_app in *. simpl in *. fold x nb in Ht |- *. fold e in Ht.
    replace (nb + 48 + (s - req - 48)) with e by (unfold nb, e; lia). destruct h2; [done|exact Ht].
  - apply Forall_app. split; [done|]. repeat constructor; simpl; try done; [lia|].
    Z.to_euclidean_division_equations; lia.
  - rewrite seg_end_app in *. simpl in *. fold x in Hend |- *.
    replace (x + 48 + req + 48 + (s - req - 48)) with (x + 48 + s) by lia. exact Hend.
Qed.

(** A block swallows the free block behind it. *)
Lemma coalesce_list k h1 s f s2 h3 :
  heap_list (k_heap k) (h1 ++ (s, f) :: (s2, true) :: h3) →
  ∃ k', block_coalesce_forward (seg_end SCDK_HEAP_BASE h1) k = (Ok tt, k') ∧
    relisted k k' (h1 ++ (s + 48 + s2, f) :: h3).
Proof.
  intros H. destruct (mid_block _ _ _ _ _ H) as (Hx & Hb & Hs0 & Hs16 & He & Hs1 & Hs2).
  assert (h1 ++ (s, f) :: (s2, true) :: h3 = (h1 ++ [(s, f)]) ++ (s2, true) :: h3) as Eq
    by (by rewrite <-app_assoc).
  pose proof H as H'. rewrite Eq in H'. destruct (mid_block _ _ _ _ _ H') as (Hn & _ & Hs2p & Hs2m & He2 & _ & Hs3).
  rewrite seg_end_app in Hn, He2. rewrite last_addr_app in Hn. simpl in Hn, He2, He, Hx.
  set (x := seg_end SCDK_HEAP_BASE h1) in *. set (n := x + 48 + s) in *. set (e := n + 48 + s2) in *.
  set (m := heap_blocks (k_heap k)) in *.
  assert (n ≠ 0 ∧ x ≠ 0 ∧ e ≠ 0) as (Hn0 & Hx0 & He0) by (unfold SCDK_HEAP_BASE in *; lia).
  assert (s <= SCDK_HEAP_SIZE ∧ s2 <= SCDK_HEAP_SIZE ∧ s + 48 + s2 <= SCDK_HEAP_SIZE) as (?&?&?)
    by (unfold SCDK_HEAP_BASE, SCDK_HEAP_SIZE in *; lia).
  destruct (mid_chains _ h1 [(s, f); (s2, true)] h3 H) as [C1 C3].
  rewrite seg_end_app, last_addr_app in C3. simpl in C3. fold x n e m in C1, C3.
  set (bx := mk_heap_block SCDK_HEAP_MAGIC (s + (48 + s2)) f (last_addr 0 SCDK_HEAP_BASE h1) n).
  set (k1 := set_blocks (<[x:=bx]> m) k).
  set (bx2 := with_next bx (next_of e h3 0)). set (k2 := set_blocks (<[x:=bx2]> m) k).
  destruct (relink_after k2 e h3 n x) as (m3 & Hrun3 & C3' & Hag3); [|done|done|].
  { simpl. apply chain_insert_out; [done|left; unfold e, n; lia|done]. }
  unfold block_coalesce_forward. rewrite (bind_Ok _ _ _ _ _ (get_block_run _ _ _ Hx)). rewrite header_48. simpl.
  rewrite (wrap_addr (x + 48)), (wrap_addr (x + 48 + s)) by lia. fold n.
  rewrite (proj2 (Z.eqb_neq n 0)) by done. rewrite (bind_Ok _ _ _ _ _ (get_block_run _ _ _ Hn)). simpl.
  rewrite Z.eqb_refl. simpl.
  rewrite (bind_Ok _ _ _ _ _ (update_block_run x _ k _ Hx)). simpl.
  rewrite (wrap_size (48 + s2)), (wrap_size (s + (48 + s2))) by (unfold SCDK_HEAP_SIZE in *; lia).
  unfold with_size. simpl. fold bx m. change (set_blocks (<[x:=bx]> m) k) with k1.
  assert (heap_blocks (k_heap k1) !! n = Some (mk_heap_block SCDK_HEAP_MAGIC s2 true x (next_of e h3 0))) as Hn1.
  { simpl. by rewrite lookup_insert_ne by (unfold n; lia). }
  assert (heap_blocks (k_heap k1) !! x = Some bx) as Hx1 by (simpl; by rewrite lookup_insert_eq).
  unfold block_remove. rewrite (bind_Ok _ _ _ _ _ (get_block_run _ _ _ Hn1)). simpl hb_prev. simpl hb_next.
  rewrite (proj2 (Z.eqb_neq x 0)) by done. simpl negb. cbv iota.
  rewrite (bind_Ok _ _ _ _ _ (update_block_run x _ k1 _ Hx1)). simpl heap_blocks. rewrite insert_insert_eq.
  fold bx2. change (set_blocks (<[x:=bx2]> m) k1) with k2.
  eexists. split; [exact Hrun3|]. split; [|done]. pose proof H as [_ Hh Ht Hsz' Hend]. split; simpl.
  - apply (rebuild _ h1 [(s + 48 + s2, f)] h3); fold x.
    + apply (chain_agree m); [done| |exact C1]. intros y Hy. fold x in Hy.
      rewrite Hag3 by (unfold e, n; lia). simpl. by rewrite lookup_insert_ne by lia.
    + simpl. split; [|done]. rewrite Hag3 by (unfold e, n; lia). simpl. rewrite lookup_insert_eq.
      unfold bx2, bx, with_next. simpl. replace (x + 48 + (s + 48 + s2)) with e by (unfold e, n; lia).
      by replace (s + (48 + s2)) with (s + 48 + s2) by lia.
    + rewrite seg_end_app, last_addr_app. simpl. fold x.
      replace (x + 48 + (s + 48 + s2)) with e by (unfold e, n; lia). exact C3'.
  - rewrite Hh. by destruct h1.
  - rewrite !last_addr_app in *. simpl in *. fold x in Ht |- *. fold n in Ht. fold e in Ht.
    replace (x + 48 + (s + 48 + s2)) with e by (unfold e, n; lia). destruct h3; [done|exact Ht].
  - apply Forall_app. split; [done|]. constructor; [|done]. simpl. split; [lia|].
    Z.to_euclidean_division_equations; lia.
  - rewrite seg_end_app in *. simpl in *. fold x in Hend |- *.
    replace (x + 48 + (s + 48 + s2)) with (x + 48 + s + 48 + s2) by lia. exact Hend.
Qed.

(** Nothing to swallow. *)
Lemma coalesce_none k h1 s f h2 :
  heap_list (k_heap k) (h1 ++ (s, f) :: h2) → (∀ s2 h3, h2 ≠ (s2, true) :: h3) →
  block_coalesce_forward (seg_end SCDK_HEAP_BASE h1) k = (Ok tt, k).
Proof.
  intros H Hno. destruct (mid_block _ _ _ _ _ H) as (Hx & Hb & Hs0 & Hs16 & He & Hs1 & Hs2).
  unfold block_coalesce_forward. rewrite (bind_Ok _ _ _ _ _ (get_block_run _ _ _ Hx)). simpl.
  destruct h2 as [|[s2 [|]] h3]; simpl; [done|by destruct (Hno s2 h3)|].
  assert (h1 ++ (s, f) :: (s2, false) :: h3 = (h1 ++ [(s, f)]) ++ (s2, false) :: h3) as Eq
    by (by rewrite <-app_assoc).
  rewrite Eq in H. destruct (mid_block _ _ _ _ _ H) as (Hn & _). rewrite seg_end_app in Hn. simpl in Hn.
  rewrite (proj2 (Z.eqb_neq _ 0)) by (unfold SCDK_HEAP_BASE in *; lia).
  by rewrite (bind_Ok _ _ _ _ _ (get_block_run _ _ _ Hn)).
Qed.
End heap_edits.

(** ** Allocations *)

(** The allocated payloads, address and size, in address order. *)
Fixpoint allocs (a : Z) (hs : blocks) : list (Z * Z) :=
  match hs with
  | [] => []
  | b :: hs => (if b.2 then [] else [(a + 48, b.1)]) ++ allocs (a + 48 + b.1) hs
  end.

(** No two neighbouring blocks are both free. *)
Definition first_free (hs : blocks) : bool := match hs with b :: _ => b.2 | [] => false end.
Definition last_free (hs : blocks) : bool := match last hs with Some b => b.2 | None => false end.
Fixpoint separated (hs : blocks) : Prop :=
  match hs with
  | [] => True
  | b :: hs => b.2 && first_free hs = false ∧ separated hs
  end.

Record heap_wf (k : kernel) (hs : blocks) : Prop := {
  hw_list : heap_list (k_heap k) hs;
  hw_commit : heap_commit_end (k_heap k) = seg_end SCDK_HEAP_BASE hs;
  hw_separated : separated hs
}.

Section allocations.
Implicit Types (k : kernel) (hs : blocks).

Lemma allocs_app a h1 h2 : allocs a (h1 ++ h2) = allocs a h1 ++ allocs (seg_end a h1) h2.
Proof. revert a. induction h1 as [|b h1 IH]; intros a; simpl; [done|]. by rewrite IH, app_assoc. Qed.

Lemma allocs_bounds a hs p s :
  sizes_ok hs → (p, s) ∈ allocs a hs → a + 48 <= p ∧ 0 < s ∧ p + s <= seg_end a hs.
Proof.
  intros Hs. revert a. induction Hs as [|b hs [Hb _] Hs IH]; intros a; simpl; [by intros ?%elem_of_nil|].
  pose proof (seg_end_ge (a + 48 + b.1) hs Hs). rewrite elem_of_app. intros [Hin|Hin].
  - destruct b.2; [by apply elem_of_nil in Hin|]. apply list_elem_of_singleton in Hin. simplify_eq. lia.
  - apply IH in Hin. lia.
Qed.

(** Distinct allocations do not overlap, headers included. *)
Lemma allocs_disjoint a hs i j p s q t :
  sizes_ok hs → allocs a hs !! i = Some (p, s) → allocs a hs !! j = Some (q, t) → (i < j)%nat →
  p + s + 48 <= q.
Proof.
  intros Hs. revert a i j. induction Hs as [|b hs [Hb _] Hs IH]; intros a i j; simpl; [done|].
  destruct b.2; simpl; [by apply IH|]. destruct i as [|i], j as [|j]; simpl; intros Hi Hj Hij; try lia.
  - simplify_eq. apply list_elem_of_lookup_2 in Hj.
    apply allocs_bounds in Hj; [|done]. lia.
  - eapply IH; [done|done|lia].
Qed.

Lemma allocs_aligned a hs p s :
  sizes_ok hs → a mod 16 = 0 → (p, s) ∈ allocs a hs → p mod 16 = 0.
Proof.
  intros Hs. revert a. induction Hs as [|b hs [Hb Hb'] Hs IH]; intros a Ha; simpl; [by intros ?%elem_of_nil|].
  rewrite elem_of_app. intros [Hin|Hin].
  - destruct b.2; [by apply elem_of_nil in Hin|]. apply list_elem_of_singleton in Hin. simplify_eq.
    Z.to_euclidean_division_equations; lia.
  - eapply IH; [|exact Hin]. Z.to_euclidean_division_equations; lia.
Qed.

(** ** Search *)
Lemma find_free_loop_spec k size : ∀ h2 fuel p a,
  chain (heap_blocks (k_heap k)) p a h2 0 → sizes_ok h2 → 0 < a → (length h2 < fuel)%nat →
  find_free_loop fuel k (next_of a h2 0) size =
  match find_slot (λ b, b.2 && (size <=? b.1)) h2 with
  | Some i => Ok (seg_end a (take i h2))
  | None => Ok 0
  end.
Proof.
  induction h2 as [|[s f] h2 IH]; intros fuel p a Hc Hs Ha Hf; (destruct fuel as [|fuel]; [simpl in Hf; lia|]).
  - done.
  - cbn [next_of find_free_loop]. rewrite (proj2 (Z.eqb_neq a 0)) by lia.
    destruct Hc as [Hx Hc]. rewrite Hx. cbn [deref rbind hb_free hb_size hb_next fst snd find_slot].
    destruct (f && (size <=? s)) eqn:Hfit; [done|].
    apply Forall_cons in Hs as [[Hs0 _] Hs]. cbn [fst] in Hs0.
    change (match h2 with [] => 0 | _ :: _ => a + 48 + s end) with (next_of (a + 48 + s) h2 0).
    rewrite (IH fuel a (a + 48 + s)); [|done|done|lia|simpl in Hf; lia].
    by destruct (find_slot _ h2).
Qed.

Lemma find_slot_split {A} (p : A → bool) (l : list A) i :
  find_slot p l = Some i → ∃ x, l = take i l ++ x :: drop (S i) l ∧ p x = true.
Proof.
  intros [(x & Hx & Hp) _]%find_slot_Some. exists x. split; [|done]. symmetry. by apply take_drop_middle.
Qed.

Lemma find_free_block_spec k hs size :
  heap_list (k_heap k) hs →
  (find_free_block k size = Ok 0 ∧ ∀ s, (s, true) ∈ hs → s < size) ∨
  ∃ h1 s h2, hs = h1 ++ (s, true) :: h2 ∧ size <= s ∧
    find_free_block k size = Ok (seg_end SCDK_HEAP_BASE h1).
Proof.
  intros [Hc Hh Ht Hs He]. unfold find_free_block. rewrite Hh.
  rewrite (find_free_loop_spec k size hs _ 0 SCDK_HEAP_BASE); [|done|done|done|].
  2: { pose proof (chain_length _ _ _ _ _ Hs Hc). lia. }
  destruct (find_slot _ hs) as [i|] eqn:Hf.
  - right. destruct (find_slot_split _ _ _ Hf) as ([s f] & Heq & Hp). simpl in Hp. bsplit.
    destruct f; [|done]. by exists (take i hs), s, (drop (S i) hs).
  - left. split; [done|]. intros s Hin. rewrite find_slot_None in Hf.
    apply list_elem_of_lookup in Hin as [j Hj]. specialize (Hf j _ Hj). simpl in Hf. bsplit. lia.
Qed.
End allocations.

Section free_alloc.
Implicit Types (k : kernel) (hs : blocks).

Lemma separated_app h1 h2 :
  separated (h1 ++ h2) ↔ separated h1 ∧ separated h2 ∧ last_free h1 && first_free h2 = false.
Proof.
  induction h1 as [|b h1 IH]; simpl.
  - change (last_free []) with false. simpl. tauto.
  - rewrite IH. destruct h1 as [|b' h1].
    + change (last_free [b]) with b.2. change (last_free []) with false. simpl.
      rewrite andb_false_r. tauto.
    + change (last_free (b :: b' :: h1)) with (last_free (b' :: h1)). simpl. tauto.
Qed.

Lemma allocs_split a hs p s :
  (p, s) ∈ allocs a hs → ∃ h1 h2, hs = h1 ++ (s, false) :: h2 ∧ p = seg_end a h1 + 48.
Proof.
  revert a. induction hs as [|[s0 f0] hs IH]; intros a; simpl; [by intros ?%elem_of_nil|].
  rewrite elem_of_app. intros [Hin|Hin].
  - destruct f0; [by apply elem_of_nil in Hin|]. apply list_elem_of_singleton in Hin. simplify_eq.
    by exists [], hs.
  - destruct (IH _ Hin) as (h1 & h2 & -> & ->). by exists ((s0, f0) :: h1), h2.
Qed.

(** Freeing a block and merging it with free neighbours. *)
Definition merge_next (s : Z) (h2 : blocks) : Z * blocks :=
  match h2 with (s2, true) :: h3 => (s + 48 + s2, h3) | _ => (s, h2) end.

Lemma merge_next_run k h1 s h2 :
  heap_list (k_heap k) (h1 ++ (s, true) :: h2) →
  ∃ k', block_coalesce_forward (seg_end SCDK_HEAP_BASE h1) k = (Ok tt, k') ∧
    relisted k k' (h1 ++ ((merge_next s h2).1, true) :: (merge_next s h2).2).
Proof.
  intros H. destruct h2 as [|[s2 [|]] h3].
  - exists k. split; [by apply (coalesce_none _ _ s true [])|]. split; [exact H|]. by destruct k.
  - by apply coalesce_list.
  - exists k. split; [by apply (coalesce_none _ _ s true ((s2, false) :: h3))|].
    split; [exact H|]. by destruct k.
Qed.

Lemma merge_next_allocs a s h2 :
  allocs (a + 48 + (merge_next s h2).1) (merge_next s h2).2 = allocs (a + 48 + s) h2 ∧
  seg_end (a + 48 + (merge_next s h2).1) (merge_next s h2).2 = seg_end (a + 48 + s) h2.
Proof.
  destruct h2 as [|[s2 [|]] h3]; [done| |done]. simpl.
  by replace (a + 48 + (s + 48 + s2)) with (a + 48 + s + 48 + s2) by lia.
Qed.

Lemma merge_next_separated s h2 :
  separated h2 → separated (merge_next s h2).2 ∧ first_free (merge_next s h2).2 = false.
Proof.
  destruct h2 as [|[s2 [|]] h3]; simpl; [done| |done].
  destruct (first_free h3) eqn:E; [by intros []|]. tauto.
Qed.

Lemma relisted_wf k k' hs :
  relisted k k' hs → heap_commit_end (k_heap k) = seg_end SCDK_HEAP_BASE hs →
  separated hs → heap_wf k' hs.
Proof. intros (Hl & _ & Hc & Hi) He Hs. split; [done|by rewrite Hc|done]. Qed.

(** The second half of [scdk_kfree]: merge with the block in front. *)
Lemma merge_prev_run k h1 s h2 :
  heap_list (k_heap k) (h1 ++ (s, true) :: h2) →
  heap_commit_end (k_heap k) = seg_end SCDK_HEAP_BASE (h1 ++ (s, true) :: h2) →
  separated h1 → separated h2 → first_free h2 = false →
  ∃ k' hs', (let* b := get_block (seg_end SCDK_HEAP_BASE h1) in
             if negb (hb_prev b =? 0) then
               let* p := get_block (hb_prev b) in
               if hb_free p then block_coalesce_forward (hb_prev b) else ret tt
             else ret tt) k = (Ok tt, k') ∧
    heap_wf k' hs' ∧ k' = set_heap (k_heap k') k ∧
    heap_initialized (k_heap k') = heap_initialized (k_heap k) ∧
    allocs SCDK_HEAP_BASE hs' = allocs SCDK_HEAP_BASE (h1 ++ (s, true) :: h2) ∧
    ∃ s', (s', true) ∈ hs' ∧ s <= s'.
Proof.
  intros H Hce Hs1 Hs2 Hff.
  destruct (mid_block _ _ _ _ _ H) as (Hx & Hb & Hs0 & Hs16 & He & Hz1 & Hz2).
  rewrite (bind_Ok _ _ _ _ _ (get_block_run _ _ _ Hx)). cbn [hb_prev].
  destruct h1 as [|b0 h0 _] using rev_ind.
  - simpl. exists k, ((s, true) :: h2). split; [done|]. split; [split; try done; simpl; by rewrite Hff|].
    split; [by destruct k|]. split_and!; [done|done|]. exists s. split; [left|lia].
  - destruct b0 as [s0 f0]. rewrite last_addr_snoc.
    rewrite <-(app_assoc h0) in H, Hce. simpl in H, Hce.
    destruct (mid_block _ _ _ _ _ H) as (Hx0 & Hb0 & _ & _ & He0 & Hz0 & _).
    rewrite (proj2 (Z.eqb_neq _ 0)) by (unfold SCDK_HEAP_BASE in *; lia). cbn [negb].
    rewrite (bind_Ok _ _ _ _ _ (get_block_run _ _ _ Hx0)). cbn [hb_free].
    apply separated_app in Hs1 as (Hs0' & _ & Hl0).
    destruct f0.
    + destruct (coalesce_list _ _ _ _ _ _ H) as (k' & Hrun & Hre). exists k', (h0 ++ (s0 + 48 + s, true) :: h2).
      split; [exact Hrun|]. assert (last_free h0 = false) as Hlf by (simpl in Hl0; by rewrite andb_true_r in Hl0).
      split; [eapply relisted_wf; try done|].
      * rewrite Hce, !seg_end_app. simpl.
        by replace (seg_end SCDK_HEAP_BASE h0 + 48 + (s0 + 48 + s)) with (seg_end SCDK_HEAP_BASE h0 + 48 + s0 + 48 + s) by lia.
      * apply separated_app. simpl. rewrite Hff, Hlf. done.
      * split; [apply Hre|]. split; [apply Hre|]. split; [|exists (s0 + 48 + s); split; [apply elem_of_app; right; left|]].
        2:{ pose proof (hl_sizes _ _ H) as Hok. apply Forall_app in Hok as [_ Hok]. apply Forall_cons in Hok as [[? _] _].
            simpl in *. lia. }
        rewrite <-(app_assoc h0), !allocs_app. simpl.
        by replace (seg_end SCDK_HEAP_BASE h0 + 48 + (s0 + 48 + s)) with (seg_end SCDK_HEAP_BASE h0 + 48 + s0 + 48 + s) by lia.
    + exists k, (h0 ++ (s0, false) :: (s, true) :: h2). split; [done|]. split.
      * split; try done. apply separated_app. simpl. rewrite Hff, andb_false_r. done.
      * split; [by destruct k|]. split; [done|]. split; [by rewrite <-(app_assoc h0)|].
        exists s. split; [apply elem_of_app; right; right; left|lia].
Qed.

Lemma kfree_live k hs p s :
  heap_wf k hs → heap_initialized (k_heap k) = true → (p, s) ∈ allocs SCDK_HEAP_BASE hs →
  ∃ k' hs' A B, scdk_kfree p k = (Ok tt, k') ∧ heap_wf k' hs' ∧ k' = set_heap (k_heap k') k ∧
    heap_initialized (k_heap k') = true ∧ allocs SCDK_HEAP_BASE hs = A ++ (p, s) :: B ∧ allocs SCDK_HEAP_BASE hs' = A ++ B.
Proof.
  intros [Hl Hc Hsep] Hi Hin. destruct (allocs_split _ _ _ _ Hin) as (h1 & h2 & -> & ->).
  destruct (mid_block _ _ _ _ _ Hl) as (Hx & Hb & Hs0 & Hs16 & He & Hz1 & Hz2).
  set (x := seg_end SCDK_HEAP_BASE h1) in *.
  assert (seg_end SCDK_HEAP_BASE (h1 ++ (s, false) :: h2) = seg_end (x + 48 + s) h2) as Hend by (by rewrite seg_end_app).
  unfold scdk_kfree, ptr_in_heap. unfold bind at 1, gets. unfold bind at 1. rewrite Hi, Hc, Hend.
  rewrite (proj2 (Z.leb_le _ (x + 48))), (proj2 (Z.ltb_lt (x + 48) _)) by lia.
  rewrite (proj2 (Z.eqb_neq (x + 48) 0)) by (unfold SCDK_HEAP_BASE in *; lia). cbn [negb orb andb].
  unfold payload_block. rewrite header_48. replace (x + 48 - 48) with x by lia.
  rewrite (wrap_addr x) by (unfold SCDK_HEAP_SIZE in *; lia). unfold bind at 1. rewrite Hc, Hend.
  rewrite (proj2 (Z.leb_le _ x)), (proj2 (Z.ltb_lt x _)) by lia. cbn [negb andb].
  rewrite (bind_Ok _ _ _ _ _ (get_block_run _ _ _ Hx)). cbn [hb_magic hb_free].
  rewrite Z.eqb_refl. cbn [negb orb].
  destruct (set_free_list _ _ _ _ true _ Hl) as (k1 & Hrun1 & Hre1). fold x in Hrun1.
  rewrite (bind_Ok _ _ _ _ _ Hrun1).
  destruct (merge_next_run _ _ _ _ (proj1 Hre1)) as (k2 & Hrun2 & Hre2). fold x in Hrun2.
  rewrite (bind_Ok _ _ _ _ _ Hrun2). pose proof (relisted_trans _ _ _ _ _ Hre1 Hre2) as Hre.
  apply separated_app in Hsep as (Hs1 & [_ Hs2] & _).
  destruct (merge_next_separated s h2 Hs2) as [Hms Hmf]. destruct (merge_next_allocs x s h2) as [Hma Hme].
  destruct (merge_prev_run k2 h1 (merge_next s h2).1 (merge_next s h2).2) as (k3 & hs' & Hrun3 & Hwf3 & Hk3 & Hi3 & Ha3 & _); [apply Hre| |done|done|done|].
  { destruct Hre as (_ & _ & R3 & _). rewrite R3, Hc, !seg_end_app. simpl. fold x. by rewrite Hme. }
  exists k3, hs', (allocs SCDK_HEAP_BASE h1), (allocs (x + 48 + s) h2).
  split; [exact Hrun3|]. split; [done|]. split.
  { rewrite Hk3. destruct Hre as (_ & -> & _). done. }
  split.
  - rewrite Hi3. destruct Hre as (_ & _ & _ & ->). done.
  - rewrite Ha3, !allocs_app. simpl. fold x. by rewrite Hma.
Qed.
End free_alloc.

Section extend.
Implicit Types (k : kernel) (hs : blocks).

Lemma preserves_zoom_pmm {A} (P : kernel → Prop) (m : M pmm A) :
  (∀ x k, P k → P (set_pmm x k)) → preserves P (zoom k_pmm set_pmm m).
Proof. intros H k Hk. unfold zoom. destruct (m (k_pmm k)) as [r s]. by apply H. Qed.

(** Mapping pages leaves the block list alone. *)
Lemma map_page_keeps_heap h virt phys flags :
  preserves (λ k, k_heap k = h) (scdk_vmm_map_page virt phys flags).
Proof.
  unfold scdk_vmm_map_page, scdk_vmm_map_page_in_root, leaf_table_for_root, next_table, allocate_table.
  preserves_tac; try done; by apply preserves_zoom_pmm.
Qed.
Lemma unmap_page_keeps_heap h virt : preserves (λ k, k_heap k = h) (scdk_vmm_unmap_page virt).
Proof.
  unfold scdk_vmm_unmap_page, scdk_vmm_unmap_page_in_root, leaf_table_for_root, next_table, allocate_table.
  preserves_tac; try done; by apply preserves_zoom_pmm.
Qed.
Lemma kpage_keeps_heap h phys :
  preserves (λ k, k_heap k = h) kpage_alloc ∧ preserves (λ k, k_heap k = h) (kpage_free phys).
Proof. split; by apply preserves_zoom_pmm. Qed.

Lemma unmap_heap_pages_keeps h n base : preserves (λ k, k_heap k = h) (unmap_heap_pages n base).
Proof.
  induction n as [|n IH]; cbn [unmap_heap_pages]; [eauto with scdk|].
  apply preserves_bind; [apply preserves_attempt; eauto with scdk|]. intros [[p f]| |]; try done.
  apply preserves_bind; [apply preserves_attempt, unmap_page_keeps_heap|intros _].
  apply preserves_bind; [apply preserves_attempt, kpage_keeps_heap|done].
Qed.

Lemma map_heap_loop_keeps h n : ∀ mapped base, preserves (λ k, k_heap k = h) (map_heap_loop n mapped base).
Proof.
  induction n as [|n IH]; intros mapped base; cbn [map_heap_loop]; [eauto with scdk|].
  apply preserves_bind; [apply (kpage_keeps_heap h 0)|intros phys].
  apply preserves_bind; [apply preserves_attempt, map_page_keeps_heap|]. intros r.
  assert (preserves (λ k, k_heap k = h)
    (attempt (kpage_free phys) ;; unmap_heap_pages mapped base ;; lift r)) as Hundo.
  { apply preserves_bind; [apply preserves_attempt, kpage_keeps_heap|intros _].
    apply preserves_bind; [apply unmap_heap_pages_keeps|eauto with scdk]. }
  destruct r; [apply IH|done|done].
Qed.

(** Appending the new block at the end of the list. *)
Lemma insert_tail_list k hs s :
  heap_list (k_heap k) hs → 0 < s → s mod 16 = 0 →
  seg_end SCDK_HEAP_BASE hs + 48 + s <= SCDK_HEAP_BASE + SCDK_HEAP_SIZE →
  let x := seg_end SCDK_HEAP_BASE hs in
  ∃ k', (put_block x (mk_heap_block SCDK_HEAP_MAGIC s true 0 0) ;; block_insert_tail x) k = (Ok tt, k') ∧
    relisted k k' (hs ++ [(s, true)]).
Proof.
  intros H Hs Hs16 Hend x. pose proof H as [Hc Hh Ht Hsz He].
  set (m := heap_blocks (k_heap k)) in *. pose proof (seg_end_ge SCDK_HEAP_BASE hs Hsz).
  set (bx := mk_heap_block SCDK_HEAP_MAGIC s true (heap_tail (k_heap k)) 0).
  set (k1 := set_blocks (<[x:=bx]> m) k).
  assert (∀ rest : Z → K unit, (put_block x (mk_heap_block SCDK_HEAP_MAGIC s true 0 0) ;;
           let* tail := gets (λ k, heap_tail (k_heap k)) in
           update_block x (λ b, with_prev b tail) ;; update_block x (λ b, with_next b 0) ;; rest tail) k
          = rest (heap_tail (k_heap k)) k1) as Hfront.
  { intros rest. rewrite (bind_Ok _ _ _ _ _ (eq_refl : put_block x _ k = (Ok tt, _))).
    unfold bind at 1, gets. simpl heap_tail.
    erewrite (bind_Ok (update_block x _)); [|apply update_block_run; simpl; by rewrite lookup_insert_eq].
    erewrite (bind_Ok (update_block x _)); [|apply update_block_run; simpl; by rewrite lookup_insert_eq].
    simpl. rewrite !insert_insert_eq. done. }
  unfold block_insert_tail. rewrite Hfront. clear Hfront.
  destruct hs as [|b0 h0 _] using rev_ind.
  - simpl in *. rewrite Ht. simpl. eexists. split; [done|]. split; [|done]. split; simpl; try done.
    + split; [|done]. unfold x. simpl. rewrite lookup_insert_eq. unfold bx. by rewrite Ht.
    + by constructor.
  - rewrite last_addr_snoc in Ht.
    destruct (chain_set_next m 0 SCDK_HEAP_BASE h0 b0 0 x) as (h & Hh0 & Hc'); [done|done|].
    set (t := seg_end SCDK_HEAP_BASE h0) in *. apply Forall_app in Hsz as [Hsz0 [[Hb0 Hb16] _]%Forall_cons].
    pose proof (seg_end_ge SCDK_HEAP_BASE h0 Hsz0).
    assert (x = t + 48 + b0.1) as Hxt by (unfold x; by rewrite seg_end_app).
    rewrite Ht. rewrite (proj2 (Z.eqb_neq t 0)) by (unfold SCDK_HEAP_BASE in *; lia). cbn [negb].
    rewrite (bind_Ok (update_block t (λ b, with_next b x)) _ k1 tt
      (set_blocks (<[t:=with_next h x]> (<[x:=bx]> m)) k1)).
    2: { apply (update_block_run t (λ b, with_next b x) k1 h). simpl. rewrite lookup_insert_ne by lia. done. }
    eexists. split; [done|]. split; [|done]. split; simpl.
    + apply chain_app. fold x. split.
      * rewrite insert_insert_ne by lia. simpl next_of.
        apply chain_insert_out; [by apply Forall_app; repeat constructor|right; unfold x; lia|exact Hc'].
      * rewrite last_addr_snoc. fold t. split; [|done]. rewrite lookup_insert_ne by lia.
        rewrite lookup_insert_eq. unfold bx. by rewrite Ht.
    + rewrite Hh. by destruct h0.
    + by rewrite last_addr_snoc.
    + apply Forall_app. split; [by apply Forall_app; repeat constructor|]. by constructor.
    + rewrite seg_end_app. simpl. fold x. lia.
Qed.
End extend.

Section alloc.
Implicit Types (k : kernel) (hs : blocks).

Lemma seq_assoc {A B C} (m : K A) (n : K B) (rest : K C) k :
  (m ;; n ;; rest) k = ((m ;; n) ;; rest) k.
Proof. unfold bind. by destruct (m k) as [[] ?]. Qed.

Lemma align_up_size_page n : 0 <= n <= 2 * SCDK_HEAP_SIZE →
  align_up_size n SCDK_PAGE_SIZE = (n + 4095) - (n + 4095) mod 4096.
Proof. intros Hn. apply align_up_val. unfold SCDK_HEAP_SIZE in *. lia. Qed.

Lemma align_up_size_16 n : 0 <= n <= SCDK_HEAP_SIZE →
  align_up_size n SCDK_HEAP_ALIGN = (n + 15) - (n + 15) mod 16.
Proof.
  intros Hn. unfold align_up_size, SCDK_HEAP_ALIGN, SCDK_HEAP_SIZE in *.
  rewrite (wrap_size (n + 16)) by (unfold SCDK_HEAP_SIZE; lia).
  rewrite wrap_size by (unfold SCDK_HEAP_SIZE; lia).
  replace (n + 16 - 1) with (n + 15) by lia. change (16 - 1) with (2 ^ 4 - 1).
  rewrite land_not64, ldiff_mask by (done || (unfold u64, two64; lia)). done.
Qed.

(** The bytes committed for a block of [n] bytes. *)
Definition grow_size (n : Z) : Z := Z.max 16384 (48 + n + 4095 - (48 + n + 4095) mod 4096).

(** Growing the heap adds a free block that is large enough at its end and no
    allocation; it fails when the area is used up or the pages cannot be mapped,
    and then the block list is as it was. *)
Lemma heap_extend_cases k hs n r k' :
  heap_wf k hs → 0 <= n <= SCDK_HEAP_SIZE → heap_extend n k = (r, k') →
  match r with
  | Ok _ => ∃ hs', heap_wf k' hs' ∧ heap_initialized (k_heap k') = heap_initialized (k_heap k) ∧
      allocs SCDK_HEAP_BASE hs' = allocs SCDK_HEAP_BASE hs ∧ ∃ s, (s, true) ∈ hs' ∧ n <= s
  | Err e => k_heap k' = k_heap k ∧
      (SCDK_HEAP_BASE + SCDK_HEAP_SIZE < heap_commit_end (k_heap k) + grow_size n ∨
       map_heap_pages (heap_commit_end (k_heap k)) (grow_size n) k = (Err e, k'))
  | Ub => ∃ c, 0 <= c ∧ c mod 4096 = 0 ∧
      heap_commit_end (k_heap k) + c <= SCDK_HEAP_BASE + SCDK_HEAP_SIZE ∧
      (map_heap_pages (heap_commit_end (k_heap k)) c k).1 = Ub
  end.
Proof.
  intros [Hl Hc Hsep] Hn H. unfold heap_extend in H. rewrite header_48 in H. unfold checked_add_size in H.
  rewrite (proj2 (Z.ltb_ge _ _)) in H by (unfold two64, SCDK_HEAP_SIZE in *; lia).
  rewrite align_up_size_page in H by (unfold SCDK_HEAP_SIZE in *; lia).
  set (c0 := 48 + n + 4095 - _) in H.
  set (c := if c0 <? SCDK_HEAP_INITIAL_PAGES * SCDK_PAGE_SIZE then SCDK_HEAP_INITIAL_PAGES * SCDK_PAGE_SIZE else c0) in H.
  assert (c = grow_size n) as Hgrow.
  { unfold c, c0, grow_size, SCDK_HEAP_INITIAL_PAGES, SCDK_PAGE_SIZE. case_match; bsplit; lia. }
  assert (4096 <= c ∧ c mod 4096 = 0 ∧ 48 + n <= c) as (Hcpos & Hcmod & Hfit).
  { rewrite Hgrow. unfold grow_size. Z.to_euclidean_division_equations; lia. }
  unfold bind at 1, gets in H. rewrite Hc in H. unfold checked_add_uintptr in H.
  rewrite Hc, <-Hgrow.
  destruct (_ <? seg_end SCDK_HEAP_BASE hs) eqn:Hov; bsplit.
  { injection H as <- <-. split; [done|left]. unfold two64, SCDK_HEAP_BASE, SCDK_HEAP_SIZE in *. lia. }
  unfold bind at 1, guard in H. destruct (SCDK_HEAP_BASE + SCDK_HEAP_SIZE <? _) eqn:Hlim; bsplit.
  { injection H as <- <-. split; [done|by left]. }
  unfold ret at 1 in H. unfold bind at 1 in H.
  set (x := seg_end SCDK_HEAP_BASE hs) in *. pose proof (seg_end_ge SCDK_HEAP_BASE _ (hl_sizes _ _ Hl)) as Hxb. fold x in Hxb.
  destruct (map_heap_pages x c k) as [r1 k1] eqn:Hmap.
  assert (k_heap k1 = k_heap k) as Hk1.
  { pose proof (map_heap_loop_keeps (k_heap k) (Z.to_nat ((c + SCDK_PAGE_SIZE - 1) / SCDK_PAGE_SIZE)) 0
      x k eq_refl) as Hkeep. unfold map_heap_pages in Hmap. by rewrite Hmap in Hkeep. }
  destruct r1 as [[]| |]; [|injection H as <- <-; by split; [|right]|].
  2: { injection H as <- <-. exists c. rewrite Hmap. split_and!; [lia|done|lia|done]. }
  rewrite (wrap_size (c - 48)) in H by (unfold SCDK_HEAP_SIZE in *; lia).
  destruct (insert_tail_list k1 hs (c - 48)) as (k2 & Hrun2 & Hre2).
  { by rewrite Hk1. } { lia. } { Z.to_euclidean_division_equations; lia. } { fold x. lia. }
  fold x in Hrun2. rewrite seq_assoc, (bind_Ok _ _ _ _ _ Hrun2) in H.
  rewrite (bind_Ok (modify _) _ k2 tt (set_commit_end (x + c) k2)) in H by done.
  set (k3 := set_commit_end (x + c) k2) in H.
  destruct (merge_prev_run k3 hs (c - 48) []) as (k4 & hs' & Hrun4 & Hwf4 & _ & Hi4 & Ha4 & s' & Hs' & Hle').
  - destruct Hre2 as ([L1 L2 L3 L4 L5] & _). split; done.
  - simpl. rewrite seg_end_app. simpl. fold x. lia.
  - done.
  - done.
  - done.
  - fold x in Hrun4. rewrite Hrun4 in H. apply pair_equal_spec in H as [<- <-].
    exists hs'. split; [done|]. split_and!; [| |exists s'; split; [done|lia]].
    + rewrite Hi4. simpl. destruct Hre2 as (_ & _ & _ & ->). by rewrite Hk1.
    + rewrite Ha4, allocs_app. simpl. by rewrite app_nil_r.
Qed.

(** Growth fails with the mapping of its pages. *)
Lemma heap_extend_unmapped k n e k' :
  0 <= n <= SCDK_HEAP_SIZE → SCDK_HEAP_BASE <= heap_commit_end (k_heap k) →
  heap_commit_end (k_heap k) + grow_size n <= SCDK_HEAP_BASE + SCDK_HEAP_SIZE →
  map_heap_pages (heap_commit_end (k_heap k)) (grow_size n) k = (Err e, k') → heap_extend n k = (Err e, k').
Proof.
  intros Hn Hb Hle Hmap. unfold heap_extend. rewrite header_48. unfold checked_add_size.
  rewrite (proj2 (Z.ltb_ge _ _)) by (unfold two64, SCDK_HEAP_SIZE in *; lia).
  rewrite align_up_size_page by (unfold SCDK_HEAP_SIZE in *; lia).
  replace (if _ <? _ then _ else _) with (grow_size n)
    by (unfold grow_size, SCDK_HEAP_INITIAL_PAGES, SCDK_PAGE_SIZE; case_match; bsplit; lia).
  unfold bind at 1, gets, checked_add_uintptr.
  rewrite (proj2 (Z.ltb_ge _ (heap_commit_end (k_heap k)))) by (unfold two64, SCDK_HEAP_BASE, SCDK_HEAP_SIZE in *; lia).
  unfold bind at 1, guard. rewrite (proj2 (Z.ltb_ge _ _)) by lia. unfold ret at 1, bind at 1. by rewrite Hmap.
Qed.

(** Taking a free block that is large enough. *)
Lemma take_block k h1 s h2 req :
  heap_wf k (h1 ++ (s, true) :: h2) → 0 < req <= SCDK_HEAP_SIZE → req mod 16 = 0 → req <= s →
  ∃ k' hs' sz, (block_split (seg_end SCDK_HEAP_BASE h1) req ;;
     update_block (seg_end SCDK_HEAP_BASE h1) (λ b, with_free b false) ;;
     ret (block_payload (seg_end SCDK_HEAP_BASE h1))) k = (Ok (seg_end SCDK_HEAP_BASE h1 + 48), k') ∧
    heap_wf k' hs' ∧ heap_initialized (k_heap k') = heap_initialized (k_heap k) ∧ req <= sz < req + 64 ∧
    allocs SCDK_HEAP_BASE (h1 ++ (s, true) :: h2) = allocs SCDK_HEAP_BASE h1 ++ allocs (seg_end SCDK_HEAP_BASE h1 + 48 + s) h2 ∧
    allocs SCDK_HEAP_BASE hs' = allocs SCDK_HEAP_BASE h1 ++ (seg_end SCDK_HEAP_BASE h1 + 48, sz) ::
      allocs (seg_end SCDK_HEAP_BASE h1 + 48 + s) h2.
Proof.
  intros [Hl Hc Hsep] Hr Hr16 Hle. destruct (mid_block _ _ _ _ _ Hl) as (Hx & Hb & Hs0 & Hs16 & He & Hz1 & Hz2).
  set (x := seg_end SCDK_HEAP_BASE h1) in *.
  assert (block_payload x = x + 48) as Hpay.
  { unfold block_payload. rewrite header_48. apply wrap_addr. lia. }
  apply separated_app in Hsep as (Hs1 & [Hff Hs2] & Hlf). simpl in Hff, Hlf. rewrite andb_true_r in Hlf.
  assert (allocs SCDK_HEAP_BASE (h1 ++ (s, true) :: h2) = allocs SCDK_HEAP_BASE h1 ++ allocs (x + 48 + s) h2) as Ha
    by (by rewrite allocs_app).
  destruct (decide (s < req + 64)) as [Hsmall|Hbig].
  - destruct (set_free_list _ _ _ _ false _ Hl) as (k1 & Hrun1 & Hre1). fold x in Hrun1.
    assert (0 <= req <= SCDK_HEAP_SIZE) as Hr' by lia.
    pose proof (block_split_small k h1 s true h2 req Hl Hr' Hsmall) as Hsp. fold x in Hsp.
    rewrite (bind_Ok _ _ _ _ _ Hsp), (bind_Ok _ _ _ _ _ Hrun1), Hpay.
    exists k1, (h1 ++ (s, false) :: h2), s. split; [done|]. split; [|split; [apply Hre1|]].
    + eapply relisted_wf; [done|by rewrite Hc, !seg_end_app|]. apply separated_app. simpl.
      by rewrite andb_false_r.
    + split; [lia|]. split; [done|]. rewrite allocs_app. done.
  - assert (req + 64 <= s) as Hbig' by lia. assert (0 < req) as Hr0 by lia.
    destruct (block_split_list k h1 s true h2 req Hl Hr0 Hr16 Hbig') as (k1 & Hrun1 & Hre1). fold x in Hrun1.
    destruct (set_free_list _ _ _ _ false _ (proj1 Hre1)) as (k2 & Hrun2 & Hre2). fold x in Hrun2.
    pose proof (relisted_trans _ _ _ _ _ Hre1 Hre2) as Hre.
    rewrite (bind_Ok _ _ _ _ _ Hrun1), (bind_Ok _ _ _ _ _ Hrun2), Hpay.
    assert (x + 48 + req + 48 + (s - req - 48) = x + 48 + s) as Hend by lia.
    exists k2, (h1 ++ (req, false) :: (s - req - 48, true) :: h2), req. split; [done|].
    split; [|split; [apply Hre|]].
    + eapply relisted_wf; [done|by rewrite Hc, !seg_end_app; simpl; fold x; rewrite Hend|].
      apply separated_app. simpl. by rewrite Hff, andb_false_r.
    + split; [lia|]. split; [done|]. rewrite allocs_app. simpl. fold x. by rewrite Hend.
Qed.
(** What [scdk_kalloc] promises. *)
Definition kalloc_post (k' : kernel) hs (size p : Z) : Prop :=
  ∃ hs', heap_wf k' hs' ∧ heap_initialized (k_heap k') = true ∧
    (p = 0 ∧ allocs SCDK_HEAP_BASE hs' = allocs SCDK_HEAP_BASE hs ∨
     ∃ A B sz, size <= sz ∧ p mod 16 = 0 ∧ SCDK_HEAP_BASE < p ∧ p + sz <= SCDK_HEAP_BASE + SCDK_HEAP_SIZE ∧
       allocs SCDK_HEAP_BASE hs = A ++ B ∧ allocs SCDK_HEAP_BASE hs' = A ++ (p, sz) :: B).

Lemma kalloc_null k k' hs hs1 size p :
  heap_wf k hs1 → heap_initialized (k_heap k) = true →
  allocs SCDK_HEAP_BASE hs1 = allocs SCDK_HEAP_BASE hs → (ret 0 : K Z) k = (Ok p, k') →
  kalloc_post k' hs size p.
Proof.
  intros Hw Hi Ha E. apply ret_inv in E as [-> ->]. exists hs1. split; [done|]. split; [done|]. by left.
Qed.

Lemma kalloc_take k k' hs h1 s h2 size req p :
  heap_wf k (h1 ++ (s, true) :: h2) → heap_initialized (k_heap k) = true →
  allocs SCDK_HEAP_BASE (h1 ++ (s, true) :: h2) = allocs SCDK_HEAP_BASE hs →
  0 < req <= SCDK_HEAP_SIZE → req mod 16 = 0 → size <= req <= s →
  (block_split (seg_end SCDK_HEAP_BASE h1) req ;;
   update_block (seg_end SCDK_HEAP_BASE h1) (λ b, with_free b false) ;;
   ret (block_payload (seg_end SCDK_HEAP_BASE h1))) k = (Ok p, k') →
  kalloc_post k' hs size p.
Proof.
  intros Hw Hi Ha Hr Hr16 [Hsr Hle] Ht.
  destruct (take_block k h1 s h2 req Hw Hr Hr16 Hle) as (k2 & hs' & sz & Hrun2 & Hwf2 & Hi2 & Hsz & Ha1 & Ha2).
  rewrite Hrun2 in Ht. apply pair_equal_spec in Ht as [Hp <-]. apply (inj Ok) in Hp.
  exists hs'. split; [done|]. split; [by rewrite Hi2|]. right. rewrite Ha1 in Ha. rewrite Hp in Ha, Ha2.
  do 2 eexists. exists sz. pose proof (hl_sizes _ _ (hw_list _ _ Hwf2)) as Hok.
  pose proof (hl_end _ _ (hw_list _ _ Hwf2)).
  assert ((p, sz) ∈ allocs SCDK_HEAP_BASE hs') as Hin by (rewrite Ha2; apply elem_of_app; right; left).
  pose proof (allocs_bounds _ _ _ _ Hok Hin). assert (SCDK_HEAP_BASE mod 16 = 0) as Hb16 by reflexivity.
  pose proof (allocs_aligned _ _ _ _ Hok Hb16 Hin).
  split; [lia|]. split; [done|]. split; [lia|]. split; [lia|]. split; [by symmetry|exact Ha2].
Qed.

Lemma found_nonzero k h1 s h2 : heap_wf k (h1 ++ (s, true) :: h2) → (seg_end SCDK_HEAP_BASE h1 =? 0) = false.
Proof.
  intros [Hl _ _]. destruct (mid_block _ _ _ _ _ Hl) as (_ & Hb & _).
  apply Z.eqb_neq. unfold SCDK_HEAP_BASE in *. lia.
Qed.
Lemma kalloc_Ok k k' hs size p :
  heap_wf k hs → heap_initialized (k_heap k) = true → u64 size →
  scdk_kalloc size k = (Ok p, k') → kalloc_post k' hs size p.
Proof.
  intros Hwf Hready Hs Hrun.
  unfold scdk_kalloc in Hrun. minv_step Hrun. repeat minv_leaf. rewrite Hready, header_48 in Hrun. cbn [negb orb] in Hrun.
  destruct (Z.eqb_spec size 0) as [|Hs0]; [by eapply kalloc_null|].
  destruct (SCDK_HEAP_SIZE - 48 <? size) eqn:Hbig; [by eapply kalloc_null|]. bsplit.
  unfold u64 in Hs. rewrite align_up_size_16 in Hrun by lia. set (req := size + 15 - _) in Hrun.
  assert (size <= req < size + 16 ∧ req mod 16 = 0) as [Hreq Hreq16].
  { unfold req. Z.to_euclidean_division_equations; lia. }
  destruct ((req <? size) || _) eqn:Hbig2; [by eapply kalloc_null|]. bsplit.
  assert (0 <= req <= SCDK_HEAP_SIZE ∧ 0 < req <= SCDK_HEAP_SIZE) as [Hr Hr'] by lia.
  minv_step Hrun. apply query_inv in E as [Hfind ->]. rename a into block.
  destruct (find_free_block_spec k hs req (hw_list _ _ Hwf)) as [[Hf _]|(h1 & s0 & h2 & -> & Hle & Hf)];
    rewrite Hf in Hfind; apply (inj Ok) in Hfind; subst block.
  - change (negb (0 =? 0)) with false in Hrun. cbv iota in Hrun.
    minv_step Hrun. unfold attempt in E. destruct (heap_extend req k) as [r2 k2] eqn:Hext.
    pose proof (heap_extend_cases k hs req _ k2 Hwf Hr Hext) as Hcases.
    destruct r2 as [[]|e|]; [..|discriminate];
      (apply pair_equal_spec in E as [E <-]; apply (inj Ok) in E; subst a).
    + destruct Hcases as (hs2 & Hwf2 & Hi2 & Ha2 & _). rewrite Hready in Hi2.
      minv_step Hrun. apply query_inv in E as [Hfind ->]. rename a into block.
      destruct (find_free_block_spec k2 hs2 req (hw_list _ _ Hwf2)) as [[Hf2 _]|(h1 & s0 & h2 & -> & Hle & Hf2)];
        rewrite Hf2 in Hfind; apply (inj Ok) in Hfind; subst block.
      * change (0 =? 0) with true in Hrun. by eapply kalloc_null.
      * rewrite (found_nonzero _ _ _ _ Hwf2) in Hrun. by eapply kalloc_take.
    + destruct Hcases as [Hcases _]. eapply (kalloc_null k2); [|by rewrite Hcases|reflexivity|exact Hrun].
      destruct Hwf as [W1 W2 W3]. split; [|by rewrite Hcases|done]. by rewrite Hcases.
  - rewrite (found_nonzero _ _ _ _ Hwf) in Hrun. cbn [negb] in Hrun. by eapply kalloc_take.
Qed.

(** When there is no block to be had: no size, more than the area holds, or no
    free block is large enough and the heap cannot grow. *)
Definition round16 (n : Z) : Z := n + 15 - (n + 15) mod 16.
Definition no_room k hs (size : Z) k' : Prop :=
  size = 0 ∨ SCDK_HEAP_SIZE - 48 < round16 size ∨
  (∀ s, (s, true) ∈ hs → s < round16 size) ∧
  (SCDK_HEAP_BASE + SCDK_HEAP_SIZE < heap_commit_end (k_heap k) + grow_size (round16 size) ∨
   ∃ e, map_heap_pages (heap_commit_end (k_heap k)) (grow_size (round16 size)) k = (Err e, k')).

Lemma kalloc_null_room k k' hs size :
  heap_wf k hs → heap_initialized (k_heap k) = true → u64 size →
  scdk_kalloc size k = (Ok 0, k') → no_room k hs size k'.
Proof.
  intros Hwf Hready Hs Hrun. unfold no_room.
  destruct (decide (size = 0)) as [|Hs0]; [by left|right].
  destruct (decide (SCDK_HEAP_SIZE - 48 < round16 size)) as [|Hbig]; [by left|right].
  assert (size <= round16 size < size + 16 ∧ round16 size mod 16 = 0) as [Hreq Hreq16].
  { unfold round16. Z.to_euclidean_division_equations; lia. }
  unfold u64 in Hs. unfold scdk_kalloc in Hrun.
  rewrite (bind_Ok _ _ k true k) in Hrun by (unfold gets; by rewrite Hready).
  rewrite header_48, (proj2 (Z.eqb_neq _ 0) Hs0), (proj2 (Z.ltb_ge _ size)), align_up_size_16 in Hrun by lia.
  fold (round16 size) in Hrun. set (req := round16 size) in *.
  rewrite (proj2 (Z.ltb_ge _ size)), (proj2 (Z.ltb_ge _ req)) in Hrun by lia. cbn [negb orb] in Hrun.
  assert (0 <= req <= SCDK_HEAP_SIZE ∧ 0 < req <= SCDK_HEAP_SIZE) as [Hr Hr'] by lia.
  assert (∀ k1 h1 s0 h2, heap_wf k1 (h1 ++ (s0, true) :: h2) → req <= s0 →
    (block_split (seg_end SCDK_HEAP_BASE h1) req ;;
     update_block (seg_end SCDK_HEAP_BASE h1) (λ b, with_free b false) ;;
     ret (block_payload (seg_end SCDK_HEAP_BASE h1))) k1 ≠ (Ok 0, k')) as Htake.
  { intros k1 h1 s0 h2 Hw1 Hle1 E. destruct (take_block k1 h1 s0 h2 req Hw1 Hr' Hreq16 Hle1) as (? & ? & ? & E2 & _).
    rewrite E2 in E. injection E as E _. destruct (mid_block _ _ _ _ _ (hw_list _ _ Hw1)) as (_ & Hb & _).
    unfold SCDK_HEAP_BASE in *. lia. }
  destruct (find_free_block_spec k hs req (hw_list _ _ Hwf)) as [[Hf Hnone]|(h1 & s0 & h2 & -> & Hle & Hf)];
    rewrite (bind_Ok (query _) _ k _ k) in Hrun by (unfold query; by rewrite Hf).
  2:{ rewrite (found_nonzero _ _ _ _ Hwf) in Hrun. by destruct (Htake _ _ _ _ Hwf Hle Hrun). }
  split; [done|]. change (negb (0 =? 0)) with false in Hrun. cbv iota in Hrun.
  unfold bind at 1, attempt in Hrun. destruct (heap_extend req k) as [r2 k2] eqn:Hext.
  pose proof (heap_extend_cases k hs req _ k2 Hwf Hr Hext) as Hcases. destruct r2 as [[]|e|]; [| |done].
  2:{ injection Hrun as <-. destruct Hcases as [_ [?|?]]; [by left|right; by exists e]. }
  destruct Hcases as (hs2 & Hwf2 & _ & _ & s & Hin & Hle).
  destruct (find_free_block_spec k2 hs2 req (hw_list _ _ Hwf2)) as [[_ Hnone2]|(h1 & s0 & h2 & -> & Hle2 & Hf2)].
  { apply Hnone2 in Hin. lia. }
  rewrite (bind_Ok (query _) _ k2 _ k2) in Hrun by (unfold query; by rewrite Hf2).
  rewrite (found_nonzero _ _ _ _ Hwf2) in Hrun. by destruct (Htake _ _ _ _ Hwf2 Hle2 Hrun).
Qed.

Lemma take_defined k h1 s h2 req :
  heap_wf k (h1 ++ (s, true) :: h2) → 0 < req <= SCDK_HEAP_SIZE → req mod 16 = 0 → req <= s →
  is_Ok ((block_split (seg_end SCDK_HEAP_BASE h1) req ;;
   update_block (seg_end SCDK_HEAP_BASE h1) (λ b, with_free b false) ;;
   ret (block_payload (seg_end SCDK_HEAP_BASE h1))) k).1.
Proof.
  intros Hw H1 H2 H3. destruct (take_block k h1 s h2 req Hw H1 H2 H3) as (? & ? & ? & -> & _).
  by eexists.
Qed.

(** It returns whenever growing the heap does. *)
Lemma kalloc_total k hs size :
  heap_wf k hs → heap_initialized (k_heap k) = true → u64 size →
  (∀ n, 0 <= n <= SCDK_HEAP_SIZE → defined (heap_extend n k).1) →
  is_Ok (scdk_kalloc size k).1.
Proof.
  intros Hwf Hready Hs Hd. unfold scdk_kalloc. rewrite (bind_Ok _ _ k true k) by (unfold gets; by rewrite Hready).
  rewrite header_48. cbn [negb orb].
  destruct (Z.eqb_spec size 0) as [|Hs0]; [by eexists|].
  destruct (SCDK_HEAP_SIZE - 48 <? size) eqn:Hbig; [by eexists|]. bsplit.
  unfold u64 in Hs. rewrite align_up_size_16 by lia. set (req := size + 15 - _).
  assert (size <= req < size + 16 ∧ req mod 16 = 0) as [Hreq Hreq16].
  { unfold req. Z.to_euclidean_division_equations; lia. }
  destruct ((req <? size) || _) eqn:Hbig2; [by eexists|]. bsplit.
  assert (0 <= req <= SCDK_HEAP_SIZE ∧ 0 < req <= SCDK_HEAP_SIZE) as [Hr Hr'] by lia.
  destruct (find_free_block_spec k hs req (hw_list _ _ Hwf)) as [[Hf _]|(h1 & s0 & h2 & -> & Hle & Hf)];
    rewrite (bind_Ok (query _) _ k _ k) by (unfold query; by rewrite Hf).
  - change (negb (0 =? 0)) with false. cbv iota. specialize (Hd req Hr). unfold bind at 1, attempt.
    destruct (heap_extend req k) as [r2 k2] eqn:Hext.
    pose proof (heap_extend_cases k hs req _ k2 Hwf Hr Hext) as Hcases.
    destruct r2 as [[]|e|]; [|by eexists|done].
    destruct Hcases as (hs2 & Hwf2 & _ & _).
    destruct (find_free_block_spec k2 hs2 req (hw_list _ _ Hwf2)) as [[Hf2 _]|(h1 & s0 & h2 & -> & Hle & Hf2)];
      rewrite (bind_Ok (query _) _ k2 _ k2) by (unfold query; by rewrite Hf2).
    + change (0 =? 0) with true. by eexists.
    + rewrite (found_nonzero _ _ _ _ Hwf2). by eapply take_defined.
  - rewrite (found_nonzero _ _ _ _ Hwf). cbn [negb]. by eapply take_defined.
Qed.
End alloc.

(** ** Properties *)

(** C7. Allocated blocks never overlap: in a well-formed heap any two distinct
    allocations, headers included, are disjoint and inside the heap area, and
    freeing one through its pointer removes exactly that allocation, keeps all
    the others where they are, and leaves no two neighbouring free blocks. *)
Theorem kfree_exact (k : kernel) (hs : blocks) (p s : Z)
  (Hwf : heap_wf k hs) (Hready : heap_initialized (k_heap k) = true)
  (Hin : (p, s) ∈ allocs SCDK_HEAP_BASE hs) :
  (∀ i j q t q' t', allocs SCDK_HEAP_BASE hs !! i = Some (q, t) →
     allocs SCDK_HEAP_BASE hs !! j = Some (q', t') → i ≠ j → q + t <= q' - 48 ∨ q' + t' <= q - 48) ∧
  SCDK_HEAP_BASE + 48 <= p ∧ p + s <= SCDK_HEAP_BASE + SCDK_HEAP_SIZE ∧
  ∃ k' hs' A B, scdk_kfree p k = (Ok tt, k') ∧ heap_wf k' hs' ∧ k' = set_heap (k_heap k') k ∧
    heap_initialized (k_heap k') = true ∧
    allocs SCDK_HEAP_BASE hs = A ++ (p, s) :: B ∧ allocs SCDK_HEAP_BASE hs' = A ++ B.
Proof.
  pose proof (hl_sizes _ _ (hw_list _ _ Hwf)) as Hok. pose proof (hl_end _ _ (hw_list _ _ Hwf)) as Hend.
  destruct (allocs_bounds _ _ _ _ Hok Hin) as (H1 & H2 & H3).
  split; [|split; [done|split; [lia|by apply kfree_live]]].
  intros i j q t q' t' Hi Hj Hne. destruct (decide (i < j)%nat).
  - left. pose proof (allocs_disjoint _ _ _ _ _ _ _ _ Hok Hi Hj). lia.
  - right. assert (j < i)%nat as Hji by lia. pose proof (allocs_disjoint _ _ _ _ _ _ _ _ Hok Hj Hi Hji). lia.
Qed.

(** A successful [scdk_heap_init] gives a well-formed heap with nothing
    allocated, and only an initialised heap allocates. *)
Theorem heap_init_exact (k k' : kernel) (Hrun : scdk_heap_init k = (Ok tt, k')) :
  (∃ hs, heap_wf k' hs ∧ heap_initialized (k_heap k') = true ∧ allocs SCDK_HEAP_BASE hs = []) ∧
  ∀ size, scdk_kalloc size k = (Ok 0, k).
Proof.
  unfold scdk_heap_init in Hrun. do 6 minv_step Hrun. repeat minv_leaf. split.
  - set (k0 := set_commit_end _ _) in E4.
    assert (heap_wf k0 []) as H0.
    { split; [split; [done|done|done|constructor|simpl; unfold SCDK_HEAP_SIZE; lia]|done|done]. }
    assert (0 <= 0 <= SCDK_HEAP_SIZE) as Hz by (unfold SCDK_HEAP_SIZE; lia).
    destruct (heap_extend_cases k0 [] 0 _ _ H0 Hz E4) as (hs & [Hl Hc Hs] & _ & Ha).
    exists hs. split; [split; [|done|done]|split; [done|exact (proj1 Ha)]]. destruct Hl. split; done.
  - intros size. unfold scdk_kalloc, bind, gets. by rewrite E0.
Qed.

(** ** Witnesses *)
Definition demo_heap_vm : kernel := (scdk_heap_init demo_vm).2.

(** A heap of one committed range with one allocated block of 64 bytes. *)
Definition demo_heap : kernel :=
  set_heap (mk_heap {[SCDK_HEAP_BASE := mk_heap_block SCDK_HEAP_MAGIC 64 false 0 (SCDK_HEAP_BASE + 112);
                     SCDK_HEAP_BASE + 112 := mk_heap_block SCDK_HEAP_MAGIC 16224 true SCDK_HEAP_BASE 0]}
              SCDK_HEAP_BASE (SCDK_HEAP_BASE + 112) (SCDK_HEAP_BASE + 16384) true) boot_kernel.
Definition demo_blocks : blocks := [(64, false); (16224, true)].

Lemma demo_heap_wf : heap_wf demo_heap demo_blocks.
Proof.
  split; [split| |]; try done.
  repeat (constructor; [by split|]). constructor.
Qed.

Lemma kfree_exact_witness :
  ∃ k' hs', scdk_kfree (SCDK_HEAP_BASE + 48) demo_heap = (Ok tt, k') ∧ heap_wf k' hs' ∧
    allocs SCDK_HEAP_BASE hs' = [].
Proof.
  assert ((SCDK_HEAP_BASE + 48, 64) ∈ allocs SCDK_HEAP_BASE demo_blocks) as Hin by left.
  destruct (kfree_exact demo_heap demo_blocks _ 64 demo_heap_wf eq_refl Hin)
    as (_ & _ & _ & k' & hs' & A & B & H1 & H2 & _ & _ & H3 & H4).
  exists k', hs'. split; [exact H1|]. split; [exact H2|]. rewrite H4.
  destruct A as [|a A]; simpl in H3; [by injection H3 as <-|].
  exfalso. apply (f_equal length) in H3. simpl in H3. rewrite length_app in H3. simpl in H3. lia.
Defined.

Lemma heap_init_exact_witness :
  ∃ hs, heap_wf demo_heap_vm hs ∧ allocs SCDK_HEAP_BASE hs = [].
Proof.
  assert (scdk_heap_init demo_vm = (Ok tt, demo_heap_vm)) as Hrun.
  { apply run_to; [reflexivity|]. vm_compute. reflexivity. }
  destruct (heap_init_exact demo_vm demo_heap_vm Hrun) as [(hs & H1 & _ & H2) _].
  exists hs. exact (conj H1 H2).
Defined.
