(* ===== verification/HeapVm.v ===== *)
(** * The heap on the page tables

    The heap grows by mapping pages into the kernel half of the active root.
    This file shows that doing so, including the clean-up of a growth that
    runs out of pages half way, keeps the page tables well typed, never
    touches a translation of the user half of any root, and is free of
    undefined behaviour; with that, [scdk_kalloc] always returns. *)
From stdpp Require Import base gmap list numbers relations.
From Stdlib Require Import ZArith Lia.
From S2P Require Import Prelude.
From S2P Require Import Kernel.
From S2P Require Import Pmm.
From S2P Require Import Vmm.
From S2P Require Import Heap.
#[local] Open Scope Z_scope.

(** ** Data pages

    A page that holds no table is given a label too long for a table, which
    keeps it apart from the free pages and from the pages of tables. *)
Definition data_label : label := (0, [0; 0; 0; 0]).

Section data_pages.
Implicit Types (k : kernel) (L : gmap Z label).

Lemma typed_memory_same k k' L :
  pt_typed k L → k_vmm k' = k_vmm k → pmm_wf (k_pmm k') →
  (∀ p l, L !! p = Some l → p ∉ page_stack (k_pmm k')) → 0 ∉ page_stack (k_pmm k') →
  pt_typed k' L.
Proof.
  intros [A1 A2 A3 A4 A5 A6 A7] Hv Hwf Hst H0. split; try done; try (by rewrite Hv).
  - intros p l Hp. destruct (A3 p l Hp) as (?&?&_). eauto.
  - intros p l i q Hp Hlen Hi. unfold load64. rewrite Hv. by apply A5.
Qed.

Lemma typed_label_data k L q :
  pt_typed k L → L !! q = None → q mod 4096 = 0 → 0 <= q < phys_limit →
  q ∉ page_stack (k_pmm k) → pt_typed k (<[q:=data_label]> L).
Proof.
  intros [A1 A2 A3 A4 A5 A6 A7] Hq Hal Hr Hst. split; try done.
  - intros p l. rewrite lookup_insert_Some. intros [[<- <-]|[_ Hp]]; [done|by apply (A3 p l)].
  - intros p o. rewrite lookup_insert_Some. intros [[_ [=]]|[_ Hp]]. by apply A4.
  - intros p l i x. rewrite lookup_insert_Some. intros [[_ <-]|[_ Hp]] Hlen Hi Hw; [simpl in Hlen; lia|].
    pose proof (A5 p l i x Hp Hlen Hi Hw) as Hx. rewrite lookup_insert_ne; [done|congruence].
  - rewrite lookup_insert_ne; [done|congruence].
Qed.

(** A label no walk ends at can be taken away. *)
Definition unreached (k : kernel) (q : Z) (l : label) : Prop :=
  q ≠ active_cr3_phys (k_vmm k) ∧ (length l.2 = 0 ∨ 3 < length l.2)%nat.

Lemma typed_unlabel k L q l :
  pt_typed k L → L !! q = Some l → unreached k q l → pt_typed k (delete q L).
Proof.
  intros [A1 A2 A3 A4 A5 A6 A7] Hq [Hact Hlen]. split; try done.
  - intros p l' [_ Hp]%lookup_delete_Some. by apply (A3 p l').
  - intros p o [_ Hp]%lookup_delete_Some. by apply A4.
  - intros p l' i x [_ Hp]%lookup_delete_Some Hl Hi Hw.
    pose proof (A5 p l' i x Hp Hl Hi Hw) as Hx. rewrite lookup_delete_ne; [done|].
    intros <-. rewrite Hq in Hx. injection Hx as ->. rewrite child_length in Hlen. lia.
  - by rewrite lookup_delete_ne.
Qed.

Lemma data_unreached k L q : pt_typed k L → L !! q = Some data_label → unreached k q data_label.
Proof.
  intros HT Hq. split; [|right; simpl; lia]. intros ->. pose proof (pt_active _ _ HT) as Ha.
  rewrite Hq in Ha. discriminate.
Qed.

Lemma alloc_data k L q k' :
  pt_typed k L → kpage_alloc k = (Ok q, k') →
  L !! q = None ∧ q ≠ 0 ∧ 0 <= q < phys_limit ∧ k' = set_pmm (k_pmm k') k ∧
  pt_typed k' (<[q:=data_label]> L).
Proof.
  intros HT Hrun. destruct (kpage_alloc_inv _ _ _ _ HT Hrun) as (Hf & Hwf & Hq & Hal & Hr & Hq0 & Hst).
  split_and!; try done; try lia. apply typed_label_data; try done; [|intros [_ Hx]%Hst; done].
  apply (typed_memory_same k); try done.
  - by rewrite Hf.
  - intros p l Hp [Hx _]%Hst. by apply (pt_page _ _ HT p l Hp) in Hx.
  - intros [Hx _]%Hst. by apply (pt_nonzero _ _ HT) in Hx.
Qed.

Lemma free_labelled k L q l :
  pt_typed k L → L !! q = Some l → unreached k q l → q ≠ 0 →
  ∃ r k', kpage_free q k = (r, k') ∧ defined r ∧ k' = set_pmm (k_pmm k') k ∧ pt_typed k' (delete q L).
Proof.
  intros HT Hq Hun Hq0. destruct (pt_page _ _ HT _ _ Hq) as (_ & Hr & _).
  assert (page_addr q) as Hpa.
  { unfold page_addr, phys_limit, two64, SCDK_PAGE_SIZE in *. lia. }
  unfold kpage_free, zoom. pose proof (typed_unlabel _ _ _ _ HT Hq Hun) as HT1.
  destruct (page_free_cases (k_pmm k) q (pt_pmm _ _ HT) Hpa) as [[_ [e ->]]|(_ & s' & -> & Hwf & Hst & _)].
  - do 2 eexists. split; [reflexivity|]. split_and!; [done|by destruct k|]. by destruct k.
  - do 2 eexists. split; [reflexivity|]. split_and!; [done|done|].
    apply (typed_memory_same k); [done|done|done| |]; simpl; rewrite Hst.
    + intros p l' [Hne Hp]%lookup_delete_Some. rewrite not_elem_of_cons. split; [done|].
      by apply (pt_page _ _ HT p l' Hp).
    + rewrite not_elem_of_cons. split; [done|apply HT].
Qed.

Lemma free_data k L q :
  pt_typed k L → L !! q = Some data_label → q ≠ 0 →
  ∃ r k', kpage_free q k = (r, k') ∧ defined r ∧ k' = set_pmm (k_pmm k') k ∧ pt_typed k' (delete q L).
Proof. intros HT Hq. eapply free_labelled; [done..|by eapply data_unreached]. Qed.
End data_pages.

(** ** Steps that only touch the kernel half *)
Section vm_step.
Implicit Types (k : kernel) (L : gmap Z label).

(** Only the heap, the free pages and the memory change. *)
Definition hv_frame k k' : Prop :=
  k' = set_heap (k_heap k') (set_pmm (k_pmm k') (set_memory (memory (k_vmm k')) k)).

Lemma hv_frame_refl k : hv_frame k k.
Proof. by destruct k as [? ? ? ? ? ? ? ? [] ? ? ? ?]. Qed.
Lemma hv_frame_trans k1 k2 k3 : hv_frame k1 k2 → hv_frame k2 k3 → hv_frame k1 k3.
Proof. unfold hv_frame. intros H1 H2. rewrite H2, H1. reflexivity. Qed.
Lemma vm_frame_hv k k' : vm_frame k k' → hv_frame k k'.
Proof. unfold vm_frame, hv_frame. intros H. rewrite H. by destruct k. Qed.

Record vm_step k k' L L' : Prop := {
  vs_frame : hv_frame k k';
  vs_labels : L ⊆ L';
  vs_typed : pt_typed k' L';
  vs_user : ∀ root virt, L !! root = Some (root, []) → 0 <= virt → pml4_index virt < 256 →
    pte k' root virt = pte k root virt
}.

Lemma vm_step_refl k L : pt_typed k L → vm_step k k L L.
Proof. intros HT. split; [apply hv_frame_refl|done|done|done]. Qed.

Lemma vm_step_trans k1 k2 k3 L1 L2 L3 :
  vm_step k1 k2 L1 L2 → vm_step k2 k3 L2 L3 → vm_step k1 k3 L1 L3.
Proof.
  intros [A1 A2 A3 A4] [B1 B2 B3 B4]. split.
  - by eapply hv_frame_trans.
  - by etrans.
  - done.
  - intros root virt Hr Hv Hi. rewrite B4, A4; try done. by eapply lookup_weaken.
Qed.

Lemma pte_memory k k' root virt : memory (k_vmm k') = memory (k_vmm k) → pte k' root virt = pte k root virt.
Proof.
  intros Hm. assert (∀ a, load64 k' a = load64 k a) as Hl by (intros a; unfold load64; by rewrite Hm).
  unfold pte. assert (∀ idxs t, reach k' t idxs = reach k t idxs) as Hre.
  { induction idxs as [|i idxs IH]; intros t; [done|]. cbn [reach]. rewrite Hl.
    destruct (walk_entry _); cbn [rbind]; [apply IH|done|done]. }
  rewrite Hre. destruct (reach k root (path virt)); cbn [rbind]; [|done..]. by rewrite Hl.
Qed.

(** A step that leaves the page tables alone. *)
Lemma vm_step_heap k k' L : pt_typed k L → k' = set_heap (k_heap k') k → vm_step k k' L L.
Proof.
  intros HT Hf. split; [|done| |].
  - unfold hv_frame. rewrite Hf. by destruct k as [? ? ? ? ? ? ? ? [] ? ? ? ?].
  - apply (typed_memory_same k); [done|by rewrite Hf|rewrite Hf; apply HT| |]; rewrite Hf.
    + intros p l Hp. by apply (pt_page _ _ HT p l).
    + apply HT.
  - intros root virt _ _ _. apply pte_memory. by rewrite Hf.
Qed.

(** The addresses of the heap lie in the last entry of the root. *)
Definition heap_addr (virt : Z) : Prop :=
  SCDK_HEAP_BASE <= virt < SCDK_HEAP_BASE + SCDK_HEAP_SIZE.

Lemma heap_addr_pml4 virt : heap_addr virt → pml4_index virt = 511.
Proof.
  unfold heap_addr, SCDK_HEAP_BASE, SCDK_HEAP_SIZE, pml4_index. intros H.
  rewrite Z.shiftr_div_pow2 by done. replace (virt / 2 ^ 39) with 33554431; [reflexivity|].
  change (2 ^ 39) with 549755813888. Z.to_euclidean_division_equations; lia.
Qed.

Lemma heap_addr_u64 virt : heap_addr virt → u64 virt ∧ 0 <= virt.
Proof. unfold heap_addr, u64, SCDK_HEAP_BASE, SCDK_HEAP_SIZE, two64. lia. Qed.

Lemma page_bits_pml4 v v' : 0 <= v → 0 <= v' → pml4_index v ≠ pml4_index v' → page_bits v ≠ page_bits v'.
Proof.
  intros Hv Hv' Hne E. rewrite !slot_bits in E by done.
  pose proof (index_range v) as (?&?&?&?). pose proof (index_range v') as (?&?&?&?). lia.
Qed.

Lemma heap_page_bits v v' :
  heap_addr v → heap_addr v' → v / 4096 ≠ v' / 4096 → page_bits v ≠ page_bits v'.
Proof.
  unfold heap_addr, SCDK_HEAP_BASE, SCDK_HEAP_SIZE, page_bits. intros H H' Hne.
  Z.to_euclidean_division_equations; lia.
Qed.

Lemma user_not_heap v virt :
  heap_addr v → 0 <= virt → pml4_index virt < 256 → page_bits virt ≠ page_bits v.
Proof.
  intros H Hv Hi. apply page_bits_pml4; [done|by apply heap_addr_u64|].
  rewrite (heap_addr_pml4 v H). lia.
Qed.

Lemma heap_map_page k L virt phys r k' :
  pt_typed k L → heap_addr virt → 0 <= phys < phys_limit →
  scdk_vmm_map_page virt phys SCDK_VMM_MAP_WRITE k = (r, k') →
  ∃ L', vm_step k k' L L' ∧
    (∀ virt', 0 <= virt' → page_bits virt' ≠ page_bits virt →
       scdk_vmm_virt_to_phys k' virt' = scdk_vmm_virt_to_phys k virt') ∧
    match r with
    | Ok _ => scdk_vmm_virt_to_phys k' virt = Ok (phys, SCDK_VMM_MAP_WRITE)
    | Err _ => True
    | Ub => False
    end.
Proof.
  intros HT Hh Hp Hrun. destruct (heap_addr_u64 _ Hh) as [Hv _].
  unfold scdk_vmm_map_page, bind, gets in Hrun.
  destruct (map_page_state k L _ virt phys SCDK_VMM_MAP_WRITE r k' HT (pt_active _ _ HT) Hv Hp) as (L' & Hsub & HT' & Hfr & Hother & Hnew);
    [done|done|].
  destruct (vm_frame_vmm _ _ Hfr) as [Hi Ha]. exists L'. split_and!.
  - split; [by apply vm_frame_hv|done|done|]. intros root v Hr Hv0 Hlow.
    apply Hother; [done|done|]. left. by apply user_not_heap.
  - intros v Hv0 Hne. unfold scdk_vmm_virt_to_phys. rewrite Ha. apply pte_same_translation; [done|].
    apply Hother; [apply HT|done|by left].
  - destruct r as [[]| |]; [|done..]. unfold scdk_vmm_virt_to_phys. rewrite Ha.
    specialize (Hnew 0 ltac:(lia)). by rewrite !Z.add_0_r in Hnew.
Qed.

Lemma heap_unmap_page k L virt r k' :
  pt_typed k L → heap_addr virt → scdk_vmm_unmap_page virt k = (r, k') →
  vm_step k k' L L ∧ defined r ∧
  ∀ virt', 0 <= virt' → page_bits virt' ≠ page_bits virt →
    scdk_vmm_virt_to_phys k' virt' = scdk_vmm_virt_to_phys k virt'.
Proof.
  intros HT Hh Hrun. destruct (heap_addr_u64 _ Hh) as [Hv _].
  unfold scdk_vmm_unmap_page, bind, gets in Hrun.
  destruct (unmap_page_state k L _ virt r k' HT (pt_active _ _ HT) Hv Hrun) as (HT' & Hfr & _ & Hother & Hr).
  destruct (vm_frame_vmm _ _ Hfr) as [Hi Ha]. split_and!.
  - split; [by apply vm_frame_hv|done|done|]. intros root v Hr0 Hv0 Hlow.
    apply Hother; [done|done|]. left. by apply user_not_heap.
  - by destruct r.
  - intros v Hv0 Hne. unfold scdk_vmm_virt_to_phys. rewrite Ha. apply pte_same_translation; [done|].
    apply Hother; [apply HT|done|by left].
Qed.
End vm_step.

(** ** Committing pages *)
Section commit.
Implicit Types (k : kernel) (L : gmap Z label) (pages : list Z).

(** Steps seen from a fixed set of labels. *)
Lemma vm_step_seq k1 k2 k3 L0 L1 L2 :
  vm_step k1 k2 L0 L1 → vm_step k2 k3 L0 L2 → vm_step k1 k3 L0 L2.
Proof.
  intros [A1 A2 A3 A4] [B1 B2 B3 B4]. split; [by eapply hv_frame_trans|done|done|].
  intros root virt Hr Hv Hi. by rewrite B4, A4.
Qed.

Lemma vm_step_sub k k' L0 L L1 : vm_step k k' L L1 → L0 ⊆ L → vm_step k k' L0 L1.
Proof.
  intros [A1 A2 A3 A4] Hsub. split; [done|by etrans|done|].
  intros root virt Hr. apply A4. by eapply lookup_weaken.
Qed.

(** The page allocator moves, the memory does not. *)
Lemma vm_step_pmm k k' L0 L1 :
  k' = set_pmm (k_pmm k') k → L0 ⊆ L1 → pt_typed k' L1 → vm_step k k' L0 L1.
Proof.
  intros Hf Hs HT. split; [|done|done|].
  - unfold hv_frame. rewrite Hf. by destruct k as [? ? ? ? ? ? ? ? [] ? ? ? ?].
  - intros root virt _ _ _. apply pte_memory. by rewrite Hf.
Qed.

(** [pages] are data pages beyond [L0], mapped one after the other from [base]. *)
Record mapped_over k L0 L base pages : Prop := {
  mv_typed : pt_typed k L;
  mv_sub : L0 ⊆ L;
  mv_nodup : NoDup pages;
  mv_label : ∀ p, p ∈ pages → L !! p = Some data_label ∧ L0 !! p = None ∧ p ≠ 0;
  mv_addr : ∀ i, (i < length pages)%nat → heap_addr (base + 4096 * Z.of_nat i);
  mv_trans : ∀ i p, pages !! i = Some p →
    scdk_vmm_virt_to_phys k (base + 4096 * Z.of_nat i) = Ok (p, SCDK_VMM_MAP_WRITE)
}.

Lemma heap_addr_wrap v : heap_addr v → wrap64 v = v.
Proof. intros Hh. apply heap_addr_u64 in Hh as [Hv _]. by apply Z.mod_small. Qed.

Lemma heap_page_distinct base (i j : nat) :
  heap_addr (base + 4096 * Z.of_nat i) → heap_addr (base + 4096 * Z.of_nat j) → i ≠ j →
  page_bits (base + 4096 * Z.of_nat i) ≠ page_bits (base + 4096 * Z.of_nat j).
Proof.
  intros Hi Hj Hne. apply heap_page_bits; [done..|].
  rewrite (Z.mul_comm 4096 (Z.of_nat i)), (Z.mul_comm 4096 (Z.of_nat j)), !Z.div_add by done. lia.
Qed.

(** What one iteration of the undo loop leaves. *)
Lemma mapped_over_pop k k2 L0 L base pages p :
  mapped_over k L0 L base (pages ++ [p]) → pt_typed k2 (delete p L) →
  (∀ virt', 0 <= virt' → page_bits virt' ≠ page_bits (base + 4096 * Z.of_nat (length pages)) →
     scdk_vmm_virt_to_phys k2 virt' = scdk_vmm_virt_to_phys k virt') →
  mapped_over k2 L0 (delete p L) base pages.
Proof.
  intros [A1 A2 A3 A4 A5 A6] HT Hv. apply NoDup_app in A3 as (A3 & Hni & _).
  rewrite length_app in A5. simpl in A5. split.
  - done.
  - intros x. specialize (A2 x). destruct (decide (x = p)) as [->|].
    + destruct (A4 p) as (_ & -> & _); [apply elem_of_app; right; left|]. by destruct (delete p L !! p).
    + by rewrite lookup_delete_ne.
  - done.
  - intros x Hx. destruct (A4 x) as (B1 & B2 & B3); [apply elem_of_app; by left|]. split_and!; try done.
    rewrite lookup_delete_ne; [done|]. intros <-. apply (Hni p Hx). left.
  - intros i Hi. apply A5. lia.
  - intros i x Hx. pose proof (lookup_lt_Some _ _ _ Hx) as Hlt. rewrite Hv.
    + apply A6. by rewrite lookup_app_l.
    + apply heap_addr_u64, A5. lia.
    + apply heap_page_distinct; [apply A5; lia|apply A5; lia|lia].
Qed.

(** Translations outside the first [m] pages from [base]. *)
Definition same_elsewhere k k' base (m : nat) : Prop :=
  ∀ v, 0 <= v → (∀ i, (i < m)%nat → page_bits v ≠ page_bits (base + 4096 * Z.of_nat i)) →
    scdk_vmm_virt_to_phys k' v = scdk_vmm_virt_to_phys k v.
Lemma pmm_translate k k' v : k' = set_pmm (k_pmm k') k → scdk_vmm_virt_to_phys k' v = scdk_vmm_virt_to_phys k v.
Proof.
  intros ->. unfold scdk_vmm_virt_to_phys. apply pte_same_translation; [done|]. by apply pte_memory.
Qed.
Lemma same_elsewhere_trans k1 k2 k3 base m m' :
  (m ≤ m')%nat → same_elsewhere k1 k2 base m → same_elsewhere k2 k3 base m' → same_elsewhere k1 k3 base m'.
Proof. intros Hm H1 H2 v Hv Hi. rewrite H2, H1; [done|done| |done|done]. intros i ?. apply Hi. lia. Qed.

Lemma unmap_loop base L0 pages : ∀ k L,
  mapped_over k L0 L base pages →
  ∃ k' L', unmap_heap_pages (length pages) base k = (Ok tt, k') ∧ vm_step k k' L0 L' ∧
    same_elsewhere k k' base (length pages).
Proof.
  induction pages as [|p pages IH] using rev_ind; intros k L HM.
  { exists k, L. split; [done|]. split; [|by intros v]. eapply vm_step_sub; [apply vm_step_refl|]; apply HM. }
  rewrite length_app, Nat.add_comm. cbn [length Nat.add unmap_heap_pages].
  assert (heap_addr (base + 4096 * Z.of_nat (length pages))) as Hh.
  { apply (mv_addr _ _ _ _ _ HM). rewrite length_app. simpl. lia. }
  destruct (mv_label _ _ _ _ _ HM p) as (Hlab & Hl0 & Hp0); [apply elem_of_app; right; left|].
  pose proof (mv_trans _ _ _ _ _ HM (length pages) p) as Htr.
  rewrite lookup_app_r, Nat.sub_diag in Htr by lia. specialize (Htr eq_refl).
  change SCDK_PAGE_SIZE with 4096. rewrite heap_addr_wrap by done.
  set (virt := base + _) in *. unfold bind at 1, attempt at 1, query. rewrite Htr.
  destruct (scdk_vmm_unmap_page virt k) as [r1 k1] eqn:Hun.
  destruct (heap_unmap_page k L virt r1 k1 (mv_typed _ _ _ _ _ HM) Hh Hun) as (Hs1 & Hd1 & Hv1).
  destruct (free_data k1 L p (vs_typed _ _ _ _ Hs1) Hlab Hp0) as (r2 & k2 & Hfree & Hd2 & Hf2 & HT2).
  assert (mapped_over k2 L0 (delete p L) base pages) as HM2.
  { eapply mapped_over_pop; [exact HM|exact HT2|]. intros v Hv Hne. rewrite <-Hv1 by done.
    unfold scdk_vmm_virt_to_phys. rewrite Hf2. apply pte_same_translation; [done|]. by apply pte_memory. }
  destruct (IH k2 (delete p L) HM2) as (k' & L' & Hrun & Hs' & He). exists k', L'. split; [|split].
  - unfold bind at 1, attempt at 1. rewrite Hun.
    assert ((attempt (kpage_free p) ;; unmap_heap_pages (length pages) base) k1 = (Ok tt, k')) as Hrest.
    { unfold bind at 1, attempt at 1. rewrite Hfree. by destruct r2. }
    by destruct r1.
  - eapply vm_step_seq; [|exact Hs'].
    apply (vm_step_seq _ k1 _ _ L); [apply (vm_step_sub _ _ _ L); [done|apply HM]|].
    apply vm_step_pmm; [done|apply HM2|done].
  - intros v Hv Hi. rewrite He by (done || (intros i ?; apply Hi; lia)). rewrite (pmm_translate k1 k2 v Hf2).
    apply Hv1; [done|]. apply Hi. lia.
Qed.

Lemma mapped_over_push k k1 k2 L0 L L2 base pages q :
  mapped_over k L0 L base pages → L !! q = None → q ≠ 0 →
  k1 = set_pmm (k_pmm k1) k → vm_step k1 k2 (<[q:=data_label]> L) L2 →
  heap_addr (base + 4096 * Z.of_nat (length pages)) →
  (∀ virt', 0 <= virt' → page_bits virt' ≠ page_bits (base + 4096 * Z.of_nat (length pages)) →
     scdk_vmm_virt_to_phys k2 virt' = scdk_vmm_virt_to_phys k1 virt') →
  scdk_vmm_virt_to_phys k2 (base + 4096 * Z.of_nat (length pages)) = Ok (q, SCDK_VMM_MAP_WRITE) →
  mapped_over k2 L0 L2 base (pages ++ [q]).
Proof.
  intros [A1 A2 A3 A4 A5 A6] Hq Hq0 Hf Hs Hh Hv Hnew. split.
  - apply Hs.
  - etrans; [exact A2|]. etrans; [by apply insert_subseteq|apply Hs].
  - apply NoDup_app. split_and!; [done| |apply NoDup_singleton].
    intros x Hx ->%list_elem_of_singleton. destruct (A4 q Hx). congruence.
  - intros x [Hx|Hx]%elem_of_app.
    + destruct (A4 x Hx) as (B1 & B2 & B3). split_and!; try done.
      eapply lookup_weaken; [|apply Hs]. rewrite lookup_insert_ne; [done|congruence].
    + apply list_elem_of_singleton in Hx as ->. split_and!; [|by eapply lookup_weaken_None|done].
      eapply lookup_weaken; [|apply Hs]. apply lookup_insert_eq.
  - rewrite length_app. simpl. intros i Hi. destruct (decide (i = length pages)) as [->|]; [done|].
    apply A5. lia.
  - intros i x [Hx|[Hge Hx]]%lookup_app_Some.
    + pose proof (lookup_lt_Some _ _ _ Hx) as Hlt. rewrite Hv.
      * rewrite <-(A6 i x Hx). unfold scdk_vmm_virt_to_phys. rewrite Hf.
        apply pte_same_translation; [done|]. by apply pte_memory.
      * by apply heap_addr_u64, A5.
      * apply heap_page_distinct; [by apply A5|done|lia].
    + apply list_lookup_singleton_Some in Hx as [Hi <-].
      replace i with (length pages) by lia. done.
Qed.

(** A page that could not be mapped is given back. *)
Lemma mapped_over_abandon k k1 k2 k3 L0 L L2 base pages q :
  mapped_over k L0 L base pages → L !! q = None →
  heap_addr (base + 4096 * Z.of_nat (length pages)) →
  k1 = set_pmm (k_pmm k1) k → vm_step k1 k2 (<[q:=data_label]> L) L2 →
  (∀ virt', 0 <= virt' → page_bits virt' ≠ page_bits (base + 4096 * Z.of_nat (length pages)) →
     scdk_vmm_virt_to_phys k2 virt' = scdk_vmm_virt_to_phys k1 virt') →
  k3 = set_pmm (k_pmm k3) k2 → pt_typed k3 (delete q L2) →
  mapped_over k3 L0 (delete q L2) base pages.
Proof.
  intros [A1 A2 A3 A4 A5 A6] Hq Hh Hf1 Hs2 Hv2 Hf3 HT3. split; try done.
  - intros x. destruct (decide (x = q)) as [->|].
    + rewrite (lookup_weaken_None _ _ _ Hq A2). by destruct (delete q L2 !! q).
    + rewrite lookup_delete_ne by done. assert (L0 ⊆ L2) as Hsub; [|apply Hsub].
      etrans; [exact A2|]. etrans; [by apply (insert_subseteq L q data_label)|apply Hs2].
  - intros x Hx. destruct (A4 x Hx) as (B1 & B2 & B3). split_and!; try done.
    rewrite lookup_delete_ne by congruence. eapply lookup_weaken; [|apply Hs2].
    rewrite lookup_insert_ne by congruence. done.
  - intros i x Hx. pose proof (lookup_lt_Some _ _ _ Hx) as Hlt. rewrite <-(A6 i x Hx).
    transitivity (scdk_vmm_virt_to_phys k2 (base + 4096 * Z.of_nat i)).
    { unfold scdk_vmm_virt_to_phys. rewrite Hf3. apply pte_same_translation; [done|]. by apply pte_memory. }
    rewrite Hv2; [|by apply heap_addr_u64, A5|apply heap_page_distinct; [by apply A5|done|lia]].
    unfold scdk_vmm_virt_to_phys. rewrite Hf1. apply pte_same_translation; [done|]. by apply pte_memory.
Qed.

Lemma map_loop base L0 n : ∀ pages k L,
  mapped_over k L0 L base pages →
  (∀ i, (i < length pages + n)%nat → heap_addr (base + 4096 * Z.of_nat i)) →
  ∃ r k' L', map_heap_loop n (length pages) base k = (r, k') ∧ defined r ∧ vm_step k k' L0 L' ∧
    same_elsewhere k k' base (length pages + n) ∧
    (r = Ok tt → ∃ pages', length pages' = (length pages + n)%nat ∧ mapped_over k' L0 L' base pages').
Proof.
  induction n as [|n IH]; intros pages k L HM Hn.
  { exists (Ok tt), k, L. split_and!; [done|done| |by intros v|].
    - apply (vm_step_sub _ _ _ L); [apply vm_step_refl|]; apply HM.
    - intros _. exists pages. split; [lia|done]. }
  pose proof (mv_typed _ _ _ _ _ HM) as HT. cbn [map_heap_loop]. unfold bind at 1.
  destruct (kpage_alloc k) as [[q|e|] k1] eqn:Hal.
  2: { apply (kpage_alloc_Err _ L) in Hal as ->; [|done]. exists (Err e), k, L. split_and!; [done|done| |by intros v|done].
       apply (vm_step_sub _ _ _ L); [by apply vm_step_refl|apply HM]. }
  2: { exfalso. unfold kpage_alloc, zoom in Hal. pose proof (page_alloc_defined _ (pt_pmm _ _ HT)) as Hd.
       destruct (scdk_page_alloc (k_pmm k)) as [r s]. injection Hal as -> _. done. }
  destruct (alloc_data _ _ _ _ HT Hal) as (Hq & Hq0 & Hqr & Hf1 & HT1).
  assert (heap_addr (base + 4096 * Z.of_nat (length pages))) as Hh by (apply Hn; lia).
  assert (L ⊆ <[q:=data_label]> L) as Hsub by (by apply insert_subseteq).
  change SCDK_PAGE_SIZE with 4096. rewrite heap_addr_wrap by done. unfold bind at 1, attempt at 1.
  destruct (scdk_vmm_map_page _ q SCDK_VMM_MAP_WRITE k1) as [r2 k2] eqn:Hmap.
  destruct (heap_map_page _ _ _ _ _ _ HT1 Hh Hqr Hmap) as (L2 & Hs2 & Hv2 & Hr2).
  assert (vm_step k k2 L0 L2) as Hs02.
  { apply (vm_step_seq _ k1 _ _ (<[q:=data_label]> L)).
    - apply vm_step_pmm; [done| |done]. by etrans; [apply HM|].
    - apply (vm_step_sub _ _ _ _ _ Hs2). by etrans; [apply HM|]. }
  assert (same_elsewhere k k2 base (S (length pages))) as He2.
  { intros v Hv Hi. rewrite Hv2 by (done || (apply Hi; lia)). by apply pmm_translate. }
  destruct r2 as [[]|e|]; [| |done].
  - pose proof (mapped_over_push _ _ _ _ _ _ _ _ _ HM Hq Hq0 Hf1 Hs2 Hh Hv2 Hr2) as HM2.
    destruct (IH _ _ _ HM2) as (r & k' & L' & Hrun & Hd & Hs' & He' & Hp').
    { intros i Hi. apply Hn. rewrite length_app in Hi. simpl in Hi. lia. }
    rewrite length_app, (Nat.add_comm (length pages)) in Hrun, He', Hp'.
    exists r, k', L'. split_and!; [exact Hrun|done|by eapply vm_step_seq| |].
    + replace (length pages + S n)%nat with (length [q] + length pages + n)%nat by (cbn [length]; lia).
      eapply same_elsewhere_trans; [|exact He2|exact He']. cbn [length]. lia.
    + intros Hr. destruct (Hp' Hr) as (ps & Hl & ?). exists ps. cbn [length] in Hl. split; [lia|done].
  - assert (L2 !! q = Some data_label) as Hq2.
    { eapply lookup_weaken; [apply lookup_insert_eq|apply Hs2]. }
    destruct (free_data k2 L2 q (vs_typed _ _ _ _ Hs2) Hq2 Hq0) as (r3 & k3 & Hfree & Hd3 & Hf3 & HT3).
    pose proof (mapped_over_abandon _ _ _ _ _ _ _ _ _ _ HM Hq Hh Hf1 Hs2 Hv2 Hf3 HT3) as HM3.
    destruct (unmap_loop base L0 pages k3 _ HM3) as (k' & L' & Hrun & Hs' & He').
    exists (Err e), k', L'. split_and!; [|done| | |done].
    + unfold bind at 1, attempt at 1. rewrite Hfree.
      assert ((unmap_heap_pages (length pages) base ;; lift (Err e)) k3 = (Err e, k' : kernel) :> (result unit * _)) as Hrest.
      { unfold bind. by rewrite Hrun. }
      by destruct r3.
    + eapply vm_step_seq; [|exact Hs']. eapply vm_step_seq; [exact Hs02|].
      apply vm_step_pmm; [done|apply HM3|done].
    + intros v Hv Hi. rewrite He' by (done || (intros i ?; apply Hi; lia)). rewrite (pmm_translate k2 k3 v Hf3).
      apply He2; [done|]. intros i ?. apply Hi. lia.
Qed.
End commit.

(** ** Growing, allocating, freeing *)
Section heap_calls.
Implicit Types (k : kernel) (L : gmap Z label) (hs : blocks).

Lemma map_heap_pages_vm k L base len :
  pt_typed k L → SCDK_HEAP_BASE <= base → 0 <= len → len mod 4096 = 0 →
  base + len <= SCDK_HEAP_BASE + SCDK_HEAP_SIZE →
  defined (map_heap_pages base len k).1 ∧ ∃ L', vm_step k (map_heap_pages base len k).2 L L'.
Proof.
  intros HT Hb Hl Hm Hle. unfold map_heap_pages. change SCDK_PAGE_SIZE with 4096.
  set (n := Z.to_nat _). assert (Z.of_nat n = len / 4096) as Hn.
  { unfold n. Z.to_euclidean_division_equations; lia. }
  destruct (map_loop base L n [] k L) as (r & k' & L' & Hrun & Hd & Hs & _).
  - split; try done; [apply NoDup_nil_2|intros p Hp; by apply elem_of_nil in Hp|simpl; lia].
  - simpl. intros i Hi. unfold heap_addr. Z.to_euclidean_division_equations; lia.
  - cbn [length] in Hrun. rewrite Hrun. split; [done|by exists L'].
Qed.

(** Reached from [k] by steps on the kernel half; edits of the block list
    stay there. *)
Definition vm_from k L k' : Prop := ∃ L', vm_step k k' L L'.

Lemma vm_from_heap k L k' x : vm_from k L k' → vm_from k L (set_heap x k').
Proof.
  intros [L' Hs]. exists L'. eapply vm_step_trans; [exact Hs|].
  apply vm_step_heap; [apply Hs|done].
Qed.

Lemma update_block_vm k L a f : preserves (vm_from k L) (update_block a f).
Proof. unfold update_block, get_block, put_block, set_blocks. preserves_tac. by apply vm_from_heap. Qed.
Lemma put_block_vm k L a b : preserves (vm_from k L) (put_block a b).
Proof. unfold put_block, set_blocks. preserves_tac. by apply vm_from_heap. Qed.
Lemma get_block_vm k L a : preserves (vm_from k L) (get_block a).
Proof. unfold get_block. preserves_tac. Qed.

#[local] Hint Resolve update_block_vm put_block_vm get_block_vm vm_from_heap : scdk.

Lemma block_remove_vm k L a : preserves (vm_from k L) (block_remove a).
Proof. unfold block_remove, set_head, set_tail. preserves_tac; eauto with scdk. Qed.
#[local] Hint Resolve block_remove_vm : scdk.
Lemma block_coalesce_vm k L a : preserves (vm_from k L) (block_coalesce_forward a).
Proof. unfold block_coalesce_forward. preserves_tac. Qed.
Lemma block_insert_tail_vm k L a : preserves (vm_from k L) (block_insert_tail a).
Proof. unfold block_insert_tail, set_head, set_tail. preserves_tac; eauto with scdk. Qed.
Lemma block_split_vm k L a n : preserves (vm_from k L) (block_split a n).
Proof. unfold block_split, set_tail. preserves_tac; eauto with scdk. Qed.
#[local] Hint Resolve block_coalesce_vm block_insert_tail_vm block_split_vm : scdk.

Lemma heap_extend_vm k L hs n :
  heap_wf k hs → pt_typed k L → 0 <= n <= SCDK_HEAP_SIZE →
  defined (heap_extend n k).1 ∧ vm_from k L (heap_extend n k).2.
Proof.
  intros Hwf HT Hn.
  assert (SCDK_HEAP_BASE <= heap_commit_end (k_heap k)) as Hb.
  { rewrite (hw_commit _ _ Hwf). apply seg_end_ge, Hwf. }
  split.
  - destruct (heap_extend n k) as [r k'] eqn:Hrun.
    pose proof (heap_extend_cases _ _ _ _ _ Hwf Hn Hrun) as Hc. destruct r as [|e|]; [done..|].
    destruct Hc as (c & Hc0 & Hcm & Hle & Hub).
    destruct (map_heap_pages_vm k L _ c HT Hb Hc0 Hcm Hle) as [Hd _]. done.
  - assert (vm_from k L k) as H0 by (exists L; by apply vm_step_refl).
    unfold heap_extend. rewrite header_48. unfold checked_add_size.
    rewrite (proj2 (Z.ltb_ge _ _)) by (unfold two64, SCDK_HEAP_SIZE in *; lia).
    rewrite align_up_size_page by (unfold SCDK_HEAP_SIZE in *; lia).
    set (c := if _ <? _ then _ else _).
    assert (0 <= c ∧ c mod 4096 = 0) as [Hc0 Hcm].
    { unfold c, SCDK_HEAP_INITIAL_PAGES, SCDK_PAGE_SIZE. case_match; [done|].
      Z.to_euclidean_division_equations; lia. }
    unfold bind at 1, gets. unfold checked_add_uintptr.
    destruct (_ <? heap_commit_end (k_heap k)); [done|]. unfold bind at 1, guard.
    destruct (SCDK_HEAP_BASE + SCDK_HEAP_SIZE <? _) eqn:Hle; [done|]. bsplit. unfold ret at 1, bind at 1.
    destruct (map_heap_pages_vm k L _ c HT Hb Hc0 Hcm Hle) as [_ Hm].
    destruct (map_heap_pages _ c k) as [[[]| |] k1]; simpl in Hm; [|done..].
    unfold set_commit_end. eapply (preserves_bind (vm_from k L)); [..|exact Hm]; [eauto with scdk|].
    intros _. preserves_tac; eauto with scdk.
Qed.

(** [scdk_kalloc] always returns, and what it does to the page tables stays in
    the kernel half. *)
Lemma kalloc_vm k L hs size :
  heap_wf k hs → heap_initialized (k_heap k) = true → pt_typed k L → u64 size →
  ∃ p k' L', scdk_kalloc size k = (Ok p, k') ∧ vm_step k k' L L' ∧ kalloc_post k' hs size p.
Proof.
  intros Hwf Hr HT Hs.
  destruct (kalloc_total k hs size Hwf Hr Hs) as [p Hp].
  { intros n Hn. by apply (heap_extend_vm k L hs n). }
  apply run_eq in Hp. pose proof (kalloc_Ok _ _ _ _ _ Hwf Hr Hs Hp) as Hpost.
  assert (vm_from k L k) as H0 by (exists L; by apply vm_step_refl).
  assert (vm_from k L (scdk_kalloc size k).2) as [L' HL'].
  { unfold scdk_kalloc. unfold bind at 1, gets.
    case_match; [done|]. case_match; [done|]. case_match eqn:Hsz; [done|]. bsplit. unfold bind at 1, query at 1.
    destruct (find_free_block k _) as [b| |]; [|done..]. case_match; [|].
    - eapply (preserves_bind (vm_from k L)); [eauto with scdk| |exact H0]. intros _. preserves_tac; eauto with scdk.
    - unfold bind at 1, attempt.
      assert (0 <= align_up_size size SCDK_HEAP_ALIGN <= SCDK_HEAP_SIZE) as Hn.
      { unfold u64 in Hs. rewrite header_48 in *. lia. }
      destruct (heap_extend_vm k L hs _ Hwf HT Hn) as [_ Hext].
      destruct (heap_extend _ k) as [[[]| |] k1]; simpl in Hext; [|done..].
      unfold bind at 1, query. destruct (find_free_block k1 _) as [b1| |]; [|done..]. case_match; [done|].
      eapply (preserves_bind (vm_from k L)); [eauto with scdk| |exact Hext]. intros _. preserves_tac; eauto with scdk. }
  by exists p, (scdk_kalloc size k).2, L'.
Qed.

(** A block that was just added is at no old address. *)
Lemma alloc_fresh hs hs' A B p sz :
  sizes_ok hs' → allocs SCDK_HEAP_BASE hs = A ++ B →
  allocs SCDK_HEAP_BASE hs' = A ++ (p, sz) :: B → ∀ sz', (p, sz') ∉ allocs SCDK_HEAP_BASE hs.
Proof.
  intros Hsz E E' sz' Hin. rewrite E in Hin.
  assert (allocs SCDK_HEAP_BASE hs' !! length A = Some (p, sz)) as Hmid.
  { by rewrite E', lookup_app_r, Nat.sub_diag by lia. }
  destruct (allocs_bounds SCDK_HEAP_BASE hs' p sz Hsz) as (_ & Hs & _).
  { by eapply list_elem_of_lookup_2. }
  apply elem_of_app in Hin as [Hin|Hin]; apply list_elem_of_lookup in Hin as [j Hj];
    pose proof (lookup_lt_Some _ _ _ Hj) as Hlt.
  - assert (allocs SCDK_HEAP_BASE hs' !! j = Some (p, sz')) as Hj' by (by rewrite E', lookup_app_l).
    pose proof (allocs_bounds SCDK_HEAP_BASE hs' p sz' Hsz (list_elem_of_lookup_2 _ _ _ Hj')).
    pose proof (allocs_disjoint _ _ _ _ _ _ _ _ Hsz Hj' Hmid Hlt). lia.
  - assert (allocs SCDK_HEAP_BASE hs' !! (length A + S j)%nat = Some (p, sz')) as Hj'.
    { rewrite E', lookup_app_r by lia. by replace (length A + S j - length A)%nat with (S j) by lia. }
    assert (length A < length A + S j)%nat as Hl by lia.
    pose proof (allocs_disjoint _ _ _ _ _ _ _ _ Hsz Hmid Hj' Hl). lia.
Qed.

End heap_calls.

(** ** Properties *)
Section stuck.
Implicit Types (k : kernel) (L : gmap Z label) (hs : blocks).

Lemma heap_wf_same k k' hs : heap_wf k hs → k_heap k' = k_heap k → heap_wf k' hs.
Proof. intros [W1 W2 W3] E. split; by rewrite ?E. Qed.

(** Mapping over an existing translation is refused and changes nothing. *)
Lemma map_page_busy k L virt phys t :
  pt_typed k L → heap_addr virt → 0 <= phys < phys_limit → scdk_vmm_virt_to_phys k virt = Ok t →
  ∃ e k' L', scdk_vmm_map_page virt phys SCDK_VMM_MAP_WRITE k = (Err e, k') ∧
    pt_typed k' L' ∧ L ⊆ L' ∧ vm_frame k k' ∧ scdk_vmm_virt_to_phys k' virt = Ok t.
Proof.
  intros HT Hh Hp Ht. destruct (heap_addr_u64 _ Hh) as [Hv _]. pose proof (pt_active _ _ HT) as Ha.
  unfold scdk_vmm_virt_to_phys in *. set (root := active_cr3_phys (k_vmm k)) in *.
  assert (scdk_vmm_map_page virt phys SCDK_VMM_MAP_WRITE k =
          scdk_vmm_map_page_in_root root virt phys SCDK_VMM_MAP_WRITE k) as -> by done.
  destruct (scdk_vmm_map_page_in_root root virt phys SCDK_VMM_MAP_WRITE k) as [r k'] eqn:Hrun.
  destruct (map_page_state k L root virt phys SCDK_VMM_MAP_WRITE r k' HT Ha Hv Hp)
    as (L' & Hsub & HT' & Hfr & _ & Hr); [done|done|].
  destruct (map_page_cases _ _ _ _ _ _ _ _ HT Ha Hrun)
    as (k1 & L1 & HG & [(_ & e & ->)|(pt & _ & _ & _ & _ & Hw & Habs & _)]).
  - destruct (vm_frame_vmm _ _ Hfr) as [Hi Hact]. exists e, k', L'. split_and!; try done.
    rewrite Hact. rewrite <-Ht. apply pte_same_translation; [done|by apply Hr].
  - exfalso. rewrite virt_to_phys_pte in Ht. minv Ht. pose proof (tg_pte _ _ _ _ HG root virt Ha) as Hpte.
    rewrite E1 in Hpte. unfold pte in Hpte. rewrite Hw in Hpte. cbn [rbind] in Hpte.
    unfold leaf_entry in Hpte. rewrite Habs in Hpte. discriminate Hpte.
Qed.
Lemma map_loop_stuck k L base t n :
  pt_typed k L → heap_addr base → scdk_vmm_virt_to_phys k base = Ok t →
  ∃ e k' L', map_heap_loop (S n) 0 base k = (Err e, k') ∧ pt_typed k' L' ∧
    scdk_vmm_virt_to_phys k' base = Ok t.
Proof.
  intros HT Hh Ht. cbn [map_heap_loop]. unfold bind at 1.
  destruct (kpage_alloc k) as [[q|e|] k1] eqn:Hal.
  - destruct (alloc_data _ _ _ _ HT Hal) as (Hq & Hq0 & Hqr & Hf1 & HT1).
    change (SCDK_PAGE_SIZE * Z.of_nat 0) with 0. rewrite Z.add_0_r, heap_addr_wrap by done.
    assert (scdk_vmm_virt_to_phys k1 base = Ok t) as Ht1.
    { rewrite <-Ht. unfold scdk_vmm_virt_to_phys. rewrite Hf1.
      apply pte_same_translation; [done|]. by apply pte_memory. }
    destruct (map_page_busy _ _ _ _ _ HT1 Hh Hqr Ht1) as (e & k2 & L2 & Hrun & HT2 & Hsub & _ & Ht2).
    assert (L2 !! q = Some data_label) as Hq2.
    { eapply lookup_weaken; [apply lookup_insert_eq|exact Hsub]. }
    destruct (free_data k2 L2 q HT2 Hq2 Hq0) as (r3 & k3 & Hfree & Hd3 & Hf3 & HT3).
    exists e, k3, (delete q L2). split_and!; [|done|].
    + unfold bind at 1, attempt at 1. rewrite Hrun. unfold bind at 1, attempt at 1. rewrite Hfree.
      by destruct r3.
    + rewrite <-Ht2. unfold scdk_vmm_virt_to_phys. rewrite Hf3.
      apply pte_same_translation; [done|]. by apply pte_memory.
  - apply (kpage_alloc_Err _ L) in Hal as ->; [|done]. by exists e, k, L.
  - exfalso. unfold kpage_alloc, zoom in Hal. pose proof (page_alloc_defined _ (pt_pmm _ _ HT)) as Hd.
    destruct (scdk_page_alloc (k_pmm k)) as [r s]. injection Hal as -> _. done.
Qed.

Lemma map_extend_stuck k L hs t n :
  pt_typed k L → heap_wf k hs → scdk_vmm_virt_to_phys k (heap_commit_end (k_heap k)) = Ok t →
  0 <= n <= SCDK_HEAP_SIZE →
  ∃ e k' L', heap_extend n k = (Err e, k') ∧ pt_typed k' L' ∧
    scdk_vmm_virt_to_phys k' (heap_commit_end (k_heap k)) = Ok t.
Proof.
  intros HT Hwf Ht Hn. assert (SCDK_HEAP_BASE <= heap_commit_end (k_heap k)) as Hb.
  { rewrite (hw_commit _ _ Hwf). apply seg_end_ge, Hwf. }
  unfold heap_extend. rewrite header_48. unfold checked_add_size.
  rewrite (proj2 (Z.ltb_ge _ _)) by (unfold two64, SCDK_HEAP_SIZE in *; lia).
  rewrite align_up_size_page by (unfold SCDK_HEAP_SIZE in *; lia). set (c := if _ <? _ then _ else _).
  assert (4096 <= c) as Hc0.
  { unfold c, SCDK_HEAP_INITIAL_PAGES, SCDK_PAGE_SIZE. case_match; [lia|]. bsplit. lia. }
  unfold bind at 1, gets, checked_add_uintptr.
  destruct (_ <? heap_commit_end (k_heap k)); [by exists SCDK_ERR_NOMEM, k, L|]. unfold bind at 1, guard.
  destruct (SCDK_HEAP_BASE + SCDK_HEAP_SIZE <? _) eqn:Hle; [by exists SCDK_ERR_NOMEM, k, L|].
  bsplit. unfold ret at 1, bind at 1, map_heap_pages.
  assert (∃ m, Z.to_nat ((c + SCDK_PAGE_SIZE - 1) / SCDK_PAGE_SIZE) = S m) as [m ->].
  { exists (Z.to_nat ((c + SCDK_PAGE_SIZE - 1) / SCDK_PAGE_SIZE) - 1)%nat. unfold SCDK_PAGE_SIZE.
    Z.to_euclidean_division_equations; lia. }
  destruct (map_loop_stuck k L (heap_commit_end (k_heap k)) t m HT) as (e & k' & L' & -> & HT' & Hv);
    [unfold heap_addr; lia|done|]. by exists e, k', L'.
Qed.
(** The page at the end [c] of the committed range is mapped. *)
Record cannot_grow (c : Z) (t : Z * Z) k : Prop := {
  cg_typed : ∃ L, pt_typed k L;
  cg_heap : ∃ hs, heap_wf k hs;
  cg_end : heap_commit_end (k_heap k) = c;
  cg_mapped : scdk_vmm_virt_to_phys k c = Ok t
}.
Lemma cannot_grow_extend c t k n :
  cannot_grow c t k → 0 <= n <= SCDK_HEAP_SIZE → ∃ e k', heap_extend n k = (Err e, k') ∧ cannot_grow c t k'.
Proof.
  intros [[L HT] [hs Hwf] Hc Ht] Hn. subst c.
  destruct (map_extend_stuck k L hs t n HT Hwf Ht Hn) as (e & k' & L' & Hrun & HT' & Hv).
  destruct (heap_extend_cases _ _ _ _ _ Hwf Hn Hrun) as [Hh _].
  exists e, k'. split; [done|]. split; [by exists L'|exists hs|by rewrite Hh|done].
  destruct Hwf as [W1 W2 W3]. split; by rewrite ?Hh.
Qed.

(** Edits of the block list leave the end and the page tables alone. *)
Definition end_mapped (c : Z) (t : Z * Z) k : Prop :=
  heap_commit_end (k_heap k) = c ∧ scdk_vmm_virt_to_phys k c = Ok t.
Lemma end_mapped_heap c t k h :
  end_mapped c t k → heap_commit_end h = heap_commit_end (k_heap k) → end_mapped c t (set_heap h k).
Proof.
  intros [E Ht] Hh. split; [by etrans|]. rewrite <-Ht. unfold scdk_vmm_virt_to_phys.
  apply pte_same_translation; [done|]. by apply pte_memory.
Qed.
Ltac end_tac := preserves_tac; first [done|by apply end_mapped_heap|idtac].
Lemma update_block_end c t a f : preserves (end_mapped c t) (update_block a f).
Proof. unfold update_block, get_block, put_block, set_blocks. end_tac. Qed.
Lemma put_block_end c t a b : preserves (end_mapped c t) (put_block a b).
Proof. unfold put_block, set_blocks. end_tac. Qed.
Lemma get_block_end c t a : preserves (end_mapped c t) (get_block a).
Proof. unfold get_block. end_tac. Qed.
#[local] Hint Resolve update_block_end put_block_end get_block_end : scdk.
Lemma block_remove_end c t a : preserves (end_mapped c t) (block_remove a).
Proof. unfold block_remove, set_head, set_tail. end_tac. Qed.
#[local] Hint Resolve block_remove_end : scdk.
Lemma block_coalesce_end c t a : preserves (end_mapped c t) (block_coalesce_forward a).
Proof. unfold block_coalesce_forward. end_tac. Qed.
Lemma block_split_end c t a n : preserves (end_mapped c t) (block_split a n).
Proof. unfold block_split, set_tail. end_tac. Qed.
#[local] Hint Resolve block_coalesce_end block_split_end : scdk.
Lemma kfree_end c t p : preserves (end_mapped c t) (scdk_kfree p).
Proof. unfold scdk_kfree. end_tac. Qed.

Lemma kalloc_stuck c t k size : cannot_grow c t k → u64 size → cannot_grow c t (scdk_kalloc size k).2.
Proof.
  intros HG Hs. pose proof HG as [[L HT] [hs Hwf] Hc Ht].
  destruct (heap_initialized (k_heap k)) eqn:Hr; [|unfold scdk_kalloc, bind, gets; by rewrite Hr].
  destruct (kalloc_vm k L hs size Hwf Hr HT Hs) as (p & k' & L' & Hrun & Hstep & hs' & Hwf' & _).
  assert (end_mapped c t (scdk_kalloc size k).2) as [He Hm].
  { assert (end_mapped c t k) as H0 by done. assert (∀ b n, preserves (end_mapped c t)
      (block_split b n ;; update_block b (λ x, with_free x false) ;; ret (block_payload b))) as Htake by (intros; end_tac).
    unfold scdk_kalloc. unfold bind at 1, gets.
    case_match; [done|]. case_match; [done|]. case_match eqn:Hsz; [done|]. bsplit. unfold bind at 1, query at 1.
    destruct (find_free_block k _) as [b| |]; [|done..]. case_match; [by apply Htake|].
    assert (0 <= align_up_size size SCDK_HEAP_ALIGN <= SCDK_HEAP_SIZE) as Hn.
    { unfold u64 in Hs. rewrite header_48 in *. lia. }
    destruct (cannot_grow_extend _ _ _ _ HG Hn) as (e & k1 & Hext & [_ _ He1 Hm1]).
    unfold bind at 1, attempt. by rewrite Hext. }
  rewrite Hrun in *. split; [exists L'; apply Hstep|by exists hs'|done|done].
Qed.

(** What goes on afterwards: blocks are allocated and freed, and pages taken or
    given back. *)
Inductive heap_use : kernel → kernel → Prop :=
  | use_alloc size k : u64 size → heap_use k (scdk_kalloc size k).2
  | use_free p s hs k : heap_wf k hs → heap_initialized (k_heap k) = true → (p, s) ∈ allocs SCDK_HEAP_BASE hs →
      heap_use k (scdk_kfree p k).2
  | use_pages pages L k : pt_typed (set_pmm pages k) L → heap_use k (set_pmm pages k).

Lemma heap_use_stuck c t k k' : heap_use k k' → cannot_grow c t k → cannot_grow c t k'.
Proof.
  intros [size k0 Hs|p s hs k0 Hwf Hr Hin|pages L k0 HT'] HG; [by apply kalloc_stuck|..]; pose proof HG as [[L0 HT] [hs0 Hwf0] Hc Ht].
  - destruct (kfree_live _ _ _ _ Hwf Hr Hin) as (k1 & hs' & _ & _ & Hrun & Hwf' & Hk & _).
    destruct (kfree_end c t p k0) as [He Hm]; [done|]. rewrite Hrun in *.
    split; [exists L0; apply (vs_typed _ _ _ _ (vm_step_heap _ _ _ HT Hk))|by exists hs'|done|done].
  - split; [by exists L|exists hs0; by apply (heap_wf_same _ _ _ Hwf0)|done|by rewrite (pmm_translate k0)].
Qed.

Lemma heap_use_rtc c t k k' : rtc heap_use k k' → cannot_grow c t k → cannot_grow c t k'.
Proof. induction 1 as [|k0 k1 k2 Hu _ IH]; [done|]. intros HG. by apply IH, (heap_use_stuck _ _ k0). Qed.

(** A loop that has mapped [a] pages goes on from there. *)
Lemma map_heap_loop_app base a b : ∀ m k k',
  map_heap_loop a m base k = (Ok tt, k') → map_heap_loop (a + b) m base k = map_heap_loop b (a + m) base k'.
Proof.
  induction a as [|a IH]; intros m k k' H; cbn [map_heap_loop Nat.add] in *; [by injection H as <-|].
  unfold bind at 1 in H. unfold bind at 1. destruct (kpage_alloc k) as [[q|e|] k1]; [|done..].
  unfold bind at 1 in H. unfold bind at 1. destruct (attempt _ k1) as [[[[]|e|]|e|] k2]; [|exfalso|exfalso|done|done].
  - apply (IH (S m)) in H. by rewrite H, <-plus_n_Sm.
  - unfold bind at 1 in H. destruct (attempt (kpage_free q) k2) as [[?|?|] k3]; [|done..].
    unfold bind at 1 in H. by destruct (unmap_heap_pages m base k3) as [[?|?|] k4].
  - unfold bind at 1 in H. destruct (attempt (kpage_free q) k2) as [[?|?|] k3]; [|done..].
    unfold bind at 1 in H. by destruct (unmap_heap_pages m base k3) as [[?|?|] k4].
Qed.

(** The end of the range is mapped once the loop has run out of pages after the first. *)
Lemma growth_abandoned k L hs n m k0 e :
  pt_typed k L → heap_wf k hs → 0 <= n <= SCDK_HEAP_SIZE →
  heap_commit_end (k_heap k) + grow_size n <= SCDK_HEAP_BASE + SCDK_HEAP_SIZE →
  4096 * Z.of_nat (S m) < grow_size n →
  map_heap_loop (S m) 0 (heap_commit_end (k_heap k)) k = (Ok tt, k0) → (kpage_alloc k0).1 = Err e →
  ∃ t, heap_extend n k = (Err e, k0) ∧ cannot_grow (heap_commit_end (k_heap k)) t k0.
Proof.
  intros HT Hwf Hn Hle Hm Hmap Hal. set (c := heap_commit_end (k_heap k)) in *.
  assert (SCDK_HEAP_BASE <= c) as Hb.
  { unfold c. rewrite (hw_commit _ _ Hwf). apply seg_end_ge, Hwf. }
  destruct (map_loop c L (S m) [] k L) as (r & k' & L' & Hrun & _ & Hs & _ & Hp).
  { split; try done; [apply NoDup_nil_2|intros p Hp; by apply elem_of_nil in Hp|simpl; lia]. }
  { simpl. intros i Hi. unfold heap_addr. lia. }
  cbn [length] in Hrun. rewrite Hmap in Hrun. injection Hrun as <- <-.
  destruct (Hp eq_refl) as (pages & Hlen & HM). destruct pages as [|q pages]; [done|].
  pose proof (mv_trans _ _ _ _ _ HM 0%nat q eq_refl) as Ht. change (4096 * Z.of_nat 0) with 0 in Ht. rewrite Z.add_0_r in Ht.
  assert (k_heap k0 = k_heap k) as Hk0.
  { pose proof (map_heap_loop_keeps (k_heap k) (S m) 0 c k eq_refl) as Hk. by rewrite Hmap in Hk. }
  exists (q, SCDK_VMM_MAP_WRITE). split; [|split; [exists L'; apply HM|exists hs; by apply (heap_wf_same _ _ _ Hwf)|by rewrite Hk0|done]].
  destruct (kpage_alloc k0) as [r k1] eqn:Ha. cbn [fst] in Hal. subst r.
  pose proof (kpage_alloc_Err _ L' _ _ (mv_typed _ _ _ _ _ HM) Ha) as ->.
  assert (grow_size n mod 4096 = 0) as Hg by (unfold grow_size; Z.to_euclidean_division_equations; lia).
  assert (map_heap_pages c (grow_size n) k = (Err e, k0)) as Hpages.
  { unfold map_heap_pages, SCDK_PAGE_SIZE.
    replace (Z.to_nat ((grow_size n + 4096 - 1) / 4096))
      with (S m + S (Z.to_nat (grow_size n / 4096) - S (S m)))%nat by (Z.to_euclidean_division_equations; lia).
    rewrite (map_heap_loop_app _ _ _ _ _ _ Hmap). cbn [map_heap_loop]. unfold bind at 1. by rewrite Ha. }
  by apply heap_extend_unmapped.
Qed.
End stuck.

(** C32. A growth of the heap that runs out of pages half way is never recovered
    from. When one page or more could be mapped at the end of the committed range
    and then no page is left, [heap_extend] fails, leaving those pages mapped and
    the end of the range where it was; and whatever is allocated and freed
    afterwards, and however many pages are given back, every later growth fails. *)
Theorem heap_growth_stuck (k k0 : kernel) (L : gmap Z label) (hs : blocks) (n : Z) (m : nat) (e : err)
  (HT : pt_typed k L) (Hwf : heap_wf k hs) (Hn : 0 <= n <= SCDK_HEAP_SIZE)
  (Hroom : heap_commit_end (k_heap k) + grow_size n <= SCDK_HEAP_BASE + SCDK_HEAP_SIZE)
  (Hm : 4096 * Z.of_nat (S m) < grow_size n)
  (Hsome : map_heap_loop (S m) 0 (heap_commit_end (k_heap k)) k = (Ok tt, k0))
  (Hnone : (kpage_alloc k0).1 = Err e) :
  ∃ k1, heap_extend n k = (Err e, k1) ∧
    ∀ k2, rtc heap_use k1 k2 → heap_commit_end (k_heap k2) = heap_commit_end (k_heap k) ∧
      ∀ n', 0 <= n' <= SCDK_HEAP_SIZE → ∃ e' k3, heap_extend n' k2 = (Err e', k3).
Proof.
  destruct (growth_abandoned k L hs n m k0 e HT Hwf Hn Hroom Hm Hsome Hnone) as (t & Hrun & HG).
  exists k0. split; [done|]. intros k2 Hlater.
  pose proof (heap_use_rtc _ _ _ _ Hlater HG) as HG2.
  split; [apply HG2|]. intros n' Hn'. destruct (cannot_grow_extend _ _ _ _ HG2 Hn') as (e' & k3 & E & _). by exists e', k3.
Qed.

(** C6. [scdk_kalloc] on a well-formed heap with page tables in order always
    returns. A non-null result is a 16-byte aligned payload of at least the
    requested size that lies inside the heap and is not allocated yet; the
    allocations afterwards are those before plus this one, so no live block moves
    or shrinks. The result is null, with the allocations as they were, only when
    the size is 0 or more than the heap can ever hold, or when no free block is
    large enough and the heap cannot grow: its area is used up, or the pages for
    the growth cannot be mapped. *)
Theorem kalloc_exact (k : kernel) (L : gmap Z label) (hs : blocks) (size : Z)
  (HT : pt_typed k L) (Hwf : heap_wf k hs) (Hready : heap_initialized (k_heap k) = true) (Hs : u64 size) :
  ∃ p k' L' hs', scdk_kalloc size k = (Ok p, k') ∧ vm_step k k' L L' ∧ heap_wf k' hs' ∧
    heap_initialized (k_heap k') = true ∧
    (p = 0 ∧ allocs SCDK_HEAP_BASE hs' = allocs SCDK_HEAP_BASE hs ∧ no_room k hs size k' ∨
     ∃ A B sz, size <= sz ∧ p mod 16 = 0 ∧ SCDK_HEAP_BASE < p ∧ p + sz <= SCDK_HEAP_BASE + SCDK_HEAP_SIZE ∧
       allocs SCDK_HEAP_BASE hs = A ++ B ∧ allocs SCDK_HEAP_BASE hs' = A ++ (p, sz) :: B).
Proof.
  destruct (kalloc_vm k L hs size Hwf Hready HT Hs) as (p & k' & L' & Hrun & Hstep & hs' & Hwf' & Hr' & Hpost).
  exists p, k', L', hs'. split_and!; [done..|]. destruct Hpost as [[-> Ha]|?]; [left|by right].
  split_and!; [done..|]. by apply kalloc_null_room.
Qed.

(** ** Witnesses *)
Lemma heap_wf_ready k hs : heap_wf k hs → heap_wf (set_heap_ready k) hs.
Proof. intros [W1 W2 W3]. split; [destruct W1; split; done|done|done]. Qed.

Lemma heap_wf_reset k : heap_wf (set_commit_end SCDK_HEAP_BASE (set_tail 0 (set_head 0 k))) [].
Proof. split; [split; [done|done|done|constructor|simpl; unfold SCDK_HEAP_SIZE; lia]|done|done]. Qed.

Definition heap_reset (k : kernel) : kernel :=
  set_commit_end SCDK_HEAP_BASE (set_tail 0 (set_head 0 k)).

(** A first growth that succeeds. *)
Lemma grown_ok k k1 L :
  pt_typed k L → heap_extend 0 (heap_reset k) = (Ok tt, k1) →
  ∃ L hs, pt_typed (set_heap_ready k1) L ∧ heap_wf (set_heap_ready k1) hs.
Proof.
  intros HT H1. assert (pt_typed (heap_reset k) L) as HT0.
  { apply (vs_typed k _ L L). by apply vm_step_heap. }
  assert (0 <= 0 <= SCDK_HEAP_SIZE) as Hz by (unfold SCDK_HEAP_SIZE; lia).
  destruct (heap_extend_vm _ L [] 0 (heap_wf_reset k) HT0 Hz) as [_ [L1 Hs1]].
  fold (heap_reset k) in Hs1. rewrite H1 in Hs1. simpl in Hs1.
  destruct (heap_extend_cases _ [] 0 _ _ (heap_wf_reset k) Hz H1) as (hs & Hwf & _ & _).
  exists L1, hs. split; [|by apply heap_wf_ready].
  apply (vs_typed k1 _ L1 L1). apply vm_step_heap; [apply Hs1|done].
Qed.

(** A heap of four pages, with one page left. *)
Definition demo_grown : kernel := (heap_extend 0 (heap_reset demo_vm)).2.
Definition demo_ready : kernel := set_heap_ready demo_grown.
Lemma demo_ready_ok : ∃ L hs, pt_typed demo_ready L ∧ heap_wf demo_ready hs.
Proof.
  apply (grown_ok demo_vm demo_grown demo_labels demo_vm_typed).
  apply run_to; [reflexivity|]. vm_compute. reflexivity.
Qed.

(** It asks for five pages; then 100 bytes are allocated, and the heap still cannot grow. *)
Definition demo_last_page : kernel := (map_heap_loop 1 0 (heap_commit_end (k_heap demo_ready)) demo_ready).2.
Lemma heap_growth_stuck_witness :
  ∃ k1, heap_extend 16384 demo_ready = (Err SCDK_ERR_NOMEM, k1) ∧
    ∃ e k3, heap_extend 100 (scdk_kalloc 100 k1).2 = (Err e, k3).
Proof.
  destruct demo_ready_ok as (L & hs & HT & Hwf).
  destruct (heap_growth_stuck demo_ready demo_last_page L hs 16384 0 SCDK_ERR_NOMEM HT Hwf) as (k1 & Hrun & Hlater).
  - unfold SCDK_HEAP_SIZE. lia.
  - vm_compute. discriminate.
  - vm_compute. reflexivity.
  - apply run_to; [reflexivity|]. vm_compute. reflexivity.
  - vm_compute. reflexivity.
  - exists k1. split; [exact Hrun|]. apply (Hlater (scdk_kalloc 100 k1).2).
    + apply rtc_once. apply use_alloc. unfold u64, two64. lia.
    + unfold SCDK_HEAP_SIZE. lia.
Defined.

Lemma kalloc_exact_witness :
  ∃ k' hs' sz, scdk_kalloc 100 demo_ready = (Ok (SCDK_HEAP_BASE + 48), k') ∧ heap_wf k' hs' ∧ 100 <= sz ∧
    (SCDK_HEAP_BASE + 48, sz) ∈ allocs SCDK_HEAP_BASE hs'.
Proof.
  destruct demo_ready_ok as (L & hs & HT & Hwf).
  assert (u64 100) as Hu by (unfold u64, two64; lia).
  assert ((scdk_kalloc 100 demo_ready).1 = Ok (SCDK_HEAP_BASE + 48)) as Hp by (vm_compute; reflexivity).
  destruct (kalloc_exact demo_ready L hs 100 HT Hwf eq_refl Hu) as (p & k' & L' & hs' & Hrun & _ & Hwf' & _ & Hres).
  rewrite Hrun in Hp. apply (inj Ok) in Hp. cbn [fst] in Hp. subst p.
  destruct Hres as [[Hz _]|(A & B & sz & Hsz & _ & _ & _ & _ & Ha)]; [discriminate Hz|].
  exists k', hs', sz. split; [exact Hrun|]. split; [exact Hwf'|]. split; [exact Hsz|].
  rewrite Ha. apply elem_of_app. right. left.
Defined.
