(* ===== verification/AddressSpace.v ===== *)
(** * Address spaces ([src/mm/address_space.c])

    An address space is a heap-allocated struct behind a capability: a root
    table with user pages.  [k_aspaces] holds the structs by the address of
    their heap block; a freed block holds none. *)
From stdpp Require Import base gmap list numbers relations.
From Stdlib Require Import ZArith Lia.
From S2P Require Import Prelude.
From S2P Require Import Kernel.
From S2P Require Import Object.
From S2P Require Import Capability.
From S2P Require Import Invariant.
From S2P Require Import Pmm.
From S2P Require Import Vmm.
From S2P Require Import Heap.
From S2P Require Import HeapVm.
#[local] Open Scope Z_scope.

Definition SCDK_USER_VIRT_BASE : Z := 0x0000000000100000.
Definition SCDK_USER_VIRT_TOP : Z := 0x0000800000000000.
(** [sizeof(struct scdk_address_space)] *)
Definition aspace_size : Z := 24.

Definition validate_user_page (vaddr : Z) : result unit :=
  let? _ := rguard (negb (page_aligned vaddr)) SCDK_ERR_INVAL in
  rguard ((vaddr <? SCDK_USER_VIRT_BASE) || (SCDK_USER_VIRT_TOP - SCDK_PAGE_SIZE <? vaddr))
    SCDK_ERR_BOUNDS.

Definition lookup_aspace (k : kernel) (aspace_cap required_rights : Z) : result scdk_address_space :=
  let? entry := scdk_cap_check k aspace_cap required_rights SCDK_OBJ_ADDRESS_SPACE in
  let? object := scdk_object_lookup k (ce_object_id entry) in
  match obj_payload object with
  | P_null => Err SCDK_ERR_NOENT
  | P_heap a =>
      let? aspace := deref (k_aspaces k !! a) in
      if negb (as_object_id aspace =? ce_object_id entry) || (as_root_phys aspace =? 0)
      then Err SCDK_ERR_NOENT else Ok aspace
  | _ => Ub
  end.

Definition check_map_rights (k : kernel) (aspace_cap flags : Z) : result scdk_address_space :=
  let required := Z.lor SCDK_RIGHT_MAP SCDK_RIGHT_READ in
  let required := if negb (Z.land flags SCDK_VMM_MAP_WRITE =? 0)
                  then Z.lor required SCDK_RIGHT_WRITE else required in
  lookup_aspace k aspace_cap required.

Definition put_aspace (a : Z) (s : scdk_address_space) (k : kernel) : kernel :=
  set_aspaces (<[a:=s]> (k_aspaces k)) k.
Definition drop_aspace (a : Z) (k : kernel) : kernel :=
  set_aspaces (delete a (k_aspaces k)) k.

(** [scdk_kfree(aspace)]: the struct is gone with its storage. *)
Definition free_aspace (a : Z) : K unit :=
  modify (drop_aspace a) ;;
  scdk_kfree a.

Definition scdk_address_space_create : K Z :=
  let* aspace := scdk_alloc_object_storage SCDK_OBJ_ADDRESS_SPACE aspace_size in
  guard (aspace =? 0) SCDK_ERR_NOMEM ;;
  modify (put_aspace aspace (mk_aspace 0 0 0 0)) ;;
  let* root_phys := recover scdk_vmm_create_root (free_aspace aspace) in
  let* object_id :=
    recover (scdk_object_create SCDK_OBJ_ADDRESS_SPACE SCDK_BOOT_CORE 0 (P_heap aspace))
      (attempt (kpage_free root_phys) ;; free_aspace aspace) in
  modify (put_aspace aspace (mk_aspace object_id root_phys SCDK_BOOT_CORE 0)) ;;
  scdk_cap_create object_id
    (Z.lor (Z.lor (Z.lor SCDK_RIGHT_READ SCDK_RIGHT_WRITE) SCDK_RIGHT_MAP) SCDK_RIGHT_BIND).

Definition scdk_address_space_map (aspace_cap vaddr paddr flags : Z) : K unit :=
  let* aspace := query (λ k, check_map_rights k aspace_cap flags) in
  query (λ _, validate_user_page vaddr) ;;
  guard (negb (page_aligned paddr)) SCDK_ERR_INVAL ;;
  let flags := Z.lor flags SCDK_VMM_MAP_USER in
  scdk_vmm_map_page_in_root (as_root_phys aspace) vaddr paddr flags.

Definition scdk_address_space_unmap (aspace_cap vaddr : Z) : K unit :=
  let* aspace := query (λ k, lookup_aspace k aspace_cap (Z.lor SCDK_RIGHT_MAP SCDK_RIGHT_READ)) in
  query (λ _, validate_user_page vaddr) ;;
  scdk_vmm_unmap_page_in_root (as_root_phys aspace) vaddr.

Definition scdk_address_space_activate (aspace_cap : Z) : K unit :=
  let* aspace := query (λ k, lookup_aspace k aspace_cap SCDK_RIGHT_READ) in
  scdk_vmm_activate_root (as_root_phys aspace).

Definition scdk_address_space_translate (k : kernel) (aspace_cap vaddr : Z) : result (Z * Z) :=
  let? aspace := lookup_aspace k aspace_cap SCDK_RIGHT_READ in
  let? _ := validate_user_page (Z.land vaddr (not64 (SCDK_PAGE_SIZE - 1))) in
  scdk_vmm_virt_to_phys_in_root k (as_root_phys aspace) vaddr.

(** ** Invariant *)
(** The root table of the address space with object id [id]. *)
Definition space_root (k : kernel) (id : Z) : option Z :=
  match scdk_object_lookup k id with
  | Ok o => match obj_payload o with
            | P_heap a => as_root_phys <$> k_aspaces k !! a
            | _ => None
            end
  | _ => None
  end.

(** The tables and the heap a space is made from. *)
Record space_base (k : kernel) (L : gmap Z label) (hs : blocks) : Prop := {
  sb_kernel : kernel_wf k;
  sb_tables : pt_typed k L;
  sb_heap : heap_wf k hs;
  sb_ready : heap_initialized (k_heap k) = true
}.

Record aspaces_wf (k : kernel) (L : gmap Z label) (hs : blocks) : Prop := {
  aw_kernel : kernel_wf k;
  aw_tables : pt_typed k L;
  aw_heap : heap_wf k hs;
  aw_ready : heap_initialized (k_heap k) = true;
  aw_space : ∀ id o a, scdk_object_lookup k id = Ok o → obj_payload o = P_heap a →
    ∃ root sz, k_aspaces k !! a = Some (mk_aspace id root 0 0) ∧ L !! root = Some (root, []) ∧
      (a, sz) ∈ allocs SCDK_HEAP_BASE hs;
  aw_distinct : ∀ id id' root, space_root k id = Some root → space_root k id' = Some root → id = id'
}.

Section spaces.
Implicit Types (k : kernel) (L : gmap Z label) (hs : blocks).

Lemma aspaces_base k L hs : aspaces_wf k L hs → space_base k L hs.
Proof. by intros []. Qed.

(** What a lookup returns. *)
Lemma lookup_aspace_Ok k L hs c r s :
  aspaces_wf k L hs →
  lookup_aspace k c r = Ok s ↔
  ∃ e root, scdk_cap_check k c r SCDK_OBJ_ADDRESS_SPACE = Ok e ∧
    space_root k (ce_object_id e) = Some root ∧ s = mk_aspace (ce_object_id e) root 0 0.
Proof.
  intros Hwf. unfold lookup_aspace, space_root. split.
  - intros H. do 2 minv_step H. rename a into e, a0 into o.
    destruct (obj_payload o) eqn:Hp; try done. minv_step H.
    destruct (_ || _) eqn:Hc; [done|]. apply (inj Ok) in H. subst.
    destruct (aw_space _ _ _ Hwf _ _ _ E0 Hp) as (root & sz & Ha & _). apply deref_inv in E1.
    rewrite Ha in E1. injection E1 as <-. exists e, root. rewrite E0, Hp, Ha. done.
  - intros (e & root & Hc & Hsr & ->). rewrite Hc. cbn [rbind].
    destruct (scdk_object_lookup k (ce_object_id e)) as [o| |] eqn:Ho; [|done..]. cbn [rbind].
    destruct (obj_payload o) eqn:Hp; try done. cbn [rbind].
    destruct (aw_space _ _ _ Hwf _ _ _ Ho Hp) as (root' & sz & Ha & Hl & _). rewrite Ha in Hsr. rewrite Ha.
    injection Hsr as <-. cbn [deref rbind as_object_id as_root_phys]. rewrite Z.eqb_refl. cbn [negb orb].
    destruct (pt_root _ _ (aw_tables _ _ _ Hwf) _ _ Hl) as [_ Hr0].
    by rewrite (proj2 (Z.eqb_neq _ _)) by done.
Qed.

Lemma lookup_aspace_defined k L hs c r : aspaces_wf k L hs → defined (lookup_aspace k c r).
Proof.
  intros Hwf. pose proof (aw_kernel _ _ _ Hwf) as Hk. unfold lookup_aspace.
  apply rbind_defined; [apply cap_check_defined, Hk|]. intros e He.
  apply rbind_defined; [apply object_lookup_defined, Hk|]. intros o Ho.
  assert (SCDK_OBJ_ADDRESS_SPACE ≠ SCDK_OBJ_NONE) as Hne by done.
  pose proof (checked_payload _ _ _ _ _ _ Hk Hne He Ho) as Hp.
  payload_cases (obj_payload o) Hp; [done|].
  destruct (aw_space _ _ _ Hwf _ _ _ Ho Hpl) as (root & sz & Ha & _). rewrite Ha. cbn [deref rbind].
  by case_match.
Qed.

Lemma space_root_label k L hs id root :
  aspaces_wf k L hs → space_root k id = Some root → L !! root = Some (root, []).
Proof.
  intros Hwf. unfold space_root. destruct (scdk_object_lookup k id) as [o| |] eqn:Ho; [|done..].
  destruct (obj_payload o) eqn:Hp; try done.
  destruct (aw_space _ _ _ Hwf _ _ _ Ho Hp) as (root' & sz & -> & Hl & _). by intros [= <-].
Qed.

Definition user_page (v : Z) : Prop :=
  validate_user_page (Z.land v (not64 (SCDK_PAGE_SIZE - 1))) = Ok tt.

Lemma validate_user_page_spec v :
  validate_user_page v = Ok tt ↔
  v mod 4096 = 0 ∧ SCDK_USER_VIRT_BASE <= v <= SCDK_USER_VIRT_TOP - 4096.
Proof.
  unfold validate_user_page. change SCDK_PAGE_SIZE with 4096. rewrite <-page_aligned_iff. split.
  - intros H. minv H. bsplit. split; [done|lia].
  - intros [-> Hr]. cbn [negb rguard rbind]. unfold rguard.
    by rewrite (proj2 (Z.ltb_ge _ _)), (proj2 (Z.ltb_ge _ _)) by lia.
Qed.

Lemma validate_user_page_defined v : defined (validate_user_page v).
Proof. apply rbind_defined; intros; apply rguard_defined. Qed.

Lemma page_base v : u64 v → Z.land v (not64 (SCDK_PAGE_SIZE - 1)) = v - v mod 4096.
Proof.
  intros Hv. change (SCDK_PAGE_SIZE - 1) with (2 ^ 12 - 1). rewrite land_not64; [|done|vm_compute; split; [discriminate|reflexivity]].
  by rewrite ldiff_mask.
Qed.

(** User pages are in the user half. *)
Lemma user_page_low v : u64 v → user_page v → pml4_index v < 256.
Proof.
  intros Hv. unfold user_page. rewrite page_base, validate_user_page_spec by done. intros [_ Hr].
  unfold pml4_index. rewrite Z.shiftr_div_pow2 by done. change 0x1ff with (Z.ones 9).
  rewrite Z.land_ones by done. change (2 ^ 9) with 512. change (2 ^ 39) with 549755813888.
  unfold SCDK_USER_VIRT_TOP, SCDK_USER_VIRT_BASE in Hr. Z.to_euclidean_division_equations; lia.
Qed.

(** What a translation through a capability depends on. *)
Lemma aspace_translate_Ok k L hs c v t :
  aspaces_wf k L hs →
  scdk_address_space_translate k c v = Ok t ↔
  user_page v ∧ ∃ e root, scdk_cap_check k c SCDK_RIGHT_READ SCDK_OBJ_ADDRESS_SPACE = Ok e ∧
    space_root k (ce_object_id e) = Some root ∧ scdk_vmm_virt_to_phys_in_root k root v = Ok t.
Proof.
  intros Hwf. unfold scdk_address_space_translate, user_page. split.
  - intros H. do 2 minv_step H. destruct a0. split; [done|].
    apply (lookup_aspace_Ok _ _ _ _ _ _ Hwf) in E as (e & root & Hc & Hr & ->). eauto.
  - intros (Hv & e & root & Hc & Hr & Ht).
    rewrite (proj2 (lookup_aspace_Ok _ _ _ _ _ (mk_aspace (ce_object_id e) root 0 0) Hwf)) by eauto.
    cbn [rbind]. by rewrite Hv.
Qed.
End spaces.

(** ** Mapping and unmapping *)
(** Both capabilities designate the same address space. *)
Definition same_space (k : kernel) (c c' : Z) : Prop :=
  ∃ e e', scdk_cap_lookup k c = Ok e ∧ scdk_cap_lookup k c' = Ok e' ∧
    ce_object_id e = ce_object_id e'.

Section mapping.
Implicit Types (k : kernel) (L : gmap Z label) (hs : blocks).

Lemma hv_frame_kwf k k' : hv_frame k k' → kernel_wf k → kernel_wf k'.
Proof.
  intros Hf Hwf. apply (kernel_wf_frame k); [done|by rewrite Hf..|].
  eapply tables_sized_core; [apply Hwf|by rewrite Hf..].
Qed.

Lemma hv_frame_lookup k k' c r :
  hv_frame k k' → lookup_aspace k' c r = lookup_aspace k c r.
Proof.
  intros Hf. unfold lookup_aspace. rewrite (cap_check_tables k' k) by (by rewrite Hf).
  destruct (scdk_cap_check k c r _) as [e| |]; [|done..]. cbn [rbind].
  rewrite (object_lookup_objs k' k) by (by rewrite Hf).
  destruct (scdk_object_lookup k _); [|done..]. cbn [rbind]. by rewrite Hf.
Qed.

Lemma space_root_frame k k' id :
  k_objs k' = k_objs k → k_aspaces k' = k_aspaces k → space_root k' id = space_root k id.
Proof. intros Ho Ha. unfold space_root. by rewrite (object_lookup_objs k' k), Ha. Qed.

Lemma aspaces_vm k k' L L' hs :
  aspaces_wf k L hs → vm_frame k k' → L ⊆ L' → pt_typed k' L' → aspaces_wf k' L' hs.
Proof.
  intros [A1 A2 A3 A4 A5 A6] Hf Hs HT. split.
  - eapply hv_frame_kwf; [by apply vm_frame_hv|done].
  - done.
  - apply (heap_wf_same _ _ _ A3). by rewrite Hf.
  - by rewrite Hf.
  - intros id o a. rewrite (object_lookup_objs k' k) by (by rewrite Hf). intros Ho Hp.
    destruct (A5 id o a Ho Hp) as (root & sz & Ha & Hl & Hin). exists root, sz.
    split_and!; [by rewrite Hf|by eapply lookup_weaken|done].
  - intros id id' root. rewrite !(space_root_frame k k') by (by rewrite Hf). apply A6.
Qed.

Lemma user_page_bits v v' :
  u64 v → u64 v' → user_page v → user_page v' → v / 4096 ≠ v' / 4096 → page_bits v ≠ page_bits v'.
Proof.
  intros Hv Hv'. unfold user_page. rewrite !page_base, !validate_user_page_spec by done.
  unfold page_bits, SCDK_USER_VIRT_TOP, SCDK_USER_VIRT_BASE. intros [_ H] [_ H'] Hne.
  Z.to_euclidean_division_equations; lia.
Qed.

Lemma validated_user_page v : u64 v → validate_user_page v = Ok tt → user_page v.
Proof.
  intros Hv H. unfold user_page. rewrite page_base by done.
  pose proof (proj1 (validate_user_page_spec v) H) as [-> _]. by rewrite Z.sub_0_r.
Qed.

Lemma user_page_offset v off :
  u64 v → validate_user_page v = Ok tt → 0 <= off < 4096 → u64 (v + off) ∧ user_page (v + off).
Proof.
  intros Hv H Ho. apply validate_user_page_spec in H as [Hm Hr].
  assert (u64 (v + off)) as Hu by (unfold u64, two64, SCDK_USER_VIRT_TOP in *; lia).
  split; [done|]. unfold user_page. rewrite page_base, validate_user_page_spec by done.
  Z.to_euclidean_division_equations; lia.
Qed.

(** A step on the page tables of the space that [c] names leaves every other
    translation as it was. *)
Lemma translate_elsewhere k k' L hs c e root vaddr c' v' :
  aspaces_wf k L hs → vm_frame k k' → u64 vaddr → user_page vaddr → u64 v' →
  scdk_cap_lookup k c = Ok e → space_root k (ce_object_id e) = Some root →
  (∀ root' virt', L !! root' = Some (root', []) → 0 <= virt' →
     page_bits virt' ≠ page_bits vaddr ∨ root' ≠ root ∧ pml4_index vaddr < 256 →
     pte k' root' virt' = pte k root' virt') →
  ¬ same_space k c c' ∨ v' / 4096 ≠ vaddr / 4096 →
  scdk_address_space_translate k' c' v' = scdk_address_space_translate k c' v'.
Proof.
  intros Hwf Hf Hu Hup Hv' He Hroot Hother Hne. unfold scdk_address_space_translate.
  rewrite (hv_frame_lookup k k') by (by apply vm_frame_hv).
  destruct (lookup_aspace k c' SCDK_RIGHT_READ) as [s| |] eqn:Hl; [|done..]. cbn [rbind].
  destruct (validate_user_page (Z.land v' _)) as [[]| |] eqn:Hvu; [|done..]. cbn [rbind].
  apply (lookup_aspace_Ok _ _ _ _ _ _ Hwf) in Hl as (e' & root' & Hc & Hr & ->). cbn [as_root_phys].
  apply pte_same_translation; [apply (vm_frame_vmm _ _ Hf)|].
  apply Hother; [by eapply space_root_label|apply Hv'|].
  destruct Hne as [Hns|Hpg]; [right|left; by apply user_page_bits].
  split; [|by apply user_page_low]. intros ->. apply Hns.
  apply cap_check_Ok in Hc as (_ & Hc & _). exists e, e'. split_and!; [done|done|].
  by eapply aw_distinct.
Qed.
Definition map_required (flags : Z) : Z :=
  if negb (Z.land flags SCDK_VMM_MAP_WRITE =? 0)
  then Z.lor (Z.lor SCDK_RIGHT_MAP SCDK_RIGHT_READ) SCDK_RIGHT_WRITE
  else Z.lor SCDK_RIGHT_MAP SCDK_RIGHT_READ.

Lemma rights_sub r q s : Z.land r q = q → Z.land q s = s → Z.land r s = s.
Proof. intros Hq Hs. rewrite <-Hs. by rewrite Z.land_assoc, Hq. Qed.

Lemma map_rights_read rights flags :
  Z.land rights (map_required flags) = map_required flags →
  Z.land rights SCDK_RIGHT_READ = SCDK_RIGHT_READ.
Proof. intros H. apply (rights_sub _ _ _ H). unfold map_required. by case_match. Qed.

Lemma map_rights_needed rights flags :
  Z.land rights (map_required flags) = map_required flags →
  Z.land rights (SCDK_RIGHT_MAP + SCDK_RIGHT_READ) = SCDK_RIGHT_MAP + SCDK_RIGHT_READ ∧
  (Z.land flags SCDK_VMM_MAP_WRITE ≠ 0 → Z.land rights SCDK_RIGHT_WRITE = SCDK_RIGHT_WRITE).
Proof.
  intros H. split.
  - apply (rights_sub _ _ _ H). unfold map_required. by case_match.
  - intros Hw. apply (rights_sub _ _ _ H). unfold map_required.
    by rewrite (proj2 (Z.eqb_neq _ _) Hw).
Qed.

Lemma or_user_u64 flags : u64 flags → u64 (Z.lor flags SCDK_VMM_MAP_USER).
Proof.
  unfold u64. intros Hf. assert (0 <= Z.lor flags SCDK_VMM_MAP_USER) by (apply Z.lor_nonneg; unfold SCDK_VMM_MAP_USER; lia). split; [done|].
  change two64 with (2 ^ 64) in *. destruct (Z.eq_dec (Z.lor flags SCDK_VMM_MAP_USER) 0) as [->|]; [done|].
  apply Z.log2_lt_pow2; [lia|]. rewrite Z.log2_lor by (try done; lia). apply Z.max_lub_lt; [|by vm_compute].
  destruct (Z.eq_dec flags 0) as [->|]; [by vm_compute|]. apply Z.log2_lt_pow2; lia.
Qed.

(** A mapping request either stops at a check or goes to the page tables. *)
Lemma aspace_map_cases k k' L hs c vaddr paddr flags r :
  aspaces_wf k L hs → u64 vaddr → 0 <= paddr < phys_limit → u64 flags →
  scdk_address_space_map c vaddr paddr flags k = (r, k') →
  (∃ e, r = Err e ∧ k' = k) ∨
  ∃ e root, scdk_cap_check k c (map_required flags) SCDK_OBJ_ADDRESS_SPACE = Ok e ∧
    space_root k (ce_object_id e) = Some root ∧ validate_user_page vaddr = Ok tt ∧
    ∃ L', L ⊆ L' ∧ pt_typed k' L' ∧ vm_frame k k' ∧
    (∀ root' virt', L !! root' = Some (root', []) → 0 <= virt' →
       page_bits virt' ≠ page_bits vaddr ∨ root' ≠ root ∧ pml4_index vaddr < 256 →
       pte k' root' virt' = pte k root' virt') ∧
    match r with
    | Ok _ => ∀ off, 0 <= off < 4096 → scdk_vmm_virt_to_phys_in_root k' root (vaddr + off)
                = Ok (paddr + off, Z.lor flags SCDK_VMM_MAP_USER)
    | Err _ => ∀ root' virt', L !! root' = Some (root', []) → pte k' root' virt' = pte k root' virt'
    | Ub => False
    end.
Proof.
  intros Hwf Hu Hp Hf Hrun. unfold scdk_address_space_map, bind at 1, query at 1 in Hrun.
  change (check_map_rights k c flags) with (lookup_aspace k c (map_required flags)) in Hrun.
  destruct (lookup_aspace k c (map_required flags)) as [s|e|] eqn:Hl;
    [|by apply pair_equal_spec in Hrun as [<- <-]; left; exists e|by apply (lookup_aspace_defined _ _ _ _ _ Hwf) in Hl].
  apply (lookup_aspace_Ok _ _ _ _ _ _ Hwf) in Hl as (e & root & Hc & Hroot & ->).
  unfold bind at 1, query at 1 in Hrun.
  destruct (validate_user_page vaddr) as [[]|e'|] eqn:Hv;
    [|by apply pair_equal_spec in Hrun as [<- <-]; left; exists e'|].
  2: { by apply validate_user_page_defined in Hv. }
  unfold bind at 1, guard in Hrun.
  destruct (negb (page_aligned paddr)); [by apply pair_equal_spec in Hrun as [<- <-]; left; exists SCDK_ERR_INVAL|].
  right. exists e, root. split_and!; [done..|]. cbn [ret as_root_phys] in Hrun.
  eapply map_page_state; [apply Hwf|by eapply space_root_label|done|done|by apply or_user_u64|exact Hrun].
Qed.
Lemma aspace_unmap_cases k k' L hs c vaddr r :
  aspaces_wf k L hs → u64 vaddr → scdk_address_space_unmap c vaddr k = (r, k') →
  (∃ e, r = Err e ∧ k' = k) ∨
  ∃ e root, scdk_cap_check k c (Z.lor SCDK_RIGHT_MAP SCDK_RIGHT_READ) SCDK_OBJ_ADDRESS_SPACE = Ok e ∧
    space_root k (ce_object_id e) = Some root ∧ validate_user_page vaddr = Ok tt ∧
    pt_typed k' L ∧ vm_frame k k' ∧
    (∀ root' virt', L !! root' = Some (root', []) → 0 <= virt' →
       page_bits virt' ≠ page_bits vaddr ∨ root' ≠ root ∧ pml4_index vaddr < 256 →
       pte k' root' virt' = pte k root' virt') ∧
    match r with
    | Ok _ => (∃ t, scdk_vmm_virt_to_phys_in_root k root vaddr = Ok t) ∧
        ∀ t, scdk_vmm_virt_to_phys_in_root k' root vaddr ≠ Ok t
    | Err _ => k' = k
    | Ub => False
    end.
Proof.
  intros Hwf Hu Hrun. unfold scdk_address_space_unmap, bind at 1, query at 1 in Hrun.
  destruct (lookup_aspace k c _) as [s|e|] eqn:Hl;
    [|by apply pair_equal_spec in Hrun as [<- <-]; left; exists e|by apply (lookup_aspace_defined _ _ _ _ _ Hwf) in Hl].
  apply (lookup_aspace_Ok _ _ _ _ _ _ Hwf) in Hl as (e & root & Hc & Hroot & ->).
  unfold bind at 1, query at 1 in Hrun.
  destruct (validate_user_page vaddr) as [[]|e'|] eqn:Hv;
    [|by apply pair_equal_spec in Hrun as [<- <-]; left; exists e'|by apply validate_user_page_defined in Hv].
  right. exists e, root. cbn [as_root_phys] in Hrun.
  destruct (unmap_page_state k L root vaddr r k') as (A1 & A2 & _ & A3 & A4);
    [apply Hwf|by eapply space_root_label|done|done|done].
Qed.
End mapping.

(** ** Creation *)
Section creation.
Implicit Types (k : kernel) (L : gmap Z label) (hs : blocks).

(** What creation does outside the object and capability tables: the labels
    and the allocations grow, nothing that was there moves. *)
Record as_step k k' L L' hs hs' : Prop := {
  sp_typed : pt_typed k' L';
  sp_labels : L ⊆ L';
  sp_user : ∀ root virt, L !! root = Some (root, []) → 0 <= virt → pml4_index virt < 256 →
    pte k' root virt = pte k root virt;
  sp_init : vmm_initialized (k_vmm k') = vmm_initialized (k_vmm k);
  sp_heap : heap_wf k' hs';
  sp_ready : heap_initialized (k_heap k') = true;
  sp_allocs : ∀ x, x ∈ allocs SCDK_HEAP_BASE hs → x ∈ allocs SCDK_HEAP_BASE hs';
  sp_store : ∀ a sz, (a, sz) ∈ allocs SCDK_HEAP_BASE hs → k_aspaces k' !! a = k_aspaces k !! a
}.

(** The address spaces afterwards: the old ones and at most one new one. *)
Lemma aspaces_extend k k' L L' hs hs' oid na q :
  aspaces_wf k L hs → as_step k k' L L' hs hs' → kernel_wf k' →
  (∀ id o, scdk_object_lookup k id = Ok o → scdk_object_lookup k' id = Ok o) →
  (∀ id o a, scdk_object_lookup k' id = Ok o → obj_payload o = P_heap a →
     scdk_object_lookup k id = Ok o ∨
     id = oid ∧ a = na ∧ k_aspaces k' !! na = Some (mk_aspace oid q 0 0) ∧ L !! q = None ∧
       L' !! q = Some (q, []) ∧ ∃ sz, (na, sz) ∈ allocs SCDK_HEAP_BASE hs') →
  aspaces_wf k' L' hs' ∧ ∀ id root, space_root k id = Some root → space_root k' id = Some root.
Proof.
  intros [A1 A2 A3 A4 A5 A6] [S1 S2 S3 S4 S5 S6 S7 S8] Hk Hkeep Hnew.
  assert (∀ id o a, scdk_object_lookup k id = Ok o → obj_payload o = P_heap a →
    ∃ root, space_root k id = Some root ∧ space_root k' id = Some root ∧ L !! root = Some (root, [])) as Hold.
  { intros id o a Ho Hp. destruct (A5 id o a Ho Hp) as (root & sz & Ha & Hl & Hin). exists root.
    unfold space_root. rewrite Ho, (Hkeep _ _ Ho), Hp, (S8 _ _ Hin), Ha. done. }
  assert (∀ id root, space_root k' id = Some root →
    space_root k id = Some root ∧ L !! root = Some (root, []) ∨ id = oid ∧ root = q ∧ L !! q = None) as Hinv.
  { intros id root Hr. unfold space_root in Hr.
    destruct (scdk_object_lookup k' id) as [o| |] eqn:Ho; [|done..]. destruct (obj_payload o) eqn:Hp; try done.
    destruct (Hnew _ _ _ Ho Hp) as [Ho'|(-> & -> & Ha & Hq & _)].
    - left. destruct (Hold _ _ _ Ho' Hp) as (root' & E1 & E2 & Hl). unfold space_root in E2.
      rewrite Ho, Hp, Hr in E2. injection E2 as ->. done.
    - right. rewrite Ha in Hr. by injection Hr as <-. }
  split; [split; try done|].
  - intros id o a Ho Hp. destruct (Hnew _ _ _ Ho Hp) as [Ho'|(-> & -> & Ha & _ & Hl & sz & Hin)]; [|eauto].
    destruct (A5 id o a Ho' Hp) as (root & sz & Ha & Hl & Hin). exists root, sz.
    rewrite (S8 _ _ Hin). split_and!; [done|by eapply lookup_weaken|by apply S7].
  - intros id id' root H1 H2. apply Hinv in H1, H2.
    destruct H1 as [[E1 H1]|(E1 & E1' & H1)], H2 as [[E2 H2]|(E2 & E2' & H2)]; [by eapply A6|congruence..].
  - intros id root Hr. unfold space_root in Hr.
    destruct (scdk_object_lookup k id) as [o| |] eqn:Ho; [|done..]. destruct (obj_payload o) eqn:Hp; try done.
    destruct (Hold _ _ _ Ho Hp) as (root' & E1 & E2 & _). unfold space_root in E1.
    rewrite Ho, Hp, Hr in E1. injection E1 as ->. done.
Qed.

(** Capabilities that were there keep their translations. *)
Lemma as_step_translate k k' L L' hs hs' c v t :
  aspaces_wf k L hs → aspaces_wf k' L' hs' → as_step k k' L L' hs hs' →
  (∀ id root, space_root k id = Some root → space_root k' id = Some root) →
  u64 v → (∀ e, scdk_cap_lookup k' c = Ok e ↔ scdk_cap_lookup k c = Ok e) →
  (∀ e, scdk_cap_lookup k c = Ok e → ∀ root, space_root k' (ce_object_id e) = Some root →
     space_root k (ce_object_id e) = Some root) →
  scdk_address_space_translate k' c v = Ok t ↔ scdk_address_space_translate k c v = Ok t.
Proof.
  intros Hwf Hwf' Hs Hkeep Hv Hc Hback.
  rewrite (aspace_translate_Ok k' L' hs'), (aspace_translate_Ok k L hs) by done.
  assert (∀ root, L !! root = Some (root, []) → user_page v →
    scdk_vmm_virt_to_phys_in_root k' root v = scdk_vmm_virt_to_phys_in_root k root v) as Htr.
  { intros root Hl Hup. apply pte_same_translation; [apply Hs|].
    apply (sp_user _ _ _ _ _ _ Hs); [done|apply Hv|by apply user_page_low]. }
  setoid_rewrite cap_check_Ok. setoid_rewrite Hc. split; intros (Hup & e & root & He & Hr & Ht);
    (split; [done|]); exists e, root.
  - assert (space_root k (ce_object_id e) = Some root) as Hr' by (by apply Hback; [apply He|]).
    rewrite (Htr root (space_root_label _ _ _ _ _ Hwf Hr') Hup) in Ht. tauto.
  - pose proof (Htr root (space_root_label _ _ _ _ _ Hwf Hr) Hup) as E. rewrite E. split; [done|].
    split; [by apply Hkeep|done].
Qed.
(** A step that touches neither memory nor heap, and the structs only at [a]. *)
Lemma as_step_core k k1 k2 L L' hs hs' a :
  as_step k k1 L L' hs hs' → k_vmm k2 = k_vmm k1 → k_pmm k2 = k_pmm k1 → k_heap k2 = k_heap k1 →
  (∀ b, b ≠ a → k_aspaces k2 !! b = k_aspaces k1 !! b) →
  (∀ sz, (a, sz) ∉ allocs SCDK_HEAP_BASE hs) → as_step k k2 L L' hs hs'.
Proof.
  intros [S1 S2 S3 S4 S5 S6 S7 S8] Hv Hp Hh Ha Hna. split; try done.
  - apply (typed_memory_same k1); [done|done|rewrite Hp; apply S1|rewrite Hp..].
    + intros p l Hl. by apply (pt_page _ _ S1 p l Hl).
    + apply S1.
  - intros root virt Hr Hv0 Hlow. rewrite <-S3 by done. apply pte_memory. by rewrite Hv.
  - by rewrite Hv.
  - by apply (heap_wf_same k1).
  - by rewrite Hh.
  - intros b sz Hin. rewrite Ha; [by eapply S8|]. intros ->. by apply (Hna sz).
Qed.

(** The storage: null, or a new block. *)
Lemma aspace_storage k L hs :
  space_base k L hs →
  ∃ a k1 L1 hs1, scdk_alloc_object_storage SCDK_OBJ_ADDRESS_SPACE aspace_size k = (Ok a, k1) ∧
    hv_frame k k1 ∧ as_step k k1 L L1 hs hs1 ∧
    (a = 0 ∨ a ≠ 0 ∧ (∀ sz, (a, sz) ∉ allocs SCDK_HEAP_BASE hs) ∧ ∃ sz, (a, sz) ∈ allocs SCDK_HEAP_BASE hs1).
Proof.
  intros Hwf. change (scdk_alloc_object_storage SCDK_OBJ_ADDRESS_SPACE aspace_size) with (scdk_kalloc aspace_size).
  destruct (kalloc_vm k L hs aspace_size (sb_heap _ _ _ Hwf) (sb_ready _ _ _ Hwf) (sb_tables _ _ _ Hwf))
    as (a & k1 & L1 & Hrun & [V1 V2 V3 V4] & hs1 & Hh1 & Hr1 & Hpost); [by vm_compute|].
  exists a, k1, L1, hs1. split_and!; [done|done| |].
  - split; try done; [by rewrite V1| |by intros; rewrite V1].
    intros x Hx. destruct Hpost as [[_ ->]|(A & B & sz & _ & _ & _ & _ & E & ->)]; [done|].
    rewrite E in Hx. apply elem_of_app in Hx as [Hx|Hx]; apply elem_of_app; [by left|right; by right].
  - destruct Hpost as [[-> _]|(A & B & sz & _ & _ & Hlo & _ & E & E')]; [by left|right]. split_and!.
    + unfold SCDK_HEAP_BASE in Hlo. lia.
    + by eapply alloc_fresh; [apply Hh1|..].
    + exists sz. rewrite E'. apply elem_of_app. right. left.
Qed.

(** Giving the storage back. *)
Lemma free_aspace_step k k1 L L1 hs hs1 a sz :
  as_step k k1 L L1 hs hs1 → (a, sz) ∈ allocs SCDK_HEAP_BASE hs1 →
  (∀ sz, (a, sz) ∉ allocs SCDK_HEAP_BASE hs) →
  ∃ k2 hs2, free_aspace a k1 = (Ok tt, k2) ∧ as_step k k2 L L1 hs hs2 ∧
    k2 = set_heap (k_heap k2) (drop_aspace a k1).
Proof.
  intros Hs Hin Hna.
  assert (as_step k (drop_aspace a k1) L L1 hs hs1) as Hs1.
  { apply (as_step_core _ _ _ _ _ _ _ a Hs); try done. intros b Hb. simpl. by rewrite lookup_delete_ne. }
  destruct (kfree_live _ hs1 a sz (sp_heap _ _ _ _ _ _ Hs1) (sp_ready _ _ _ _ _ _ Hs1) Hin)
    as (k2 & hs2 & A & B & Hrun & Hwf2 & Hf & Hr2 & E & E').
  exists k2, hs2. split; [exact Hrun|]. split; [|done].
  destruct Hs1 as [S1 S2 S3 S4 S5 S6 S7 S8]. pose proof (vm_step_heap _ _ _ S1 Hf) as V. split; try done.
  - apply V.
  - intros root virt Hr Hv0 Hlow. rewrite (vs_user _ _ _ _ V); [by apply S3|by eapply lookup_weaken|done|done].
  - by rewrite Hf.
  - intros [b s] Hx. pose proof (S7 _ Hx) as Hx1. rewrite E in Hx1. rewrite E'.
    apply elem_of_app in Hx1 as [Hx1|Hx1]; apply elem_of_app; [by left|].
    apply elem_of_cons in Hx1 as [[= -> ->]|Hx1]; [by apply Hna in Hx|by right].
  - intros b s Hx. rewrite Hf. by eapply S8.
Qed.

(** A new root table. *)
Lemma as_step_root k k1 L L1 hs hs1 q k2 :
  as_step k k1 L L1 hs hs1 → scdk_vmm_create_root k1 = (Ok q, k2) →
  as_step k k2 L (<[q:=(q, [])]> L1) hs hs1 ∧ vm_frame k1 k2 ∧ L1 !! q = None ∧ q ≠ 0 ∧
  ∀ i, 0 <= i < 256 → load64 k2 (q + 8 * i) = 0.
Proof.
  intros [S1 S2 S3 S4 S5 S6 S7 S8] Hrun.
  destruct (create_root_state _ _ _ _ S1 Hrun) as (Hq & Hq0 & HT & Hf & Hnew & Hold).
  split_and!; try done.
  - split; try done.
    + by etrans; [|apply insert_subseteq].
    + intros root virt Hr Hv Hlow. rewrite (pte_tables_same k1 k2 L1); [by apply S3|done|done|].
      by eapply lookup_weaken.
    + by rewrite Hf.
    + apply (heap_wf_same k1); [done|by rewrite Hf].
    + by rewrite Hf.
    + intros a sz Hin. rewrite Hf. by eapply S8.
  - intros i Hi. rewrite Hnew by lia. by rewrite (proj2 (Z.ltb_lt _ _)) by lia.
Qed.

(** Giving the root table back. *)
Lemma as_step_unroot k k1 L L1 hs hs1 q :
  as_step k k1 L (<[q:=(q, [])]> L1) hs hs1 → L1 !! q = None → L ⊆ L1 → q ≠ 0 →
  q ≠ active_cr3_phys (k_vmm k1) →
  ∃ r k2, kpage_free q k1 = (r, k2) ∧ defined r ∧ k2 = set_pmm (k_pmm k2) k1 ∧ as_step k k2 L L1 hs hs1.
Proof.
  intros [S1 S2 S3 S4 S5 S6 S7 S8] Hq Hs Hq0 Hact.
  destruct (free_labelled k1 _ q (q, []) S1 (lookup_insert_eq _ _ _)) as (r & k2 & Hrun & Hd & Hf & HT); [|done|].
  { split; [done|by left]. }
  rewrite delete_insert_id in HT by done.
  exists r, k2. split_and!; try done. split; try done.
  - intros root virt Hr Hv Hlow. rewrite <-S3 by done. apply pte_memory. by rewrite Hf.
  - by rewrite Hf.
  - apply (heap_wf_same k1); [done|by rewrite Hf].
  - by rewrite Hf.
  - intros a sz Hin. rewrite Hf. by eapply S8.
Qed.
(** The struct is filled in and the first capability minted. *)
Record space_made (k k' : kernel) (L L' : gmap Z label) (hs' : blocks) (oid a q : Z) : Prop := {
  sm_keep : ∀ id o, scdk_object_lookup k id = Ok o → scdk_object_lookup k' id = Ok o;
  sm_only : ∀ id o, scdk_object_lookup k' id = Ok o →
    scdk_object_lookup k id = Ok o ∨ id = oid ∧ obj_payload o = P_heap a;
  sm_fresh : ∀ o, scdk_object_lookup k oid ≠ Ok o;
  sm_object : ∃ g, scdk_object_lookup k' oid =
    Ok (mk_object oid SCDK_OBJ_ADDRESS_SPACE g SCDK_BOOT_CORE 0 (P_heap a));
  sm_struct : k_aspaces k' !! a = Some (mk_aspace oid q 0 0);
  sm_new : L !! q = None;
  sm_root : L' !! q = Some (q, []);
  sm_block : ∃ sz, (a, sz) ∈ allocs SCDK_HEAP_BASE hs';
  sm_empty : ∀ i, 0 <= i < 256 → load64 k' (q + 8 * i) = 0
}.

Definition aspace_rights : Z :=
  Z.lor (Z.lor (Z.lor SCDK_RIGHT_READ SCDK_RIGHT_WRITE) SCDK_RIGHT_MAP) SCDK_RIGHT_BIND.

(** Giving the root page and the storage back. *)
Lemma aspace_unwind k k1 L L1 hs hs1 a sz q :
  kernel_wf k1 → as_step k k1 L (<[q:=(q, [])]> L1) hs hs1 → L ⊆ L1 → L1 !! q = None → q ≠ 0 →
  q ≠ active_cr3_phys (k_vmm k1) →
  (a, sz) ∈ allocs SCDK_HEAP_BASE hs1 → (∀ sz, (a, sz) ∉ allocs SCDK_HEAP_BASE hs) →
  ∃ k' hs', (attempt (kpage_free q) ;; free_aspace a) k1 = (Ok tt, k') ∧ as_step k k' L L1 hs hs' ∧
    kernel_wf k' ∧ k_objs k' = k_objs k1 ∧ k_caps k' = k_caps k1.
Proof.
  intros Hk1 Hs Hsub Hq Hq0 Hact Hin Hna.
  destruct (as_step_unroot _ _ _ _ _ _ _ Hs Hq Hsub Hq0 Hact) as (r2 & k3 & Hfree & Hd & Hf & Hs3).
  destruct (free_aspace_step _ _ _ _ _ _ _ _ Hs3 Hin Hna) as (k4 & hs4 & Hfr & Hs4 & Hf4).
  exists k4, hs4. split_and!; [|done| |by rewrite Hf4, Hf|by rewrite Hf4, Hf].
  - unfold bind at 1, attempt. rewrite Hfree. by destruct r2.
  - apply (kernel_wf_frame k1); [done|by rewrite Hf4, Hf..|].
    eapply tables_sized_core; [apply Hk1|by rewrite Hf4, Hf..].
Qed.

(** The object, the storage and the root of a new space. *)
Lemma space_made_intro k k1 k2 k4 L L1 hs1 oid a sz q :
  k_objs k1 = k_objs k → object_created k1 k2 oid SCDK_OBJ_ADDRESS_SPACE SCDK_BOOT_CORE 0 (P_heap a) →
  k_objs k4 = k_objs k2 → k_vmm k4 = k_vmm k1 →
  k_aspaces k4 !! a = Some (mk_aspace oid q SCDK_BOOT_CORE 0) →
  L ⊆ L1 → L1 !! q = None → (a, sz) ∈ allocs SCDK_HEAP_BASE hs1 →
  (∀ i, 0 <= i < 256 → load64 k1 (q + 8 * i) = 0) →
  space_made k k4 L (<[q:=(q, [])]> L1) hs1 oid a q.
Proof.
  intros Ho1 Hoc E1 E2 E3 Hsub Hq Hin Hzero.
  assert (∀ id, scdk_object_lookup k1 id = scdk_object_lookup k id) as Hlk1 by (intros; by apply object_lookup_objs).
  assert (∀ id, scdk_object_lookup k4 id = scdk_object_lookup k2 id) as E by (intros; by apply object_lookup_objs).
  split; try setoid_rewrite E; try setoid_rewrite <-Hlk1.
  - apply Hoc.
  - intros id o [?|(?&?&?&?)]%(oc_only _ _ _ _ _ _ _ Hoc); tauto.
  - apply Hoc.
  - destruct (oc_lookup _ _ _ _ _ _ _ Hoc) as (g & _ & Hg). by exists g.
  - done.
  - by eapply lookup_weaken_None.
  - apply lookup_insert_eq.
  - by exists sz.
  - intros i Hi. rewrite <-(Hzero i Hi). unfold load64. by rewrite E2.
Qed.

(** From the root table on. *)
Lemma aspace_finish k k1 L L1 hs hs1 a sz q r k' :
  kernel_wf k1 → k_objs k1 = k_objs k → k_caps k1 = k_caps k →
  as_step k k1 L (<[q:=(q, [])]> L1) hs hs1 → L ⊆ L1 → L1 !! q = None → q ≠ 0 →
  q ≠ active_cr3_phys (k_vmm k1) → (∀ i, 0 <= i < 256 → load64 k1 (q + 8 * i) = 0) →
  (a, sz) ∈ allocs SCDK_HEAP_BASE hs1 → (∀ sz, (a, sz) ∉ allocs SCDK_HEAP_BASE hs) →
  (let* object_id :=
     recover (scdk_object_create SCDK_OBJ_ADDRESS_SPACE SCDK_BOOT_CORE 0 (P_heap a))
       (attempt (kpage_free q) ;; free_aspace a) in
   modify (put_aspace a (mk_aspace object_id q SCDK_BOOT_CORE 0)) ;;
   scdk_cap_create object_id aspace_rights) k1 = (r, k') →
  ∃ L' hs', as_step k k' L L' hs hs' ∧ kernel_wf k' ∧
    (k_objs k' = k_objs k ∧ k_caps k' = k_caps k ∧ (∃ e, r = Err e) ∨
     ∃ oid, space_made k k' L L' hs' oid a q ∧
       match r with
       | Ok cap => u64 cap ∧ (∀ e, scdk_cap_lookup k cap ≠ Ok e) ∧
           (∃ g, scdk_cap_lookup k' cap = Ok (mk_cap_entry oid g SCDK_OBJ_ADDRESS_SPACE 0 aspace_rights)) ∧
           ∀ c e, u64 c → c ≠ cap → scdk_cap_lookup k' c = Ok e ↔ scdk_cap_lookup k c = Ok e
       | Err _ => ∀ c e, scdk_cap_lookup k' c = Ok e ↔ scdk_cap_lookup k c = Ok e
       | Ub => False
       end).
Proof.
  intros Hk1 Ho1 Hc1 Hs Hsub Hq Hq0 Hact Hzero Hin Hna Hrun.
  pose proof (kwf_caps _ Hk1) as Hcw. unfold bind at 1, recover in Hrun.
  destruct (scdk_object_create _ _ _ _ k1) as [[oid|e|] k2] eqn:Hoc.
  3: { pose proof (object_create_defined k1 SCDK_OBJ_ADDRESS_SPACE SCDK_BOOT_CORE 0 (P_heap a) (cwf_objs _ Hcw)) as Hd.
       by rewrite Hoc in Hd. }
  2: { apply object_create_Err in Hoc as ->; [|apply Hcw].
       destruct (aspace_unwind _ _ _ _ _ _ _ _ _ Hk1 Hs Hsub Hq Hq0 Hact Hin Hna)
         as (k4 & hs4 & Hcl & Hs4 & Hk4 & E1 & E2).
       rewrite Hcl in Hrun. apply pair_equal_spec in Hrun as [<- <-]. exists L1, hs4.
       split_and!; [done|done|left; rewrite E1, E2; eauto]. }
  apply object_create_Ok in Hoc; [|apply Hcw].
  destruct (object_created_caps _ _ _ _ _ _ _ Hcw Hoc) as (Hcaps2 & Hcw2 & Hckeep).
  pose proof (object_created_kwf _ _ _ _ _ _ _ Hk1 Hoc eq_refl) as Hk2.
  set (k3 := put_aspace a (mk_aspace oid q SCDK_BOOT_CORE 0) k2).
  change (scdk_cap_create oid aspace_rights k3 = (r, k')) in Hrun.
  assert (kernel_wf k3) as Hk3.
  { apply (kernel_wf_frame k2); [done..|]. eapply tables_sized_core; [apply Hk2|done..]. }
  assert (k2 = set_objs (k_objs k2) k1) as Hf2 by apply Hoc.
  assert (as_step k k3 L (<[q:=(q, [])]> L1) hs hs1) as Hs3.
  { apply (as_step_core _ k1 _ _ _ _ _ a Hs); [by unfold k3; rewrite Hf2..| |done].
    intros b Hb. unfold k3. simpl. rewrite lookup_insert_ne by done. by rewrite Hf2. }
  assert (∀ c, scdk_cap_lookup k1 c = scdk_cap_lookup k c) as Hcl1 by (intros; by apply cap_lookup_tables).
  assert (∀ c, scdk_cap_lookup k3 c = scdk_cap_lookup k2 c) as Hcl3 by (intros; by apply cap_lookup_tables).
  assert (∀ c e, scdk_cap_lookup k3 c = Ok e ↔ scdk_cap_lookup k c = Ok e) as Hcc.
  { intros c e. rewrite Hcl3, <-Hcl1. split; [by eapply object_created_caps_back|apply Hckeep]. }
  assert (∀ k4, k_objs k4 = k_objs k3 → k_vmm k4 = k_vmm k3 → k_aspaces k4 = k_aspaces k3 →
    space_made k k4 L (<[q:=(q, [])]> L1) hs1 oid a q) as Hmade.
  { intros k4 E1 E2 E3. eapply (space_made_intro k k1 k2 k4); try done; [by rewrite E2; unfold k3; simpl; rewrite Hf2|].
    rewrite E3. apply lookup_insert_eq. }
  exists (<[q:=(q, [])]> L1), hs1. destruct r as [cap|e|].
  - apply cap_create_Ok in Hrun; [|apply Hk3]. pose proof (cc_frame _ _ _ _ _ Hrun) as Hf.
    split_and!.
    + apply (as_step_core _ k3 _ _ _ _ _ a Hs3); [by rewrite Hf..|done].
    + by apply (cap_table_only_kwf k3 k' Hk3 Hf), Hrun.
    + right. exists oid. split; [apply Hmade; by rewrite Hf|]. split_and!; [apply Hrun| | |].
      * intros e He%Hcc. by apply Hrun in He.
      * destruct (cc_lookup _ _ _ _ _ Hrun) as (o & Ho & Hl). exists (obj_generation o).
        destruct (oc_lookup _ _ _ _ _ _ _ Hoc) as (g & _ & Hg).
        rewrite (object_lookup_objs k3 k2), Hg in Ho by done. injection Ho as <-. exact Hl.
      * intros c e Hu Hne. rewrite <-Hcc. split; [|by apply Hrun].
        intros [?|?]%(cc_only _ _ _ _ _ Hrun); done.
  - apply cap_create_Err in Hrun as ->; [|apply Hk3]. split_and!; [done|done|].
    right. exists oid. split; [by apply Hmade|done].
  - pose proof (cap_create_defined k3 oid aspace_rights (kwf_caps _ Hk3)) as Hd. by rewrite Hrun in Hd.
Qed.
(** The whole of [scdk_address_space_create]. *)
Lemma aspace_create_cases k L hs r k' :
  space_base k L hs → scdk_address_space_create k = (r, k') →
  ∃ L' hs', as_step k k' L L' hs hs' ∧ kernel_wf k' ∧
    (k_objs k' = k_objs k ∧ k_caps k' = k_caps k ∧ (∃ e, r = Err e) ∨
     ∃ oid a q, space_made k k' L L' hs' oid a q ∧
       match r with
       | Ok cap => u64 cap ∧ (∀ e, scdk_cap_lookup k cap ≠ Ok e) ∧
           (∃ g, scdk_cap_lookup k' cap = Ok (mk_cap_entry oid g SCDK_OBJ_ADDRESS_SPACE 0 aspace_rights)) ∧
           ∀ c e, u64 c → c ≠ cap → scdk_cap_lookup k' c = Ok e ↔ scdk_cap_lookup k c = Ok e
       | Err _ => ∀ c e, scdk_cap_lookup k' c = Ok e ↔ scdk_cap_lookup k c = Ok e
       | Ub => False
       end).
Proof.
  intros Hwf Hrun. destruct (aspace_storage k L hs Hwf) as (a & k1 & L1 & hs1 & Hst & Hf1 & Hs1 & Ha).
  unfold scdk_address_space_create in Hrun. rewrite (bind_Ok _ _ _ _ _ Hst) in Hrun.
  pose proof (hv_frame_kwf _ _ Hf1 (sb_kernel _ _ _ Hwf)) as Hk1.
  assert (k_objs k1 = k_objs k ∧ k_caps k1 = k_caps k) as [Ho1 Hc1] by (by rewrite Hf1).
  destruct Ha as [->|(Ha0 & Hna & sz & Hin)].
  { apply pair_equal_spec in Hrun as [<- <-]. exists L1, hs1. split_and!; [done|done|]. left. eauto. }
  unfold bind at 1, guard in Hrun. rewrite (proj2 (Z.eqb_neq _ _)) in Hrun by done. cbn [ret] in Hrun.
  set (k2 := put_aspace a (mk_aspace 0 0 0 0) k1).
  unfold bind at 1, modify in Hrun. cbv beta iota in Hrun. fold k2 in Hrun.
  assert (as_step k k2 L L1 hs hs1) as Hs2.
  { apply (as_step_core _ k1 _ _ _ _ _ a Hs1); try done. intros b Hb. unfold k2. simpl.
    by rewrite lookup_insert_ne. }
  assert (kernel_wf k2) as Hk2.
  { apply (kernel_wf_frame k1); [done..|]. eapply tables_sized_core; [apply Hk1|done..]. }
  unfold bind at 1, recover at 1 in Hrun. destruct (scdk_vmm_create_root k2) as [r3 k3] eqn:Hcr.
  destruct (create_root_fails k2 L1 r3 k3 (sp_typed _ _ _ _ _ _ Hs2) Hcr) as [[q ->]|[[e ->] ->]].
  - destruct (as_step_root _ _ _ _ _ _ _ _ Hs2 Hcr) as (Hs3 & Hf3 & Hq & Hq0 & Hzero).
    assert (hv_frame k2 k3) as Hhf by (by apply vm_frame_hv).
    assert (q ≠ active_cr3_phys (k_vmm k3)) as Hact.
    { destruct (vm_frame_vmm _ _ Hf3) as [_ ->]. pose proof (pt_active _ _ (sp_typed _ _ _ _ _ _ Hs2)). congruence. }
    destruct (aspace_finish k k3 L L1 hs hs1 a sz q r k') as (L' & hs' & A1 & A2 & A3); try done.
    + by apply (hv_frame_kwf k2).
    + by rewrite Hhf.
    + by rewrite Hhf.
    + apply Hs2.
    + exists L', hs'. split_and!; [done|done|]. destruct A3 as [?|(oid & ? & ?)]; [by left|right].
      by exists oid, a, q.
  - destruct (free_aspace_step _ _ _ _ _ _ _ _ Hs2 Hin Hna) as (k4 & hs4 & Hfr & Hs4 & Hf4).
    rewrite Hfr in Hrun. apply pair_equal_spec in Hrun as [<- <-]. exists L1, hs4.
    assert (k_objs k4 = k_objs k2 ∧ k_caps k4 = k_caps k2) as [E1 E2] by (by rewrite Hf4).
    split_and!; [done| |left; rewrite E1, E2; eauto].
    apply (kernel_wf_frame k2); [done..|]. eapply tables_sized_core; [apply Hk2|by rewrite Hf4..].
Qed.

(** A new space translates nothing. *)
Lemma empty_space k' L' hs' oid a q k L cap g v :
  aspaces_wf k' L' hs' → space_made k k' L L' hs' oid a q →
  scdk_cap_lookup k' cap = Ok (mk_cap_entry oid g SCDK_OBJ_ADDRESS_SPACE 0 aspace_rights) →
  u64 v → user_page v → scdk_address_space_translate k' cap v = Err SCDK_ERR_NOENT.
Proof.
  intros Hwf Hm Hc Hv Hup. unfold scdk_address_space_translate.
  assert (space_root k' oid = Some q) as Hsr.
  { unfold space_root. destruct (sm_object _ _ _ _ _ _ _ _ Hm) as [g' ->]. simpl.
    by rewrite (sm_struct _ _ _ _ _ _ _ _ Hm). }
  rewrite (proj2 (lookup_aspace_Ok _ _ _ _ _ (mk_aspace oid q 0 0) Hwf)).
  2: { eexists _, q. split_and!; [apply cap_check_Ok; split_and!; [done|exact Hc|by right|done]|done|done]. }
  cbn [rbind as_root_phys]. unfold user_page in Hup. rewrite Hup. cbn [rbind]. rewrite virt_to_phys_pte.
  rewrite (root_valid _ L') by (try apply Hwf; apply Hm). cbn [rbind].
  assert (validate_vmm_address k' (Z.land v (not64 (SCDK_PAGE_SIZE - 1))) = Ok tt) as ->.
  { unfold validate_vmm_address. rewrite (pt_ready _ _ (aw_tables _ _ _ Hwf)). cbn [negb rguard rbind].
    rewrite page_base in * by done. apply validate_user_page_spec in Hup as [Hmod Hr].
    apply page_aligned_iff in Hmod. rewrite Hmod. unfold is_canonical.
    rewrite Z.shiftr_div_pow2, Z.div_small by (try done; unfold SCDK_USER_VIRT_TOP, SCDK_USER_VIRT_BASE in Hr; lia).
    done. }
  cbn [rbind]. unfold pte. cbn [path reach]. pose proof (index_range v) as (H4 & _).
  pose proof (user_page_low v Hv Hup) as Hlow. rewrite (sm_empty _ _ _ _ _ _ _ _ Hm) by lia. done.
Qed.
(** The space of a capability that was valid is an old one. *)
Lemma cap_lookup_space k k' L hs e c root :
  aspaces_wf k L hs → scdk_cap_lookup k c = Ok e →
  (∀ id o, scdk_object_lookup k id = Ok o → scdk_object_lookup k' id = Ok o) →
  (∀ id root, space_root k id = Some root → space_root k' id = Some root) →
  space_root k' (ce_object_id e) = Some root → space_root k (ce_object_id e) = Some root.
Proof.
  intros Hwf Hc Hkeep Hroots Hr. unfold scdk_cap_lookup in Hc. do 2 minv_step Hc. minv_step Hc.
  apply (inj Ok) in Hc. subst a. pose proof (Hkeep _ _ E0) as Ho'.
  destruct (obj_payload a0) eqn:Hp;
    try (exfalso; unfold space_root in Hr; rewrite Ho', Hp in Hr; discriminate Hr).
  destruct (aw_space _ _ _ Hwf _ _ _ E0 Hp) as (root' & sz & Ha & _).
  assert (space_root k (ce_object_id e) = Some root') as Hk by (unfold space_root; by rewrite E0, Hp, Ha).
  rewrite (Hroots _ _ Hk) in Hr. by rewrite Hk.
Qed.
Lemma aspace_create_state k k' L hs r :
  aspaces_wf k L hs → scdk_address_space_create k = (r, k') →
  ∃ L' hs', as_step k k' L L' hs hs' ∧ aspaces_wf k' L' hs' ∧
    (∀ id o, scdk_object_lookup k id = Ok o → scdk_object_lookup k' id = Ok o) ∧
    (∀ id root, space_root k id = Some root → space_root k' id = Some root) ∧
    (k_objs k' = k_objs k ∧ k_caps k' = k_caps k ∧ (∃ e, r = Err e) ∨
     ∃ oid a q, space_made k k' L L' hs' oid a q ∧
       match r with
       | Ok cap => u64 cap ∧ (∀ e, scdk_cap_lookup k cap ≠ Ok e) ∧
           (∃ g, scdk_cap_lookup k' cap = Ok (mk_cap_entry oid g SCDK_OBJ_ADDRESS_SPACE 0 aspace_rights)) ∧
           ∀ c e, u64 c → c ≠ cap → scdk_cap_lookup k' c = Ok e ↔ scdk_cap_lookup k c = Ok e
       | Err _ => ∀ c e, scdk_cap_lookup k' c = Ok e ↔ scdk_cap_lookup k c = Ok e
       | Ub => False
       end).
Proof.
  intros Hwf Hrun.
  destruct (aspace_create_cases k L hs r k' (aspaces_base _ _ _ Hwf) Hrun) as (L' & hs' & Hs & Hk' & Hcases).
  assert (∃ oid a q,
    (∀ id o, scdk_object_lookup k id = Ok o → scdk_object_lookup k' id = Ok o) ∧
    (∀ id o b, scdk_object_lookup k' id = Ok o → obj_payload o = P_heap b →
       scdk_object_lookup k id = Ok o ∨
       id = oid ∧ b = a ∧ k_aspaces k' !! a = Some (mk_aspace oid q 0 0) ∧ L !! q = None ∧
         L' !! q = Some (q, []) ∧ ∃ sz, (a, sz) ∈ allocs SCDK_HEAP_BASE hs')) as (oid & a & q & Hkeep & Hnew).
  { destruct Hcases as [(Ho & _ & _)|(oid & a & q & Hm & _)].
    - assert (∀ id, scdk_object_lookup k' id = scdk_object_lookup k id) as E by (intros; by apply object_lookup_objs).
      exists 0, 0, 0. setoid_rewrite E. split; [done|]. by left.
    - exists oid, a, q. split; [apply Hm|]. intros id o b Hl Hp.
      destruct (sm_only _ _ _ _ _ _ _ _ Hm _ _ Hl) as [?|[-> Hp']]; [by left|right].
      destruct Hm. split_and!; try done. congruence. }
  destruct (aspaces_extend _ _ _ _ _ _ oid a q Hwf Hs Hk' Hkeep Hnew) as [Hwf' Hroots].
  by exists L', hs'.
Qed.
End creation.

(** ** Properties *)

(** C24. Mapping through an address-space capability is confined to that
    address space: [scdk_address_space_map] succeeds only with the MAP and READ
    rights (and WRITE for a writable page) and only for a page of the user
    range; then every byte of the page translates, through the capability, to
    the same byte of the physical page with the requested flags plus USER.
    Whatever the result, no other page of that space and no page of any other
    space translates differently, and the address-space invariant holds. *)
Theorem aspace_map_confined (k k' : kernel) (L : gmap Z label) (hs : blocks)
  (c vaddr paddr flags : Z) (r : result unit)
  (Hwf : aspaces_wf k L hs) (Hu : u64 vaddr) (Hp : 0 <= paddr < phys_limit) (Hf : u64 flags)
  (Hrun : scdk_address_space_map c vaddr paddr flags k = (r, k')) :
  defined r ∧ (∃ L', aspaces_wf k' L' hs) ∧
  (r = Ok tt →
     (∃ e, scdk_cap_lookup k c = Ok e ∧
        Z.land (ce_rights e) (SCDK_RIGHT_MAP + SCDK_RIGHT_READ) = SCDK_RIGHT_MAP + SCDK_RIGHT_READ ∧
        (Z.land flags SCDK_VMM_MAP_WRITE ≠ 0 → Z.land (ce_rights e) SCDK_RIGHT_WRITE = SCDK_RIGHT_WRITE)) ∧
     vaddr mod 4096 = 0 ∧ SCDK_USER_VIRT_BASE <= vaddr <= SCDK_USER_VIRT_TOP - 4096 ∧
     ∀ off, 0 <= off < 4096 →
       scdk_address_space_translate k' c (vaddr + off) = Ok (paddr + off, Z.lor flags SCDK_VMM_MAP_USER)) ∧
  (∀ c' v', u64 v' → r = Ok tt → ¬ same_space k c c' ∨ v' / 4096 ≠ vaddr / 4096 →
     scdk_address_space_translate k' c' v' = scdk_address_space_translate k c' v') ∧
  (∀ c' v', u64 v' → r ≠ Ok tt →
     scdk_address_space_translate k' c' v' = scdk_address_space_translate k c' v').
Proof.
  destruct (aspace_map_cases k k' L hs c vaddr paddr flags r Hwf Hu Hp Hf Hrun)
    as [(e & -> & ->)|(e & root & Hc & Hroot & Hv & L' & Hsub & HT' & Hfr & Hother & Hr)].
  { split_and!; [done|by exists L|done|done|done]. }
  pose proof (aspaces_vm _ _ _ _ _ Hwf Hfr Hsub HT') as Hwf'.
  apply cap_check_Ok in Hc as (_ & Hc & Hty & Hrights).
  split_and!.
  - by destruct r.
  - by exists L'.
  - intros ->. pose proof (proj1 (validate_user_page_spec vaddr) Hv) as [Hm [Hlo Hhi]].
    split_and!; [|done..|].
    + exists e. split; [done|]. by apply map_rights_needed.
    + intros off Hoff. destruct (user_page_offset _ _ Hu Hv Hoff) as [Huo Hpo].
      apply (aspace_translate_Ok _ _ _ _ _ _ Hwf'). split; [done|]. exists e, root.
      rewrite (cap_check_tables k' k) by (by rewrite Hfr).
      rewrite (space_root_frame k k') by (by rewrite Hfr). split_and!; [|done|by apply Hr].
      apply cap_check_Ok. split_and!; [done|done|done|]. by apply map_rights_read in Hrights.
  - intros c' v' Hv' -> Hne. apply (translate_elsewhere k k' L hs c e root vaddr); try done. by apply validated_user_page.
  - intros c' v' Hv' Hnok. destruct r as [[]|err|]; [done| |done]. unfold scdk_address_space_translate.
    rewrite (hv_frame_lookup k k') by (by apply vm_frame_hv).
    destruct (lookup_aspace k c' SCDK_RIGHT_READ) as [s| |] eqn:Hl; [|done..]. cbn [rbind].
    destruct (validate_user_page (Z.land v' _)) as [[]| |]; [|done..]. cbn [rbind].
    apply (lookup_aspace_Ok _ _ _ _ _ _ Hwf) in Hl as (e' & root' & _ & Hr' & ->).
    apply pte_same_translation; [apply (vm_frame_vmm _ _ Hfr)|]. apply Hr. by eapply space_root_label.
Qed.

(** A new address space is private and empty: whatever
    [scdk_address_space_create] returns, it is free of undefined behaviour,
    keeps the address-space invariant, and every capability other than the one
    it returns translates exactly the addresses it translated before; a
    returned capability was not valid before, and no user address translates
    through it. *)
Theorem aspace_create_private (k k' : kernel) (L : gmap Z label) (hs : blocks) (r : result Z)
  (Hwf : aspaces_wf k L hs) (Hrun : scdk_address_space_create k = (r, k')) :
  defined r ∧ (∃ L' hs', aspaces_wf k' L' hs') ∧
  (∀ c v t, u64 c → u64 v → r ≠ Ok c →
     scdk_address_space_translate k' c v = Ok t ↔ scdk_address_space_translate k c v = Ok t) ∧
  (∀ cap, r = Ok cap → (∀ e, scdk_cap_lookup k cap ≠ Ok e) ∧
     ∀ v, u64 v → user_page v → scdk_address_space_translate k' cap v = Err SCDK_ERR_NOENT).
Proof.
  destruct (aspace_create_state k k' L hs r Hwf Hrun) as (L' & hs' & Hs & Hwf' & Hkeep & Hroots & Hcases).
  split_and!.
  - destruct Hcases as [(_ & _ & e & ->)|(? & ? & ? & _ & Hr)]; [done|by destruct r].
  - by exists L', hs'.
  - intros c v t Hu Hv Hne. apply (as_step_translate k k' L L' hs hs'); try done.
    + intros e. destruct Hcases as [(Ho & Hc & _)|(? & ? & ? & _ & Hr)].
      * by rewrite (cap_lookup_tables k' k).
      * destruct r as [cap|e'|]; [|apply Hr|done]. apply Hr; [done|congruence].
    + intros e He root Hr. apply (cap_lookup_space k k' L hs e c root); try done.
  - intros cap ->. destruct Hcases as [(_ & _ & e & [=])|(oid' & a' & q' & Hm & _ & Hfr & [g Hg] & _)].
    split; [done|]. intros v Hv Hup. by apply (empty_space k' L' hs' oid' a' q' k L cap g).
Qed.

(** Unmapping through a capability removes one page of that space:
    [scdk_address_space_unmap] needs the MAP and READ rights; after success
    the page, which translated before, translates no more through the
    capability; nothing else changes for any capability, a failure changes
    nothing at all, and the address-space invariant holds. *)
Theorem aspace_unmap_confined (k k' : kernel) (L : gmap Z label) (hs : blocks) (c vaddr : Z)
  (r : result unit) (Hwf : aspaces_wf k L hs) (Hu : u64 vaddr)
  (Hrun : scdk_address_space_unmap c vaddr k = (r, k')) :
  defined r ∧ aspaces_wf k' L hs ∧ (r ≠ Ok tt → k' = k) ∧
  (r = Ok tt →
     (∃ e, scdk_cap_lookup k c = Ok e ∧
        Z.land (ce_rights e) (SCDK_RIGHT_MAP + SCDK_RIGHT_READ) = SCDK_RIGHT_MAP + SCDK_RIGHT_READ) ∧
     (∃ t, scdk_address_space_translate k c vaddr = Ok t) ∧
     (∀ t, scdk_address_space_translate k' c vaddr ≠ Ok t) ∧
     ∀ c' v', u64 v' → ¬ same_space k c c' ∨ v' / 4096 ≠ vaddr / 4096 →
       scdk_address_space_translate k' c' v' = scdk_address_space_translate k c' v').
Proof.
  destruct (aspace_unmap_cases k k' L hs c vaddr r Hwf Hu Hrun)
    as [(e & -> & ->)|(e & root & Hc & Hroot & Hv & HT' & Hfr & Hother & Hr)]; [done|].
  pose proof (aspaces_vm _ _ _ _ _ Hwf Hfr (reflexivity L) HT') as Hwf'.
  pose proof (validated_user_page _ Hu Hv) as Hup.
  apply cap_check_Ok in Hc as (_ & Hc & Hty & Hrights).
  assert (scdk_cap_check k c SCDK_RIGHT_READ SCDK_OBJ_ADDRESS_SPACE = Ok e) as Hread.
  { apply cap_check_Ok. split_and!; [done..|]. by apply (rights_sub _ _ _ Hrights). }
  split_and!; [by destruct r|done|by destruct r as [[]| |]|]. intros ->. destruct Hr as [[t Ht] Hno].
  split_and!.
  - by exists e.
  - exists t. apply (aspace_translate_Ok _ _ _ _ _ _ Hwf). eauto 6.
  - intros t' (_ & e' & root' & Hc' & Hr' & Ht')%(aspace_translate_Ok _ _ _ _ _ _ Hwf').
    rewrite (cap_check_tables k' k), Hread in Hc' by (by rewrite Hfr). injection Hc' as <-.
    rewrite (space_root_frame k k'), Hroot in Hr' by (by rewrite Hfr). injection Hr' as <-.
    by apply Hno in Ht'.
  - intros c' v' Hv' Hne. by apply (translate_elsewhere k k' L hs c e root vaddr).
Qed.

(** ** Witnesses *)
(** Eight free pages, an active root, a heap with one allocated block. *)
Definition demo_spaces : kernel := set_heap (k_heap demo_heap) demo_vm.

Lemma aspaces_wf_init k L hs :
  kernel_wf k → pt_typed k L → heap_wf k hs → heap_initialized (k_heap k) = true →
  (∀ id o, scdk_object_lookup k id ≠ Ok o) → aspaces_wf k L hs.
Proof.
  intros H1 H2 H3 H4 Hno. split; try done.
  - intros id o a Ho. by apply Hno in Ho.
  - intros id id' root. unfold space_root. destruct (scdk_object_lookup k id) eqn:E; [by apply Hno in E|done..].
Qed.

Lemma demo_spaces_wf : aspaces_wf demo_spaces demo_labels demo_blocks.
Proof.
  apply aspaces_wf_init.
  - apply (kernel_wf_frame boot_kernel); [exact boot_kernel_wf|reflexivity|reflexivity|].
    eapply tables_sized_core; [exact (kwf_sized _ boot_kernel_wf)|reflexivity..].
  - apply (vs_typed demo_vm _ demo_labels demo_labels). apply vm_step_heap; [exact demo_vm_typed|reflexivity].
  - apply (heap_wf_same demo_heap); [exact demo_heap_wf|reflexivity].
  - reflexivity.
  - intros id o. rewrite (object_lookup_objs _ boot_kernel) by reflexivity.
    intros (i & Hi & Hty & _)%object_lookup_Ok. apply lookup_zeroed_inv in Hi. rewrite Hi in Hty. by apply Hty.
Qed.

Definition demo_space_made : kernel := (scdk_address_space_create demo_spaces).2.
Definition demo_space_cap : Z := match (scdk_address_space_create demo_spaces).1 with Ok c => c | _ => 0 end.

Lemma demo_create_runs : scdk_address_space_create demo_spaces = (Ok demo_space_cap, demo_space_made).
Proof. apply run_to; [reflexivity|]. vm_compute. reflexivity. Qed.

Lemma aspace_create_private_witness :
  scdk_address_space_translate demo_space_made demo_space_cap 4194304 = Err SCDK_ERR_NOENT.
Proof.
  destruct (aspace_create_private demo_spaces demo_space_made demo_labels demo_blocks _
    demo_spaces_wf demo_create_runs) as (_ & _ & _ & H).
  destruct (H demo_space_cap eq_refl) as [_ H2]. apply H2.
  - unfold u64, two64. lia.
  - vm_compute. reflexivity.
Defined.

Lemma demo_space_made_wf : ∃ L hs, aspaces_wf demo_space_made L hs.
Proof.
  destruct (aspace_create_state _ _ _ _ _ demo_spaces_wf demo_create_runs) as (L & hs & _ & H & _).
  exists L, hs. exact H.
Qed.

Lemma aspace_map_confined_witness :
  ∃ k', scdk_address_space_map demo_space_cap 4194304 69632 SCDK_VMM_MAP_WRITE demo_space_made = (Ok tt, k') ∧
    scdk_address_space_translate k' demo_space_cap (4194304 + 7) = Ok (69632 + 7, 3).
Proof.
  destruct demo_space_made_wf as (L & hs & Hwf).
  set (k' := (scdk_address_space_map demo_space_cap 4194304 69632 SCDK_VMM_MAP_WRITE demo_space_made).2).
  assert (scdk_address_space_map demo_space_cap 4194304 69632 SCDK_VMM_MAP_WRITE demo_space_made = (Ok tt, k')) as Hrun.
  { apply run_to; [reflexivity|]. vm_compute. reflexivity. }
  exists k'. split; [exact Hrun|].
  assert (u64 4194304 ∧ 0 <= 69632 < phys_limit ∧ u64 SCDK_VMM_MAP_WRITE) as (H1 & H2 & H3).
  { unfold u64, two64, phys_limit, SCDK_VMM_MAP_WRITE. lia. }
  destruct (aspace_map_confined demo_space_made k' L hs demo_space_cap 4194304 69632 SCDK_VMM_MAP_WRITE
    (Ok tt) Hwf H1 H2 H3 Hrun) as (_ & _ & H & _).
  destruct (H eq_refl) as (_ & _ & _ & Ht). apply Ht. lia.
Defined.

Definition demo_space_mapped : kernel :=
  (scdk_address_space_map demo_space_cap 4194304 69632 SCDK_VMM_MAP_WRITE demo_space_made).2.

Lemma aspace_unmap_confined_witness :
  ∃ k', scdk_address_space_unmap demo_space_cap 4194304 demo_space_mapped = (Ok tt, k') ∧
    ∀ t, scdk_address_space_translate k' demo_space_cap 4194304 ≠ Ok t.
Proof.
  destruct demo_space_made_wf as (L & hs & Hwf).
  assert (u64 4194304 ∧ 0 <= 69632 < phys_limit ∧ u64 SCDK_VMM_MAP_WRITE) as (H1 & H2 & H3).
  { unfold u64, two64, phys_limit, SCDK_VMM_MAP_WRITE. lia. }
  assert (scdk_address_space_map demo_space_cap 4194304 69632 SCDK_VMM_MAP_WRITE demo_space_made
    = (Ok tt, demo_space_mapped)) as Hmap.
  { apply run_to; [reflexivity|]. vm_compute. reflexivity. }
  assert (∃ L2, aspaces_wf demo_space_mapped L2 hs) as [L2 Hwf2].
  { destruct (aspace_map_cases _ _ _ _ _ _ _ _ _ Hwf H1 H2 H3 Hmap)
      as [(e & E & _)|(e & root & _ & _ & _ & L2 & Hsub & HT & Hfr & _)]; [discriminate E|].
    exists L2. exact (aspaces_vm _ _ _ _ _ Hwf Hfr Hsub HT). }
  set (k' := (scdk_address_space_unmap demo_space_cap 4194304 demo_space_mapped).2).
  assert (scdk_address_space_unmap demo_space_cap 4194304 demo_space_mapped = (Ok tt, k')) as Hrun.
  { apply run_to; [reflexivity|]. vm_compute. reflexivity. }
  destruct (aspace_unmap_confined demo_space_mapped k' L2 hs demo_space_cap 4194304 (Ok tt) Hwf2 H1 Hrun)
    as (_ & _ & _ & H). destruct (H eq_refl) as (_ & _ & Hno & _). exists k'. split; [exact Hrun|exact Hno].
Defined.
