(* ===== verification/Scheduler.v ===== *)
(** * Kernel tasks, threads and the run queue ([src/core/scheduler.c])

    A pointer to a slot of [task_table] or [thread_table] is the slot's index.
    The callee-saved registers that [scdk_context_switch] stores and loads are
    an argument and a result: an operation that switches takes the registers
    of the thread that stops and returns those of the thread that goes on
    ([None] when it returns without switching).  The words that
    [make_kernel_thread_context] writes on the new stack lie in a heap payload
    and are not modelled. *)
From stdpp Require Import base gmap list numbers relations.
From Stdlib Require Import ZArith Lia.
From S2P Require Import Prelude.
From S2P Require Import Kernel.
From S2P Require Import Object.
From S2P Require Import Capability.
From S2P Require Import Invariant.
From S2P Require Import Pmm.
From S2P Require Import Vmm.
From S2P Require Import Heap.
From S2P Require Import HeapVm.
#[local] Open Scope Z_scope.

Definition SCDK_KERNEL_STACK_SIZE : Z := 16384.

Definition SCDK_THREAD_NONE : Z := 0.
Definition SCDK_THREAD_NEW : Z := 1.
Definition SCDK_THREAD_READY : Z := 2.
Definition SCDK_THREAD_RUNNING : Z := 3.
Definition SCDK_THREAD_BLOCKED : Z := 4.
Definition SCDK_THREAD_DEAD : Z := 5.

(** ** Assignments *)
Definition with_tasks (x : list scdk_task_slot) (s : sched) : sched :=
  mk_sched x (thread_table s) (run_queues s) (current_thread_slot s) (scheduler_driver_slot s)
    (current_task s) (current_thread s) (scheduler_initialized s).
Definition with_threads (x : list scdk_thread_slot) (s : sched) : sched :=
  mk_sched (task_table s) x (run_queues s) (current_thread_slot s) (scheduler_driver_slot s)
    (current_task s) (current_thread s) (scheduler_initialized s).
Definition with_queues (x : list scdk_run_queue) (s : sched) : sched :=
  mk_sched (task_table s) (thread_table s) x (current_thread_slot s) (scheduler_driver_slot s)
    (current_task s) (current_thread s) (scheduler_initialized s).
Definition with_current (slot : option nat) (task thread : Z) (s : sched) : sched :=
  mk_sched (task_table s) (thread_table s) (run_queues s) slot (scheduler_driver_slot s)
    task thread (scheduler_initialized s).
Definition with_driver (d : option nat) (s : sched) : sched :=
  mk_sched (task_table s) (thread_table s) (run_queues s) (current_thread_slot s) d
    (current_task s) (current_thread s) (scheduler_initialized s).
Definition with_sched_ready (s : sched) : sched :=
  mk_sched (task_table s) (thread_table s) (run_queues s) (current_thread_slot s)
    (scheduler_driver_slot s) (current_task s) (current_thread s) true.

Definition on_sched (f : sched → sched) (k : kernel) : kernel := set_sched (f (k_sched k)) k.

Definition with_context (c : scdk_thread_context) (t : scdk_thread_slot) : scdk_thread_slot :=
  mk_thread_slot c (th_object_id t) (th_cap t) (th_task_cap t) (th_task_id t) (th_entry t) (th_arg t)
    (th_kernel_stack t) (th_stack_top t) (th_owner_core t) (th_state t) (th_queued t).
Definition with_state (st : Z) (t : scdk_thread_slot) : scdk_thread_slot :=
  mk_thread_slot (th_context t) (th_object_id t) (th_cap t) (th_task_cap t) (th_task_id t) (th_entry t)
    (th_arg t) (th_kernel_stack t) (th_stack_top t) (th_owner_core t) st (th_queued t).
Definition with_queued (b : bool) (t : scdk_thread_slot) : scdk_thread_slot :=
  mk_thread_slot (th_context t) (th_object_id t) (th_cap t) (th_task_cap t) (th_task_id t) (th_entry t)
    (th_arg t) (th_kernel_stack t) (th_stack_top t) (th_owner_core t) (th_state t) b.
Definition with_thread_cap (c : Z) (t : scdk_thread_slot) : scdk_thread_slot :=
  mk_thread_slot (th_context t) (th_object_id t) c (th_task_cap t) (th_task_id t) (th_entry t)
    (th_arg t) (th_kernel_stack t) (th_stack_top t) (th_owner_core t) (th_state t) (th_queued t).
Definition with_thread_object (id : Z) (t : scdk_thread_slot) : scdk_thread_slot :=
  mk_thread_slot (th_context t) id (th_cap t) (th_task_cap t) (th_task_id t) (th_entry t)
    (th_arg t) (th_kernel_stack t) (th_stack_top t) (th_owner_core t) (th_state t) (th_queued t).
Definition with_stack (p : Z) (t : scdk_thread_slot) : scdk_thread_slot :=
  mk_thread_slot (th_context t) (th_object_id t) (th_cap t) (th_task_cap t) (th_task_id t) (th_entry t)
    (th_arg t) p (th_stack_top t) (th_owner_core t) (th_state t) (th_queued t).

(** [thread_table[i]] updated in place. *)
Definition upd_thread (i : nat) (f : scdk_thread_slot → scdk_thread_slot) (k : kernel) : kernel :=
  on_sched (λ s, with_threads (alter f i (thread_table s)) s) k.
Definition upd_task (i : nat) (f : scdk_task_slot → scdk_task_slot) (k : kernel) : kernel :=
  on_sched (λ s, with_tasks (alter f i (task_table s)) s) k.
Definition get_thread (i : nat) : K scdk_thread_slot :=
  query (λ k, deref (thread_table (k_sched k) !! i)).
Definition get_task (i : nat) : K scdk_task_slot :=
  query (λ k, deref (task_table (k_sched k) !! i)).
Definition get_queue (core : Z) : K scdk_run_queue :=
  query (λ k, deref (run_queues (k_sched k) !! Z.to_nat core)).
Definition put_queue (core : Z) (q : scdk_run_queue) : K unit :=
  modify (on_sched (λ s, with_queues (<[Z.to_nat core:=q]> (run_queues s)) s)).

(** ** Lookups *)
Definition task_slot_for_cap (k : kernel) (task : Z) : result nat :=
  let? entry := scdk_cap_check k task SCDK_RIGHT_READ SCDK_OBJ_TASK in
  let? object := scdk_object_lookup k (ce_object_id entry) in
  match obj_payload object with
  | P_null => Err SCDK_ERR_NOENT
  | P_task i =>
      let? slot := deref (task_table (k_sched k) !! i) in
      if negb (tk_object_id slot =? ce_object_id entry) then Err SCDK_ERR_NOENT else Ok i
  | _ => Ub
  end.

Definition thread_slot_for_cap (k : kernel) (thread : Z) : result nat :=
  let? entry := scdk_cap_check k thread SCDK_RIGHT_READ SCDK_OBJ_THREAD in
  let? object := scdk_object_lookup k (ce_object_id entry) in
  match obj_payload object with
  | P_null => Err SCDK_ERR_NOENT
  | P_thread i =>
      let? slot := deref (thread_table (k_sched k) !! i) in
      if negb (th_object_id slot =? ce_object_id entry) then Err SCDK_ERR_NOENT else Ok i
  | _ => Ub
  end.

(** ** The run queue *)
Definition run_queue_empty (k : kernel) (owner_core : Z) : result bool :=
  let? q := deref (run_queues (k_sched k) !! Z.to_nat owner_core) in
  Ok (rq_count q =? 0).

Definition enqueue_thread (i : nat) : K unit :=
  let* slot := get_thread i in
  guard (SCDK_MAX_CORES <=? th_owner_core slot) SCDK_ERR_INVAL ;;
  guard (th_queued slot || negb (th_state slot =? SCDK_THREAD_READY)) SCDK_ERR_BUSY ;;
  let* queue := get_queue (th_owner_core slot) in
  guard (SCDK_MAX_THREADS <=? rq_count queue) SCDK_ERR_BUSY ;;
  (if Z.of_nat (length (rq_entries queue)) <=? rq_tail queue then ub else ret tt) ;;
  put_queue (th_owner_core slot)
    (mk_run_queue (<[Z.to_nat (rq_tail queue):=th_cap slot]> (rq_entries queue)) (rq_head queue)
       (wrap32 (rq_tail queue + 1) mod SCDK_MAX_THREADS) (wrap32 (rq_count queue + 1))) ;;
  modify (upd_thread i (with_queued true)).

(** [while (queue->count > 0)]: every iteration takes one entry out, so [count]
    iterations are enough. *)
Fixpoint dequeue_loop (fuel : nat) (owner_core : Z) : K (option nat) :=
  match fuel with
  | O => ret None
  | S fuel =>
      let* queue := get_queue owner_core in
      if rq_count queue =? 0 then ret None
      else
        let* cap := query (λ _, deref (rq_entries queue !! Z.to_nat (rq_head queue))) in
        put_queue owner_core
          (mk_run_queue (rq_entries queue) (wrap32 (rq_head queue + 1) mod SCDK_MAX_THREADS)
             (rq_tail queue) (rq_count queue - 1)) ;;
        let* found := attempt (query (λ k, thread_slot_for_cap k cap)) in
        match found with
        | Ok i =>
            modify (upd_thread i (with_queued false)) ;;
            let* slot := get_thread i in
            if th_state slot =? SCDK_THREAD_READY then ret (Some i)
            else dequeue_loop fuel owner_core
        | _ => dequeue_loop fuel owner_core
        end
  end.

Definition dequeue_thread (owner_core : Z) : K (option nat) :=
  let* queue := get_queue owner_core in
  dequeue_loop (Z.to_nat (rq_count queue)) owner_core.

(** ** Contexts *)
Definition make_kernel_thread_context (i : nat) : K unit :=
  modify (upd_thread i (λ t,
    let stack_top := wrap64 (th_kernel_stack t + SCDK_KERNEL_STACK_SIZE) in
    let sp := wrap64 (Z.land stack_top (not64 15) - 16) in
    mk_thread_slot (mk_context 0 0 0 0 0 0 sp) (th_object_id t) (th_cap t) (th_task_cap t)
      (th_task_id t) (th_entry t) (th_arg t) (th_kernel_stack t) stack_top (th_owner_core t)
      (th_state t) (th_queued t))).

(** [scdk_context_switch] stores [regs] in the old context and loads the new
    one. *)
Definition switch_to_thread (regs : scdk_thread_context) (next : option nat)
  : K (option scdk_thread_context) :=
  let* old := gets (λ k, current_thread_slot (k_sched k)) in
  match next, old with
  | Some n, Some o =>
      if bool_decide (n = o) then ret None
      else
        modify (upd_thread n (with_state SCDK_THREAD_RUNNING)) ;;
        let* slot := get_thread n in
        modify (on_sched (with_current (Some n) (th_task_cap slot) (th_cap slot))) ;;
        modify (upd_thread o (with_context regs)) ;;
        ret (Some (th_context slot))
  | _, _ => ret None
  end.

(** ** Interface *)
Definition fill_task (i : nat) (owner_core address_space object_id : Z) (k : kernel) : kernel :=
  upd_task i (λ _, mk_task_slot object_id 0 owner_core address_space 0) k.
Definition clear_task (i : nat) (k : kernel) : kernel :=
  upd_task i (λ t, mk_task_slot 0 (tk_cap t) (tk_owner_core t) (tk_address_space t) (tk_main_thread t)) k.
Definition set_task_cap (i : nat) (c : Z) (k : kernel) : kernel :=
  upd_task i (λ t, mk_task_slot (tk_object_id t) c (tk_owner_core t) (tk_address_space t) (tk_main_thread t)) k.
Definition set_main_thread (i : nat) (c : Z) (k : kernel) : kernel :=
  upd_task i (λ t, mk_task_slot (tk_object_id t) (tk_cap t) (tk_owner_core t) (tk_address_space t) c) k.

Definition task_rights : Z := Z.lor (Z.lor SCDK_RIGHT_READ SCDK_RIGHT_WRITE) SCDK_RIGHT_BIND.
Definition thread_rights : Z := Z.lor (Z.lor SCDK_RIGHT_READ SCDK_RIGHT_WRITE) SCDK_RIGHT_EXEC.

Definition scdk_task_create (owner_core address_space : Z) : K Z :=
  guard (SCDK_MAX_CORES <=? owner_core) SCDK_ERR_INVAL ;;
  let* slot := gets (λ k, find_slot (λ t, tk_object_id t =? 0) (task_table (k_sched k))) in
  match slot with
  | None => fail SCDK_ERR_NOMEM
  | Some i =>
      let* object_id := scdk_object_create SCDK_OBJ_TASK owner_core 0 (P_task i) in
      modify (fill_task i owner_core address_space object_id) ;;
      let* cap := on_error (scdk_cap_create object_id task_rights) (clear_task i) in
      modify (set_task_cap i cap) ;;
      ret cap
  end.

(** The slot's context is left as it was when there is no entry function. *)
Definition fill_thread (i : nat) (task task_id entry arg owner_core object_id : Z) (k : kernel) : kernel :=
  upd_thread i (λ t, mk_thread_slot (th_context t) object_id 0 task task_id entry arg 0 0 owner_core
                       SCDK_THREAD_NEW false) k.

Definition scdk_thread_create (task entry arg : Z) : K Z :=
  let* task_entry := query (λ k, scdk_cap_check k task SCDK_RIGHT_BIND SCDK_OBJ_TASK) in
  let* ti := query (λ k, task_slot_for_cap k task) in
  let* slot := gets (λ k, find_slot (λ t, th_object_id t =? 0) (thread_table (k_sched k))) in
  match slot with
  | None => fail SCDK_ERR_NOMEM
  | Some i =>
      let* task_slot := get_task ti in
      let* object_id := scdk_object_create SCDK_OBJ_THREAD (tk_owner_core task_slot) 0 (P_thread i) in
      modify (fill_thread i task (ce_object_id task_entry) entry arg (tk_owner_core task_slot) object_id) ;;
      (if negb (entry =? 0) then
         let* stack := scdk_kalloc SCDK_KERNEL_STACK_SIZE in
         modify (upd_thread i (with_stack stack)) ;;
         (if stack =? 0 then
            modify (upd_thread i (with_thread_object 0)) ;;
            fail SCDK_ERR_NOMEM
          else make_kernel_thread_context i)
       else ret tt) ;;
      let* cap :=
        recover (scdk_cap_create object_id thread_rights)
          (let* t := get_thread i in
           scdk_kfree (th_kernel_stack t) ;;
           modify (upd_thread i (with_thread_object 0))) in
      modify (upd_thread i (with_thread_cap cap)) ;;
      let* task_slot := get_task ti in
      (if tk_main_thread task_slot =? 0 then modify (set_main_thread ti cap) else ret tt) ;;
      ret cap
  end.

Definition scdk_thread_start (thread : Z) : K unit :=
  query (λ k, scdk_cap_check k thread SCDK_RIGHT_EXEC SCDK_OBJ_THREAD) ;;
  let* i := query (λ k, thread_slot_for_cap k thread) in
  let* slot := get_thread i in
  guard ((th_entry slot =? 0) || (th_kernel_stack slot =? 0)) SCDK_ERR_INVAL ;;
  guard (negb (th_state slot =? SCDK_THREAD_NEW)) SCDK_ERR_BUSY ;;
  modify (upd_thread i (with_state SCDK_THREAD_READY)) ;;
  on_error (enqueue_thread i) (upd_thread i (with_state SCDK_THREAD_NEW)).

Definition scdk_scheduler_init : K (Z * Z) :=
  let* ready := gets (λ k, scheduler_initialized (k_sched k)) in
  guard ready SCDK_ERR_BUSY ;;
  let* boot_task := scdk_task_create SCDK_BOOT_CORE 0 in
  let* boot_thread := scdk_thread_create boot_task 0 0 in
  let* i := query (λ k, thread_slot_for_cap k boot_thread) in
  modify (upd_thread i (with_state SCDK_THREAD_RUNNING)) ;;
  modify (on_sched (with_current (Some i) boot_task boot_thread)) ;;
  modify (on_sched with_sched_ready) ;;
  ret (boot_task, boot_thread).

Definition scdk_scheduler_current_task (k : kernel) : result Z :=
  let? _ := rguard (negb (scheduler_initialized (k_sched k)) || (current_task (k_sched k) =? 0))
              SCDK_ERR_NOTSUP in
  Ok (current_task (k_sched k)).

Definition scdk_scheduler_current_thread (k : kernel) : result Z :=
  let? _ := rguard (negb (scheduler_initialized (k_sched k)) || (current_thread (k_sched k) =? 0))
              SCDK_ERR_NOTSUP in
  Ok (current_thread (k_sched k)).

Definition scdk_task_main_thread (k : kernel) (task : Z) : result Z :=
  let? i := task_slot_for_cap k task in
  let? slot := deref (task_table (k_sched k) !! i) in
  let? _ := rguard (tk_main_thread slot =? 0) SCDK_ERR_NOENT in
  Ok (tk_main_thread slot).

Definition scdk_thread_task_id (k : kernel) (thread : Z) : result Z :=
  let? i := thread_slot_for_cap k thread in
  let? slot := deref (thread_table (k_sched k) !! i) in
  Ok (th_task_id slot).

Definition scdk_thread_state (k : kernel) (thread : Z) : result Z :=
  let? i := thread_slot_for_cap k thread in
  let? slot := deref (thread_table (k_sched k) !! i) in
  Ok (th_state slot).

Definition scdk_yield (regs : scdk_thread_context) : K (option scdk_thread_context) :=
  let* ready := gets (λ k, scheduler_initialized (k_sched k)) in
  let* current := gets (λ k, current_thread_slot (k_sched k)) in
  match current with
  | None => ret None
  | Some old =>
      if negb ready then ret None
      else
        let* slot := get_thread old in
        let* next := dequeue_thread (th_owner_core slot) in
        let* driver := gets (λ k, scheduler_driver_slot (k_sched k)) in
        let* next :=
          match next, driver with
          | None, Some d =>
              if bool_decide (old = d) then ret None
              else
                let* ds := get_thread d in
                ret (if th_state ds =? SCDK_THREAD_BLOCKED then Some d else None)
          | _, _ => ret next
          end in
        match next with
        | None => ret None
        | Some _ =>
            let* slot := get_thread old in
            if th_state slot =? SCDK_THREAD_RUNNING then
              if bool_decide (driver = Some old) then
                modify (upd_thread old (with_state SCDK_THREAD_BLOCKED)) ;;
                switch_to_thread regs next
              else
                modify (upd_thread old (with_state SCDK_THREAD_READY)) ;;
                let* status := attempt (enqueue_thread old) in
                match status with
                | Ok _ => switch_to_thread regs next
                | _ =>
                    modify (upd_thread old (with_state SCDK_THREAD_RUNNING)) ;;
                    ret None
                end
            else switch_to_thread regs next
        end
  end.

Definition scdk_scheduler_yield_stub (regs : scdk_thread_context) : K (option scdk_thread_context) :=
  let* bad := gets (λ k, negb (scheduler_initialized (k_sched k)) || (current_task (k_sched k) =? 0)
                         || (current_thread (k_sched k) =? 0)) in
  guard bad SCDK_ERR_NOTSUP ;;
  scdk_yield regs.

(** ** Control flow across switches

    The functions that go on after a switch, cut at the calls of [scdk_yield].
    The end of [thread_trampoline]: the entry function has returned; the call
    panics when [scdk_yield] returns. *)
Definition thread_trampoline_end (regs : scdk_thread_context) : K (option scdk_thread_context) :=
  let* current := gets (λ k, current_thread_slot (k_sched k)) in
  match current with
  | None => ub
  | Some i =>
      modify (upd_thread i (with_state SCDK_THREAD_DEAD)) ;;
      scdk_yield regs
  end.

(** [scdk_scheduler_run]: the entry, one turn of the loop ([None] when the loop
    condition fails), and the part behind the loop. *)
Definition scheduler_run_enter : K bool :=
  let* ready := gets (λ k, scheduler_initialized (k_sched k)) in
  let* current := gets (λ k, current_thread_slot (k_sched k)) in
  match current with
  | None => ret false
  | Some i =>
      if negb ready then ret false
      else modify (on_sched (with_driver (Some i))) ;; ret true
  end.

Definition scheduler_run_turn (regs : scdk_thread_context) : K (option (option scdk_thread_context)) :=
  let* driver := gets (λ k, scheduler_driver_slot (k_sched k)) in
  match driver with
  | None => ub
  | Some d =>
      let* slot := get_thread d in
      let* empty := query (λ k, run_queue_empty k (th_owner_core slot)) in
      if empty then ret None
      else let* loaded := scdk_yield regs in ret (Some loaded)
  end.

Definition scheduler_run_leave : K unit :=
  let* driver := gets (λ k, scheduler_driver_slot (k_sched k)) in
  match driver with
  | None => ub
  | Some d =>
      let* slot := get_thread d in
      (if th_state slot =? SCDK_THREAD_BLOCKED
       then modify (upd_thread d (with_state SCDK_THREAD_RUNNING)) else ret tt) ;;
      modify (on_sched (with_driver None))
  end.

(** ** The circular buffer as a list *)
Record queue_holds (q : scdk_run_queue) (l : list Z) : Prop := {
  qh_length : length (rq_entries q) = Z.to_nat SCDK_MAX_THREADS;
  qh_head : 0 <= rq_head q < SCDK_MAX_THREADS;
  qh_count : rq_count q = Z.of_nat (length l);
  qh_max : Z.of_nat (length l) <= SCDK_MAX_THREADS;
  qh_tail : rq_tail q = (rq_head q + rq_count q) mod SCDK_MAX_THREADS;
  qh_entry : ∀ i c, l !! i = Some c →
    rq_entries q !! Z.to_nat ((rq_head q + Z.of_nat i) mod SCDK_MAX_THREADS) = Some c
}.

Section queues.
Implicit Types (q : scdk_run_queue) (l : list Z).

Lemma queue_push q l c :
  queue_holds q l → Z.of_nat (length l) < SCDK_MAX_THREADS →
  queue_holds
    (mk_run_queue (<[Z.to_nat (rq_tail q):=c]> (rq_entries q)) (rq_head q)
       (wrap32 (rq_tail q + 1) mod SCDK_MAX_THREADS) (wrap32 (rq_count q + 1))) (l ++ [c]).
Proof.
  intros [H1 H2 H3 H4 H5 H6] Hlt. unfold SCDK_MAX_THREADS, wrap32, two32 in *.
  assert (0 <= rq_tail q < 128) as Ht by (rewrite H5; apply Z.mod_pos_bound; lia).
  split; simpl; unfold SCDK_MAX_THREADS; rewrite ?length_app, ?length_insert; simpl.
  - done.
  - done.
  - rewrite Z.mod_small by lia. lia.
  - lia.
  - rewrite !(Z.mod_small (_ + 1) 4294967296) by lia. rewrite H5.
    rewrite Z.add_mod_idemp_l by done. f_equal. lia.
  - intros i x [Hi|[Hge Hi]]%lookup_app_Some.
    + pose proof (lookup_lt_Some _ _ _ Hi) as Hl. rewrite list_lookup_insert_ne; [by apply H6|].
      intros E. apply Z2Nat.inj in E; [|lia|apply Z.mod_pos_bound; lia].
      rewrite H5, H3 in E. Z.to_euclidean_division_equations; lia.
    + apply list_lookup_singleton_Some in Hi as [Hi <-].
      replace (Z.of_nat i) with (rq_count q) by lia. rewrite <-H5. apply list_lookup_insert_eq. lia.
Qed.

Lemma queue_pop q l c :
  queue_holds q (c :: l) →
  rq_entries q !! Z.to_nat (rq_head q) = Some c ∧ rq_count q ≠ 0 ∧
  queue_holds
    (mk_run_queue (rq_entries q) (wrap32 (rq_head q + 1) mod SCDK_MAX_THREADS) (rq_tail q)
       (rq_count q - 1)) l.
Proof.
  intros [H1 H2 H3 H4 H5 H6]. unfold SCDK_MAX_THREADS, wrap32, two32 in *. cbn [length] in *.
  split_and!.
  - specialize (H6 0%nat c eq_refl). change (Z.of_nat 0) with 0 in H6.
    by rewrite Z.add_0_r, Z.mod_small in H6 by lia.
  - lia.
  - split; simpl; unfold SCDK_MAX_THREADS; rewrite ?(Z.mod_small (rq_head q + 1) 4294967296) by lia.
    + done.
    + apply Z.mod_pos_bound. lia.
    + lia.
    + lia.
    + rewrite H5, Z.add_mod_idemp_l by done. f_equal. lia.
    + intros i x Hi. rewrite <-(H6 (S i) x Hi), Z.add_mod_idemp_l by done. do 2 f_equal. f_equal. lia.
Qed.
End queues.

(** ** What the scheduler never changes of a thread *)
Definition th_static (t : scdk_thread_slot) : scdk_thread_slot :=
  with_context null_context (with_state 0 (with_queued false t)).

Definition statics (k : kernel) : list scdk_thread_slot := th_static <$> thread_table (k_sched k).

(** [k'] differs from [k] in the run queues and in the states, flags and saved
    registers of the threads that [P] holds of. *)
Record touched (k k' : kernel) (P : nat → Prop) : Prop := {
  tc_frame : k' = set_sched (k_sched k') k;
  tc_tasks : task_table (k_sched k') = task_table (k_sched k);
  tc_statics : statics k' = statics k;
  tc_others : ∀ j, ¬ P j → thread_table (k_sched k') !! j = thread_table (k_sched k) !! j
}.

(** Thread [t] in state [st], reachable through its own capability. *)
Definition valid_thread (k : kernel) (t : nat) (st : Z) (queued : bool) : Prop :=
  ∃ slot, thread_table (k_sched k) !! t = Some slot ∧ th_state slot = st ∧ th_queued slot = queued ∧
    th_owner_core slot = 0 ∧ u64 (th_cap slot) ∧ thread_slot_for_cap k (th_cap slot) = Ok t.

Definition thread_cap (k : kernel) (t : nat) : Z :=
  match thread_table (k_sched k) !! t with Some slot => th_cap slot | None => 0 end.

Section threads.
Implicit Types (k : kernel) (P Q : nat → Prop) (t : nat).

Lemma statics_lookup k k' t slot :
  statics k' = statics k → thread_table (k_sched k) !! t = Some slot →
  ∃ slot', thread_table (k_sched k') !! t = Some slot' ∧ th_static slot' = th_static slot.
Proof.
  intros Hs Ht. assert (statics k' !! t = Some (th_static slot)) as H.
  { rewrite Hs. unfold statics. by rewrite list_lookup_fmap, Ht. }
  unfold statics in H. rewrite list_lookup_fmap in H.
  destruct (thread_table (k_sched k') !! t) as [slot'|]; [|done]. cbn [fmap option_fmap option_map] in H.
  apply (inj Some) in H. by exists slot'.
Qed.

Lemma static_fields s s' : th_static s = th_static s' →
  th_object_id s = th_object_id s' ∧ th_cap s = th_cap s' ∧ th_task_cap s = th_task_cap s' ∧
  th_owner_core s = th_owner_core s' ∧ th_entry s = th_entry s' ∧ th_kernel_stack s = th_kernel_stack s'.
Proof. destruct s, s'. unfold th_static. simpl. intros [=]. done. Qed.

Lemma statics_slot_for_cap k k' c :
  statics k' = statics k → k_objs k' = k_objs k → k_caps k' = k_caps k →
  thread_slot_for_cap k' c = thread_slot_for_cap k c.
Proof.
  intros Hs Ho Hc. unfold thread_slot_for_cap. rewrite (cap_check_tables k' k) by done.
  destruct (scdk_cap_check k c _ _) as [e| |]; [|done..]. cbn [rbind].
  rewrite (object_lookup_objs k' k) by done.
  destruct (scdk_object_lookup k _) as [o| |]; [|done..]. cbn [rbind].
  destruct (obj_payload o) as [| | | | | |i| | | | |]; try done.
  destruct (thread_table (k_sched k) !! i) as [slot|] eqn:Ht.
  - destruct (statics_lookup _ _ _ _ Hs Ht) as (slot' & -> & Hst). cbn [deref rbind].
    by destruct (static_fields _ _ Hst) as (-> & _).
  - destruct (thread_table (k_sched k') !! i) as [slot'|] eqn:Ht'; [|done].
    destruct (statics_lookup _ _ _ _ (eq_sym Hs) Ht') as (? & ? & _). congruence.
Qed.

Lemma touched_refl k P : touched k k P.
Proof. split; try done. by destruct k. Qed.

Lemma touched_trans k1 k2 k3 P Q :
  touched k1 k2 P → touched k2 k3 Q → touched k1 k3 (λ j, P j ∨ Q j).
Proof.
  intros [A1 A2 A3 A4] [B1 B2 B3 B4]. split.
  - rewrite B1 at 1. rewrite A1. done.
  - by rewrite B2.
  - by rewrite B3.
  - intros j Hj. rewrite B4, A4 by tauto. done.
Qed.

Lemma touched_weaken k k' P Q : touched k k' P → (∀ j, P j → Q j) → touched k k' Q.
Proof. intros [A1 A2 A3 A4] H. split; try done. intros j Hj. apply A4. auto. Qed.

Lemma touched_cap k k' P c : touched k k' P → thread_slot_for_cap k' c = thread_slot_for_cap k c.
Proof. intros [A1 A2 A3 A4]. apply statics_slot_for_cap; [done|by rewrite A1..]. Qed.

Lemma touched_length k k' P : touched k k' P →
  length (thread_table (k_sched k')) = length (thread_table (k_sched k)).
Proof.
  intros [A1 A2 A3 A4]. apply (f_equal length) in A3. unfold statics in A3. by rewrite !length_fmap in A3.
Qed.

Lemma touched_valid k k' P t st qd :
  touched k k' P → ¬ P t → valid_thread k t st qd → valid_thread k' t st qd.
Proof.
  intros Ht HP (slot & H1 & H2 & H3 & H4 & H4' & H5). exists slot.
  rewrite (tc_others _ _ _ Ht), (touched_cap _ _ _ _ Ht) by done. done.
Qed.

Lemma touched_thread_cap k k' P t : touched k k' P → thread_cap k' t = thread_cap k t.
Proof.
  intros Ht. unfold thread_cap. destruct (thread_table (k_sched k) !! t) as [slot|] eqn:E.
  - destruct (statics_lookup _ _ _ _ (tc_statics _ _ _ Ht) E) as (slot' & -> & Hs). by apply static_fields.
  - apply lookup_ge_None in E. rewrite <-(touched_length _ _ _ Ht) in E. by apply lookup_ge_None in E as ->.
Qed.

(** In-place updates of states, flags and contexts. *)
Lemma upd_thread_touched k t f :
  (∀ s, th_static (f s) = th_static s) → touched k (upd_thread t f k) (λ j, j = t).
Proof.
  intros Hf. split; simpl; [by destruct k|done| |].
  - unfold statics. simpl. apply list_eq. intros j. rewrite !list_lookup_fmap.
    destruct (decide (j = t)) as [->|].
    + rewrite list_lookup_alter_eq. destruct (thread_table (k_sched k) !! t); simpl; [|done]. by rewrite Hf.
    + by rewrite list_lookup_alter_ne.
  - intros j Hj. by rewrite list_lookup_alter_ne.
Qed.

Lemma upd_thread_lookup k t f slot :
  thread_table (k_sched k) !! t = Some slot →
  thread_table (k_sched (upd_thread t f k)) !! t = Some (f slot).
Proof. intros H. simpl. by rewrite list_lookup_alter_eq, H. Qed.

(** A thread after an update of its state or flag. *)
Lemma upd_thread_valid k t f st qd st' qd' :
  (∀ s, th_static (f s) = th_static s) →
  (∀ s, th_state s = st → th_queued s = qd → th_state (f s) = st' ∧ th_queued (f s) = qd') →
  valid_thread k t st qd → valid_thread (upd_thread t f k) t st' qd'.
Proof.
  intros Hf Hst (slot & H1 & H2 & H3 & H4 & H4' & H5). exists (f slot).
  destruct (Hst slot H2 H3) as [E1 E2]. destruct (static_fields _ _ (Hf slot)) as (_ & F1 & _ & F2 & _).
  split_and!; [by apply upd_thread_lookup|done|done|by rewrite F2|by rewrite F1|]. rewrite F1.
  by rewrite (touched_cap _ _ _ _ (upd_thread_touched k t f Hf)).
Qed.

Lemma valid_unique k t st st' qd qd' : valid_thread k t st qd → valid_thread k t st' qd' → st = st' ∧ qd = qd'.
Proof. intros (s & H1 & <- & <- & _) (s' & H1' & <- & <- & _). rewrite H1 in H1'. by injection H1' as <-. Qed.

Lemma valid_get k t st qd : valid_thread k t st qd →
  ∃ slot, get_thread t k = (Ok slot, k) ∧ th_state slot = st ∧ th_queued slot = qd ∧
    th_owner_core slot = 0 ∧ th_cap slot = thread_cap k t ∧
    thread_table (k_sched k) !! t = Some slot.
Proof.
  intros (slot & H1 & H2 & H3 & H4 & _). exists slot. unfold get_thread, query, thread_cap. by rewrite H1.
Qed.
End threads.

(** ** The run queue as a list of threads *)
Record queue_rel (k : kernel) (l : list nat) : Prop := {
  qr_queue : ∃ q, run_queues (k_sched k) !! 0%nat = Some q ∧ queue_holds q (thread_cap k <$> l);
  qr_nodup : NoDup l;
  qr_valid : ∀ t, t ∈ l → valid_thread k t SCDK_THREAD_READY true;
  qr_length : length (thread_table (k_sched k)) = Z.to_nat SCDK_MAX_THREADS
}.

Section run_queue.
Implicit Types (k : kernel) (l : list nat) (t : nat).

Lemma put_queue_touched k q : touched k (put_queue 0 q k).2 (λ _, False).
Proof. split; simpl; [by destruct k|done|done|done]. Qed.

Lemma caps_same k k' P l : touched k k' P → thread_cap k' <$> l = thread_cap k <$> l.
Proof. intros Ht. apply list_fmap_ext. intros i t _. by eapply touched_thread_cap. Qed.

(** Threads that are not in the queue do not matter to it. *)
Lemma queue_rel_touched k k' P l :
  queue_rel k l → touched k k' P → (∀ t, P t → t ∉ l) →
  run_queues (k_sched k') !! 0%nat = run_queues (k_sched k) !! 0%nat → queue_rel k' l.
Proof.
  intros [(q & Hq & Hh) H2 H3 H4] Ht HP Hr. split.
  - exists q. rewrite Hr, (caps_same _ _ _ _ Ht). done.
  - done.
  - intros t Hl. apply (touched_valid _ _ _ _ _ _ Ht); [|by apply H3]. intros HPt. by apply (HP t).
  - by rewrite (touched_length _ _ _ Ht).
Qed.

Lemma get_queue_run k l :
  queue_rel k l → ∃ q, get_queue 0 k = (Ok q, k) ∧ queue_holds q (thread_cap k <$> l).
Proof.
  intros [(q & Hq & Hh) _ _ _]. exists q. split; [|done]. unfold get_queue, query.
  change (Z.to_nat 0) with 0%nat. by rewrite Hq.
Qed.

Lemma dequeue_empty k : queue_rel k [] → dequeue_thread 0 k = (Ok None, k).
Proof.
  intros Hr. destruct (get_queue_run _ _ Hr) as (q & Hq & Hh). unfold dequeue_thread.
  rewrite (bind_Ok _ _ _ _ _ Hq). by rewrite (qh_count _ _ Hh).
Qed.

Lemma dequeue_first k t l :
  queue_rel k (t :: l) →
  ∃ k', dequeue_thread 0 k = (Ok (Some t), k') ∧ touched k k' (λ j, j = t) ∧
    queue_rel k' l ∧ valid_thread k' t SCDK_THREAD_READY false ∧
    (∀ j, th_context <$> thread_table (k_sched k') !! j = th_context <$> thread_table (k_sched k) !! j) ∧
    k_sched k' = with_threads (thread_table (k_sched k')) (with_queues (run_queues (k_sched k')) (k_sched k)).
Proof.
  intros Hr. destruct (get_queue_run _ _ Hr) as (q & Hq & Hh). cbn [fmap list_fmap] in Hh.
  destruct (queue_pop _ _ _ Hh) as (Hent & Hcnt & Hpop). unfold dequeue_thread.
  rewrite (bind_Ok _ _ _ _ _ Hq), (qh_count _ _ Hh), Nat2Z.id. cbn [length].
  cbn [dequeue_loop]. rewrite (bind_Ok _ _ _ _ _ Hq). rewrite (proj2 (Z.eqb_neq _ _)) by done.
  unfold bind at 1, query at 1. rewrite Hent. cbn [deref]. unfold bind at 1. set (q' := mk_run_queue _ _ _ _).
  pose proof (put_queue_touched k q') as Ht1.
  assert (put_queue 0 q' k = (Ok tt, (put_queue 0 q' k).2)) as -> by done. set (k1 := (put_queue 0 q' k).2) in *.
  destruct (qr_valid _ _ Hr t) as (slot & S1 & S2 & S3 & S4 & S4' & S5); [left|].
  unfold bind at 1, attempt, query. rewrite (touched_cap _ _ _ _ Ht1).
  assert (thread_cap k t = th_cap slot) as -> by (unfold thread_cap; by rewrite S1). rewrite S5.
  unfold bind at 1, modify. set (k2 := upd_thread t (with_queued false) k1).
  pose proof (upd_thread_touched k1 t (with_queued false) (λ _, eq_refl)) as Ht2. fold k2 in Ht2.
  assert (touched k k2 (λ j, j = t)) as Ht.
  { eapply touched_weaken; [eapply touched_trans; [exact Ht1|exact Ht2]|]. intros j [[]|?]; done. }
  assert (valid_thread k2 t SCDK_THREAD_READY false) as Hv2.
  { apply (upd_thread_valid _ _ _ SCDK_THREAD_READY true); [done|done|].
    apply (touched_valid _ _ _ _ _ _ Ht1); [tauto|]. by exists slot. }
  destruct (valid_get _ _ _ _ Hv2) as (slot2 & Hg & G1 & _). exists k2. split_and!; try done.
  - by rewrite (bind_Ok _ _ _ _ _ Hg), G1.
  - destruct Hr as [(q0 & Hq0 & _) Hnd Hval Hlen]. apply NoDup_cons in Hnd as [Hni Hnd].
    split; [|done| |by rewrite (touched_length _ _ _ Ht)].
    + exists q'. split; [by apply (list_lookup_insert_eq _ 0%nat), lookup_lt_is_Some; eexists|].
      by rewrite (caps_same _ _ _ _ Ht).
    + intros j Hj. apply (touched_valid _ _ _ _ _ _ Ht); [by intros ->|]. apply Hval. by right.
  - intros j. unfold k2, k1. simpl. destruct (decide (j = t)) as [->|]; [|by rewrite list_lookup_alter_ne].
    rewrite list_lookup_alter_eq. by destruct (thread_table (k_sched k) !! t).
Qed.

(** There is always room for a thread that is not in the queue. *)
Lemma queue_room k l t :
  queue_rel k l → t ∉ l → is_Some (thread_table (k_sched k) !! t) →
  Z.of_nat (length l) < SCDK_MAX_THREADS.
Proof.
  intros [_ Hnd Hval Hlen] Hni [s Hs]. assert (S (length l) ≤ Z.to_nat SCDK_MAX_THREADS)%nat; [|unfold SCDK_MAX_THREADS in *; lia].
  rewrite <-Hlen, <-(length_seq (length (thread_table (k_sched k))) 0).
  change (S (length l)) with (length (t :: l)). apply submseteq_length, NoDup_submseteq; [by constructor|].
  intros j Hj. apply elem_of_seq. split; [lia|]. apply elem_of_cons in Hj as [->|Hj].
  - simpl. by eapply lookup_lt_Some.
  - destruct (Hval j Hj) as (s' & Hs' & _). simpl. by eapply lookup_lt_Some.
Qed.

Lemma enqueue_last k l t :
  queue_rel k l → t ∉ l → valid_thread k t SCDK_THREAD_READY false →
  ∃ k', enqueue_thread t k = (Ok tt, k') ∧ touched k k' (λ j, j = t) ∧
    queue_rel k' (l ++ [t]) ∧
    k_sched k' = with_threads (thread_table (k_sched k')) (with_queues (run_queues (k_sched k')) (k_sched k)).
Proof.
  intros Hr Hni Hv. destruct (valid_get _ _ _ _ Hv) as (slot & Hg & G1 & G2 & G3 & G4 & G5).
  destruct (get_queue_run _ _ Hr) as (q & Hq & Hh).
  assert (Z.of_nat (length l) < SCDK_MAX_THREADS) as Hroom by (eapply queue_room; eauto).
  assert (Z.of_nat (length (thread_cap k <$> l)) < SCDK_MAX_THREADS) as Hroom' by (by rewrite length_fmap).
  pose proof (queue_push _ _ (thread_cap k t) Hh Hroom') as Hpush.
  unfold enqueue_thread. rewrite (bind_Ok _ _ _ _ _ Hg), G1, G2, G3, G4.
  rewrite bind_guard by done. rewrite bind_guard by done. rewrite (bind_Ok _ _ _ _ _ Hq).
  rewrite bind_guard by (rewrite (qh_count _ _ Hh); by apply Z.leb_gt). rewrite (proj2 (Z.leb_gt _ _)).
  2: { rewrite (qh_length _ _ Hh), (qh_tail _ _ Hh), Z2Nat.id by done. by apply Z.mod_pos_bound. }
  rewrite bind_ret. unfold bind at 1. set (q' := mk_run_queue _ _ _ _) in *.
  pose proof (put_queue_touched k q') as Ht1.
  assert (put_queue 0 q' k = (Ok tt, (put_queue 0 q' k).2)) as -> by done. set (k1 := (put_queue 0 q' k).2) in *.
  pose proof (upd_thread_touched k1 t (with_queued true) (λ _, eq_refl)) as Ht2.
  set (k2 := upd_thread t (with_queued true) k1) in *.
  assert (touched k k2 (λ j, j = t)) as Ht.
  { eapply touched_weaken; [eapply touched_trans; [exact Ht1|exact Ht2]|]. intros j [[]|?]; done. }
  exists k2. split_and!; try done. destruct Hr as [(q0 & Hq0 & _) Hnd Hval Hlen]. split.
  - exists q'. split; [by apply (list_lookup_insert_eq _ 0%nat), lookup_lt_is_Some; eexists|].
    by rewrite (caps_same _ _ _ _ Ht), fmap_app.
  - apply NoDup_app. split_and!; [done| |apply NoDup_singleton]. by intros j Hj ->%list_elem_of_singleton.
  - intros j [Hj|Hj]%elem_of_app.
    + apply (touched_valid _ _ _ _ _ _ Ht); [by intros ->|by apply Hval].
    + apply list_elem_of_singleton in Hj as ->. apply (upd_thread_valid _ _ _ SCDK_THREAD_READY false); [done|done|].
      apply (touched_valid _ _ _ _ _ _ Ht1); [tauto|done].
  - by rewrite (touched_length _ _ _ Ht).
Qed.
End run_queue.

(** ** Round robin

    The scheduler as its users see it: the thread that runs (it may have
    finished), the threads waiting their turn, and the thread that drives the
    scheduler from [scdk_scheduler_run], which only goes on when no other
    thread is waiting. *)
Record run_state := mk_run_state {
  rs_current : nat;
  rs_dead : bool;
  rs_queue : list nat;
  rs_driver : option nat
}.

(** Whether the running thread goes back to the queue. *)
Definition rr_requeue (s : run_state) : list nat :=
  if rs_dead s || bool_decide (rs_driver s = Some (rs_current s)) then [] else [rs_current s].

Definition rr_yield (s : run_state) : option run_state :=
  match rs_queue s, rs_driver s with
  | t :: q, _ => Some (mk_run_state t false (q ++ rr_requeue s) (rs_driver s))
  | [], Some d =>
      if bool_decide (rs_current s = d) then None
      else Some (mk_run_state d false (rr_requeue s) (rs_driver s))
  | [], None => None
  end.

Definition state_of (k : kernel) (t : nat) : option Z := th_state <$> thread_table (k_sched k) !! t.
Definition context_of (k : kernel) (t : nat) : option scdk_thread_context :=
  th_context <$> thread_table (k_sched k) !! t.
Definition current_state (s : run_state) : Z :=
  if rs_dead s then SCDK_THREAD_DEAD else SCDK_THREAD_RUNNING.

(** A thread that was created and not started is still reachable. *)
Definition new_threads (k : kernel) : Prop :=
  ∀ t slot, thread_table (k_sched k) !! t = Some slot → th_object_id slot ≠ 0 →
    th_state slot = SCDK_THREAD_NEW → valid_thread k t SCDK_THREAD_NEW false.

(** The concrete state implements the abstract one. *)
Record sched_rel (k : kernel) (s : run_state) : Prop := {
  sr_ready : scheduler_initialized (k_sched k) = true;
  sr_current : current_thread_slot (k_sched k) = Some (rs_current s);
  sr_driver : scheduler_driver_slot (k_sched k) = rs_driver s;
  sr_queue : queue_rel k (rs_queue s);
  sr_valid : valid_thread k (rs_current s) (current_state s) false;
  sr_blocked : ∀ d, rs_driver s = Some d → d ≠ rs_current s → valid_thread k d SCDK_THREAD_BLOCKED false;
  sr_running : ∀ t, state_of k t = Some SCDK_THREAD_RUNNING → t = rs_current s ∧ rs_dead s = false;
  sr_dead : rs_dead s = true → rs_driver s ≠ Some (rs_current s);
  sr_new : new_threads k
}.

(** Between the choice of the next thread and the switch to it. *)
Record parked (k : kernel) (o n : nat) (l : list nat) (d : option nat) : Prop := {
  pk_ready : scheduler_initialized (k_sched k) = true;
  pk_current : current_thread_slot (k_sched k) = Some o;
  pk_driver : scheduler_driver_slot (k_sched k) = d;
  pk_other : n ≠ o;
  pk_queue : queue_rel k l;
  pk_notin : n ∉ l;
  pk_next : ∃ st, valid_thread k n st false;
  pk_old : is_Some (thread_table (k_sched k) !! o);
  pk_blocked : ∀ d', d = Some d' → d' ≠ n → valid_thread k d' SCDK_THREAD_BLOCKED false;
  pk_idle : ∀ t, state_of k t ≠ Some SCDK_THREAD_RUNNING;
  pk_new : new_threads k
}.

Section round_robin.
Implicit Types (k : kernel) (s : run_state) (t : nat).

Lemma state_of_upd k t st j :
  state_of (upd_thread t (with_state st) k) j =
  if bool_decide (j = t) then (λ _, st) <$> state_of k t else state_of k j.
Proof.
  unfold state_of. simpl. case_bool_decide; subst.
  - rewrite list_lookup_alter_eq. by destruct (thread_table (k_sched k) !! t).
  - by rewrite list_lookup_alter_ne.
Qed.

Lemma valid_state k t st qd : valid_thread k t st qd → state_of k t = Some st.
Proof. intros (slot & H1 & <- & _). unfold state_of. by rewrite H1. Qed.

Lemma state_of_others k k' P j : touched k k' P → ¬ P j → state_of k' j = state_of k j.
Proof. intros H HP. unfold state_of. by rewrite (tc_others _ _ _ H) by done. Qed.

Lemma context_of_others k k' P j : touched k k' P → ¬ P j → context_of k' j = context_of k j.
Proof. intros H HP. unfold context_of. by rewrite (tc_others _ _ _ H) by done. Qed.

(** Threads that are touched must not be new afterwards. *)
Lemma new_threads_touched k k' P :
  touched k k' P → new_threads k →
  (∀ t, ¬ P t ∨ state_of k' t ≠ Some SCDK_THREAD_NEW ∨ valid_thread k' t SCDK_THREAD_NEW false) →
  new_threads k'.
Proof.
  intros T Hn HP t slot Ht Ho Hst. destruct (HP t) as [Hnp|[Hs|Hv]]; [| |done].
  - apply (touched_valid _ _ _ _ _ _ T Hnp). apply (Hn t slot); [|done|done].
    by rewrite <-(tc_others _ _ _ T) by done.
  - exfalso. apply Hs. unfold state_of. by rewrite Ht, <-Hst.
Qed.

(** Saved registers do not matter to the scheduler. *)
Lemma context_valid k o c t st qd :
  valid_thread k t st qd → valid_thread (upd_thread o (with_context c) k) t st qd.
Proof.
  intros H. destruct (decide (t = o)) as [->|].
  - by apply (upd_thread_valid k o _ st qd).
  - eapply touched_valid; [by apply (upd_thread_touched k o)|done|done].
Qed.

Lemma context_queue k o c l : queue_rel k l → queue_rel (upd_thread o (with_context c) k) l.
Proof.
  intros [(q & Hq & Hh) H2 H3 H4].
  assert (touched k (upd_thread o (with_context c) k) (λ j, j = o)) as Ht by (by apply upd_thread_touched).
  split; [|done| |].
  - exists q. rewrite (caps_same _ _ _ _ Ht). done.
  - intros t Hl. by apply context_valid, H3.
  - by rewrite (touched_length _ _ _ Ht).
Qed.

Lemma context_new k o c : new_threads k → new_threads (upd_thread o (with_context c) k).
Proof.
  intros Hn t slot. simpl. destruct (decide (t = o)) as [->|]; intros Ht Ho Hst; apply context_valid.
  - rewrite list_lookup_alter_eq in Ht. destruct (thread_table (k_sched k) !! o) as [s|] eqn:E; [|done].
    injection Ht as <-. by apply (Hn o s).
  - rewrite list_lookup_alter_ne in Ht by done. by apply (Hn t slot).
Qed.

Lemma with_current_touched k n a b : touched k (on_sched (with_current n a b) k) (λ _, False).
Proof. split; simpl; [by destruct k|done|done|done]. Qed.

(** The switch itself. *)
Lemma switch_refines k o n l d regs :
  parked k o n l d →
  ∃ k' c, switch_to_thread regs (Some n) k = (Ok (Some c), k') ∧ context_of k n = Some c ∧
    sched_rel k' (mk_run_state n false l d) ∧ touched k k' (λ j, j = n ∨ j = o) ∧
    context_of k' o = Some regs ∧ (∀ j, j ≠ o → context_of k' j = context_of k j).
Proof.
  intros [P1 P2 P3 P4 P5 P6 [st P7] P8 P9 P10 P11]. unfold switch_to_thread. rewrite bind_gets, P2.
  rewrite bool_decide_false by done. rewrite bind_modify. set (k1 := upd_thread n _ k).
  assert (touched k k1 (λ j, j = n)) as T1 by (by apply upd_thread_touched).
  assert (valid_thread k1 n SCDK_THREAD_RUNNING false) as V1 by (by apply (upd_thread_valid k n _ st false)).
  destruct (valid_get _ _ _ _ V1) as (slot & Hg & _ & _ & _ & _ & Hslot). rewrite (bind_Ok _ _ _ _ _ Hg).
  rewrite !bind_modify. set (k2 := on_sched _ k1). set (k3 := upd_thread o _ k2).
  pose proof (with_current_touched k1 (Some n) (th_task_cap slot) (th_cap slot)) as T2. fold k2 in T2.
  assert (touched k2 k3 (λ j, j = o)) as T3 by (by apply upd_thread_touched).
  assert (∀ t st qd, valid_thread k1 t st qd → valid_thread k3 t st qd) as HV.
  { intros t st' qd Hv. apply context_valid, (touched_valid _ _ _ _ _ _ T2); [tauto|done]. }
  assert (∀ j, context_of k1 j = context_of k j) as HC1.
  { intros j. unfold context_of, k1. simpl. destruct (decide (j = n)) as [->|]; [|by rewrite list_lookup_alter_ne].
    rewrite list_lookup_alter_eq. by destruct (thread_table (k_sched k) !! n). }
  assert (touched k k3 (λ j, j = n ∨ j = o)) as T.
  { eapply touched_weaken; [eapply touched_trans; [exact T1|eapply touched_trans; [exact T2|exact T3]]|].
    intros j [?|[[]|?]]; tauto. }
  exists k3, (th_context slot). split_and!; try done.
  - rewrite <-HC1. unfold context_of. by rewrite Hslot.
  - split; simpl; try done.
    + apply context_queue, (queue_rel_touched k1 k2 (λ _, False)); [|done|done|done].
      apply (queue_rel_touched k k1 (λ j, j = n)); [done|done|by intros ? ->|done].
    + apply HV. exact V1.
    + intros d' -> Hd. apply HV, (touched_valid _ _ _ _ _ _ T1); [done|by apply P9].
    + intros t Ht. split; [|done]. destruct (decide (t = n)) as [|Hne]; [done|exfalso].
      apply (P10 t). rewrite <-Ht. destruct (decide (t = o)) as [->|].
      * unfold state_of, k3, k2, k1. simpl. rewrite list_lookup_alter_eq, list_lookup_alter_ne by done.
        by destruct (thread_table (k_sched k) !! o).
      * symmetry. apply (state_of_others _ _ _ _ T). tauto.
    + apply context_new, (new_threads_touched k1 k2 (λ _, False)); [done| |intros t; left; tauto].
      apply (new_threads_touched k k1 (λ j, j = n)); [done|done|]. intros t.
      destruct (decide (t = n)) as [->|]; [right; left|by left]. rewrite (valid_state _ _ _ _ V1). done.
  - assert (is_Some (thread_table (k_sched k2) !! o)) as [x Hx].
    2: { unfold context_of, k3. by rewrite (upd_thread_lookup _ _ _ _ Hx). }
    apply lookup_lt_is_Some. rewrite (touched_length _ _ _ T2), (touched_length _ _ _ T1). by apply lookup_lt_is_Some.
  - intros j Hj. rewrite (context_of_others _ _ _ _ T3), <-HC1 by done. done.
Qed.

(** Parking the running thread: it is dead, or the driver, or goes to the back
    of the queue. *)
Lemma park_dead k o n l d :
  scheduler_initialized (k_sched k) = true → current_thread_slot (k_sched k) = Some o →
  scheduler_driver_slot (k_sched k) = d → n ≠ o → queue_rel k l → n ∉ l → (∃ st, valid_thread k n st false) →
  (∀ d', d = Some d' → d' ≠ n → d' ≠ o → valid_thread k d' SCDK_THREAD_BLOCKED false) →
  valid_thread k o SCDK_THREAD_DEAD false → d ≠ Some o →
  (∀ t, state_of k t = Some SCDK_THREAD_RUNNING → t = o) → new_threads k → parked k o n l d.
Proof.
  intros H1 H2 H3 H4 H5 H6 H7 H8 H9 H10 H11 H12. split; try done.
  - destruct H9 as (slot & Hs & _). by exists slot.
  - intros d' Hd Hn. apply H8; [done|done|]. congruence.
  - intros t Ht. pose proof (H11 t Ht) as ->. rewrite (valid_state _ _ _ _ H9) in Ht. done.
Qed.

Lemma park_state k o n l d st :
  scheduler_initialized (k_sched k) = true → current_thread_slot (k_sched k) = Some o →
  scheduler_driver_slot (k_sched k) = d → n ≠ o → queue_rel k l → n ∉ l → o ∉ l → (∃ st, valid_thread k n st false) →
  (∀ d', d = Some d' → d' ≠ n → d' ≠ o → valid_thread k d' SCDK_THREAD_BLOCKED false) →
  valid_thread k o SCDK_THREAD_RUNNING false →
  (∀ t, state_of k t = Some SCDK_THREAD_RUNNING → t = o) → new_threads k →
  st ≠ SCDK_THREAD_RUNNING → st ≠ SCDK_THREAD_NEW →
  (d = Some o → st = SCDK_THREAD_BLOCKED) →
  let k' := upd_thread o (with_state st) k in
  parked k' o n l d ∧ valid_thread k' o st false.
Proof.
  intros H1 H2 H3 H4 H5 H6 H6' [st7 H7] H8 H9 H11 Hnew Hst Hst' Hdr k'.
  assert (touched k k' (λ j, j = o)) as T by (by apply upd_thread_touched).
  assert (valid_thread k' o st false) as Ho by (by apply (upd_thread_valid k o _ SCDK_THREAD_RUNNING false)).
  split; [split; try done|done].
  - apply (queue_rel_touched k k' (λ j, j = o)); [done|done|by intros ? ->|done].
  - exists st7. by apply (touched_valid _ _ _ _ _ _ T).
  - destruct Ho as (slot & Hs & _). by exists slot.
  - intros d' -> Hn. destruct (decide (d' = o)) as [->|].
    + by rewrite Hdr in Ho by done.
    + apply (touched_valid _ _ _ _ _ _ T); [done|]. by apply H8.
  - intros t Ht. destruct (decide (t = o)) as [->|].
    + rewrite (valid_state _ _ _ _ Ho) in Ht. congruence.
    + rewrite (state_of_others _ _ _ _ T) in Ht by done. by apply H11 in Ht.
  - apply (new_threads_touched k k' (λ j, j = o)); [done|done|]. intros t.
    destruct (decide (t = o)) as [->|]; [right; left|by left]. rewrite (valid_state _ _ _ _ Ho). congruence.
Qed.

(** A running thread that goes to the back of the queue. *)
Lemma park_ready k o n l d :
  scheduler_initialized (k_sched k) = true → current_thread_slot (k_sched k) = Some o →
  scheduler_driver_slot (k_sched k) = d → n ≠ o → queue_rel k l → n ∉ l → o ∉ l → (∃ st, valid_thread k n st false) →
  (∀ d', d = Some d' → d' ≠ n → d' ≠ o → valid_thread k d' SCDK_THREAD_BLOCKED false) →
  valid_thread k o SCDK_THREAD_RUNNING false →
  (∀ t, state_of k t = Some SCDK_THREAD_RUNNING → t = o) → new_threads k → d ≠ Some o →
  ∃ k2, enqueue_thread o (upd_thread o (with_state SCDK_THREAD_READY) k) = (Ok tt, k2) ∧
    touched k k2 (λ j, j = o) ∧ (∀ j, j ≠ o → context_of k2 j = context_of k j) ∧ parked k2 o n (l ++ [o]) d.
Proof.
  intros H1 H2 H3 H4 H5 H6 H6' H7 H8 H9 H11 Hnew Hd.
  destruct (park_state k o n l d SCDK_THREAD_READY H1 H2 H3 H4 H5 H6 H6' H7 H8 H9 H11 Hnew) as [HP Ho]; [done..|].
  set (k1 := upd_thread o _ k) in *.
  assert (touched k k1 (λ j, j = o)) as T1 by (by apply upd_thread_touched).
  destruct (enqueue_last k1 l o (pk_queue _ _ _ _ _ HP) H6' Ho) as (k2 & Hen & T2 & Hq2 & Hs2).
  exists k2. split; [done|]. split; [|split].
  - eapply touched_weaken; [eapply touched_trans; [exact T1|exact T2]|]. intros j Hj. cbv beta in Hj. tauto.
  - intros j Hj. by rewrite (context_of_others _ _ _ _ T2), (context_of_others _ _ _ _ T1).
  - destruct HP as [P1 P2 P3 P4 P5 P6 [st P7] P8 P9 P10 P11].
    assert (state_of k2 o = Some SCDK_THREAD_READY) as Hst.
    { destruct (qr_valid _ _ Hq2 o) as (x & X1 & X2 & _); [apply elem_of_app; right; left|].
      unfold state_of. rewrite X1. simpl. by rewrite X2. }
    split; try (rewrite Hs2; done); try done.
    + rewrite not_elem_of_app, list_elem_of_singleton. tauto.
    + exists st. by apply (touched_valid _ _ _ _ _ _ T2).
    + apply lookup_lt_is_Some. rewrite (touched_length _ _ _ T2). by apply lookup_lt_is_Some.
    + intros d' Hd' Hn. apply (touched_valid _ _ _ _ _ _ T2); [congruence|by apply P9].
    + intros t Ht. destruct (decide (t = o)) as [->|]; [rewrite Hst in Ht; discriminate Ht|].
      rewrite (state_of_others _ _ _ _ T2) in Ht by done. by apply P10 in Ht.
    + apply (new_threads_touched k1 k2 (λ j, j = o)); [done|done|]. intros t.
      destruct (decide (t = o)) as [->|]; [right; left|by left]. by rewrite Hst.
Qed.

(** The second half of [scdk_yield], once [n] has been chosen. *)
Lemma park_and_switch k o n l d (dead : bool) regs :
  let s := mk_run_state o dead l d in
  scheduler_initialized (k_sched k) = true → current_thread_slot (k_sched k) = Some o →
  scheduler_driver_slot (k_sched k) = d → n ≠ o → queue_rel k l → n ∉ l → o ∉ l →
  (∃ st, valid_thread k n st false) →
  (∀ d', d = Some d' → d' ≠ n → d' ≠ o → valid_thread k d' SCDK_THREAD_BLOCKED false) →
  valid_thread k o (current_state s) false → (dead = true → d ≠ Some o) →
  (∀ t, state_of k t = Some SCDK_THREAD_RUNNING → t = o) → new_threads k →
  ∃ k' c,
    (let* slot := get_thread o in
     if th_state slot =? SCDK_THREAD_RUNNING then
       if bool_decide (d = Some o) then
         modify (upd_thread o (with_state SCDK_THREAD_BLOCKED)) ;;
         switch_to_thread regs (Some n)
       else
         modify (upd_thread o (with_state SCDK_THREAD_READY)) ;;
         let* status := attempt (enqueue_thread o) in
         match status with
         | Ok _ => switch_to_thread regs (Some n)
         | _ => modify (upd_thread o (with_state SCDK_THREAD_RUNNING)) ;; ret None
         end
     else switch_to_thread regs (Some n)) k = (Ok (Some c), k') ∧ context_of k n = Some c ∧
    sched_rel k' (mk_run_state n false (l ++ rr_requeue s) d) ∧
    touched k k' (λ j, j = n ∨ j = o) ∧
    context_of k' o = Some regs ∧ (∀ j, j ≠ o → context_of k' j = context_of k j).
Proof.
  intros s H1 H2 H3 H4 H5 H6 H6' H7 H8 H9 Hdead H11 Hnew.
  destruct (valid_get _ _ _ _ H9) as (slot & Hg & G1 & _). rewrite (bind_Ok _ _ _ _ _ Hg), G1.
  unfold rr_requeue, current_state, s in *. cbn [rs_dead rs_driver rs_current] in *. destruct dead; cbn [orb].
  - change (SCDK_THREAD_DEAD =? SCDK_THREAD_RUNNING) with false. cbv iota. rewrite app_nil_r.
    apply switch_refines, park_dead; auto.
  - change (SCDK_THREAD_RUNNING =? SCDK_THREAD_RUNNING) with true. cbv iota.
    case_bool_decide as Hd; rewrite bind_modify.
    + rewrite app_nil_r.
      destruct (park_state k o n l d SCDK_THREAD_BLOCKED H1 H2 H3 H4 H5 H6 H6' H7 H8 H9 H11 Hnew) as [HP _]; [done..|].
      pose proof (upd_thread_touched k o (with_state SCDK_THREAD_BLOCKED) (λ _, eq_refl)) as T1.
      destruct (switch_refines _ _ _ _ _ regs HP) as (k' & c & A1 & A2 & A3 & A4 & A5 & A6).
      exists k', c. split_and!; try done.
      * by rewrite <-A2, (context_of_others _ _ _ _ T1).
      * eapply touched_weaken; [eapply touched_trans; [exact T1|exact A4]|]. intros j Hj. cbv beta in Hj. tauto.
      * intros j Hj. by rewrite A6, (context_of_others _ _ _ _ T1).
    + destruct (park_ready k o n l d H1 H2 H3 H4 H5 H6 H6' H7 H8 H9 H11 Hnew Hd) as (k2 & Hen & T & HC & HP2).
      destruct (switch_refines _ _ _ _ _ regs HP2) as (k' & c & A1 & A2 & A3 & A4 & A5 & A6).
      exists k', c. split_and!; try done.
      * unfold bind at 1, attempt. by rewrite Hen.
      * by rewrite <-A2, HC.
      * eapply touched_weaken; [eapply touched_trans; [exact T|exact A4]|]. intros j Hj. cbv beta in Hj. tauto.
      * intros j Hj. by rewrite A6, HC.
Qed.

(** [scdk_yield] implements [rr_yield]. *)
Lemma yield_refines k s regs :
  sched_rel k s →
  match rr_yield s with
  | None => scdk_yield regs k = (Ok None, k)
  | Some s' => ∃ k' c, scdk_yield regs k = (Ok (Some c), k') ∧ context_of k (rs_current s') = Some c ∧
      sched_rel k' s' ∧ touched k k' (λ j, j = rs_current s' ∨ j = rs_current s) ∧
      context_of k' (rs_current s) = Some regs ∧
      (∀ j, j ≠ rs_current s → context_of k' j = context_of k j)
  end.
Proof.
  intros [R1 R2 R3 R4 R5 R6 R7 R8 R9]. destruct s as [o dead q d]. cbn [rs_current rs_dead rs_queue rs_driver] in *.
  unfold scdk_yield. rewrite !bind_gets, R1, R2. cbn [negb].
  destruct (valid_get _ _ _ _ R5) as (slot & Hg & _ & _ & G3 & _).
  rewrite (bind_Ok _ _ _ _ _ Hg), G3. unfold rr_yield. cbn [rs_queue rs_driver rs_current].
  assert (o ∉ q) as Hoq.
  { intros Ho. destruct (valid_unique _ _ _ _ _ _ R5 (qr_valid _ _ R4 o Ho)) as [_ [=]]. }
  assert (∀ t, state_of k t = Some SCDK_THREAD_RUNNING → t = o) as Hrun by (intros t Ht; by apply R7 in Ht as [? _]).
  destruct q as [|t q].
  - rewrite (bind_Ok _ _ _ _ _ (dequeue_empty _ R4)), bind_gets, R3. destruct d as [d|]; [|done].
    case_bool_decide as Hod; [done|]. assert (d ≠ o) as Hdo by done.
    pose proof (R6 d eq_refl Hdo) as Hd. destruct (valid_get _ _ _ _ Hd) as (ds & Hgd & D1 & _).
    unfold bind at 1. rewrite (bind_Ok _ _ _ _ _ Hgd), D1. unfold ret at 1.
    change (SCDK_THREAD_BLOCKED =? SCDK_THREAD_BLOCKED) with true. cbv iota.
    apply (park_and_switch k o d [] (Some d) dead regs); try done; [by apply not_elem_of_nil|by eexists|].
    intros d' [= <-]. done.
  - destruct (dequeue_first _ _ _ R4) as (k1 & Hdq & T1 & Hq1 & Ht1 & HC & Hs1).
    rewrite (bind_Ok _ _ _ _ _ Hdq), bind_gets.
    assert (scheduler_driver_slot (k_sched k1) = d) as E3 by (by rewrite Hs1).
    apply not_elem_of_cons in Hoq as [Hot Hoq]. pose proof (qr_nodup _ _ R4) as Hnd.
    apply NoDup_cons in Hnd as [Htq _]. rewrite E3, bind_ret.
    assert (∀ j, j ≠ t → state_of k1 j = state_of k j) as Hst by (intros j Hj; by apply (state_of_others _ _ _ _ T1)).
    destruct (park_and_switch k1 o t q d dead regs) as (k' & c & A1 & A2 & A3 & A4 & A5 & A6); try done.
    + by rewrite Hs1.
    + by rewrite Hs1.
    + by eexists.
    + intros d' -> Hdt Hdo. apply (touched_valid _ _ _ _ _ _ T1); [done|by apply R6].
    + by apply (touched_valid _ _ _ _ _ _ T1).
    + intros j Hj. destruct (decide (j = t)) as [->|].
      * rewrite (valid_state _ _ _ _ Ht1) in Hj. done.
      * rewrite Hst in Hj by done. by apply Hrun.
    + apply (new_threads_touched k k1 (λ j, j = t)); [done|done|]. intros j.
      destruct (decide (j = t)) as [->|]; [right; left|by left]. by rewrite (valid_state _ _ _ _ Ht1).
    + change (∀ j, context_of k1 j = context_of k j) in HC. exists k', c. split_and!; try done.
      * by rewrite <-HC.
      * eapply touched_weaken; [eapply touched_trans; [exact T1|exact A4]|]. intros j Hj. cbv beta in Hj. tauto.
      * intros j Hj. by rewrite A6, HC.
Qed.
End round_robin.

(** ** Starting and ending threads *)
Section lifecycle.
Implicit Types (k : kernel) (s : run_state) (t : nat).

Lemma thread_slot_Ok k c t :
  thread_slot_for_cap k c = Ok t →
  ∃ slot, thread_table (k_sched k) !! t = Some slot ∧ th_object_id slot ≠ 0.
Proof.
  unfold thread_slot_for_cap. intros H. do 2 minv_step H. rename a into e, a0 into o.
  destruct (obj_payload o) as [| | | | | |i| | | | |]; try done. minv_step H. apply deref_inv in E1.
  destruct (negb _) eqn:Hid; [done|]. apply (inj Ok) in H as ->. bsplit. exists a. split; [done|].
  rewrite Hid. apply cap_check_Ok in E as (_ & E & _). unfold scdk_cap_lookup in E.
  do 3 minv_step E. apply (inj Ok) in E. subst a0. unfold validate_cap_slot in E2. do 6 minv_step E2.
  apply (inj Ok) in E2. subst. repeat match goal with H : rguard _ _ = Ok _ |- _ => apply rguard_inv in H end. bsplit. done.
Qed.

(** The state of one thread that is not in the queue changes. *)
Lemma upd_state_queue k l t st :
  queue_rel k l → t ∉ l → queue_rel (upd_thread t (with_state st) k) l.
Proof.
  intros Hq Hni. apply (queue_rel_touched k _ (λ j, j = t)); [done|by apply upd_thread_touched|by intros ? ->|done].
Qed.

Lemma start_refines k s c r k' :
  sched_rel k s → scdk_thread_start c k = (r, k') →
  (r ≠ Ok tt ∧ k' = k) ∨
  r = Ok tt ∧ ∃ t, thread_slot_for_cap k c = Ok t ∧ state_of k t = Some SCDK_THREAD_NEW ∧
    (∃ e, scdk_cap_check k c SCDK_RIGHT_EXEC SCDK_OBJ_THREAD = Ok e) ∧
    sched_rel k' (mk_run_state (rs_current s) (rs_dead s) (rs_queue s ++ [t]) (rs_driver s)).
Proof.
  intros HR Hrun. unfold scdk_thread_start, bind at 1, query at 1 in Hrun.
  destruct (scdk_cap_check k c _ _) as [e| |] eqn:Hc;
    [|by apply pair_equal_spec in Hrun as [<- <-]; left..].
  unfold bind at 1, query at 1 in Hrun. destruct (thread_slot_for_cap k c) as [t| |] eqn:Hs;
    [|by apply pair_equal_spec in Hrun as [<- <-]; left..].
  destruct (thread_slot_Ok _ _ _ Hs) as (slot & Ht & Hid).
  unfold bind at 1, get_thread at 1, query at 1 in Hrun. rewrite Ht in Hrun. cbn [deref] in Hrun.
  unfold bind at 1, guard at 1 in Hrun.
  destruct (_ || _); [by apply pair_equal_spec in Hrun as [<- <-]; left|]. unfold ret at 1 in Hrun.
  unfold bind at 1, guard at 1 in Hrun.
  destruct (negb _) eqn:Hst; [by apply pair_equal_spec in Hrun as [<- <-]; left|]. unfold ret at 1 in Hrun. bsplit.
  rewrite bind_modify in Hrun. set (k1 := upd_thread t _ k) in Hrun. right.
  destruct HR as [R1 R2 R3 R4 R5 R6 R7 R8 R9]. pose proof (R9 t slot Ht Hid Hst) as Hnew.
  assert (∀ st qd, valid_thread k t st qd → st = SCDK_THREAD_NEW ∧ qd = false) as Huniq.
  { intros st qd Hv. destruct (valid_unique _ _ _ _ _ _ Hv Hnew). done. }
  assert (t ∉ rs_queue s) as Htq by (intros Hin; by destruct (Huniq _ _ (qr_valid _ _ R4 t Hin))).
  assert (t ≠ rs_current s) as Htc.
  { intros ->. destruct (Huniq _ _ R5) as [E _]. unfold current_state in E. by destruct (rs_dead s). }
  assert (touched k k1 (λ j, j = t)) as T1 by (by apply upd_thread_touched).
  assert (valid_thread k1 t SCDK_THREAD_READY false) as V1 by (by apply (upd_thread_valid k t _ SCDK_THREAD_NEW false)).
  destruct (enqueue_last k1 (rs_queue s) t (upd_state_queue _ _ _ _ R4 Htq) Htq V1) as (k2 & Hen & T2 & Hq2 & Hs2).
  unfold on_error in Hrun. rewrite Hen in Hrun. apply pair_equal_spec in Hrun as [<- <-].
  assert (touched k k2 (λ j, j = t)) as T.
  { eapply touched_weaken; [eapply touched_trans; [exact T1|exact T2]|]. intros j Hj. cbv beta in Hj. tauto. }
  assert (valid_thread k2 t SCDK_THREAD_READY true) as V2 by (apply Hq2, elem_of_app; right; left).
  split; [done|]. exists t. split_and!; [done|unfold state_of; by rewrite Ht, <-Hst|by exists e|].
  split; cbn [rs_current rs_dead rs_queue rs_driver]; try (rewrite Hs2; done); try done.
  - by apply (touched_valid _ _ _ _ _ _ T).
  - intros d Hd Hne. apply (touched_valid _ _ _ _ _ _ T); [|by apply R6]. intros ->.
    by destruct (Huniq _ _ (R6 t Hd Htc)).
  - intros j Hj. destruct (decide (j = t)) as [->|].
    + by rewrite (valid_state _ _ _ _ V2) in Hj.
    + rewrite (state_of_others _ _ _ _ T) in Hj by done. by apply R7.
  - apply (new_threads_touched k k2 (λ j, j = t)); [done|done|]. intros j.
    destruct (decide (j = t)) as [->|]; [right; left|by left]. by rewrite (valid_state _ _ _ _ V2).
Qed.

(** A thread that ends. *)
Lemma die_refines k s :
  sched_rel k s → rs_dead s = false → rs_driver s ≠ Some (rs_current s) →
  sched_rel (upd_thread (rs_current s) (with_state SCDK_THREAD_DEAD) k)
    (mk_run_state (rs_current s) true (rs_queue s) (rs_driver s)).
Proof.
  intros [R1 R2 R3 R4 R5 R6 R7 R8 R9] Hdead Hdr. set (o := rs_current s) in *.
  assert (valid_thread k o SCDK_THREAD_RUNNING false) as Vo by (unfold current_state in R5; by rewrite Hdead in R5).
  set (k1 := upd_thread o _ k). assert (touched k k1 (λ j, j = o)) as T by (by apply upd_thread_touched).
  assert (valid_thread k1 o SCDK_THREAD_DEAD false) as V1 by (by apply (upd_thread_valid k o _ SCDK_THREAD_RUNNING false)).
  assert (o ∉ rs_queue s) as Hoq.
  { intros Ho. by destruct (valid_unique _ _ _ _ _ _ Vo (qr_valid _ _ R4 o Ho)) as [_ ?]. }
  split; try done.
  - by apply upd_state_queue.
  - intros d Hd Hne. apply (touched_valid _ _ _ _ _ _ T); [done|by apply R6].
  - intros t Ht. destruct (decide (t = o)) as [->|].
    + by rewrite (valid_state _ _ _ _ V1) in Ht.
    + rewrite (state_of_others _ _ _ _ T) in Ht by done. by apply R7 in Ht as [? _].
  - apply (new_threads_touched k k1 (λ j, j = o)); [done|done|]. intros t.
    destruct (decide (t = o)) as [->|]; [right; left|by left]. by rewrite (valid_state _ _ _ _ V1).
Qed.

(** Entering and leaving [scdk_scheduler_run]. *)
Lemma driver_refines k s d :
  sched_rel k s → (d = None ∨ d = Some (rs_current s) ∧ rs_dead s = false) →
  sched_rel (on_sched (with_driver d) k) (mk_run_state (rs_current s) (rs_dead s) (rs_queue s) d).
Proof.
  intros [R1 R2 R3 R4 R5 R6 R7 R8 R9] Hd.
  assert (touched k (on_sched (with_driver d) k) (λ _, False)) as T by (split; [by destruct k|done..]).
  split; cbn [rs_current rs_dead rs_queue rs_driver]; try done.
  - by apply (queue_rel_touched k _ (λ _, False)).
  - intros d' -> Hne. destruct Hd as [|[[= ->] _]]; done.
  - intros Hdd. destruct Hd as [->|[_ ?]]; [done|congruence].
Qed.
End lifecycle.

(** ** Traces *)

(** What the threads do with the scheduler, one after the other. *)
Inductive sched_op : Set :=
  | Op_yield (regs : scdk_thread_context)
  | Op_exit (regs : scdk_thread_context)
  | Op_start (thread : Z)
  | Op_run_enter
  | Op_run_turn (regs : scdk_thread_context)
  | Op_run_leave.

(** One operation of the code.  A thread that is inside [scdk_scheduler_run]
    does not return from its entry function, and only the driver runs the loop. *)
Inductive sched_step : kernel → sched_op → kernel → Prop :=
  | step_yield k regs c k' : scdk_yield regs k = (Ok c, k') → sched_step k (Op_yield regs) k'
  | step_exit k regs c k' :
      scheduler_driver_slot (k_sched k) ≠ current_thread_slot (k_sched k) →
      thread_trampoline_end regs k = (Ok (Some c), k') → sched_step k (Op_exit regs) k'
  | step_start k thread r k' : scdk_thread_start thread k = (r, k') → sched_step k (Op_start thread) k'
  | step_run_enter k k' : scheduler_run_enter k = (Ok true, k') → sched_step k Op_run_enter k'
  | step_run_turn k regs c k' :
      scheduler_driver_slot (k_sched k) = current_thread_slot (k_sched k) →
      scheduler_run_turn regs k = (Ok (Some c), k') → sched_step k (Op_run_turn regs) k'
  | step_run_leave k regs k' k'' :
      scheduler_driver_slot (k_sched k) = current_thread_slot (k_sched k) →
      scheduler_run_turn regs k = (Ok None, k') → scheduler_run_leave k' = (Ok tt, k'') →
      sched_step k Op_run_leave k''.

(** The same operation on the abstract state. *)
Inductive rr_step : run_state → sched_op → run_state → Prop :=
  | rr_yields s regs : rr_step s (Op_yield regs) (default s (rr_yield s))
  | rr_exits c q d regs s' :
      d ≠ Some c → rr_yield (mk_run_state c true q d) = Some s' →
      rr_step (mk_run_state c false q d) (Op_exit regs) s'
  | rr_starts s thread t :
      t ≠ rs_current s → t ∉ rs_queue s → rs_driver s ≠ Some t →
      rr_step s (Op_start thread) (mk_run_state (rs_current s) (rs_dead s) (rs_queue s ++ [t]) (rs_driver s))
  | rr_rejects s thread : rr_step s (Op_start thread) s
  | rr_enters c q d : rr_step (mk_run_state c false q d) Op_run_enter (mk_run_state c false q (Some c))
  | rr_turns c q regs : q ≠ [] →
      rr_step (mk_run_state c false q (Some c)) (Op_run_turn regs)
        (default (mk_run_state c false q (Some c)) (rr_yield (mk_run_state c false q (Some c))))
  | rr_leaves c : rr_step (mk_run_state c false [] (Some c)) Op_run_leave (mk_run_state c false [] None).

Inductive trace {S : Type} (step : S → sched_op → S → Prop) : S → list sched_op → S → Prop :=
  | trace_nil s : trace step s [] s
  | trace_cons s op s' ops s'' : step s op s' → trace step s' ops s'' → trace step s (op :: ops) s''.

Section traces.
Implicit Types (k : kernel) (s : run_state).

Lemma run_turn_cases k s regs r k' :
  sched_rel k s → rs_driver s = Some (rs_current s) → scheduler_run_turn regs k = (Ok r, k') →
  (rs_queue s ≠ [] ∧ ∃ y, r = Some y ∧ scdk_yield regs k = (Ok y, k')) ∨
  (rs_queue s = [] ∧ r = None ∧ k' = k).
Proof.
  intros HR Hd H. unfold scheduler_run_turn in H. rewrite bind_gets, (sr_driver _ _ HR), Hd in H.
  destruct (valid_get _ _ _ _ (sr_valid _ _ HR)) as (slot & Hg & _ & _ & G3 & _).
  rewrite (bind_Ok _ _ _ _ _ Hg), G3 in H. destruct (qr_queue _ _ (sr_queue _ _ HR)) as (q & Hq & Hh).
  rewrite (bind_query _ _ _ (rq_count q =? 0)) in H.
  2: { unfold run_queue_empty. change (Z.to_nat 0) with 0%nat. by rewrite Hq. }
  rewrite (qh_count _ _ Hh), length_fmap in H. destruct (rs_queue s) as [|t l].
  - right. change (Z.of_nat (length []) =? 0) with true in H. by apply pair_equal_spec in H as [[= <-] <-].
  - left. split; [done|]. rewrite (proj2 (Z.eqb_neq _ _)) in H by (simpl; lia).
    apply bind_inv_Ok in H as (y & k1 & H1 & H2). apply pair_equal_spec in H2 as [[= <-] <-]. eauto.
Qed.

(** The states of the threads an abstract state names. *)
Lemma rel_not_new k s t :
  sched_rel k s → state_of k t = Some SCDK_THREAD_NEW →
  t ≠ rs_current s ∧ (t ∉ rs_queue s) ∧ rs_driver s ≠ Some t.
Proof.
  intros HR Hst. assert (t ≠ rs_current s) as Hc.
  { intros ->. rewrite (valid_state _ _ _ _ (sr_valid _ _ HR)) in Hst. unfold current_state in Hst.
    by destruct (rs_dead s). }
  split_and!; [done| |].
  - intros Hin. by rewrite (valid_state _ _ _ _ (qr_valid _ _ (sr_queue _ _ HR) _ Hin)) in Hst.
  - intros Hd. by rewrite (valid_state _ _ _ _ (sr_blocked _ _ HR _ Hd Hc)) in Hst.
Qed.

Lemma step_refines k op k' s :
  sched_rel k s → rs_dead s = false → sched_step k op k' →
  ∃ s', rr_step s op s' ∧ sched_rel k' s' ∧ rs_dead s' = false.
Proof.
  intros HR Hlive Hstep. assert (∀ s1, rr_yield s = Some s1 → rs_dead s1 = false) as Hy.
  { unfold rr_yield. intros s1 H. repeat case_match; simplify_eq; done. }
  assert (∀ regs c k1, scdk_yield regs k = (Ok c, k1) →
    sched_rel k1 (default s (rr_yield s)) ∧ rs_dead (default s (rr_yield s)) = false) as Hyield.
  { intros regs c k1 H. pose proof (yield_refines k s regs HR) as Hr. destruct (rr_yield s) as [s1|]; simpl.
    - destruct Hr as (k2 & c2 & E & _ & Hrel & _). rewrite E in H. injection H as _ <-. auto.
    - rewrite Hr in H. injection H as _ <-. done. }
  destruct s as [c dead q d]. simpl in Hlive. subst dead.
  destruct Hstep as [k regs x k' H|k regs x k' Hd H|k thread r k' H|k k' H|k regs x k' Hd H|k regs k1 k' Hd H H'].
  - destruct (Hyield _ _ _ H). eexists. split; [constructor|done].
  - rewrite (sr_driver _ _ HR), (sr_current _ _ HR) in Hd. simpl in Hd.
    pose proof (die_refines _ _ HR eq_refl Hd) as HR'. unfold thread_trampoline_end in H.
    rewrite bind_gets, (sr_current _ _ HR), bind_modify in H. cbn [rs_current rs_queue rs_driver] in *.
    pose proof (yield_refines _ _ regs HR') as Hr.
    destruct (rr_yield (mk_run_state c true q d)) as [s1|] eqn:E.
    + destruct Hr as (k2 & c2 & E2 & _ & Hrel & _). rewrite E2 in H. injection H as _ <-.
      exists s1. split_and!; [by econstructor|done|]. unfold rr_yield in E. repeat case_match; simplify_eq; done.
    + rewrite Hr in H. discriminate.
  - destruct (start_refines _ _ _ _ _ HR H) as [[_ ->]|(_ & t & Hs & Hst & _ & Hrel)].
    + eexists. split; [apply rr_rejects|done].
    + destruct (rel_not_new _ _ _ HR Hst) as (N1 & N2 & N3).
      eexists. split; [by apply (rr_starts _ _ t)|done].
  - unfold scheduler_run_enter in H. rewrite !bind_gets, (sr_ready _ _ HR), (sr_current _ _ HR) in H.
    injection H as <-. eexists. split; [constructor|]. split; [|done].
    exact (driver_refines _ _ (Some c) HR (or_intror (conj eq_refl eq_refl))).
  - rewrite (sr_driver _ _ HR), (sr_current _ _ HR) in Hd. simpl in Hd. subst d.
    destruct (run_turn_cases _ _ regs _ _ HR eq_refl H) as [(Hq & y & _ & Hx)|(_ & ? & _)]; [|done].
    destruct (Hyield _ _ _ Hx). eexists. by split; [constructor|].
  - rewrite (sr_driver _ _ HR), (sr_current _ _ HR) in Hd. simpl in Hd. subst d.
    destruct (run_turn_cases _ _ regs _ _ HR eq_refl H) as [(_ & y & ? & _)|(Hq & _ & ->)]; [done|]. simpl in Hq. subst q.
    unfold scheduler_run_leave in H'. rewrite bind_gets, (sr_driver _ _ HR) in H'.
    destruct (valid_get _ _ _ _ (sr_valid _ _ HR)) as (slot & Hg & G1 & _). cbn [rs_driver rs_current] in *.
    rewrite (bind_Ok _ _ _ _ _ Hg), G1 in H'. change (current_state _ =? SCDK_THREAD_BLOCKED) with false in H'.
    cbv iota in H'. rewrite bind_ret in H'. injection H' as <-. eexists. split; [constructor|]. split; [|done].
    exact (driver_refines _ _ None HR (or_introl eq_refl)).
Qed.
End traces.

(** ** Properties *)

(** C16. The scheduler refines round robin: along every sequence of yields,
    thread exits, starts and turns of [scdk_scheduler_run], the run queue, the
    thread states and the current thread implement the abstract scheduler of
    [rr_step], so at every point exactly one thread is RUNNING, it is the
    current one, the queue holds every READY thread once in arrival order, and
    the driver is BLOCKED whenever another thread runs. *)
Theorem sched_refines_round_robin (k k' : kernel) (ops : list sched_op) (s : run_state)
  (HR : sched_rel k s) (Hlive : rs_dead s = false) (Htrace : trace sched_step k ops k') :
  ∃ s', trace rr_step s ops s' ∧ sched_rel k' s' ∧ rs_dead s' = false.
Proof.
  revert s HR Hlive. induction Htrace as [k|k op k1 ops k2 Hstep _ IH]; intros s HR Hlive.
  - exists s. split; [constructor|done].
  - destruct (step_refines _ _ _ _ HR Hlive Hstep) as (s1 & H1 & HR1 & Hl1).
    destruct (IH s1 HR1 Hl1) as (s2 & H2 & HR2 & Hl2). exists s2. split; [by econstructor|done].
Qed.

(** [scdk_yield] called once for each set of registers in [rs], by whatever
    thread runs at that moment. *)
Fixpoint yields (rs : list scdk_thread_context) : K unit :=
  match rs with
  | [] => ret tt
  | regs :: rs => scdk_yield regs ;; yields rs
  end.

Lemma yields_reach k s n t rs :
  sched_rel k s → rs_queue s !! n = Some t → length rs = S n →
  ∃ k' s', yields rs k = (Ok tt, k') ∧ sched_rel k' s' ∧ rs_current s' = t ∧
    current_thread_slot (k_sched k') = Some t ∧ state_of k' t = Some SCDK_THREAD_RUNNING.
Proof.
  intros HR Hpos Hn.
  revert k s rs HR Hpos Hn. induction n as [|n IH]; intros k s rs HR Hpos Hn;
    (destruct rs as [|regs rs]; [done|]); simpl in Hn;
    pose proof (yield_refines k s regs HR) as Hy; unfold rr_yield in Hy;
    (destruct (rs_queue s) as [|u q] eqn:Hq; [done|]);
    destruct Hy as (k1 & c & Hrun & _ & HR1 & _); cbn [yields]; rewrite (bind_Ok _ _ _ _ _ Hrun).
  - injection Hpos as ->. destruct rs; [|done]. exists k1, (mk_run_state t false (q ++ rr_requeue s) (rs_driver s)).
    split_and!; [done|done|done|apply (sr_current _ _ HR1)|exact (valid_state _ _ _ _ (sr_valid _ _ HR1))].
  - apply (IH _ _ rs HR1); [|lia]. simpl in Hpos. cbn [rs_queue]. by apply lookup_app_l_Some.
Qed.

(** Waiting is bounded: a thread at position [n] of the run queue is the
    running thread after [n + 1] calls of [scdk_yield], whatever threads make
    them; every one of those calls switches, and none runs into undefined
    behaviour. *)
Theorem yield_bounded_wait (k : kernel) (s : run_state) (n t : nat) (rs : list scdk_thread_context)
  (HR : sched_rel k s) (Hpos : rs_queue s !! n = Some t) (Hn : length rs = S n) :
  ∃ k' s', yields rs k = (Ok tt, k') ∧ sched_rel k' s' ∧ rs_current s' = t ∧
    current_thread_slot (k_sched k') = Some t ∧ state_of k' t = Some SCDK_THREAD_RUNNING.
Proof. by apply (yields_reach k s n t rs). Qed.
