(* ===== verification/Threads.v ===== *)
(** * Creating kernel tasks and threads ([src/core/scheduler.c])

    [scdk_task_create], [scdk_thread_create] and [scdk_scheduler_init] against
    the round-robin view of [Scheduler]: creating a thread disturbs nothing
    that runs or waits, gives it a stack of its own, and the thread can then
    be started. *)
From stdpp Require Import base gmap list numbers relations.
From Stdlib Require Import ZArith Lia.
From S2P Require Import Prelude.
From S2P Require Import Kernel.
From S2P Require Import Object.
From S2P Require Import Capability.
From S2P Require Import Invariant.
From S2P Require Import Pmm.
From S2P Require Import Vmm.
From S2P Require Import Heap.
From S2P Require Import HeapVm.
From S2P Require Import AddressSpace.
From S2P Require Import Scheduler.
#[local] Open Scope Z_scope.

(** There is one core. *)
Definition tasks_ok (k : kernel) : Prop :=
  ∀ i slot, task_table (k_sched k) !! i = Some slot → tk_object_id slot ≠ 0 → tk_owner_core slot = 0.

(** What creation needs of the rest of the kernel. *)
Record sched_env (k : kernel) (L : gmap Z label) (hs : blocks) : Prop := {
  se_kernel : kernel_wf k;
  se_tables : pt_typed k L;
  se_heap : heap_wf k hs;
  se_ready : heap_initialized (k_heap k) = true;
  se_tasks : tasks_ok k
}.

(** Only slot [i] of the thread table changes, and no authority is lost. *)
Record grown (k k' : kernel) (i : nat) : Prop := {
  gw_objs : ∀ id o, scdk_object_lookup k id = Ok o → scdk_object_lookup k' id = Ok o;
  gw_caps : ∀ c e, u64 c → scdk_cap_lookup k c = Ok e → scdk_cap_lookup k' c = Ok e;
  gw_queues : run_queues (k_sched k') = run_queues (k_sched k);
  gw_current : current_thread_slot (k_sched k') = current_thread_slot (k_sched k);
  gw_driver : scheduler_driver_slot (k_sched k') = scheduler_driver_slot (k_sched k);
  gw_init : scheduler_initialized (k_sched k') = scheduler_initialized (k_sched k);
  gw_length : length (thread_table (k_sched k')) = length (thread_table (k_sched k));
  gw_others : ∀ j, j ≠ i → thread_table (k_sched k') !! j = thread_table (k_sched k) !! j
}.

(** A slot that holds no thread. *)
Definition vacant (k : kernel) (i : nat) : Prop :=
  ∃ slot, thread_table (k_sched k) !! i = Some slot ∧ th_object_id slot = 0.

Section grown.
Implicit Types (k : kernel) (s : run_state) (t i : nat).

Lemma grown_refl k i : grown k k i.
Proof. done. Qed.

Lemma grown_trans k1 k2 k3 i : grown k1 k2 i → grown k2 k3 i → grown k1 k3 i.
Proof.
  intros [A1 A2 A3 A4 A5 A6 A7 A8] [B1 B2 B3 B4 B5 B6 B7 B8].
  split; [by auto|by auto|by etrans..|]. intros j Hj. rewrite B8, A8 by done. done.
Qed.

(** A change of the scheduler's tables that keeps to slot [i]. *)
Lemma grown_upd k i f : grown k (upd_thread i f k) i.
Proof.
  split; try done.
  - simpl. by rewrite length_alter.
  - intros j Hj. simpl. by rewrite list_lookup_alter_ne.
Qed.

Lemma grown_slot_for_cap k k' i c t :
  grown k k' i → vacant k i → u64 c → thread_slot_for_cap k c = Ok t →
  t ≠ i ∧ thread_slot_for_cap k' c = Ok t.
Proof.
  intros G (si & Hi & Hi0) Hu H. assert (t ≠ i) as Hne.
  { intros ->. destruct (thread_slot_Ok _ _ _ H) as (slot & Hs & Hid). congruence. }
  split; [done|]. unfold thread_slot_for_cap in *. do 2 minv_step H. rename a into e, a0 into o.
  assert (scdk_cap_check k' c SCDK_RIGHT_READ SCDK_OBJ_THREAD = Ok e) as ->.
  { apply cap_check_Ok in E as (? & ? & ? & ?). apply cap_check_Ok. split_and!; try done. by apply G. }
  cbn [rbind]. rewrite (gw_objs _ _ _ G _ _ E0). cbn [rbind].
  destruct (obj_payload o) as [| | | | | |j| | | | |]; try done. minv_step H.
  destruct (negb _) eqn:Hid; [done|]. apply (inj Ok) in H as ->.
  rewrite (gw_others _ _ _ G) by done. rewrite E1. cbn [rbind]. by rewrite Hid.
Qed.

Lemma grown_valid k k' i t st qd :
  grown k k' i → vacant k i → valid_thread k t st qd → valid_thread k' t st qd.
Proof.
  intros G Hv (slot & H1 & H2 & H3 & H4 & H5 & H6).
  destruct (grown_slot_for_cap _ _ _ _ _ G Hv H5 H6) as [Hne Hs]. exists slot.
  rewrite (gw_others _ _ _ G) by done. done.
Qed.

Lemma grown_queue k k' i l : grown k k' i → vacant k i → queue_rel k l → queue_rel k' l.
Proof.
  intros G Hv [(q & Hq & Hh) H2 H3 H4]. split.
  - exists q. rewrite (gw_queues _ _ _ G). split; [done|].
    assert (thread_cap k' <$> l = thread_cap k <$> l) as ->; [|done]. apply list_fmap_ext.
    intros n t Ht. apply list_elem_of_lookup_2 in Ht. unfold thread_cap.
    rewrite (gw_others _ _ _ G); [done|]. intros ->.
    destruct (H3 i Ht) as (slot & S1 & _ & _ & _ & _ & S5). apply thread_slot_Ok in S5 as (x & X1 & X2).
    destruct Hv as (y & Y1 & Y2). congruence.
  - done.
  - intros t Ht. by eapply grown_valid, H3.
  - by rewrite (gw_length _ _ _ G).
Qed.

(** Creation is invisible to the scheduler. *)
Lemma grown_rel k k' i s :
  sched_rel k s → grown k k' i → vacant k i → state_of k' i ≠ Some SCDK_THREAD_RUNNING →
  (∀ slot, thread_table (k_sched k') !! i = Some slot → th_object_id slot ≠ 0 →
     th_state slot = SCDK_THREAD_NEW → valid_thread k' i SCDK_THREAD_NEW false) →
  sched_rel k' s.
Proof.
  intros [R1 R2 R3 R4 R5 R6 R7 R8 R9] G Hv Hnr Hnew. split.
  - by rewrite (gw_init _ _ _ G).
  - by rewrite (gw_current _ _ _ G).
  - by rewrite (gw_driver _ _ _ G).
  - by eapply grown_queue.
  - by eapply grown_valid.
  - intros d Hd Hne. by eapply grown_valid, R6.
  - intros t Ht. destruct (decide (t = i)) as [->|]; [done|]. apply R7.
    unfold state_of in *. by rewrite <-(gw_others _ _ _ G).
  - done.
  - intros t slot Ht Ho Hst. destruct (decide (t = i)) as [->|]; [by eapply Hnew|].
    rewrite (gw_others _ _ _ G) in Ht by done. by eapply grown_valid, (R9 t slot).
Qed.
End grown.

(** ** The stack *)
(** The stack block is new and large enough; the first frame lies in it. *)
Definition stack_ok (slot : scdk_thread_slot) (hs hs' : blocks) : Prop :=
  ∃ sz, (th_kernel_stack slot, sz) ∈ allocs SCDK_HEAP_BASE hs' ∧
    (∀ sz', (th_kernel_stack slot, sz') ∉ allocs SCDK_HEAP_BASE hs) ∧ SCDK_KERNEL_STACK_SIZE <= sz ∧
    th_stack_top slot = th_kernel_stack slot + SCDK_KERNEL_STACK_SIZE ∧
    cx_rsp (th_context slot) mod 16 = 0 ∧ th_kernel_stack slot <= cx_rsp (th_context slot) ∧
    cx_rsp (th_context slot) + 16 <= th_stack_top slot.

Definition make_stack (i : nat) (entry : Z) : K unit :=
  if negb (entry =? 0) then
    let* stack := scdk_kalloc SCDK_KERNEL_STACK_SIZE in
    modify (upd_thread i (with_stack stack)) ;;
    (if stack =? 0 then
       modify (upd_thread i (with_thread_object 0)) ;;
       fail SCDK_ERR_NOMEM
     else make_kernel_thread_context i)
  else ret tt.

Section stack.
Implicit Types (k : kernel) (L : gmap Z label) (hs : blocks) (i : nat).

Lemma upd_thread_kwf k i f : kernel_wf k → kernel_wf (upd_thread i f k).
Proof. intros H. kwf_update. Qed.
Lemma upd_task_kwf k i f : kernel_wf k → kernel_wf (upd_task i f k).
Proof. intros H. kwf_update. Qed.

(** The environment only depends on the memory side and the task owners. *)
Lemma env_frame k k' L hs :
  sched_env k L hs → k_vmm k' = k_vmm k → k_pmm k' = k_pmm k → k_heap k' = k_heap k →
  kernel_wf k' → tasks_ok k' → sched_env k' L hs.
Proof.
  intros [E1 E2 E3 E4 E5] Hv Hp Hh Hk Ht. split; try done.
  - apply (typed_memory_same k); [done|done|rewrite Hp; apply E2|rewrite Hp..].
    + intros p l Hl. by apply (pt_page _ _ E2 p l Hl).
    + apply E2.
  - by apply (heap_wf_same k).
  - by rewrite Hh.
Qed.

Lemma env_upd k L hs i f : sched_env k L hs → sched_env (upd_thread i f k) L hs.
Proof. intros E. apply (env_frame k); try done; [apply upd_thread_kwf, E|apply (se_tasks _ _ _ E)]. Qed.

(** Allocating: the memory side may grow, the tables stay. *)
Lemma env_kalloc k L hs size :
  sched_env k L hs → u64 size →
  ∃ p k' L' hs', scdk_kalloc size k = (Ok p, k') ∧ hv_frame k k' ∧ sched_env k' L' hs' ∧
    (p = 0 ∨ p ≠ 0 ∧ p mod 16 = 0 ∧ SCDK_HEAP_BASE < p ∧ ∃ sz, size <= sz ∧
      p + sz <= SCDK_HEAP_BASE + SCDK_HEAP_SIZE ∧ (p, sz) ∈ allocs SCDK_HEAP_BASE hs' ∧
      ∀ sz', (p, sz') ∉ allocs SCDK_HEAP_BASE hs).
Proof.
  intros [E1 E2 E3 E4 E5] Hs. destruct (kalloc_vm k L hs size E3 E4 E2 Hs)
    as (p & k' & L' & Hrun & [V1 V2 V3 V4] & hs' & H1 & H2 & Hpost).
  exists p, k', L', hs'. split_and!; [done|done| |].
  - split; try done; [|by unfold tasks_ok; rewrite V1].
    apply (kernel_wf_frame k); [done|by rewrite V1..|]. eapply tables_sized_core; [apply E1|by rewrite V1..].
  - destruct Hpost as [[-> _]|(A & B & sz & P1 & P2 & P3 & P4 & P5 & P6)]; [by left|right].
    split_and!; [unfold SCDK_HEAP_BASE in P3; lia|done|done|]. exists sz. split_and!; [done|done| |].
    + rewrite P6. apply elem_of_app. right. left.
    + by eapply alloc_fresh; [apply H1|..].
Qed.

Lemma stack_frame_ok p : SCDK_HEAP_BASE < p → p + SCDK_KERNEL_STACK_SIZE <= SCDK_HEAP_BASE + SCDK_HEAP_SIZE → p mod 16 = 0 →
  wrap64 (p + SCDK_KERNEL_STACK_SIZE) = p + SCDK_KERNEL_STACK_SIZE ∧
  wrap64 (Z.land (p + SCDK_KERNEL_STACK_SIZE) (not64 15) - 16) = p + SCDK_KERNEL_STACK_SIZE - 16.
Proof.
  unfold SCDK_KERNEL_STACK_SIZE, SCDK_HEAP_BASE, SCDK_HEAP_SIZE, wrap64, two64. intros H1 H2 H3. split.
  - apply Z.mod_small. lia.
  - rewrite land_not64 by (unfold u64, two64; lia). change 15 with (2 ^ 4 - 1). rewrite ldiff_mask by done.
    change (2 ^ 4) with 16. rewrite (Z.add_mod p 16384), H3 by done. change ((0 + 16384 mod 16) mod 16) with 0.
    rewrite Z.mod_small; lia.
Qed.

(** The stage that gives a filled slot its stack. *)
Lemma make_stack_cases k L hs i entry slot r k' :
  sched_env k L hs → thread_table (k_sched k) !! i = Some slot → th_kernel_stack slot = 0 →
  make_stack i entry k = (r, k') →
  ∃ L' hs' slot', sched_env k' L' hs' ∧ grown k k' i ∧ k_objs k' = k_objs k ∧ k_caps k' = k_caps k ∧
    task_table (k_sched k') = task_table (k_sched k) ∧ thread_table (k_sched k') !! i = Some slot' ∧
    th_cap slot' = th_cap slot ∧ th_state slot' = th_state slot ∧ th_queued slot' = th_queued slot ∧
    th_owner_core slot' = th_owner_core slot ∧ th_entry slot' = th_entry slot ∧
    th_arg slot' = th_arg slot ∧ th_task_cap slot' = th_task_cap slot ∧
    match r with
    | Ok _ => th_object_id slot' = th_object_id slot ∧
        (entry = 0 → th_kernel_stack slot' = 0) ∧ (entry ≠ 0 → stack_ok slot' hs hs')
    | Err _ => th_object_id slot' = 0
    | Ub => False
    end.
Proof.
  intros HE Hi H0 Hrun. unfold make_stack in Hrun. destruct (Z.eqb_spec entry 0) as [->|Hne]; cbn [negb] in Hrun.
  { apply pair_equal_spec in Hrun as [<- <-]. exists L, hs, slot. by split_and!. }
  destruct (env_kalloc k L hs SCDK_KERNEL_STACK_SIZE HE) as (p & k1 & L1 & hs1 & Hal & Hf & HE1 & Hp); [by vm_compute|].
  rewrite (bind_Ok _ _ _ _ _ Hal), bind_modify in Hrun.
  assert (k_sched k1 = k_sched k) as Hsch by (by rewrite Hf).
  assert (thread_table (k_sched k1) !! i = Some slot) as Hi1 by (by rewrite Hsch).
  assert (grown k k1 i) as G1.
  { split; try (by rewrite Hsch).
    - intros id o. by rewrite (object_lookup_objs k1 k) by (by rewrite Hf).
    - intros c e _. by rewrite (cap_lookup_tables k1 k) by (by rewrite Hf). }
  pose proof (upd_thread_lookup k1 i (with_stack p) slot Hi1) as Hi2.
  destruct Hp as [->|(Hp0 & Hp16 & Hlo & sz & Hsz & Hhi & Hin & Hfresh)].
  - change (0 =? 0) with true in Hrun. cbv iota in Hrun. apply pair_equal_spec in Hrun as [<- <-].
    exists L1, hs1, (with_thread_object 0 (with_stack 0 slot)).
    split_and!; try done; [by apply env_upd, env_upd| |by rewrite Hf|by rewrite Hf|by simpl; rewrite Hsch|by apply upd_thread_lookup].
    eapply grown_trans; [exact G1|]. eapply grown_trans; apply grown_upd.
  - rewrite (proj2 (Z.eqb_neq _ _)) in Hrun by done. unfold make_kernel_thread_context in Hrun.
    apply pair_equal_spec in Hrun as [<- <-]. assert (p + SCDK_KERNEL_STACK_SIZE <= SCDK_HEAP_BASE + SCDK_HEAP_SIZE) as Hle by lia.
    destruct (stack_frame_ok p Hlo Hle Hp16) as [F1 F2]. exists L1, hs1. eexists.
    split_and!; [by apply env_upd, env_upd| |by rewrite Hf|by rewrite Hf|by simpl; rewrite Hsch|by apply upd_thread_lookup|done|done|done|done|done|done|done|done|done|].
    + eapply grown_trans; [exact G1|]. eapply grown_trans; apply grown_upd.
    + intros _. exists sz. cbn [with_stack th_kernel_stack th_stack_top th_context cx_rsp]. rewrite F1, F2.
      unfold SCDK_KERNEL_STACK_SIZE in *. split_and!; try done; try lia.
      Z.to_euclidean_division_equations; lia.
Qed.
End stack.

(** ** Creation *)
(** The new thread, through its capability. *)
Record thread_made (k' : kernel) (i : nat) (c task entry arg : Z) (hs hs' : blocks) : Prop := {
  tm_slot : ∃ slot, thread_table (k_sched k') !! i = Some slot ∧ th_entry slot = entry ∧ th_arg slot = arg ∧
    th_task_cap slot = task ∧ (entry = 0 → th_kernel_stack slot = 0) ∧ (entry ≠ 0 → stack_ok slot hs hs');
  tm_valid : valid_thread k' i SCDK_THREAD_NEW false;
  tm_lookup : thread_slot_for_cap k' c = Ok i;
  tm_rights : ∀ r, r ≠ 0 → Z.land thread_rights r = r → ∃ e, scdk_cap_check k' c r SCDK_OBJ_THREAD = Ok e
}.

Section creation.
Implicit Types (k : kernel) (L : gmap Z label) (hs : blocks) (i : nat).

Lemma task_slot_Ok k c ti :
  task_slot_for_cap k c = Ok ti →
  ∃ slot, task_table (k_sched k) !! ti = Some slot ∧ tk_object_id slot ≠ 0.
Proof.
  unfold task_slot_for_cap. intros H. do 2 minv_step H. rename a into e, a0 into o.
  destruct (obj_payload o) as [| | | | |i| | | | | |]; try done. minv_step H. apply deref_inv in E1.
  destruct (negb _) eqn:Hid; [done|]. apply (inj Ok) in H as ->. bsplit. exists a. split; [done|].
  rewrite Hid. apply cap_check_Ok in E as (_ & E & _). unfold scdk_cap_lookup in E.
  do 3 minv_step E. apply (inj Ok) in E. subst a0. unfold validate_cap_slot in E2. do 6 minv_step E2.
  apply (inj Ok) in E2. subst. repeat match goal with H : rguard _ _ = Ok _ |- _ => apply rguard_inv in H end.
  bsplit. done.
Qed.

Lemma task_slot_defined k c : kernel_wf k → defined (task_slot_for_cap k c).
Proof.
  intros Hk. unfold task_slot_for_cap. apply rbind_defined; [apply cap_check_defined, Hk|]. intros e He.
  apply rbind_defined; [apply object_lookup_defined, Hk|]. intros o Ho.
  assert (SCDK_OBJ_TASK ≠ SCDK_OBJ_NONE) as Hne by done.
  pose proof (checked_payload _ _ _ _ _ _ Hk Hne He Ho) as Hp.
  payload_cases (obj_payload o) Hp; [done|]. destruct Hp as [_ Hp].
  destruct (lookup_lt_is_Some_2 (task_table (k_sched k)) i) as [x ->].
  { rewrite (ts_tasks _ (kwf_sized _ Hk)). unfold SCDK_MAX_TASKS in *. lia. }
  cbn [deref rbind]. by case_match.
Qed.

Lemma env_main_thread k L hs ti c : sched_env k L hs → sched_env (set_main_thread ti c k) L hs.
Proof.
  intros HE. apply (env_frame k); try done; [apply upd_task_kwf, HE|].
  intros i slot. unfold set_main_thread. simpl. destruct (decide (i = ti)) as [->|].
  - rewrite list_lookup_alter_eq. destruct (task_table (k_sched k) !! ti) as [ts|] eqn:E; [|done].
    intros [= <-]. exact (se_tasks _ _ _ HE ti ts E).
  - rewrite list_lookup_alter_ne by done. apply (se_tasks _ _ _ HE).
Qed.

(** The slot is filled in over its new object. *)
Lemma fill_thread_step k k1 L hs i task tid entry arg oid :
  sched_env k L hs → vacant k i →
  object_created k k1 oid SCDK_OBJ_THREAD 0 0 (P_thread i) →
  let k2 := fill_thread i task tid entry arg 0 oid k1 in
  sched_env k2 L hs ∧ grown k k2 i ∧
  ∃ slot, thread_table (k_sched k2) !! i = Some slot ∧ th_object_id slot = oid ∧ th_kernel_stack slot = 0 ∧
    th_state slot = SCDK_THREAD_NEW ∧ th_queued slot = false ∧ th_owner_core slot = 0 ∧
    th_entry slot = entry ∧ th_arg slot = arg ∧ th_task_cap slot = task ∧ th_cap slot = 0.
Proof.
  intros HE (s0 & Hi & Hi0) Hoc k2. pose proof (oc_frame _ _ _ _ _ _ _ Hoc) as Hf.
  pose proof (se_kernel _ _ _ HE) as Hk.
  assert (kernel_wf k1) as Hk1.
  { eapply object_created_kwf; [exact Hk|exact Hoc|]. split; [done|].
    apply lookup_lt_Some in Hi. rewrite (ts_threads _ (kwf_sized _ Hk)) in Hi. unfold SCDK_MAX_THREADS in *. lia. }
  assert (k_sched k1 = k_sched k) as Hs by (by rewrite Hf).
  destruct (object_created_caps _ _ _ _ _ _ _ (kwf_caps _ Hk) Hoc) as (Hc & _ & Hkeep).
  split_and!.
  - apply env_upd, (env_frame k); [done|by rewrite Hf..|done|unfold tasks_ok; rewrite Hs; apply HE].
  - eapply grown_trans; [|apply grown_upd]. split; try (by rewrite Hs).
    + apply Hoc.
    + intros c e _. apply Hkeep.
  - eexists. split; [apply upd_thread_lookup; rewrite Hs; exact Hi|]. done.
Qed.

(** The capability is minted. *)
Lemma mint_thread_step k L hs i oid slot c k' :
  sched_env k L hs → thread_table (k_sched k) !! i = Some slot → th_object_id slot = oid →
  (∃ g, scdk_object_lookup k oid = Ok (mk_object oid SCDK_OBJ_THREAD g 0 0 (P_thread i))) →
  scdk_cap_create oid thread_rights k = (Ok c, k') →
  let k2 := upd_thread i (with_thread_cap c) k' in
  sched_env k2 L hs ∧ grown k k2 i ∧ u64 c ∧ thread_slot_for_cap k2 c = Ok i ∧
  (∀ r, r ≠ 0 → Z.land thread_rights r = r → ∃ e, scdk_cap_check k2 c r SCDK_OBJ_THREAD = Ok e) ∧
  thread_table (k_sched k2) !! i = Some (with_thread_cap c slot) ∧
  task_table (k_sched k2) = task_table (k_sched k).
Proof.
  intros HE Hi Hid [g Hg] Hcc k2. pose proof (se_kernel _ _ _ HE) as Hk.
  pose proof (cap_create_kwf oid thread_rights k Hk) as Hk'. rewrite Hcc in Hk'. simpl in Hk'.
  apply cap_create_Ok in Hcc; [|apply Hk]. pose proof (cc_frame _ _ _ _ _ Hcc) as Hf.
  assert (k_sched k' = k_sched k) as Hs by (by rewrite Hf).
  assert (thread_table (k_sched k2) !! i = Some (with_thread_cap c slot)) as Hi2.
  { apply upd_thread_lookup. by rewrite Hs. }
  destruct (cc_lookup _ _ _ _ _ Hcc) as (o & Ho & Hl). rewrite Hg in Ho. injection Ho as <-.
  assert (∀ r, r ≠ 0 → Z.land thread_rights r = r →
    scdk_cap_check k2 c r SCDK_OBJ_THREAD = Ok (mk_cap_entry oid g SCDK_OBJ_THREAD 0 thread_rights)) as Hcheck.
  { intros r Hr Hs'. rewrite (cap_check_tables k2 k') by done. apply cap_check_Ok.
    split_and!; [done|exact Hl|by right|done]. }
  split_and!; try done.
  - apply env_upd, (env_frame k); [done|by rewrite Hf..|done|unfold tasks_ok; rewrite Hs; apply HE].
  - eapply grown_trans; [|apply grown_upd]. split; try (by rewrite Hs).
    + intros id o. by rewrite (object_lookup_objs k' k) by (by rewrite Hf).
    + apply Hcc.
  - apply Hcc.
  - unfold thread_slot_for_cap. rewrite Hcheck by done. cbn [rbind ce_object_id].
    rewrite (object_lookup_objs k2 k), Hg by (unfold k2; simpl; by rewrite Hf). cbn [rbind obj_payload].
    rewrite Hi2. cbn [deref rbind]. cbn [with_thread_cap th_object_id]. by rewrite Hid, Z.eqb_refl.
  - intros r Hr Hs'. eexists. by apply Hcheck.
  - simpl. by rewrite Hs.
Qed.

(** The clean-up after a failed mint. *)
Definition thread_undo (i : nat) : K unit :=
  let* t := get_thread i in
  scdk_kfree (th_kernel_stack t) ;;
  modify (upd_thread i (with_thread_object 0)).

Lemma thread_undo_step k L hs hs0 i slot :
  sched_env k L hs → thread_table (k_sched k) !! i = Some slot →
  th_kernel_stack slot = 0 ∨ stack_ok slot hs0 hs →
  ∃ k' hs', thread_undo i k = (Ok tt, k') ∧ sched_env k' L hs' ∧ grown k k' i ∧
    thread_table (k_sched k') !! i = Some (with_thread_object 0 slot).
Proof.
  intros HE Hi Hst. unfold thread_undo, bind at 1, get_thread, query. rewrite Hi. cbn [deref].
  assert (∃ k1 hs1, scdk_kfree (th_kernel_stack slot) k = (Ok tt, k1) ∧ k1 = set_heap (k_heap k1) k ∧
    heap_wf k1 hs1 ∧ heap_initialized (k_heap k1) = true) as (k1 & hs1 & Hrun & Hf & Hh & Hr).
  { destruct Hst as [->|(sz & Hin & _)].
    - exists k, hs. split_and!; [done|by destruct k|apply HE|apply HE].
    - destruct (kfree_live k hs _ sz (se_heap _ _ _ HE) (se_ready _ _ _ HE) Hin) as (k1 & hs1 & A & B & ? & ? & ? & ? & _).
      by exists k1, hs1. }
  rewrite (bind_Ok _ _ _ _ _ Hrun). eexists _, hs1. split; [reflexivity|].
  assert (sched_env k1 L hs1) as HE1.
  { destruct HE as [E1 E2 E3 E4 E5]. split; try done; [| |by unfold tasks_ok; rewrite Hf].
    - apply (kernel_wf_frame k); [done|by rewrite Hf..|]. eapply tables_sized_core; [apply E1|by rewrite Hf..].
    - apply (vs_typed k k1 L L). by apply vm_step_heap. }
  split_and!; [by apply env_upd| |apply upd_thread_lookup; by rewrite Hf].
  eapply grown_trans; [|apply grown_upd]. split; by rewrite Hf.
Qed.

(** The end of creation: mint the capability or undo, and make the first thread
    of a task its main thread. *)
Definition thread_finish (i ti : nat) (oid : Z) : K Z :=
  let* cap := recover (scdk_cap_create oid thread_rights) (thread_undo i) in
  modify (upd_thread i (with_thread_cap cap)) ;;
  let* task_slot := get_task ti in
  (if tk_main_thread task_slot =? 0 then modify (set_main_thread ti cap) else ret tt) ;;
  ret cap.

Lemma main_thread_step k L hs ti ts c r k' :
  sched_env k L hs → task_table (k_sched k) !! ti = Some ts →
  (let* task_slot := get_task ti in
   (if tk_main_thread task_slot =? 0 then modify (set_main_thread ti c) else ret tt) ;; ret c) k = (r, k') →
  r = Ok c ∧ sched_env k' L hs ∧ thread_table (k_sched k') = thread_table (k_sched k) ∧
  k_objs k' = k_objs k ∧ k_caps k' = k_caps k ∧ ∀ k0 i, grown k0 k i → grown k0 k' i.
Proof.
  intros HE Hti Hrun. unfold bind at 1, get_task, query in Hrun. rewrite Hti in Hrun. cbn [deref] in Hrun.
  destruct (tk_main_thread ts =? 0); apply pair_equal_spec in Hrun as [<- <-]; [|by split_and!].
  split_and!; try done; [by apply env_main_thread|]. intros k0 i G. by eapply grown_trans.
Qed.

Lemma thread_finish_cases k L hs hs0 i ti ts oid slot task entry arg r k' :
  sched_env k L hs → thread_table (k_sched k) !! i = Some slot → task_table (k_sched k) !! ti = Some ts →
  th_object_id slot = oid → oid ≠ 0 →
  (∃ g, scdk_object_lookup k oid = Ok (mk_object oid SCDK_OBJ_THREAD g 0 0 (P_thread i))) →
  th_state slot = SCDK_THREAD_NEW → th_queued slot = false → th_owner_core slot = 0 →
  th_entry slot = entry → th_arg slot = arg → th_task_cap slot = task →
  (entry = 0 → th_kernel_stack slot = 0) → (entry ≠ 0 → stack_ok slot hs0 hs) →
  thread_finish i ti oid k = (r, k') →
  ∃ hs', sched_env k' L hs' ∧ grown k k' i ∧
    match r with
    | Ok c => thread_made k' i c task entry arg hs0 hs'
    | Err _ => vacant k' i ∧ state_of k' i = Some SCDK_THREAD_NEW
    | Ub => False
    end.
Proof.
  intros HE Hi Hti Hid Hid0 Hobj S1 S2 S3 S4 S5 S6 Hst0 Hst1 Hrun.
  unfold thread_finish, bind at 1, recover in Hrun.
  destruct (scdk_cap_create oid thread_rights k) as [[c|e|] k4] eqn:Hcc.
  - destruct (mint_thread_step _ _ _ _ oid _ _ _ HE Hi Hid Hobj Hcc)
      as (HE5 & G5 & Hu & Hlk & Hrights & Hsl5 & Ht5).
    rewrite bind_modify in Hrun. rewrite <-Ht5 in Hti.
    apply (main_thread_step _ _ _ _ _ _ _ _ HE5 Hti) in Hrun as (-> & HE6 & E1 & E2 & E3 & G6).
    assert (thread_slot_for_cap k' c = Ok i) as Hlk'.
    { rewrite <-Hlk. apply statics_slot_for_cap; [unfold statics; by rewrite E1|done|done]. }
    exists hs. split; [done|]. split; [by apply G6|]. split.
    + exists (with_thread_cap c slot). rewrite E1. by split_and!.
    + exists (with_thread_cap c slot). rewrite E1. split_and!; solve [done|simpl; congruence].
    + done.
    + intros rr Hr Hs. rewrite (cap_check_tables k' (upd_thread i (with_thread_cap c) k4)) by done.
      by apply Hrights.
  - apply cap_create_Err in Hcc as ->; [|apply HE].
    destruct (thread_undo_step _ _ _ hs0 _ _ HE Hi) as (k5 & hs5 & Hun & HE5 & G5 & Hsl5).
    { destruct (decide (entry = 0)) as [He|He]; [left; auto|right; auto]. }
    rewrite Hun in Hrun. apply pair_equal_spec in Hrun as [<- <-]. exists hs5. split_and!; try done.
    + by eexists.
    + unfold state_of. rewrite Hsl5. simpl. by rewrite S1.
  - pose proof (cap_create_defined k oid thread_rights (kwf_caps _ (se_kernel _ _ _ HE))) as Hd. by rewrite Hcc in Hd.
Qed.

Lemma thread_create_cases k L hs task entry arg r k' :
  sched_env k L hs → scdk_thread_create task entry arg k = (r, k') →
  (k' = k ∧ ∃ e, r = Err e) ∨
  ∃ L' hs' i, sched_env k' L' hs' ∧ vacant k i ∧ grown k k' i ∧
    match r with
    | Ok c => thread_made k' i c task entry arg hs hs'
    | Err _ => vacant k' i ∧ state_of k' i = Some SCDK_THREAD_NEW
    | Ub => False
    end.
Proof.
  intros HE Hrun. unfold scdk_thread_create in Hrun. pose proof (se_kernel _ _ _ HE) as Hk.
  unfold bind at 1, query at 1 in Hrun. destruct (scdk_cap_check k task _ _) as [te|e|] eqn:Hck;
    [|by apply pair_equal_spec in Hrun as [<- <-]; left; eauto|by apply cap_check_defined in Hck; [|apply Hk]].
  unfold bind at 1, query at 1 in Hrun. destruct (task_slot_for_cap k task) as [ti|e|] eqn:Hts;
    [|by apply pair_equal_spec in Hrun as [<- <-]; left; eauto|by apply task_slot_defined in Hts].
  destruct (task_slot_Ok _ _ _ Hts) as (ts & Hti & Htid). pose proof (se_tasks _ _ _ HE ti ts Hti Htid) as Howner.
  rewrite bind_gets in Hrun. destruct (find_slot _ _) as [i|] eqn:Hfs;
    [|by apply pair_equal_spec in Hrun as [<- <-]; left; eauto].
  apply find_slot_Some in Hfs as [(s0 & Hi & Hi0) _]. apply Z.eqb_eq in Hi0.
  assert (vacant k i) as Hvac by (by exists s0).
  unfold bind at 1, get_task at 1, query at 1 in Hrun. rewrite Hti in Hrun. cbn [deref] in Hrun. rewrite Howner in Hrun.
  unfold bind at 1 in Hrun. destruct (scdk_object_create _ _ _ _ k) as [[oid|e|] k1] eqn:Hoc.
  2: { apply object_create_Err in Hoc as ->; [|apply Hk]. apply pair_equal_spec in Hrun as [<- <-]. left. eauto. }
  2: { pose proof (object_create_defined k SCDK_OBJ_THREAD 0 0 (P_thread i) (cwf_objs _ (kwf_caps _ Hk))) as Hd.
       by rewrite Hoc in Hd. }
  apply object_create_Ok in Hoc; [|apply Hk]. right.
  destruct (fill_thread_step _ _ _ _ _ task (ce_object_id te) entry arg _ HE Hvac Hoc)
    as (HE2 & G2 & sl & Hsl & S1 & S2 & S3 & S4 & S5 & S6 & S7 & S8 & S9).
  rewrite bind_modify in Hrun. set (k2 := fill_thread _ _ _ _ _ _ _ k1) in *.
  change (if negb (entry =? 0) then _ else ret tt) with (make_stack i entry) in Hrun.
  destruct (make_stack i entry k2) as [r3 k3] eqn:Hms. unfold bind at 1 in Hrun. rewrite Hms in Hrun.
  destruct (make_stack_cases _ _ _ _ _ _ _ _ HE2 Hsl S2 Hms) as
    (L3 & hs3 & sl3 & HE3 & G3 & O3 & C3 & T3 & Hsl3 & F1 & F2 & F3 & F4 & F5 & F6 & F7 & Hr3).
  assert (grown k k3 i) as G13 by (by eapply grown_trans).
  destruct r3 as [[]|e3|]; [| |done].
  2: { apply pair_equal_spec in Hrun as [<- <-]. exists L3, hs3, i. split_and!; try done.
       - by exists sl3.
       - unfold state_of. rewrite Hsl3. simpl. by rewrite F2, S3. }
  destruct Hr3 as (Hid3 & Hst0 & Hst1). fold (thread_undo i) in Hrun. fold (thread_finish i ti oid) in Hrun.
  assert (∃ g, scdk_object_lookup k3 oid = Ok (mk_object oid SCDK_OBJ_THREAD g 0 0 (P_thread i))) as Hobj.
  { destruct (oc_lookup _ _ _ _ _ _ _ Hoc) as (g & _ & Hg). exists g. rewrite <-Hg. by apply object_lookup_objs. }
  assert (task_table (k_sched k3) !! ti = Some ts) as Hti3.
  { rewrite T3. change (task_table (k_sched k1) !! ti = Some ts).
    rewrite (oc_frame _ _ _ _ _ _ _ Hoc). exact Hti. }
  destruct (thread_finish_cases k3 L3 hs3 hs i ti ts oid sl3 task entry arg r k') as (hs' & HE' & G' & Hr');
    try done; try congruence; [apply Hoc|].
  exists L3, hs', i. split_and!; try done. by eapply grown_trans.
Qed.
End creation.

(** ** Tasks and the boot thread *)
Section boot.
Implicit Types (k : kernel) (L : gmap Z label) (hs : blocks) (i : nat).

Lemma upd_task_env k L hs i f :
  sched_env k L hs →
  (∀ t, task_table (k_sched k) !! i = Some t → tk_object_id (f t) ≠ 0 → tk_owner_core (f t) = 0) →
  sched_env (upd_task i f k) L hs.
Proof.
  intros HE Hf. apply (env_frame k); try done; [apply upd_task_kwf, HE|].
  intros j slot. simpl. destruct (decide (j = i)) as [->|].
  - rewrite list_lookup_alter_eq. destruct (task_table (k_sched k) !! i) as [ts|] eqn:E; [|done].
    intros [= <-]. by apply Hf.
  - rewrite list_lookup_alter_ne by done. apply (se_tasks _ _ _ HE).
Qed.

(** The thread side of the scheduler does not see a task come into being. *)
Lemma task_create_env k L hs owner asp c k' :
  sched_env k L hs → 0 <= owner → scdk_task_create owner asp k = (Ok c, k') →
  sched_env k' L hs ∧ with_tasks [] (k_sched k') = with_tasks [] (k_sched k) ∧ k_heap k' = k_heap k.
Proof.
  intros HE Hown Hrun. pose proof (se_kernel _ _ _ HE) as Hk. unfold scdk_task_create in Hrun.
  do 2 minv_step Hrun. apply guard_inv in E as [Hlt ->]. apply gets_inv in E0 as [-> ->]. bsplit.
  assert (owner = 0) as -> by (unfold SCDK_MAX_CORES in *; lia).
  destruct (find_slot _ _) as [i|] eqn:Hfs; [|done]. apply find_slot_Some in Hfs as [(s0 & Hi & _) _].
  assert (∃ k1, mint SCDK_OBJ_TASK 0 0 (P_task i) task_rights (fill_task i 0 asp) (clear_task i) k = (Ok c, k1) ∧
    k' = set_task_cap i c k1) as (k1 & Hm & ->).
  { apply bind_inv_Ok in Hrun as (oid & ka & Ho & Hrun). rewrite bind_modify in Hrun.
    apply bind_inv_Ok in Hrun as (c' & kb & Hc & Hrun). rewrite bind_modify in Hrun.
    apply pair_equal_spec in Hrun as [E <-]. injection E as ->.
    exists kb. split; [|done]. unfold mint. rewrite (bind_Ok _ _ _ _ _ Ho). by rewrite bind_modify. }
  apply mint_Ok in Hm as [oid Hm]; [|done|done|apply Hk].
  pose proof (mt_state _ _ _ _ _ _ _ _ _ _ Hm) as Hf.
  assert (kernel_wf k1) as Hk1.
  { split; [apply Hm| |].
    - pose proof (kwf_sized _ (upd_task_kwf k i (λ _, mk_task_slot oid 0 0 asp 0) Hk)) as Hs.
      eapply tables_sized_core; [exact Hs|by rewrite Hf..].
    - intros id o [Ho|(-> & -> & ->)]%(mt_only _ _ _ _ _ _ _ _ _ _ Hm); [by eapply kwf_payload|].
      split; [done|]. apply lookup_lt_Some in Hi. rewrite (ts_tasks _ (kwf_sized _ Hk)) in Hi.
      unfold SCDK_MAX_TASKS in *. lia. }
  assert (tasks_ok k1) as Ht1.
  { unfold tasks_ok. rewrite Hf.
    exact (se_tasks _ _ _ (upd_task_env _ _ _ i (λ _, mk_task_slot oid 0 0 asp 0) HE (λ _ _ _, eq_refl))). }
  assert (sched_env k1 L hs) as HE1 by (apply (env_frame k); [done|by rewrite Hf..|done|done]).
  split_and!.
  - apply upd_task_env; [done|]. intros t Ht. by apply (se_tasks _ _ _ HE1 i t).
  - simpl. by rewrite Hf.
  - simpl. by rewrite Hf.
Qed.

(** A NEW thread with an entry function and a stack can be started. *)
Lemma start_accepted k s c i slot e r k' :
  sched_rel k s → scdk_cap_check k c SCDK_RIGHT_EXEC SCDK_OBJ_THREAD = Ok e →
  thread_slot_for_cap k c = Ok i → thread_table (k_sched k) !! i = Some slot →
  th_entry slot ≠ 0 → th_kernel_stack slot ≠ 0 → th_state slot = SCDK_THREAD_NEW →
  scdk_thread_start c k = (r, k') →
  r = Ok tt ∧ sched_rel k' (mk_run_state (rs_current s) (rs_dead s) (rs_queue s ++ [i]) (rs_driver s)).
Proof.
  intros HR Hc Hs Hi He Hks Hst Hrun.
  destruct (start_refines _ _ _ _ _ HR Hrun) as [[Hno ->]|(-> & t & Hs' & _ & _ & HR')].
  - exfalso. apply Hno. unfold scdk_thread_start in Hrun. unfold bind at 1, query at 1 in Hrun. rewrite Hc in Hrun.
    unfold bind at 1, query at 1 in Hrun. rewrite Hs in Hrun.
    unfold bind at 1, get_thread, query in Hrun. rewrite Hi in Hrun. cbn [deref] in Hrun.
    rewrite (proj2 (Z.eqb_neq _ _) He), (proj2 (Z.eqb_neq _ _) Hks), bind_guard, Hst, bind_guard, bind_modify in Hrun by done.
    unfold on_error in Hrun. pose proof (thread_slot_Ok _ _ _ Hs) as (sl & Hsl & Hid). rewrite Hi in Hsl.
    injection Hsl as <-. pose proof (sr_new _ _ HR i slot Hi Hid Hst) as Hnew.
    assert (state_of k i = Some SCDK_THREAD_NEW) as Hsn by (by eapply valid_state).
    destruct (rel_not_new _ _ _ HR Hsn) as (_ & Hq & _).
    destruct (enqueue_last (upd_thread i (with_state SCDK_THREAD_READY) k) (rs_queue s) i) as (k2 & Hen & _).
    + by apply upd_state_queue; [apply HR|].
    + done.
    + by apply (upd_thread_valid k i _ SCDK_THREAD_NEW false).
    + rewrite Hen in Hrun. by apply pair_equal_spec in Hrun as [<- _].
  - rewrite Hs in Hs'. injection Hs' as <-. done.
Qed.

Lemma boot_run_queue : queue_holds (mk_run_queue (zeroed SCDK_MAX_THREADS 0) 0 0 0) [].
Proof. split; try done. Qed.
End boot.

Lemma thread_create_rel (k k' : kernel) (L : gmap Z label) (hs : blocks) (s : run_state)
  (task entry arg : Z) (r : result Z) (HE : sched_env k L hs) (HR : sched_rel k s)
  (Hrun : scdk_thread_create task entry arg k = (r, k')) :
  defined r ∧ sched_rel k' s ∧
  ∃ L' hs', sched_env k' L' hs' ∧
    ∀ c, r = Ok c → scdk_thread_state k' c = Ok SCDK_THREAD_NEW ∧
      (entry ≠ 0 → ∃ t slot k'', thread_table (k_sched k') !! t = Some slot ∧ stack_ok slot hs hs' ∧
         th_entry slot = entry ∧ th_arg slot = arg ∧ scdk_thread_start c k' = (Ok tt, k'') ∧
         sched_rel k'' (mk_run_state (rs_current s) (rs_dead s) (rs_queue s ++ [t]) (rs_driver s))).
Proof.
  destruct (thread_create_cases k L hs task entry arg r k' HE Hrun)
    as [[-> [e ->]]|(L' & hs' & i & HE' & Hvac & G & Hr)].
  { split_and!; [done|done|]. by exists L, hs. }
  destruct r as [c|e|]; [| |done].
  - destruct Hr as [(slot & M1 & M2 & M3 & M4 & M5 & M6) Mv Ml Mr].
    pose proof (valid_state _ _ _ _ Mv) as Hst.
    assert (sched_rel k' s) as HR'.
    { apply (grown_rel k k' i); [done|done|done|by rewrite Hst|done]. }
    split_and!; [done|done|]. exists L', hs'. split; [done|]. intros c' [= <-]. split.
    { unfold scdk_thread_state. rewrite Ml. cbn [rbind]. unfold state_of in Hst. rewrite M1 in Hst |- *.
      cbn [deref rbind]. injection Hst as ->. done. }
    intros He. exists i, slot.
    destruct (scdk_thread_start c k') as [r2 k2] eqn:Hstart. exists k2.
    pose proof (M6 He) as Hstack. pose proof Hstack as (sz & Hin & _).
    assert (th_kernel_stack slot ≠ 0) as Hks.
    { apply allocs_bounds in Hin as [? _]; [|apply HE']. unfold SCDK_HEAP_BASE in *. lia. }
    destruct (Mr SCDK_RIGHT_EXEC) as [e Hexec]; [done|done|].
    destruct (start_accepted k' s c i slot e r2 k2 HR' Hexec Ml M1) as [-> HR2]; try done.
    { by rewrite M2. } { unfold state_of in Hst. rewrite M1 in Hst. by injection Hst. }
  - destruct Hr as [(slot & V1 & V2) Hst].
    split_and!; [done| |by exists L', hs'].
    apply (grown_rel k k' i); [done|done|done|by rewrite Hst|]. intros slot' Hs' Ho. congruence.
Qed.

Lemma scheduler_init_rel (k k' : kernel) (L : gmap Z label) (hs : blocks) (task thread : Z)
  (HE : sched_env k L hs) (Hboot : k_sched k = boot_sched)
  (Hrun : scdk_scheduler_init k = (Ok (task, thread), k')) :
  ∃ i L' hs', sched_rel k' (mk_run_state i false [] None) ∧ sched_env k' L' hs' ∧
    thread_slot_for_cap k' thread = Ok i ∧
    current_task (k_sched k') = task ∧ current_thread (k_sched k') = thread.
Proof.
  unfold scdk_scheduler_init in Hrun. rewrite bind_gets, Hboot, bind_guard in Hrun by done.
  apply bind_inv_Ok in Hrun as (bt & k1 & Ht & Hrun). apply bind_inv_Ok in Hrun as (bth & k2 & Hth & Hrun).
  apply bind_inv_Ok in Hrun as (i & k3 & Hs & Hrun). apply query_inv in Hs as [Hs ->].
  rewrite !bind_modify in Hrun. apply pair_equal_spec in Hrun as [Hr <-]. injection Hr as -> ->.
  destruct (task_create_env _ _ _ _ _ _ _ HE (Z.le_refl 0) Ht) as (HE1 & Hsch & _). rewrite Hboot in Hsch.
  destruct (thread_create_cases _ _ _ _ _ _ _ _ HE1 Hth) as [[_ [e [=]]]|(L' & hs' & i' & HE2 & Hvac & G & Hm)].
  rewrite (tm_lookup _ _ _ _ _ _ _ _ Hm) in Hs. injection Hs as ->.
  assert (thread_table (k_sched k1) = thread_table boot_sched ∧ run_queues (k_sched k1) = run_queues boot_sched ∧
    scheduler_driver_slot (k_sched k1) = None) as (B1 & B2 & B3).
  { split_and!; [exact (f_equal thread_table Hsch)|exact (f_equal run_queues Hsch)|exact (f_equal scheduler_driver_slot Hsch)]. }
  set (k4 := upd_thread i (with_state SCDK_THREAD_RUNNING) k2).
  assert (valid_thread k4 i SCDK_THREAD_RUNNING false) as V4.
  { apply (upd_thread_valid k2 i _ SCDK_THREAD_NEW false); [done|done|apply Hm]. }
  assert (sched_env k4 L' hs') as HE4 by (by apply env_upd).
  exists i, L', hs'. split_and!; [| | |done|done].
  - split; try done; cbn [rs_current rs_dead rs_queue rs_driver].
    + simpl. by rewrite (gw_driver _ _ _ G).
    + split; [|by apply NoDup_nil_2|by intros t Ht'%elem_of_nil|].
      * eexists. split; [|exact boot_run_queue]. simpl. by rewrite (gw_queues _ _ _ G), B2.
      * simpl. rewrite length_alter, (gw_length _ _ _ G), B1. apply length_replicate.
    + intros t Ht'. split; [|done]. destruct (decide (t = i)) as [|Hne]; [done|exfalso].
      unfold state_of in Ht'. simpl in Ht'. rewrite list_lookup_alter_ne, (gw_others _ _ _ G), B1 in Ht' by done.
      apply fmap_Some in Ht' as (sl & Hsl & Hst). apply lookup_zeroed_inv in Hsl as ->. done.
    + intros t sl Hsl Hid Hst. simpl in Hsl. destruct (decide (t = i)) as [->|Hne].
      * rewrite list_lookup_alter_eq in Hsl. destruct (thread_table (k_sched k2) !! i); [|done].
        injection Hsl as <-. done.
      * rewrite list_lookup_alter_ne, (gw_others _ _ _ G), B1 in Hsl by done.
        apply lookup_zeroed_inv in Hsl as ->. done.
  - pose proof (se_kernel _ _ _ HE4) as Hk4.
    apply (env_frame k4); [done..| |exact (se_tasks _ _ _ HE4)].
    apply (kernel_wf_frame k4); [done..|]. destruct (kwf_sized _ Hk4). by split.
  - rewrite <-(tm_lookup _ _ _ _ _ _ _ _ Hm).
    apply (touched_cap k2 k4 (λ j, j = i)). by apply upd_thread_touched.
Qed.

(** ** Properties *)

(** A created thread is ready to start and disturbs nobody: whatever
    [scdk_thread_create] returns, it is free of undefined behaviour, every
    thread that runs or waits keeps its place, and the kernel invariants hold;
    a returned capability designates a NEW thread with a stack block of its own
    in which the first frame fits, 16-byte aligned; starting it succeeds and
    puts it at the end of the run queue. *)
Theorem thread_create_startable (k k' : kernel) (L : gmap Z label) (hs : blocks) (s : run_state)
  (task entry arg : Z) (r : result Z) (HE : sched_env k L hs) (HR : sched_rel k s)
  (Hrun : scdk_thread_create task entry arg k = (r, k')) :
  defined r ∧ sched_rel k' s ∧
  ∃ L' hs', sched_env k' L' hs' ∧
    ∀ c, r = Ok c → scdk_thread_state k' c = Ok SCDK_THREAD_NEW ∧
      (entry ≠ 0 → ∃ t slot k'', thread_table (k_sched k') !! t = Some slot ∧ stack_ok slot hs hs' ∧
         th_entry slot = entry ∧ th_arg slot = arg ∧ scdk_thread_start c k' = (Ok tt, k'') ∧
         sched_rel k'' (mk_run_state (rs_current s) (rs_dead s) (rs_queue s ++ [t]) (rs_driver s))).
Proof. exact (thread_create_rel k k' L hs s task entry arg r HE HR Hrun). Qed.

(** The boot thread runs: a successful [scdk_scheduler_init] on a
    scheduler that was never used leaves one RUNNING thread, the current one,
    with an empty run queue and no driver, so that the round-robin description
    applies from then on. *)
Theorem scheduler_init_boots (k k' : kernel) (L : gmap Z label) (hs : blocks) (task thread : Z)
  (HE : sched_env k L hs) (Hboot : k_sched k = boot_sched)
  (Hrun : scdk_scheduler_init k = (Ok (task, thread), k')) :
  ∃ i L' hs', sched_rel k' (mk_run_state i false [] None) ∧ sched_env k' L' hs' ∧
    thread_slot_for_cap k' thread = Ok i ∧
    current_task (k_sched k') = task ∧ current_thread (k_sched k') = thread.
Proof. exact (scheduler_init_rel k k' L hs task thread HE Hboot Hrun). Qed.

(** ** Witnesses *)
Lemma demo_env : sched_env demo_spaces demo_labels demo_blocks.
Proof.
  destruct demo_spaces_wf as [W1 W2 W3 W4 _ _]. split; try assumption.
  intros i slot Hi Ho. apply lookup_zeroed_inv in Hi. rewrite Hi in Ho. by destruct Ho.
Qed.

Definition demo_booted : kernel := (scdk_scheduler_init demo_spaces).2.
Definition demo_boot_caps : Z * Z :=
  match (scdk_scheduler_init demo_spaces).1 with Ok p => p | _ => (0, 0) end.

Lemma demo_boot_runs : scdk_scheduler_init demo_spaces = (Ok (demo_boot_caps.1, demo_boot_caps.2), demo_booted).
Proof. apply run_to; [reflexivity|]. vm_compute. reflexivity. Qed.

Lemma scheduler_init_boots_witness :
  ∃ i, sched_rel demo_booted (mk_run_state i false [] None).
Proof.
  destruct (scheduler_init_boots demo_spaces demo_booted demo_labels demo_blocks _ _ demo_env eq_refl demo_boot_runs)
    as (i & L' & hs' & H & _). exists i. exact H.
Defined.

(** A thread with entry function at 0x1000. *)
Definition demo_threaded : kernel := (scdk_thread_create demo_boot_caps.1 4096 7 demo_booted).2.
Definition demo_thread : Z :=
  match (scdk_thread_create demo_boot_caps.1 4096 7 demo_booted).1 with Ok c => c | _ => 0 end.

Lemma demo_thread_runs :
  scdk_thread_create demo_boot_caps.1 4096 7 demo_booted = (Ok demo_thread, demo_threaded).
Proof. apply run_to; [reflexivity|]. vm_compute. reflexivity. Qed.

Lemma thread_create_startable_witness :
  ∃ t s k'', scdk_thread_start demo_thread demo_threaded = (Ok tt, k'') ∧ sched_rel k'' s ∧ rs_queue s = [t].
Proof.
  destruct (scheduler_init_rel demo_spaces demo_booted demo_labels demo_blocks _ _ demo_env eq_refl demo_boot_runs)
    as (i & L' & hs' & HR & HE & _).
  destruct (thread_create_startable demo_booted demo_threaded L' hs' _ demo_boot_caps.1 4096 7 _ HE HR demo_thread_runs)
    as (_ & _ & L2 & hs2 & _ & H).
  destruct (H demo_thread eq_refl) as [_ H2]. destruct H2 as (t & slot & k'' & _ & _ & _ & _ & Hs & HR2); [lia|].
  exists t, (mk_run_state i false [t] None), k''. split; [exact Hs|]. split; [exact HR2|reflexivity].
Defined.

Definition demo_started : kernel := (scdk_thread_start demo_thread demo_threaded).2.
Definition demo_regs : scdk_thread_context := mk_context 1 2 3 4 5 6 7.

Lemma demo_start_runs : scdk_thread_start demo_thread demo_threaded = (Ok tt, demo_started).
Proof. apply run_to; [reflexivity|]. vm_compute. reflexivity. Qed.

Lemma demo_started_rel : ∃ s, sched_rel demo_started s ∧ rs_dead s = false ∧ ∃ t, rs_queue s = [t].
Proof.
  destruct (scheduler_init_rel demo_spaces demo_booted demo_labels demo_blocks _ _ demo_env eq_refl demo_boot_runs)
    as (i & L' & hs' & HR & HE & _).
  destruct (thread_create_rel demo_booted demo_threaded L' hs' _ demo_boot_caps.1 4096 7 _ HE HR demo_thread_runs)
    as (_ & HR1 & _).
  destruct (start_refines demo_threaded _ demo_thread _ _ HR1 demo_start_runs) as [[Hno _]|(_ & t & _ & _ & _ & HR2)].
  - by destruct Hno.
  - eexists. split; [exact HR2|]. split; [reflexivity|]. by exists t.
Qed.

Lemma yield_bounded_wait_witness :
  ∃ t k', yields [demo_regs] demo_started = (Ok tt, k') ∧ current_thread_slot (k_sched k') = Some t.
Proof.
  destruct demo_started_rel as (s & HR & _ & t & Hq).
  assert (rs_queue s !! 0%nat = Some t) as Hp by (rewrite Hq; reflexivity).
  destruct (yield_bounded_wait demo_started s 0 t [demo_regs] HR Hp eq_refl) as (k' & s' & H1 & _ & _ & H2 & _).
  exists t, k'. split; [exact H1|exact H2].
Defined.

Lemma sched_refines_round_robin_witness :
  ∃ s k', sched_step demo_started (Op_yield demo_regs) k' ∧ sched_rel k' s.
Proof.
  destruct demo_started_rel as (s & HR & Hl & _).
  set (k' := (scdk_yield demo_regs demo_started).2).
  assert (∃ c, scdk_yield demo_regs demo_started = (Ok c, k')) as [c Hy].
  { eexists. apply run_to; [reflexivity|]. vm_compute. reflexivity. }
  assert (sched_step demo_started (Op_yield demo_regs) k') as Hs by (eapply step_yield; exact Hy).
  destruct (sched_refines_round_robin demo_started k' [Op_yield demo_regs] s HR Hl) as (s' & _ & HR' & _).
  { eapply trace_cons; [exact Hs|apply trace_nil]. }
  exists s', k'. split; [exact Hs|exact HR'].
Defined.
