(* ===== verification/CString.v ===== *)
(** * Byte buffers and C strings ([src/kernel/string.c])

    A pointer to bytes is modelled by the bytes from it to the end of its
    object, so pointer arithmetic is [drop], a read past the end is [Ub], and
    [memcpy] takes the destination object with the index it writes at.
    [memmove] works inside one object, the case in which its two regions can
    overlap and comparing the pointers is meaningful. *)
From stdpp Require Import base list numbers.
From Stdlib Require Import ZArith Lia.
From S2P Require Import Prelude.

#[local] Open Scope Z_scope.

Definition byte (z : Z) : Prop := 0 <= z < 256.

(** [p[i]] read and written. *)
Definition load8 (p : list Z) (i : nat) : result Z := deref (p !! i).
Definition store8 (p : list Z) (i : nat) (v : Z) : result (list Z) :=
  match p !! i with Some _ => Ok (<[i := v]> p) | None => Ub end.

(** The loop of [memcpy] from index [i] on, [n] bytes to go. *)
Fixpoint memcpy_loop (d : list Z) (at_ : nat) (s : list Z) (i n : nat) : result (list Z) :=
  match n with
  | O => Ok d
  | S n =>
      let? v := load8 s i in
      let? d := store8 d (at_ + i) v in
      memcpy_loop d at_ s (S i) n
  end.
Definition memcpy (d : list Z) (at_ : nat) (s : list Z) (n : nat) : result (list Z) :=
  memcpy_loop d at_ s 0 n.

Fixpoint memset_loop (d : list Z) (c : Z) (i n : nat) : result (list Z) :=
  match n with
  | O => Ok d
  | S n => let? d := store8 d i (c mod 256) in memset_loop d c (S i) n
  end.
Definition memset (d : list Z) (c : Z) (n : nat) : result (list Z) := memset_loop d c 0 n.

(** [for (i = 0; i < n; i++) d[i] = s[i];] and
    [for (i = n; i > 0; i--) d[i - 1] = s[i - 1];] inside one object. *)
Fixpoint move_forward (p : list Z) (d s i n : nat) : result (list Z) :=
  match n with
  | O => Ok p
  | S n =>
      let? v := load8 p (s + i) in
      let? p := store8 p (d + i) v in
      move_forward p d s (S i) n
  end.
Fixpoint move_backward (p : list Z) (d s i : nat) : result (list Z) :=
  match i with
  | O => Ok p
  | S i =>
      let? v := load8 p (s + i) in
      let? p := store8 p (d + i) v in
      move_backward p d s i
  end.
Definition memmove (p : list Z) (d s n : nat) : result (list Z) :=
  if (d =? s)%nat || (n =? 0)%nat then Ok p
  else if (d <? s)%nat then move_forward p d s 0 n
  else move_backward p d s n.

Fixpoint memcmp_loop (l r : list Z) (i n : nat) : result Z :=
  match n with
  | O => Ok 0
  | S n =>
      let? a := load8 l i in
      let? b := load8 r i in
      if negb (a =? b) then Ok (a - b) else memcmp_loop l r (S i) n
  end.
Definition memcmp (l r : list Z) (n : nat) : result Z := memcmp_loop l r 0 n.

Fixpoint strlen (s : list Z) : result nat :=
  match s with
  | [] => Ub
  | c :: s => if c =? 0 then Ok O else let? n := strlen s in Ok (S n)
  end.

(** ** What the routines compute *)

(** The object [p] with the bytes from index [i] on replaced by [v]. *)
Definition patch (p : list Z) (i : nat) (v : list Z) : list Z :=
  take i p ++ v ++ drop (i + length v) p.

(** The bytes of the object that start with the string [s]. *)
Definition cstr (p s : list Z) : Prop :=
  Forall (λ c, c ≠ 0) s ∧ ∃ rest, p = s ++ 0 :: rest.

Lemma load8_Ok p i v : p !! i = Some v → load8 p i = Ok v.
Proof. unfold load8. by intros ->. Qed.

Lemma store8_Ok p i v : (i < length p)%nat → store8 p i v = Ok (<[i := v]> p).
Proof. intros [w H]%lookup_lt_is_Some. unfold store8. by rewrite H. Qed.

Lemma patch_nil p i : patch p i [] = p.
Proof. unfold patch. simpl. by rewrite Nat.add_0_r, take_drop. Qed.

Lemma patch_length p i v : (i + length v ≤ length p)%nat → length (patch p i v) = length p.
Proof. intros H. unfold patch. rewrite !length_app, length_take, length_drop. lia. Qed.

Lemma patch_lookup p i v j :
  (i + length v ≤ length p)%nat →
  patch p i v !! j = if decide (i ≤ j < i + length v)%nat then v !! (j - i)%nat else p !! j.
Proof.
  intros Hi. unfold patch. case_decide as Hj.
  - rewrite lookup_app_r by (rewrite length_take; lia). rewrite length_take_le by lia.
    by rewrite lookup_app_l by lia.
  - destruct (decide (j < i)%nat).
    + rewrite lookup_app_l by (rewrite length_take; lia). by rewrite lookup_take_lt by lia.
    + rewrite lookup_app_r by (rewrite length_take; lia). rewrite length_take_le by lia.
      rewrite lookup_app_r by lia. rewrite lookup_drop. f_equal. lia.
Qed.

(** Writing one more byte at either end of a patch. *)
Lemma patch_snoc p i v x :
  (i + length v < length p)%nat →
  <[(i + length v)%nat := x]> (patch p i v) = patch p i (v ++ [x]).
Proof.
  intros H. apply list_eq. intros j. rewrite list_lookup_insert, !patch_lookup, patch_length;
    rewrite ?length_app; simpl; try lia.
  repeat case_decide; try lia; try done.
  - rewrite lookup_app_r by lia. by replace (j - i - length v)%nat with 0%nat by lia.
  - by rewrite lookup_app_l by lia.
Qed.

Lemma patch_cons p i v x :
  (i + S (length v) ≤ length p)%nat →
  <[i := x]> (patch p (S i) v) = patch p i (x :: v).
Proof.
  intros H. apply list_eq. intros j. rewrite list_lookup_insert, !patch_lookup, patch_length;
    simpl; try lia.
  repeat case_decide; subst; try lia; try done.
  - by replace (j - i)%nat with 0%nat by lia.
  - by replace (j - i)%nat with (S (j - S i)) by lia.
Qed.

Lemma take_snoc (s : list Z) i v : s !! i = Some v → take i s ++ [v] = take (S i) s.
Proof. intros H. by rewrite (take_S_r _ _ v). Qed.

Lemma memcpy_loop_Ok n d d0 at_ s i :
  d = patch d0 at_ (take i s) → (at_ + i + n ≤ length d0)%nat → (i + n ≤ length s)%nat →
  memcpy_loop d at_ s i n = Ok (patch d0 at_ (take (i + n) s)).
Proof.
  revert d i. induction n as [|n IH]; intros d i -> Hd Hs; simpl.
  { by rewrite Nat.add_0_r. }
  destruct (lookup_lt_is_Some_2 s i) as [v Hv]; [lia|].
  assert (length (take i s) = i) as Hl by (rewrite length_take; lia).
  rewrite (load8_Ok _ _ v) by done. simpl. rewrite store8_Ok.
  2:{ rewrite patch_length; lia. }
  simpl. rewrite (IH _ (S i)); [by rewrite Nat.add_succ_r| |lia|lia].
  rewrite <-Hl at 1. rewrite patch_snoc by lia. by rewrite (take_snoc _ _ v).
Qed.

Lemma memcpy_Ok d at_ s n :
  (at_ + n ≤ length d)%nat → (n ≤ length s)%nat →
  memcpy d at_ s n = Ok (patch d at_ (take n s)).
Proof.
  intros Hd Hs. unfold memcpy. rewrite (memcpy_loop_Ok n d d); [done| |lia|lia].
  by rewrite take_0, patch_nil.
Qed.

Lemma memset_loop_Ok n d d0 c i :
  d = patch d0 0 (replicate i (c mod 256)) → (i + n ≤ length d0)%nat →
  memset_loop d c i n = Ok (patch d0 0 (replicate (i + n) (c mod 256))).
Proof.
  revert d i. induction n as [|n IH]; intros d i -> Hd; simpl.
  { by rewrite Nat.add_0_r. }
  rewrite store8_Ok by (rewrite patch_length; rewrite ?length_replicate; lia).
  simpl. rewrite (IH _ (S i)); [by rewrite Nat.add_succ_r| |lia].
  pose proof (patch_snoc d0 0 (replicate i (c mod 256)) (c mod 256)) as Hp.
  rewrite length_replicate, Nat.add_0_l in Hp. rewrite Hp by lia.
  by rewrite <-replicate_S_end.
Qed.

Lemma memset_Ok d c n :
  (n ≤ length d)%nat → memset d c n = Ok (patch d 0 (replicate n (c mod 256))).
Proof. intros H. unfold memset. rewrite (memset_loop_Ok n d d); [done|by rewrite patch_nil|lia]. Qed.

(** Going up, the bytes still to be read are untouched when the destination is
    below the source; going down, when it is above. *)
Lemma move_forward_Ok n p p0 d s i :
  p = patch p0 d (take i (drop s p0)) →
  (d < s)%nat → (d + i + n ≤ length p0)%nat → (s + i + n ≤ length p0)%nat →
  move_forward p d s i n = Ok (patch p0 d (take (i + n) (drop s p0))).
Proof.
  revert p i. induction n as [|n IH]; intros p i -> Hds Hd Hs; simpl.
  { by rewrite Nat.add_0_r. }
  destruct (lookup_lt_is_Some_2 p0 (s + i)) as [v Hv]; [lia|].
  assert (length (take i (drop s p0)) = i) as Hl by (rewrite length_take, length_drop; lia).
  rewrite (load8_Ok _ _ v).
  2:{ rewrite patch_lookup by lia. rewrite decide_False by lia. done. }
  simpl. rewrite store8_Ok by (rewrite patch_length; lia).
  simpl. rewrite (IH _ (S i)); [by rewrite Nat.add_succ_r| |lia|lia|lia].
  rewrite <-Hl at 1. rewrite patch_snoc by lia. rewrite (take_snoc _ _ v); [done|].
  by rewrite lookup_drop.
Qed.

Lemma move_backward_Ok i n p p0 d s :
  p = patch p0 (d + i) (take (n - i) (drop (s + i) p0)) → (i ≤ n)%nat →
  (s < d)%nat → (d + n ≤ length p0)%nat →
  move_backward p d s i = Ok (patch p0 d (take n (drop s p0))).
Proof.
  revert p. induction i as [|i IH]; intros p -> Hi Hds Hd; simpl.
  { by rewrite !Nat.add_0_r, Nat.sub_0_r. }
  destruct (lookup_lt_is_Some_2 p0 (s + i)) as [v Hv]; [lia|].
  assert (length (take (n - S i) (drop (s + S i) p0)) = n - S i)%nat as Hl
    by (rewrite length_take, length_drop; lia).
  rewrite (load8_Ok _ _ v).
  2:{ rewrite patch_lookup by lia. rewrite decide_False by lia. done. }
  simpl. rewrite store8_Ok by (rewrite patch_length; lia).
  simpl. apply IH; [|lia|lia|lia].
  replace (d + S i)%nat with (S (d + i)) by lia. rewrite patch_cons by lia.
  replace (n - i)%nat with (S (n - S i)) by lia. f_equal.
  rewrite (drop_S p0 v (s + i)) by done. simpl. by replace (s + S i)%nat with (S (s + i)) by lia.
Qed.

Lemma memmove_Ok p d s n :
  (d + n ≤ length p)%nat → (s + n ≤ length p)%nat →
  memmove p d s n = Ok (patch p d (take n (drop s p))).
Proof.
  intros Hd Hs. unfold memmove.
  destruct (Nat.eqb_spec d s) as [->|Hne]; simpl.
  { f_equal. apply list_eq. intros j.
    assert (length (take n (drop s p)) = n) as Hl by (rewrite length_take, length_drop; lia).
    rewrite patch_lookup by lia. rewrite Hl. case_decide; [|done].
    rewrite lookup_take_lt, lookup_drop by lia. f_equal. lia. }
  destruct (Nat.eqb_spec n 0) as [->|Hn]; simpl; [by rewrite take_0, patch_nil|].
  destruct (Nat.ltb_spec d s).
  - apply (move_forward_Ok n p p d s 0); [|lia..]. by rewrite take_0, patch_nil.
  - apply (move_backward_Ok n n p p d s); [|lia..]. by rewrite Nat.sub_diag, take_0, patch_nil.
Qed.

Lemma memcmp_loop_Ok n l r i :
  (i + n ≤ length l)%nat → (i + n ≤ length r)%nat →
  ∃ v, memcmp_loop l r i n = Ok v ∧ (v = 0 ↔ take n (drop i l) = take n (drop i r)).
Proof.
  revert i. induction n as [|n IH]; intros i Hl Hr; simpl; [by exists 0|].
  destruct (lookup_lt_is_Some_2 l i) as [a Ha]; [lia|].
  destruct (lookup_lt_is_Some_2 r i) as [b Hb]; [lia|].
  rewrite (load8_Ok _ _ a), (load8_Ok _ _ b) by done. simpl.
  rewrite (drop_S l a i), (drop_S r b i) by done. simpl.
  destruct (Z.eqb_spec a b) as [->|Hne]; simpl.
  - destruct (IH (S i)) as (v & Hv & Hz); [lia|lia|]. exists v. split; [done|].
    rewrite Hz. split; [by intros ->|by intros [= ->]].
  - exists (a - b). split; [done|]. split; [lia|]. intros [= ? _]. lia.
Qed.

Lemma memcmp_Ok l r n :
  (n ≤ length l)%nat → (n ≤ length r)%nat →
  ∃ v, memcmp l r n = Ok v ∧ (v = 0 ↔ take n l = take n r).
Proof. intros Hl Hr. exact (memcmp_loop_Ok n l r 0 Hl Hr). Qed.

Lemma strlen_Ok p s : cstr p s → strlen p = Ok (length s).
Proof.
  intros [Hs [rest ->]]. induction Hs as [|c s Hc Hs IH]; simpl; [done|].
  rewrite (proj2 (Z.eqb_neq c 0)) by done. by rewrite IH.
Qed.

Lemma cstr_length p s : cstr p s → (length s < length p)%nat.
Proof. intros [_ [rest ->]]. rewrite length_app. simpl. lia. Qed.

Lemma cstr_char p s i : cstr p s → (i ≤ length s)%nat → load8 p i = Ok (default 0 (s !! i)).
Proof.
  intros [_ [rest ->]] Hi. unfold load8.
  destruct (decide (i = length s)) as [->|].
  - rewrite lookup_app_r, Nat.sub_diag by lia. simpl.
    by rewrite (proj2 (lookup_ge_None s (length s))) by lia.
  - rewrite lookup_app_l by lia. destruct (lookup_lt_is_Some_2 s i) as [c Hc]; [lia|].
    by rewrite Hc.
Qed.

Lemma cstr_drop p s i : cstr p s → (i ≤ length s)%nat → cstr (drop i p) (drop i s).
Proof.
  intros [Hs [rest ->]] Hi. split; [by apply Forall_drop|]. exists rest.
  by rewrite drop_app_le.
Qed.

Lemma cstr_take p s n : cstr p s → (n ≤ length s)%nat → take n p = take n s.
Proof. intros [_ [rest ->]] Hn. by rewrite take_app_le. Qed.

Lemma cstr_inj p s s' : cstr p s → cstr p s' → s = s'.
Proof.
  intros H H'. pose proof (strlen_Ok _ _ H) as E. rewrite (strlen_Ok _ _ H') in E.
  injection E as E. rewrite <-(take_ge s (length s)), <-(take_ge s' (length s)) by lia.
  by rewrite <-(cstr_take _ _ _ H), <-(cstr_take _ _ _ H') by lia.
Qed.

(** A string copied with its terminator to the start of a buffer. *)
Lemma cstr_copy d p s : cstr p s → cstr (patch d 0 (take (length s + 1) p)) s.
Proof.
  intros [Hs [rest ->]]. split; [done|]. exists (drop (length s + 1) d). unfold patch.
  replace (s ++ 0 :: rest) with ((s ++ [0]) ++ rest) by (by rewrite <-app_assoc).
  rewrite take_app_length' by (rewrite length_app; simpl; lia).
  simpl. by rewrite <-app_assoc, length_app.
Qed.

(** [memmove] on overlapping regions of one object is the copy from an
    untouched snapshot of the object: it never leaves the object when both
    regions are inside it, and its result is exactly what [memcpy] gives when
    its source is a separate copy of the bytes. *)
Theorem memmove_is_snapshot_copy (p : list Z) (d s n : nat) :
  (d + n ≤ length p)%nat → (s + n ≤ length p)%nat →
  memmove p d s n = memcpy p d (drop s p) n ∧ is_Ok (memmove p d s n).
Proof.
  intros Hd Hs. rewrite memmove_Ok by done. split; [|by eexists].
  rewrite memcpy_Ok; [done|lia|]. rewrite length_drop. lia.
Qed.

Lemma memmove_is_snapshot_copy_witness :
  (2 + 4 ≤ length [1; 2; 3; 4; 5; 6])%nat ∧
  memmove [1; 2; 3; 4; 5; 6] 2 0 4 = memcpy [1; 2; 3; 4; 5; 6] 2 [1; 2; 3; 4; 5; 6] 4 ∧
  memmove [1; 2; 3; 4; 5; 6] 2 0 4 = Ok [1; 2; 1; 2; 3; 4].
Proof.
  split; [simpl; lia|]. split; [|reflexivity].
  apply (memmove_is_snapshot_copy [1; 2; 3; 4; 5; 6] 2 0 4); simpl; lia.
Defined.
