(* ===== verification/Initrd.v ===== *)
(** * The boot file system ([src/mm/initrd.c])

    The boot loader hands the kernel a ustar archive. [parse_tar_image] fills a
    table of at most 32 files whose data pointers point into the archive;
    [scdk_initrd_find], [scdk_initrd_stat] and [scdk_initrd_listdir] answer
    queries from that table, deriving directories from the slashes in the paths.

    Pointers to bytes are byte lists up to the end of their object (see
    [CString]); a possibly null pointer is an [option]. The archive is never
    written, so the data pointer of a file is the rest of the archive from its
    first byte. *)
From stdpp Require Import base list numbers.
From Stdlib Require Import ZArith Lia.
From S2P Require Import Prelude.
From S2P Require Import CString.

#[local] Open Scope Z_scope.
#[local] Arguments Nat.leb : simpl never.
#[local] Arguments Nat.ltb : simpl never.
#[local] Arguments Nat.eqb : simpl never.
#[local] Arguments drop : simpl never.

Definition SCDK_INITRD_MAX_FILES : nat := 32.
Definition SCDK_INITRD_MAX_PATH : nat := 128.
Definition SCDK_TAR_BLOCK_SIZE : Z := 512.
Definition SCDK_TAR_TYPE_FILE : Z := 48.
Definition SCDK_TAR_TYPE_OLD_FILE : Z := 0.
Definition SCDK_VFS_MAX_NAME : nat := 64.
Definition SCDK_VFS_NODE_FILE : Z := 1.
Definition SCDK_VFS_NODE_DIR : Z := 2.

(** Characters: [/], [.], space, ['0'] and ['7']. *)
Definition c_slash : Z := 47.
Definition c_dot : Z := 46.
Definition c_space : Z := 32.
Definition c_zero : Z := 48.
Definition c_seven : Z := 55.

(** ** Data *)

(** What the loader reports: the modules and, for each, its bytes and names. *)
Record limine_file : Type := {
  lf_address : option (list Z);
  lf_size : Z;
  lf_path : option (list Z);
  lf_string : option (list Z)
}.
Record limine_module_response : Type := {
  module_count : nat;
  modules : list (option limine_file)
}.

Record scdk_tar_header : Type := {
  th_name : list Z;
  th_mode : list Z;
  th_uid : list Z;
  th_gid : list Z;
  th_size : list Z;
  th_mtime : list Z;
  th_checksum : list Z;
  th_typeflag : Z;
  th_linkname : list Z;
  th_magic : list Z;
  th_version : list Z;
  th_uname : list Z;
  th_gname : list Z;
  th_devmajor : list Z;
  th_devminor : list Z;
  th_prefix : list Z;
  th_padding : list Z
}.

Definition field (p : list Z) (at_ size : nat) : list Z := take size (drop at_ p).

(** The cast of a byte pointer to a header: the packed layout of the struct,
    512 bytes in all. *)
Definition tar_header_at (p : list Z) : result scdk_tar_header :=
  match p !! 511%nat, p !! 156%nat with
  | Some _, Some typeflag => Ok {|
      th_name := field p 0 100;
      th_mode := field p 100 8;
      th_uid := field p 108 8;
      th_gid := field p 116 8;
      th_size := field p 124 12;
      th_mtime := field p 136 12;
      th_checksum := field p 148 8;
      th_typeflag := typeflag;
      th_linkname := field p 157 100;
      th_magic := field p 257 6;
      th_version := field p 263 2;
      th_uname := field p 265 32;
      th_gname := field p 297 32;
      th_devmajor := field p 329 8;
      th_devminor := field p 337 8;
      th_prefix := field p 345 155;
      th_padding := field p 500 12 |}
  | _, _ => Ub
  end.

Record scdk_initrd_entry : Type := {
  ie_path : list Z;
  ie_data : option (list Z);
  ie_size : Z;
  ie_flags : Z
}.
Definition entry_zero : scdk_initrd_entry :=
  {| ie_path := replicate SCDK_INITRD_MAX_PATH 0; ie_data := None; ie_size := 0; ie_flags := 0 |}.

(** The static variables of the file. *)
Record initrd : Type := {
  limine_modules : option limine_module_response;
  initrd_files : list scdk_initrd_entry;
  initrd_file_count : nat;
  initrd_initialized : bool
}.
Definition boot_initrd : initrd := {|
  limine_modules := None;
  initrd_files := replicate SCDK_INITRD_MAX_FILES entry_zero;
  initrd_file_count := 0;
  initrd_initialized := false |}.

Definition with_files (fs : list scdk_initrd_entry) (n : nat) (st : initrd) : initrd := {|
  limine_modules := limine_modules st;
  initrd_files := fs;
  initrd_file_count := n;
  initrd_initialized := initrd_initialized st |}.

Record scdk_vfs_stat : Type := { vs_type : Z; vs_size : Z }.
Record scdk_vfs_dirent : Type := { vd_name : list Z; vd_type : Z; vd_size : Z }.
Definition dirent_zero : scdk_vfs_dirent :=
  {| vd_name := replicate SCDK_VFS_MAX_NAME 0; vd_type := 0; vd_size := 0 |}.

(** ** Strings *)
Definition scdk_initrd_set_limine_response (r : option limine_module_response) : M initrd unit :=
  modify (λ st, {| limine_modules := r; initrd_files := initrd_files st;
                   initrd_file_count := initrd_file_count st;
                   initrd_initialized := initrd_initialized st |}).

Fixpoint memory_is_zero (p : list Z) (size : nat) {struct size} : result bool :=
  match size, p with
  | O, _ => Ok true
  | S _, [] => Ub
  | S size, c :: p => if negb (c =? 0) then Ok false else memory_is_zero p size
  end.

(** Both strings are read at every step, so a null or unterminated one matters. *)
Fixpoint str_eq_loop (a b : list Z) : result bool :=
  match a, b with
  | x :: a, y :: b =>
      if negb (x =? 0) && negb (y =? 0) then
        if negb (x =? y) then Ok false else str_eq_loop a b
      else Ok ((x =? 0) && (y =? 0))
  | _, _ => Ub
  end.
Definition str_eq (a b : option (list Z)) : result bool :=
  match a, b with
  | Some a, Some b => str_eq_loop a b
  | _, _ => Ok false
  end.

Definition str_ends_with (value suffix : option (list Z)) : result bool :=
  match value, suffix with
  | Some value, Some suffix =>
      let? value_len := strlen value in
      let? suffix_len := strlen suffix in
      if (value_len <? suffix_len)%nat then Ok false
      else
        let? v := memcmp (drop (value_len - suffix_len) value) suffix suffix_len in
        Ok (v =? 0)
  | _, _ => Ok false
  end.

Fixpoint octal_loop (s : list Z) (n : nat) (value : Z) (saw_digit : bool) {struct n} :
    result (Z * bool) :=
  match n, s with
  | O, _ => Ok (value, saw_digit)
  | S _, [] => Ub
  | S n, c :: s =>
      if (c =? 0) || (c =? c_space) then Ok (value, saw_digit)
      else if (c <? c_zero) || (c_seven <? c) then Err SCDK_ERR_INVAL
      else octal_loop s n (Z.lor (wrap64 (Z.shiftl value 3)) (c - c_zero)) true
  end.
Definition parse_octal (s : list Z) (field_size : nat) : result Z :=
  let? r := octal_loop s field_size 0 false in
  if negb r.2 then Err SCDK_ERR_INVAL else Ok r.1.

Fixpoint bounded_cstr_len (s : list Z) (max : nat) {struct max} : result nat :=
  match max, s with
  | O, _ => Ok O
  | S _, [] => Ub
  | S max, c :: s => if c =? 0 then Ok O else let? n := bounded_cstr_len s max in Ok (S n)
  end.

(** The buffer and the position are the in-out parameters. *)
Definition append_path_component (out : list Z) (out_size pos : nat)
    (component : list Z) (component_max : nat) : result (list Z * nat) :=
  let? _ := rguard (out_size =? 0)%nat SCDK_ERR_INVAL in
  let? component_len := bounded_cstr_len component component_max in
  if (component_len =? 0)%nat then Ok (out, pos)
  else
    let? _ := rguard (out_size <=? pos + component_len)%nat SCDK_ERR_BOUNDS in
    let? out := memcpy out pos component component_len in
    let? out := store8 out (pos + component_len) 0 in
    Ok (out, (pos + component_len)%nat).

Definition put_slash (out : list Z) (pos : nat) : result (list Z * nat) :=
  let? out := store8 out pos c_slash in
  let? out := store8 out (S pos) 0 in
  Ok (out, S pos).

(** The slash between a non-empty prefix and the name. *)
Definition append_separator (out : list Z) (out_size pos : nat) : result (list Z * nat) :=
  if (1 <? pos)%nat then
    let? _ := rguard (out_size <=? pos + 1)%nat SCDK_ERR_BOUNDS in
    put_slash out pos
  else Ok (out, pos).

(** The name without a leading [./]. *)
Definition append_tar_name (name out : list Z) (out_size pos : nat) : result (list Z * nat) :=
  let? c0 := load8 name 0 in
  let? dot_slash :=
    if c0 =? c_dot then let? c1 := load8 name 1 in Ok (c1 =? c_slash) else Ok false in
  if dot_slash then append_path_component out out_size pos (drop 2 name) (100 - 2)
  else append_path_component out out_size pos name 100.

Definition normalize_tar_path (header : scdk_tar_header) (out : list Z) (out_size : nat) :
    result (list Z) :=
  let? _ := rguard (out_size <? 2)%nat SCDK_ERR_INVAL in
  let? r := put_slash out 0 in
  let? r := append_path_component r.1 out_size r.2 (th_prefix header) 155 in
  let? r := append_separator r.1 out_size r.2 in
  let? r := append_tar_name (th_name header) r.1 out_size r.2 in
  let? _ := rguard (r.2 <=? 1)%nat SCDK_ERR_NOENT in
  Ok r.1.

Definition tar_header_is_file (header : scdk_tar_header) : bool :=
  (th_typeflag header =? SCDK_TAR_TYPE_FILE) || (th_typeflag header =? SCDK_TAR_TYPE_OLD_FILE).

(** ** Parsing the archive *)
Definition remember_file (path : list Z) (data : option (list Z)) (size : Z) : M initrd unit :=
  let* count := gets initrd_file_count in
  guard (match data with None => true | Some _ => false end ||
         (SCDK_INITRD_MAX_FILES <=? count)%nat) SCDK_ERR_NOMEM ;;
  let* entry := query (λ st, deref (initrd_files st !! count)) in
  modify (λ st, with_files (initrd_files st) (S count) st) ;;
  let* n := lift (strlen path) in
  let* epath := lift (memcpy (ie_path entry) 0 path (n + 1)) in
  modify (λ st,
    with_files
      (<[count := {| ie_path := epath; ie_data := data; ie_size := size; ie_flags := 0 |}]>
         (initrd_files st)) (initrd_file_count st) st).

(** [(file_size + 512 - 1) & ~511] in [uint64_t]. *)
Definition padded_size (file_size : Z) : Z :=
  Z.land (wrap64 (wrap64 (file_size + SCDK_TAR_BLOCK_SIZE) - 1))
         (not64 (SCDK_TAR_BLOCK_SIZE - 1)).

(** The body for one archive member; the result is the next offset. The bytes
    of the local [path] buffer are taken to be zero before it is written. *)
Definition parse_tar_member (base : list Z) (size offset : Z) (header : scdk_tar_header) :
    M initrd Z :=
  let data_offset := wrap64 (offset + SCDK_TAR_BLOCK_SIZE) in
  let* file_size := lift (parse_octal (th_size header) 12) in
  let padded := padded_size file_size in
  guard ((size <? data_offset) || (wrap64 (size - data_offset) <? padded)) SCDK_ERR_BOUNDS ;;
  (if tar_header_is_file header then
     let* path := lift (normalize_tar_path header (replicate SCDK_INITRD_MAX_PATH 0)
                          SCDK_INITRD_MAX_PATH) in
     remember_file path (Some (drop (Z.to_nat data_offset) base)) file_size
   else ret tt) ;;
  ret (wrap64 (data_offset + padded)).

Fixpoint parse_tar_loop (fuel : nat) (base : list Z) (size offset : Z) : M initrd unit :=
  match fuel with
  | O => ub
  | S fuel =>
      if negb (wrap64 (offset + SCDK_TAR_BLOCK_SIZE) <=? size) then ret tt
      else
        let p := drop (Z.to_nat offset) base in
        let* zero := lift (memory_is_zero p 512) in
        if zero then ret tt
        else
          let* header := lift (tar_header_at p) in
          let* offset := parse_tar_member base size offset header in
          parse_tar_loop fuel base size offset
  end.

(** Each turn moves the offset by at least a block, so the fuel is one turn
    per block and one for the last test. *)
Definition parse_tar_image (base : list Z) (size : Z) : M initrd unit :=
  guard (size <? SCDK_TAR_BLOCK_SIZE) SCDK_ERR_INVAL ;;
  modify (with_files (replicate SCDK_INITRD_MAX_FILES entry_zero) 0) ;;
  parse_tar_loop (S (Z.to_nat (size / SCDK_TAR_BLOCK_SIZE))) base size 0 ;;
  let* count := gets initrd_file_count in
  guard (count =? 0)%nat SCDK_ERR_NOENT.

(** ["scdk.initrd"] and ["/scdk.initrd"]. *)
Definition initrd_name : list Z := [115; 99; 100; 107; 46; 105; 110; 105; 116; 114; 100; 0].

Fixpoint find_module_loop (l : list (option limine_file)) (n : nat) {struct n} :
    result (option limine_file) :=
  match n, l with
  | O, _ => Ok None
  | S _, [] => Ub
  | S n, None :: l => find_module_loop l n
  | S n, Some file :: l =>
      let? named := str_eq (lf_string file) (Some initrd_name) in
      let? ends :=
        if named then Ok true
        else str_ends_with (lf_path file) (Some (c_slash :: initrd_name)) in
      if ends then Ok (Some file) else find_module_loop l n
  end.
Definition find_initrd_module (st : initrd) : result (option limine_file) :=
  match limine_modules st with
  | None => Ok None
  | Some r =>
      if (module_count r =? 0)%nat then Ok None
      else
        let? found := find_module_loop (modules r) (module_count r) in
        match found with
        | Some file => Ok (Some file)
        | None => deref (modules r !! 0%nat)
        end
  end.

Definition scdk_initrd_init_from_limine : M initrd unit :=
  let* module := query find_initrd_module in
  match module with
  | Some {| lf_address := Some address; lf_size := size |} =>
      guard (size =? 0) SCDK_ERR_NOENT ;;
      parse_tar_image address size ;;
      modify (λ st, {| limine_modules := limine_modules st; initrd_files := initrd_files st;
                       initrd_file_count := initrd_file_count st; initrd_initialized := true |})
  | _ => fail SCDK_ERR_NOENT
  end.

(** ** Queries *)

(** [for (i = 0; i < initrd_file_count; i++) if (p(initrd_files[i])) ...return] *)
Fixpoint first_file (p : scdk_initrd_entry → result bool) (files : list scdk_initrd_entry)
    (n : nat) {struct n} : result (option scdk_initrd_entry) :=
  match n, files with
  | O, _ => Ok None
  | S _, [] => Ub
  | S n, f :: files =>
      let? b := p f in
      if b then Ok (Some f) else first_file p files n
  end.

Definition scdk_initrd_find (st : initrd) (path : list Z) : result scdk_initrd_entry :=
  let? _ := rguard (negb (initrd_initialized st)) SCDK_ERR_NOTSUP in
  let? f := first_file (λ f, str_eq (Some path) (Some (ie_path f)))
              (initrd_files st) (initrd_file_count st) in
  match f with Some f => Ok f | None => Err SCDK_ERR_NOENT end.

Fixpoint trim_slashes (path : list Z) (len : nat) : result nat :=
  match len with
  | S (S _ as l) =>
      let? c := load8 path l in
      if c =? c_slash then trim_slashes path l else Ok len
  | _ => Ok len
  end.
Definition normalized_query_len (path : list Z) : result nat :=
  let? len := strlen path in trim_slashes path len.

Definition path_eq_len (path query : list Z) (query_len : nat) : result bool :=
  let? n := strlen path in
  if (n =? query_len)%nat then let? v := memcmp path query query_len in Ok (v =? 0)
  else Ok false.

Definition path_has_dir_prefix (path query : list Z) (query_len : nat) : result bool :=
  let? root := if (query_len =? 1)%nat then let? c := load8 query 0 in Ok (c =? c_slash)
               else Ok false in
  if root then
    let? c := load8 path 0 in
    if c =? c_slash then let? c1 := load8 path 1 in Ok (negb (c1 =? 0)) else Ok false
  else
    let? n := strlen path in
    if (query_len + 1 <? n)%nat then
      let? v := memcmp path query query_len in
      if v =? 0 then let? c := load8 path query_len in Ok (c =? c_slash) else Ok false
    else Ok false.

Definition dirent_name_eq (lhs rhs : list Z) (rhs_len : nat) : result bool :=
  let? n := strlen lhs in
  if (n =? rhs_len)%nat then let? v := memcmp lhs rhs rhs_len in Ok (v =? 0) else Ok false.

Definition scdk_initrd_stat (st : initrd) (path : list Z) : result scdk_vfs_stat :=
  let? _ := rguard (negb (initrd_initialized st)) SCDK_ERR_NOTSUP in
  let? c := load8 path 0 in
  let? _ := rguard (negb (c =? c_slash)) SCDK_ERR_INVAL in
  let? query_len := normalized_query_len path in
  if (query_len =? 1)%nat then Ok {| vs_type := SCDK_VFS_NODE_DIR; vs_size := 0 |}
  else
    let? f := first_file (λ f, path_eq_len (ie_path f) path query_len)
                (initrd_files st) (initrd_file_count st) in
    match f with
    | Some f => Ok {| vs_type := SCDK_VFS_NODE_FILE; vs_size := ie_size f |}
    | None =>
        let? f := first_file (λ f, path_has_dir_prefix (ie_path f) path query_len)
                    (initrd_files st) (initrd_file_count st) in
        match f with
        | Some _ => Ok {| vs_type := SCDK_VFS_NODE_DIR; vs_size := 0 |}
        | None => Err SCDK_ERR_NOENT
        end
    end.

(** [for (i = 0; i < *inout_count; i++)]: the index of the entry of that name. *)
Fixpoint find_dirent (entries : list scdk_vfs_dirent) (n : nat) (name : list Z) (name_len : nat)
    {struct n} : result (option nat) :=
  match n, entries with
  | O, _ => Ok None
  | S _, [] => Ub
  | S n, e :: entries =>
      let? b := dirent_name_eq (vd_name e) name name_len in
      if b then Ok (Some O)
      else let? r := find_dirent entries n name name_len in Ok (S <$> r)
  end.

(** The state is the caller's array; the result the new count. *)
Definition add_dirent (capacity count : nat) (name : list Z) (name_len : nat) (type size : Z) :
    M (list scdk_vfs_dirent) nat :=
  guard (name_len =? 0)%nat SCDK_ERR_INVAL ;;
  guard (SCDK_VFS_MAX_NAME <=? name_len)%nat SCDK_ERR_BOUNDS ;;
  let* found := query (λ entries, find_dirent entries count name name_len) in
  match found with
  | Some i =>
      (if type =? SCDK_VFS_NODE_DIR then
         modify (alter (λ e, {| vd_name := vd_name e; vd_type := SCDK_VFS_NODE_DIR; vd_size := 0 |}) i)
       else ret tt) ;;
      ret count
  | None =>
      guard (capacity <=? count)%nat SCDK_ERR_BOUNDS ;;
      let* _ := query (λ entries, deref (entries !! count)) in
      let* ename := lift (memcpy (vd_name dirent_zero) 0 name name_len) in
      let* ename := lift (store8 ename name_len 0) in
      modify (<[count := {| vd_name := ename; vd_type := type; vd_size := size |}]>) ;;
      ret (count + 1)%nat
  end.

(** [while (slash[name_len] != '\0' && slash[name_len] != '/') name_len++;] *)
Fixpoint name_span (s : list Z) : result nat :=
  match s with
  | [] => Ub
  | c :: s =>
      if negb (c =? 0) && negb (c =? c_slash) then let? n := name_span s in Ok (S n) else Ok O
  end.

(** The body of the loop for one file. *)
Definition list_file (path : list Z) (query_len capacity count : nat) (f : scdk_initrd_entry) :
    M (list scdk_vfs_dirent) nat :=
  let* inside := lift (path_has_dir_prefix (ie_path f) path query_len) in
  if negb inside then ret count
  else
    let remainder :=
      if (query_len =? 1)%nat then drop 1 (ie_path f) else drop (query_len + 1) (ie_path f) in
    let* c := lift (load8 remainder 0) in
    if c =? 0 then ret count
    else
      let* name_len := lift (name_span remainder) in
      let* e := lift (load8 remainder name_len) in
      let dir := e =? c_slash in
      add_dirent capacity count remainder name_len
        (if dir then SCDK_VFS_NODE_DIR else SCDK_VFS_NODE_FILE)
        (if dir then 0 else ie_size f).

Fixpoint list_loop (path : list Z) (query_len capacity count : nat)
    (files : list scdk_initrd_entry) (n : nat) {struct n} : M (list scdk_vfs_dirent) nat :=
  match n, files with
  | O, _ => ret count
  | S _, [] => ub
  | S n, f :: files =>
      let* count := list_file path query_len capacity count f in
      list_loop path query_len capacity count files n
  end.

Definition scdk_initrd_listdir (st : initrd) (path : list Z) (capacity : nat) :
    M (list scdk_vfs_dirent) nat :=
  guard (negb (initrd_initialized st)) SCDK_ERR_NOTSUP ;;
  guard (capacity =? 0)%nat SCDK_ERR_INVAL ;;
  let* c := lift (load8 path 0) in
  guard (negb (c =? c_slash)) SCDK_ERR_INVAL ;;
  let* query_len := lift (normalized_query_len path) in
  let* stat := lift (scdk_initrd_stat st path) in
  guard (negb (vs_type stat =? SCDK_VFS_NODE_DIR)) SCDK_ERR_NOTSUP ;;
  let* _ := query (λ entries, deref (entries !! (capacity - 1)%nat)) in
  modify (λ entries, replicate capacity dirent_zero ++ drop capacity entries) ;;
  list_loop path query_len capacity 0 (initrd_files st) (initrd_file_count st).

(** ** The table as a list of files *)

(** A table entry holds the file with path [s] and contents [d]. *)
Definition entry_rep (f : scdk_initrd_entry) (x : list Z * list Z) : Prop :=
  cstr (ie_path f) x.1 ∧ length (ie_path f) = SCDK_INITRD_MAX_PATH ∧
  (∃ c rest, x.1 = c_slash :: c :: rest) ∧
  (∃ rest, ie_data f = Some (x.2 ++ rest)) ∧
  ie_size f = Z.of_nat (length x.2) ∧ ie_flags f = 0.

(** The table holds exactly the files [fs], in order; free entries are zero. *)
Record initrd_rep (st : initrd) (fs : list (list Z * list Z)) : Prop := {
  rep_entries : ∃ es, initrd_files st = es ++ replicate (SCDK_INITRD_MAX_FILES - length fs) entry_zero ∧
    Forall2 entry_rep es fs;
  rep_count : initrd_file_count st = length fs;
  rep_max : (length fs ≤ SCDK_INITRD_MAX_FILES)%nat
}.

(** The file a pointer to a table entry gives access to. *)
Definition file_bytes (f : scdk_initrd_entry) : option (list Z) :=
  take (Z.to_nat (ie_size f)) <$> ie_data f.

Lemma entry_rep_bytes f x : entry_rep f x → file_bytes f = Some x.2.
Proof.
  intros (_ & _ & _ & [rest Hd] & Hs & _). unfold file_bytes. rewrite Hd, Hs. simpl.
  by rewrite Nat2Z.id, take_app_length.
Qed.

Lemma boot_initrd_rep : initrd_rep boot_initrd [].
Proof. split; [|done|simpl; lia]. exists []. split; [done|constructor]. Qed.

Lemma reset_rep st : initrd_rep (with_files (replicate SCDK_INITRD_MAX_FILES entry_zero) 0 st) [].
Proof. split; [|done|simpl; lia]. exists []. split; [done|constructor]. Qed.

(** *** Reading the header *)
Lemma memory_is_zero_defined p n :
  (n ≤ length p)%nat → ∃ b, memory_is_zero p n = Ok b.
Proof.
  revert p. induction n as [|n IH]; intros [|c p] H; simpl in *; try (by eexists); [lia|].
  destruct (negb (c =? 0)); [by eexists|]. apply IH. lia.
Qed.

Lemma memory_is_zero_false p n i c :
  (n ≤ length p)%nat → (i < n)%nat → p !! i = Some c → c ≠ 0 → memory_is_zero p n = Ok false.
Proof.
  revert n i. induction p as [|x p IH]; intros [|n] [|i] Hn Hi Hc Hz; simpl in *; try lia; try done.
  - injection Hc as ->. by rewrite (proj2 (Z.eqb_neq c 0)).
  - destruct (negb (x =? 0)); [done|]. apply (IH n i); [lia|lia|done|done].
Qed.

Lemma memory_is_zero_zeros n m rest :
  (n ≤ m)%nat → memory_is_zero (replicate m 0 ++ rest) n = Ok true.
Proof.
  revert m. induction n as [|n IH]; intros [|m] H; simpl; try lia; [done|done|]. apply IH. lia.
Qed.

#[local] Arguments memory_is_zero : simpl never.

Lemma field_length p i n : (i + n ≤ length p)%nat → length (field p i n) = n.
Proof. intros H. unfold field. rewrite length_take, length_drop. lia. Qed.

Lemma tar_header_at_Ok p :
  (512 ≤ length p)%nat →
  ∃ h, tar_header_at p = Ok h ∧ length (th_name h) = 100%nat ∧ length (th_prefix h) = 155%nat ∧
    length (th_size h) = 12%nat.
Proof.
  intros H. unfold tar_header_at.
  destruct (lookup_lt_is_Some_2 p 511) as [a ->]; [lia|].
  destruct (lookup_lt_is_Some_2 p 156) as [b ->]; [lia|].
  eexists. split; [done|]. simpl. by rewrite !field_length by lia.
Qed.

(** *** Octal sizes *)
Lemma octal_push v c k :
  0 <= v < 8 ^ k → 0 <= k → 8 ^ (k + 1) <= two64 → 0 <= c < 8 →
  Z.lor (wrap64 (Z.shiftl v 3)) c = v * 8 + c ∧ 0 <= v * 8 + c < 8 ^ (k + 1).
Proof.
  intros Hv Hk Hb Hc. rewrite Z.pow_add_r in Hb |- * by lia. change (8 ^ 1) with 8 in *.
  unfold wrap64. rewrite Z.shiftl_mul_pow2 by lia. change (2 ^ 3) with 8.
  rewrite Z.mod_small by lia. split; [|lia].
  pose proof (lor_disjoint_add v c 3 ltac:(lia) ltac:(done)) as E.
  by rewrite Z.shiftl_mul_pow2 in E by lia.
Qed.

Lemma octal_loop_defined n s v b k :
  (n ≤ length s)%nat → 0 <= v < 8 ^ k → 0 <= k → k + Z.of_nat n <= 21 →
  match octal_loop s n v b with
  | Ok r => 0 <= r.1 < 8 ^ (k + Z.of_nat n)
  | Err e => e = SCDK_ERR_INVAL
  | Ub => False
  end.
Proof.
  revert s v b k. induction n as [|n IH]; intros s v b k Hn Hv Hk Hkn; simpl.
  { by rewrite Z.add_0_r. }
  destruct s as [|c s]; simpl in Hn; [lia|].
  destruct ((c =? 0) || (c =? c_space)) eqn:Hend; simpl.
  { split; [lia|]. apply Z.lt_le_trans with (8 ^ k); [lia|]. apply Z.pow_le_mono_r; lia. }
  destruct ((c <? c_zero) || (c_seven <? c)) eqn:Hd; [done|]. bsplit.
  unfold c_zero, c_seven in *.
  assert (8 ^ (k + 1) <= 8 ^ 21) by (apply Z.pow_le_mono_r; lia).
  destruct (octal_push v (c - 48) k) as [-> Hlt]; [done|done| |lia|].
  { apply Z.le_trans with (8 ^ 21); [done|]. vm_compute. discriminate. }
  replace (k + Z.of_nat (S n)) with (k + 1 + Z.of_nat n) by lia.
  apply IH; [lia|done|lia|lia].
Qed.

Lemma parse_octal_defined s :
  (12 ≤ length s)%nat →
  match parse_octal s 12 with
  | Ok v => 0 <= v < 68719476736
  | Err e => e = SCDK_ERR_INVAL
  | Ub => False
  end.
Proof.
  intros H. unfold parse_octal.
  pose proof (octal_loop_defined 12 s 0 false 0 H ltac:(done) ltac:(lia) ltac:(lia)) as Hl.
  destruct (octal_loop s 12 0 false) as [[v b]| |]; simpl in *; [|done|done].
  destruct b; simpl; [|done]. exact Hl.
Qed.

(** *** Paths *)

(** The string a fixed-width field holds. *)
Fixpoint until_nul (s : list Z) : list Z :=
  match s with [] => [] | c :: s => if c =? 0 then [] else c :: until_nul s end.

Lemma until_nul_nonzero s : Forall (λ c, c ≠ 0) (until_nul s).
Proof.
  induction s as [|c s IH]; simpl; [constructor|].
  destruct (Z.eqb_spec c 0); by constructor.
Qed.

Lemma until_nul_prefix s : take (length (until_nul s)) s = until_nul s.
Proof. induction s as [|c s IH]; simpl; [done|]. destruct (c =? 0); simpl; [done|]. by rewrite IH. Qed.

Lemma until_nul_length s : (length (until_nul s) ≤ length s)%nat.
Proof. induction s as [|c s IH]; simpl; [lia|]. destruct (c =? 0); simpl; lia. Qed.

Lemma until_nul_padded s n : Forall (λ c, c ≠ 0) s → until_nul (s ++ replicate n 0) = s.
Proof.
  intros Hs. induction Hs as [|c s Hc Hs IH]; simpl; [by destruct n|].
  rewrite (proj2 (Z.eqb_neq c 0)) by done. by rewrite IH.
Qed.

Lemma bounded_cstr_len_Ok s n :
  n = length s → bounded_cstr_len s n = Ok (length (until_nul s)).
Proof.
  intros ->. induction s as [|c s IH]; simpl; [done|]. destruct (c =? 0); [done|].
  rewrite IH. done.
Qed.

(** The buffer holds the string [s] and the position is at its end. *)
Definition path_buf (out : list Z) (pos : nat) (s : list Z) : Prop :=
  length out = SCDK_INITRD_MAX_PATH ∧ cstr out s ∧ pos = length s.

Lemma path_buf_extend out pos s t :
  path_buf out pos s → Forall (λ c, c ≠ 0) t →
  (length (s ++ t) < SCDK_INITRD_MAX_PATH)%nat →
  ∃ out2, store8 (patch out pos t) (pos + length t) 0 = Ok out2 ∧ path_buf out2 (pos + length t) (s ++ t).
Proof.
  intros (Hlen & [Hs [rest Hout]] & ->) Ht Hb. rewrite length_app in Hb.
  rewrite store8_Ok by (rewrite patch_length; lia). eexists. split; [done|].
  rewrite patch_snoc by lia. split.
  { rewrite patch_length; [done|]. rewrite length_app. simpl. lia. }
  split; [|by rewrite length_app]. split; [by apply Forall_app|].
  exists (drop (length s + length (t ++ [0])) out). unfold patch.
  rewrite Hout at 1. rewrite take_app_length, <-!app_assoc. done.
Qed.

Lemma append_path_component_Ok out pos s comp n :
  path_buf out pos s → n = length comp →
  (length (s ++ until_nul comp) < SCDK_INITRD_MAX_PATH)%nat →
  ∃ out', append_path_component out SCDK_INITRD_MAX_PATH pos comp n =
    Ok (out', (pos + length (until_nul comp))%nat) ∧
    path_buf out' (pos + length (until_nul comp)) (s ++ until_nul comp).
Proof.
  intros Hb Hn Hlt. pose proof Hb as (Hlen & Hc & Hpos).
  pose proof (until_nul_length comp) as Hul. rewrite length_app in Hlt.
  unfold append_path_component. rewrite (bounded_cstr_len_Ok comp n Hn). rewrite rpass by done. simpl rbind.
  destruct (Nat.eqb_spec (length (until_nul comp)) 0) as [H0|H0].
  - apply nil_length_inv in H0. rewrite H0. exists out. simpl.
    rewrite Nat.add_0_r, app_nil_r. done.
  - rewrite rpass by (apply Nat.leb_gt; lia). rewrite memcpy_Ok by lia. simpl rbind. rewrite until_nul_prefix.
    destruct (path_buf_extend out pos s (until_nul comp) Hb (until_nul_nonzero comp))
      as (out2 & -> & H2); [rewrite length_app; lia|].
    by exists out2.
Qed.

Lemma append_path_component_Err out pos s comp n :
  path_buf out pos s → n = length comp →
  (SCDK_INITRD_MAX_PATH ≤ length (s ++ until_nul comp))%nat →
  append_path_component out SCDK_INITRD_MAX_PATH pos comp n = Err SCDK_ERR_BOUNDS.
Proof.
  intros Hb Hn Hge. pose proof Hb as (Hlen & Hc & Hpos). apply cstr_length in Hc.
  rewrite length_app in Hge. unfold append_path_component.
  rewrite (bounded_cstr_len_Ok comp n Hn). rewrite rpass by done. simpl rbind.
  rewrite (proj2 (Nat.eqb_neq _ _)) by lia. by rewrite rstop by (apply Nat.leb_le; lia).
Qed.

Lemma put_slash_Ok out pos s :
  path_buf out pos s → (S (length s) < SCDK_INITRD_MAX_PATH)%nat →
  ∃ out', put_slash out pos = Ok (out', S pos) ∧ path_buf out' (S pos) (s ++ [c_slash]).
Proof.
  intros Hb Hlt. pose proof Hb as (Hlen & _ & Hpos). unfold put_slash.
  rewrite store8_Ok by lia. simpl.
  pose proof (patch_snoc out pos [] c_slash) as Hp. simpl in Hp.
  rewrite Nat.add_0_r, patch_nil in Hp. rewrite Hp by lia.
  destruct (path_buf_extend out pos s [c_slash] Hb) as (out2 & H2 & Hb2).
  - by repeat constructor.
  - rewrite length_app. simpl. lia.
  - simpl in H2, Hb2. rewrite Nat.add_1_r in H2, Hb2. rewrite H2. simpl. by exists out2.
Qed.

(** The absolute path a header stands for. *)
Definition strip_dot_slash (name : list Z) : list Z :=
  match name with
  | c0 :: c1 :: rest => if (c0 =? c_dot) && (c1 =? c_slash) then rest else name
  | _ => name
  end.
Definition tar_path (prefix name : list Z) : list Z :=
  let p := until_nul prefix in
  let n := until_nul (strip_dot_slash name) in
  [c_slash] ++ p ++ (match p with [] => [] | _ => [c_slash] end) ++ n.

Lemma tar_path_slash prefix name : ∃ rest, tar_path prefix name = c_slash :: rest.
Proof. by eexists. Qed.

Lemma dot_slash_test (name : list Z) :
  (2 ≤ length name)%nat →
  ∃ b, (let? c0 := load8 name 0 in
        if c0 =? c_dot then let? c1 := load8 name 1 in Ok (c1 =? c_slash) else Ok false) = Ok b ∧
    strip_dot_slash name = if b then drop 2 name else name.
Proof.
  destruct name as [|c0 [|c1 rest]]; simpl; try lia. intros _.
  destruct (c0 =? c_dot); simpl; [|by eexists]. destruct (c1 =? c_slash); by eexists.
Qed.

Lemma append_tar_name_run out pos s name :
  path_buf out pos s → length name = 100%nat →
  match append_tar_name name out SCDK_INITRD_MAX_PATH pos with
  | Ok (out', pos') => path_buf out' pos' (s ++ until_nul (strip_dot_slash name))
  | Err e => e = SCDK_ERR_BOUNDS ∧
      (SCDK_INITRD_MAX_PATH ≤ length (s ++ until_nul (strip_dot_slash name)))%nat
  | Ub => False
  end.
Proof.
  intros Hb Hl. unfold append_tar_name.
  destruct (dot_slash_test name) as (b & Ht & Hs); [lia|].
  destruct (load8 name 0) as [c0| |]; [|done|done]. simpl rbind in *. rewrite Ht. simpl rbind.
  set (comp := strip_dot_slash name) in *.
  replace (if b then _ else _) with
    (append_path_component out SCDK_INITRD_MAX_PATH pos comp (length comp)).
  2:{ destruct b; rewrite Hs, ?length_drop, Hl; done. }
  destruct (decide (length (s ++ until_nul comp) < SCDK_INITRD_MAX_PATH)%nat).
  - destruct (append_path_component_Ok out pos s comp (length comp)) as (out' & -> & H'); done.
  - rewrite (append_path_component_Err out pos s comp (length comp)); [split; [done|lia]|done|done|lia].
Qed.

Lemma append_separator_run out p :
  path_buf out (S (length p)) ([c_slash] ++ p) →
  match append_separator out SCDK_INITRD_MAX_PATH (S (length p)) with
  | Ok (out', pos') =>
      path_buf out' pos' ([c_slash] ++ p ++ match p with [] => [] | _ => [c_slash] end)
  | Err e => e = SCDK_ERR_BOUNDS ∧ p ≠ [] ∧ (SCDK_INITRD_MAX_PATH ≤ length p + 2)%nat
  | Ub => False
  end.
Proof.
  intros Hb. unfold append_separator. destruct p as [|c p]; [done|].
  rewrite (proj2 (Nat.ltb_lt _ _)) by (simpl; lia).
  destruct (decide (S (length (c :: p)) + 1 < SCDK_INITRD_MAX_PATH)%nat).
  - rewrite rpass by (apply Nat.leb_gt; lia).
    destruct (put_slash_Ok out (S (length (c :: p))) _ Hb) as (out' & -> & H');
      [simpl in *; lia|]. by rewrite <-app_assoc in H'.
  - rewrite rstop by (apply Nat.leb_le; lia). split; [done|]. split; [done|lia].
Qed.

(** [normalize_tar_path] computes [tar_path], and fails exactly when it does not
    fit or is empty. *)
Lemma normalize_tar_path_run h :
  length (th_name h) = 100%nat → length (th_prefix h) = 155%nat →
  match normalize_tar_path h (replicate SCDK_INITRD_MAX_PATH 0) SCDK_INITRD_MAX_PATH with
  | Ok out => path_buf out (length (tar_path (th_prefix h) (th_name h)))
                (tar_path (th_prefix h) (th_name h)) ∧
      (1 < length (tar_path (th_prefix h) (th_name h)))%nat
  | Err SCDK_ERR_BOUNDS => (SCDK_INITRD_MAX_PATH ≤ length (tar_path (th_prefix h) (th_name h)))%nat
  | Err SCDK_ERR_NOENT => tar_path (th_prefix h) (th_name h) = [c_slash]
  | _ => False
  end.
Proof.
  intros Hn Hp. set (n := th_name h) in *. set (p := th_prefix h) in *.
  set (s := tar_path p n). unfold normalize_tar_path. fold n p. rewrite rpass by done.
  destruct (put_slash_Ok (replicate SCDK_INITRD_MAX_PATH 0) 0 []) as (o1 & -> & H1);
    [|unfold SCDK_INITRD_MAX_PATH; simpl; lia|].
  { split; [done|]. split; [|done]. split; [constructor|]. by eexists. }
  simpl rbind. simpl app in H1.
  destruct (decide (length ([c_slash] ++ until_nul p) < SCDK_INITRD_MAX_PATH)%nat) as [Hlt|Hge].
  2:{ rewrite (append_path_component_Err o1 1 [c_slash] p 155); [|done|done|lia]. simpl.
      unfold s, tar_path. simpl in *. rewrite length_app. lia. }
  destruct (append_path_component_Ok o1 1 [c_slash] p 155) as (o2 & -> & H2); [done|done|done|].
  simpl rbind.
  pose proof (append_separator_run o2 (until_nul p) H2) as Hr.
  change (1 + length (until_nul p))%nat with (S (length (until_nul p))).
  destruct (append_separator o2 SCDK_INITRD_MAX_PATH (S (length (until_nul p)))) as [[o k]|e|]; [| |done].
  2:{ destruct Hr as (-> & Hne & Hr). unfold s, tar_path. simpl.
      destruct (until_nul p) as [|c q]; [done|]. simpl in *. rewrite !length_app. simpl. lia. }
  simpl rbind.
  pose proof (append_tar_name_run o k _ n Hr Hn) as Ha. rewrite <-!app_assoc in Ha. fold (tar_path p n) in Ha.
  fold s in Ha.
  destruct (append_tar_name n o SCDK_INITRD_MAX_PATH k) as [[o' k']|e|]; [|destruct Ha as [-> Ha]; exact Ha|done].
  simpl rbind. pose proof Ha as (_ & _ & ->).
  destruct (decide (1 < length s)%nat).
  - rewrite rpass by (apply Nat.leb_gt; lia). done.
  - rewrite rstop by (apply Nat.leb_le; lia). destruct (tar_path_slash p n) as [rest Hs].
    fold s in Hs. rewrite Hs in *. destruct rest; [done|]. simpl in *. lia.
Qed.

(** *** The table *)

(** Parsing leaves the other static variables alone. *)
Definition parse_frame (st st' : initrd) : Prop :=
  limine_modules st' = limine_modules st ∧ initrd_initialized st' = initrd_initialized st.

Lemma parse_frame_trans st st1 st2 : parse_frame st st1 → parse_frame st1 st2 → parse_frame st st2.
Proof. unfold parse_frame. intros [-> ->] [-> ->]. done. Qed.

Lemma remember_file_full st fs path data size :
  initrd_rep st fs → (SCDK_INITRD_MAX_FILES ≤ length fs)%nat →
  remember_file path (Some data) size st = (Err SCDK_ERR_NOMEM, st).
Proof.
  intros Hr Hfull. unfold remember_file. rewrite bind_gets, (rep_count _ _ Hr).
  unfold bind at 1, guard. by rewrite (proj2 (Nat.leb_le _ _)) by lia.
Qed.

Lemma remember_file_room st fs path s d rest :
  initrd_rep st fs → (length fs < SCDK_INITRD_MAX_FILES)%nat →
  path_buf path (length s) s → (∃ c r, s = c_slash :: c :: r) →
  ∃ st', remember_file path (Some (d ++ rest)) (Z.of_nat (length d)) st = (Ok tt, st') ∧
    initrd_rep st' (fs ++ [(s, d)]) ∧ parse_frame st st'.
Proof.
  intros Hr Hroom (Hlen & Hc & _) Hs. pose proof Hr as [(es & Hes & Hfs) Hn _].
  pose proof (Forall2_length Hfs) as Hl. pose proof (cstr_length _ _ Hc) as Hlt.
  replace (SCDK_INITRD_MAX_FILES - length fs)%nat
    with (S (SCDK_INITRD_MAX_FILES - length (fs ++ [(s, d)])))%nat in Hes
    by (rewrite length_app; simpl; lia).
  assert (initrd_files st !! length fs = Some entry_zero) as Hz.
  { rewrite Hes, <-Hl, lookup_app_r, Nat.sub_diag by lia. done. }
  unfold remember_file. rewrite bind_gets, Hn.
  rewrite bind_guard by (apply Nat.leb_gt; lia).
  erewrite bind_query by (rewrite Hz; done). rewrite bind_modify.
  erewrite bind_Ok by (unfold lift; rewrite (strlen_Ok _ _ Hc); done).
  assert (length (ie_path entry_zero) = SCDK_INITRD_MAX_PATH) as Hez by done.
  erewrite bind_Ok by (unfold lift; rewrite memcpy_Ok by lia; done).
  eexists. split; [done|]. split; [|done]. split; [|simpl; rewrite length_app; simpl; lia|
    rewrite length_app; simpl; lia].
  exists (es ++ [{| ie_path := patch (ie_path entry_zero) 0 (take (length s + 1) path);
    ie_data := Some (d ++ rest); ie_size := Z.of_nat (length d); ie_flags := 0 |}]). split.
  - cbn [with_files initrd_files]. rewrite Hes, replicate_S, <-Hl. rewrite <-(Nat.add_0_r (length es)) at 1.
    rewrite insert_app_r, <-app_assoc. done.
  - apply Forall2_app; [done|]. constructor; [|constructor].
    split; [by apply cstr_copy|]. split; [|by eauto].
    apply patch_length. rewrite length_take. lia.
Qed.

(** The padded size in exact arithmetic. *)
Lemma padded_size_val n :
  0 <= n < 68719476736 →
  padded_size n = (n + 511) / 512 * 512 ∧ n <= padded_size n.
Proof.
  intros Hn. unfold padded_size, wrap64, SCDK_TAR_BLOCK_SIZE.
  rewrite (Z.mod_small (n + 512)) by (unfold two64; lia).
  rewrite Z.mod_small by (unfold two64; lia).
  rewrite land_not64 by (unfold u64, two64; lia). change (512 - 1) with (2 ^ 9 - 1).
  rewrite ldiff_mask by lia. change (2 ^ 9) with 512.
  replace (n + 512 - 1) with (n + 511) by lia.
  pose proof (Z.div_mod (n + 511) 512). pose proof (Z.mod_pos_bound (n + 511) 512). lia.
Qed.

(** A file of the table lies inside the archive. *)
Definition inside (base : list Z) (x : list Z * list Z) : Prop :=
  ∃ at_ : nat, drop at_ base = x.2 ++ drop (at_ + length x.2) base ∧
    (at_ + length x.2 ≤ length base)%nat.

(** What a piece of the parser may do: add files of the archive to the table,
    without undefined behaviour; [Q] bounds the value it returns. *)
Definition parses {A} (base : list Z) (m : M initrd A) (Q : A → Prop) : Prop :=
  ∀ st fs, initrd_rep st fs →
  ∃ r st' fs', m st = (r, st') ∧ initrd_rep st' (fs ++ fs') ∧ parse_frame st st' ∧
    Forall (inside base) fs' ∧
    match r with Ok a => Q a | Err _ => True | Ub => False end.

Lemma parses_lift {A} base (r : result A) (Q : A → Prop) :
  match r with Ok a => Q a | Err _ => True | Ub => False end → parses base (lift r) Q.
Proof. intros H st fs Hr. exists r, st, []. rewrite app_nil_r. done. Qed.

Lemma parses_ret {A} base (a : A) (Q : A → Prop) : Q a → parses base (ret a) Q.
Proof. exact (parses_lift base (Ok a) Q). Qed.

Lemma parses_bind {A B} base (m : M initrd A) (f : A → M initrd B) Q R :
  parses base m Q → (∀ a, Q a → parses base (f a) R) → parses base (bind m f) R.
Proof.
  intros Hm Hf st fs Hr. destruct (Hm st fs Hr) as (r & st1 & fs1 & E & Hr1 & F1 & I1 & HQ).
  unfold bind. rewrite E. destruct r as [a|e|]; [|by eexists _, _, fs1|done].
  destruct (Hf a HQ st1 _ Hr1) as (r & st2 & fs2 & -> & Hr2 & F2 & I2 & HR).
  exists r, st2, (fs1 ++ fs2). rewrite app_assoc. split_and!; [done|done| |by apply Forall_app|done].
  by apply (parse_frame_trans _ st1).
Qed.

Lemma parses_guard base b e (Q : unit → Prop) :
  (b = false → Q tt) → parses base (guard b e) Q.
Proof. intros H. destruct b; [by apply (parses_lift base (Err e))|by apply parses_ret, H]. Qed.

Lemma parses_remember base path s at_ n :
  path_buf path (length s) s → (1 < length s)%nat → (∃ r, s = c_slash :: r) →
  (at_ + n ≤ length base)%nat →
  parses base (remember_file path (Some (drop at_ base)) (Z.of_nat n)) (λ _, True).
Proof.
  intros Hbuf Hlong [rest Hs] Hin st fs Hr.
  destruct (decide (length fs < SCDK_INITRD_MAX_FILES)%nat).
  2:{ rewrite (remember_file_full st fs) by (done || lia). exists (Err SCDK_ERR_NOMEM), st, [].
      rewrite app_nil_r. done. }
  set (d := take n (drop at_ base)).
  assert (length d = n) as Hd by (unfold d; rewrite length_take, length_drop; lia).
  assert (drop at_ base = d ++ drop (at_ + n) base) as Hsplit
    by (unfold d; by rewrite <-drop_drop, take_drop).
  destruct (remember_file_room st fs path s d (drop (at_ + n) base) Hr) as (st' & E & Hr' & Hf);
    [done|done|destruct rest; subst s; [simpl in Hlong; lia|eauto]|].
  rewrite Hd in E. rewrite Hsplit, E.
  exists (Ok tt), st', [(s, d)]. split_and!; [done|done|done| |done].
  constructor; [|done]. exists at_. simpl. by rewrite Hd.
Qed.

Lemma parses_member base size offset h :
  size = Z.of_nat (length base) → size < 2 ^ 63 → 0 <= offset → offset + 512 <= size →
  length (th_name h) = 100%nat → length (th_prefix h) = 155%nat → length (th_size h) = 12%nat →
  parses base (parse_tar_member base size offset h) (λ o, offset + 512 <= o <= size).
Proof.
  intros Hsize Hbig H0 Hoff Hname Hprefix Hsz.
  change (2 ^ 63) with 9223372036854775808 in Hbig.
  unfold parse_tar_member, SCDK_TAR_BLOCK_SIZE, wrap64.
  rewrite (Z.mod_small (offset + 512)) by (unfold two64; lia).
  apply (parses_bind _ _ _ (λ n, 0 <= n < 68719476736)).
  { apply parses_lift. pose proof (parse_octal_defined (th_size h)) as Ho. rewrite Hsz in Ho.
    specialize (Ho (le_n _)). by destruct (parse_octal (th_size h) 12). }
  intros n Hn. destruct (padded_size_val n Hn) as [Hpad Hle].
  apply (parses_bind _ _ _ (λ _, offset + 512 + padded_size n <= size)).
  { apply parses_guard. intros Hg. bsplit. rewrite Z.mod_small in H1 by (unfold two64; lia). lia. }
  intros _ Hin. apply (parses_bind _ _ _ (λ _, True)).
  2:{ intros _ _. apply parses_ret. rewrite Z.mod_small by (unfold two64; lia). lia. }
  destruct (tar_header_is_file h); [|by apply parses_ret].
  apply (parses_bind _ _ _ (λ path, ∃ s, path_buf path (length s) s ∧ (1 < length s)%nat ∧
    ∃ r, s = c_slash :: r)).
  { apply parses_lift. pose proof (normalize_tar_path_run h Hname Hprefix) as Hpath.
    destruct (normalize_tar_path _ _ _); [|done|done]. destruct Hpath. eauto using tar_path_slash. }
  intros path (s & Hbuf & Hlong & Hs). replace n with (Z.of_nat (Z.to_nat n)) by lia.
  apply (parses_remember _ _ s); [done|done|done|lia].
Qed.

(** Every turn consumes at least a block, so the fuel never runs out. *)
Lemma parses_loop fuel base size offset :
  size = Z.of_nat (length base) → size < 2 ^ 63 → 0 <= offset <= size →
  size - offset < 512 * Z.of_nat fuel →
  parses base (parse_tar_loop fuel base size offset) (λ _, True).
Proof.
  intros Hsize Hbig. revert offset. induction fuel as [|fuel IH]; intros offset Ho Hf; [lia|].
  simpl. unfold wrap64, SCDK_TAR_BLOCK_SIZE in *.
  rewrite Z.mod_small by (change (2 ^ 63) with 9223372036854775808 in Hbig; unfold two64; lia).
  destruct (Z.leb_spec (offset + 512) size) as [Hle|Hgt]; simpl; [|by apply parses_ret].
  assert (512 ≤ length (drop (Z.to_nat offset) base))%nat as Hlen by (rewrite length_drop; lia).
  apply (parses_bind _ _ _ (λ _, True)).
  { apply parses_lift. by destruct (memory_is_zero_defined _ 512 Hlen) as [b ->]. }
  intros [] _; [by apply parses_ret|].
  destruct (tar_header_at_Ok _ Hlen) as (h & Hh & Hname & Hprefix & Hsz). rewrite Hh.
  apply (parses_bind _ _ _ (λ h', h' = h)); [by apply parses_lift|]. intros ? ->.
  apply (parses_bind _ _ _ (λ o, offset + 512 <= o <= size)); [apply parses_member; done || lia|].
  intros o Hnext. apply IH; lia.
Qed.

Lemma fuel_enough (n : nat) :
  Z.of_nat n - 0 < 512 * Z.of_nat (S (Z.to_nat (Z.of_nat n / SCDK_TAR_BLOCK_SIZE))).
Proof.
  unfold SCDK_TAR_BLOCK_SIZE. rewrite Nat2Z.inj_succ, Z2Nat.id by (apply Z.div_pos; lia).
  pose proof (Z.div_mod (Z.of_nat n) 512). pose proof (Z.mod_pos_bound (Z.of_nat n) 512). lia.
Qed.

(** C27. Parsing terminates and stays inside the archive for every sequence of
    bytes the loader may hand over: the offset advances by at least a block per
    turn, so the loop ends within one turn per block; no header, path buffer or
    table is read or written out of bounds; and whatever the parser returns,
    every file in the table has an absolute, terminated path and contents that
    lie inside the archive. *)
Theorem initrd_parse_total (base : list Z) (st : initrd) (fs : list (list Z * list Z)) :
  Z.of_nat (length base) < 2 ^ 63 → initrd_rep st fs → Forall (inside base) fs →
  ∃ r st' fs', parse_tar_image base (Z.of_nat (length base)) st = (r, st') ∧
    defined r ∧ initrd_rep st' fs' ∧ Forall (inside base) fs' ∧
    (r = Ok tt → fs' ≠ []).
Proof.
  intros Hbig Hr Hin. unfold parse_tar_image. unfold bind at 1, guard at 1.
  destruct (Z.ltb_spec (Z.of_nat (length base)) SCDK_TAR_BLOCK_SIZE) as [|Hge].
  { exists (Err SCDK_ERR_INVAL), st, fs. done. }
  unfold ret. rewrite bind_modify.
  destruct (parses_loop (S (Z.to_nat (Z.of_nat (length base) / SCDK_TAR_BLOCK_SIZE))) base
    (Z.of_nat (length base)) 0 eq_refl Hbig ltac:(lia) (fuel_enough _)
    _ [] (reset_rep st)) as (r & st' & fs' & E & Hr' & _ & Hin' & Hd).
  unfold bind at 1. rewrite E. destruct r as [[]|e|]; [|by exists (Err e), st', fs'|done].
  rewrite bind_gets, (rep_count _ _ Hr'). simpl in Hr' |- *. unfold guard.
  destruct (Nat.eqb_spec (length fs') 0) as [Hz|Hz].
  - by exists (Err SCDK_ERR_NOENT), st', fs'.
  - exists (Ok tt), st', fs'. split_and!; [done|done|done|done|]. by intros _ ->.
Qed.

(** ** Writing an archive

    The ustar layout as an archiver writes it: zero-padded name and prefix, the
    size in eleven octal digits, contents padded to whole blocks and two zero
    blocks at the end. The fields the kernel does not look at are arbitrary. *)
Record tar_member : Type := {
  tm_name : list Z;
  tm_prefix : list Z;
  tm_typeflag : Z;
  tm_data : list Z;
  tm_mode_uid_gid : list Z;
  tm_mtime_checksum : list Z;
  tm_link_owner : list Z;
  tm_padding : list Z
}.

Definition zpad (n : nat) (s : list Z) : list Z := s ++ replicate (n - length s) 0.

Fixpoint octal_digits (k : nat) (n : Z) : list Z :=
  match k with
  | O => []
  | S k => octal_digits k (n / 8) ++ [c_zero + n mod 8]
  end.

Definition tar_header_bytes (m : tar_member) : list Z :=
  zpad 100 (tm_name m) ++ tm_mode_uid_gid m ++
  (octal_digits 11 (Z.of_nat (length (tm_data m))) ++ [0]) ++ tm_mtime_checksum m ++
  [tm_typeflag m] ++ tm_link_owner m ++ zpad 155 (tm_prefix m) ++ tm_padding m.

Definition tar_pad (n : nat) : nat := Z.to_nat ((Z.of_nat n + 511) / 512 * 512 - Z.of_nat n).
Definition tar_member_bytes (m : tar_member) : list Z :=
  tar_header_bytes m ++ tm_data m ++ replicate (tar_pad (length (tm_data m))) 0.
Definition tar_pack (ms : list tar_member) : list Z :=
  concat (map tar_member_bytes ms) ++ replicate 1024 0.

(** The files of the archive under their absolute paths. *)
Definition member_path (m : tar_member) : list Z :=
  [c_slash] ++ tm_prefix m ++ (match tm_prefix m with [] => [] | _ => [c_slash] end) ++
  strip_dot_slash (tm_name m).
Definition member_is_file (m : tar_member) : bool :=
  (tm_typeflag m =? SCDK_TAR_TYPE_FILE) || (tm_typeflag m =? SCDK_TAR_TYPE_OLD_FILE).
Fixpoint tar_files (ms : list tar_member) : list (list Z * list Z) :=
  match ms with
  | [] => []
  | m :: ms =>
      if member_is_file m then (member_path m, tm_data m) :: tar_files ms else tar_files ms
  end.

(** A member the format can hold and whose path the kernel can store. *)
Record member_ok (m : tar_member) : Prop := {
  mo_name : Forall (λ c, c ≠ 0) (tm_name m) ∧ (length (tm_name m) ≤ 100)%nat;
  mo_prefix : Forall (λ c, c ≠ 0) (tm_prefix m) ∧ (length (tm_prefix m) ≤ 155)%nat;
  mo_data : Z.of_nat (length (tm_data m)) < 8 ^ 11;
  mo_fixed : length (tm_mode_uid_gid m) = 24%nat ∧ length (tm_mtime_checksum m) = 20%nat ∧
    length (tm_link_owner m) = 188%nat ∧ length (tm_padding m) = 12%nat;
  mo_path : member_is_file m = true →
    (1 < length (member_path m) < SCDK_INITRD_MAX_PATH)%nat
}.

(** *** Reading what was written *)
Lemma octal_digits_length k n : length (octal_digits k n) = k.
Proof. revert n. induction k as [|k IH]; intros n; simpl; [done|]. rewrite length_app, IH. simpl. lia. Qed.

Lemma octal_loop_digits k n s j v b a :
  0 <= v < 8 ^ a → 0 <= a → a + Z.of_nat k <= 21 →
  octal_loop (octal_digits k n ++ s) (k + j) v b =
    octal_loop s j (v * 8 ^ Z.of_nat k + n mod 8 ^ Z.of_nat k) (match k with O => b | _ => true end).
Proof.
  revert n s j. induction k as [|k IH]; intros n s j Hv Ha Hk.
  { simpl. rewrite Z.mul_1_r, Z.mod_1_r, Z.add_0_r. done. }
  cbn [octal_digits]. rewrite <-app_assoc. replace (S k + j)%nat with (k + S j)%nat by lia.
  rewrite IH by lia.
  assert (0 < 8 ^ Z.of_nat k) as Hpos by (apply Z.pow_pos_nonneg; lia).
  pose proof (Z.mod_pos_bound n 8 ltac:(lia)) as Hd.
  pose proof (Z.mod_pos_bound (n / 8) (8 ^ Z.of_nat k) Hpos) as Hm.
  set (w := v * 8 ^ Z.of_nat k + n / 8 mod 8 ^ Z.of_nat k).
  assert (0 <= w < 8 ^ (a + Z.of_nat k)) as Hw.
  { unfold w. rewrite Z.pow_add_r by lia. nia. }
  simpl. unfold c_zero, c_space, c_seven.
  rewrite (proj2 (Z.eqb_neq _ 0)), (proj2 (Z.eqb_neq _ 32)), (proj2 (Z.ltb_ge _ 48)), (proj2 (Z.ltb_ge 55 _)) by lia.
  simpl. replace (48 + n mod 8 - 48) with (n mod 8) by lia.
  destruct (octal_push w (n mod 8) (a + Z.of_nat k)) as [-> _]; [done|lia| |done|].
  { apply Z.le_trans with (8 ^ 21); [apply Z.pow_le_mono_r; lia|]. vm_compute. discriminate. }
  f_equal. unfold w. rewrite Nat2Z.inj_succ, Z.pow_succ_r by lia.
  rewrite (Z.rem_mul_r n 8) by lia. lia.
Qed.

Lemma parse_octal_digits n :
  0 <= n < 8 ^ 11 → parse_octal (octal_digits 11 n ++ [0]) 12 = Ok n.
Proof.
  intros Hn. unfold parse_octal. change 12%nat with (11 + 1)%nat.
  rewrite (octal_loop_digits 11 n [0] 1 0 false 0) by (done || lia).
  cbn [octal_loop rbind]. simpl. rewrite Z.mod_small by exact Hn. done.
Qed.

Lemma field_app (a b c : list Z) i n :
  i = length a → n = length b → field (a ++ b ++ c) i n = b.
Proof. intros -> ->. unfold field. by rewrite drop_app_length, take_app_length. Qed.

Lemma zpad_length n s : (length s ≤ n)%nat → length (zpad n s) = n.
Proof. intros H. unfold zpad. rewrite length_app, length_replicate. lia. Qed.

Lemma until_nul_strip s n :
  Forall (λ c, c ≠ 0) s → until_nul (strip_dot_slash (s ++ replicate n 0)) = strip_dot_slash s.
Proof.
  intros Hs. destruct s as [|c0 [|c1 s]].
  - destruct n as [|[|n]]; done.
  - destruct n as [|n]; simpl; [|rewrite andb_false_r; simpl];
      inversion Hs; by rewrite (proj2 (Z.eqb_neq c0 0)).
  - cbn [app strip_dot_slash]. destruct ((c0 =? c_dot) && (c1 =? c_slash)).
    + apply until_nul_padded. by inversion Hs as [|? ? ? Ht]; inversion Ht.
    + exact (until_nul_padded (c0 :: c1 :: s) n Hs).
Qed.

Lemma tar_path_padded m :
  member_ok m → tar_path (zpad 155 (tm_prefix m)) (zpad 100 (tm_name m)) = member_path m.
Proof.
  intros [[Hn _] [Hp _] _ _ _]. unfold tar_path, member_path, zpad.
  by rewrite until_nul_strip, until_nul_padded.
Qed.

Lemma tar_header_length m : member_ok m → length (tar_header_bytes m) = 512%nat.
Proof.
  intros [[_ Hn] [_ Hp] _ (H1 & H2 & H3 & H4) _]. unfold tar_header_bytes.
  rewrite !length_app, !zpad_length, octal_digits_length, H1, H2, H3, H4 by done. done.
Qed.

(** The header of a written member: what the parser reads in it. *)
Definition header_of (h : scdk_tar_header) (m : tar_member) : Prop :=
  th_name h = zpad 100 (tm_name m) ∧ th_prefix h = zpad 155 (tm_prefix m) ∧
  th_size h = octal_digits 11 (Z.of_nat (length (tm_data m))) ++ [0] ∧
  th_typeflag h = tm_typeflag m.

Lemma tar_header_at_bytes m rest :
  member_ok m →
  ∃ h, tar_header_at (tar_header_bytes m ++ rest) = Ok h ∧
    header_of h m.
Proof.
  intros Hm. pose proof (tar_header_length m Hm) as Hl.
  destruct Hm as [[_ Hn] [_ Hp] _ (H1 & H2 & H3 & H4) _].
  set (p := tar_header_bytes m ++ rest).
  set (sz := octal_digits 11 (Z.of_nat (length (tm_data m))) ++ [0]).
  assert (length sz = 12%nat) as Hsz by (unfold sz; by rewrite length_app, octal_digits_length).
  assert (p = (zpad 100 (tm_name m) ++ tm_mode_uid_gid m ++ sz ++ tm_mtime_checksum m) ++
    [tm_typeflag m] ++ tm_link_owner m ++ zpad 155 (tm_prefix m) ++ tm_padding m ++ rest) as E.
  { unfold p, tar_header_bytes, sz. by rewrite <-!app_assoc. }
  unfold tar_header_at. destruct (lookup_lt_is_Some_2 p 511) as [a ->].
  { unfold p. rewrite length_app. lia. }
  assert (p !! 156%nat = Some (tm_typeflag m)) as ->.
  { rewrite E, lookup_app_r; rewrite ?length_app, ?zpad_length, ?Hsz, ?H1, ?H2 by done; [done|lia]. }
  eexists. split; [done|]. unfold header_of. cbn [th_name th_prefix th_size th_typeflag].
  split_and!; [| | |done].
  - unfold p, tar_header_bytes. rewrite <-!app_assoc. by apply (field_app []); [|rewrite zpad_length].
  - rewrite E. rewrite !(app_assoc _ _ (zpad 155 _ ++ _)). apply field_app; [|by rewrite zpad_length].
    by rewrite !length_app, zpad_length, Hsz, H1, H2, H3.
  - rewrite E. rewrite <-!app_assoc, app_assoc. apply field_app; [|done].
    by rewrite length_app, zpad_length, H1.
Qed.

Lemma tar_header_nonzero m rest :
  member_ok m → memory_is_zero (tar_header_bytes m ++ rest) 512 = Ok false.
Proof.
  intros Hm. pose proof (tar_header_length m Hm) as Hl.
  assert (field (tar_header_bytes m) 124 12 =
    octal_digits 11 (Z.of_nat (length (tm_data m))) ++ [0]) as Hf.
  { destruct Hm as [[_ Hn] _ _ (H1 & _) _]. unfold tar_header_bytes. rewrite app_assoc.
    apply field_app; [by rewrite length_app, zpad_length, H1|by rewrite length_app, octal_digits_length]. }
  destruct (lookup_lt_is_Some_2 (tar_header_bytes m) 134) as [c Hc]; [lia|].
  apply (memory_is_zero_false _ 512 134 c); [rewrite length_app; lia|lia|by rewrite lookup_app_l by lia|].
  assert (field (tar_header_bytes m) 124 12 !! 10%nat = Some c) as Hd.
  { unfold field. by rewrite lookup_take_lt, lookup_drop by lia. }
  rewrite Hf, lookup_app_l in Hd by (rewrite octal_digits_length; lia). cbn [octal_digits] in Hd.
  rewrite lookup_app_r in Hd by (rewrite !length_app; simpl; lia).
  rewrite !length_app in Hd. simpl in Hd. injection Hd as <-.
  pose proof (Z.mod_pos_bound (Z.of_nat (length (tm_data m))) 8). unfold c_zero. lia.
Qed.

Lemma tar_member_length m :
  member_ok m →
  Z.of_nat (length (tar_member_bytes m)) = 512 + padded_size (Z.of_nat (length (tm_data m))) ∧
  0 <= padded_size (Z.of_nat (length (tm_data m))) < 68719476736.
Proof.
  intros Hm. pose proof (mo_data m Hm) as Hn. change (8 ^ 11) with 8589934592 in Hn.
  destruct (padded_size_val (Z.of_nat (length (tm_data m)))) as [Hpad Hle]; [lia|].
  unfold tar_member_bytes. rewrite !length_app, (tar_header_length m Hm), length_replicate.
  unfold tar_pad. rewrite <-Hpad.
  pose proof (Z.mul_div_le (Z.of_nat (length (tm_data m)) + 511) 512). lia.
Qed.

Lemma normalize_written m h :
  member_ok m → header_of h m → member_is_file m = true →
  ∃ path, normalize_tar_path h (replicate SCDK_INITRD_MAX_PATH 0) SCDK_INITRD_MAX_PATH = Ok path ∧
    path_buf path (length (member_path m)) (member_path m) ∧
    ∃ c r, member_path m = c_slash :: c :: r.
Proof.
  intros Hm (Hname & Hprefix & _ & _) Hfile.
  pose proof (mo_path m Hm Hfile) as [Hlong Hfits].
  pose proof (mo_name m Hm) as [_ Hnl]. pose proof (mo_prefix m Hm) as [_ Hpl].
  pose proof (normalize_tar_path_run h) as Hp.
  rewrite Hname, Hprefix, !zpad_length, tar_path_padded in Hp by done. specialize (Hp eq_refl eq_refl).
  destruct (normalize_tar_path h _ _) as [path|[]|]; try done; try lia.
  - exists path. destruct Hp as [Hbuf _]. split_and!; [done|done|].
    unfold member_path in *. destruct (tm_prefix m ++ _) as [|c r]; [simpl in Hlong; lia|]. by eexists _, _.
  - rewrite Hp in Hlong. simpl in Hlong. lia.
Qed.

(** One turn of the loop on a written member. *)
Lemma parse_written_member m pre rest st fs h :
  let base := pre ++ tar_member_bytes m ++ rest in
  member_ok m → Z.of_nat (length base) < 2 ^ 63 → initrd_rep st fs →
  (length fs + length (tar_files [m]) ≤ SCDK_INITRD_MAX_FILES)%nat →
  header_of h m →
  ∃ st', parse_tar_member base (Z.of_nat (length base)) (Z.of_nat (length pre)) h st =
      (Ok (Z.of_nat (length (pre ++ tar_member_bytes m))), st') ∧
    initrd_rep st' (fs ++ tar_files [m]) ∧ parse_frame st st'.
Proof.
  intros base Hm Hbig Hr Hroom Hh.
  change (2 ^ 63) with 9223372036854775808 in Hbig.
  destruct (tar_member_length m Hm) as [Hmlen Hpos].
  pose proof (mo_data m Hm) as Hn. change (8 ^ 11) with 8589934592 in Hn.
  set (n := Z.of_nat (length (tm_data m))) in *.
  assert (Z.of_nat (length base) =
    Z.of_nat (length pre) + 512 + padded_size n + Z.of_nat (length rest)) as Hblen.
  { unfold base. rewrite !length_app. lia. }
  unfold parse_tar_member, SCDK_TAR_BLOCK_SIZE, wrap64.
  rewrite (Z.mod_small (Z.of_nat (length pre) + 512)) by (unfold two64; lia).
  pose proof Hh as (_ & _ & -> & Htype).
  rewrite (bind_Ok _ _ _ n st) by (unfold lift; rewrite parse_octal_digits by (fold n; lia); done).
  rewrite bind_guard.
  2:{ rewrite (Z.mod_small (_ - _)) by (unfold two64; lia).
      rewrite (proj2 (Z.ltb_ge _ _)), (proj2 (Z.ltb_ge _ _)) by lia. done. }
  rewrite (Z.mod_small (_ + padded_size n)) by (unfold two64; lia).
  replace (Z.of_nat (length pre) + 512 + padded_size n) with (Z.of_nat (length (pre ++ tar_member_bytes m)))
    by (rewrite length_app; lia).
  replace (tar_header_is_file h) with (member_is_file m)
    by (unfold tar_header_is_file, member_is_file; by rewrite Htype).
  cbn [tar_files] in *. destruct (member_is_file m) eqn:Hfile.
  2:{ exists st. rewrite app_nil_r. done. }
  destruct (normalize_written m h Hm Hh Hfile) as (path & -> & Hbuf & Hcons).
  unfold bind at 1, lift. unfold bind at 1.
  replace (drop (Z.to_nat (Z.of_nat (length pre) + 512)) base) with
    (tm_data m ++ replicate (tar_pad (length (tm_data m))) 0 ++ rest).
  2:{ unfold base, tar_member_bytes. rewrite <-!app_assoc, (app_assoc pre). symmetry.
      apply drop_app_length'. rewrite length_app, (tar_header_length m Hm). lia. }
  subst n. destruct (remember_file_room st fs path (member_path m) (tm_data m)
    (replicate (tar_pad (length (tm_data m))) 0 ++ rest) Hr) as (st' & -> & Hr' & Hf);
    [simpl in Hroom; lia|done|done|].
  by exists st'.
Qed.

(** The whole archive. *)
Lemma parse_written_loop ms pre fuel st fs :
  let base := pre ++ tar_pack ms in
  Forall member_ok ms → Z.of_nat (length base) < 2 ^ 63 → initrd_rep st fs →
  (length fs + length (tar_files ms) ≤ SCDK_INITRD_MAX_FILES)%nat →
  (length ms < fuel)%nat →
  ∃ st', parse_tar_loop fuel base (Z.of_nat (length base)) (Z.of_nat (length pre)) st = (Ok tt, st') ∧
    initrd_rep st' (fs ++ tar_files ms) ∧ parse_frame st st'.
Proof.
  revert pre fuel st fs. induction ms as [|m ms IH]; intros pre fuel st fs base Hms Hbig Hr Hroom Hfuel;
    destruct fuel as [|fuel]; try (simpl in Hfuel; lia);
    change (2 ^ 63) with 9223372036854775808 in Hbig.
  - exists st. rewrite app_nil_r. split; [|done]. cbn [parse_tar_loop]. unfold wrap64, SCDK_TAR_BLOCK_SIZE.
    assert (length base = length pre + 1024)%nat as Hl.
    { unfold base, tar_pack. cbn [map concat app]. by rewrite length_app, length_replicate. }
    rewrite Z.mod_small by (unfold two64; lia). rewrite (proj2 (Z.leb_le _ _)) by lia.
    cbn [negb]. rewrite Nat2Z.id. unfold base, tar_pack. cbn [map concat app]. rewrite drop_app_length.
    rewrite <-(app_nil_r (replicate 1024 0)). unfold bind, lift.
    by rewrite memory_is_zero_zeros by lia.
  - inversion Hms as [|? ? Hm Hms']; subst. destruct (tar_member_length m Hm) as [Hml Hmp].
    assert (base = pre ++ tar_member_bytes m ++ tar_pack ms) as Hb.
    { unfold base, tar_pack. cbn [map concat]. by rewrite <-app_assoc. }
    assert (Z.of_nat (length base) = Z.of_nat (length pre) + Z.of_nat (length (tar_member_bytes m))
      + Z.of_nat (length (tar_pack ms))) as Hl by (rewrite Hb, !length_app; lia).
    cbn [parse_tar_loop]. unfold wrap64, SCDK_TAR_BLOCK_SIZE.
    rewrite Z.mod_small by (unfold two64; lia). rewrite (proj2 (Z.leb_le _ _)) by lia. cbn [negb].
    rewrite Nat2Z.id, Hb, drop_app_length. unfold tar_member_bytes at 1 2. rewrite <-!app_assoc.
    erewrite bind_Ok by (unfold lift; rewrite tar_header_nonzero by done; done).
    destruct (tar_header_at_bytes m ((tm_data m ++ replicate (tar_pad (length (tm_data m))) 0) ++ tar_pack ms) Hm)
      as (h & Hh & Hof).
    rewrite <-!app_assoc in Hh. cbv beta iota. rewrite Hh. erewrite bind_Ok by done.
    rewrite Hb in Hbig.
    destruct (parse_written_member m pre (tar_pack ms) st fs h Hm) as (st1 & E1 & Hr1 & F1); [done|done| |done|].
    { cbn [tar_files] in *. destruct (member_is_file m); simpl in *; lia. }
    erewrite bind_Ok by done.
    destruct (IH (pre ++ tar_member_bytes m) fuel st1 (fs ++ tar_files [m])) as (st2 & E2 & Hr2 & F2);
      [done|by rewrite <-app_assoc|done| |simpl in Hfuel; lia|].
    { rewrite length_app. cbn [tar_files] in *. destruct (member_is_file m); simpl in *; lia. }
    rewrite <-app_assoc in E2. exists st2. split; [done|].
    split; [|by apply (parse_frame_trans _ st1)].
    rewrite <-app_assoc in Hr2. cbn [tar_files] in *. by destruct (member_is_file m).
Qed.

(** ** Queries against the list of files *)
Lemma str_eq_cstr a b s t :
  cstr a s → cstr b t → str_eq (Some a) (Some b) = Ok (bool_decide (s = t)).
Proof.
  intros [Hs [ra ->]] [Ht [rb ->]]. cbn [str_eq]. revert t Ht.
  induction Hs as [|x s Hx Hs IH]; intros t Ht; destruct Ht as [|y t Hy Ht]; simpl.
  - done.
  - by rewrite (proj2 (Z.eqb_neq y 0)).
  - by rewrite (proj2 (Z.eqb_neq x 0)).
  - rewrite (proj2 (Z.eqb_neq x 0)), (proj2 (Z.eqb_neq y 0)) by done. simpl.
    destruct (Z.eqb_spec x y) as [->|Hne]; simpl.
    + rewrite IH by done. f_equal. apply bool_decide_ext. naive_solver.
    + f_equal. symmetry. apply bool_decide_eq_false. congruence.
Qed.

(** A scan of the table by a test that decides a property of the file finds the
    first file with it. *)
Lemma first_file_run (p : scdk_initrd_entry → result bool) (q : list Z * list Z → bool) st fs :
  initrd_rep st fs → (∀ f x, entry_rep f x → p f = Ok (q x)) →
  ∃ r, first_file p (initrd_files st) (initrd_file_count st) = Ok r ∧
    match r with
    | Some f => ∃ l x l', fs = l ++ x :: l' ∧ entry_rep f x ∧ q x = true ∧ Forall (λ y, q y = false) l
    | None => Forall (λ y, q y = false) fs
    end.
Proof.
  intros [(es & -> & Hes) -> _] Hp. generalize (replicate (SCDK_INITRD_MAX_FILES - length fs) entry_zero).
  intros tail. induction Hes as [|f x es fs Hf Hes IH]; simpl.
  { exists None. split; [done|constructor]. }
  rewrite (Hp f x Hf). simpl. destruct (q x) eqn:Hq.
  - eexists. split; [done|]. exists [], x, fs. split_and!; [done|done|done|constructor].
  - destruct IH as (r & -> & Hr). exists r. split; [done|]. destruct r as [f'|].
    + destruct Hr as (l & y & l' & -> & Hy & Hqy & Hl). exists (x :: l), y, l'. split_and!; [done|done|done|by constructor].
    + by constructor.
Qed.

(** The contents of the first file with a path. *)
Fixpoint file_lookup (s : list Z) (fs : list (list Z * list Z)) : option (list Z) :=
  match fs with
  | [] => None
  | x :: fs => if bool_decide (s = x.1) then Some x.2 else file_lookup s fs
  end.

Lemma file_lookup_first s l x l' :
  bool_decide (s = x.1) = true → Forall (λ y : list Z * list Z, bool_decide (s = y.1) = false) l →
  file_lookup s (l ++ x :: l') = Some x.2.
Proof. intros Hx Hl. induction Hl as [|y l Hy Hl IH]; simpl; [by rewrite Hx|by rewrite Hy]. Qed.

Lemma file_lookup_none s fs :
  Forall (λ y : list Z * list Z, bool_decide (s = y.1) = false) fs → file_lookup s fs = None.
Proof. intros Hl. induction Hl as [|y l Hy Hl IH]; simpl; [done|by rewrite Hy]. Qed.

(** [scdk_initrd_find] is lookup in the list of files. *)
Lemma initrd_find_run st fs path s :
  initrd_rep st fs → initrd_initialized st = true → cstr path s →
  match file_lookup s fs with
  | Some d => ∃ f, scdk_initrd_find st path = Ok f ∧ file_bytes f = Some d ∧
      ie_size f = Z.of_nat (length d) ∧ cstr (ie_path f) s
  | None => scdk_initrd_find st path = Err SCDK_ERR_NOENT
  end.
Proof.
  intros Hr Hi Hs. unfold scdk_initrd_find. rewrite rpass by (by rewrite Hi).
  destruct (first_file_run (λ f, str_eq (Some path) (Some (ie_path f)))
    (λ x, bool_decide (s = x.1)) st fs Hr) as (r & -> & Hf).
  { intros f x (Hx & _). by apply str_eq_cstr. }
  simpl. destruct r as [f|].
  - destruct Hf as (l & x & l' & -> & Hx & Hq & Hl). rewrite file_lookup_first by done.
    apply bool_decide_eq_true in Hq. subst s. exists f. split; [done|].
    split; [by apply entry_rep_bytes|]. destruct Hx as (? & _ & _ & _ & ? & _). done.
  - by rewrite file_lookup_none.
Qed.

Lemma tar_pack_blocks ms : Forall member_ok ms → (512 * length ms + 1024 ≤ length (tar_pack ms))%nat.
Proof.
  intros Hms. unfold tar_pack. rewrite length_app, length_replicate.
  induction Hms as [|m ms Hm Hms IH]; simpl; [lia|].
  destruct (tar_member_length m Hm) as [Hl Hp]. rewrite length_app. lia.
Qed.

Lemma parse_written ms st :
  Forall member_ok ms → tar_files ms ≠ [] → (length (tar_files ms) ≤ SCDK_INITRD_MAX_FILES)%nat →
  Z.of_nat (length (tar_pack ms)) < 2 ^ 63 →
  ∃ st', parse_tar_image (tar_pack ms) (Z.of_nat (length (tar_pack ms))) st = (Ok tt, st') ∧
    initrd_rep st' (tar_files ms) ∧ parse_frame st st'.
Proof.
  intros Hms Hne Hmax Hbig. pose proof (tar_pack_blocks ms Hms) as Hlen.
  unfold parse_tar_image. rewrite bind_guard by (apply Z.ltb_ge; unfold SCDK_TAR_BLOCK_SIZE; lia).
  rewrite bind_modify.
  destruct (parse_written_loop ms [] (S (Z.to_nat (Z.of_nat (length (tar_pack ms)) / SCDK_TAR_BLOCK_SIZE)))
    _ [] Hms Hbig (reset_rep st)) as (st' & E & Hr & Hf).
  - done.
  - unfold SCDK_TAR_BLOCK_SIZE. pose proof (Z.div_le_mono (512 * Z.of_nat (length ms))
      (Z.of_nat (length (tar_pack ms))) 512) as Hd.
    rewrite Z.mul_comm, Z.div_mul in Hd by lia. lia.
  - cbn [app] in E, Hr. change (Z.of_nat (length (A:=Z) [])) with 0 in E.
    rewrite (bind_Ok _ _ _ _ _ E), bind_gets, (rep_count _ _ Hr). exists st'. split; [|done].
    unfold guard. rewrite (proj2 (Nat.eqb_neq _ _)); [done|]. by destruct (tar_files ms).
Qed.

Lemma init_written ms st m :
  Forall member_ok ms → tar_files ms ≠ [] → (length (tar_files ms) ≤ SCDK_INITRD_MAX_FILES)%nat →
  Z.of_nat (length (tar_pack ms)) < 2 ^ 63 →
  find_initrd_module st = Ok (Some m) → lf_address m = Some (tar_pack ms) →
  lf_size m = Z.of_nat (length (tar_pack ms)) →
  ∃ st', scdk_initrd_init_from_limine st = (Ok tt, st') ∧
    initrd_rep st' (tar_files ms) ∧ initrd_initialized st' = true.
Proof.
  intros Hms Hne Hmax Hbig Hfind Haddr Hsize.
  destruct (parse_written ms st Hms Hne Hmax Hbig) as (st1 & E & Hr & Hf).
  unfold scdk_initrd_init_from_limine. rewrite (bind_query _ _ _ _ Hfind).
  destruct m as [addr size mp mstr]. simpl in *. subst addr size.
  rewrite bind_guard by (apply Z.eqb_neq; pose proof (tar_pack_blocks ms Hms); lia).
  rewrite (bind_Ok _ _ _ _ _ E). eexists. split; [done|]. split; [by destruct Hr|done].
Qed.

(** C18. Packing and reading back: when the boot module is an archive written
    from the members [ms] (any metadata, any mixture of files and other members,
    at most 32 files), initialisation succeeds and afterwards every file is
    found under its absolute path with exactly the contents that were packed,
    and a path that was not packed is not found. *)
Theorem initrd_roundtrip (ms : list tar_member) (st : initrd) (m : limine_file) :
  Forall member_ok ms → tar_files ms ≠ [] → (length (tar_files ms) ≤ SCDK_INITRD_MAX_FILES)%nat →
  Z.of_nat (length (tar_pack ms)) < 2 ^ 63 →
  find_initrd_module st = Ok (Some m) → lf_address m = Some (tar_pack ms) →
  lf_size m = Z.of_nat (length (tar_pack ms)) →
  ∃ st', scdk_initrd_init_from_limine st = (Ok tt, st') ∧
    ∀ path s, cstr path s →
    match file_lookup s (tar_files ms) with
    | Some d => ∃ f, scdk_initrd_find st' path = Ok f ∧ file_bytes f = Some d ∧
        ie_size f = Z.of_nat (length d) ∧ cstr (ie_path f) s
    | None => scdk_initrd_find st' path = Err SCDK_ERR_NOENT
    end.
Proof.
  intros Hms Hne Hmax Hbig Hfind Haddr Hsize.
  destruct (init_written ms st m Hms Hne Hmax Hbig Hfind Haddr Hsize) as (st' & E & Hr & Hi).
  exists st'. split; [done|]. intros path s Hs. by apply initrd_find_run.
Qed.

(** ** A concrete archive: [a], the directory [d/] and [./d/b]. *)
Definition demo_member (name : list Z) (type : Z) (data : list Z) : tar_member := {|
  tm_name := name; tm_prefix := []; tm_typeflag := type; tm_data := data;
  tm_mode_uid_gid := replicate 24 c_zero; tm_mtime_checksum := replicate 20 c_zero;
  tm_link_owner := replicate 188 0; tm_padding := replicate 12 0 |}.
Definition demo_members : list tar_member :=
  [demo_member [97] 48 [1; 2; 3]; demo_member [100; 47] 53 []; demo_member [46; 47; 100; 47; 98] 48 [9]].
Definition demo_archive : list Z := tar_pack demo_members.
Definition demo_module : limine_file := {|
  lf_address := Some demo_archive; lf_size := Z.of_nat (length demo_archive);
  lf_path := None; lf_string := None |}.
Definition demo_loaded : initrd := {|
  limine_modules := Some {| module_count := 1; modules := [Some demo_module] |};
  initrd_files := initrd_files boot_initrd; initrd_file_count := 0; initrd_initialized := false |}.
Definition demo_files : list (list Z * list Z) := [([47; 97], [1; 2; 3]); ([47; 100; 47; 98], [9])].

Lemma demo_members_ok : Forall member_ok demo_members.
Proof.
  assert (∀ name type data, Forall (λ c, c ≠ 0) name → (length name ≤ 50)%nat → (length data ≤ 9)%nat →
    (type = 48 → (0 < length (strip_dot_slash name) ≤ 50)%nat) → type = 48 ∨ type = 53 →
    member_ok (demo_member name type data)) as H.
  { intros name type data Hn Hl Hd Hs Ht. split; cbn; [split; [done|lia]|split; [constructor|lia]| |done|].
    - change (8 ^ 11) with 8589934592. lia.
    - intros Hf. unfold SCDK_INITRD_MAX_PATH. destruct Ht as [->| ->]; [specialize (Hs eq_refl); lia|done]. }
  constructor; [|constructor; [|constructor; [|constructor]]]; apply H; simpl;
    try lia; try done; try (by repeat constructor).
Qed.

Lemma demo_module_found : find_initrd_module demo_loaded = Ok (Some demo_module).
Proof. reflexivity. Qed.

Lemma demo_archive_size : Z.of_nat (length demo_archive) < 2 ^ 63.
Proof. vm_compute. reflexivity. Qed.

Definition demo_initrd : initrd := (scdk_initrd_init_from_limine demo_loaded).2.

Lemma demo_initrd_rep : initrd_rep demo_initrd demo_files ∧ initrd_initialized demo_initrd = true.
Proof.
  destruct (init_written demo_members demo_loaded demo_module demo_members_ok) as (st' & E & Hr & Hi);
    [done|unfold SCDK_INITRD_MAX_FILES; simpl; lia|exact demo_archive_size|exact demo_module_found|done|done|].
  unfold demo_initrd. rewrite E. done.
Qed.

Lemma initrd_parse_total_witness :
  ∃ r st' fs', parse_tar_image demo_archive (Z.of_nat (length demo_archive)) boot_initrd = (r, st') ∧
    defined r ∧ initrd_rep st' fs' ∧ Forall (inside demo_archive) fs' ∧ (r = Ok tt → fs' ≠ []).
Proof.
  apply (initrd_parse_total demo_archive boot_initrd []).
  - exact demo_archive_size.
  - exact boot_initrd_rep.
  - constructor.
Defined.

Lemma initrd_roundtrip_witness :
  ∃ st' f, scdk_initrd_init_from_limine demo_loaded = (Ok tt, st') ∧
    scdk_initrd_find st' [47; 100; 47; 98; 0] = Ok f ∧ file_bytes f = Some [9].
Proof.
  destruct (initrd_roundtrip demo_members demo_loaded demo_module) as (st' & E & H).
  - exact demo_members_ok.
  - discriminate.
  - unfold SCDK_INITRD_MAX_FILES. simpl. lia.
  - exact demo_archive_size.
  - exact demo_module_found.
  - reflexivity.
  - reflexivity.
  - destruct (H [47; 100; 47; 98; 0] [47; 100; 47; 98]) as (f & Hf & Hb & _).
    + split; [by repeat constructor|by exists []].
    + exists st', f. split_and!; assumption.
Defined.
