(* ===== verification/InitrdDir.v ===== *)
(** * Directories of the boot file system ([scdk_initrd_stat], [scdk_initrd_listdir])

    The table holds only files; a directory exists when some file lies below it.
    The queries are proved against the list of files the table holds. *)
From stdpp Require Import base gmap list numbers.
From Stdlib Require Import ZArith Lia.
From S2P Require Import Prelude.
From S2P Require Import CString.
From S2P Require Import Initrd.

#[local] Open Scope Z_scope.
#[local] Arguments Nat.leb : simpl never.
#[local] Arguments Nat.ltb : simpl never.
#[local] Arguments Nat.eqb : simpl never.
#[local] Arguments drop : simpl never.
#[local] Arguments take : simpl never.
#[local] Arguments bool_decide : simpl never.

(** ** Paths *)

(** A query is a directory path [dir] followed by any number of slashes; [dir]
    is absolute and, unless it is the root, does not end in one. *)
Definition dir_path (dir : list Z) : Prop :=
  dir = [c_slash] ∨ (∃ rest c, dir = c_slash :: rest ++ [c] ∧ c ≠ c_slash).
Definition query_for (path dir : list Z) : Prop :=
  dir_path dir ∧ ∃ k, cstr path (dir ++ replicate k c_slash).

(** What the paths of the files below a directory start with. *)
Definition dir_base (dir : list Z) : list Z :=
  if bool_decide (dir = [c_slash]) then dir else dir ++ [c_slash].

(** The part of a file's path below a directory. *)
Definition under (dir s : list Z) : option (list Z) :=
  if bool_decide (take (length (dir_base dir)) s = dir_base dir ∧ (length (dir_base dir) < length s)%nat)
  then Some (drop (length (dir_base dir)) s) else None.

Lemma under_Some dir s rest :
  under dir s = Some rest ↔ s = dir_base dir ++ rest ∧ rest ≠ [].
Proof.
  unfold under. case_bool_decide as H.
  - destruct H as [Ht Hl]. split.
    + intros [= <-]. split; [by rewrite <-Ht at 1; rewrite take_drop|].
      intros E. apply (f_equal length) in E. rewrite length_drop in E. simpl in E. lia.
    + intros [-> _]. by rewrite drop_app_length.
  - split; [done|]. intros [-> Hne]. destruct H. rewrite take_app_length, length_app.
    split; [done|]. destruct rest; [done|]. simpl. lia.
Qed.

Lemma dir_path_head dir : dir_path dir → ∃ rest, dir = c_slash :: rest.
Proof. intros [->|(rest & c & -> & _)]; by eexists. Qed.

Lemma dir_path_last dir : dir_path dir → dir = [c_slash] ∨ ∃ l c, dir = l ++ [c] ∧ l ≠ [] ∧ c ≠ c_slash.
Proof.
  intros [->|(rest & c & -> & Hc)]; [by left|]. right. by exists (c_slash :: rest), c.
Qed.

Lemma query_char path dir k i c :
  cstr path (dir ++ replicate k c_slash) → (dir ++ replicate k c_slash) !! i = Some c →
  load8 path i = Ok c.
Proof.
  intros Hc Hi. pose proof (lookup_lt_Some _ _ _ Hi).
  rewrite (cstr_char path _ i Hc) by lia. by rewrite Hi.
Qed.

(** Trailing slashes are ignored. *)
Lemma trim_slashes_run path dir k :
  dir_path dir → cstr path (dir ++ replicate k c_slash) → ∀ j, (j ≤ k)%nat →
  trim_slashes path (length dir + j) = Ok (length dir).
Proof.
  intros Hdir Hc. induction j as [|j IH]; intros Hj.
  - rewrite Nat.add_0_r. destruct (dir_path_last dir Hdir) as [->|(l & c & -> & Hl & Hne)]; [done|].
    rewrite length_app, Nat.add_1_r. destruct l as [|x l]; [done|]. cbn [length trim_slashes].
    rewrite (query_char path _ k (S (length l)) c Hc).
    2:{ rewrite <-app_assoc, lookup_app_r by (simpl; lia). simpl. by rewrite Nat.sub_diag. }
    simpl. by rewrite (proj2 (Z.eqb_neq c c_slash)).
  - destruct (dir_path_head dir Hdir) as [rest Hh]. rewrite Nat.add_succ_r.
    replace (length dir + j)%nat with (S (length rest + j)) in * by (rewrite Hh; simpl; lia).
    cbn [trim_slashes]. rewrite (query_char path dir k (S (length rest + j)) c_slash Hc).
    2:{ rewrite lookup_app_r by (rewrite Hh; simpl; lia). apply lookup_replicate.
        split; [done|]. rewrite Hh. simpl. lia. }
    cbn [rbind]. rewrite Z.eqb_refl. apply IH. lia.
Qed.

Lemma normalized_query_len_run path dir :
  query_for path dir → normalized_query_len path = Ok (length dir).
Proof.
  intros [Hdir [k Hc]]. unfold normalized_query_len. rewrite (strlen_Ok _ _ Hc). simpl.
  rewrite length_app, length_replicate. by apply (trim_slashes_run path dir k).
Qed.

Lemma query_bytes path dir : query_for path dir → take (length dir) path = dir ∧ (length dir < length path)%nat.
Proof.
  intros [_ [k Hc]]. pose proof (cstr_length _ _ Hc) as Hl. rewrite length_app in Hl.
  split; [|lia]. rewrite (cstr_take _ _ _ Hc) by (rewrite length_app; lia). by rewrite take_app_length.
Qed.

(** Comparing the stored path with a prefix of the query. *)
Lemma memcmp_query p s path dir :
  cstr p s → query_for path dir → (length dir ≤ length s)%nat →
  ∃ v, memcmp p path (length dir) = Ok v ∧ (v =? 0) = bool_decide (take (length dir) s = dir).
Proof.
  intros Hs Hq Hl. destruct (query_bytes path dir Hq) as [Ht Hlp]. pose proof (cstr_length _ _ Hs).
  destruct (memcmp_Ok p path (length dir)) as (v & E & Hv); [lia|lia|]. exists v. split; [done|].
  rewrite Ht, (cstr_take _ _ _ Hs Hl) in Hv. case_bool_decide.
  - by apply Z.eqb_eq, Hv.
  - apply Z.eqb_neq. tauto.
Qed.

Lemma path_eq_len_run p s path dir :
  cstr p s → query_for path dir → path_eq_len p path (length dir) = Ok (bool_decide (dir = s)).
Proof.
  intros Hs Hq. unfold path_eq_len. rewrite (strlen_Ok _ _ Hs). simpl.
  destruct (Nat.eqb_spec (length s) (length dir)) as [E|E].
  - destruct (memcmp_query p s path dir Hs Hq) as (v & -> & Hv); [lia|]. simpl. rewrite Hv.
    f_equal. apply bool_decide_ext. rewrite <-E, take_ge by lia. naive_solver.
  - f_equal. symmetry. apply bool_decide_eq_false. congruence.
Qed.

Lemma path_has_dir_prefix_run p s path dir :
  cstr p s → query_for path dir → (∃ c rest, s = c_slash :: c :: rest) →
  path_has_dir_prefix p path (length dir) = Ok (bool_decide (is_Some (under dir s))).
Proof.
  intros Hs Hq (c & rest & ->). pose proof Hq as [Hdir [k Hc]]. unfold path_has_dir_prefix.
  assert (bool_decide (dir = [c_slash]) = (length dir =? 1)%nat) as Hroot.
  { destruct (dir_path_last dir Hdir) as [->|(l & x & -> & Hl & _)]; [done|]. symmetry.
    rewrite (bool_decide_eq_false_2 (_ = [c_slash])).
    - apply Nat.eqb_neq. rewrite length_app. destruct l; [done|]. simpl. lia.
    - destruct l as [|y [|z l]]; done. }
  destruct (Nat.eqb_spec (length dir) 1) as [E|E].
  - apply bool_decide_eq_true in Hroot. subst dir.
    rewrite (query_char path _ k 0 c_slash Hc) by done. simpl.
    rewrite (cstr_char p _ 0 Hs), (cstr_char p _ 1 Hs) by (simpl; lia). simpl.
    destruct Hs as [Hnz _]. inversion Hnz as [|? ? _ Hnz2]. inversion Hnz2 as [|? ? Hcz _]. subst.
    rewrite (proj2 (Z.eqb_neq c 0)) by done. simpl.
    rewrite bool_decide_eq_true_2; [done|]. exists (c :: rest). by apply under_Some.
  - apply bool_decide_eq_false in Hroot. cbn [rbind].
    set (s := c_slash :: c :: rest) in *. rewrite (strlen_Ok _ _ Hs). cbn [rbind].
    assert (dir_base dir = dir ++ [c_slash]) as Hb by (unfold dir_base; by rewrite bool_decide_eq_false_2).
    destruct (Nat.ltb_spec (length dir + 1) (length s)) as [Hlt|Hge].
    2:{ f_equal. symmetry. apply bool_decide_eq_false. intros [r [Hu Hr]%under_Some].
        rewrite Hu, Hb, !length_app in Hge. destruct r; [done|]. simpl in Hge. lia. }
    destruct (memcmp_query p s path dir Hs Hq) as (v & -> & Hv); [lia|]. cbn [rbind]. rewrite Hv.
    rewrite (cstr_char p s (length dir) Hs) by lia. cbn [rbind].
    destruct (lookup_lt_is_Some_2 s (length dir)) as [x Hx]; [lia|]. rewrite Hx. simpl default.
    case_bool_decide as Ht; f_equal; symmetry.
    + destruct (Z.eqb_spec x c_slash) as [->|Hne].
      * apply bool_decide_eq_true. exists (drop (length (dir ++ [c_slash])) s). apply under_Some.
        rewrite Hb. rewrite <-(take_drop (length dir) s) at 1. rewrite Ht, (drop_S s c_slash) by done.
        rewrite length_app, Nat.add_1_r, <-app_assoc. split; [done|].
        intros Hn. apply (f_equal length) in Hn. rewrite length_drop in Hn. cbn [length] in Hn. lia.
      * apply bool_decide_eq_false. intros [r [Hu Hr]%under_Some]. destruct Hne.
        rewrite Hu, Hb, <-app_assoc, lookup_app_r, Nat.sub_diag in Hx by lia. by injection Hx.
    + apply bool_decide_eq_false. intros [r [Hu Hr]%under_Some]. destruct Ht.
      by rewrite Hu, Hb, <-app_assoc, take_app_length.
Qed.

(** ** The listing of a directory *)

(** The first component of a path below the directory, and whether more follow. *)
Fixpoint split_name (rest : list Z) : list Z * bool :=
  match rest with
  | [] => ([], false)
  | c :: rest =>
      if c =? c_slash then ([], true) else let (n, b) := split_name rest in (c :: n, b)
  end.

Record dentry : Type := { de_name : list Z; de_dir : bool; de_size : Z }.
Definition as_dir (e : dentry) : dentry := {| de_name := de_name e; de_dir := true; de_size := 0 |}.

(** The entry a file contributes to the listing of [dir]. *)
Definition child (dir : list Z) (x : list Z * list Z) : option dentry :=
  rest ← under dir x.1;
  let (n, b) := split_name rest in
  Some {| de_name := n; de_dir := b; de_size := if b then 0 else Z.of_nat (length x.2) |}.

Definition name_slot (nm : list Z) (l : list dentry) : option nat :=
  find_slot (λ y, bool_decide (de_name y = nm)) l.
Definition ls_add (x : dentry) (l : list dentry) : list dentry :=
  match name_slot (de_name x) l with
  | Some i => if de_dir x then alter as_dir i l else l
  | None => l ++ [x]
  end.
Definition ls_file (dir : list Z) (l : list dentry) (x : list Z * list Z) : list dentry :=
  match child dir x with Some e => ls_add e l | None => l end.
Definition listing (dir : list Z) (fs : list (list Z * list Z)) : list dentry :=
  foldl (ls_file dir) [] fs.

(** A name the array can hold. *)
Definition name_ok (e : dentry) : Prop :=
  (0 < length (de_name e) < SCDK_VFS_MAX_NAME)%nat.

Definition dirent_rep (e : scdk_vfs_dirent) (x : dentry) : Prop :=
  cstr (vd_name e) (de_name x) ∧ length (vd_name e) = SCDK_VFS_MAX_NAME ∧
  vd_type e = (if de_dir x then SCDK_VFS_NODE_DIR else SCDK_VFS_NODE_FILE) ∧ vd_size e = de_size x.

(** The array starts with the entries [l]. *)
Definition dirs_rep (entries : list scdk_vfs_dirent) (l : list dentry) : Prop :=
  ∃ es tail, entries = es ++ tail ∧ Forall2 dirent_rep es l.

(** *** One name *)
Lemma split_name_eq rest n b :
  split_name rest = (n, b) →
  Forall (λ c, c ≠ c_slash) n ∧ (if b then ∃ r, rest = n ++ c_slash :: r else rest = n).
Proof.
  revert n b. induction rest as [|c rest IH]; intros n b; simpl; [by intros [= <- <-]|].
  destruct (Z.eqb_spec c c_slash) as [->|Hc]; [intros [= <- <-]; eauto|].
  destruct (split_name rest) as [n' b']. intros [= <- <-]. destruct (IH n' b' eq_refl) as [Hf Hr].
  split; [by constructor|]. destruct b'; [|by rewrite Hr]. destruct Hr as [r ->]. by exists r.
Qed.

Lemma split_name_app n c r :
  Forall (λ c, c ≠ c_slash) n → c = c_slash → split_name (n ++ c :: r) = (n, true).
Proof.
  intros Hn ->. induction Hn as [|x n Hx Hn IH]; simpl; [done|].
  rewrite (proj2 (Z.eqb_neq x c_slash)) by done. by rewrite IH.
Qed.

Lemma name_span_run p rest n b :
  cstr p rest → split_name rest = (n, b) →
  name_span p = Ok (length n) ∧ load8 p (length n) = Ok (if b then c_slash else 0).
Proof.
  intros [Hnz [tail ->]]. revert n b. induction Hnz as [|c rest Hc Hnz IH]; intros n b; simpl.
  { by intros [= <- <-]. }
  rewrite (proj2 (Z.eqb_neq c 0)) by done. simpl. destruct (c =? c_slash) eqn:Hs; simpl.
  - intros [= <- <-]. split; [done|]. apply Z.eqb_eq in Hs. by subst c.
  - destruct (split_name rest) as [n' b']. intros [= <- <-]. destruct (IH n' b' eq_refl) as [-> Hl].
    split; [done|]. exact Hl.
Qed.

Lemma dirent_name_eq_run e x p :
  dirent_rep e x → ∀ nm, take (length nm) p = nm → (length nm ≤ length p)%nat →
  dirent_name_eq (vd_name e) p (length nm) = Ok (bool_decide (de_name x = nm)).
Proof.
  intros (Hc & _) nm Ht Hl. unfold dirent_name_eq. rewrite (strlen_Ok _ _ Hc). simpl.
  pose proof (cstr_length _ _ Hc). destruct (Nat.eqb_spec (length (de_name x)) (length nm)) as [E|E].
  - destruct (memcmp_Ok (vd_name e) p (length nm)) as (v & -> & Hv); [lia|lia|]. simpl. f_equal.
    rewrite (cstr_take _ _ _ Hc), Ht, take_ge in Hv by lia. case_bool_decide.
    + by apply Z.eqb_eq, Hv.
    + apply Z.eqb_neq. tauto.
  - f_equal. symmetry. apply bool_decide_eq_false. congruence.
Qed.

Lemma find_dirent_run es l tail p nm :
  Forall2 dirent_rep es l → take (length nm) p = nm → (length nm ≤ length p)%nat →
  find_dirent (es ++ tail) (length l) p (length nm) = Ok (name_slot nm l).
Proof.
  intros Hes Ht Hl. induction Hes as [|e x es l He Hes IH]; simpl; [done|].
  rewrite (dirent_name_eq_run e x p He nm Ht Hl). simpl. unfold name_slot in *. simpl.
  case_bool_decide; [done|]. by rewrite IH.
Qed.

Lemma ls_add_length x l : (length l ≤ length (ls_add x l))%nat.
Proof.
  unfold ls_add. destruct (name_slot _ l); [destruct (de_dir x); rewrite ?length_alter; lia|].
  rewrite length_app. lia.
Qed.

Lemma listing_length dir fs l : (length l ≤ length (foldl (ls_file dir) l fs))%nat.
Proof.
  revert l. induction fs as [|x fs IH]; intros l; simpl; [lia|].
  apply Nat.le_trans with (length (ls_file dir l x)); [|apply IH].
  unfold ls_file. destruct (child dir x); [apply ls_add_length|lia].
Qed.

(** *** One entry of the array *)

(** A fresh entry: the name copied over zeroes and terminated. *)
Lemma fresh_dirent x p type size :
  take (length (de_name x)) p = de_name x → (length (de_name x) < length p)%nat →
  Forall (λ c, c ≠ 0) (de_name x) → (length (de_name x) < SCDK_VFS_MAX_NAME)%nat →
  type = (if de_dir x then SCDK_VFS_NODE_DIR else SCDK_VFS_NODE_FILE) → size = de_size x →
  ∃ n1 n2, memcpy (vd_name dirent_zero) 0 p (length (de_name x)) = Ok n1 ∧
    store8 n1 (length (de_name x)) 0 = Ok n2 ∧
    dirent_rep {| vd_name := n2; vd_type := type; vd_size := size |} x.
Proof.
  intros Ht Hlp Hnz Hl Hty Hsz.
  assert (length (vd_name dirent_zero) = SCDK_VFS_MAX_NAME) as Hz by done.
  rewrite memcpy_Ok, Ht by lia. eexists _, _. split; [done|].
  rewrite store8_Ok by (rewrite patch_length; lia). split; [done|].
  pose proof (patch_snoc (vd_name dirent_zero) 0 (de_name x) 0) as Hp. rewrite Nat.add_0_l in Hp.
  rewrite Hp by lia. split; [|split; [|done]]; cbn [vd_name].
  - split; [done|]. eexists. unfold patch. rewrite take_0, <-app_assoc. done.
  - rewrite patch_length; [done|]. rewrite length_app, Hz. cbn [length]. lia.
Qed.

Lemma add_dirent_run entries l x p cap :
  dirs_rep entries l → take (length (de_name x)) p = de_name x →
  (length (de_name x) < length p)%nat → Forall (λ c, c ≠ 0) (de_name x) →
  (de_dir x = true → de_size x = 0) → (cap ≤ length entries)%nat → (length l ≤ cap)%nat →
  let r := add_dirent cap (length l) p (length (de_name x))
    (if de_dir x then SCDK_VFS_NODE_DIR else SCDK_VFS_NODE_FILE) (de_size x) entries in
  (name_ok x ∧ (length (ls_add x l) ≤ cap)%nat → ∃ entries',
     r = (Ok (length (ls_add x l)), entries') ∧ dirs_rep entries' (ls_add x l) ∧
     length entries' = length entries) ∧
  (¬ (name_ok x ∧ (length (ls_add x l) ≤ cap)%nat) → ∃ e, r = (Err e, entries)).
Proof.
  intros (es & tail & -> & Hes) Ht Hlp Hnz Hdz Hcap Hlc r. unfold name_ok.
  pose proof (Forall2_length Hes) as Hlen.
  unfold r, add_dirent.
  destruct (decide (length (de_name x) = 0)%nat) as [E0|E0].
  { rewrite bind_stop by (by apply Nat.eqb_eq). split; [intros [? _]; lia|eauto]. }
  rewrite bind_guard by (by apply Nat.eqb_neq).
  destruct (decide (SCDK_VFS_MAX_NAME ≤ length (de_name x))%nat) as [E1|E1].
  { rewrite bind_stop by (by apply Nat.leb_le). split; [intros [? _]; lia|eauto]. }
  rewrite bind_guard by (apply Nat.leb_gt; lia).
  rewrite (bind_query _ _ _ (name_slot (de_name x) l)) by (apply find_dirent_run; [done|done|lia]).
  unfold ls_add. destruct (name_slot (de_name x) l) as [i|] eqn:Hi.
  - split; [|intros []; split; [lia|]; destruct (de_dir x); rewrite ?length_alter; done].
    intros _. destruct (de_dir x) eqn:Hd; simpl.
    + unfold bind, modify, ret. eexists. split; [by rewrite length_alter|].
      split; [|by rewrite length_alter].
      pose proof (find_slot_lt _ _ _ Hi) as Hil.
      eexists _, tail. rewrite alter_app_l by lia. split; [done|].
      apply Forall2_alter; [done|]. by intros e y _ _ (? & ? & _).
    + eexists. split; [done|]. split; [|done]. by eexists es, tail.
  - rewrite !length_app. cbn [length].
    destruct (decide (cap ≤ length l)%nat) as [E2|E2].
    { rewrite bind_stop by (by apply Nat.leb_le). split; [intros [_ ?]; lia|eauto]. }
    split; [|intros []; lia]. intros _. rewrite bind_guard by (apply Nat.leb_gt; lia).
    rewrite length_app in Hcap. destruct tail as [|t tail]; [simpl in Hcap; lia|].
    assert ((es ++ t :: tail) !! length l = Some t) as Hl.
    { rewrite lookup_app_r, Hlen, Nat.sub_diag by lia. done. }
    rewrite (bind_query _ _ _ t) by (by rewrite Hl).
    destruct (fresh_dirent x p (if de_dir x then SCDK_VFS_NODE_DIR else SCDK_VFS_NODE_FILE) (de_size x))
      as (n1 & n2 & M1 & M2 & Hrep); [done|done|done|lia|done|done|].
    erewrite bind_Ok by (unfold lift; rewrite M1; done).
    erewrite bind_Ok by (unfold lift; rewrite M2; done).
    unfold bind, modify, ret. eexists. split; [done|].
    rewrite <-Hlen, <-(Nat.add_0_r (length es)), insert_app_r. simpl. split.
    + eexists (es ++ [_]), tail. split; [by rewrite <-app_assoc|].
      apply Forall2_app; [done|]. by constructor.
    + rewrite !length_app. simpl. lia.
Qed.

(** *** The loop over the table *)

(** Whether adding [x] to the listing succeeds. *)
Definition fits (dir : list Z) (cap : nat) (l : list dentry) (x : list Z * list Z) : Prop :=
  (∀ e, child dir x = Some e → name_ok e) ∧ (length (ls_file dir l x) ≤ cap)%nat.

Lemma child_under dir s d rest :
  under dir s = Some rest →
  ∃ n b, split_name rest = (n, b) ∧
    child dir (s, d) = Some {| de_name := n; de_dir := b; de_size := if b then 0 else Z.of_nat (length d) |}.
Proof.
  intros H. unfold child. simpl. rewrite H. simpl. destruct (split_name rest) as [n b]. eauto.
Qed.

Lemma remainder_cstr p dir rest :
  dir_path dir → cstr p (dir_base dir ++ rest) →
  cstr (if (length dir =? 1)%nat then drop 1 p else drop (length dir + 1) p) rest.
Proof.
  intros Hdir Hc.
  replace (if (length dir =? 1)%nat then drop 1 p else drop (length dir + 1) p)
    with (drop (length (dir_base dir)) p).
  - replace rest with (drop (length (dir_base dir)) (dir_base dir ++ rest)) by apply drop_app_length.
    apply cstr_drop; [done|]. rewrite length_app. lia.
  - unfold dir_base. destruct (dir_path_last dir Hdir) as [->|(l & c & -> & Hl & _)]; [done|].
    rewrite (bool_decide_eq_false_2 (_ = [c_slash])) by (by destruct l as [|? [|? ?]]).
    rewrite (proj2 (Nat.eqb_neq _ _)) by (rewrite length_app; destruct l; [done|simpl; lia]).
    by rewrite (length_app _ [c_slash]).
Qed.

Lemma list_file_run f x path dir entries l cap :
  entry_rep f x → query_for path dir → dirs_rep entries l →
  (cap ≤ length entries)%nat → (length l ≤ cap)%nat →
  let r := list_file path (length dir) cap (length l) f entries in
  (fits dir cap l x → ∃ entries',
     r = (Ok (length (ls_file dir l x)), entries') ∧ dirs_rep entries' (ls_file dir l x) ∧
     length entries' = length entries) ∧
  (¬ fits dir cap l x → ∃ e, r = (Err e, entries)).
Proof.
  intros Hf Hq He Hcap Hlc r. pose proof Hf as (Hc & _ & Habs & _ & Hsz & _). destruct x as [s d].
  simpl in Hc, Habs, Hsz. unfold r, list_file.
  rewrite (bind_Ok _ _ _ (bool_decide (is_Some (under dir s))) entries)
    by (unfold lift; by rewrite (path_has_dir_prefix_run _ s _ dir)).
  unfold fits, ls_file. case_bool_decide as Hu; cbn [negb].
  2:{ assert (child dir (s, d) = None) as ->.
      { unfold child. simpl. destruct (under dir s); [destruct Hu; eauto|done]. }
      split; [|intros []; split; [done|lia]]. intros _. eexists. split; [done|]. done. }
  destruct Hu as [rest Hu]. destruct (child_under dir s d rest Hu) as (n & b & Hn & ->).
  apply under_Some in Hu as [Hs Hne]. set (e := {| de_name := n |}).
  set (rem := if (length dir =? 1)%nat then drop 1 (ie_path f) else drop (length dir + 1) (ie_path f)).
  assert (cstr rem rest) as Hrem.
  { rewrite Hs in Hc. apply remainder_cstr; [by destruct Hq|done]. }
  pose proof Hrem as [Hnz _]. destruct rest as [|c0 rest']; [done|].
  rewrite (bind_Ok _ _ _ c0 entries).
  2:{ unfold lift. by rewrite (cstr_char _ _ 0 Hrem) by (simpl; lia). }
  rewrite (proj2 (Z.eqb_neq c0 0)) by (by inversion Hnz).
  destruct (name_span_run rem _ n b Hrem Hn) as [Hspan Hend].
  rewrite (bind_Ok _ _ _ (length n) entries) by (unfold lift; by rewrite Hspan).
  rewrite (bind_Ok _ _ _ (if b then c_slash else 0) entries) by (unfold lift; by rewrite Hend).
  replace ((if b then c_slash else 0) =? c_slash) with b by (by destruct b).
  destruct (split_name_eq _ n b Hn) as [_ Hpre].
  assert (∃ r, c0 :: rest' = n ++ r) as [r' Hr'].
  { destruct b; [destruct Hpre as [r' ->]; eauto|exists []; by rewrite app_nil_r]. }
  pose proof (cstr_length _ _ Hrem) as Hlrem. rewrite Hr' in Hlrem, Hrem, Hnz. rewrite length_app in Hlrem.
  destruct (add_dirent_run entries l e rem cap He) as [Hok Hbad]; simpl; [|lia| | |done|done|].
  - rewrite (cstr_take _ _ _ Hrem) by (rewrite length_app; lia). by rewrite take_app_length.
  - by apply Forall_app in Hnz as [? _].
  - by intros ->.
  - rewrite Hsz. split.
    + intros [Hnm Hl]. destruct Hok as (en' & E & ? & ?); [split; [by apply Hnm|done]|].
      exists en'. split_and!; done.
    + intros Hnf. apply Hbad. intros [Hnm Hl]. apply Hnf. split; [by intros ? [= <-]|done].
Qed.

Definition all_fit (dir : list Z) (cap : nat) (l : list dentry) (fs : list (list Z * list Z)) : Prop :=
  (∀ x e, x ∈ fs → child dir x = Some e → name_ok e) ∧ (length (foldl (ls_file dir) l fs) ≤ cap)%nat.

Lemma all_fit_cons dir cap l x fs :
  all_fit dir cap l (x :: fs) ↔ fits dir cap l x ∧ all_fit dir cap (ls_file dir l x) fs.
Proof.
  unfold all_fit, fits. simpl. pose proof (listing_length dir fs (ls_file dir l x)). split.
  - intros [Hn Hl]. split; split; [|lia| |done].
    + intros e. apply Hn. by left.
    + intros y e Hy. apply Hn. by right.
  - intros [[Hx _] [Hn Hl]]. split; [|done]. intros y e [->|Hy]%elem_of_cons; [apply Hx|by apply Hn].
Qed.

#[global] Instance fits_dec dir cap l x : Decision (fits dir cap l x).
Proof.
  unfold fits, name_ok. destruct (child dir x) as [e|].
  - destruct (decide ((0 < length (de_name e) < SCDK_VFS_MAX_NAME)%nat ∧ (length (ls_file dir l x) ≤ cap)%nat)) as [H|H].
    + left. split; [intros ? [= <-]|]; tauto.
    + right. intros [Hn ?]. apply H. split; [by apply Hn|done].
  - destruct (decide (length (ls_file dir l x) ≤ cap)%nat); [by left|right; tauto].
Defined.

#[global] Instance all_fit_dec dir cap l fs : Decision (all_fit dir cap l fs).
Proof.
  revert l. induction fs as [|x fs IH]; intros l.
  - destruct (decide (length l ≤ cap)%nat); [left|right].
    + split; [by intros ? ? ?%elem_of_nil|done].
    + by intros [_ ?].
  - destruct (decide (fits dir cap l x)) as [H|H]; [|right; by rewrite all_fit_cons; intros []].
    destruct (IH (ls_file dir l x)) as [H'|H']; [left|right]; rewrite all_fit_cons; tauto.
Defined.

Lemma list_loop_run es fs tail path dir entries l cap :
  Forall2 entry_rep es fs → query_for path dir → dirs_rep entries l →
  (cap ≤ length entries)%nat → (length l ≤ cap)%nat →
  let r := list_loop path (length dir) cap (length l) (es ++ tail) (length fs) entries in
  (all_fit dir cap l fs → ∃ entries',
     r = (Ok (length (foldl (ls_file dir) l fs)), entries') ∧
     dirs_rep entries' (foldl (ls_file dir) l fs)) ∧
  (¬ all_fit dir cap l fs → ∃ e entries', r = (Err e, entries')).
Proof.
  intros Hes Hq. revert entries l. induction Hes as [|f x es fs Hf Hes IH]; intros entries l He Hcap Hl r.
  { split; [by exists entries|]. intros []. split; [by intros ? ? ?%elem_of_nil|done]. }
  rewrite all_fit_cons. unfold r. cbn [app length list_loop foldl].
  destruct (list_file_run f x path dir entries l cap Hf Hq He Hcap Hl) as [Hok Hbad].
  destruct (decide (fits dir cap l x)) as [Hfit|Hfit].
  - destruct (Hok Hfit) as (en1 & E1 & He1 & Hl1). rewrite (bind_Ok _ _ _ _ _ E1).
    destruct (IH en1 (ls_file dir l x) He1) as [Hok1 Hbad1]; [lia|by destruct Hfit|].
    split; [intros [_ ?]; by apply Hok1|]. intros Hn. apply Hbad1. tauto.
  - destruct (Hbad Hfit) as (e & E). rewrite (bind_Err _ _ _ _ _ E). split; [tauto|eauto].
Qed.

(** ** What the listing contains *)

(** [l] lists the children [cs]: each name once, a directory as soon as one
    child needs it, and a file with the size of a child of that name. *)
Record ls_spec (cs l : list dentry) : Prop := {
  lss_nodup : NoDup (de_name <$> l);
  lss_names : ∀ nm, nm ∈ de_name <$> l ↔ nm ∈ de_name <$> cs;
  lss_dir : ∀ i y, l !! i = Some y →
    (de_dir y = true ↔ ∃ e, e ∈ cs ∧ de_name e = de_name y ∧ de_dir e = true);
  lss_file : ∀ i y, l !! i = Some y → de_dir y = false → y ∈ cs
}.

Lemma name_slot_Some nm l i :
  name_slot nm l = Some i → ∃ y, l !! i = Some y ∧ de_name y = nm.
Proof. intros [(y & Hy & Hn%bool_decide_eq_true) _]%find_slot_Some. eauto. Qed.

Lemma name_slot_None nm l : name_slot nm l = None → nm ∉ de_name <$> l.
Proof.
  intros Hnone (y & -> & [j Hy]%list_elem_of_lookup)%list_elem_of_fmap.
  pose proof (proj1 (find_slot_None _ _) Hnone j y Hy) as H.
  by apply bool_decide_eq_false in H.
Qed.

Lemma names_alter i (l : list dentry) : de_name <$> alter as_dir i l = de_name <$> l.
Proof.
  apply list_eq. intros j. rewrite !list_lookup_fmap, list_lookup_alter. case_decide; [subst|done].
  by destruct (l !! j).
Qed.

Lemma ex_snoc (P : dentry → Prop) cs x :
  (∃ e, e ∈ cs ++ [x] ∧ P e) ↔ (∃ e, e ∈ cs ∧ P e) ∨ P x.
Proof.
  split.
  - intros (e & [He|He%list_elem_of_singleton]%elem_of_app & Hp); [left; eauto|by subst; right].
  - intros [(e & He & Hp)|Hp]; [exists e|exists x]; rewrite elem_of_app, list_elem_of_singleton; auto.
Qed.

Lemma names_snoc nm cs x : nm ∈ de_name <$> cs ++ [x] ↔ nm ∈ de_name <$> cs ∨ nm = de_name x.
Proof. rewrite fmap_app, elem_of_app. simpl. by rewrite list_elem_of_singleton. Qed.

Lemma name_of_lookup (l : list dentry) i y : l !! i = Some y → de_name y ∈ de_name <$> l.
Proof. intros H. apply list_elem_of_fmap. exists y. split; [done|]. by eapply list_elem_of_lookup_2. Qed.

(** The name is already listed: nothing changes, or the entry becomes a
    directory. *)
Lemma ls_spec_found cs l x i y :
  ls_spec cs l → l !! i = Some y → de_name y = de_name x →
  ls_spec (cs ++ [x]) (if de_dir x then alter as_dir i l else l).
Proof.
  intros [Hnd Hnm Hdir Hfile] Hy Hyn. pose proof (name_of_lookup l i y Hy) as Hin. rewrite Hyn in Hin.
  assert (∀ j z, l !! j = Some z → de_name x = de_name z → j = i) as Huniq.
  { intros j z Hz Hzn. apply (NoDup_lookup (de_name <$> l) j i (de_name x) Hnd);
      rewrite list_lookup_fmap, ?Hz, ?Hy; simpl; congruence. }
  assert (∀ nm, nm ∈ de_name <$> l ↔ nm ∈ de_name <$> cs ++ [x]) as Hnm'.
  { intros nm. rewrite names_snoc, <-Hnm. split; [by left|]. by intros [?| ->]. }
  destruct (de_dir x) eqn:Hd; split; rewrite ?names_alter; try done.
  - intros j z. rewrite list_lookup_alter. case_decide as Hij; [subst j; rewrite Hy|].
    + intros [= <-]. simpl. rewrite ex_snoc. split; [|done]. intros _. right. by split.
    + intros Hz. rewrite (Hdir j z Hz), ex_snoc. split; [by left|]. intros [?|[Hn _]]; [done|].
      destruct Hij. symmetry. by apply (Huniq j z).
  - intros j z. rewrite list_lookup_alter. case_decide as Hij; [subst j; rewrite Hy; by intros [= <-]|].
    intros Hz Hzd. apply elem_of_app. left. by apply (Hfile j z).
  - intros j z Hz. rewrite (Hdir j z Hz), ex_snoc. split; [by left|]. intros [?|[_ ?]]; [done|congruence].
  - intros j z Hz Hzd. apply elem_of_app. left. by apply (Hfile j z).
Qed.

Lemma ls_spec_new cs l x :
  ls_spec cs l → de_name x ∉ de_name <$> l → ls_spec (cs ++ [x]) (l ++ [x]).
Proof.
  intros [Hnd Hnm Hdir Hfile] Hi. split.
  - rewrite fmap_app. apply list.NoDup_app. split; [done|]. split; [|apply NoDup_singleton].
    by intros nm Hin ->%list_elem_of_singleton.
  - intros nm. by rewrite !names_snoc, Hnm.
  - intros j z [Hz|[_ [_ ->]%list_lookup_singleton_Some]]%lookup_app_Some; rewrite ex_snoc.
    + rewrite (Hdir j z Hz). split; [by left|]. intros [?|[Hn _]]; [done|].
      destruct Hi. rewrite Hn. by apply (name_of_lookup l j).
    + split; [by right|]. intros [(e & He & Hen & _)|[_ ?]]; [|done].
      destruct Hi. apply Hnm. rewrite <-Hen. apply list_elem_of_fmap. by exists e.
  - intros j z Hz Hzd. apply elem_of_app.
    apply lookup_app_Some in Hz as [Hz|[_ [_ ->]%list_lookup_singleton_Some]]; [left; by apply (Hfile j z)|].
    right. by left.
Qed.

Lemma ls_spec_add cs l x : ls_spec cs l → ls_spec (cs ++ [x]) (ls_add x l).
Proof.
  intros Hs. unfold ls_add. destruct (name_slot (de_name x) l) as [i|] eqn:Hi.
  - destruct (name_slot_Some _ _ _ Hi) as (y & Hy & Hyn). by apply (ls_spec_found cs l x i y).
  - apply ls_spec_new; [done|]. by apply name_slot_None.
Qed.

Lemma listing_spec dir fs : ls_spec (omap (child dir) fs) (listing dir fs).
Proof.
  induction fs as [|x fs IH] using rev_ind.
  { split; [constructor|done|by intros|by intros]. }
  unfold listing. rewrite foldl_snoc, omap_app. unfold ls_file at 1. fold (listing dir fs). simpl.
  destruct (child dir x) as [e|]; [by apply ls_spec_add|by rewrite app_nil_r].
Qed.

(** ** The queries *)

(** The root is not a file. *)
Lemma root_not_file st fs : initrd_rep st fs → file_lookup [c_slash] fs = None.
Proof.
  intros [(es & _ & Hes) _ _]. apply file_lookup_none.
  induction Hes as [|f x es fs Hf Hes IH]; constructor; [|done].
  by destruct Hf as (_ & _ & (c & rest & ->) & _).
Qed.

(** The boot file system has a directory there. *)
Definition is_dir (dir : list Z) (fs : list (list Z * list Z)) : Prop :=
  dir = [c_slash] ∨ ∃ x, x ∈ fs ∧ is_Some (under dir x.1).

#[global] Instance is_dir_dec dir fs : Decision (is_dir dir fs).
Proof.
  refine (cast_if (decide (dir = [c_slash] ∨ Exists (λ x : list Z * list Z, is_Some (under dir x.1)) fs)));
    unfold is_dir; by rewrite <-list.Exists_exists.
Defined.

Lemma initrd_stat_run st fs path dir :
  initrd_rep st fs → initrd_initialized st = true → query_for path dir →
  match file_lookup dir fs with
  | Some d => scdk_initrd_stat st path = Ok {| vs_type := SCDK_VFS_NODE_FILE; vs_size := Z.of_nat (length d) |}
  | None => (is_dir dir fs ∧ scdk_initrd_stat st path = Ok {| vs_type := SCDK_VFS_NODE_DIR; vs_size := 0 |})
      ∨ (¬ is_dir dir fs ∧ scdk_initrd_stat st path = Err SCDK_ERR_NOENT)
  end.
Proof.
  intros Hr Hi Hq. pose proof Hq as [Hdir [k Hc]]. destruct (dir_path_head dir Hdir) as [r0 Hd0].
  unfold scdk_initrd_stat. rewrite rpass by (by rewrite Hi).
  rewrite (query_char path dir k 0 c_slash Hc) by (by rewrite Hd0). cbn [rbind].
  rewrite rpass by done. rewrite (normalized_query_len_run path dir Hq). cbn [rbind].
  destruct (Nat.eqb_spec (length dir) 1) as [E|E].
  { assert (dir = [c_slash]) as -> by (rewrite Hd0 in *; by destruct r0).
    rewrite (root_not_file st) by done. left. split; [by left|done]. }
  destruct (first_file_run (λ f, path_eq_len (ie_path f) path (length dir))
    (λ x, bool_decide (dir = x.1)) st fs Hr) as (r & -> & Hf).
  { intros f x (Hx & _). by apply path_eq_len_run. }
  cbn [rbind]. destruct r as [f|].
  { destruct Hf as (l & x & l' & -> & Hx & Hqx & Hl). rewrite file_lookup_first by done.
    by destruct Hx as (_ & _ & _ & _ & -> & _). }
  rewrite file_lookup_none by done.
  destruct (first_file_run (λ f, path_has_dir_prefix (ie_path f) path (length dir))
    (λ x, bool_decide (is_Some (under dir x.1))) st fs Hr) as (r & -> & Hf').
  { intros f x (Hx & _ & Habs & _). by apply path_has_dir_prefix_run. }
  cbn [rbind]. destruct r as [f|].
  - destruct Hf' as (l & x & l' & -> & _ & Hqx%bool_decide_eq_true & _). left. split; [|done].
    right. exists x. split; [|done]. apply elem_of_app. right. by left.
  - right. split; [|done]. intros [->|(x & Hx & Hu)]; [done|].
    rewrite list.Forall_forall in Hf'. specialize (Hf' x Hx). by apply bool_decide_eq_false in Hf'.
Qed.

Lemma initrd_listdir_run st fs path dir cap entries :
  initrd_rep st fs → initrd_initialized st = true → query_for path dir →
  (0 < cap ≤ length entries)%nat →
  let r := scdk_initrd_listdir st path cap entries in
  (is_dir dir fs ∧ file_lookup dir fs = None ∧ all_fit dir cap [] fs → ∃ entries',
     r = (Ok (length (listing dir fs)), entries') ∧ dirs_rep entries' (listing dir fs)) ∧
  (¬ (is_dir dir fs ∧ file_lookup dir fs = None ∧ all_fit dir cap [] fs) → ∃ e entries', r = (Err e, entries')).
Proof.
  intros Hr Hi Hq Hcap r. pose proof Hq as [Hdir [k Hc]]. destruct (dir_path_head dir Hdir) as [r0 Hd0].
  pose proof (initrd_stat_run st fs path dir Hr Hi Hq) as Hstat.
  unfold r, scdk_initrd_listdir. rewrite bind_guard by (by rewrite Hi).
  rewrite bind_guard by (apply Nat.eqb_neq; lia).
  rewrite (bind_Ok _ _ _ c_slash entries)
    by (unfold lift; by rewrite (query_char path dir k 0 c_slash Hc) by (by rewrite Hd0)).
  rewrite bind_guard by done.
  rewrite (bind_Ok _ _ _ (length dir) entries) by (unfold lift; by rewrite (normalized_query_len_run path dir Hq)).
  destruct (file_lookup dir fs) as [d|].
  { erewrite bind_Ok by (unfold lift; rewrite Hstat; done). rewrite bind_stop by done.
    split; [by intros (_ & ? & _)|eauto]. }
  destruct Hstat as [[Hisd Hstat]|[Hnd Hstat]].
  2:{ erewrite bind_Err by (unfold lift; rewrite Hstat; done). split; [by intros (? & _)|eauto]. }
  erewrite bind_Ok by (unfold lift; rewrite Hstat; done). rewrite bind_guard by done.
  destruct (lookup_lt_is_Some_2 entries (cap - 1)) as [e0 He0]; [lia|].
  rewrite (bind_query _ _ _ e0) by (by rewrite He0). rewrite bind_modify.
  destruct Hr as [(es & -> & Hes) -> _].
  destruct (list_loop_run es fs (replicate (SCDK_INITRD_MAX_FILES - length fs) entry_zero) path dir
    (replicate cap dirent_zero ++ drop cap entries) [] cap Hes Hq) as [Hok Hbad].
  - by eexists [], _.
  - rewrite length_app, length_replicate. lia.
  - simpl. lia.
  - split; [intros (_ & _ & ?); by apply Hok|]. intros Hn. apply Hbad. tauto.
Qed.

(** [scdk_initrd_stat] answers from the packed files: a path that names a
    file is a file of that size, even when trailing slashes follow it; otherwise
    a path is a directory exactly when it is the root or some file lies below
    it; and nothing else exists. *)
Theorem initrd_stat_exact (st : initrd) (fs : list (list Z * list Z)) (path dir : list Z) :
  initrd_rep st fs → initrd_initialized st = true → query_for path dir →
  match file_lookup dir fs with
  | Some d => scdk_initrd_stat st path = Ok {| vs_type := SCDK_VFS_NODE_FILE; vs_size := Z.of_nat (length d) |}
  | None => (is_dir dir fs ∧ scdk_initrd_stat st path = Ok {| vs_type := SCDK_VFS_NODE_DIR; vs_size := 0 |})
      ∨ (¬ is_dir dir fs ∧ scdk_initrd_stat st path = Err SCDK_ERR_NOENT)
  end.
Proof. exact (initrd_stat_run st fs path dir). Qed.

(** C26. [scdk_initrd_listdir] lists a directory exactly: it succeeds precisely
    when the path is a directory, every name below it is non-empty and shorter
    than 64 bytes, and the names fit the caller's array (otherwise it returns an
    error, never undefined behaviour); then the array holds each name once, the
    names are exactly the first components of the files below the directory, an
    entry is a directory exactly when some file lies deeper under that name, and
    a file entry carries the size of a packed file of that path. *)
Theorem initrd_listdir_exact (st : initrd) (fs : list (list Z * list Z)) (path dir : list Z)
    (cap : nat) (entries : list scdk_vfs_dirent) :
  initrd_rep st fs → initrd_initialized st = true → query_for path dir →
  (0 < cap ≤ length entries)%nat →
  defined (scdk_initrd_listdir st path cap entries).1 ∧
  (is_Ok (scdk_initrd_listdir st path cap entries).1 ↔
     is_dir dir fs ∧ file_lookup dir fs = None ∧ all_fit dir cap [] fs) ∧
  (∀ n entries', scdk_initrd_listdir st path cap entries = (Ok n, entries') →
     n = length (listing dir fs) ∧ dirs_rep entries' (listing dir fs) ∧
     ls_spec (omap (child dir) fs) (listing dir fs)).
Proof.
  intros Hr Hi Hq Hcap. destruct (initrd_listdir_run st fs path dir cap entries Hr Hi Hq Hcap) as [Hok Hbad].
  destruct (decide (is_dir dir fs ∧ file_lookup dir fs = None ∧ all_fit dir cap [] fs)) as [H|H].
  - destruct (Hok H) as (en & E & Hrep). rewrite E. split; [done|]. split; [split; [done|by eexists]|].
    intros n entries' [= <- <-]. split_and!; [done|done|apply listing_spec].
  - destruct (Hbad H) as (e & en & E). rewrite E. split; [done|]. split; [|done].
    split; [by intros []|done].
Qed.

(** ** The concrete archive of [Initrd] *)
Definition demo_array : list scdk_vfs_dirent := replicate 4 dirent_zero.

Lemma demo_query (dir : list Z) (k : nat) :
  dir_path dir → Forall (λ c, c ≠ 0) dir → query_for ((dir ++ replicate k c_slash) ++ [0]) dir.
Proof.
  intros Hd Hn. split; [done|]. exists k. split; [|by exists []].
  apply Forall_app. split; [done|]. by apply list.Forall_replicate.
Qed.

(** [/d//] is a directory; [/a/] is the file [/a]. *)
Lemma initrd_stat_exact_witness :
  scdk_initrd_stat demo_initrd [47; 97; 47; 0] = Ok {| vs_type := SCDK_VFS_NODE_FILE; vs_size := 3 |} ∧
  query_for [47; 97; 47; 0] [47; 97].
Proof.
  assert (query_for [47; 97; 47; 0] [47; 97]) as Hq.
  { apply (demo_query [47; 97] 1); [|by repeat constructor]. right. by exists [], 97. }
  split; [|exact Hq].
  exact (initrd_stat_exact demo_initrd demo_files [47; 97; 47; 0] [47; 97]
    (proj1 demo_initrd_rep) (proj2 demo_initrd_rep) Hq).
Defined.

Lemma initrd_listdir_exact_witness :
  is_Ok (scdk_initrd_listdir demo_initrd [47; 0] 4 demo_array).1 ∧
  listing [47] demo_files =
    [{| de_name := [97]; de_dir := false; de_size := 3 |}; {| de_name := [100]; de_dir := true; de_size := 0 |}].
Proof.
  split; [|reflexivity].
  refine (proj2 (proj1 (proj2 (initrd_listdir_exact demo_initrd demo_files [47; 0] [47] 4 demo_array
    (proj1 demo_initrd_rep) (proj2 demo_initrd_rep) _ _))) _).
  - apply (demo_query [47] 0); [by left|by repeat constructor].
  - unfold demo_array. simpl. lia.
  - split; [by left|]. split; [reflexivity|]. apply (bool_decide_eq_true_1 _). vm_compute. reflexivity.
Defined.
