(* ===== verification/UserMemory.v ===== *)
(** * Access to user memory ([src/ipc/user_ipc.c]: range validation and copies)

    The kernel reads and writes user memory through user pointers, so what an
    access does depends on the page tables the processor walks. A copy is
    modelled byte by byte, each byte translated by the processor at the time it
    is accessed. *)
From stdpp Require Import base gmap list numbers relations.
From Stdlib Require Import ZArith Lia.
From S2P Require Import Prelude.
From S2P Require Import Kernel.
From S2P Require Import Pmm.
From S2P Require Import Vmm.
From S2P Require Import HeapVm.
From S2P Require Import AddressSpace.
From S2P Require Import CString.

#[local] Open Scope Z_scope.

(** ** The processor's view *)

(** A byte of physical memory; words are little endian. *)
Definition load_byte (k : kernel) (p : Z) : Z :=
  Z.land (Z.shiftr (load64 k (p - p mod 8)) (8 * (p mod 8))) 255.
Definition store_byte (p b : Z) (k : kernel) : kernel :=
  let a := p - p mod 8 in
  let shift := 8 * (p mod 8) in
  store64 a (Z.lor (Z.ldiff (load64 k a) (Z.shiftl 255 shift)) (Z.shiftl b shift)) k.

(** The translation of a kernel-mode access: a walk from CR3. A page that is
    not mapped gives a fault in the kernel, which panics. Huge pages are not
    used for user memory and count as not mapped. *)
Definition mmu (k : kernel) (virt : Z) : result Z :=
  match pte k (Z.land (cr3 (k_vmm k)) X86_CR3_ADDR) virt with
  | Ok entry => Ok (pte_translation virt entry).1
  | _ => Ub
  end.

(** The same for a store: with CR0.WP set, as the boot loader leaves it, a page
    without the writable bit faults in kernel mode too. The tables above the leaf
    are made writable. *)
Definition mmu_write (k : kernel) (virt : Z) : result Z :=
  match pte k (Z.land (cr3 (k_vmm k)) X86_CR3_ADDR) virt with
  | Ok entry =>
      let t := pte_translation virt entry in
      if Z.land t.2 SCDK_VMM_MAP_WRITE =? 0 then Ub else Ok t.1
  | _ => Ub
  end.

(** [memcpy] from and to user memory, [n] bytes to go. *)
Fixpoint user_load (k : kernel) (virt : Z) (n : nat) : result (list Z) :=
  match n with
  | O => Ok []
  | S n =>
      let? p := mmu k virt in
      let? rest := user_load k (virt + 1) n in
      Ok (load_byte k p :: rest)
  end.
Fixpoint user_store (virt : Z) (src : list Z) (n : nat) : K unit :=
  match n, src with
  | O, _ => ret tt
  | S _, [] => ub
  | S n, b :: src =>
      let* p := query (λ k, mmu_write k virt) in
      modify (store_byte p b) ;;
      user_store (virt + 1) src n
  end.

(** ** Operations *)
Definition checked_user_end (user_ptr size : Z) : option Z :=
  if (user_ptr =? 0) || (size =? 0) then None
  else if wrap64 (two64 - 1 - (size - 1)) <? user_ptr then None
  else
    let last := wrap64 (user_ptr + size - 1) in
    if (user_ptr <? SCDK_USER_VIRT_BASE) || (SCDK_USER_VIRT_TOP <=? last) then None
    else Some last.

(** [page & ~(SCDK_PAGE_SIZE - 1)] *)
Definition page_of (v : Z) : Z := Z.land v (not64 (SCDK_PAGE_SIZE - 1)).

(** The loop over the pages; [fuel] bounds its turns. *)
Fixpoint validate_pages (fuel : nat) (k : kernel) (page last : Z) (writable : bool) : result unit :=
  match fuel with
  | O => Ub
  | S fuel =>
      let? t := scdk_vmm_virt_to_phys k page in
      let? _ := rguard (Z.land t.2 SCDK_VMM_MAP_USER =? 0) SCDK_ERR_PERM in
      let? _ := rguard (writable && (Z.land t.2 SCDK_VMM_MAP_WRITE =? 0)) SCDK_ERR_PERM in
      if page_of last <=? page then Ok tt
      else validate_pages fuel k (wrap64 (page + SCDK_PAGE_SIZE)) last writable
  end.

(** One turn per page of the range. *)
Definition page_turns (page last : Z) : nat := S (Z.to_nat ((last - page) / SCDK_PAGE_SIZE)).

Definition scdk_user_validate_range (k : kernel) (user_ptr size : Z) (writable : bool) : result unit :=
  match checked_user_end user_ptr size with
  | None => Err SCDK_ERR_BOUNDS
  | Some last =>
      let page := page_of user_ptr in
      validate_pages (page_turns page last) k page last writable
  end.

Definition scdk_user_copy_from (k : kernel) (user_ptr size : Z) : result (list Z) :=
  let? _ := rguard (size =? 0) SCDK_ERR_INVAL in
  let? _ := scdk_user_validate_range k user_ptr size false in
  user_load k user_ptr (Z.to_nat size).

Definition scdk_user_copy_to (user_ptr : Z) (kernel_src : list Z) (size : Z) : K unit :=
  guard (size =? 0) SCDK_ERR_INVAL ;;
  query (λ k, scdk_user_validate_range k user_ptr size true) ;;
  user_store user_ptr kernel_src (Z.to_nat size).

(** ** Bytes *)
Section bytes.
Implicit Types (k : kernel) (p q b : Z).

Lemma byte_testbit b n : byte b → 8 <= n → Z.testbit b n = false.
Proof.
  intros [H0 H1] Hn. destruct (decide (b = 0)) as [->|]; [apply Z.bits_0|].
  apply Z.bits_above_log2; [done|]. assert (Z.log2 b < 8); [|lia].
  apply Z.log2_lt_pow2; [lia|]. change (2 ^ 8) with 256. lia.
Qed.
Lemma mask_testbit n : 0 <= n → Z.testbit 255 n = (n <? 8).
Proof.
  intros Hn. change 255 with (Z.ones 8). destruct (Z.ltb_spec n 8).
  - apply Z.ones_spec_low. lia.
  - apply Z.ones_spec_high. lia.
Qed.

Lemma load_byte_range k p : byte (load_byte k p).
Proof.
  unfold load_byte. change 255 with (Z.ones 8). rewrite Z.land_ones by done.
  apply Z.mod_pos_bound. done.
Qed.

(** Storing a byte changes that byte only. *)
Lemma load_store_byte k p q b :
  byte b → load_byte (store_byte p b k) q = if decide (q = p) then b else load_byte k q.
Proof.
  intros Hb. unfold load_byte, store_byte. rewrite load_store.
  pose proof (Z.mod_pos_bound p 8 ltac:(done)) as Hp. pose proof (Z.mod_pos_bound q 8 ltac:(done)) as Hq.
  destruct (Z.eqb_spec (q - q mod 8) (p - p mod 8)) as [E|E]; [|rewrite decide_False by congruence; done].
  rewrite E. apply Z.bits_inj'. intros n Hn.
  rewrite Z.land_spec, mask_testbit by done. destruct (Z.ltb_spec n 8) as [Hn8|Hn8].
  - rewrite andb_true_r, Z.shiftr_spec, Z.lor_spec, Z.ldiff_spec by done.
    rewrite !Z.shiftl_spec by lia. destruct (decide (q = p)) as [->|Hne].
    + replace (n + 8 * (p mod 8) - 8 * (p mod 8)) with n by lia.
      rewrite mask_testbit by done. rewrite (proj2 (Z.ltb_lt _ _) Hn8), andb_false_r. done.
    + assert (q mod 8 ≠ p mod 8) as Hm by lia.
      rewrite Z.land_spec, (mask_testbit n), (proj2 (Z.ltb_lt _ _) Hn8), andb_true_r, Z.shiftr_spec by done.
      destruct (Z.ltb_spec (n + 8 * (q mod 8) - 8 * (p mod 8)) 0) as [Hs|Hs].
      * rewrite !(Z.testbit_neg_r _ (n + 8 * (q mod 8) - 8 * (p mod 8))) by done.
        by rewrite andb_true_r, orb_false_r.
      * rewrite mask_testbit, (byte_testbit b) by (done || lia).
        rewrite (proj2 (Z.ltb_ge _ _)) by lia. by rewrite andb_true_r, orb_false_r.
  - rewrite andb_false_r. symmetry. destruct (decide (q = p)); [by apply byte_testbit|].
    rewrite Z.land_spec, mask_testbit, (proj2 (Z.ltb_ge _ _) Hn8) by done. apply andb_false_r.
Qed.
End bytes.

(** ** Validation *)

(** [v] is mapped for user code, for writing when [w]. *)
Definition user_byte (k : kernel) (w : bool) (v : Z) : Prop :=
  ∃ t, scdk_vmm_virt_to_phys k v = Ok t ∧ Z.land t.2 SCDK_VMM_MAP_USER ≠ 0 ∧
    (w = true → Z.land t.2 SCDK_VMM_MAP_WRITE ≠ 0).

Section validation.
Implicit Types (k : kernel) (v last : Z) (w : bool).

Lemma page_of_split v :
  u64 v → page_of v mod 4096 = 0 ∧ v = page_of v + v mod 4096 ∧ 0 <= v mod 4096 < 4096 ∧ u64 (page_of v).
Proof.
  intros Hv. unfold page_of. rewrite page_base by done. unfold u64 in *.
  Z.to_euclidean_division_equations; lia.
Qed.
Lemma page_of_page v : u64 v → v mod 4096 = 0 → page_of v = v.
Proof. intros Hv Ha. unfold page_of. rewrite page_base by done. lia. Qed.

Lemma pte_page k root v : u64 v → pte k root (page_of v) = pte k root v.
Proof.
  intros Hv. destruct (page_of_split v Hv) as (Ha & E & Ho & _).
  destruct (path_offset (page_of v) (v mod 4096) Ha Ho) as [Hp Hi]. rewrite <-E in Hp, Hi.
  unfold pte. by rewrite Hp, Hi.
Qed.

Lemma virt_to_phys_defined k v : defined (scdk_vmm_virt_to_phys k v).
Proof.
  unfold scdk_vmm_virt_to_phys. rewrite virt_to_phys_pte.
  apply rbind_defined; [apply validate_root_defined|intros ? _].
  apply rbind_defined; [apply validate_address_defined|intros ? _].
  apply rbind_defined; [|done]. apply rbind_defined; [apply reach_defined|].
  intros pt _. unfold leaf_entry. by case_match.
Qed.

(** Permissions are those of the page. *)
Lemma user_byte_page k w v : u64 v → user_byte k w (page_of v) ↔ user_byte k w v.
Proof.
  intros Hv. destruct (page_of_split v Hv) as (Ha & _ & _ & Hu). unfold user_byte, scdk_vmm_virt_to_phys.
  rewrite !virt_to_phys_pte. fold (page_of v). fold (page_of (page_of v)).
  rewrite (page_of_page (page_of v)) by done. rewrite pte_page by done.
  destruct (validate_root _ _); simpl; [|naive_solver..].
  destruct (validate_vmm_address _ _); simpl; [|naive_solver..].
  destruct (pte _ _ v) as [e| |]; simpl; [|naive_solver..].
  split; intros (t & [= <-] & H); by eexists.
Qed.

(** One turn of the loop. *)
Lemma check_page k w v :
  (let? t := scdk_vmm_virt_to_phys k v in
   let? _ := rguard (Z.land t.2 SCDK_VMM_MAP_USER =? 0) SCDK_ERR_PERM in
   rguard (w && (Z.land t.2 SCDK_VMM_MAP_WRITE =? 0)) SCDK_ERR_PERM) = Ok tt ↔ user_byte k w v.
Proof.
  unfold user_byte. split.
  - intros H. minv H. exists a. bsplit. split; [done|]. split; [done|]. intros ->. simpl in H. by apply Z.eqb_neq.
  - intros (t & -> & Hu & Hw). simpl. rewrite (proj2 (Z.eqb_neq _ _) Hu). simpl.
    destruct w; simpl; [|done]. by rewrite (proj2 (Z.eqb_neq _ _) (Hw eq_refl)).
Qed.

(** The loop ends within its fuel and accepts exactly the mapped ranges. *)
Lemma validate_pages_spec k w last n : ∀ page,
  n = page_turns page last → page mod 4096 = 0 → 0 <= page <= last → last < SCDK_USER_VIRT_TOP →
  defined (validate_pages n k page last w) ∧
  (validate_pages n k page last w = Ok tt ↔ ∀ v, page <= v <= last → user_byte k w v).
Proof.
  induction n as [|n IH]; intros page Hn Ha Hr Ht; [done|]. unfold SCDK_USER_VIRT_TOP in Ht.
  assert (∀ v, 0 <= v <= last → u64 v) as Hu by (unfold u64, two64; lia).
  assert (page_of last = last - last mod 4096) as El by (unfold page_of; apply page_base, Hu; lia).
  assert (∀ v, page <= v < page + 4096 → v <= last → user_byte k w page ↔ user_byte k w v) as Hsame.
  { intros v Hv Hl. rewrite <-(user_byte_page k w v) by (apply Hu; lia).
    replace (page_of v) with page; [done|]. unfold page_of. rewrite page_base by (apply Hu; lia).
    Z.to_euclidean_division_equations; lia. }
  assert ((∀ v, page <= v <= last → user_byte k w v) → user_byte k w page) as Hfirst.
  { intros H. apply H. lia. }
  pose proof (check_page k w page) as Hc. pose proof (virt_to_phys_defined k page) as Hd.
  cbn [validate_pages]. destruct (scdk_vmm_virt_to_phys k page) as [t| |] eqn:Et; simpl in Hc |- *; [| |done].
  2:{ split; [done|]. split; [done|]. intros H. discriminate (proj2 Hc (Hfirst H)). }
  destruct (rguard (Z.land t.2 SCDK_VMM_MAP_USER =? 0) SCDK_ERR_PERM) as [[]|e|] eqn:E1; simpl in Hc |- *.
  2,3: split; [by unfold rguard in E1; case_match|]; split; [done|]; intros H; discriminate (proj2 Hc (Hfirst H)).
  destruct (rguard (w && _) SCDK_ERR_PERM) as [[]|e|] eqn:E2; simpl in Hc |- *.
  2,3: split; [by unfold rguard in E2; case_match|]; split; [done|]; intros H; discriminate (proj2 Hc (Hfirst H)).
  assert (user_byte k w page) as Hpage by (by apply Hc).
  destruct (Z.leb_spec (page_of last) page) as [Hle|Hgt].
  { split; [done|]. split; [|done]. intros _ v Hv. apply (Hsame v); [|lia|done].
    rewrite El in Hle. Z.to_euclidean_division_equations; lia. }
  assert (page + 4096 <= last) as Hnext by (rewrite El in Hgt; Z.to_euclidean_division_equations; lia).
  change SCDK_PAGE_SIZE with 4096. unfold wrap64. rewrite Z.mod_small by (unfold two64; lia).
  destruct (IH (page + 4096)) as [IHd IHo]; [|Z.to_euclidean_division_equations; lia|lia|done|].
  { injection Hn as ->. unfold page_turns. change SCDK_PAGE_SIZE with 4096.
    replace (last - page) with (last - (page + 4096) + 1 * 4096) by lia.
    rewrite Z.div_add by done. rewrite Z2Nat.inj_add by (Z.to_euclidean_division_equations; lia). lia. }
  split; [exact IHd|]. rewrite IHo. split.
  - intros H v Hv. destruct (Z.lt_ge_cases v (page + 4096)); [apply (Hsame v); [lia|lia|done]|apply H; lia].
  - intros H v Hv. apply H. lia.
Qed.

Lemma checked_user_end_spec p n :
  u64 p → u64 n →
  checked_user_end p n =
    if decide (0 < n ∧ SCDK_USER_VIRT_BASE <= p ∧ p + n <= SCDK_USER_VIRT_TOP) then Some (p + n - 1) else None.
Proof.
  unfold u64. intros Hp Hn. unfold checked_user_end, wrap64, SCDK_USER_VIRT_BASE, SCDK_USER_VIRT_TOP.
  unfold two64 in *.
  destruct (Z.eqb_spec p 0); [rewrite decide_False by lia; done|].
  destruct (Z.eqb_spec n 0); [rewrite decide_False by lia; done|]. cbn [orb].
  rewrite (Z.mod_small (_ - 1 - _)) by lia.
  destruct (Z.ltb_spec (18446744073709551616 - 1 - (n - 1)) p); [rewrite decide_False by lia; done|].
  rewrite Z.mod_small by lia.
  destruct (Z.ltb_spec p 1048576); [rewrite decide_False by lia; done|]. cbn [orb].
  destruct (Z.leb_spec 140737488355328 (p + n - 1)); [by rewrite decide_False by lia|by rewrite decide_True by lia].
Qed.

Lemma validate_range_spec k p n w :
  u64 p → u64 n →
  defined (scdk_user_validate_range k p n w) ∧
  (scdk_user_validate_range k p n w = Ok tt ↔
   0 < n ∧ SCDK_USER_VIRT_BASE <= p ∧ p + n <= SCDK_USER_VIRT_TOP ∧
   ∀ v, p <= v < p + n → user_byte k w v).
Proof.
  intros Hp Hn. unfold scdk_user_validate_range. rewrite checked_user_end_spec by done.
  destruct (decide _) as [(H1 & H2 & H3)|Hno]; [|split; [done|]; split; [done|intros (H1 & H2 & H3 & _); by destruct Hno]].
  destruct (page_of_split p Hp) as (Ha & E & Ho & Hu).
  destruct (validate_pages_spec k w (p + n - 1) _ (page_of p) eq_refl Ha) as [Hd Hs];
    [unfold u64 in Hu; lia|lia|].
  split; [exact Hd|]. rewrite Hs. split.
  - intros H. split_and!; [done..|]. intros v Hv. apply H. lia.
  - intros (_ & _ & _ & H) v Hv. destruct (Z.lt_ge_cases v p); [|apply H; lia].
    assert (page_of p = page_of v) as Epv.
    { unfold page_of in *. rewrite !page_base in * by (unfold u64, two64, SCDK_USER_VIRT_TOP in *; lia).
      Z.to_euclidean_division_equations; lia. }
    apply user_byte_page; [unfold u64 in *; lia|]. rewrite <-Epv. apply user_byte_page; [done|]. apply H. lia.
Qed.
End validation.

(** ** Copies *)

(** The register and the variable that mirrors it agree; [scdk_vmm_init] and
    [scdk_vmm_activate_root] see to it. *)
Definition cr3_synced (k : kernel) : Prop :=
  Z.land (cr3 (k_vmm k)) X86_CR3_ADDR = active_cr3_phys (k_vmm k).

(** A change of memory that touches no page table. *)
Record mem_step (k k' : kernel) (L : gmap Z label) : Prop := {
  ms_frame : k' = set_memory (memory (k_vmm k')) k;
  ms_typed : pt_typed k' L;
  ms_pte : ∀ root v, L !! root = Some (root, []) → pte k' root v = pte k root v
}.

(** The page of [p] holds no table. *)
Definition no_table (L : gmap Z label) (p : Z) : Prop :=
  ∀ l, L !! (p - p mod 4096) = Some l → (3 < length l.2)%nat.

Section copies.
Implicit Types (k : kernel) (L : gmap Z label) (v p q : Z).

Lemma mmu_translation k v t : cr3_synced k → scdk_vmm_virt_to_phys k v = Ok t → mmu k v = Ok t.1.
Proof.
  unfold cr3_synced, scdk_vmm_virt_to_phys, mmu. intros -> H. rewrite virt_to_phys_pte in H.
  do 3 minv_step H. rewrite E1. by injection H as <-.
Qed.

Lemma mmu_write_translation k v t :
  cr3_synced k → scdk_vmm_virt_to_phys k v = Ok t → Z.land t.2 SCDK_VMM_MAP_WRITE ≠ 0 → mmu_write k v = Ok t.1.
Proof.
  unfold cr3_synced, scdk_vmm_virt_to_phys, mmu_write. intros -> H Hw. rewrite virt_to_phys_pte in H.
  do 3 minv_step H. rewrite E1. injection H as <-. cbv zeta. by rewrite (proj2 (Z.eqb_neq _ _) Hw).
Qed.
Lemma mmu_write_read k v p : mmu_write k v = Ok p → mmu k v = Ok p.
Proof. unfold mmu_write, mmu. destruct (pte _ _ _); [|done..]. cbv zeta. case_match; [done|]. by intros [= <-]. Qed.

Lemma mem_step_refl k L : pt_typed k L → mem_step k k L.
Proof. intros HT. split; [|done|done]. by destruct k as [? ? ? ? ? ? ? ? [] ? ? ? ?]. Qed.
Lemma mem_step_trans k1 k2 k3 L : mem_step k1 k2 L → mem_step k2 k3 L → mem_step k1 k3 L.
Proof.
  intros [F1 T1 P1] [F2 T2 P2]. split; [|done|].
  - rewrite F2. rewrite F1 at 1. done.
  - intros root v Hr. by rewrite P2, P1.
Qed.

Lemma mem_step_vmm k k' L :
  mem_step k k' L →
  cr3 (k_vmm k') = cr3 (k_vmm k) ∧ active_cr3_phys (k_vmm k') = active_cr3_phys (k_vmm k) ∧
  vmm_initialized (k_vmm k') = vmm_initialized (k_vmm k).
Proof. intros [-> _ _]. done. Qed.

Lemma mem_step_synced k k' L : mem_step k k' L → cr3_synced k → cr3_synced k'.
Proof. unfold cr3_synced. intros (-> & -> & _)%mem_step_vmm. done. Qed.

Lemma mem_step_translate k k' L v :
  pt_typed k L → mem_step k k' L → scdk_vmm_virt_to_phys k' v = scdk_vmm_virt_to_phys k v.
Proof.
  intros HT Hs. destruct (mem_step_vmm _ _ _ Hs) as (_ & Ha & Hi). unfold scdk_vmm_virt_to_phys.
  rewrite Ha. apply pte_same_translation; [done|]. apply (ms_pte _ _ _ Hs), HT.
Qed.

Lemma mem_step_mmu k k' L v : pt_typed k L → cr3_synced k → mem_step k k' L → mmu k' v = mmu k v.
Proof.
  intros HT Hc Hs. destruct (mem_step_vmm _ _ _ Hs) as (H3 & _). unfold mmu.
  rewrite H3, Hc, (ms_pte _ _ _ Hs) by apply HT. done.
Qed.

Lemma mem_step_mmu_write k k' L v : pt_typed k L → cr3_synced k → mem_step k k' L → mmu_write k' v = mmu_write k v.
Proof.
  intros HT Hc Hs. destruct (mem_step_vmm _ _ _ Hs) as (H3 & _). unfold mmu_write.
  rewrite H3, Hc, (ms_pte _ _ _ Hs) by apply HT. done.
Qed.

(** Writing to a page that holds no table. *)
Lemma store_byte_step k L p b :
  pt_typed k L → no_table L p → mem_step k (store_byte p b k) L.
Proof.
  intros HT Hp.
  assert (∀ p' l i, L !! p' = Some l → (length l.2 ≤ 3)%nat → 0 <= i < 512 →
    load64 (store_byte p b k) (p' + 8 * i) = load64 k (p' + 8 * i)) as Hload.
  { intros p' l i Hp' Hlen Hi. unfold store_byte. rewrite load_store.
    destruct (pt_page _ _ HT p' l Hp') as (Ha & _).
    destruct (Z.eqb_spec (p' + 8 * i) (p - p mod 8)); [|done].
    enough (3 < length l.2)%nat by lia. apply Hp. rewrite <-Hp'. f_equal. Z.to_euclidean_division_equations; lia. }
  split.
  - done.
  - destruct HT as [A1 A2 A3 A4 A5 A6 A7]. split; try done.
    intros p' l i q Hp' Hl Hi. rewrite (Hload p' l i) by (done || lia). by apply A5.
  - intros root v Hr. unfold pte.
    rewrite (walk_agree k _ L root v HT Hr) by (intros; eapply Hload; [done|lia|done]).
    destruct (reach k root (path v)) as [pt| |] eqn:Hw; [|done..]. cbn [rbind].
    rewrite (Hload pt _ (pt_index v) (walk_label _ _ _ _ _ HT Hr Hw)); [done|done|apply index_range].
Qed.

(** A read of translated bytes. *)
Lemma user_load_run k (f : Z → Z) n : ∀ v,
  (∀ i, 0 <= i < Z.of_nat n → mmu k (v + i) = Ok (f (v + i))) →
  user_load k v n = Ok ((λ i : nat, load_byte k (f (v + Z.of_nat i))) <$> seq 0 n).
Proof.
  induction n as [|n IH]; intros v H; [done|]. cbn [user_load seq fmap list_fmap].
  pose proof (H 0 ltac:(lia)) as H0. rewrite Z.add_0_r in H0. rewrite H0. cbn [rbind].
  rewrite IH by (intros i Hi; rewrite <-Z.add_assoc; apply H; lia).
  cbn [rbind]. rewrite Z.add_0_r. do 2 f_equal. rewrite <-fmap_S_seq, <-list_fmap_compose.
  apply list_fmap_ext. intros i x _. simpl. do 2 f_equal. lia.
Qed.

(** A write of translated bytes: it touches no table, no byte outside the
    translated range, and leaves the source there when no two bytes share a
    place. *)
Lemma user_store_run L (f : Z → Z) src : ∀ v k,
  pt_typed k L → cr3_synced k → Forall byte src →
  (∀ i, 0 <= i < Z.of_nat (length src) →
     mmu_write k (v + i) = Ok (f (v + i)) ∧ no_table L (f (v + i))) →
  ∃ k', user_store v src (length src) k = (Ok tt, k') ∧ mem_step k k' L ∧
    (∀ q, (∀ i, 0 <= i < Z.of_nat (length src) → f (v + i) ≠ q) → load_byte k' q = load_byte k q) ∧
    ((∀ i j, 0 <= i < Z.of_nat (length src) → 0 <= j < Z.of_nat (length src) →
        f (v + i) = f (v + j) → i = j) →
     ∀ i b, src !! i = Some b → load_byte k' (f (v + Z.of_nat i)) = b).
Proof.
  induction src as [|b src IH]; intros v k HT Hc Hb Hm.
  { exists k. split_and!; [done|by apply mem_step_refl|done|done]. }
  apply Forall_cons in Hb as [Hb Hbs]. cbn [length user_store] in *.
  destruct (Hm 0 ltac:(lia)) as [Hm0 HL0]. rewrite Z.add_0_r in Hm0, HL0.
  pose proof (store_byte_step k L (f v) b HT HL0) as Hs. set (k1 := store_byte (f v) b k) in *.
  pose proof (mem_step_synced _ _ _ Hs Hc) as Hc1.
  destruct (IH (v + 1) k1) as (k' & Hrun & Hs' & Hout & Hin); [apply Hs|done|done| |].
  { intros i Hi. rewrite <-Z.add_assoc. destruct (Hm (1 + i) ltac:(lia)) as [Hmi HLi].
    split; [|done]. rewrite <-Hmi. by apply (mem_step_mmu_write _ _ L). }
  exists k'. split_and!.
  - unfold bind, query at 1, modify at 1. by rewrite Hm0.
  - by eapply mem_step_trans.
  - intros q Hq. rewrite Hout by (intros i Hi; rewrite <-Z.add_assoc; apply Hq; lia).
    unfold k1. rewrite load_store_byte by done. rewrite decide_False; [done|].
    intros ->. apply (Hq 0); [lia|]. by rewrite Z.add_0_r.
  - intros Hinj [|i] c Hi; simpl in Hi.
    + injection Hi as ->. rewrite Z.add_0_r, Hout.
      * unfold k1. rewrite load_store_byte by done. by rewrite decide_True.
      * intros j Hj Heq. rewrite <-Z.add_assoc in Heq.
        specialize (Hinj (1 + j) 0 ltac:(lia) ltac:(lia)). rewrite Z.add_0_r in Hinj. specialize (Hinj Heq). lia.
    + replace (v + Z.of_nat (S i)) with (v + 1 + Z.of_nat i) by lia. apply Hin; [|done].
      intros j1 j2 H1 H2. rewrite <-!Z.add_assoc. intros Heq%Hinj; lia.
Qed.
End copies.

(** Where a byte of user memory is. *)
Definition place (k : kernel) (v : Z) : Z :=
  match scdk_vmm_virt_to_phys k v with Ok t => t.1 | _ => 0 end.

Lemma user_byte_mmu k w v : cr3_synced k → user_byte k w v → mmu k v = Ok (place k v).
Proof.
  intros Hc (t & Ht & _). rewrite (mmu_translation k v t) by done. unfold place. by rewrite Ht.
Qed.

Lemma copy_from_run k p n :
  cr3_synced k → u64 p → u64 n → 0 < n → SCDK_USER_VIRT_BASE <= p → p + n <= SCDK_USER_VIRT_TOP →
  (∀ v, p <= v < p + n → user_byte k false v) →
  scdk_user_copy_from k p n =
    Ok ((λ i : nat, load_byte k (place k (p + Z.of_nat i))) <$> seq 0 (Z.to_nat n)).
Proof.
  intros Hc Hp Hn H0 Hb Ht Hm. unfold scdk_user_copy_from. rewrite (proj2 (Z.eqb_neq n 0)) by lia.
  cbn [rguard rbind]. destruct (validate_range_spec k p n false Hp Hn) as [_ Hv].
  rewrite (proj2 Hv) by done. cbn [rbind]. apply user_load_run.
  intros i Hi. apply (user_byte_mmu k false); [done|]. apply Hm. lia.
Qed.

Lemma copy_from_refused k p n e :
  scdk_user_validate_range k p n false = Err e → ∃ e', scdk_user_copy_from k p n = Err e'.
Proof.
  intros Ev. unfold scdk_user_copy_from, rguard. destruct (n =? 0); [by eexists|]. cbn [rbind].
  rewrite Ev. by eexists.
Qed.

(** A write to user memory that is table-free: it is refused without a change, or
    it stores the source, touches nothing outside the range and no table. *)
Lemma copy_to_run k L p src :
  pt_typed k L → cr3_synced k → u64 p → Forall byte src → u64 (Z.of_nat (length src)) →
  (∀ v t, p <= v < p + Z.of_nat (length src) → v < SCDK_USER_VIRT_TOP → user_byte k true v →
     scdk_vmm_virt_to_phys k v = Ok t → no_table L t.1) →
  (∃ e, scdk_user_copy_to p src (Z.of_nat (length src)) k = (Err e, k)) ∨
  (∃ k', scdk_user_copy_to p src (Z.of_nat (length src)) k = (Ok tt, k') ∧ mem_step k k' L ∧
     (∀ q, (∀ v t, p <= v < p + Z.of_nat (length src) → scdk_vmm_virt_to_phys k v = Ok t → t.1 ≠ q) →
        load_byte k' q = load_byte k q) ∧
     ((∀ v v' t t', p <= v < p + Z.of_nat (length src) → p <= v' < p + Z.of_nat (length src) →
         scdk_vmm_virt_to_phys k v = Ok t → scdk_vmm_virt_to_phys k v' = Ok t' → t.1 = t'.1 → v = v') →
      scdk_user_copy_from k' p (Z.of_nat (length src)) = Ok src)).
Proof.
  intros HT Hc Hp Hb Hn Hdata.
  destruct (validate_range_spec k p (Z.of_nat (length src)) true Hp Hn) as [Hd Hv].
  unfold scdk_user_copy_to, bind, guard, query.
  destruct (Z.eqb_spec (Z.of_nat (length src)) 0); [left; by eexists|]. cbn [ret].
  destruct (scdk_user_validate_range k p _ true) as [[]|e|] eqn:Ev; [right|left; by eexists|done].
  destruct (proj1 Hv eq_refl) as (H0 & Hlo & Hhi & Hm).
  assert (∀ i, 0 <= i < Z.of_nat (length src) → ∃ t, scdk_vmm_virt_to_phys k (p + i) = Ok t ∧
    place k (p + i) = t.1 ∧ mmu_write k (p + i) = Ok (place k (p + i))) as Hplace.
  { intros i Hi. destruct (Hm (p + i)) as (t & Ht & _ & Hw); [lia|]. exists t. split; [done|].
    unfold place. rewrite Ht. split; [done|]. apply mmu_write_translation; [done|done|by apply Hw]. }
  destruct (user_store_run L (place k) src p k HT Hc Hb) as (k1 & Hst & Hs & Hout & Hin).
  { intros i Hi. destruct (Hplace i Hi) as (t & Ht & -> & Hmm). split; [done|].
    apply (Hdata (p + i)); [lia|lia|apply Hm; lia|done]. }
  exists k1. rewrite Nat2Z.id. split_and!; [done|done| |].
  { intros q Hq. apply Hout. intros i Hi. destruct (Hplace i Hi) as (t & Ht & -> & _).
    apply (Hq (p + i)); [lia|done]. }
  intros Hinj. assert (∀ v, scdk_vmm_virt_to_phys k1 v = scdk_vmm_virt_to_phys k v) as Htr.
  { intros v. by apply (mem_step_translate _ _ L). }
  rewrite copy_from_run; [|by eapply mem_step_synced|done..|].
  - f_equal. apply list_eq. intros i. rewrite Nat2Z.id, list_lookup_fmap.
    destruct (src !! i) as [b|] eqn:Ei.
    + rewrite lookup_seq_lt by (by eapply lookup_lt_Some). simpl. f_equal.
      unfold place. rewrite Htr. apply (Hin); [|done]. intros i' j' Hi Hj.
      destruct (Hplace i' Hi) as (t & Ht & -> & _), (Hplace j' Hj) as (t' & Ht' & -> & _). intros Heq.
      pose proof (Hinj (p + i') (p + j') t t' ltac:(lia) ltac:(lia) Ht Ht' Heq). lia.
    + rewrite lookup_seq_ge; [done|]. by apply lookup_ge_None.
  - intros v Hvr. destruct (Hm v Hvr) as (t & Ht & Hu & _). exists t. rewrite Htr. done.
Qed.

(** Reading user memory is safe and exact: for every pointer and size
    [scdk_user_copy_from] never makes the kernel fault; it succeeds exactly when
    the range is not empty, lies between the user bounds without wrapping
    around, and every byte of it is mapped for user code in the active address
    space; and then it returns exactly the bytes the range designates. *)
Theorem user_copy_from_exact (k : kernel) (p n : Z) (Hc : cr3_synced k) (Hp : u64 p) (Hn : u64 n) :
  defined (scdk_user_copy_from k p n) ∧
  (is_Ok (scdk_user_copy_from k p n) ↔
     0 < n ∧ SCDK_USER_VIRT_BASE <= p ∧ p + n <= SCDK_USER_VIRT_TOP ∧
     ∀ v, p <= v < p + n → user_byte k false v) ∧
  (∀ bs, scdk_user_copy_from k p n = Ok bs →
     length bs = Z.to_nat n ∧
     ∀ i b, bs !! i = Some b →
       ∃ t, scdk_vmm_virt_to_phys k (p + Z.of_nat i) = Ok t ∧ b = load_byte k t.1).
Proof.
  destruct (validate_range_spec k p n false Hp Hn) as [Hd Hv].
  destruct (scdk_user_validate_range k p n false) as [[]|e|] eqn:Ev; [|clear Hd|done].
  - destruct (proj1 Hv eq_refl) as (H0 & Hb & Ht & Hm). rewrite copy_from_run by done.
    split; [done|]. split; [split; [done|by eexists]|].
    intros bs [= <-]. split; [by rewrite length_fmap, length_seq|].
    intros i b (j & -> & [-> Hj]%lookup_seq)%list_lookup_fmap_Some.
    destruct (Hm (p + Z.of_nat (0 + i))) as (t & Ht' & _); [lia|]. exists t.
    split; [done|]. unfold place. by rewrite Ht'.
  - destruct (copy_from_refused k p n e Ev) as [e' ->]. split; [done|].
    split; [split; [by intros []|by intros ?%Hv]|done].
Qed.

(** C20. Writing user memory is safe, exact and read back: when no page of the
    range holds a page table and no two bytes of it are the same memory,
    [scdk_user_copy_to] never makes the kernel fault; on an error it changes
    nothing; on success [scdk_user_copy_from] returns what was written, every
    byte of memory outside the range is as before, and no translation changes. *)
Theorem user_copy_roundtrip (k k' : kernel) (L : gmap Z label) (p : Z) (src : list Z) (r : result unit)
  (HT : pt_typed k L) (Hc : cr3_synced k) (Hp : u64 p) (Hb : Forall byte src)
  (Hn : u64 (Z.of_nat (length src)))
  (Hdata : ∀ v t, p <= v < p + Z.of_nat (length src) → scdk_vmm_virt_to_phys k v = Ok t →
     no_table L t.1)
  (Hinj : ∀ v v' t t', p <= v < p + Z.of_nat (length src) → p <= v' < p + Z.of_nat (length src) →
     scdk_vmm_virt_to_phys k v = Ok t → scdk_vmm_virt_to_phys k v' = Ok t' → t.1 = t'.1 → v = v')
  (Hrun : scdk_user_copy_to p src (Z.of_nat (length src)) k = (r, k')) :
  defined r ∧ (r ≠ Ok tt → k' = k) ∧
  (r = Ok tt →
     scdk_user_copy_from k' p (Z.of_nat (length src)) = Ok src ∧
     (∀ q, (∀ v t, p <= v < p + Z.of_nat (length src) → scdk_vmm_virt_to_phys k v = Ok t → t.1 ≠ q) →
        load_byte k' q = load_byte k q) ∧
     (∀ v, scdk_vmm_virt_to_phys k' v = scdk_vmm_virt_to_phys k v) ∧ pt_typed k' L).
Proof.
  destruct (copy_to_run k L p src HT Hc Hp Hb Hn (λ v t Hv _ _, Hdata v t Hv)) as [(e & E)|(k1 & E & Hs & Hout & Hrd)];
    rewrite E in Hrun; injection Hrun as <- <-; [done|].
  split_and!; [done|done|]. intros _. split_and!; [by apply Hrd|done| |apply Hs].
  intros v. by apply (mem_step_translate _ _ L).
Qed.

(** ** Witnesses

    The root of [demo_mapped] maps one writable user page; its physical page
    holds data. *)
Lemma demo_user_map :
  ∃ L, pt_typed demo_mapped L ∧ L !! 69632 = Some data_label ∧
    ∀ v, 4194304 <= v < 4198400 → scdk_vmm_virt_to_phys demo_mapped v = Ok (v - 4124672, 3).
Proof.
  assert (u64 4194304 ∧ 0 <= 69632 < phys_limit ∧ u64 3) as (H1 & H2 & H3)
    by (unfold u64, two64, phys_limit; lia).
  assert (pt_typed demo_vm (<[69632 := data_label]> demo_labels)) as HT.
  { apply typed_label_data; [exact demo_vm_typed|by apply lookup_singleton_None|done|done|].
    assert (page_stack (k_pmm demo_vm) = [32768; 28672; 24576; 20480; 16384; 12288; 8192; 4096]) as ->
      by (vm_compute; reflexivity).
    intros H. repeat (apply elem_of_cons in H as [H|H]; [lia|]). by apply elem_of_nil in H. }
  assert (<[69632 := data_label]> demo_labels !! 1048576 = Some (1048576, [])) as Hr.
  { rewrite lookup_insert_ne by done. exact demo_root. }
  destruct (map_page_state _ _ _ _ _ _ _ _ HT Hr H1 H2 H3 demo_map_runs) as (L & Hs & HT' & _ & _ & Hnew).
  exists L. split; [exact HT'|]. split; [exact (lookup_weaken _ _ _ _ (lookup_insert_eq _ _ _) Hs)|].
  intros v Hv. replace (v - 4124672) with (69632 + (v - 4194304)) by lia.
  replace v with (4194304 + (v - 4194304)) at 1 by lia. exact (Hnew (v - 4194304) ltac:(lia)).
Qed.

Lemma demo_synced : cr3_synced demo_mapped.
Proof. vm_compute. reflexivity. Qed.

Lemma user_copy_from_exact_witness : is_Ok (scdk_user_copy_from demo_mapped 4194400 16).
Proof.
  assert (u64 4194400 ∧ u64 16) as [H1 H2] by (unfold u64, two64; lia).
  destruct (user_copy_from_exact demo_mapped 4194400 16 demo_synced H1 H2) as (_ & H & _).
  apply H. split; [lia|]. split; [unfold SCDK_USER_VIRT_BASE; lia|]. split; [unfold SCDK_USER_VIRT_TOP; lia|].
  destruct demo_user_map as (L & _ & _ & Ht). intros v Hv. exists (v - 4124672, 3).
  split; [apply Ht; lia|]. split; discriminate.
Defined.

Lemma user_copy_roundtrip_witness :
  scdk_user_copy_from (scdk_user_copy_to 4194400 [72; 105; 33] 3 demo_mapped).2 4194400 3 = Ok [72; 105; 33].
Proof.
  destruct demo_user_map as (L & HT & HL & Ht).
  destruct (user_copy_roundtrip demo_mapped (scdk_user_copy_to 4194400 [72; 105; 33] 3 demo_mapped).2 L
    4194400 [72; 105; 33] (Ok tt)) as (_ & _ & H).
  - exact HT.
  - exact demo_synced.
  - unfold u64, two64. lia.
  - repeat (apply Forall_cons; split; [unfold byte; lia|]). by apply Forall_nil.
  - split; reflexivity || discriminate.
  - intros v t Hv E. rewrite Ht in E by (simpl in Hv; lia). injection E as <-. intros l.
    assert ((v - 4124672, 3).1 - (v - 4124672, 3).1 mod 4096 = 69632) as -> by
      (simpl in *; Z.to_euclidean_division_equations; lia).
    rewrite HL. intros [= <-]. simpl. lia.
  - intros v v' t t' Hv Hv' E E'. rewrite Ht in E, E' by (simpl in Hv, Hv'; lia).
    injection E as <-. injection E' as <-. simpl. lia.
  - apply run_to; [reflexivity|]. vm_compute. reflexivity.
  - apply H. reflexivity.
Defined.
