(* ===== verification/HeapPages.v ===== *)
(** * The pages behind the heap

    Every committed address of the heap is mapped, each page to a page of its own
    that holds no table; allocation keeps it so. What a kernel routine stores in an
    allocated block therefore stays there: neither a later allocation, with the
    growth of the heap and of the page tables it may cause, nor the creation of an
    address space stores to a page committed before (the headers of the blocks are
    in the list of [Heap]). *)
From stdpp Require Import base gmap list numbers relations.
From Stdlib Require Import ZArith Lia.
From S2P Require Import Prelude.
From S2P Require Import Kernel.
From S2P Require Import Pmm.
From S2P Require Import Vmm.
From S2P Require Import Heap.
From S2P Require Import HeapVm.
From S2P Require Import UserMemory.

#[local] Open Scope Z_scope.

(** The pages from the start of the heap to [e]. *)
Definition heap_pages (e : Z) (k : kernel) (L : gmap Z label) : Prop :=
  ∃ pages, mapped_over k ∅ L SCDK_HEAP_BASE pages ∧ e = SCDK_HEAP_BASE + 4096 * Z.of_nat (length pages).

Section pages.
Implicit Types (k : kernel) (L : gmap Z label) (e : Z).

Lemma mapped_step k k' L L' pages :
  mapped_over k ∅ L SCDK_HEAP_BASE pages → vm_step k k' L L' →
  (∀ v, SCDK_HEAP_BASE <= v < SCDK_HEAP_BASE + 4096 * Z.of_nat (length pages) →
     scdk_vmm_virt_to_phys k' v = scdk_vmm_virt_to_phys k v) → mapped_over k' ∅ L' SCDK_HEAP_BASE pages.
Proof.
  intros [A1 A2 A3 A4 A5 A6] Hs Hv. split; [apply Hs|apply map_empty_subseteq|done| |done|].
  - intros p Hp. destruct (A4 p Hp) as (Hl & _ & H0). split_and!; [|done|done].
    eapply lookup_weaken; [done|apply Hs].
  - intros i p Hi. apply lookup_lt_Some in Hi as Hlt. rewrite Hv by lia. by apply A6.
Qed.

(** Growing by [len] bytes. *)
Lemma map_heap_pages_grow k L e len :
  pt_typed k L → heap_pages e k L → 0 <= len → len mod 4096 = 0 → e + len <= SCDK_HEAP_BASE + SCDK_HEAP_SIZE →
  ∃ r k' L', map_heap_pages e len k = (r, k') ∧ vm_step k k' L L' ∧ heap_pages e k' L' ∧
    (r = Ok tt → heap_pages (e + len) k' L').
Proof.
  intros HT Hp Hl Hm Hle. pose proof Hp as (pages & HM & He).
  assert (e mod 4096 = 0) as He0 by (rewrite He, Z.mul_comm, Z.mod_add by done; reflexivity).
  unfold map_heap_pages. change SCDK_PAGE_SIZE with 4096.
  set (n := Z.to_nat _). assert (Z.of_nat n = len / 4096) as Hn.
  { unfold n. Z.to_euclidean_division_equations; lia. }
  assert (4096 * Z.of_nat n = len) as Hn' by (rewrite Hn; pose proof (Z.div_mod len 4096); lia).
  assert (∀ i, (i < n)%nat → heap_addr (e + 4096 * Z.of_nat i)) as Ha by (intros i Hi; unfold heap_addr; lia).
  destruct (map_loop e L n [] k L) as (r & k' & L' & Hrun & Hd & Hs & Hsame & Hnew).
  - split; try done; [apply NoDup_nil_2|intros p ?%elem_of_nil; done|simpl; lia].
  - exact Ha.
  - cbn [length Nat.add] in *. exists r, k', L'. split; [done|]. split; [done|].
    assert (mapped_over k' ∅ L' SCDK_HEAP_BASE pages) as Hold.
    { apply (mapped_step k k' L); [done|done|]. rewrite <-He. intros v Hv. apply Hsame.
      - unfold SCDK_HEAP_BASE in Hv. lia.
      - intros i Hi. apply heap_page_bits; [unfold heap_addr; lia|by apply Ha|].
        rewrite Z.mul_comm, Z.div_add by done. intros E. clear - He0 Hv E. Z.to_euclidean_division_equations; lia. }
    split; [by exists pages|]. intros Hr. destruct (Hnew Hr) as (new & Hlen & [B1 B2 B3 B4 B5 B6]).
    destruct Hold as [A1 A2 A3 A4 A5 A6]. exists (pages ++ new). split; [|rewrite length_app; lia].
    split; [done|apply map_empty_subseteq| | | |].
    + apply NoDup_app. split_and!; [done| |done]. intros p Hpo Hpn. destruct (B4 p Hpn) as (_ & HL & _).
      destruct (mv_label _ _ _ _ _ HM p Hpo) as (HL' & _). congruence.
    + intros p [Hp'|Hp']%elem_of_app; [by apply A4|]. destruct (B4 p Hp') as (? & _ & ?). done.
    + rewrite length_app. intros i Hi. unfold heap_addr. lia.
    + intros i p [Hi|[Hge Hi]]%lookup_app_Some; [by apply A6|].
      specialize (B6 _ _ Hi). rewrite <-B6. f_equal. lia.
Qed.

(** Reached from [k0] with the pages up to [e] in place. *)
Definition grown_to k0 L0 e k : Prop := ∃ L, vm_step k0 k L0 L ∧ heap_pages e k L.
(** The same for the end the heap itself knows. *)
Definition backed k0 L0 k : Prop := grown_to k0 L0 (heap_commit_end (k_heap k)) k.

Lemma grown_to_heap k0 L0 e k x : grown_to k0 L0 e k → grown_to k0 L0 e (set_heap x k).
Proof.
  intros (L & Hs & pages & HM & He). exists L.
  assert (vm_step k (set_heap x k) L L) as Hs' by (apply vm_step_heap; [apply HM|done]).
  split; [by eapply vm_step_trans|]. exists pages. split; [|done]. apply (mapped_step k _ L L); [done|done|].
  intros v _. unfold scdk_vmm_virt_to_phys. apply pte_same_translation; [done|]. by apply pte_memory.
Qed.
(** Both ends, while the block of the new pages is linked in. *)
Definition growing k0 L0 e k : Prop := backed k0 L0 k ∧ grown_to k0 L0 e k.
Lemma growing_edit k0 L0 e k x :
  growing k0 L0 e k → heap_commit_end x = heap_commit_end (k_heap k) → growing k0 L0 e (set_heap x k).
Proof.
  intros [H1 H2] Hx. split; [|by apply grown_to_heap]. unfold backed. cbn. rewrite Hx. by apply grown_to_heap.
Qed.
#[local] Hint Resolve growing_edit : scdk.

(** What does not look at the blocks survives every edit of them. *)
Section edits.
Context (Q : kernel → Prop).
Context (HQ : ∀ k x, Q k → heap_commit_end x = heap_commit_end (k_heap k) → Q (set_heap x k)).
Lemma get_block_edit a : preserves Q (get_block a).
Proof. unfold get_block. preserves_tac. Qed.
Lemma put_block_edit a b : preserves Q (put_block a b).
Proof. unfold put_block, set_blocks. preserves_tac. by apply HQ. Qed.
#[local] Hint Resolve get_block_edit put_block_edit : scdk.
Lemma update_block_edit a f : preserves Q (update_block a f).
Proof. unfold update_block. preserves_tac. Qed.
#[local] Hint Resolve update_block_edit : scdk.
Lemma block_remove_edit a : preserves Q (block_remove a).
Proof. unfold block_remove, set_head, set_tail. preserves_tac; by apply HQ. Qed.
#[local] Hint Resolve block_remove_edit : scdk.
Lemma block_coalesce_edit a : preserves Q (block_coalesce_forward a).
Proof. unfold block_coalesce_forward. preserves_tac. Qed.
Lemma block_insert_tail_edit a : preserves Q (block_insert_tail a).
Proof. unfold block_insert_tail, set_head, set_tail. preserves_tac; by apply HQ. Qed.
Lemma block_split_edit a n : preserves Q (block_split a n).
Proof. unfold block_split, set_tail. preserves_tac; by apply HQ. Qed.
#[local] Hint Resolve block_split_edit : scdk.
Lemma take_edit a n : preserves Q (block_split a n ;; update_block a (λ b, with_free b false) ;; ret (block_payload a)).
Proof. preserves_tac. Qed.
End edits.
#[local] Hint Resolve get_block_edit put_block_edit update_block_edit block_remove_edit block_coalesce_edit
  block_insert_tail_edit block_split_edit take_edit : scdk.

(** Edits once the end is set. *)
Lemma preserves_backed {A} (m : K A) k0 L0 :
  (∀ e, preserves (growing k0 L0 e) m) → preserves (backed k0 L0) m.
Proof. intros Hm k Hk. by apply (Hm (heap_commit_end (k_heap k)) k). Qed.

Lemma heap_extend_pages k L hs n :
  heap_wf k hs → pt_typed k L → heap_pages (heap_commit_end (k_heap k)) k L → 0 <= n <= SCDK_HEAP_SIZE →
  backed k L (heap_extend n k).2.
Proof.
  intros Hwf HT Hp Hn. assert (backed k L k) as H0 by (exists L; split; [by apply vm_step_refl|done]).
  unfold heap_extend. rewrite header_48. unfold checked_add_size.
  rewrite (proj2 (Z.ltb_ge _ _)) by (unfold two64, SCDK_HEAP_SIZE in *; lia).
  rewrite align_up_size_page by (unfold SCDK_HEAP_SIZE in *; lia).
  set (c := if _ <? _ then _ else _).
  assert (0 <= c ∧ c mod 4096 = 0) as [Hc0 Hcm].
  { unfold c, SCDK_HEAP_INITIAL_PAGES, SCDK_PAGE_SIZE. case_match; [done|].
    Z.to_euclidean_division_equations; lia. }
  unfold bind at 1, gets. unfold checked_add_uintptr.
  destruct (_ <? heap_commit_end (k_heap k)); [done|]. unfold bind at 1, guard.
  destruct (SCDK_HEAP_BASE + SCDK_HEAP_SIZE <? _) eqn:Hle; [done|]. bsplit. unfold ret at 1, bind at 1.
  destruct (map_heap_pages_grow k L _ c HT Hp Hc0 Hcm Hle) as (r & k1 & L1 & Hmap & Hs & Hold & Hnew).
  rewrite Hmap. assert (k_heap k1 = k_heap k) as Hk1.
  { pose proof (map_heap_loop_keeps (k_heap k) (Z.to_nat ((c + SCDK_PAGE_SIZE - 1) / SCDK_PAGE_SIZE)) 0
      (heap_commit_end (k_heap k)) k eq_refl) as Hkeep. unfold map_heap_pages in Hmap. by rewrite Hmap in Hkeep. }
  assert (backed k L k1) as H1 by (unfold backed; rewrite Hk1; by exists L1).
  set (e := heap_commit_end (k_heap k) + c) in *.
  destruct r as [[]| |]; [|done..]. assert (growing k L e k1) as Hg by (split; [done|]; exists L1; auto).
  unfold bind at 1. pose proof (put_block_edit (growing k L e) (growing_edit k L e) (heap_commit_end (k_heap k))
    (mk_heap_block SCDK_HEAP_MAGIC (wrap64 (c - 48)) true 0 0) k1 Hg) as H2.
  destruct (put_block _ _ k1) as [[[]| |] k2]; [|apply H2..]. unfold bind at 1.
  pose proof (block_insert_tail_edit (growing k L e) (growing_edit k L e) (heap_commit_end (k_heap k)) k2 H2) as H3.
  destruct (block_insert_tail _ k2) as [[[]| |] k3]; [|apply H3..]. rewrite bind_modify.
  assert (backed k L (set_commit_end e k3)) as H4 by (apply grown_to_heap, H3).
  revert H4. generalize (set_commit_end e k3). apply preserves_backed. intros e'. preserves_tac.
Qed.

(** Allocation always returns, and the heap stays backed by pages of its own. *)
Lemma kalloc_pages k L hs size :
  heap_wf k hs → heap_initialized (k_heap k) = true → pt_typed k L → heap_pages (heap_commit_end (k_heap k)) k L →
  u64 size →
  ∃ p k' L', scdk_kalloc size k = (Ok p, k') ∧ vm_step k k' L L' ∧
    heap_pages (heap_commit_end (k_heap k')) k' L' ∧ kalloc_post k' hs size p.
Proof.
  intros Hwf Hr HT Hp Hs. destruct (kalloc_vm k L hs size Hwf Hr HT Hs) as (p & k' & _ & Hrun & _ & Hpost).
  exists p, k'. enough (backed k L k') as (L' & ? & ?) by (by exists L').
  assert (backed k L k) as H0 by (exists L; split; [by apply vm_step_refl|done]).
  assert (backed k L (scdk_kalloc size k).2) as Hb; [|by rewrite Hrun in Hb].
  assert (∀ b n, preserves (backed k L) (block_split b n ;; update_block b (λ b, with_free b false) ;; ret (block_payload b))) as Htake.
  { intros b n. apply preserves_backed. intros e. apply take_edit, growing_edit. }
  unfold scdk_kalloc. unfold bind at 1, gets.
  case_match; [done|]. case_match; [done|]. case_match eqn:Hsz; [done|]. bsplit. unfold bind at 1, query at 1.
  destruct (find_free_block k _) as [b| |]; [|done..]. case_match; [by apply Htake|].
  unfold bind at 1, attempt.
  assert (0 <= align_up_size size SCDK_HEAP_ALIGN <= SCDK_HEAP_SIZE) as Hn.
  { unfold u64 in Hs. rewrite header_48 in *. lia. }
  pose proof (heap_extend_pages k L hs _ Hwf HT Hp Hn) as Hext.
  destruct (heap_extend _ k) as [[[]| |] k1]; simpl in Hext; [|done..].
  unfold bind at 1, query. destruct (find_free_block k1 _) as [b1| |]; [|done..]. case_match; [done|]. by apply Htake.
Qed.

(** *** What is in the heap already *)

(** A step that keeps the translations below [e] and the words of all data pages. *)
Record heap_kept e k k' L L' : Prop := {
  hk_labels : L ⊆ L';
  hk_typed : pt_typed k' L';
  hk_cr3 : cr3 (k_vmm k') = cr3 (k_vmm k);
  hk_root : active_cr3_phys (k_vmm k') = active_cr3_phys (k_vmm k);
  hk_trans : ∀ v, SCDK_HEAP_BASE <= v < e → scdk_vmm_virt_to_phys k' v = scdk_vmm_virt_to_phys k v;
  hk_data : data_kept k k' L
}.
Lemma heap_kept_trans e k1 k2 k3 L1 L2 L3 :
  heap_kept e k1 k2 L1 L2 → heap_kept e k2 k3 L2 L3 → heap_kept e k1 k3 L1 L3.
Proof.
  intros [A1 A2 A3 A4 A5 A6] [B1 B2 B3 B4 B5 B6].
  split; [by etrans|done|congruence|congruence|intros v Hv; by rewrite B5, A5|].
  intros p l i Hp Hl Hi. rewrite (B6 p l); [by apply (A6 p l)|by eapply lookup_weaken|done|done].
Qed.
(** A step that leaves the memory alone. *)
Lemma heap_kept_memory e k k' L L' : L ⊆ L' → pt_typed k' L' → k_vmm k' = k_vmm k → heap_kept e k k' L L'.
Proof.
  intros Hsub HT Ev. split; [done|done|by rewrite Ev|by rewrite Ev|intros v _|].
  - unfold scdk_vmm_virt_to_phys. rewrite Ev. apply pte_same_translation; [by rewrite Ev|apply pte_memory; by rewrite Ev].
  - intros p l i _ _ _. unfold load64. by rewrite Ev.
Qed.
Lemma heap_kept_tables e k k1 k2 L L1 :
  heap_kept e k k1 L L1 → k_vmm k2 = k_vmm k1 → k_pmm k2 = k_pmm k1 → heap_kept e k k2 L L1.
Proof.
  intros Hk Ev Ep. eapply heap_kept_trans; [done|]. apply heap_kept_memory; [done| |done].
  pose proof (hk_typed _ _ _ _ _ Hk) as HT. apply (typed_memory_same k1); [done|done|rewrite Ep; apply HT|rewrite Ep..].
  - intros p l Hp. by apply (pt_page _ _ HT p l).
  - apply HT.
Qed.
Lemma heap_kept_edit e k k1 L L1 x : heap_kept e k k1 L L1 → heap_kept e k (set_heap x k1) L L1.
Proof. intros Hk. by apply (heap_kept_tables e k k1). Qed.
Lemma heap_kept_refl e k L : pt_typed k L → heap_kept e k k L L.
Proof. intros HT. by apply heap_kept_memory. Qed.

Lemma map_loop_kept e base n : ∀ m k L k',
  pt_typed k L → e <= base → base mod 4096 = 0 → (∀ i, (i < m + n)%nat → heap_addr (base + 4096 * Z.of_nat i)) →
  map_heap_loop n m base k = (Ok tt, k') → ∃ L', heap_kept e k k' L L'.
Proof.
  induction n as [|n IH]; intros m k L k' HT He Hm Hh Hrun.
  { injection Hrun as <-. exists L. by apply heap_kept_refl. }
  cbn [map_heap_loop] in Hrun. unfold bind at 1 in Hrun.
  destruct (kpage_alloc k) as [[q| |] k1] eqn:Hal; [|done..].
  destruct (alloc_data _ _ _ _ HT Hal) as (Hq & _ & Hqr & Hf1 & HT1).
  assert (heap_addr (base + 4096 * Z.of_nat m)) as Ha by (apply Hh; lia).
  change SCDK_PAGE_SIZE with 4096 in Hrun. rewrite heap_addr_wrap in Hrun by done. unfold bind at 1, attempt at 1 in Hrun.
  destruct (scdk_vmm_map_page _ q SCDK_VMM_MAP_WRITE k1) as [r2 k2] eqn:Hmap.
  destruct (heap_map_page _ _ _ _ _ _ HT1 Ha Hqr Hmap) as (L2 & Hs2 & Hv2 & Hr2).
  assert (data_kept k1 k2 (<[q:=data_label]> L)) as Hd2.
  { unfold scdk_vmm_map_page, bind, gets in Hmap. eapply map_page_data; [done|apply HT1|done]. }
  destruct r2 as [[]|err|]; [|unfold bind, attempt, lift in Hrun; by repeat case_match|done].
  destruct (IH (S m) k2 L2 k') as (L' & Hk'); [apply Hs2|done|done|intros i Hi; apply Hh; lia|done|].
  exists L'. eapply heap_kept_trans; [|exact Hk'].
  apply (heap_kept_trans _ _ k1 _ _ (<[q:=data_label]> L)).
  - apply heap_kept_memory; [by apply insert_subseteq|done|by rewrite Hf1].
  - pose proof (vs_frame _ _ _ _ Hs2) as Hf2. split; [apply Hs2|apply Hs2|by rewrite Hf2|by rewrite Hf2| |done]. intros v Hv. apply Hv2; [unfold SCDK_HEAP_BASE in Hv; lia|].
    apply heap_page_bits; [unfold heap_addr in *; lia|done|].
    rewrite Z.mul_comm, Z.div_add by done. intros E. Z.to_euclidean_division_equations; lia.
Qed.

Definition kept_from e k L k1 : Prop := ∃ L', heap_kept e k k1 L L'.
Lemma kept_from_edit e k L k1 x :
  kept_from e k L k1 → heap_commit_end x = heap_commit_end (k_heap k1) → kept_from e k L (set_heap x k1).
Proof. intros [L1 Hk] _. exists L1. by apply heap_kept_edit. Qed.

Lemma heap_extend_kept k L n k1 :
  let e := heap_commit_end (k_heap k) in
  pt_typed k L → heap_pages e k L → 0 <= n <= SCDK_HEAP_SIZE → heap_extend n k = (Ok tt, k1) → kept_from e k L k1.
Proof.
  intros e HT (pages & HM & Hend) Hn. unfold heap_extend. rewrite header_48. unfold checked_add_size.
  rewrite (proj2 (Z.ltb_ge _ _)) by (unfold two64, SCDK_HEAP_SIZE in *; lia).
  rewrite align_up_size_page by (unfold SCDK_HEAP_SIZE in *; lia).
  set (c := if _ <? _ then _ else _).
  assert (0 <= c ∧ c mod 4096 = 0) as [Hc0 Hcm].
  { unfold c, SCDK_HEAP_INITIAL_PAGES, SCDK_PAGE_SIZE. case_match; [done|].
    Z.to_euclidean_division_equations; lia. }
  unfold bind at 1, gets, checked_add_uintptr. fold e. destruct (_ <? e); [done|]. unfold bind at 1, guard.
  destruct (SCDK_HEAP_BASE + SCDK_HEAP_SIZE <? _) eqn:Hle; [done|]. bsplit. unfold ret at 1, bind at 1.
  destruct (map_heap_pages e c k) as [[[]| |] k2] eqn:Hmap; [|done..].
  assert (kept_from e k L k2) as H2.
  { apply (map_loop_kept e e _ 0 k L k2 HT) in Hmap; [done|lia| |].
    - rewrite Hend, Z.mul_comm, Z.mod_add by done. reflexivity.
    - change SCDK_PAGE_SIZE with 4096. intros i Hi. unfold heap_addr. change SCDK_PAGE_SIZE with 4096 in *.
      assert (4096 * Z.of_nat i < c) by (clear - Hi Hc0 Hcm; Z.to_euclidean_division_equations; lia).
      rewrite Hend in *. lia. }
  pose proof (kept_from_edit e k L) as HQ. intros Hrest. change (kept_from e k L (Ok tt, k1).2). rewrite <-Hrest.
  match goal with |- kept_from _ _ _ (?op k2).2 => enough (preserves (kept_from e k L) op) as Hpr by exact (Hpr k2 H2) end.
  preserves_tac. match goal with H : kept_from e k L _ |- _ => destruct H as [L2 Hk2] end.
  exists L2. by apply heap_kept_edit.
Qed.

(** Allocation keeps what is there. *)
Lemma kalloc_kept k L size p k' :
  let e := heap_commit_end (k_heap k) in
  pt_typed k L → heap_pages e k L → u64 size → scdk_kalloc size k = (Ok p, k') → p ≠ 0 → kept_from e k L k'.
Proof.
  intros e HT Hpages Hs Hrun Hp. pose proof (kept_from_edit e k L) as HQ.
  assert (kept_from e k L k) as HQ0 by (exists L; by apply heap_kept_refl).
  assert (∀ k1 k2 b n, kept_from e k L k1 →
    (block_split b n ;; update_block b (λ b, with_free b false) ;; ret (block_payload b)) k1 = (Ok p, k2) →
    kept_from e k L k2) as Htake.
  { intros k1 k2 b n H1 E. pose proof (take_edit _ HQ b n k1 H1) as H2. by rewrite E in H2. }
  unfold scdk_kalloc in Hrun. unfold bind at 1, gets in Hrun.
  case_match; [by injection Hrun as <- _|]. case_match; [by injection Hrun as <- _|].
  case_match eqn:Hsz; [by injection Hrun as <- _|]. bsplit. unfold bind at 1, query at 1 in Hrun.
  destruct (find_free_block k _) as [b| |]; [|done..]. case_match; [by eapply Htake|].
  unfold bind at 1, attempt in Hrun. set (n := align_up_size size SCDK_HEAP_ALIGN) in *.
  assert (0 <= n <= SCDK_HEAP_SIZE) as Hn by (unfold u64 in Hs; rewrite header_48 in *; lia).
  destruct (heap_extend n k) as [[[]| |] k1] eqn:Hext; [|by injection Hrun as <- _|done].
  pose proof (heap_extend_kept k L n k1 HT Hpages Hn Hext) as Hk1.
  unfold bind at 1, query in Hrun. destruct (find_free_block k1 _) as [b1| |]; [|done..].
  case_match; [by injection Hrun as <- _|]. by eapply Htake.
Qed.

(** *** Bytes *)
Lemma translate_byte k v p f :
  u64 v → p mod 4096 = 0 → scdk_vmm_virt_to_phys k (page_of v) = Ok (p, f) →
  scdk_vmm_virt_to_phys k v = Ok (p + v mod 4096, f).
Proof.
  intros Hv Hp. destruct (page_of_split v Hv) as (Ha & _ & Hm & Hu). unfold scdk_vmm_virt_to_phys.
  rewrite !virt_to_phys_pte. fold (page_of v). fold (page_of (page_of v)).
  rewrite (page_of_page (page_of v)), pte_page by done.
  destruct (validate_root _ _); [|done..]. cbn [rbind]. destruct (validate_vmm_address _ _); [|done..]. cbn [rbind].
  destruct (pte _ _ v) as [x| |]; [|done..]. cbn [rbind]. unfold pte_translation.
  rewrite (mask_4095 (page_of v)), Ha, (mask_4095 v), Z.lor_0_r. intros [= <- <-]. by rewrite (pte_sum _ (v mod 4096)).
Qed.

(** The page and the offset of a committed address. *)
Lemma heap_byte k L pages v :
  mapped_over k ∅ L SCDK_HEAP_BASE pages → SCDK_HEAP_BASE <= v < SCDK_HEAP_BASE + 4096 * Z.of_nat (length pages) →
  ∃ p, pages !! Z.to_nat ((v - SCDK_HEAP_BASE) / 4096) = Some p ∧ L !! p = Some data_label ∧
    p mod 4096 = 0 ∧ scdk_vmm_virt_to_phys k v = Ok (p + v mod 4096, SCDK_VMM_MAP_WRITE).
Proof.
  intros HM Hv. set (i := Z.to_nat _).
  assert (0 <= (v - SCDK_HEAP_BASE) / 4096 < Z.of_nat (length pages)) as Hi.
  { split; [apply Z.div_pos; lia|]. apply Z.div_lt_upper_bound; lia. }
  destruct (lookup_lt_is_Some_2 pages i) as [p Hp]; [unfold i; lia|].
  destruct (mv_label _ _ _ _ _ HM p) as (HL & _ & _); [by eapply list_elem_of_lookup_2|].
  destruct (pt_page _ _ (mv_typed _ _ _ _ _ HM) _ _ HL) as (Hal & _).
  assert (heap_addr v) as Hh.
  { pose proof (mv_addr _ _ _ _ _ HM i (lookup_lt_Some _ _ _ Hp)) as Ha. unfold heap_addr, i, SCDK_HEAP_SIZE, SCDK_HEAP_BASE in *.
    Z.to_euclidean_division_equations; lia. }
  destruct (heap_addr_u64 v Hh) as [Hu _]. exists p. split_and!; [done|done|done|].
  apply translate_byte; [done|done|]. rewrite <-(mv_trans _ _ _ _ _ HM i p Hp). f_equal.
  destruct (page_of_split v Hu) as (Hpm & E & Hr & _). unfold i. rewrite Z2Nat.id by lia.
  assert (SCDK_HEAP_BASE mod 4096 = 0) as Hbm by done. Z.to_euclidean_division_equations; lia.
Qed.
Lemma heap_byte_data e k L v :
  heap_pages e k L → SCDK_HEAP_BASE <= v < e →
  ∃ t, scdk_vmm_virt_to_phys k v = Ok t ∧ Z.land t.2 SCDK_VMM_MAP_WRITE ≠ 0 ∧ no_table L t.1.
Proof.
  intros (pages & HM & ->) Hv. destruct (heap_byte k L pages v HM Hv) as (p & _ & HL & Hal & ->). eexists. split; [done|].
  split; [done|].
  intros l. cbn [fst]. assert ((p + v mod 4096) - (p + v mod 4096) mod 4096 = p) as -> by (Z.to_euclidean_division_equations; lia).
  rewrite HL. intros [= <-]. cbn. lia.
Qed.
(** No two addresses share a byte. *)
Lemma heap_bytes_distinct e k L v v' t t' :
  heap_pages e k L → SCDK_HEAP_BASE <= v < e → SCDK_HEAP_BASE <= v' < e →
  scdk_vmm_virt_to_phys k v = Ok t → scdk_vmm_virt_to_phys k v' = Ok t' → t.1 = t'.1 → v = v'.
Proof.
  intros (pages & HM & ->) Hv Hv' Ht Ht' E.
  destruct (heap_byte k L pages v HM Hv) as (p & Hi & _ & Hal & Et).
  destruct (heap_byte k L pages v' HM Hv') as (p' & Hi' & _ & Hal' & Et').
  rewrite Et in Ht. rewrite Et' in Ht'. injection Ht as <-. injection Ht' as <-. cbn in E.
  assert (p = p' ∧ v mod 4096 = v' mod 4096) as [-> Em] by (Z.to_euclidean_division_equations; lia).
  pose proof (NoDup_lookup _ _ _ _ (mv_nodup _ _ _ _ _ HM) Hi Hi') as Ei.
  assert (0 <= (v - SCDK_HEAP_BASE) / 4096 ∧ 0 <= (v' - SCDK_HEAP_BASE) / 4096) as [? ?] by (split; apply Z.div_pos; lia).
  assert (SCDK_HEAP_BASE mod 4096 = 0) as Hbm by done. Z.to_euclidean_division_equations; lia.
Qed.

(** A new root table. *)
Lemma create_root_kept e k L q k' :
  pt_typed k L → scdk_vmm_create_root k = (Ok q, k') → heap_kept e k k' L (<[q:=(q, [])]> L).
Proof.
  intros HT Hrun. destruct (create_root_state _ _ _ _ HT Hrun) as (Hq & _ & HT' & Hf & _ & Hold).
  split; [by apply insert_subseteq|done|by rewrite Hf|by rewrite Hf| |].
  - intros v _. unfold scdk_vmm_virt_to_phys. destruct (vm_frame_vmm _ _ Hf) as [Hi ->].
    apply pte_same_translation; [done|]. apply (pte_tables_same k k' L); [done|done|apply HT].
  - intros p l i Hp _ Hi. by apply (Hold p l).
Qed.

(** The bytes of the heap. *)
Lemma kept_load e k k' L L' p n :
  heap_kept e k k' L L' → heap_pages e k L → cr3_synced k → SCDK_HEAP_BASE <= p → p + Z.of_nat n <= e →
  user_load k' p n = user_load k p n.
Proof.
  intros Hk (pages & HM & He) Hc Hp Hn.
  assert (cr3_synced k') as Hc'.
  { unfold cr3_synced in *. by rewrite (hk_cr3 _ _ _ _ _ Hk), (hk_root _ _ _ _ _ Hk). }
  assert (∀ v, SCDK_HEAP_BASE <= v < e → ∃ q, mmu k v = Ok q ∧ mmu k' v = Ok q ∧ load_byte k' q = load_byte k q) as Hbyte.
  { intros v Hv. destruct (heap_byte k L pages v HM) as (q & _ & HL & Hal & Ht); [lia|].
    exists (q + v mod 4096). split_and!; [by apply (mmu_translation _ _ _ Hc Ht)| |].
    - apply (mmu_translation _ _ (q + v mod 4096, SCDK_VMM_MAP_WRITE) Hc'). by rewrite (hk_trans _ _ _ _ _ Hk).
    - unfold load_byte. do 2 f_equal.
      assert (q + v mod 4096 - (q + v mod 4096) mod 8 = q + 8 * (v mod 4096 / 8)) as -> by
        (Z.to_euclidean_division_equations; lia).
      apply (hk_data _ _ _ _ _ Hk q data_label); [done|simpl; lia|].
      Z.to_euclidean_division_equations; lia. }
  clear He. revert p Hp Hn. induction n as [|n IH]; intros p Hp Hn; [done|]. cbn [user_load].
  destruct (Hbyte p) as (q & -> & -> & Hb); [lia|]. cbn [rbind]. by rewrite IH, Hb by lia.
Qed.
End pages.
