(* ===== verification/UserGrant.v ===== *)
(** * Grants over user memory ([src/core/user_grant.c])

    A user task lends a range of its memory to one endpoint. The grant is an
    object of the same type as a kernel grant; its slot is reused after
    revocation, together with the object. *)
From stdpp Require Import base gmap list numbers relations.
From Stdlib Require Import ZArith Lia.
From S2P Require Import Prelude.
From S2P Require Import Kernel.
From S2P Require Import Object.
From S2P Require Import Capability.
From S2P Require Import Invariant.
From S2P Require Import Endpoint.
From S2P Require Import Vmm.
From S2P Require Import AddressSpace.
From S2P Require Import UserMemory.

#[local] Open Scope Z_scope.

(** [SCDK_RIGHT_READ | SCDK_RIGHT_WRITE | SCDK_RIGHT_MAP] *)
Definition SCDK_USER_GRANT_RIGHTS_MASK : Z := 11.

(** ** Operations *)
Definition checked_user_range (k : kernel) (user_base length : Z) (writable : bool) : result unit :=
  let? _ := rguard ((length =? 0) || (two64 - 1 <? length)) SCDK_ERR_INVAL in
  scdk_user_validate_range k user_base length writable.

(** A kernel grant's slot read as a user grant's is undefined. *)
Definition user_grant_lookup (k : kernel) (grant_cap required_rights : Z) (require_live_binding : bool)
  : result (nat * scdk_user_grant_slot) :=
  let? entry := scdk_cap_check k grant_cap required_rights SCDK_OBJ_GRANT in
  let? object := scdk_object_lookup k (ce_object_id entry) in
  match obj_payload object with
  | P_null => Err SCDK_ERR_NOENT
  | P_user_grant i =>
      let? slot := deref (k_ugrants k !! i) in
      let? _ := rguard (negb (ug_object_id slot =? ce_object_id entry)) SCDK_ERR_NOENT in
      let? _ := rguard (ug_revoked slot) SCDK_ERR_PERM in
      if require_live_binding then
        let? _ := scdk_cap_check k (ug_source_task slot) SCDK_RIGHT_READ SCDK_OBJ_TASK in
        let? _ := scdk_cap_check k (ug_target_endpoint slot) SCDK_RIGHT_SEND SCDK_OBJ_ENDPOINT in
        Ok (i, slot)
      else Ok (i, slot)
  | _ => Ub
  end.

Definition check_grant_range (slot : scdk_user_grant_slot) (offset length required_rights : Z)
  : result unit :=
  let? _ := rguard ((length =? 0) || (required_rights =? 0)
                    || negb (Z.land required_rights (not64 SCDK_USER_GRANT_RIGHTS_MASK) =? 0))
              SCDK_ERR_INVAL in
  let? _ := rguard (negb (Z.land (ug_rights slot) required_rights =? required_rights)) SCDK_ERR_PERM in
  rguard ((ug_length slot <? offset) || (wrap64 (ug_length slot - offset) <? length)) SCDK_ERR_BOUNDS.

Definition put_ugrant (i : nat) (s : scdk_user_grant_slot) (k : kernel) : kernel :=
  set_ugrants (<[i := s]> (k_ugrants k)) k.

(** A slot the search takes: never used, or revoked. *)
Definition ugrant_available (s : scdk_user_grant_slot) : bool :=
  (ug_object_id s =? 0) || ug_revoked s.
(** What a reused slot is reset to when no capability can be minted. *)
Definition revoked_ugrant (object_id : Z) : scdk_user_grant_slot :=
  mk_user_grant_slot object_id 0 0 0 0 0 0 true.

(** The body of the loop at the slot it stops at. *)
Definition fill_ugrant (i : nat) (s : scdk_user_grant_slot)
    (source_task user_base length rights target_endpoint : Z) : K Z :=
  let reuse := negb (ug_object_id s =? 0) && ug_revoked s in
  let* object_id :=
    if reuse then ret (ug_object_id s)
    else scdk_object_create SCDK_OBJ_GRANT SCDK_BOOT_CORE 0 (P_user_grant i) in
  modify (put_ugrant i (mk_user_grant_slot object_id source_task target_endpoint user_base length
                          rights 1 false)) ;;
  on_error (scdk_cap_create object_id (Z.lor rights SCDK_RIGHT_REVOKE))
    (put_ugrant i (if reuse then revoked_ugrant object_id else null_user_grant)).

Definition scdk_user_grant_create (source_task user_base length rights target_endpoint : Z) : K Z :=
  guard ((source_task =? 0) || (user_base =? 0) || (length =? 0) || (rights =? 0)
         || negb (Z.land rights (not64 SCDK_USER_GRANT_RIGHTS_MASK) =? 0)
         || (target_endpoint =? 0)) SCDK_ERR_INVAL ;;
  query (λ k, scdk_cap_check k source_task SCDK_RIGHT_READ SCDK_OBJ_TASK) ;;
  query (λ k, scdk_cap_check k target_endpoint SCDK_RIGHT_SEND SCDK_OBJ_ENDPOINT) ;;
  query (λ k, checked_user_range k user_base length (negb (Z.land rights SCDK_RIGHT_WRITE =? 0))) ;;
  let* slot := gets (λ k, find_slot ugrant_available (k_ugrants k)) in
  match slot with
  | None => fail SCDK_ERR_NOMEM
  | Some i =>
      let* s := query (λ k, deref (k_ugrants k !! i)) in
      fill_ugrant i s source_task user_base length rights target_endpoint
  end.

Definition revoke_ugrant (s : scdk_user_grant_slot) : scdk_user_grant_slot :=
  mk_user_grant_slot (ug_object_id s) (ug_source_task s) (ug_target_endpoint s) (ug_user_base s)
    (ug_length s) (ug_rights s) (ug_lifetime s) true.

Definition scdk_user_grant_revoke (grant_cap : Z) : K unit :=
  let* found := query (λ k, user_grant_lookup k grant_cap SCDK_RIGHT_REVOKE false) in
  modify (put_ugrant found.1 (revoke_ugrant found.2)) ;;
  scdk_cap_revoke grant_cap.

Definition scdk_validate_grant_access (k : kernel) (grant_cap offset length required_rights : Z)
  : result unit :=
  let? found := user_grant_lookup k grant_cap required_rights true in
  check_grant_range found.2 offset length required_rights.

Definition scdk_user_grant_copy_from (k : kernel) (target_endpoint grant_cap offset length : Z)
  : result (list Z) :=
  let? _ := rguard (target_endpoint =? 0) SCDK_ERR_INVAL in
  let? found := user_grant_lookup k grant_cap SCDK_RIGHT_READ true in
  let? _ := rguard (negb (ug_target_endpoint found.2 =? target_endpoint)) SCDK_ERR_PERM in
  let? _ := check_grant_range found.2 offset length SCDK_RIGHT_READ in
  scdk_user_copy_from k (wrap64 (ug_user_base found.2 + offset)) length.

(** ** What a grant is *)

(** The object of a used slot points back to the slot; the capabilities kept in
    a slot are 64-bit values. *)
Record ugrants_wf (k : kernel) : Prop := {
  ugw_object : ∀ i s, k_ugrants k !! i = Some s → ug_object_id s ≠ 0 →
    ∃ g, scdk_object_lookup k (ug_object_id s) =
      Ok (mk_object (ug_object_id s) SCDK_OBJ_GRANT g SCDK_BOOT_CORE 0 (P_user_grant i));
  ugw_u64 : ∀ i s, k_ugrants k !! i = Some s → u64 (ug_source_task s) ∧ u64 (ug_target_endpoint s)
}.

(** The effect of a successful creation, whether the slot is new or reused. *)
Record grant_made (k k' : kernel) (i : nat) (s : scdk_user_grant_slot) (cap rights : Z) : Prop := {
  gm_state : k' = set_caps (k_caps k') (set_objs (k_objs k') (put_ugrant i s k));
  gm_caps : caps_wf k';
  gm_slot : ∀ s0, k_ugrants k !! i = Some s0 → ugrant_available s0 = true;
  gm_bound : (i < length (k_ugrants k))%nat;
  gm_new : ∃ g,
    scdk_object_lookup k' (ug_object_id s) =
      Ok (mk_object (ug_object_id s) SCDK_OBJ_GRANT g SCDK_BOOT_CORE 0 (P_user_grant i)) ∧
    scdk_cap_lookup k' cap = Ok (mk_cap_entry (ug_object_id s) g SCDK_OBJ_GRANT 0 rights);
  gm_objects : ∀ id o, scdk_object_lookup k id = Ok o → scdk_object_lookup k' id = Ok o;
  gm_keep : ∀ c e, u64 c → scdk_cap_lookup k c = Ok e → scdk_cap_lookup k' c = Ok e
}.

Section grants.
Implicit Types (k : kernel) (s : scdk_user_grant_slot).

Lemma fill_ugrant_Ok k i s0 src base len rights ep cap k' :
  kernel_wf k → ugrants_wf k → k_ugrants k !! i = Some s0 → ugrant_available s0 = true →
  fill_ugrant i s0 src base len rights ep k = (Ok cap, k') →
  ∃ oid, oid ≠ 0 ∧
    grant_made k k' i (mk_user_grant_slot oid src ep base len rights 1 false) cap (Z.lor rights SCDK_RIGHT_REVOKE).
Proof.
  intros Hwf Hug Hi Hav H. pose proof (lookup_lt_Some _ _ _ Hi) as Hlt. unfold fill_ugrant in H.
  destruct (negb (ug_object_id s0 =? 0) && ug_revoked s0) eqn:Er.
  - minv_step H. apply ret_inv in E as [-> ->]. minv_step H. apply modify_inv in E as ->.
    apply on_error_inv_Ok, cap_create_Ok in H; [|apply (caps_wf_tables k); [done|done|apply Hwf]].
    bsplit. exists (ug_object_id s0). split; [done|].
    destruct (ugw_object _ Hug i s0 Hi ltac:(done)) as [g Hg].
    assert (k_objs k' = k_objs k) as Hobjs by (by rewrite (cc_frame _ _ _ _ _ H)).
    assert (∀ id, scdk_object_lookup k' id = scdk_object_lookup k id) as Hlk.
    { intros id. by apply object_lookup_objs. }
    split; simpl.
    + rewrite Hobjs. rewrite (cc_frame _ _ _ _ _ H) at 1. by destruct k.
    + apply H.
    + intros s1 Hs1. congruence.
    + done.
    + exists g. rewrite Hlk. split; [done|]. destruct (cc_lookup _ _ _ _ _ H) as (o & Ho & Hl).
      rewrite (object_lookup_objs _ k) in Ho by done. rewrite Hg in Ho. injection Ho as <-. done.
    + intros id o. by rewrite Hlk.
    + intros c e Hc He. apply H; [done|]. by rewrite (cap_lookup_tables _ k).
  - apply (mint_Ok SCDK_OBJ_GRANT SCDK_BOOT_CORE 0 (P_user_grant i) (Z.lor rights SCDK_RIGHT_REVOKE)
      (λ oid, put_ugrant i (mk_user_grant_slot oid src ep base len rights 1 false))) in H
      as [oid H]; [|done|done|apply Hwf].
    exists oid. split; [apply H|]. split; simpl; try apply H; [congruence|done].
Qed.

Lemma user_grant_create_Ok k src base len rights ep cap k' :
  kernel_wf k → ugrants_wf k → scdk_user_grant_create src base len rights ep k = (Ok cap, k') →
  ∃ i oid, oid ≠ 0 ∧ Z.land rights (not64 SCDK_USER_GRANT_RIGHTS_MASK) = 0 ∧
    (∃ e, scdk_cap_check k src SCDK_RIGHT_READ SCDK_OBJ_TASK = Ok e) ∧
    (∃ e, scdk_cap_check k ep SCDK_RIGHT_SEND SCDK_OBJ_ENDPOINT = Ok e) ∧
    scdk_user_validate_range k base len (negb (Z.land rights SCDK_RIGHT_WRITE =? 0)) = Ok tt ∧
    grant_made k k' i (mk_user_grant_slot oid src ep base len rights 1 false) cap (Z.lor rights SCDK_RIGHT_REVOKE).
Proof.
  intros Hwf Hug H. unfold scdk_user_grant_create in H. do 5 minv_step H. repeat minv_leaf. bsplit.
  destruct (find_slot _ _) as [i|] eqn:Hf; [|done]. apply find_slot_Some in Hf as [(s0 & Hs0 & Hav) _].
  minv_step H. repeat minv_leaf. rewrite Hs0 in E. injection E as <-.
  destruct (fill_ugrant_Ok _ _ _ _ _ _ _ _ _ _ Hwf Hug Hs0 Hav H) as (oid & Hoid & Hgm).
  unfold checked_user_range in E2. minv_step E2. destruct a2. exists i, oid. split_and!; eauto.
Qed.

(** What a lookup needs to succeed. *)
Lemma user_grant_lookup_Ok k c q live i s :
  user_grant_lookup k c q live = Ok (i, s) ↔
  ∃ e o, scdk_cap_check k c q SCDK_OBJ_GRANT = Ok e ∧ scdk_object_lookup k (ce_object_id e) = Ok o ∧
    obj_payload o = P_user_grant i ∧ k_ugrants k !! i = Some s ∧ ug_object_id s = ce_object_id e ∧
    ug_revoked s = false ∧
    (live = true → (∃ e', scdk_cap_check k (ug_source_task s) SCDK_RIGHT_READ SCDK_OBJ_TASK = Ok e') ∧
      (∃ e', scdk_cap_check k (ug_target_endpoint s) SCDK_RIGHT_SEND SCDK_OBJ_ENDPOINT = Ok e')).
Proof.
  unfold user_grant_lookup. split.
  - intros H. do 2 minv_step H. destruct (obj_payload a0) as [| | | |j| | | | | | |] eqn:Hp; try done.
    do 3 minv_step H. repeat minv_leaf. bsplit. destruct live.
    + do 2 minv_step H. injection H as <- <-. exists a, a0. split_and!; eauto.
    + injection H as <- <-. exists a, a0. split_and!; eauto. done.
  - intros (e & o & Hc & Ho & Hp & Hs & Hid & Hr & Hl). rewrite Hc. cbn [rbind]. rewrite Ho. cbn [rbind].
    rewrite Hp, Hs. cbn [deref rbind]. rewrite Hid, Z.eqb_refl, Hr. cbn [negb rguard rbind].
    destruct live; [|done]. destruct (Hl eq_refl) as [[e1 E1] [e2 E2]]. by rewrite E1; cbn [rbind]; rewrite E2.
Qed.

Lemma check_grant_range_iff s off n q :
  u64 off → u64 n → u64 (ug_length s) →
  check_grant_range s off n q = Ok tt ↔
  (q ≠ 0 ∧ Z.land q (not64 SCDK_USER_GRANT_RIGHTS_MASK) = 0 ∧ Z.land (ug_rights s) q = q) ∧
  0 < n ∧ off + n <= ug_length s.
Proof.
  unfold u64. intros Ho Hn Hl. unfold check_grant_range. split.
  - intros H. minv H. bsplit. unfold wrap64 in *. rewrite Z.mod_small in * by lia. split_and!; done || lia.
  - intros ((Hq & Hm & Hr) & H1 & H2). rewrite (proj2 (Z.eqb_neq n 0)), (proj2 (Z.eqb_neq q 0)) by lia.
    rewrite Hm, Hr, !Z.eqb_refl. cbn [orb negb rguard rbind]. rewrite (proj2 (Z.ltb_ge _ _)) by lia.
    unfold wrap64. rewrite Z.mod_small by lia. by rewrite (proj2 (Z.ltb_ge _ _)) by lia.
Qed.

Lemma rights_widen a b q : Z.land a q = q → Z.land (Z.lor a b) q = q.
Proof.
  intros H. apply Z.bits_inj'. intros n Hn. rewrite Z.land_spec, Z.lor_spec.
  assert (Z.testbit a n && Z.testbit q n = Z.testbit q n) as E by (rewrite <-Z.land_spec; by rewrite H).
  destruct (Z.testbit a n), (Z.testbit b n), (Z.testbit q n); done.
Qed.
Lemma rights_mask a q m : Z.land a m = 0 → Z.land a q = q → Z.land q m = 0.
Proof. intros Hm Hs. rewrite <-Hs, (Z.land_comm a), <-Z.land_assoc, Hm. apply Z.land_0_r. Qed.

Lemma grant_made_check k k' i s cap r c q t e :
  grant_made k k' i s cap r → u64 c → scdk_cap_check k c q t = Ok e → scdk_cap_check k' c q t = Ok e.
Proof.
  intros Hgm Hc (H1 & H2 & H3)%cap_check_Ok. apply cap_check_Ok. split; [done|]. split; [|done].
  by apply (gm_keep _ _ _ _ _ _ Hgm).
Qed.

Lemma grant_made_slots k k' i s cap r j :
  grant_made k k' i s cap r → k_ugrants k' !! j = if decide (i = j) then Some s else k_ugrants k !! j.
Proof.
  intros Hgm. rewrite (gm_state _ _ _ _ _ _ Hgm). simpl. destruct (decide (i = j)) as [<-|Hne].
  - apply list_lookup_insert_eq. apply Hgm.
  - by apply list_lookup_insert_ne.
Qed.

(** The other grants are undisturbed. *)
Lemma grant_made_others k k' i s cap r c q live found :
  ugrants_wf k → grant_made k k' i s cap r → u64 c →
  user_grant_lookup k c q live = Ok found → user_grant_lookup k' c q live = Ok found.
Proof.
  intros Hug Hgm Hc. destruct found as [j sj]. intros (e & o & He & Ho & Hp & Hs & Hid & Hr & Hl)%user_grant_lookup_Ok.
  apply user_grant_lookup_Ok. exists e, o. split; [by eapply grant_made_check|].
  split; [by apply (gm_objects _ _ _ _ _ _ Hgm)|]. split; [done|]. split.
  - rewrite (grant_made_slots _ _ _ _ _ _ _ Hgm). rewrite decide_False; [done|]. intros <-.
    pose proof (gm_slot _ _ _ _ _ _ Hgm _ Hs) as Hav. unfold ugrant_available in Hav.
    rewrite Hr, orb_false_r, Hid in Hav. apply Z.eqb_eq in Hav.
    apply object_lookup_Ok in Ho as (_ & _ & _ & _ & _ & ? & _). done.
  - destruct (ugw_u64 _ Hug _ _ Hs) as [U1 U2]. split; [done|]. split; [done|].
    intros [[e1 E1] [e2 E2]]%Hl. split; eexists; eapply grant_made_check; done.
Qed.

(** The new grant is reached for its rights and for revocation. *)
Lemma grant_made_lookup k k' i s cap r q live :
  grant_made k k' i s cap r → ug_revoked s = false → u64 (ug_source_task s) → u64 (ug_target_endpoint s) →
  (∃ e, scdk_cap_check k (ug_source_task s) SCDK_RIGHT_READ SCDK_OBJ_TASK = Ok e) →
  (∃ e, scdk_cap_check k (ug_target_endpoint s) SCDK_RIGHT_SEND SCDK_OBJ_ENDPOINT = Ok e) →
  ∀ found, user_grant_lookup k' cap q live = Ok found ↔ found = (i, s) ∧ q ≠ 0 ∧ Z.land r q = q.
Proof.
  intros Hgm Hr Us Ue [e1 E1] [e2 E2] [j sj]. destruct (gm_new _ _ _ _ _ _ Hgm) as (g & Ho & Hl).
  rewrite user_grant_lookup_Ok. split.
  - intros (e & o & (Hq & He & _ & Hs)%cap_check_Ok & Ho' & Hp & Hj & _).
    rewrite Hl in He. injection He as <-. simpl in *. rewrite Ho in Ho'. injection Ho' as <-.
    injection Hp as <-. rewrite (grant_made_slots _ _ _ _ _ _ _ Hgm), decide_True in Hj by done.
    injection Hj as <-. done.
  - intros ([= -> ->] & Hq & Hs). eexists _, _. split_and!.
    + apply cap_check_Ok. split_and!; [done|exact Hl|by right|done].
    + exact Ho.
    + done.
    + rewrite (grant_made_slots _ _ _ _ _ _ _ Hgm). by rewrite decide_True.
    + done.
    + done.
    + intros _. split; eexists; by eapply grant_made_check.
Qed.

Lemma grant_made_wf k k' i s cap r :
  ugrants_wf k → grant_made k k' i s cap r → u64 (ug_source_task s) → u64 (ug_target_endpoint s) →
  ugrants_wf k'.
Proof.
  intros Hug Hgm Us Ue. destruct (gm_new _ _ _ _ _ _ Hgm) as (g & Ho & _).
  split; intros j sj; rewrite (grant_made_slots _ _ _ _ _ _ _ Hgm); destruct (decide (i = j)) as [<-|_].
  - intros [= <-] _. by exists g.
  - intros Hj Hne. destruct (ugw_object _ Hug _ _ Hj Hne) as [g' Hg']. exists g'.
    by apply (gm_objects _ _ _ _ _ _ Hgm).
  - by intros [= <-].
  - apply Hug.
Qed.

(** Revocation marks the slot and kills the token. *)
Lemma user_grant_revoke_Ok k cap k' :
  caps_wf k → u64 cap → scdk_user_grant_revoke cap k = (Ok tt, k') →
  ∃ i s, user_grant_lookup k cap SCDK_RIGHT_REVOKE false = Ok (i, s) ∧
    cap_revoked (put_ugrant i (revoke_ugrant s) k) k' cap.
Proof.
  intros Hwf Hc H. unfold scdk_user_grant_revoke in H. do 2 minv_step H. repeat minv_leaf.
  destruct a as [i s]. exists i, s. split; [done|]. apply cap_revoke_Ok; [|done|done].
  by apply (caps_wf_tables k).
Qed.

Lemma revoked_slots k k' i s cap j sj :
  cap_revoked (put_ugrant i (revoke_ugrant s) k) k' cap → k_ugrants k !! i = Some s →
  k_ugrants k' !! j = Some sj → if decide (i = j) then sj = revoke_ugrant s else k_ugrants k !! j = Some sj.
Proof.
  intros Hr Hi. rewrite (cr_frame _ _ _ Hr). simpl. destruct (decide (i = j)) as [<-|Hne].
  - rewrite list_lookup_insert_eq by (by eapply lookup_lt_Some). by intros [= <-].
  - by rewrite list_lookup_insert_ne.
Qed.

(** A grant at another slot is reached as before. *)
Lemma revoked_others k k' i s cap c q live j sj :
  ugrants_wf k → user_grant_lookup k cap SCDK_RIGHT_REVOKE false = Ok (i, s) →
  cap_revoked (put_ugrant i (revoke_ugrant s) k) k' cap → u64 c → j ≠ i →
  user_grant_lookup k c q live = Ok (j, sj) → user_grant_lookup k' c q live = Ok (j, sj).
Proof.
  intros Hug (ec & oc & Hec & Hoc & Hpc & _)%user_grant_lookup_Ok Hr Hc Hji.
  intros (e & o & He & Ho & Hp & Hs & Hid & Hrv & Hl)%user_grant_lookup_Ok.
  assert (∀ id, scdk_object_lookup k' id = scdk_object_lookup k id) as Hlk.
  { intros id. apply object_lookup_objs. by rewrite (cr_frame _ _ _ Hr). }
  pose proof (proj1 (cap_check_Ok _ _ _ _ _) Hec) as (_ & Lc & [Tc|Tc] & _); [done|].
  assert (∀ c r t e, u64 c → c ≠ cap → scdk_cap_check k c r t = Ok e → scdk_cap_check k' c r t = Ok e) as Hkeep.
  { intros c0 r t e0 Hu Hne (A1 & A2 & A3)%cap_check_Ok. apply cap_check_Ok. split; [done|]. split; [|done].
    apply (cr_keep _ _ _ Hr); [done|done|]. by rewrite (cap_lookup_tables _ k). }
  assert (∀ c r t e, t ≠ SCDK_OBJ_NONE → t ≠ SCDK_OBJ_GRANT → scdk_cap_check k c r t = Ok e → c ≠ cap) as Htype.
  { intros c0 r t e0 Hn Hg (_ & A2 & [A3|A3] & _)%cap_check_Ok ->; [done|].
    rewrite Lc in A2. injection A2 as ->. congruence. }
  apply user_grant_lookup_Ok. exists e, o. split_and!; [| |done| |done|done|].
  - apply Hkeep; [done| |done]. intros ->. pose proof (proj1 (cap_check_Ok _ _ _ _ _) He) as (_ & L' & _).
    rewrite Lc in L'. injection L' as ->. rewrite Ho in Hoc. injection Hoc as ->. congruence.
  - by rewrite Hlk.
  - rewrite (cr_frame _ _ _ Hr). simpl. by rewrite list_lookup_insert_ne.
  - destruct (ugw_u64 _ Hug _ _ Hs) as [U1 U2]. intros [[e1 E1] [e2 E2]]%Hl.
    split; [exists e1|exists e2]; (apply Hkeep; [done| |done]);
      [by apply (Htype _ SCDK_RIGHT_READ SCDK_OBJ_TASK e1)|by apply (Htype _ SCDK_RIGHT_SEND SCDK_OBJ_ENDPOINT e2)].
Qed.

Lemma revoked_wf k k' i s cap :
  ugrants_wf k → k_ugrants k !! i = Some s →
  cap_revoked (put_ugrant i (revoke_ugrant s) k) k' cap → ugrants_wf k'.
Proof.
  intros Hug Hi Hr.
  assert (∀ id, scdk_object_lookup k' id = scdk_object_lookup k id) as Hlk.
  { intros id. apply object_lookup_objs. by rewrite (cr_frame _ _ _ Hr). }
  split; intros j sj Hj; pose proof (revoked_slots _ _ _ _ _ _ _ Hr Hi Hj) as Hsj;
    destruct (decide (i = j)) as [<-|_]; try rewrite Hlk.
  - subst sj. by apply (ugw_object _ Hug i s).
  - by apply Hug.
  - subst sj. by apply (ugw_u64 _ Hug i s).
  - by apply (ugw_u64 _ Hug j sj).
Qed.
End grants.

(** ** The kernel's invariant is kept *)
Lemma put_ugrant_kwf i s k : kernel_wf k → kernel_wf (put_ugrant i s k).
Proof. intros H. kwf_update. Qed.

Lemma fill_ugrant_kwf i s src base len rights ep :
  Z.of_nat i < SCDK_MAX_USER_GRANTS → preserves kernel_wf (fill_ugrant i s src base len rights ep).
Proof.
  intros Hi. unfold fill_ugrant. apply preserves_bind.
  - destruct (negb _ && _); [eauto with scdk|]. by apply object_create_kwf.
  - intros oid. preserves_tac; auto using put_ugrant_kwf, cap_create_kwf.
Qed.

Lemma user_grant_create_kwf src base len rights ep :
  preserves kernel_wf (scdk_user_grant_create src base len rights ep).
Proof.
  unfold scdk_user_grant_create. do 4 (apply preserves_bind; [eauto with scdk|intros _]).
  intros k Hwf. unfold bind at 1, gets. destruct (find_slot _ _) as [i|] eqn:Hf; [|done].
  apply find_slot_lt in Hf. rewrite (ts_ugrants _ (kwf_sized _ Hwf)) in Hf.
  assert (Z.of_nat i < SCDK_MAX_USER_GRANTS) as Hi by (unfold SCDK_MAX_USER_GRANTS in *; lia).
  revert k Hwf. apply preserves_bind; [eauto with scdk|intros s]. by apply fill_ugrant_kwf.
Qed.

(** ** Properties *)

(** C21. A user grant delimits user memory exactly: through the capability that
    [scdk_user_grant_create] returns, access is granted if and only if the
    rights are a non-empty part of the granted ones and the range is a non-empty
    sub-range of the granted one, for all 64-bit offsets and lengths; the copy
    through the grant gives the endpoint it names, and no other, exactly the
    bytes of that sub-range of the caller's memory; and every grant made before
    is reached as before. *)
Theorem user_grant_exact (k k' : kernel) (src base len rights ep cap : Z)
  (Hwf : kernel_wf k) (Hug : ugrants_wf k) (Hsrc : u64 src) (Hep : u64 ep) (Hbase : u64 base)
  (Hlen : u64 len)
  (Hrun : scdk_user_grant_create src base len rights ep k = (Ok cap, k')) :
  (∀ off n q, u64 off → u64 n →
     scdk_validate_grant_access k' cap off n q = Ok tt ↔
     q ≠ 0 ∧ Z.land rights q = q ∧ 0 < n ∧ off + n <= len) ∧
  (∀ e off n bs, u64 off → u64 n →
     scdk_user_grant_copy_from k' e cap off n = Ok bs ↔
     e = ep ∧ e ≠ 0 ∧ Z.land rights SCDK_RIGHT_READ = SCDK_RIGHT_READ ∧ 0 < n ∧ off + n <= len ∧
     scdk_user_copy_from k' (base + off) n = Ok bs) ∧
  (∀ c q live found, u64 c →
     user_grant_lookup k c q live = Ok found → user_grant_lookup k' c q live = Ok found) ∧
  ugrants_wf k'.
Proof.
  destruct (user_grant_create_Ok _ _ _ _ _ _ _ _ Hwf Hug Hrun)
    as (i & oid & _ & Hmask & Hcs & Hce & Hval & Hgm).
  apply validate_range_spec in Hval as (_ & _ & Htop & _); [|done|done].
  set (s := mk_user_grant_slot oid src ep base len rights 1 false) in *.
  assert (∀ q live found, user_grant_lookup k' cap q live = Ok found ↔
    found = (i, s) ∧ q ≠ 0 ∧ Z.land (Z.lor rights SCDK_RIGHT_REVOKE) q = q) as Hl.
  { intros q live. by apply (grant_made_lookup k). }
  assert (∀ q, Z.land rights q = q → Z.land q (not64 SCDK_USER_GRANT_RIGHTS_MASK) = 0) as Hin.
  { intros q. by apply rights_mask. }
  split_and!.
  - intros off n q Ho Hn. unfold scdk_validate_grant_access. split.
    + intros H. minv_step H. apply Hl in E as (-> & _). by apply check_grant_range_iff in H as ((? & _ & ?) & ?).
    + intros (Hq & Hs & Hr). rewrite (proj2 (Hl q true (i, s))) by (split_and!; [done|done|by apply rights_widen]).
      apply check_grant_range_iff; [done..|]. split; [|exact Hr]. split_and!; [done|by apply Hin|done].
  - intros e off n bs Ho Hn. unfold scdk_user_grant_copy_from. split.
    + intros H. do 4 minv_step H. repeat minv_leaf. apply Hl in E0 as (-> & _). destruct a2.
      apply check_grant_range_iff in E2 as ((_ & _ & ?) & ? & ?); [|done..]. bsplit. simpl in *. subst e.
      unfold wrap64 in H. rewrite Z.mod_small in H
        by (unfold u64, SCDK_USER_VIRT_TOP, two64 in *; lia). done.
    + intros (-> & He & Hs & H0 & Hle & Hcp). rewrite (proj2 (Z.eqb_neq _ _) He). cbn [rguard rbind].
      rewrite (proj2 (Hl SCDK_RIGHT_READ true (i, s))) by (split_and!; [done|done|by apply rights_widen]).
      cbn [rbind snd s ug_target_endpoint ug_user_base]. rewrite Z.eqb_refl. cbn [negb rguard rbind].
      rewrite (proj2 (check_grant_range_iff s off n SCDK_RIGHT_READ Ho Hn Hlen)) by (split_and!; solve [done|by apply Hin]).
      cbn [rbind]. unfold wrap64. rewrite Z.mod_small by (unfold u64, SCDK_USER_VIRT_TOP, two64 in *; lia). done.
  - intros c q live found Hc. by apply (grant_made_others _ _ i s cap _ _ _ _ _ Hug Hgm).
  - by apply (grant_made_wf k _ i s cap _ Hug Hgm).
Qed.

(** Revoking a user grant is effective and confined: after
    [scdk_user_grant_revoke] no access check and no copy through the revoked
    token succeeds, no other token reaches the revoked grant either, and every
    other grant is reached as before. *)
Theorem user_grant_revoked (k k' : kernel) (cap : Z) (Hwf : kernel_wf k) (Hug : ugrants_wf k)
  (Hcap : u64 cap) (Hrun : scdk_user_grant_revoke cap k = (Ok tt, k')) :
  (∀ off n q, scdk_validate_grant_access k' cap off n q ≠ Ok tt) ∧
  (∀ e off n bs, scdk_user_grant_copy_from k' e cap off n ≠ Ok bs) ∧
  (∃ i s, user_grant_lookup k cap SCDK_RIGHT_REVOKE false = Ok (i, s) ∧
     (∀ c q live found, user_grant_lookup k' c q live = Ok found → found.1 ≠ i) ∧
     (∀ c q live found, u64 c → found.1 ≠ i →
        user_grant_lookup k c q live = Ok found → user_grant_lookup k' c q live = Ok found)) ∧
  ugrants_wf k'.
Proof.
  destruct (user_grant_revoke_Ok _ _ _ (kwf_caps _ Hwf) Hcap Hrun) as (i & s & Hl & Hr).
  assert (k_ugrants k !! i = Some s) as Hi by (by apply user_grant_lookup_Ok in Hl as (?&?&_&_&_&?&_)).
  assert (∀ q live found, user_grant_lookup k' cap q live ≠ Ok found) as Hdead.
  { intros q live [j sj] (e & _ & (_ & He & _)%cap_check_Ok & _)%user_grant_lookup_Ok.
    rewrite (cr_dead _ _ _ Hr) in He. done. }
  split_and!.
  - intros off n q H. unfold scdk_validate_grant_access in H. minv_step H. by apply Hdead in E.
  - intros e off n bs H. unfold scdk_user_grant_copy_from in H. do 2 minv_step H. by apply Hdead in E0.
  - exists i, s. split; [done|]. split.
    + intros c q live [j sj] (e & o & _ & _ & _ & Hs & _ & Hrv & _)%user_grant_lookup_Ok Hji. simpl in Hji. subst j.
      apply (revoked_slots _ _ _ _ _ _ _ Hr Hi) in Hs. rewrite decide_True in Hs by done. by subst sj.
    + intros c q live [j sj] Hc Hji H. by apply (revoked_others k _ i s cap).
  - by eapply revoked_wf.
Qed.

(** ** Witnesses

    A task and an endpoint beside the user page of [demo_mapped]. *)
Definition demo_lender : kernel :=
  ((scdk_endpoint_create 0 (Some console_endpoint_handler) 7 ;;
    let* id := scdk_object_create SCDK_OBJ_TASK 0 0 (P_task 0) in
    scdk_cap_create id SCDK_RIGHT_READ) demo_mapped).2.
Definition demo_lent : kernel :=
  (scdk_user_grant_create 4294967297 4194400 64 SCDK_RIGHT_READ 4294967296 demo_lender).2.

Lemma demo_mapped_kwf : kernel_wf demo_mapped.
Proof.
  apply (kernel_wf_frame boot_kernel); [exact boot_kernel_wf|vm_compute; reflexivity..|].
  split; vm_compute; reflexivity.
Qed.

Lemma demo_lender_kwf : kernel_wf demo_lender.
Proof.
  refine (preserves_bind _ _ _ _ _ demo_mapped demo_mapped_kwf); [apply endpoint_create_kwf|intros _].
  apply preserves_bind; [by apply object_create_kwf|intros id]. apply cap_create_kwf.
Qed.

Lemma demo_lender_grants : ugrants_wf demo_lender.
Proof.
  assert (k_ugrants demo_lender = replicate 128 null_user_grant) as E by (vm_compute; reflexivity).
  split; intros i s; rewrite E; intros [-> _]%lookup_replicate.
  - intros Hne. destruct (Hne eq_refl).
  - change (u64 0 ∧ u64 0). unfold u64, two64. lia.
Qed.

Lemma demo_lend_runs :
  scdk_user_grant_create 4294967297 4194400 64 SCDK_RIGHT_READ 4294967296 demo_lender =
  (Ok 4294967298, demo_lent).
Proof. apply run_to; [reflexivity|]. vm_compute. reflexivity. Qed.

Lemma user_grant_exact_witness : scdk_validate_grant_access demo_lent 4294967298 60 4 SCDK_RIGHT_READ = Ok tt.
Proof.
  assert (u64 4294967297 ∧ u64 4294967296 ∧ u64 4194400 ∧ u64 64 ∧ u64 60 ∧ u64 4)
    as (H1 & H2 & H3 & H4 & H5 & H6) by (unfold u64, two64; lia).
  destruct (user_grant_exact demo_lender demo_lent 4294967297 4194400 64 SCDK_RIGHT_READ 4294967296
    4294967298 demo_lender_kwf demo_lender_grants H1 H2 H3 H4 demo_lend_runs) as (H & _).
  apply (H 60 4 SCDK_RIGHT_READ H5 H6). split; [discriminate|]. split; [reflexivity|]. lia.
Defined.

Lemma user_grant_revoked_witness :
  scdk_validate_grant_access (scdk_user_grant_revoke 4294967298 demo_lent).2 4294967298 60 4 SCDK_RIGHT_READ ≠ Ok tt.
Proof.
  assert (u64 4294967297 ∧ u64 4294967296 ∧ u64 4294967298) as (H1 & H2 & H3) by (unfold u64, two64; lia).
  assert (kernel_wf demo_lent) as Hwf.
  { pose proof (user_grant_create_kwf 4294967297 4194400 64 SCDK_RIGHT_READ 4294967296 demo_lender demo_lender_kwf) as H.
    exact H. }
  destruct (user_grant_create_Ok _ _ _ _ _ _ _ _ demo_lender_kwf demo_lender_grants demo_lend_runs)
    as (i & oid & _ & _ & _ & _ & _ & Hgm).
  destruct (user_grant_revoked demo_lent (scdk_user_grant_revoke 4294967298 demo_lent).2 4294967298 Hwf) as (H & _).
  - exact (grant_made_wf _ _ _ _ _ _ demo_lender_grants Hgm H1 H2).
  - exact H3.
  - apply run_to; [reflexivity|]. vm_compute. reflexivity.
  - exact (H 60 4 SCDK_RIGHT_READ).
Defined.
