(* ===== verification/UserTask.v ===== *)
(** * User tasks and threads ([src/core/task.c])

    The table of user tasks and the table of their threads, filled on top of
    the address-space, task and thread objects of the kernel. This file has the
    operations that stay in the kernel: creation, exit, kill on a fault,
    cleanup and the queries; running a task is in [Process]. *)
From stdpp Require Import base gmap list numbers relations.
From Stdlib Require Import ZArith Lia.
From S2P Require Import Prelude.
From S2P Require Import Kernel.
From S2P Require Import Object.
From S2P Require Import Capability.
From S2P Require Import Pmm.
From S2P Require Import Vmm.
From S2P Require Import Heap.
From S2P Require Import AddressSpace.
From S2P Require Import Scheduler.

#[local] Open Scope Z_scope.

Definition SCDK_USER_TEST_CODE_VIRT : Z := 0x400000.
Definition SCDK_USER_TEST_STACK_TOP : Z := 0x70000000.

Definition SCDK_TASK_NONE : Z := 0.
Definition SCDK_TASK_NEW : Z := 1.
Definition SCDK_TASK_RUNNING : Z := 2.
Definition SCDK_TASK_DEAD : Z := 3.
Definition SCDK_TASK_CLEANED : Z := 4.

Definition object_id_from_cap (k : kernel) (cap expected_type : Z) : result Z :=
  let? entry := scdk_cap_check k cap SCDK_RIGHT_READ expected_type in
  Ok (ce_object_id entry).

(** ** The tables *)
Definition user_task_slot_for_cap (k : kernel) (task : Z) : result nat :=
  match find_slot (λ s, ut_in_use s && (ut_task_cap s =? task)) (user_tasks (k_utasks k)) with
  | Some i => Ok i
  | None => Err SCDK_ERR_NOENT
  end.
Definition user_thread_slot_for_cap (k : kernel) (thread : Z) : result nat :=
  match find_slot (λ s, uh_in_use s && (uh_thread_cap s =? thread)) (user_threads (k_utasks k)) with
  | Some i => Ok i
  | None => Err SCDK_ERR_NOENT
  end.

(** The free slot, none when the table is full. *)
Definition alloc_task_slot (k : kernel) : option nat :=
  find_slot (λ s, negb (ut_in_use s)) (user_tasks (k_utasks k)).
Definition alloc_thread_slot (k : kernel) : option nat :=
  find_slot (λ s, negb (uh_in_use s)) (user_threads (k_utasks k)).

Definition upd_utask (i : nat) (f : scdk_user_task_slot → scdk_user_task_slot) (k : kernel) : kernel :=
  set_utasks (mk_user_tasks (alter f i (user_tasks (k_utasks k))) (user_threads (k_utasks k))
                (current_user_task (k_utasks k))) k.
Definition upd_uthread (i : nat) (f : scdk_user_thread_slot → scdk_user_thread_slot) (k : kernel) : kernel :=
  set_utasks (mk_user_tasks (user_tasks (k_utasks k)) (alter f i (user_threads (k_utasks k)))
                (current_user_task (k_utasks k))) k.
Definition set_current_utask (task : Z) (k : kernel) : kernel :=
  set_utasks (mk_user_tasks (user_tasks (k_utasks k)) (user_threads (k_utasks k)) task) k.

Definition get_utask (i : nat) : K scdk_user_task_slot :=
  query (λ k, deref (user_tasks (k_utasks k) !! i)).
Definition get_uthread (i : nat) : K scdk_user_thread_slot :=
  query (λ k, deref (user_threads (k_utasks k) !! i)).

(** [slot->field = v] *)
Definition with_ustate (state : Z) (s : scdk_user_task_slot) : scdk_user_task_slot :=
  mk_user_task_slot (ut_in_use s) (ut_task_cap s) (ut_task_id s) (ut_address_space_cap s)
    (ut_address_space_id s) (ut_main_thread_cap s) (ut_capability_table_placeholder s)
    (ut_owner_core s) state (ut_exit_status s).
Definition with_exit_status (status : Z) (s : scdk_user_task_slot) : scdk_user_task_slot :=
  mk_user_task_slot (ut_in_use s) (ut_task_cap s) (ut_task_id s) (ut_address_space_cap s)
    (ut_address_space_id s) (ut_main_thread_cap s) (ut_capability_table_placeholder s)
    (ut_owner_core s) (ut_state s) status.
Definition with_umain (thread : Z) (s : scdk_user_task_slot) : scdk_user_task_slot :=
  mk_user_task_slot (ut_in_use s) (ut_task_cap s) (ut_task_id s) (ut_address_space_cap s)
    (ut_address_space_id s) thread (ut_capability_table_placeholder s)
    (ut_owner_core s) (ut_state s) (ut_exit_status s).
Definition not_in_use (s : scdk_user_task_slot) : scdk_user_task_slot :=
  mk_user_task_slot false (ut_task_cap s) (ut_task_id s) (ut_address_space_cap s)
    (ut_address_space_id s) (ut_main_thread_cap s) (ut_capability_table_placeholder s)
    (ut_owner_core s) (ut_state s) (ut_exit_status s).
Definition with_uthread_state (state : Z) (s : scdk_user_thread_slot) : scdk_user_thread_slot :=
  mk_user_thread_slot (uh_in_use s) (uh_thread_cap s) (uh_thread_id s) (uh_task_id s)
    (uh_user_stack_top s) (uh_instruction_pointer s) (uh_owner_core s) state.

(** ** Creation *)
Definition scdk_user_thread_create (task : Z) : K Z :=
  let* ti := query (λ k, user_task_slot_for_cap k task) in
  let* slot := gets alloc_thread_slot in
  match slot with
  | None => fail SCDK_ERR_NOMEM
  | Some hi =>
      let* thread := scdk_thread_create task 0 0 in
      let* thread_id := query (λ k, object_id_from_cap k thread SCDK_OBJ_THREAD) in
      let* task_slot := get_utask ti in
      modify (upd_uthread hi (λ _,
        mk_user_thread_slot true thread thread_id (ut_task_id task_slot) SCDK_USER_TEST_STACK_TOP
          SCDK_USER_TEST_CODE_VIRT (ut_owner_core task_slot) SCDK_THREAD_NEW)) ;;
      modify (upd_utask ti (with_umain thread)) ;;
      ret thread
  end.

(** The task, its address space and its main thread. *)
Definition scdk_user_task_create : K (Z * Z * Z) :=
  let* slot := gets alloc_task_slot in
  match slot with
  | None => fail SCDK_ERR_NOMEM
  | Some i =>
      let* aspace := scdk_address_space_create in
      let* aspace_id := query (λ k, object_id_from_cap k aspace SCDK_OBJ_ADDRESS_SPACE) in
      let* task := scdk_task_create SCDK_BOOT_CORE aspace_id in
      let* task_id := query (λ k, object_id_from_cap k task SCDK_OBJ_TASK) in
      modify (upd_utask i (λ _,
        mk_user_task_slot true task task_id aspace aspace_id 0 0 SCDK_BOOT_CORE SCDK_TASK_NEW 0)) ;;
      let* main_thread := on_error (scdk_user_thread_create task) (upd_utask i not_in_use) in
      ret (task, aspace, main_thread)
  end.

(** ** The end of a task *)

(** [if (thread_slot_for_cap(...) == SCDK_OK) thread_slot->state = DEAD;] *)
Definition kill_main_thread (i : nat) : K unit :=
  let* s := get_utask i in
  let* hi := attempt (query (λ k, user_thread_slot_for_cap k (ut_main_thread_cap s))) in
  match hi with
  | Ok hi => modify (upd_uthread hi (with_uthread_state SCDK_THREAD_DEAD))
  | _ => ret tt
  end.

Definition scdk_task_exit (task status_code : Z) : K unit :=
  let* i := query (λ k, user_task_slot_for_cap k task) in
  let* s := get_utask i in
  guard (negb (ut_state s =? SCDK_TASK_RUNNING)) SCDK_ERR_BUSY ;;
  modify (upd_utask i (with_exit_status status_code)) ;;
  modify (upd_utask i (with_ustate SCDK_TASK_DEAD)) ;;
  kill_main_thread i.

Definition scdk_task_fault_current (status_code : Z) : K unit :=
  let* current := gets (λ k, current_user_task (k_utasks k)) in
  guard (current =? 0) SCDK_ERR_NOENT ;;
  let* i := query (λ k, user_task_slot_for_cap k current) in
  modify (upd_utask i (with_exit_status status_code)) ;;
  modify (upd_utask i (with_ustate SCDK_TASK_DEAD)) ;;
  kill_main_thread i.

Definition scdk_task_cleanup (task : Z) : K unit :=
  let* i := query (λ k, user_task_slot_for_cap k task) in
  let* s := get_utask i in
  guard (negb (ut_state s =? SCDK_TASK_DEAD)) SCDK_ERR_BUSY ;;
  kill_main_thread i ;;
  modify (upd_utask i (with_ustate SCDK_TASK_CLEANED)).

(** ** Queries *)
Definition scdk_user_task_state (k : kernel) (task : Z) : result Z :=
  let? i := user_task_slot_for_cap k task in
  let? s := deref (user_tasks (k_utasks k) !! i) in
  Ok (ut_state s).
Definition scdk_user_thread_state (k : kernel) (thread : Z) : result Z :=
  let? i := user_thread_slot_for_cap k thread in
  let? s := deref (user_threads (k_utasks k) !! i) in
  Ok (uh_state s).
Definition scdk_user_task_current (k : kernel) : result Z :=
  let? _ := rguard (current_user_task (k_utasks k) =? 0) SCDK_ERR_NOENT in
  Ok (current_user_task (k_utasks k)).

(** ** Operations that leave the tables of user tasks alone

    Everything below this component does. *)
#[global] Instance keeps_zoom_pmm {A} (m : M pmm A) : Keeps k_utasks (zoom k_pmm set_pmm m).
Proof. by apply keeps_zoom_other. Qed.

#[global] Instance object_create_keeps type owner flags pl : Keeps k_utasks (scdk_object_create type owner flags pl).
Proof. unfold scdk_object_create, next_generation. apply _. Qed.
#[global] Instance cap_create_keeps oid rights : Keeps k_utasks (scdk_cap_create oid rights).
Proof. unfold scdk_cap_create, next_cap_generation. apply _. Qed.
#[global] Instance kpage_alloc_keeps : Keeps k_utasks kpage_alloc.
Proof. unfold kpage_alloc. apply _. Qed.
#[global] Instance kpage_free_keeps p : Keeps k_utasks (kpage_free p).
Proof. unfold kpage_free. apply _. Qed.

(** *** Page tables, heap, address spaces *)
#[global] Instance next_table_keeps table index create flags :
  Keeps k_utasks (next_table table index create flags).
Proof. unfold next_table, allocate_table. apply _. Qed.
#[global] Instance leaf_table_keeps root virt create flags :
  Keeps k_utasks (leaf_table_for_root root virt create flags).
Proof. unfold leaf_table_for_root. apply _. Qed.
#[global] Instance map_page_in_root_keeps root virt phys flags :
  Keeps k_utasks (scdk_vmm_map_page_in_root root virt phys flags).
Proof. unfold scdk_vmm_map_page_in_root. apply _. Qed.
#[global] Instance map_page_keeps virt phys flags : Keeps k_utasks (scdk_vmm_map_page virt phys flags).
Proof. unfold scdk_vmm_map_page. apply _. Qed.
#[global] Instance unmap_page_in_root_keeps root virt : Keeps k_utasks (scdk_vmm_unmap_page_in_root root virt).
Proof. unfold scdk_vmm_unmap_page_in_root. apply _. Qed.
#[global] Instance unmap_page_keeps virt : Keeps k_utasks (scdk_vmm_unmap_page virt).
Proof. unfold scdk_vmm_unmap_page. apply _. Qed.
#[global] Instance activate_root_keeps root : Keeps k_utasks (scdk_vmm_activate_root root).
Proof. unfold scdk_vmm_activate_root. apply _. Qed.

#[global] Instance create_root_keeps : Keeps k_utasks scdk_vmm_create_root.
Proof. unfold scdk_vmm_create_root. apply _. Qed.

#[global] Instance get_block_keeps a : Keeps k_utasks (get_block a).
Proof. unfold get_block. apply _. Qed.
#[global] Instance put_block_keeps a b : Keeps k_utasks (put_block a b).
Proof. unfold put_block. apply _. Qed.
#[global] Instance update_block_keeps a f : Keeps k_utasks (update_block a f).
Proof. unfold update_block. apply _. Qed.
#[global] Instance block_insert_tail_keeps a : Keeps k_utasks (block_insert_tail a).
Proof. unfold block_insert_tail. apply _. Qed.
#[global] Instance block_remove_keeps a : Keeps k_utasks (block_remove a).
Proof. unfold block_remove. apply _. Qed.
#[global] Instance coalesce_keeps a : Keeps k_utasks (block_coalesce_forward a).
Proof. unfold block_coalesce_forward. apply _. Qed.
#[global] Instance block_split_keeps a n : Keeps k_utasks (block_split a n).
Proof. unfold block_split. apply _. Qed.
#[global] Instance unmap_heap_pages_keeps_utasks n base : Keeps k_utasks (unmap_heap_pages n base).
Proof. induction n as [|n IH]; simpl; apply _. Qed.
#[global] Instance map_heap_loop_keeps_utasks n mapped base : Keeps k_utasks (map_heap_loop n mapped base).
Proof. revert mapped. induction n as [|n IH]; intros mapped; simpl; apply _. Qed.
#[global] Instance heap_extend_keeps n : Keeps k_utasks (heap_extend n).
Proof. unfold heap_extend, map_heap_pages. apply _. Qed.
#[global] Instance kalloc_keeps n : Keeps k_utasks (scdk_kalloc n).
Proof. unfold scdk_kalloc. apply _. Qed.
#[global] Instance kfree_keeps p : Keeps k_utasks (scdk_kfree p).
Proof. unfold scdk_kfree. apply _. Qed.

#[global] Instance free_aspace_keeps a : Keeps k_utasks (free_aspace a).
Proof. unfold free_aspace. apply _. Qed.
#[global] Instance aspace_create_keeps : Keeps k_utasks scdk_address_space_create.
Proof. unfold scdk_address_space_create, scdk_alloc_object_storage, scdk_kzalloc. apply _. Qed.
#[global] Instance aspace_map_keeps a v p f : Keeps k_utasks (scdk_address_space_map a v p f).
Proof. unfold scdk_address_space_map. apply _. Qed.
#[global] Instance aspace_unmap_keeps a v : Keeps k_utasks (scdk_address_space_unmap a v).
Proof. unfold scdk_address_space_unmap. apply _. Qed.
#[global] Instance aspace_activate_keeps a : Keeps k_utasks (scdk_address_space_activate a).
Proof. unfold scdk_address_space_activate. apply _. Qed.

(** *** Scheduler *)
#[global] Instance make_context_keeps i : Keeps k_utasks (make_kernel_thread_context i).
Proof. unfold make_kernel_thread_context, get_thread. apply _. Qed.
#[global] Instance task_create_keeps core a : Keeps k_utasks (scdk_task_create core a).
Proof. unfold scdk_task_create. apply _. Qed.
#[global] Instance thread_create_keeps task e a : Keeps k_utasks (scdk_thread_create task e a).
Proof. unfold scdk_thread_create, get_task, get_thread. apply _. Qed.
