(* ===== verification/TaskCreate.v ===== *)
(** * What creating a user task leaves alone

    [UserTask.scdk_user_task_create] allocates the storage of an address space, a
    root table and table entries. It always returns, it loses no block of the heap,
    and it stores to no page that was committed to the heap before: a program image
    that is in the heap stays as it is. When it fails after the address space was
    made, that space stays behind. *)
From stdpp Require Import base gmap list numbers relations.
From Stdlib Require Import ZArith Lia.
From S2P Require Import Prelude.
From S2P Require Import Kernel.
From S2P Require Import Object.
From S2P Require Import Capability.
From S2P Require Import Invariant.
From S2P Require Import Pmm.
From S2P Require Import Vmm.
From S2P Require Import Heap.
From S2P Require Import HeapVm.
From S2P Require Import AddressSpace.
From S2P Require Import Scheduler.
From S2P Require Import Threads.
From S2P Require Import UserMemory.
From S2P Require Import HeapPages.
From S2P Require Import UserTask.

#[local] Open Scope Z_scope.

(** ** Memory *)
Definition memory_state (k : kernel) := (k_vmm k, k_pmm k).
#[local] Instance object_create_memory ty o fl pl : Keeps memory_state (scdk_object_create ty o fl pl).
Proof. unfold scdk_object_create, next_generation. apply _. Qed.
#[local] Instance cap_create_memory id r : Keeps memory_state (scdk_cap_create id r).
Proof. unfold scdk_cap_create, next_cap_generation. apply _. Qed.
#[local] Instance block_remove_memory a : Keeps memory_state (block_remove a).
Proof. unfold block_remove, update_block, put_block, get_block. apply _. Qed.
#[local] Instance kfree_memory p : Keeps memory_state (scdk_kfree p).
Proof. unfold scdk_kfree, block_coalesce_forward, update_block, put_block, get_block. apply _. Qed.
#[local] Instance thread_create_memory task : Keeps memory_state (scdk_thread_create task 0 0).
Proof. unfold scdk_thread_create. change (negb (0 =? 0)) with false. cbv iota. unfold get_task, get_thread. apply _. Qed.
#[local] Instance task_create_memory c a : Keeps memory_state (scdk_task_create c a).
Proof. unfold scdk_task_create. apply _. Qed.
#[local] Instance user_thread_create_memory task : Keeps memory_state (scdk_user_thread_create task).
Proof. unfold scdk_user_thread_create, get_utask. apply _. Qed.

Lemma keeps_memory {A} (m : K A) k r k' :
  Keeps memory_state m → m k = (r, k') → k_vmm k' = k_vmm k ∧ k_pmm k' = k_pmm k.
Proof. intros Hm E. pose proof (Hm k) as H. rewrite E in H. by injection H. Qed.

Lemma aspace_create_kept k L c k' :
  let e := heap_commit_end (k_heap k) in
  pt_typed k L → heap_pages e k L → scdk_address_space_create k = (Ok c, k') → kept_from e k L k'.
Proof.
  intros e HT Hp. unfold scdk_address_space_create.
  change (scdk_alloc_object_storage SCDK_OBJ_ADDRESS_SPACE aspace_size) with (scdk_kalloc aspace_size). unfold bind at 1.
  destruct (scdk_kalloc aspace_size k) as [[a| |] k1] eqn:E1; [|done..].
  unfold bind at 1, guard. destruct (Z.eqb_spec a 0) as [|Ha]; [done|]. unfold ret at 1. rewrite bind_modify.
  destruct (kalloc_kept k L aspace_size a k1 HT Hp) as [L1 H1]; [by vm_compute|done|done|]. fold e in H1.
  set (k2 := put_aspace a _ k1). assert (heap_kept e k k2 L L1) as H2 by (by apply (heap_kept_tables e k k1)).
  unfold bind at 1, recover at 1. destruct (scdk_vmm_create_root k2) as [[q| |] k3] eqn:E3;
    [|destruct (free_aspace a k3) as [[] ?]; done|done].
  pose proof (heap_kept_trans _ _ _ _ _ _ _ H2 (create_root_kept e k2 L1 q k3 (hk_typed _ _ _ _ _ H2) E3)) as H3.
  unfold bind at 1, recover at 1. destruct (scdk_object_create _ _ _ _ k3) as [[oid| |] k4] eqn:E4;
    [|destruct ((attempt (kpage_free q);; free_aspace a) k4) as [[] ?]; done|done].
  destruct (keeps_memory _ _ _ _ _ E4) as [V4 P4]. rewrite bind_modify. intros E5.
  destruct (keeps_memory _ _ _ _ _ E5) as [V5 P5]. eexists.
  apply (heap_kept_tables e k k3); [exact H3|by rewrite V5|by rewrite P5].
Qed.

Lemma user_task_create_kept k L x k' :
  let e := heap_commit_end (k_heap k) in
  pt_typed k L → heap_pages e k L → scdk_user_task_create k = (Ok x, k') → kept_from e k L k'.
Proof.
  intros e HT Hp. unfold scdk_user_task_create. unfold bind at 1, gets. destruct (alloc_task_slot k) as [i|]; [|done].
  unfold bind at 1. destruct (scdk_address_space_create k) as [[c| |] k1] eqn:E1; [|done..].
  destruct (aspace_create_kept k L c k1 HT Hp E1) as [L1 H1]. fold e in H1. intros E. exists L1.
  eapply keeps_memory in E as [V P]; [by apply (heap_kept_tables e k k1)|apply _].
Qed.

(** ** Tokens *)

(** The token of a new task named nothing before. *)
Lemma task_create_fresh k owner asp c k' :
  caps_wf k → scdk_task_create owner asp k = (Ok c, k') → ∀ e, u64 c ∧ scdk_cap_lookup k c ≠ Ok e.
Proof.
  intros Hwf Hrun. unfold scdk_task_create in Hrun. do 2 minv_step Hrun. apply guard_inv in E as [_ ->].
  apply gets_inv in E0 as [-> ->]. destruct (find_slot _ _) as [i|]; [|done].
  apply bind_inv_Ok in Hrun as (oid & k1 & Ho & Hrun). rewrite bind_modify in Hrun.
  apply bind_inv_Ok in Hrun as (c' & k2 & Hc & Hrun). rewrite bind_modify in Hrun. injection Hrun as -> _.
  apply object_create_Ok in Ho; [|apply Hwf]. destruct (object_created_caps _ _ _ _ _ _ _ Hwf Ho) as (_ & Hwf1 & Hkeep).
  apply on_error_inv_Ok, cap_create_Ok in Hc; [|by apply (caps_wf_tables k1)]. intros e. split; [apply Hc|]. intros Hl.
  apply (cc_fresh _ _ _ _ _ Hc e). by apply Hkeep.
Qed.

(** ** The heap *)

(** [m] returns, with the tables in order and the heap as it was. *)
Definition runs {A} (m : K A) (k : kernel) : Prop :=
  defined (m k).1 ∧ kernel_wf (m k).2 ∧ k_heap (m k).2 = k_heap k.

Section runs.
Implicit Types (k : kernel).

Lemma runs_bind {A B} (m : K A) (f : A → K B) k :
  runs m k → (∀ x k', m k = (Ok x, k') → kernel_wf k' → k_heap k' = k_heap k → runs (f x) k') → runs (bind m f) k.
Proof.
  unfold runs, bind. destruct (m k) as [[x|e|] k'] eqn:E; cbn; [|by intros (_ & ? & ?) _|by intros [[] _]]. intros (_ & Hk & Hh) Hf.
  destruct (Hf x k' eq_refl Hk Hh) as (H1 & H2 & H3). split_and!; [done|done|by etrans].
Qed.
Lemma runs_ret {A} (x : A) k : kernel_wf k → runs (ret x) k.
Proof. done. Qed.
Lemma runs_fail {A} e k : kernel_wf k → runs (fail (A:=A) e) k.
Proof. done. Qed.
Lemma runs_guard b e k : kernel_wf k → runs (guard b e) k.
Proof. by destruct b. Qed.
Lemma runs_gets {A} (f : kernel → A) k : kernel_wf k → runs (gets f) k.
Proof. done. Qed.
Lemma runs_query {A} (f : kernel → result A) k : kernel_wf k → defined (f k) → runs (query f) k.
Proof. done. Qed.
Lemma runs_modify f k : kernel_wf (f k) → k_heap (f k) = k_heap k → runs (modify f) k.
Proof. done. Qed.
Lemma runs_object_create ty o fl pl k : kernel_wf k → payload_typed ty pl → runs (scdk_object_create ty o fl pl) k.
Proof.
  intros Hk Hp. split_and!; [apply object_create_defined, Hk|by apply object_create_kwf|].
  pose proof (object_create_defined k ty o fl pl (cwf_objs _ (kwf_caps _ Hk))) as Hd.
  destruct (scdk_object_create ty o fl pl k) as [[x|e|] k'] eqn:E; [| |done].
  - apply object_create_Ok in E; [|apply Hk]. by rewrite (oc_frame _ _ _ _ _ _ _ E).
  - by apply object_create_Err in E as ->; [|apply Hk].
Qed.
Lemma runs_cap_create id r k : kernel_wf k → runs (scdk_cap_create id r) k.
Proof.
  intros Hk. split_and!; [apply cap_create_defined, Hk|by apply cap_create_kwf|].
  pose proof (cap_create_defined k id r (kwf_caps _ Hk)) as Hd.
  destruct (scdk_cap_create id r k) as [[x|e|] k'] eqn:E; [| |done].
  - apply cap_create_Ok in E; [|apply Hk]. by rewrite (cc_frame _ _ _ _ _ E).
  - by apply cap_create_Err in E as ->; [|apply Hk].
Qed.
Lemma runs_recover {A B} (m : K A) (c : K B) k :
  runs m k → (∀ e k', m k = (Err e, k') → runs c k') → runs (recover m c) k.
Proof.
  unfold runs, recover. destruct (m k) as [[x|e|] k'] eqn:E; cbn; [by intros H _| |by intros H _]. intros (_ & Hk & Hh) Hc.
  destruct (Hc e k' eq_refl) as (H1 & H2 & H3). destruct (c k') as [[y|e'|] k'']; cbn in *; split_and!; (done || by etrans).
Qed.
Lemma runs_on_error {A} (m : K A) f k :
  runs m k → (∀ e k', m k = (Err e, k') → kernel_wf k' → kernel_wf (f k') ∧ k_heap (f k') = k_heap k') → runs (on_error m f) k.
Proof.
  unfold runs, on_error. destruct (m k) as [[x|e|] k'] eqn:E; cbn; [by intros H _| |by intros H _]. intros (_ & Hk & Hh) Hc.
  destruct (Hc e k' eq_refl Hk) as [H1 H2]. split_and!; [done|done|by etrans].
Qed.
Lemma runs_object_id k c ty : kernel_wf k → runs (query (λ k, object_id_from_cap k c ty)) k.
Proof.
  intros Hk. apply runs_query; [done|]. unfold object_id_from_cap.
  apply rbind_defined; [apply cap_check_defined, Hk|done].
Qed.
(** An identifier is read from a token that is not null. *)
Lemma object_id_nonzero k c ty x : object_id_from_cap k c ty = Ok x → c ≠ 0.
Proof. intros E ->. done. Qed.

Lemma runs_task_create a k : kernel_wf k → runs (scdk_task_create SCDK_BOOT_CORE a) k.
Proof.
  intros Hk. unfold scdk_task_create. apply runs_bind; [by apply runs_guard|]. intros [] k1 [= <-] _ _.
  apply runs_bind; [by apply runs_gets|]. intros slot k1 [= <- <-] _ _.
  destruct (find_slot _ _) as [i|] eqn:Ei; [|by apply runs_fail].
  apply find_slot_lt in Ei. rewrite (ts_tasks _ (kwf_sized _ Hk)) in Ei.
  apply runs_bind; [apply runs_object_create; [done|split; [done|unfold SCDK_MAX_TASKS in *; lia]]|]. intros oid k1 _ Hk1 _.
  apply runs_bind; [apply runs_modify; [by apply upd_task_kwf|done]|]. intros [] k2 [= <-] Hk2 _.
  apply runs_bind; [apply runs_on_error; [by apply runs_cap_create|]|].
  { intros e k3 _ Hk3. split; [by apply upd_task_kwf|done]. }
  intros c k3 _ Hk3 _. apply runs_bind; [apply runs_modify; [by apply upd_task_kwf|done]|]. by intros [] k4 [= <-] Hk4 _.
Qed.

Lemma runs_thread_create task k : kernel_wf k → runs (scdk_thread_create task 0 0) k.
Proof.
  intros Hk. unfold scdk_thread_create. apply runs_bind; [apply runs_query; [done|apply cap_check_defined, Hk]|].
  intros te k1 Eq _ _. apply query_inv in Eq as [_ ->].
  apply runs_bind; [apply runs_query; [done|by apply task_slot_defined]|]. intros ti k1 Eq _ _. apply query_inv in Eq as [Hts ->].
  destruct (task_slot_Ok _ _ _ Hts) as (ts & Hti & _).
  apply runs_bind; [by apply runs_gets|]. intros slot k1 [= <- <-] _ _.
  destruct (find_slot _ _) as [i|] eqn:Ei; [|by apply runs_fail]. pose proof (find_slot_lt _ _ _ Ei) as Hlt.
  apply find_slot_Some in Ei as [(s0 & Hi & _) _]. rewrite (ts_threads _ (kwf_sized _ Hk)) in Hlt.
  apply runs_bind; [apply runs_query; [done|by rewrite Hti]|]. intros ts' k1 Eq _ _. apply query_inv in Eq as [_ ->].
  apply runs_bind; [apply runs_object_create; [done|split; [done|unfold SCDK_MAX_THREADS in *; lia]]|]. intros oid k1 Eo Hk1 _.
  apply object_create_Ok in Eo; [|apply Hk]. pose proof (oc_frame _ _ _ _ _ _ _ Eo) as Hf.
  apply runs_bind; [apply runs_modify; [by apply upd_thread_kwf|done]|]. intros [] k2 Em Hk2 _.
  assert (∃ slot, thread_table (k_sched k2) !! i = Some slot ∧ th_kernel_stack slot = 0) as (sl & Hsl & Hst).
  { injection Em as <-. eexists. split; [apply upd_thread_lookup; rewrite Hf; exact Hi|done]. }
  assert (task_table (k_sched k2) !! ti = Some ts) as Hti2 by (injection Em as <-; cbn; by rewrite Hf).
  clear Em. change (negb (0 =? 0)) with false. cbv iota. apply runs_bind; [by apply runs_ret|]. intros [] k3 [= <-] _ _.
  apply runs_bind; [apply runs_recover; [by apply runs_cap_create|]|].
  { intros e k3 Ec. apply cap_create_Err in Ec as ->; [|apply Hk2].
    apply runs_bind; [apply runs_query; [done|by rewrite Hsl]|]. intros t k3 Eq _ _. apply query_inv in Eq as [Eq ->].
    rewrite Hsl in Eq. injection Eq as <-. rewrite Hst.
    apply runs_bind; [done|]. intros [] k3 [= <-] _ _. apply runs_modify; [by apply upd_thread_kwf|done]. }
  intros c k3 Ec Hk3 _. assert (k_sched k3 = k_sched k2) as Es3.
  { unfold recover in Ec. destruct (scdk_cap_create _ _ k2) as [[x|e|] k2'] eqn:E2; [injection Ec as <- <-| |done].
    - apply cap_create_Ok in E2; [|apply Hk2]. by rewrite (cc_frame _ _ _ _ _ E2).
    - by destruct ((let* t := get_thread i in _) k2') as [[] ?]. }
  apply runs_bind; [apply runs_modify; [by apply upd_thread_kwf|done]|]. intros [] k4 [= <-] Hk4 _.
  apply runs_bind; [apply runs_query; [done|cbn; by rewrite Es3, Hti2]|]. intros ts2 k5 Eq _ _. apply query_inv in Eq as [_ ->].
  apply runs_bind; [destruct (_ =? 0); [apply runs_modify; [by apply upd_task_kwf|done]|by apply runs_ret]|].
  intros [] k5 _ Hk5 _. by apply runs_ret.
Qed.

(** The tables of user tasks are not in the invariant of the kernel. *)
Lemma utasks_kwf k u : kernel_wf k → kernel_wf (set_utasks u k).
Proof.
  intros Hk. apply (kernel_wf_frame k); [done..|]. by eapply tables_sized_core; [apply Hk|..].
Qed.

Lemma runs_user_thread_create task k : kernel_wf k → runs (scdk_user_thread_create task) k.
Proof.
  intros Hk. unfold scdk_user_thread_create.
  apply runs_bind; [apply runs_query; [done|unfold user_task_slot_for_cap; by destruct (find_slot _ _)]|].
  intros ti k1 Eq _ _. apply query_inv in Eq as [Eti ->]. unfold user_task_slot_for_cap in Eti.
  destruct (find_slot _ _) as [ti'|] eqn:Ef; [|done]. injection Eti as ->. apply find_slot_Some in Ef as [(us & Hus & _) _].
  apply runs_bind; [by apply runs_gets|]. intros slot k1 [= <- <-] _ _.
  destruct (alloc_thread_slot k) as [hi|]; [|by apply runs_fail].
  apply runs_bind; [by apply runs_thread_create|]. intros th k1 Et Hk1 _.
  assert (k_utasks k1 = k_utasks k) as Eu by (pose proof (thread_create_keeps task 0 0 k) as Hu; by rewrite Et in Hu).
  apply runs_bind; [by apply runs_object_id|]. intros tid k2 Eq _ _. apply query_inv in Eq as [_ ->].
  apply runs_bind; [apply runs_query; [done|by rewrite Eu, Hus]|]. intros ts k2 Eq _ _. apply query_inv in Eq as [_ ->].
  apply runs_bind; [apply runs_modify; [by apply utasks_kwf|done]|]. intros [] k2 [= <-] Hk2 _.
  apply runs_bind; [apply runs_modify; [by apply utasks_kwf|done]|]. intros [] k3 [= <-] Hk3 _. by apply runs_ret.
Qed.

(** The address space is made; the rest keeps the heap. *)
Lemma user_task_create_run k L hs :
  space_base k L hs →
  ∃ r k' hs', scdk_user_task_create k = (r, k') ∧ defined r ∧ heap_wf k' hs' ∧ heap_initialized (k_heap k') = true ∧
    (∀ x, x ∈ allocs SCDK_HEAP_BASE hs → x ∈ allocs SCDK_HEAP_BASE hs') ∧
    match r with Ok (task, aspace, thread) => aspace ≠ 0 ∧ thread ≠ 0 | _ => True end.
Proof.
  intros Hb. unfold scdk_user_task_create. rewrite bind_gets. destruct (alloc_task_slot k) as [i|].
  2:{ exists (Err SCDK_ERR_NOMEM), k, hs. split_and!; (done || apply Hb). }
  destruct (scdk_address_space_create k) as [ra k1] eqn:Ea.
  destruct (aspace_create_cases k L hs ra k1 Hb Ea) as (L1 & hs1 & Hs1 & Hk1 & Hra).
  assert (defined ra) as Hd by (destruct Hra as [(_ & _ & e & ->)|(? & ? & ? & _ & Hra)]; [done|by intros ->]).
  destruct ra as [aspace|e|]; [|exists (Err e), k1, hs1; unfold bind; rewrite Ea; split_and!; (done || apply Hs1)|done].
  rewrite (bind_Ok _ _ _ _ _ Ea).
  match goal with |- context [bind (query ?q) ?f k1] => set (rest := bind (query q) f) end.
  assert (runs rest k1 ∧ ∀ t a th k', rest k1 = (Ok (t, a, th), k') → a ≠ 0 ∧ th ≠ 0) as [(D & W & Hh) Hnz].
  2:{ exists (rest k1).1, (rest k1).2, hs1. split_and!; [by destruct (rest k1)|done| |by rewrite Hh; apply Hs1|apply Hs1|].
      - apply (heap_wf_same k1); [apply Hs1|done].
      - destruct (rest k1) as [[[[t a] th]| |] k2] eqn:E; [by eapply Hnz|done..]. }
  unfold rest. clear rest. split.
  - apply runs_bind; [by apply runs_object_id|]. intros id k2 Eq _ _. apply query_inv in Eq as [_ ->].
    apply runs_bind; [by apply runs_task_create|]. intros t k2 _ Hk2 _.
    apply runs_bind; [by apply runs_object_id|]. intros tid k3 Eq _ _. apply query_inv in Eq as [_ ->].
    apply runs_bind; [apply runs_modify; [by apply utasks_kwf|done]|]. intros [] k3 [= <-] Hk3 _.
    apply runs_bind; [apply runs_on_error; [by apply runs_user_thread_create|]|].
    { intros e k4 _ Hk4. split; [by apply utasks_kwf|done]. }
    intros th k4 _ Hk4 _. by apply runs_ret.
  - intros t a th k' E. apply bind_inv_Ok in E as (id & k2 & Eq & E). apply query_inv in Eq as [Eid ->].
    apply bind_inv_Ok in E as (t' & k2 & _ & E). apply bind_inv_Ok in E as (tid & k3 & _ & E).
    rewrite bind_modify in E. apply bind_inv_Ok in E as (th' & k4 & Eth & E). injection E as <- <- <- <-.
    split; [by eapply object_id_nonzero|].
    unfold on_error in Eth. destruct (scdk_user_thread_create t' _) as [[x|e|] k5] eqn:Eu; [|done..]. injection Eth as <- <-.
    unfold scdk_user_thread_create in Eu. apply bind_inv_Ok in Eu as (ti & k6 & _ & Eu). rewrite bind_gets in Eu.
    destruct (alloc_thread_slot k6); [|done]. apply bind_inv_Ok in Eu as (th & k7 & _ & Eu).
    apply bind_inv_Ok in Eu as (thid & k8 & Eq & Eu). apply query_inv in Eq as [Eth ->].
    apply bind_inv_Ok in Eu as (? & k9 & _ & Eu). rewrite !bind_modify in Eu. injection Eu as <- _.
    by eapply object_id_nonzero.
Qed.
End runs.
