(* ===== verification/Usermode.v ===== *)
(** * Ring 3: syscall state, faults and running user code
    ([src/core/syscall_dispatch.c], [src/arch/x86_64/syscall.c],
    [src/arch/x86_64/fault.c], [src/arch/x86_64/usermode.c])

    The machine is the kernel with the processor-facing state these files keep.
    What runs in ring 3 between [scdk_enter_usermode_asm] and its return is not
    code of the repository: it is a parameter, as are the bytes the assembler
    produces for the built-in stubs and the link-time addresses. The descriptor
    tables and the model-specific registers are written as the code writes them;
    the instructions that load the tables have no counterpart. *)
From stdpp Require Import base gmap list numbers relations.
From Stdlib Require Import ZArith Lia.
From S2P Require Import Prelude.
From S2P Require Import Kernel.
From S2P Require Import Capability.
From S2P Require Import Endpoint.
From S2P Require Import Pmm.
From S2P Require Import Vmm.
From S2P Require Import Heap.
From S2P Require Import AddressSpace.
From S2P Require Import UserTask.

#[local] Open Scope Z_scope.

Definition SCDK_USERMODE_MAX_FLAT_PAGES : Z := 16.
Definition GDT_ACCESS_KERNEL_CODE : Z := 0x9a.
Definition GDT_ACCESS_KERNEL_DATA : Z := 0x92.
Definition GDT_ACCESS_USER_CODE : Z := 0xfa.
Definition GDT_ACCESS_USER_DATA : Z := 0xf2.
Definition GDT_ACCESS_TSS : Z := 0x89.
Definition GDT_FLAGS_LONG_CODE : Z := 0xa.
Definition GDT_FLAGS_DATA : Z := 0xc.

(** ** State *)

(** The globals of the syscall path; the same fields are what is saved around a
    nested run. *)
Record scdk_syscall_task_state := mk_syscall_state {
  ss_kernel_stack_top : Z;
  ss_user_rsp : Z;
  ss_user_rip : Z;
  ss_user_rflags : Z;
  ss_arg0 : Z;
  ss_arg1 : Z;
  ss_arg2 : Z;
  ss_arg3 : Z;
  ss_return_value : Z;
  ss_user_return_rsp : Z;
  ss_user_return_rip : Z;
  ss_user_exited : bool;
  ss_endpoint_call_passed : bool;
  ss_user_faulted : bool;
  ss_user_fault_status : Z
}.

Record x86_tss := mk_tss {
  tss_rsp0 : Z;
  tss_rsp1 : Z;
  tss_rsp2 : Z;
  tss_ist : list Z;
  tss_iopb_offset : Z
}.
Definition tss_zero : x86_tss := mk_tss 0 0 0 (replicate 7 0) 0.
Definition tss_sizeof : Z := 104.

(** A gate of the interrupt descriptor table. *)
Record idt_entry := mk_gate {
  idt_offset_low : Z;
  idt_selector : Z;
  idt_ist : Z;
  idt_type_attr : Z;
  idt_offset_mid : Z;
  idt_offset_high : Z;
  idt_zero : Z
}.
Definition gate_zero : idt_entry := mk_gate 0 0 0 0 0 0 0.

Record machine := mk_machine {
  m_kernel : kernel;
  m_sys : scdk_syscall_task_state;
  m_syscall_initialized : bool;
  m_gdt : list Z;
  m_tss : x86_tss;
  m_usermode_initialized : bool;
  m_idt : list idt_entry;
  m_fault_initialized : bool;
  m_saw_user_page_fault : bool;
  m_saw_invalid_syscall : bool;
  m_saw_bad_user_pointer : bool;
  m_msr : gmap Z Z
}.

Definition set_kernel (k : kernel) (m : machine) : machine :=
  mk_machine k (m_sys m) (m_syscall_initialized m) (m_gdt m) (m_tss m) (m_usermode_initialized m)
    (m_idt m) (m_fault_initialized m) (m_saw_user_page_fault m) (m_saw_invalid_syscall m)
    (m_saw_bad_user_pointer m) (m_msr m).
Definition set_sys (s : scdk_syscall_task_state) (m : machine) : machine :=
  mk_machine (m_kernel m) s (m_syscall_initialized m) (m_gdt m) (m_tss m)
    (m_usermode_initialized m) (m_idt m) (m_fault_initialized m) (m_saw_user_page_fault m)
    (m_saw_invalid_syscall m) (m_saw_bad_user_pointer m) (m_msr m).
Definition set_syscall_ready (m : machine) : machine :=
  mk_machine (m_kernel m) (m_sys m) true (m_gdt m) (m_tss m) (m_usermode_initialized m) (m_idt m)
    (m_fault_initialized m) (m_saw_user_page_fault m) (m_saw_invalid_syscall m)
    (m_saw_bad_user_pointer m) (m_msr m).
Definition set_tables (g : list Z) (t : x86_tss) (m : machine) : machine :=
  mk_machine (m_kernel m) (m_sys m) (m_syscall_initialized m) g t (m_usermode_initialized m)
    (m_idt m) (m_fault_initialized m) (m_saw_user_page_fault m) (m_saw_invalid_syscall m)
    (m_saw_bad_user_pointer m) (m_msr m).
Definition set_usermode_ready (m : machine) : machine :=
  mk_machine (m_kernel m) (m_sys m) (m_syscall_initialized m) (m_gdt m) (m_tss m) true (m_idt m)
    (m_fault_initialized m) (m_saw_user_page_fault m) (m_saw_invalid_syscall m)
    (m_saw_bad_user_pointer m) (m_msr m).
Definition set_idt (d : list idt_entry) (m : machine) : machine :=
  mk_machine (m_kernel m) (m_sys m) (m_syscall_initialized m) (m_gdt m) (m_tss m)
    (m_usermode_initialized m) d (m_fault_initialized m) (m_saw_user_page_fault m)
    (m_saw_invalid_syscall m) (m_saw_bad_user_pointer m) (m_msr m).
Definition set_fault_ready (m : machine) : machine :=
  mk_machine (m_kernel m) (m_sys m) (m_syscall_initialized m) (m_gdt m) (m_tss m)
    (m_usermode_initialized m) (m_idt m) true (m_saw_user_page_fault m) (m_saw_invalid_syscall m)
    (m_saw_bad_user_pointer m) (m_msr m).
Definition set_faults (page call ptr : bool) (m : machine) : machine :=
  mk_machine (m_kernel m) (m_sys m) (m_syscall_initialized m) (m_gdt m) (m_tss m)
    (m_usermode_initialized m) (m_idt m) (m_fault_initialized m) page call ptr (m_msr m).
Definition set_msr (r : gmap Z Z) (m : machine) : machine :=
  mk_machine (m_kernel m) (m_sys m) (m_syscall_initialized m) (m_gdt m) (m_tss m)
    (m_usermode_initialized m) (m_idt m) (m_fault_initialized m) (m_saw_user_page_fault m)
    (m_saw_invalid_syscall m) (m_saw_bad_user_pointer m) r.

Abbreviation MM := (M machine).
(** A call into the kernel proper. *)
Definition kern {A} (m : K A) : MM A := zoom m_kernel set_kernel m.
(** [(void)call();] *)
Definition ignore {S A} (m : M S A) : M S unit := attempt m ;; ret tt.

(** What the code depends on and the repository does not define. *)
Record platform := {
  enter_user : Z → Z → Z → MM unit;
  test_stub : list Z;
  page_fault_stub : list Z;
  invalid_syscall_stub : list Z;
  bad_pointer_stub : list Z;
  tss_address : Z;
  syscall_stack_end : Z;
  scdk_syscall_entry : Z;
  scdk_isr_invalid_opcode : Z;
  scdk_isr_general_protection : Z;
  scdk_isr_page_fault : Z
}.

(** ** Syscall state *)
Definition scdk_syscall_reset_task_state : MM unit :=
  modify (λ m, set_sys (let s := m_sys m in
    mk_syscall_state (ss_kernel_stack_top s) (ss_user_rsp s) (ss_user_rip s) (ss_user_rflags s)
      (ss_arg0 s) (ss_arg1 s) (ss_arg2 s) (ss_arg3 s) SCDK_OK (ss_user_return_rsp s)
      (ss_user_return_rip s) false false false SCDK_OK) m).
Definition scdk_syscall_save_task_state (m : machine) : scdk_syscall_task_state := m_sys m.
Definition scdk_syscall_restore_task_state (s : scdk_syscall_task_state) : MM unit :=
  modify (set_sys s).

(** Model-specific registers; a register never written reads as 0. *)
Definition rdmsr (msr : Z) (m : machine) : Z := default 0 (m_msr m !! msr).
Definition wrmsr (msr value : Z) : MM unit := modify (λ m, set_msr (<[msr := value]> (m_msr m)) m).

Definition MSR_EFER : Z := 0xc0000080.
Definition MSR_STAR : Z := 0xc0000081.
Definition MSR_LSTAR : Z := 0xc0000082.
Definition MSR_FMASK : Z := 0xc0000084.
Definition EFER_SCE : Z := 1.
Definition X86_KERNEL_CODE_SEL : Z := 0x08.
Definition X86_SYSRET_USER_BASE_SEL : Z := 0x18.
Definition RFLAGS_TF : Z := Z.shiftl 1 8.
Definition RFLAGS_IF : Z := Z.shiftl 1 9.
Definition RFLAGS_DF : Z := Z.shiftl 1 10.
Definition RFLAGS_AC : Z := Z.shiftl 1 18.

Definition scdk_syscall_init (P : platform) (kernel_stack_top : Z) : MM unit :=
  guard ((kernel_stack_top =? 0) || negb (Z.land kernel_stack_top 15 =? 0)) SCDK_ERR_INVAL ;;
  modify (λ m, set_sys (let s := m_sys m in
    mk_syscall_state kernel_stack_top (ss_user_rsp s) (ss_user_rip s) (ss_user_rflags s)
      (ss_arg0 s) (ss_arg1 s) (ss_arg2 s) (ss_arg3 s) (ss_return_value s) (ss_user_return_rsp s)
      (ss_user_return_rip s) (ss_user_exited s) (ss_endpoint_call_passed s) (ss_user_faulted s)
      (ss_user_fault_status s)) m) ;;
  scdk_syscall_reset_task_state ;;
  wrmsr MSR_STAR (Z.lor (Z.shiftl X86_SYSRET_USER_BASE_SEL 48) (Z.shiftl X86_KERNEL_CODE_SEL 32)) ;;
  wrmsr MSR_LSTAR (scdk_syscall_entry P) ;;
  wrmsr MSR_FMASK (Z.lor (Z.lor (Z.lor RFLAGS_TF RFLAGS_IF) RFLAGS_DF) RFLAGS_AC) ;;
  let* efer := gets (rdmsr MSR_EFER) in
  wrmsr MSR_EFER (Z.lor efer EFER_SCE) ;;
  modify set_syscall_ready.

(** A status stored in a [uint64_t]. *)
Definition status_word (status : Z) : Z := wrap64 status.

Definition scdk_syscall_mark_user_fault (status : Z) : MM unit :=
  modify (λ m, set_sys (let s := m_sys m in
    mk_syscall_state (ss_kernel_stack_top s) (ss_user_rsp s) (ss_user_rip s) (ss_user_rflags s)
      (ss_arg0 s) (ss_arg1 s) (ss_arg2 s) (ss_arg3 s) (status_word status) (ss_user_return_rsp s)
      (ss_user_return_rip s) true (ss_endpoint_call_passed s) true status) m).

(** ** Faults *)
Definition mark_user_fault (status : Z) : MM unit :=
  ignore (kern (scdk_task_fault_current status)) ;;
  scdk_syscall_mark_user_fault status.

Definition IDT_ENTRIES : nat := 256.
Definition IDT_KERNEL_CODE_SEL : Z := 0x08.
Definition IDT_GATE_INTERRUPT : Z := 0x8e.
Definition SCDK_FAULT_INVALID_OPCODE : Z := 6.
Definition SCDK_FAULT_GENERAL_PROTECTION : Z := 13.
Definition SCDK_FAULT_PAGE : Z := 14.

Definition set_gate (vector address : Z) (idt : list idt_entry) : list idt_entry :=
  <[Z.to_nat vector := mk_gate (address mod 65536) IDT_KERNEL_CODE_SEL 0 IDT_GATE_INTERRUPT
      (Z.shiftr address 16 mod 65536) (wrap32 (Z.shiftr address 32)) 0]> idt.

Definition scdk_fault_init (P : platform) : MM unit :=
  let* ready := gets m_fault_initialized in
  if (ready : bool) then ret tt
  else
    modify (set_idt (replicate IDT_ENTRIES gate_zero)) ;;
    modify (λ m, set_idt (set_gate SCDK_FAULT_INVALID_OPCODE (scdk_isr_invalid_opcode P) (m_idt m)) m) ;;
    modify (λ m, set_idt (set_gate SCDK_FAULT_GENERAL_PROTECTION (scdk_isr_general_protection P) (m_idt m)) m) ;;
    modify (λ m, set_idt (set_gate SCDK_FAULT_PAGE (scdk_isr_page_fault P) (m_idt m)) m) ;;
    modify set_fault_ready.

Definition scdk_fault_install_gate (P : platform) (vector handler : Z) : MM unit :=
  guard (handler =? 0) SCDK_ERR_INVAL ;;
  scdk_fault_init P ;;
  modify (λ m, set_idt (set_gate vector handler (m_idt m)) m).

Record scdk_fault_frame := {
  ff_vector : Z;
  ff_error_code : Z;
  ff_rip : Z;
  ff_cs : Z;
  ff_rflags : Z;
  ff_rsp : Z;
  ff_ss : Z
}.
Definition frame_from_user (frame : scdk_fault_frame) : bool := Z.land (ff_cs frame) 3 =? 3.

(** [Some 1] tells the assembly path to leave ring 3; [None] is [scdk_panic],
    which halts the machine, for a fault in the kernel. *)
Definition scdk_fault_dispatch (frame : scdk_fault_frame) : MM (option Z) :=
  if negb (frame_from_user frame) then ret None
  else
    (if ff_vector frame =? SCDK_FAULT_PAGE then
       modify (λ m, set_faults true (m_saw_invalid_syscall m)
                      (m_saw_bad_user_pointer m) m)
     else ret tt) ;;
    mark_user_fault (err_code SCDK_ERR_PERM) ;;
    ret (Some 1).

Definition scdk_fault_handle_invalid_syscall : MM unit :=
  modify (λ m, set_faults (m_saw_user_page_fault m) true
                 (m_saw_bad_user_pointer m) m) ;;
  mark_user_fault (err_code SCDK_ERR_NOTSUP).
Definition scdk_fault_handle_bad_user_pointer (status : Z) : MM unit :=
  modify (λ m, set_faults (m_saw_user_page_fault m)
                 (m_saw_invalid_syscall m) true m) ;;
  mark_user_fault status.
Definition scdk_fault_handle_capability_failure (status : Z) : MM unit := mark_user_fault status.
Definition scdk_fault_reset_test_state : MM unit :=
  modify (λ m, set_faults false false false m).

(** ** Descriptors *)
Definition segment_descriptor (access flags : Z) : Z :=
  let limit := 0xfffff in
  Z.lor (Z.lor (Z.lor (Z.land limit 0xffff) (Z.shiftl (Z.shiftr limit 16) 48))
               (Z.shiftl access 40)) (Z.shiftl flags 52).

Definition set_tss_descriptor (index : nat) (base limit : Z) (gdt : list Z) : list Z :=
  let low := Z.land limit 0xffff in
  let low := Z.lor low (Z.shiftl (Z.land base 0xffffff) 16) in
  let low := Z.lor low (Z.shiftl GDT_ACCESS_TSS 40) in
  let low := Z.lor low (Z.shiftl (Z.land (Z.shiftr limit 16) 0x0f) 48) in
  let low := Z.lor low (Z.shiftl (Z.land (Z.shiftr base 24) 0xff) 56) in
  <[(index + 1)%nat := Z.shiftr base 32]> (<[index := low]> gdt).

Definition usermode_gdt (P : platform) : list Z :=
  set_tss_descriptor 6 (tss_address P) (tss_sizeof - 1)
    [0; segment_descriptor GDT_ACCESS_KERNEL_CODE GDT_FLAGS_LONG_CODE;
     segment_descriptor GDT_ACCESS_KERNEL_DATA GDT_FLAGS_DATA;
     segment_descriptor GDT_ACCESS_USER_DATA GDT_FLAGS_DATA;
     segment_descriptor GDT_ACCESS_USER_DATA GDT_FLAGS_DATA;
     segment_descriptor GDT_ACCESS_USER_CODE GDT_FLAGS_LONG_CODE; 0; 0].

Definition scdk_usermode_init (P : platform) (syscall_stack_top : Z) : MM unit :=
  guard ((syscall_stack_top =? 0) || negb (Z.land syscall_stack_top 15 =? 0)) SCDK_ERR_INVAL ;;
  modify (set_tables (usermode_gdt P) (mk_tss syscall_stack_top 0 0 (replicate 7 0) tss_sizeof)) ;;
  scdk_fault_init P ;;
  scdk_syscall_init P syscall_stack_top ;;
  modify set_usermode_ready.

(** ** Pages of user code *)
Fixpoint le_word (bs : list Z) : Z :=
  match bs with [] => 0 | b :: bs => b + 256 * le_word bs end.
(** [n] words of the bytes, the last one padded with the zeroes [memset] left. *)
Fixpoint store_bytes (n : nat) (addr : Z) (bs : list Z) (k : kernel) : kernel :=
  match n with
  | O => k
  | S n =>
      match bs with
      | [] => k
      | _ => store_bytes n (addr + 8) (drop 8 bs) (store64 addr (le_word (take 8 bs)) k)
      end
  end.
(** [memcpy(page, src, n)] to a zeroed page through the direct map. *)
Definition copy_to_page (phys : Z) (src : list Z) (n : nat) : K unit :=
  if (n <=? length src)%nat then modify (store_bytes 512 phys (take n src)) else ub.

(** ** The built-in stub *)
Definition run_stub_in_aspace (P : platform) (aspace hhdm_offset : Z) : MM unit :=
  guard ((aspace =? 0) || (hhdm_offset =? 0)) SCDK_ERR_INVAL ;;
  scdk_usermode_init P (syscall_stack_end P) ;;
  let* boot_root := kern (query scdk_vmm_current_root) in
  let* console_endpoint := kern (query (λ k, scdk_service_lookup k SCDK_SERVICE_CONSOLE)) in
  let* code_phys := kern kpage_alloc in
  let* stack_phys := recover (kern kpage_alloc) (ignore (kern (kpage_free code_phys))) in
  let free_both := ignore (kern (kpage_free stack_phys)) ;; ignore (kern (kpage_free code_phys)) in
  kern (modify (zero_page code_phys)) ;;
  kern (modify (zero_page stack_phys)) ;;
  let stub_size := Z.of_nat (length (test_stub P)) in
  recover (guard ((stub_size =? 0) || (SCDK_PAGE_SIZE <? stub_size)) SCDK_ERR_BOUNDS) free_both ;;
  kern (copy_to_page code_phys (test_stub P) (length (test_stub P))) ;;
  recover (kern (scdk_address_space_map aspace SCDK_USER_TEST_CODE_VIRT code_phys 0)) free_both ;;
  recover (kern (scdk_address_space_map aspace (SCDK_USER_TEST_STACK_TOP - SCDK_PAGE_SIZE) stack_phys
                   SCDK_VMM_MAP_WRITE))
    (ignore (kern (scdk_address_space_unmap aspace SCDK_USER_TEST_CODE_VIRT)) ;; free_both) ;;
  kern (scdk_address_space_activate aspace) ;;
  enter_user P SCDK_USER_TEST_CODE_VIRT SCDK_USER_TEST_STACK_TOP console_endpoint ;;
  kern (scdk_vmm_activate_root boot_root) ;;
  let* m := gets id in
  guard (negb (m_usermode_initialized m) || negb (ss_user_exited (m_sys m))
         || negb (ss_endpoint_call_passed (m_sys m))) SCDK_ERR_BUSY ;;
  ignore (kern (scdk_address_space_unmap aspace (SCDK_USER_TEST_STACK_TOP - SCDK_PAGE_SIZE))) ;;
  ignore (kern (scdk_address_space_unmap aspace SCDK_USER_TEST_CODE_VIRT)) ;;
  free_both.

Definition scdk_usermode_run_task_test (P : platform) (aspace thread hhdm_offset : Z) : MM unit :=
  kern (query (λ k, scdk_cap_check k thread SCDK_RIGHT_READ SCDK_OBJ_THREAD)) ;;
  run_stub_in_aspace P aspace hhdm_offset.

Definition scdk_usermode_run_builtin_test (P : platform) (hhdm_offset : Z) : MM unit :=
  guard (hhdm_offset =? 0) SCDK_ERR_INVAL ;;
  let* aspace := kern scdk_address_space_create in
  run_stub_in_aspace P aspace hhdm_offset.

(** ** Flat images *)

(** The local variables the cleanup code looks at. *)
Record run_locals := mk_locals {
  rl_boot_root : option Z;
  rl_syscall_stack : Z;
  rl_code_phys : list Z;
  rl_mapped_code_pages : nat;
  rl_stack_phys : Z;
  rl_stack_mapped : bool
}.
Definition no_locals : run_locals := mk_locals None 0 [] 0 0 false.
Abbreviation LM := (M (machine * run_locals)).
Definition onm {A} (m : MM A) : LM A := zoom fst (λ m s, (m, s.2)) m.
Definition setl (f : run_locals → run_locals) : LM unit := modify (λ s, (s.1, f s.2)).

Definition l_boot_root (r : option Z) (l : run_locals) : run_locals :=
  mk_locals r (rl_syscall_stack l) (rl_code_phys l) (rl_mapped_code_pages l) (rl_stack_phys l)
    (rl_stack_mapped l).
Definition l_syscall_stack (p : Z) (l : run_locals) : run_locals :=
  mk_locals (rl_boot_root l) p (rl_code_phys l) (rl_mapped_code_pages l) (rl_stack_phys l)
    (rl_stack_mapped l).
Definition l_code_page (p : Z) (l : run_locals) : run_locals :=
  mk_locals (rl_boot_root l) (rl_syscall_stack l) (rl_code_phys l ++ [p]) (rl_mapped_code_pages l)
    (rl_stack_phys l) (rl_stack_mapped l).
Definition l_code_mapped (l : run_locals) : run_locals :=
  mk_locals (rl_boot_root l) (rl_syscall_stack l) (rl_code_phys l) (S (rl_mapped_code_pages l))
    (rl_stack_phys l) (rl_stack_mapped l).
Definition l_stack_page (p : Z) (l : run_locals) : run_locals :=
  mk_locals (rl_boot_root l) (rl_syscall_stack l) (rl_code_phys l) (rl_mapped_code_pages l) p
    (rl_stack_mapped l).
Definition l_stack_mapped (l : run_locals) : run_locals :=
  mk_locals (rl_boot_root l) (rl_syscall_stack l) (rl_code_phys l) (rl_mapped_code_pages l)
    (rl_stack_phys l) true.

(** Everything up to the loading of the code: remember the root table, allocate
    the kernel stack for system calls and install it. *)
Definition run_setup (P : platform) : LM Z :=
  let* boot_root := onm (kern (query scdk_vmm_current_root)) in
  setl (l_boot_root (Some boot_root)) ;;
  let* stack := onm (kern (scdk_kalloc SCDK_PAGE_SIZE)) in
  guard (stack =? 0) SCDK_ERR_NOMEM ;;
  setl (l_syscall_stack stack) ;;
  onm (scdk_usermode_init P (wrap64 (stack + SCDK_PAGE_SIZE))) ;;
  ret boot_root.

(** One page of code: allocate, fill, map. *)
Definition load_code_page (aspace virt : Z) (src : list Z) (n : nat) : LM unit :=
  let* phys := onm (kern kpage_alloc) in
  setl (l_code_page phys) ;;
  onm (kern (modify (zero_page phys))) ;;
  onm (kern (copy_to_page phys src n)) ;;
  onm (kern (scdk_address_space_map aspace virt phys 0)) ;;
  setl l_code_mapped.

(** [for (i = 0; i < code_pages; i++)], from page [i] on with [n] pages to go. *)
Fixpoint load_code_pages (aspace entry : Z) (image : list Z) (image_size : Z) (i n : nat) : LM unit :=
  match n with
  | O => ret tt
  | S n =>
      let copied := Z.of_nat i * SCDK_PAGE_SIZE in
      let remaining := wrap64 (image_size - copied) in
      let to_copy := if remaining <? SCDK_PAGE_SIZE then remaining else SCDK_PAGE_SIZE in
      load_code_page aspace (wrap64 (entry + Z.of_nat i * SCDK_PAGE_SIZE))
        (drop (Z.to_nat copied) image) (Z.to_nat to_copy) ;;
      load_code_pages aspace entry image image_size (S i) n
  end.

Definition load_stack (aspace : Z) : LM unit :=
  let* stack_phys := onm (kern kpage_alloc) in
  setl (l_stack_page stack_phys) ;;
  onm (kern (modify (zero_page stack_phys))) ;;
  onm (kern (scdk_address_space_map aspace (SCDK_USER_TEST_STACK_TOP - SCDK_PAGE_SIZE) stack_phys
               SCDK_VMM_MAP_WRITE)) ;;
  setl l_stack_mapped.

(** Enter ring 3 and come back to the old root; the result is the syscall state
    the user left. *)
Definition run_user (P : platform) (aspace entry endpoint boot_root : Z) : LM scdk_syscall_task_state :=
  onm (kern (scdk_address_space_activate aspace)) ;;
  onm (enter_user P entry SCDK_USER_TEST_STACK_TOP endpoint) ;;
  let* left_state := gets (λ s, m_sys s.1) in
  let* status := attempt (onm (kern (scdk_vmm_activate_root boot_root))) in
  setl (l_boot_root None) ;;
  lift status ;;
  ret left_state.

Fixpoint unmap_code (aspace entry : Z) (i n : nat) : MM unit :=
  match n with
  | O => ret tt
  | S n =>
      ignore (kern (scdk_address_space_unmap aspace (wrap64 (entry + Z.of_nat i * SCDK_PAGE_SIZE)))) ;;
      unmap_code aspace entry (S i) n
  end.
Fixpoint free_code (pages : list Z) : MM unit :=
  match pages with
  | [] => ret tt
  | p :: pages =>
      (if negb (p =? 0) then ignore (kern (kpage_free p)) else ret tt) ;;
      free_code pages
  end.

(** The code at the label [cleanup]. *)
Definition run_cleanup (aspace entry : Z) (saved : scdk_syscall_task_state) (l : run_locals) : MM unit :=
  match rl_boot_root l with
  | Some boot_root => ignore (kern (scdk_vmm_activate_root boot_root))
  | None => ret tt
  end ;;
  (if rl_stack_mapped l
   then ignore (kern (scdk_address_space_unmap aspace (SCDK_USER_TEST_STACK_TOP - SCDK_PAGE_SIZE)))
   else ret tt) ;;
  unmap_code aspace entry 0 (rl_mapped_code_pages l) ;;
  (if negb (rl_stack_phys l =? 0) then ignore (kern (kpage_free (rl_stack_phys l))) else ret tt) ;;
  free_code (rl_code_phys l) ;;
  scdk_syscall_restore_task_state saved ;;
  (if negb (rl_syscall_stack l =? 0) then kern (scdk_kfree (rl_syscall_stack l)) else ret tt).

(** [status = body; cleanup: ...; return status;] *)
Definition with_cleanup (body : LM unit) (cleanup : run_locals → MM unit) : MM unit := λ m,
  match body (m, no_locals) with
  | (Ub, (m, _)) => (Ub, m)
  | (r, (m, l)) =>
      match cleanup l m with
      | (Ok _, m) => (r, m)
      | (r', m) => (r', m)
      end
  end.

Definition scdk_usermode_run_flat_image (P : platform) (aspace thread entry : Z) (image : list Z)
    (image_size bootstrap_endpoint hhdm_offset : Z) : MM unit :=
  guard ((aspace =? 0) || (thread =? 0) || (entry =? 0) || (image_size =? 0)
         || (bootstrap_endpoint =? 0) || (hhdm_offset =? 0)) SCDK_ERR_INVAL ;;
  guard (negb (Z.land entry (SCDK_PAGE_SIZE - 1) =? 0) || (entry <? SCDK_USER_VIRT_BASE)
         || (SCDK_USER_VIRT_TOP - SCDK_PAGE_SIZE <? entry)) SCDK_ERR_BOUNDS ;;
  let code_pages := wrap32 (wrap64 (image_size + SCDK_PAGE_SIZE - 1) / SCDK_PAGE_SIZE) in
  guard ((code_pages =? 0) || (SCDK_USERMODE_MAX_FLAT_PAGES <? code_pages)) SCDK_ERR_BOUNDS ;;
  guard (SCDK_USER_VIRT_TOP - code_pages * SCDK_PAGE_SIZE <? entry) SCDK_ERR_BOUNDS ;;
  kern (query (λ k, scdk_cap_check k thread SCDK_RIGHT_READ SCDK_OBJ_THREAD)) ;;
  kern (query (λ k, scdk_cap_check k bootstrap_endpoint SCDK_RIGHT_SEND SCDK_OBJ_ENDPOINT)) ;;
  let* saved := gets scdk_syscall_save_task_state in
  with_cleanup
    (let* boot_root := run_setup P in
     load_code_pages aspace entry image image_size 0 (Z.to_nat code_pages) ;;
     load_stack aspace ;;
     let* left_state := run_user P aspace entry bootstrap_endpoint boot_root in
     let* ready := gets (λ s, m_usermode_initialized s.1) in
     guard (negb ready || negb (ss_user_exited left_state)
            || negb (ss_endpoint_call_passed left_state)) SCDK_ERR_BUSY)
    (run_cleanup aspace entry saved).

(** ** Fault tests *)
Definition SCDK_FAULT_TEST_PAGE_FAULT : Z := 1.
Definition SCDK_FAULT_TEST_INVALID_SYSCALL : Z := 2.
Definition SCDK_FAULT_TEST_BAD_POINTER : Z := 3.

Definition select_fault_stub (P : platform) (test : Z) : result (list Z) :=
  if test =? SCDK_FAULT_TEST_PAGE_FAULT then Ok (page_fault_stub P)
  else if test =? SCDK_FAULT_TEST_INVALID_SYSCALL then Ok (invalid_syscall_stub P)
  else if test =? SCDK_FAULT_TEST_BAD_POINTER then Ok (bad_pointer_stub P)
  else Err SCDK_ERR_INVAL.

Definition scdk_usermode_run_fault_test (P : platform) (aspace thread test bootstrap_endpoint
    hhdm_offset : Z) : MM unit :=
  guard ((aspace =? 0) || (thread =? 0) || (bootstrap_endpoint =? 0) || (hhdm_offset =? 0))
    SCDK_ERR_INVAL ;;
  let* stub := lift (select_fault_stub P test) in
  let stub_size := Z.of_nat (length stub) in
  guard ((stub_size =? 0) || (SCDK_PAGE_SIZE <? stub_size)) SCDK_ERR_BOUNDS ;;
  kern (query (λ k, scdk_cap_check k thread SCDK_RIGHT_READ SCDK_OBJ_THREAD)) ;;
  kern (query (λ k, scdk_cap_check k bootstrap_endpoint SCDK_RIGHT_SEND SCDK_OBJ_ENDPOINT)) ;;
  let* saved := gets scdk_syscall_save_task_state in
  with_cleanup
    (let* boot_root := run_setup P in
     load_code_page aspace SCDK_USER_TEST_CODE_VIRT stub (length stub) ;;
     load_stack aspace ;;
     let* left_state := run_user P aspace SCDK_USER_TEST_CODE_VIRT bootstrap_endpoint boot_root in
     guard (negb (ss_user_faulted left_state)) SCDK_ERR_BUSY)
    (run_cleanup aspace SCDK_USER_TEST_CODE_VIRT saved).
