(* ===== verification/Process.v ===== *)
(** * Running user tasks ([scdk_user_task_run_builtin], [scdk_user_task_run_flat]
    and [scdk_user_task_run_fault_test] of [src/core/task.c])

    and the life of a task: a task is NEW until it runs, RUNNING until it exits or is
    killed, DEAD until it is cleaned up, and CLEANED for ever. A user program can
    start further tasks while it runs, so runs nest. *)
From stdpp Require Import base gmap list numbers relations.
From Stdlib Require Import ZArith Lia.
From S2P Require Import Prelude.
From S2P Require Import Kernel.
From S2P Require Import Object.
From S2P Require Import Capability.
From S2P Require Import Invariant.
From S2P Require Import Endpoint.
From S2P Require Import Pmm.
From S2P Require Import Vmm.
From S2P Require Import Heap.
From S2P Require Import HeapVm.
From S2P Require Import AddressSpace.
From S2P Require Import Scheduler.
From S2P Require Import Threads.
From S2P Require Import UserTask.
From S2P Require Import TaskCreate.
From S2P Require Import Usermode.

#[local] Open Scope Z_scope.

(** ** Operations *)

(** The guards shared by the three run operations: the slots of the task and of
    its main thread, both NEW. *)
Definition run_slots (task : Z) : K (nat * nat) :=
  let* i := query (λ k, user_task_slot_for_cap k task) in
  let* s := get_utask i in
  let* hi := query (λ k, user_thread_slot_for_cap k (ut_main_thread_cap s)) in
  let* h := get_uthread hi in
  guard (negb (ut_state s =? SCDK_TASK_NEW) || negb (uh_state h =? SCDK_THREAD_NEW)) SCDK_ERR_BUSY ;;
  ret (i, hi).

Definition set_run_states (i hi : nat) (task_state thread_state : Z) : K unit :=
  modify (upd_utask i (with_ustate task_state)) ;;
  modify (upd_uthread hi (with_uthread_state thread_state)).

(** [old = current_user_task; current_user_task = task; status = run;
    current_user_task = old;] *)
Definition as_current (task : Z) (run : MM unit) : MM (result unit) :=
  let* old := kern (gets (λ k, current_user_task (k_utasks k))) in
  kern (modify (set_current_utask task)) ;;
  let* status := attempt run in
  kern (modify (set_current_utask old)) ;;
  ret status.

Definition scdk_user_task_run_builtin (P : platform) (task hhdm_offset : Z) : MM unit :=
  let* slots := kern (run_slots task) in
  let (i, hi) := (slots : nat * nat) in
  kern (set_run_states i hi SCDK_TASK_RUNNING SCDK_THREAD_RUNNING) ;;
  let* s := kern (get_utask i) in
  let* h := kern (get_uthread hi) in
  let* status := as_current task
    (scdk_usermode_run_task_test P (ut_address_space_cap s) (uh_thread_cap h) hhdm_offset) in
  lift status ;;
  kern (scdk_task_exit task 0).

Definition scdk_user_task_run_flat (P : platform) (task : Z) (image : list Z)
    (image_size bootstrap_endpoint hhdm_offset : Z) : MM unit :=
  guard (image_size =? 0) SCDK_ERR_INVAL ;;
  let* slots := kern (run_slots task) in
  let (i, hi) := (slots : nat * nat) in
  kern (set_run_states i hi SCDK_TASK_RUNNING SCDK_THREAD_RUNNING) ;;
  let* s := kern (get_utask i) in
  let* h := kern (get_uthread hi) in
  let* status := as_current task
    (scdk_usermode_run_flat_image P (ut_address_space_cap s) (uh_thread_cap h)
       (uh_instruction_pointer h) image image_size bootstrap_endpoint hhdm_offset) in
  match status with
  | Ok _ => kern (scdk_task_exit task 0)
  | _ =>
      kern (set_run_states i hi SCDK_TASK_DEAD SCDK_THREAD_DEAD) ;;
      lift status
  end.

Definition scdk_user_task_run_fault_test (P : platform) (task test hhdm_offset : Z) : MM unit :=
  let* slots := kern (run_slots task) in
  let (i, hi) := (slots : nat * nat) in
  let* bootstrap_endpoint := kern (query (λ k, scdk_service_lookup k SCDK_SERVICE_CONSOLE)) in
  kern (set_run_states i hi SCDK_TASK_RUNNING SCDK_THREAD_RUNNING) ;;
  let* s := kern (get_utask i) in
  let* h := kern (get_uthread hi) in
  let* status := as_current task
    (scdk_usermode_run_fault_test P (ut_address_space_cap s) (uh_thread_cap h) test
       bootstrap_endpoint hhdm_offset) in
  match status with
  | Ok _ =>
      let* s := kern (get_utask i) in
      guard (negb (ut_state s =? SCDK_TASK_DEAD)) SCDK_ERR_BUSY
  | _ =>
      kern (set_run_states i hi SCDK_TASK_DEAD SCDK_THREAD_DEAD) ;;
      lift status
  end.

(** ** The abstract view: the life of the tasks *)

(** What the life of a task is about; a slot not in use is [None]. *)
Record tcore := mk_tcore { tc_cap : Z; tc_id : Z; tc_aspace : Z; tc_aspace_id : Z; tc_state : Z }.
Record tview := mk_tview { tv_current : Z; tv_slots : list (option tcore) }.

Definition core_of (s : scdk_user_task_slot) : option tcore :=
  if ut_in_use s
  then Some (mk_tcore (ut_task_cap s) (ut_task_id s) (ut_address_space_cap s) (ut_address_space_id s)
               (ut_state s))
  else None.
Definition view (u : user_tasks_state) : tview :=
  mk_tview (current_user_task u) (core_of <$> user_tasks u).
Definition kview (k : kernel) : tview := view (k_utasks k).
Definition mview (m : machine) : tview := kview (m_kernel m).
#[local] Arguments kview : simpl never.
#[local] Arguments mview : simpl never.

Definition in_state (v : tview) (i : nat) (c : tcore) (st : Z) : Prop :=
  tv_slots v !! i = Some (Some c) ∧ tc_state c = st.
Definition set_state (st : Z) (c : tcore) : tcore :=
  mk_tcore (tc_cap c) (tc_id c) (tc_aspace c) (tc_aspace_id c) st.
Definition upd_state (i : nat) (st : Z) (v : tview) : tview :=
  mk_tview (tv_current v) (alter (fmap (set_state st)) i (tv_slots v)).
Definition with_view_current (c : Z) (v : tview) : tview := mk_tview c (tv_slots v).

(** Tokens name tasks uniquely and states are states. *)
Record base_wf (v : tview) : Prop := {
  bw_unique : ∀ i j c d, tv_slots v !! i = Some (Some c) → tv_slots v !! j = Some (Some d) →
    tc_cap c = tc_cap d → i = j;
  bw_states : ∀ i c, tv_slots v !! i = Some (Some c) → SCDK_TASK_NEW <= tc_state c <= SCDK_TASK_CLEANED
}.
(** A task that is current is RUNNING. *)
Record active (v : tview) : Prop := {
  av_base : base_wf v;
  av_current : tv_current v ≠ 0 →
    ∃ i c, in_state v i c SCDK_TASK_RUNNING ∧ tc_cap c = tv_current v
}.

(** States only move forward, and a slot in use is never recycled. *)
Definition life (v v' : tview) : Prop :=
  length (tv_slots v') = length (tv_slots v) ∧
  ∀ i c, tv_slots v !! i = Some (Some c) → ∃ c', tv_slots v' !! i = Some (Some c') ∧
    c' = set_state (tc_state c') c ∧ tc_state c <= tc_state c'.

(** What an operation of the kernel may do while others run: tasks that are
    RUNNING stay so. *)
Definition step_rel (v v' : tview) : Prop :=
  life v v' ∧ tv_current v' = tv_current v ∧
  ∀ i c, in_state v i c SCDK_TASK_RUNNING → tv_slots v' !! i = Some (Some c).
(** What a run of user code may do: the same, except that it can get its own
    task killed. *)
Definition user_rel (v v' : tview) : Prop :=
  life v v' ∧ tv_current v' = tv_current v ∧
  ∀ i c, in_state v i c SCDK_TASK_RUNNING → tv_slots v' !! i = Some (Some c) ∨
    (tc_cap c = tv_current v ∧ tv_slots v' !! i = Some (Some (set_state SCDK_TASK_DEAD c))).

Lemma set_state_same c : set_state (tc_state c) c = c.
Proof. by destruct c. Qed.

#[global] Instance life_preorder : PreOrder life.
Proof.
  split.
  - intros v. split; [done|]. intros i c H. exists c. rewrite set_state_same. split_and!; [done|done|lia].
  - intros v1 v2 v3 [E12 H12] [E23 H23]. split; [congruence|]. intros i c H. destruct (H12 i c H) as (c2 & H2 & E2 & L2).
    destruct (H23 i c2 H2) as (c3 & H3 & E3 & L3). exists c3. split_and!; [done| |lia].
    rewrite E3, E2. done.
Qed.
#[global] Instance step_rel_preorder : PreOrder step_rel.
Proof.
  split.
  - intros v. split_and!; [done|done|by intros i c []].
  - intros v1 v2 v3 (L1 & C1 & R1) (L2 & C2 & R2). split_and!; [by transitivity v2|congruence|].
    intros i c Hc. apply R2. split; [by apply R1|by destruct Hc].
Qed.
Lemma step_user_rel v1 v2 v3 : step_rel v1 v2 → user_rel v2 v3 → user_rel v1 v3.
Proof.
  intros (L1 & C1 & R1) (L2 & C2 & R2). split_and!; [by transitivity v2|congruence|].
  intros i c Hc. rewrite <-C1. apply R2. split; [by apply R1|by destruct Hc].
Qed.
Lemma step_rel_user v v' : step_rel v v' → user_rel v v'.
Proof. intros (L & C & R). split_and!; [done|done|]. intros i c Hc. left. by apply R. Qed.

Lemma step_rel_active v v' : base_wf v' → active v → step_rel v v' → active v'.
Proof.
  intros Hb [_ Hc] (_ & C & R). split; [done|]. rewrite C. intros Hne.
  destruct (Hc Hne) as (i & c & Hi & Hcap). exists i, c. split; [|done]. split; [by apply R|by destruct Hi].
Qed.

(** *** Moving one task forward *)
Lemma upd_state_slot v i st j :
  tv_slots (upd_state i st v) !! j =
    if decide (i = j) then fmap (fmap (set_state st)) (tv_slots v !! j) else tv_slots v !! j.
Proof. simpl. rewrite list_lookup_alter. case_decide; by subst. Qed.

Lemma upd_state_base v i st :
  base_wf v → SCDK_TASK_NEW <= st <= SCDK_TASK_CLEANED → base_wf (upd_state i st v).
Proof.
  intros [Hu Hs] Hst.
  assert (∀ j c, tv_slots (upd_state i st v) !! j = Some (Some c) →
    ∃ d, tv_slots v !! j = Some (Some d) ∧ tc_cap d = tc_cap c ∧ (tc_state c = st ∨ c = d)) as H.
  { intros j c. rewrite upd_state_slot. case_decide; [|intros Hj; exists c; auto].
    destruct (tv_slots v !! j) as [[d|]|]; simpl; [|done|done]. intros [= <-]. exists d. auto. }
  split.
  - intros j l c d Hc Hd E. destruct (H j c Hc) as (c0 & Hc0 & Ec & _). destruct (H l d Hd) as (d0 & Hd0 & Ed & _).
    apply (Hu j l c0 d0); [done|done|congruence].
  - intros j c Hc. destruct (H j c Hc) as (d & Hd & _ & [->| ->]); [done|by apply (Hs j)].
Qed.

Lemma upd_state_life v i c st :
  tv_slots v !! i = Some (Some c) → tc_state c <= st → life v (upd_state i st v).
Proof.
  intros Hi Hle. split; [apply length_alter|]. intros j d Hd. rewrite upd_state_slot. case_decide as Hij; [subst j|].
  - rewrite Hi in Hd. injection Hd as <-. rewrite Hi. simpl. eexists. split; [done|]. simpl. done.
  - exists d. rewrite set_state_same. split_and!; [done|done|lia].
Qed.

(** A task that is not RUNNING moves forward: nobody else notices. *)
Lemma upd_state_step v i c st :
  base_wf v → tv_slots v !! i = Some (Some c) → tc_state c ≠ SCDK_TASK_RUNNING → tc_state c <= st →
  SCDK_TASK_NEW <= st <= SCDK_TASK_CLEANED →
  base_wf (upd_state i st v) ∧ step_rel v (upd_state i st v).
Proof.
  intros Hb Hi Hne Hle Hst. split; [by apply upd_state_base|]. split_and!; [by apply (upd_state_life v i c)|done|].
  intros j d [Hd Hds]. rewrite upd_state_slot. case_decide as Hij; [subst j|done].
  rewrite Hi in Hd. injection Hd as <-. done.
Qed.

(** ** What the operations do to the view *)
#[global] Instance keeps_kview {A} (m : K A) : Keeps k_utasks m → Keeps kview m | 10.
Proof. intros H k. unfold kview. by rewrite (H k). Qed.
#[global] Instance kern_keeps {A} (m : K A) : Keeps kview m → Keeps mview (kern m).
Proof. intros H. by apply (keeps_zoom m_kernel set_kernel kview). Qed.

Lemma alter_cores (f : scdk_user_task_slot → scdk_user_task_slot) (g : option tcore → option tcore) (i : nat)
    (l : list scdk_user_task_slot) :
  (∀ s, core_of (f s) = g (core_of s)) → core_of <$> alter f i l = alter g i (core_of <$> l).
Proof.
  intros H. apply list_eq. intros j. rewrite list_lookup_fmap, !list_lookup_alter, !list_lookup_fmap.
  case_decide; [subst|done]. destruct (l !! j); simpl; by rewrite ?H.
Qed.

Lemma kview_upd_state i st k : kview (upd_utask i (with_ustate st) k) = upd_state i st (kview k).
Proof.
  unfold kview, view, upd_state. simpl. f_equal. apply alter_cores. intros s. unfold core_of. simpl.
  by destruct (ut_in_use s).
Qed.

(** A field the view does not show. *)
Lemma kview_upd_same i f k : (∀ s, core_of (f s) = core_of s) → kview (upd_utask i f k) = kview k.
Proof.
  intros H. unfold kview, view. simpl. f_equal. rewrite (alter_cores f id) by done.
  apply list_eq. intros j. rewrite list_lookup_alter. case_decide; [subst|done]. apply option_fmap_id.
Qed.
#[global] Hint Extern 2 (Keeps kview (modify (upd_utask _ _))) =>
  (intros ?; apply kview_upd_same; intros []; reflexivity) : typeclass_instances.

Lemma slot_found k task i :
  user_task_slot_for_cap k task = Ok i →
  ∃ s c, user_tasks (k_utasks k) !! i = Some s ∧ core_of s = Some c ∧
    tv_slots (kview k) !! i = Some (Some c) ∧ tc_cap c = task ∧ tc_state c = ut_state s.
Proof.
  unfold user_task_slot_for_cap. destruct (find_slot _ _) as [j|] eqn:E; [|done]. intros [= <-].
  apply find_slot_Some in E as [(s & Hs & [Hu Hc%Z.eqb_eq]%andb_true_iff) _].
  exists s. unfold core_of. rewrite Hu. eexists. split_and!; [done|done| |done|done].
  unfold kview, view. simpl. rewrite list_lookup_fmap, Hs. simpl. unfold core_of. by rewrite Hu.
Qed.

Lemma slot_missing k i c :
  tv_slots (kview k) !! i = Some (Some c) → ∃ j, user_task_slot_for_cap k (tc_cap c) = Ok j.
Proof.
  unfold kview, view. cbn [tv_slots]. rewrite list_lookup_fmap. intros (s & Hs & Hc)%fmap_Some. unfold core_of in Hc.
  destruct (ut_in_use s) eqn:Hu; [|done]. injection Hc as ->. unfold user_task_slot_for_cap.
  destruct (find_slot _ _) as [j|] eqn:E; [by exists j|].
  pose proof (proj1 (find_slot_None _ _) E i s Hs) as Hn. cbn in Hn. by rewrite Hu, Z.eqb_refl in Hn.
Qed.

#[global] Instance get_utask_keeps i : Keeps kview (get_utask i).
Proof. unfold get_utask. apply _. Qed.
#[global] Instance get_uthread_keeps i : Keeps kview (get_uthread i).
Proof. unfold get_uthread. apply _. Qed.
#[global] Instance kill_main_thread_keeps i : Keeps kview (kill_main_thread i).
Proof. unfold kill_main_thread. apply _. Qed.
#[global] Instance user_thread_create_keeps task : Keeps kview (scdk_user_thread_create task).
Proof. unfold scdk_user_thread_create. apply _. Qed.
#[global] Instance run_slots_keeps task : Keeps kview (run_slots task).
Proof. unfold run_slots. apply _. Qed.

(** Setting a state and then something the view does not show. *)
Lemma set_state_then {A} i st (m : K A) k :
  Keeps kview m → kview ((modify (upd_utask i (with_ustate st)) ;; m) k).2 = upd_state i st (kview k).
Proof. intros Hm. rewrite bind_modify, (Hm _). apply kview_upd_state. Qed.

Lemma task_exit_view task code k :
  kview (scdk_task_exit task code k).2 = kview k ∨
  ∃ i c, in_state (kview k) i c SCDK_TASK_RUNNING ∧ tc_cap c = task ∧
    kview (scdk_task_exit task code k).2 = upd_state i SCDK_TASK_DEAD (kview k).
Proof.
  unfold scdk_task_exit, get_utask.
  destruct (user_task_slot_for_cap k task) as [i| |] eqn:E;
    [rewrite (bind_query (λ k, user_task_slot_for_cap k task) _ _ _ E)|left; unfold bind, query; by rewrite E..].
  destruct (slot_found k task i E) as (s & c & Hs & _ & Hc & Hcap & Hst).
  rewrite (bind_query _ _ _ s) by (by rewrite Hs).
  destruct (ut_state s =? SCDK_TASK_RUNNING) eqn:Hr; [|left; by rewrite bind_stop].
  right. exists i, c. apply Z.eqb_eq in Hr. split; [split; [done|congruence]|]. split; [done|].
  rewrite bind_guard by done. rewrite bind_modify, set_state_then by apply _.
  f_equal. apply kview_upd_same. by intros [].
Qed.

(** The exit of a task that runs, or that a fault has killed already. *)
Lemma task_exit_dead i d code k :
  base_wf (kview k) → tv_slots (kview k) !! i = Some (Some d) → SCDK_TASK_RUNNING <= tc_state d <= SCDK_TASK_DEAD →
  ∃ d', tv_slots (kview (scdk_task_exit (tc_cap d) code k).2) !! i = Some (Some d') ∧ tc_state d' = SCDK_TASK_DEAD.
Proof.
  intros Hb Hd Hr. unfold scdk_task_exit, get_utask.
  destruct (user_task_slot_for_cap k (tc_cap d)) as [j| |] eqn:E.
  2,3: by destruct (slot_missing k i d Hd) as [j Ej]; rewrite Ej in E.
  rewrite (bind_query (λ k, user_task_slot_for_cap k (tc_cap d)) _ _ _ E).
  destruct (slot_found k _ j E) as (s & c & Hs & _ & Hc & Hcap & Hst).
  assert (j = i) as -> by (by apply (bw_unique _ Hb j i c d)). rewrite Hd in Hc. injection Hc as <-.
  rewrite (bind_query _ _ _ s) by (by rewrite Hs).
  destruct (ut_state s =? SCDK_TASK_RUNNING) eqn:Er.
  - rewrite bind_guard by done. rewrite bind_modify, set_state_then by apply _.
    rewrite kview_upd_same by (by intros []). rewrite upd_state_slot, decide_True, Hd by done. by eexists.
  - rewrite bind_stop by done. exists d. split; [done|]. apply Z.eqb_neq in Er. rewrite <-Hst in Er.
    unfold SCDK_TASK_RUNNING, SCDK_TASK_DEAD in *. lia.
Qed.

Lemma task_fault_view code k :
  kview (scdk_task_fault_current code k).2 = kview k ∨
  ∃ i c, tv_slots (kview k) !! i = Some (Some c) ∧ tc_cap c = tv_current (kview k) ∧ tv_current (kview k) ≠ 0 ∧
    kview (scdk_task_fault_current code k).2 = upd_state i SCDK_TASK_DEAD (kview k).
Proof.
  unfold scdk_task_fault_current. rewrite bind_gets.
  destruct (current_user_task (k_utasks k) =? 0) eqn:H0; [left; by rewrite bind_stop|].
  rewrite bind_guard by done.
  destruct (user_task_slot_for_cap k (current_user_task (k_utasks k))) as [i| |] eqn:E;
    [rewrite (bind_query (λ k', user_task_slot_for_cap k' (current_user_task (k_utasks k))) _ _ _ E)|left; unfold bind, query; by rewrite E..].
  destruct (slot_found k _ i E) as (s & c & Hs & _ & Hc & Hcap & Hst).
  right. exists i, c. split_and!; [done|done|by apply Z.eqb_neq|].
  rewrite bind_modify, set_state_then by apply _. f_equal. apply kview_upd_same. by intros [].
Qed.

Lemma task_cleanup_view task k :
  kview (scdk_task_cleanup task k).2 = kview k ∨
  ∃ i c, in_state (kview k) i c SCDK_TASK_DEAD ∧ tc_cap c = task ∧
    kview (scdk_task_cleanup task k).2 = upd_state i SCDK_TASK_CLEANED (kview k).
Proof.
  unfold scdk_task_cleanup, get_utask.
  destruct (user_task_slot_for_cap k task) as [i| |] eqn:E;
    [rewrite (bind_query (λ k, user_task_slot_for_cap k task) _ _ _ E)|left; unfold bind, query; by rewrite E..].
  destruct (slot_found k task i E) as (s & c & Hs & _ & Hc & Hcap & Hst).
  rewrite (bind_query _ _ _ s) by (by rewrite Hs).
  destruct (ut_state s =? SCDK_TASK_DEAD) eqn:Hr; [|left; by rewrite bind_stop].
  rewrite bind_guard by done. apply Z.eqb_eq in Hr. unfold bind.
  pose proof (kill_main_thread_keeps i k) as Hk. destruct (kill_main_thread i k) as [[[]| |] k']; simpl in Hk.
  - right. exists i, c. split; [split; [done|congruence]|]. split; [done|].
    unfold modify. simpl. rewrite kview_upd_state. by rewrite Hk.
  - by left.
  - by left.
Qed.

(** A new task appears in a free slot, or nothing changes. *)
Definition appears (i : nat) (task : Z) (v v' : tview) : Prop :=
  tv_slots v !! i = Some None → v' = v ∨
  ∃ c, tc_cap c = task ∧ tc_state c = SCDK_TASK_NEW ∧ v' = mk_tview (tv_current v) (<[i := Some c]> (tv_slots v)).

Lemma task_fill_appears i task task_id aspace aspace_id :
  Once kview (appears i task)
    (modify (upd_utask i (λ _,
       mk_user_task_slot true task task_id aspace aspace_id 0 0 SCDK_BOOT_CORE SCDK_TASK_NEW 0)) ;;
     let* main_thread := on_error (scdk_user_thread_create task) (upd_utask i not_in_use) in
     ret (task, aspace, main_thread)).
Proof.
  intros k. right. intros Hi. rewrite bind_modify.
  set (c := mk_tcore task task_id aspace aspace_id SCDK_TASK_NEW).
  set (k1 := upd_utask i _ k).
  assert (kview k1 = mk_tview (tv_current (kview k)) (<[i := Some c]> (tv_slots (kview k)))) as H1.
  { unfold kview, view, k1. simpl. f_equal. rewrite (alter_cores _ (λ _, Some c)) by done.
    apply list_eq. intros j. rewrite list_lookup_alter, list_lookup_insert.
    pose proof (lookup_lt_Some _ _ _ Hi) as Hlt. unfold kview, view in Hi, Hlt. simpl in Hi, Hlt.
    repeat case_decide; try tauto. subst. by rewrite Hi. }
  pose proof (user_thread_create_keeps task k1) as Hk. unfold bind, on_error.
  destruct (scdk_user_thread_create task k1) as [[t|e|] k2]; simpl in Hk |- *.
  - right. exists c. split_and!; [done|done|]. by rewrite Hk.
  - left. transitivity (mk_tview (tv_current (kview k2)) (alter (λ _, None) i (tv_slots (kview k2)))).
    { unfold kview, view. simpl. by rewrite <-(alter_cores not_in_use). }
    rewrite Hk, H1. destruct (kview k) as [cur l]. cbn [tv_current tv_slots] in *. f_equal. apply list_eq. intros j. rewrite list_lookup_alter.
    pose proof (lookup_lt_Some _ _ _ Hi) as Hlt.
    case_decide; [subst|by rewrite list_lookup_insert_ne]. by rewrite list_lookup_insert_eq, Hi.
  - right. exists c. split_and!; [done|done|]. by rewrite Hk.
Qed.

(** The tables and the heap are in order and the tokens of the tasks are live. *)
Definition named (k : kernel) : Prop :=
  (∃ L hs, space_base k L hs) ∧
  ∀ i c, tv_slots (kview k) !! i = Some (Some c) → u64 (tc_cap c) ∧ ∃ e, scdk_cap_lookup k (tc_cap c) = Ok e.

Lemma named_fresh k aspace k1 a task k2 :
  named k → scdk_address_space_create k = (Ok aspace, k1) → scdk_task_create SCDK_BOOT_CORE a k1 = (Ok task, k2) →
  ∀ i c, tv_slots (kview k) !! i = Some (Some c) → tc_cap c ≠ task.
Proof.
  intros [(L & hs & Hb) Hn] Ea Et i c Hc <-. destruct (Hn i c Hc) as [Hu [e He]].
  destruct (aspace_create_cases k L hs _ _ Hb Ea) as (L1 & hs1 & _ & Hk1 & [(_ & _ & e' & ?)|Hm]); [done|].
  destruct Hm as (oid & p & q & _ & _ & Hfresh & _ & Hkeep).
  destruct (task_create_fresh k1 _ _ _ _ (kwf_caps _ Hk1) Et e) as [_ Hno]. apply Hno. apply Hkeep; [done| |done].
  intros Eq. rewrite Eq in He. by apply (Hfresh e).
Qed.

Lemma task_create_view k :
  kview (scdk_user_task_create k).2 = kview k ∨
  ∃ i c, tv_slots (kview k) !! i = Some None ∧ tc_state c = SCDK_TASK_NEW ∧
    (named k → ∀ j d, tv_slots (kview k) !! j = Some (Some d) → tc_cap d ≠ tc_cap c) ∧
    kview (scdk_user_task_create k).2 = mk_tview (tv_current (kview k)) (<[i := Some c]> (tv_slots (kview k))).
Proof.
  destruct (scdk_user_task_create k) as [r k'] eqn:Hrun. cbn [snd]. unfold scdk_user_task_create in Hrun.
  rewrite bind_gets in Hrun. unfold alloc_task_slot in Hrun.
  destruct (find_slot _ _) as [i|] eqn:E; [|injection Hrun as _ <-; by left].
  apply find_slot_Some in E as [(s & Hs & Hu%negb_true_iff) _].
  assert (tv_slots (kview k) !! i = Some None) as Hi.
  { unfold kview, view. simpl. rewrite list_lookup_fmap, Hs. simpl. unfold core_of. by rewrite Hu. }
  assert (∀ A (m : K A) x k1 k2, Keeps k_utasks m → m k1 = (x, k2) → kview k2 = kview k1) as Hk.
  { intros A m x k1 k2 Hm E. pose proof (keeps_kview m Hm k1) as H. by rewrite E in H. }
  apply bind_inv in Hrun as [(aspace & k1 & Ea & Hrun)|[(e & Ea & _)|[Ea _]]]; [|left; eapply Hk, Ea; apply _..].
  apply bind_inv in Hrun as [(id & k2 & E & Hrun)|[(e & E & _)|[E _]]];
    [apply query_inv in E as [_ ->]|left; etrans; [eapply Hk, E; apply _|eapply Hk, Ea; apply _]..].
  pose proof (Hk _ _ _ _ _ _ Ea) as V1.
  apply bind_inv in Hrun as [(task & k2 & Et & Hrun)|[(e & E & _)|[E _]]];
    [|left; rewrite <-V1; eapply Hk, E; apply _..].
  pose proof (Hk _ _ _ _ _ _ Et) as V2. rewrite V1 in V2.
  apply bind_inv in Hrun as [(tid & k3 & E & Hrun)|[(e & E & _)|[E _]]];
    [apply query_inv in E as [_ ->]|left; rewrite <-V2; eapply Hk, E; apply _..].
  pose proof (task_fill_appears i task tid aspace id k2) as Ho. rewrite Hrun, V2 in Ho. cbn [snd] in Ho.
  destruct Ho as [Ho|Ho]; [by left|]. destruct (Ho Hi) as [Ho'|(c & Hcap & Hc & Ho')]; [by left|].
  right. exists i, c. split; [done|]. split; [done|]. split; [|done].
  rewrite Hcap. intros Hn. by eapply named_fresh.
Qed.

(** ** Running user code changes the view at most once, in ring 3 *)
Definition lview (s : machine * run_locals) : tview := mview s.1.

#[global] Instance onm_keeps {A} (m : MM A) : Keeps mview m → Keeps lview (onm m).
Proof. intros H. by apply (keeps_zoom fst (λ m s, (m, s.2)) mview). Qed.
#[global] Instance setl_keeps f : Keeps lview (setl f).
Proof. unfold setl. apply _. Qed.
#[global] Instance ignore_keeps {S T A} (π : S → T) (m : M S A) : Keeps π m → Keeps π (ignore m).
Proof. unfold ignore. apply _. Qed.
Lemma store_bytes_keeps n phys bs k : k_utasks (store_bytes n phys bs k) = k_utasks k.
Proof.
  revert phys bs k. induction n as [|n IH]; intros phys bs k; [done|].
  destruct bs as [|b bs]; [done|]. cbn [store_bytes]. by rewrite IH.
Qed.
#[global] Instance copy_to_page_keeps phys src n : Keeps k_utasks (copy_to_page phys src n).
Proof.
  unfold copy_to_page. destruct (n <=? length src)%nat; [|apply _]. intros k. apply store_bytes_keeps.
Qed.
#[global] Instance usermode_init_keeps P top : Keeps mview (scdk_usermode_init P top).
Proof.
  unfold scdk_usermode_init, scdk_fault_init, scdk_syscall_init, scdk_syscall_reset_task_state, wrmsr. apply _.
Qed.
#[global] Instance run_setup_keeps P : Keeps lview (run_setup P).
Proof. unfold run_setup. apply _. Qed.
#[global] Instance load_code_page_keeps a v src n : Keeps lview (load_code_page a v src n).
Proof. unfold load_code_page. apply _. Qed.
#[global] Instance load_code_pages_keeps a e image size i n : Keeps lview (load_code_pages a e image size i n).
Proof. revert i. induction n as [|n IH]; intros i; cbn [load_code_pages]; apply _. Qed.
#[global] Instance load_stack_keeps a : Keeps lview (load_stack a).
Proof. unfold load_stack. apply _. Qed.
#[global] Instance unmap_code_keeps a e i n : Keeps mview (unmap_code a e i n).
Proof. revert i. induction n as [|n IH]; intros i; cbn [unmap_code]; apply _. Qed.
#[global] Instance free_code_keeps l : Keeps mview (free_code l).
Proof. induction l as [|p l IH]; cbn [free_code]; apply _. Qed.
#[global] Instance run_cleanup_keeps a e saved l : Keeps mview (run_cleanup a e saved l).
Proof. unfold run_cleanup, scdk_syscall_restore_task_state. apply _. Qed.

Section enter.
Context (P : platform) (R : tview → tview → Prop).
Context (HP : ∀ e s b, Once mview R (enter_user P e s b)).

Lemma onm_once {A} (m : MM A) : Once mview R m → Once lview R (onm m).
Proof.
  intros H [m0 l]. specialize (H m0). unfold onm, zoom. simpl. by destruct (m m0).
Qed.

Lemma run_user_once a e b root : Once lview R (run_user P a e b root).
Proof.
  unfold run_user. apply once_then; [apply _|intros _].
  apply once_first; [apply onm_once, HP|apply _].
Qed.

Lemma with_cleanup_once (body : LM unit) cleanup :
  Once lview R body → (∀ l, Keeps mview (cleanup l)) → Once mview R (with_cleanup body cleanup).
Proof.
  intros Hb Hc m. specialize (Hb (m, no_locals)). unfold with_cleanup.
  destruct (body (m, no_locals)) as [r [m1 l]]. unfold lview in Hb. simpl in Hb.
  specialize (Hc l m1). destruct r as [[]|e|]; [| |done];
    destruct (cleanup l m1) as [[[]| |] m2]; simpl in *; by rewrite Hc.
Qed.

Lemma run_flat_image_once a t e image size b h :
  Once mview R (scdk_usermode_run_flat_image P a t e image size b h).
Proof.
  unfold scdk_usermode_run_flat_image. do 7 (apply once_then; [apply _|intros ?]).
  apply with_cleanup_once; [|apply _]. do 3 (apply once_then; [apply _|intros ?]).
  apply once_first; [apply run_user_once|apply _].
Qed.

Lemma run_fault_test_once a t test b h : Once mview R (scdk_usermode_run_fault_test P a t test b h).
Proof.
  unfold scdk_usermode_run_fault_test. do 6 (apply once_then; [apply _|intros ?]).
  apply with_cleanup_once; [|apply _]. do 3 (apply once_then; [apply _|intros ?]).
  apply once_first; [apply run_user_once|apply _].
Qed.

Lemma run_task_test_once a t h : Once mview R (scdk_usermode_run_task_test P a t h).
Proof.
  unfold scdk_usermode_run_task_test, run_stub_in_aspace. do 14 (apply once_then; [apply _|intros ?]).
  apply once_first; [apply HP|apply _].
Qed.
End enter.

(** ** A run of a task, on the view *)

(** What ring 3 does to the view when it is entered with a live current task. *)
Definition user_guarantee (v v' : tview) : Prop := active v → base_wf v' ∧ user_rel v v'.

Lemma base_wf_current cur v : base_wf v → base_wf (with_view_current cur v).
Proof. intros [Hu Hs]. by split. Qed.

(** The task goes from NEW to RUNNING, its user code runs as the current task,
    and the old current task is put back. *)
Lemma ran_view v i c v2 :
  let v1 := with_view_current (tc_cap c) (upd_state i SCDK_TASK_RUNNING v) in
  let v3 := with_view_current (tv_current v) v2 in
  active v → in_state v i c SCDK_TASK_NEW → v2 = v1 ∨ user_guarantee v1 v2 →
  base_wf v3 ∧ step_rel v v3 ∧
  ∃ d, tv_slots v3 !! i = Some (Some d) ∧ SCDK_TASK_RUNNING <= tc_state d <= SCDK_TASK_DEAD.
Proof.
  intros v1 v3 Hv [Hi Hc] H2.
  assert (tv_slots v1 !! i = Some (Some (set_state SCDK_TASK_RUNNING c))) as Hi1.
  { unfold v1. change (tv_slots (with_view_current (tc_cap c) ?v)) with (tv_slots v).
    rewrite upd_state_slot, decide_True, Hi by done. done. }
  assert (active v1) as Ha1.
  { split.
    - apply base_wf_current, upd_state_base; [apply Hv|]. unfold SCDK_TASK_NEW, SCDK_TASK_RUNNING, SCDK_TASK_CLEANED. lia.
    - intros _. exists i, (set_state SCDK_TASK_RUNNING c). done. }
  assert (base_wf v2 ∧ user_rel v1 v2) as [Hb2 (L2 & C2 & R2)].
  { destruct H2 as [->|H2]; [|by apply H2]. split; [apply Ha1|]. by apply step_rel_user. }
  assert (life v v1) as L1.
  { apply (upd_state_life v i c); [done|]. rewrite Hc. unfold SCDK_TASK_NEW, SCDK_TASK_RUNNING. lia. }
  split; [by apply base_wf_current|]. split.
  - split_and!; [|done|].
    + transitivity v1; [done|exact L2].
    + intros j d [Hd Hds]. assert (j ≠ i) as Hne.
      { intros ->. rewrite Hi in Hd. injection Hd as <-. rewrite Hc in Hds. done. }
      assert (tv_slots v1 !! j = Some (Some d)) as Hd1.
      { change (tv_slots v1) with (tv_slots (upd_state i SCDK_TASK_RUNNING v)).
        by rewrite upd_state_slot, decide_False. }
      destruct (R2 j d (conj Hd1 Hds)) as [?|[Hcap _]]; [done|].
      destruct Hne. apply (bw_unique v (av_base v Hv) j i d c Hd Hi Hcap).
  - destruct (R2 i (set_state SCDK_TASK_RUNNING c)) as [H|[_ H]]; [done|..];
      (eexists; split; [exact H|]); simpl; unfold SCDK_TASK_RUNNING, SCDK_TASK_DEAD; lia.
Qed.

(** Ending the run: the task that was NEW before moves on. *)
Lemma upd_after v v' i c d st :
  step_rel v v' → base_wf v' → tv_slots v !! i = Some (Some c) → tc_state c ≠ SCDK_TASK_RUNNING →
  tv_slots v' !! i = Some (Some d) → tc_state d <= st → SCDK_TASK_NEW <= st <= SCDK_TASK_CLEANED →
  base_wf (upd_state i st v') ∧ step_rel v (upd_state i st v').
Proof.
  intros (L & C & R) Hb Hc Hne Hd Hle Hst. split; [by apply upd_state_base|]. split_and!.
  - transitivity v'; [done|]. by apply (upd_state_life v' i d).
  - exact C.
  - intros j x [Hx Hxs]. rewrite upd_state_slot. case_decide as Hij; [|by apply R].
    subst j. rewrite Hc in Hx. injection Hx as <-. done.
Qed.

(** ** The run operations *)
Lemma run_slots_Ok task k i hi k' :
  run_slots task k = (Ok (i, hi), k') →
  k' = k ∧ ∃ c, in_state (kview k) i c SCDK_TASK_NEW ∧ tc_cap c = task.
Proof.
  unfold run_slots, get_utask, get_uthread. intros H. minv H.
  match goal with E : user_task_slot_for_cap _ _ = Ok ?j |- _ => destruct (slot_found _ _ _ E) as (s' & c & Hs & _ & Hc & Hcap & Hst) end.
  injection H as <- <-. split; [done|]. exists c. split; [|done]. split; [done|].
  simplify_eq. bsplit. congruence.
Qed.

(** The shape of the three run operations. *)
Definition run_op (task : Z) (pre : MM Z)
    (run : Z → scdk_user_task_slot → scdk_user_thread_slot → MM unit)
    (finish : nat → nat → result unit → MM unit) : MM unit :=
  let* slots := kern (run_slots task) in
  let (i, hi) := (slots : nat * nat) in
  let* e := pre in
  kern (set_run_states i hi SCDK_TASK_RUNNING SCDK_THREAD_RUNNING) ;;
  let* s := kern (get_utask i) in
  let* h := kern (get_uthread hi) in
  let* status := as_current task (run e s h) in
  finish i hi status.

(** What the end of a run does: nothing more, or the task becomes DEAD. *)
Definition finishes (task : Z) (finish : nat → nat → result unit → MM unit) : Prop :=
  ∀ i hi status m d, base_wf (mview m) → tv_slots (mview m) !! i = Some (Some d) → tc_cap d = task →
  mview (finish i hi status m).2 = mview m ∨
  mview (finish i hi status m).2 = upd_state i SCDK_TASK_DEAD (mview m).

(** What the end of a run that started does when it leaves no task RUNNING. *)
Definition ends (task : Z) (finish : nat → nat → result unit → MM unit) : Prop :=
  ∀ i hi status m d, base_wf (mview m) → tv_slots (mview m) !! i = Some (Some d) → tc_cap d = task →
  SCDK_TASK_RUNNING <= tc_state d <= SCDK_TASK_DEAD →
  ∃ d', tv_slots (mview (finish i hi status m).2) !! i = Some (Some d') ∧ tc_state d' = SCDK_TASK_DEAD.

(** A run was refused and the tasks are as they were, or it started with the task
    NEW and has left it DEAD. *)
Definition ran_out (task : Z) (s : machine) (r : result unit) (s' : machine) : Prop :=
  (mview s' = mview s ∧ ∃ e, r = Err e) ∨
  ∃ i c, in_state (mview s) i c SCDK_TASK_NEW ∧ tc_cap c = task ∧
    tv_slots (mview s') !! i = Some (Some (set_state SCDK_TASK_DEAD c)).

Lemma kern_run {A} (m : K A) s : kern m s = ((m (m_kernel s)).1, set_kernel (m (m_kernel s)).2 s).
Proof. unfold kern, zoom. by destruct (m (m_kernel s)). Qed.
Lemma mview_kern {A} (m : K A) s : mview (kern m s).2 = kview (m (m_kernel s)).2.
Proof. by rewrite kern_run. Qed.

Lemma set_run_states_view i hi st ht s :
  kern (set_run_states i hi st ht) s = (Ok tt, (kern (set_run_states i hi st ht) s).2) ∧
  mview (kern (set_run_states i hi st ht) s).2 = upd_state i st (mview s).
Proof. split; [done|]. rewrite mview_kern. exact (kview_upd_state i st (m_kernel s)). Qed.

Lemma as_current_view task run s r s' :
  Once mview user_guarantee run → as_current task run s = (Ok r, s') →
  ∃ v2, (v2 = with_view_current task (mview s) ∨ user_guarantee (with_view_current task (mview s)) v2) ∧
    mview s' = with_view_current (tv_current (mview s)) v2.
Proof.
  intros Hrun H. unfold as_current in H. minv_step H. rewrite kern_run in E. injection E as <- <-.
  minv_step H. rewrite kern_run in E. injection E as _ <-.
  minv_step H. set (s1 := set_kernel (set_current_utask task _) _) in *.
  pose proof (Hrun s1) as Ho. unfold attempt in E.
  assert (s0 = (run s1).2) as -> by (destruct (run s1) as [[]]; by injection E).
  minv_step H. rewrite kern_run in E0. injection E0 as _ <-. injection H as _ <-.
  exists (mview (run s1).2). split; [destruct Ho; auto|]. done.
Qed.

Lemma as_current_no_error task run s e s' : as_current task run s ≠ (Err e, s').
Proof.
  unfold as_current, bind. rewrite !kern_run. simpl. unfold attempt.
  by destruct (run _) as [[]].
Qed.

Lemma get_utask_no_error i s e s' : kern (get_utask i) s ≠ (Err e, s').
Proof. rewrite kern_run. unfold get_utask, query. by destruct (_ !! i). Qed.
Lemma get_uthread_no_error i s e s' : kern (get_uthread i) s ≠ (Err e, s').
Proof. rewrite kern_run. unfold get_uthread, query. by destruct (_ !! i). Qed.

(** From the moment the task is marked RUNNING. *)
Lemma run_tail_step v i hi c run finish s s' r :
  (∀ t h, Once mview user_guarantee (run t h)) → finishes (tc_cap c) finish →
  active v → in_state v i c SCDK_TASK_NEW → mview s = upd_state i SCDK_TASK_RUNNING v →
  base_wf (mview s) ∧ step_rel v (mview s) →
  (let* t := kern (get_utask i) in
   let* h := kern (get_uthread hi) in
   let* status := as_current (tc_cap c) (run t h) in
   finish i hi status) s = (r, s') → r ≠ Ub →
  base_wf (mview s') ∧ step_rel v (mview s') ∧
  (ends (tc_cap c) finish → ∃ d, tv_slots (mview s') !! i = Some (Some d) ∧ tc_state d = SCDK_TASK_DEAD).
Proof.
  intros Hrun Hfin Hact Hc V3 Hmid H Hr.
  apply bind_inv in H as [(ts & s4 & E4 & H)|[(e' & E4 & ->)|[E4 ->]]]; [|by apply get_utask_no_error in E4|done].
  apply (keeps_run mview) in E4; [|apply _].
  apply bind_inv in H as [(th & s5 & E5 & H)|[(e' & E5 & ->)|[E5 ->]]]; [|by apply get_uthread_no_error in E5|done].
  apply (keeps_run mview) in E5; [|apply _].
  apply bind_inv in H as [(st & s6 & E6 & H)|[(e' & E6 & ->)|[E6 ->]]]; [|by apply as_current_no_error in E6|done].
  destruct (as_current_view _ _ _ _ _ (Hrun ts th) E6) as (v2 & H2 & V6). rewrite E5, E4, V3 in H2, V6.
  destruct (ran_view v i c v2 Hact Hc H2) as (Hb & Hs & d & Hd & Hdr).
  change (tv_current (upd_state i SCDK_TASK_RUNNING v)) with (tv_current v) in V6. rewrite <-V6 in Hb, Hs, Hd.
  destruct Hc as [Hc Hcs]. pose proof Hs as [[_ L] _]. destruct (L i c Hc) as (d' & Hd' & Ed' & _).
  rewrite Hd in Hd'. injection Hd' as <-.
  assert (ends (tc_cap c) finish → ∃ d, tv_slots (mview s') !! i = Some (Some d) ∧ tc_state d = SCDK_TASK_DEAD) as He.
  { intros He. pose proof (He i hi st s6 d Hb Hd ltac:(by rewrite Ed') Hdr) as Hx. by rewrite H in Hx. }
  enough (base_wf (mview s') ∧ step_rel v (mview s')) as [? ?] by done.
  destruct (Hfin i hi st s6 d Hb Hd) as [E|E]; [by rewrite Ed'|..]; rewrite H in E; simpl in E; rewrite E.
  - done.
  - apply (upd_after v (mview s6) i c d); unfold SCDK_TASK_NEW, SCDK_TASK_RUNNING, SCDK_TASK_DEAD, SCDK_TASK_CLEANED in *;
      [done|done|done|lia|done|lia|lia].
Qed.

Lemma run_op_ends task pre run finish s s' r :
  Keeps mview pre → (∀ e t h, Once mview user_guarantee (run e t h)) → finishes task finish →
  active (mview s) → run_op task pre run finish s = (r, s') → r ≠ Ub →
  active (mview s') ∧ step_rel (mview s) (mview s') ∧ (ends task finish → ran_out task s r s').
Proof.
  intros Hpre Hrun Hfin Hact H Hr.
  enough (base_wf (mview s') ∧ step_rel (mview s) (mview s') ∧ (ends task finish → ran_out task s r s')) as (Hb & Hs & He).
  { split; [by apply (step_rel_active (mview s))|done]. }
  assert (∀ e t, mview t = mview s →
    base_wf (mview t) ∧ step_rel (mview s) (mview t) ∧ (ends task finish → ran_out task s (Err e) t)) as Hsame.
  { intros e t Et. unfold ran_out. rewrite Et. split_and!; [apply Hact|done|left; eauto]. }
  unfold run_op in H. apply bind_inv in H as [([i hi] & s1 & E1 & H)|[(e & E1 & ->)|[E1 ->]]]; [| |done].
  2:{ apply Hsame. by eapply keeps_run, E1; apply _. }
  rewrite kern_run in E1. injection E1 as E1 <-.
  destruct (run_slots_Ok task (m_kernel s) i hi _ (run_eq _ _ _ E1)) as (Hk & c & Hc & Hcap).
  rewrite Hk in H. change (in_state (mview s) i c SCDK_TASK_NEW) in Hc. replace (set_kernel (m_kernel s) s) with s in H by (by destruct s).
  apply bind_inv in H as [(e & s2 & E2 & H)|[(e & E2 & ->)|[E2 ->]]]; [| |done].
  2:{ apply Hsame. by eapply keeps_run, E2. }
  apply (keeps_run mview) in E2; [|done].
  destruct (set_run_states_view i hi SCDK_TASK_RUNNING SCDK_THREAD_RUNNING s2) as [E3 V3].
  rewrite (bind_Ok _ _ _ _ _ E3) in H. set (s3 := (kern _ s2).2) in *. rewrite E2 in V3.
  assert (Hmid : base_wf (mview s3) ∧ step_rel (mview s) (mview s3)).
  { rewrite V3. destruct Hc. apply (upd_state_step _ i c); [apply Hact|done|..];
      unfold SCDK_TASK_NEW, SCDK_TASK_RUNNING, SCDK_TASK_CLEANED in *; lia. }
  rewrite <-Hcap in H, Hfin |- *.
  destruct (run_tail_step (mview s) i hi c (run e) finish s3 s' r (Hrun e) Hfin Hact Hc V3 Hmid H Hr) as (Hb & Hs & He).
  split_and!; [done|done|]. intros Hfe. destruct (He Hfe) as (d & Hd & Hdd). right. exists i, c. split_and!; [done|done|].
  pose proof Hs as [[_ L] _]. destruct (L i c (proj1 Hc)) as (d' & Hd' & Ed & _). rewrite Hd in Hd'. injection Hd' as <-.
  by rewrite Hd, Ed, Hdd.
Qed.
Lemma run_op_step task pre run finish s s' r :
  Keeps mview pre → (∀ e t h, Once mview user_guarantee (run e t h)) → finishes task finish →
  active (mview s) → run_op task pre run finish s = (r, s') → r ≠ Ub →
  active (mview s') ∧ step_rel (mview s) (mview s').
Proof. intros H1 H2 H3 H4 H5 H6. by destruct (run_op_ends _ _ _ _ _ _ _ H1 H2 H3 H4 H5 H6) as (? & ? & _). Qed.

Section runs.
Context (P : platform).
Context (HP : ∀ e s b, Once mview user_guarantee (enter_user P e s b)).

Lemma exit_finishes task : finishes task (λ _ _ status, lift status ;; kern (scdk_task_exit task 0)).
Proof.
  intros i hi status m d Hb Hd Hcap. unfold bind, lift. destruct status as [[]| |]; [|by left|by left].
  rewrite mview_kern. destruct (task_exit_view task 0 (m_kernel m)) as [H|(j & c & [Hc Hcs] & Hcc & H)]; [by left|].
  right. rewrite H. assert (j = i) as ->; [|done].
  apply (bw_unique _ Hb j i c d Hc Hd). congruence.
Qed.

Lemma flat_finishes task :
  finishes task (λ i hi status,
    match status with
    | Ok _ => kern (scdk_task_exit task 0)
    | _ => kern (set_run_states i hi SCDK_TASK_DEAD SCDK_THREAD_DEAD) ;; lift status
    end).
Proof.
  intros i hi status m d Hb Hd Hcap.
  destruct status as [[]|e|]; [exact (exit_finishes task i hi (Ok tt) m d Hb Hd Hcap)|..];
    right; destruct (set_run_states_view i hi SCDK_TASK_DEAD SCDK_THREAD_DEAD m) as [E V];
    rewrite (bind_Ok _ _ _ _ _ E); exact V.
Qed.

Lemma flat_ends task :
  ends task (λ i hi status,
    match status with
    | Ok _ => kern (scdk_task_exit task 0)
    | _ => kern (set_run_states i hi SCDK_TASK_DEAD SCDK_THREAD_DEAD) ;; lift status
    end).
Proof.
  intros i hi status m d Hb Hd Hcap Hr. subst task.
  destruct status as [[]|e|]; [rewrite mview_kern; by apply task_exit_dead|..];
    destruct (set_run_states_view i hi SCDK_TASK_DEAD SCDK_THREAD_DEAD m) as [E V];
    rewrite (bind_Ok _ _ _ _ _ E); unfold lift; cbn [snd]; rewrite V, upd_state_slot, decide_True, Hd by done; by eexists.
Qed.

Lemma fault_finishes task :
  finishes task (λ i hi status,
    match status with
    | Ok _ => let* s := kern (get_utask i) in guard (negb (ut_state s =? SCDK_TASK_DEAD)) SCDK_ERR_BUSY
    | _ => kern (set_run_states i hi SCDK_TASK_DEAD SCDK_THREAD_DEAD) ;; lift status
    end).
Proof.
  intros i hi status m d Hb Hd Hcap. destruct status as [[]|e|];
    [|exact (flat_finishes task i hi (Err e) m d Hb Hd Hcap)|exact (flat_finishes task i hi Ub m d Hb Hd Hcap)].
  left. assert (Keeps mview (let* s := kern (get_utask i) in
    guard (negb (ut_state s =? SCDK_TASK_DEAD)) SCDK_ERR_BUSY)) as Hk by apply _. apply Hk.
Qed.

Lemma run_builtin_step task h s r s' :
  scdk_user_task_run_builtin P task h s = (r, s') → r ≠ Ub → active (mview s) →
  active (mview s') ∧ step_rel (mview s) (mview s').
Proof.
  intros H Hr Ha. refine (run_op_step task (ret 0) (λ _ t th, scdk_usermode_run_task_test P
    (ut_address_space_cap t) (uh_thread_cap th) h) _ s s' r _ _ (exit_finishes task) Ha H Hr).
  intros _ t th. by apply run_task_test_once.
Qed.

Lemma run_flat_ends task image size b h s r s' :
  scdk_user_task_run_flat P task image size b h s = (r, s') → r ≠ Ub → active (mview s) →
  active (mview s') ∧ step_rel (mview s) (mview s') ∧ ran_out task s r s'.
Proof.
  intros H Hr Ha. unfold scdk_user_task_run_flat in H.
  apply bind_inv in H as [([] & s1 & E & H)|[(e & E & ->)|[E ->]]]; [| |done].
  2:{ pose proof (keeps_run mview _ _ _ _ _ E) as V. unfold ran_out. rewrite V. split_and!; [done|done|left; eauto]. }
  apply guard_inv in E as [_ ->].
  destruct (run_op_ends task (ret 0) (λ _ t th, scdk_usermode_run_flat_image P (ut_address_space_cap t)
    (uh_thread_cap th) (uh_instruction_pointer th) image size b h) _ s s' r _
    (λ _ t th, run_flat_image_once P _ HP _ _ _ _ _ _ _) (flat_finishes task) Ha H Hr) as (H1 & H2 & H3).
  split_and!; [done|done|]. apply H3, flat_ends.
Qed.
Lemma run_flat_step task image size b h s r s' :
  scdk_user_task_run_flat P task image size b h s = (r, s') → r ≠ Ub → active (mview s) →
  active (mview s') ∧ step_rel (mview s) (mview s').
Proof. intros H Hr Ha. by destruct (run_flat_ends _ _ _ _ _ _ _ _ H Hr Ha) as (? & ? & _). Qed.

Lemma run_fault_step task test h s r s' :
  scdk_user_task_run_fault_test P task test h s = (r, s') → r ≠ Ub → active (mview s) →
  active (mview s') ∧ step_rel (mview s) (mview s').
Proof.
  intros H Hr Ha. refine (run_op_step task (kern (query (λ k, scdk_service_lookup k SCDK_SERVICE_CONSOLE)))
    (λ e t th, scdk_usermode_run_fault_test P (ut_address_space_cap t) (uh_thread_cap th) test e h) _
    s s' r _ _ (fault_finishes task) Ha H Hr).
  intros e t th. by apply run_fault_test_once.
Qed.
End runs.

(** ** User programs

    What a user program does to the machine, seen from the task table: it is a
    sequence of system calls, some of which create, run or clean up other tasks,
    possibly ended by a fault. The programs of the tasks it runs are user
    programs again. *)
Inductive user_run : machine → machine → Prop :=
  | user_stop s : user_run s s
  | user_fault s status : user_run s (mark_user_fault status s).2
  | user_call s s1 s' : mview s1 = mview s → user_run s1 s' → user_run s s'
  | user_create s s1 s' r :
      named (m_kernel s) → kern scdk_user_task_create s = (r, s1) → user_run s1 s' → user_run s s'
  | user_cleanup s s1 s' task r :
      kern (scdk_task_cleanup task) s = (r, s1) → user_run s1 s' → user_run s s'
  | user_spawn s s1 s' P task image size b h r :
      (∀ e t c s, active (mview s) → user_run s (enter_user P e t c s).2) →
      scdk_user_task_run_flat P task image size b h s = (r, s1) → r ≠ Ub →
      user_run s1 s' → user_run s s'.

(** A new task whose token is new. *)
Lemma new_task_base v i c :
  base_wf v → tc_state c = SCDK_TASK_NEW → (∀ j d, tv_slots v !! j = Some (Some d) → tc_cap d ≠ tc_cap c) →
  base_wf (mk_tview (tv_current v) (<[i := Some c]> (tv_slots v))).
Proof.
  intros [Hu Hs] Hc Hf.
  assert (∀ j d, <[i := Some c]> (tv_slots v) !! j = Some (Some d) → (j = i ∧ d = c) ∨ tv_slots v !! j = Some (Some d)) as H.
  { intros j d. rewrite list_lookup_insert. case_decide as Hij; [destruct Hij as [<- _]; intros [= <-]; by left|by right]. }
  split; cbn [tv_slots].
  - intros j l d d' [[-> ->]|Hj]%H [[-> ->]|Hl]%H E; [done|by destruct (Hf l d' Hl)|by destruct (Hf j d Hj)|by apply (Hu j l d d')].
  - intros j d [[-> ->]|Hj]%H; [|by apply (Hs j)]. rewrite Hc. unfold SCDK_TASK_NEW, SCDK_TASK_CLEANED. lia.
Qed.

Lemma create_step s r s' :
  kern scdk_user_task_create s = (r, s') → named (m_kernel s) → active (mview s) →
  active (mview s') ∧ step_rel (mview s) (mview s').
Proof.
  intros H Hn Ha. enough (base_wf (mview s') ∧ step_rel (mview s) (mview s')) as [Hb Hs].
  { split; [|done]. by apply (step_rel_active (mview s)). }
  rewrite kern_run in H. injection H as _ <-.
  change (mview (set_kernel ?k s)) with (kview k).
  destruct (task_create_view (m_kernel s)) as [->|(i & c & Hi & Hc & Hf & ->)]; [split; [apply Ha|done]|].
  change (kview (m_kernel s)) with (mview s) in *. specialize (Hf Hn).
  split; [by apply new_task_base; [apply Ha|..]|].
  assert (∀ j d, tv_slots (mview s) !! j = Some (Some d) →
    <[i := Some c]> (tv_slots (mview s)) !! j = Some (Some d)) as H.
  { intros j d Hd. rewrite list_lookup_insert_ne; [done|]. intros ->. congruence. }
  split_and!; [|done|].
  - split; [apply length_insert|]. intros j d Hd. exists d. rewrite set_state_same.
    split_and!; [by apply H|done|lia].
  - intros j d [Hd _]. by apply H.
Qed.

Lemma cleanup_step task s r s' :
  kern (scdk_task_cleanup task) s = (r, s') → active (mview s) →
  active (mview s') ∧ step_rel (mview s) (mview s').
Proof.
  intros H Ha. rewrite kern_run in H. injection H as _ <-.
  change (mview (set_kernel ?k s)) with (kview k).
  destruct (task_cleanup_view task (m_kernel s)) as [->|(i & c & [Hi Hc] & _ & ->)]; [by split|].
  change (kview (m_kernel s)) with (mview s) in *.
  destruct (upd_state_step (mview s) i c SCDK_TASK_CLEANED) as [Hb Hs]; [apply Ha|done|..];
    try (unfold SCDK_TASK_NEW, SCDK_TASK_RUNNING, SCDK_TASK_DEAD, SCDK_TASK_CLEANED in *; lia).
  split; [|done]. by apply (step_rel_active (mview s)).
Qed.

Lemma fault_user_rel status s :
  active (mview s) → base_wf (mview (mark_user_fault status s).2) ∧
  user_rel (mview s) (mview (mark_user_fault status s).2).
Proof.
  intros Ha.
  assert (mview (mark_user_fault status s).2 = kview (scdk_task_fault_current status (m_kernel s)).2) as ->.
  { unfold mark_user_fault, ignore, bind, attempt. rewrite kern_run.
    by destruct (scdk_task_fault_current status (m_kernel s)) as [[]]. }
  destruct (task_fault_view status (m_kernel s)) as [->|(i & c & Hi & Hcap & Hne & ->)];
    change (kview (m_kernel s)) with (mview s) in *.
  { split; [apply Ha|]. by apply step_rel_user. }
  destruct (av_current _ Ha Hne) as (j & d & [Hd Hds] & Hdc).
  assert (j = i) as -> by (apply (bw_unique _ (av_base _ Ha) j i d c Hd Hi); congruence).
  rewrite Hi in Hd. injection Hd as <-. unfold SCDK_TASK_RUNNING in *. split.
  - apply upd_state_base; [apply Ha|]. unfold SCDK_TASK_NEW, SCDK_TASK_DEAD, SCDK_TASK_CLEANED. lia.
  - split_and!; [|done|].
    + apply (upd_state_life _ i c); [done|]. unfold SCDK_TASK_DEAD. lia.
    + intros j d [Hd _]. rewrite upd_state_slot. case_decide as Hij; [subst j|by left].
      rewrite Hi in Hd. injection Hd as <-. right. rewrite Hi. done.
Qed.

(** Whatever a user program does, it respects the life of the tasks. *)
Lemma user_run_rel s s' :
  user_run s s' → active (mview s) → base_wf (mview s') ∧ user_rel (mview s) (mview s').
Proof.
  intros H. induction H as [s|s status|s s1 s' E _ IH|s s1 s' r Hn E _ IH|s s1 s' task r E _ IH
    |s s1 s' P task image size b h r _ HP E Hr _ IH]; intros Ha.
  - split; [apply Ha|]. by apply step_rel_user.
  - by apply fault_user_rel.
  - rewrite <-E in Ha |- *. by apply IH.
  - destruct (create_step _ _ _ E Hn Ha) as [Ha1 Hs]. destruct (IH Ha1) as [Hb' Hu].
    split; [done|]. by apply (step_user_rel _ (mview s1)).
  - destruct (cleanup_step _ _ _ _ E Ha) as [Ha1 Hs]. destruct (IH Ha1) as [Hb' Hu].
    split; [done|]. by apply (step_user_rel _ (mview s1)).
  - assert (∀ e t c, Once mview user_guarantee (enter_user P e t c)) as HO.
    { intros e t c a. right. intros Hact. by apply HP. }
    destruct (run_flat_step P HO _ _ _ _ _ _ _ _ E Hr Ha) as [Ha1 Hs]. destruct (IH Ha1) as [Hb' Hu]. split; [done|]. by apply (step_user_rel _ (mview s1)).
Qed.

(** ** The life of the tasks *)

(** The operations other components call, and anything that does not touch the
    table of tasks. *)
Inductive task_step (P : platform) : machine → machine → Prop :=
  | step_other s s' : mview s' = mview s → task_step P s s'
  | step_create s s' r :
      named (m_kernel s) → kern scdk_user_task_create s = (r, s') → task_step P s s'
  | step_run_builtin s s' task h r :
      scdk_user_task_run_builtin P task h s = (r, s') → r ≠ Ub → task_step P s s'
  | step_run_flat s s' task image size b h r :
      scdk_user_task_run_flat P task image size b h s = (r, s') → r ≠ Ub → task_step P s s'
  | step_run_fault s s' task test h r :
      scdk_user_task_run_fault_test P task test h s = (r, s') → r ≠ Ub → task_step P s s'
  | step_exit s s' task code r :
      tv_current (mview s) = 0 → kern (scdk_task_exit task code) s = (r, s') → task_step P s s'
  | step_cleanup s s' task r :
      kern (scdk_task_cleanup task) s = (r, s') → task_step P s s'.

(** The user programs of the platform are user programs. *)
Definition user_programs (P : platform) : Prop :=
  ∀ e t c s, active (mview s) → user_run s (enter_user P e t c s).2.

Lemma user_programs_once P : user_programs P → ∀ e t c, Once mview user_guarantee (enter_user P e t c).
Proof. intros HP e t c s. right. intros Ha. by apply user_run_rel; [apply HP|]. Qed.

Lemma exit_step task code s r s' :
  kern (scdk_task_exit task code) s = (r, s') → tv_current (mview s) = 0 → active (mview s) →
  active (mview s') ∧ life (mview s) (mview s').
Proof.
  intros H H0 Ha. rewrite kern_run in H. injection H as _ <-.
  change (mview (set_kernel ?k s)) with (kview k).
  destruct (task_exit_view task code (m_kernel s)) as [->|(i & c & [Hi Hc] & _ & ->)]; [by split|].
  change (kview (m_kernel s)) with (mview s) in *.
  unfold SCDK_TASK_NEW, SCDK_TASK_RUNNING, SCDK_TASK_DEAD, SCDK_TASK_CLEANED in *. split.
  - split; [apply upd_state_base; [apply Ha|split; done]|]. intros Hne. by destruct Hne.
  - apply (upd_state_life _ i c); [done|lia].
Qed.

Lemma task_step_life P s s' :
  user_programs P → task_step P s s' → active (mview s) → active (mview s') ∧ life (mview s) (mview s').
Proof.
  intros HP0 H Ha. pose proof (user_programs_once P HP0) as HP.
  assert (active (mview s') ∧ step_rel (mview s) (mview s') →
    active (mview s') ∧ life (mview s) (mview s')) as weaken by (intros [? [? _]]; done).
  destruct H as [s s' E|s s' r Hn E|s s' task h r E Hr|s s' task image size b h r E Hr
    |s s' task test h r E Hr|s s' task code r H0 E|s s' task r E].
  - by rewrite E.
  - apply weaken. by apply (create_step _ _ _ E).
  - apply weaken. by apply (run_builtin_step P HP _ _ _ _ _ E).
  - apply weaken. by apply (run_flat_step P HP _ _ _ _ _ _ _ _ E).
  - apply weaken. by apply (run_fault_step P HP _ _ _ _ _ _ E).
  - by apply (exit_step _ _ _ _ _ E).
  - apply weaken. by apply (cleanup_step _ _ _ _ E).
Qed.

Lemma task_steps_life P s s' :
  user_programs P → rtc (task_step P) s s' → active (mview s) → active (mview s') ∧ life (mview s) (mview s').
Proof.
  intros HP H. induction H as [s|s s1 s' H1 _ IH]; intros Ha; [by split|].
  destruct (task_step_life P s s1 HP H1 Ha) as [Ha1 L1]. destruct (IH Ha1) as [Ha' L']. split; [done|].
  by transitivity (mview s1).
Qed.

(** The life of a user task. Along every sequence of task operations, with
    user programs that create, run and clean up further tasks to any depth and
    fault at any point: a task in the table keeps its tokens and its slot, its
    state only moves forward through NEW, RUNNING, DEAD and CLEANED, the tokens
    keep naming tasks uniquely, and whenever a task is the current one it is
    RUNNING. *)
Theorem task_lifecycle (P : platform) (s s' : machine) :
  user_programs P → active (mview s) → rtc (task_step P) s s' →
  active (mview s') ∧ life (mview s) (mview s').
Proof. intros HP Ha H. by apply (task_steps_life P). Qed.

(** Slots of the task table are never given back: once every slot has been
    used, no later sequence of operations, cleaning up every task included, lets
    another task be created. *)
Theorem task_table_exhausted (P : platform) (s s' : machine) :
  user_programs P → active (mview s) → rtc (task_step P) s s' →
  (∀ i, tv_slots (mview s) !! i ≠ Some None) →
  kern scdk_user_task_create s' = (Err SCDK_ERR_NOMEM, s').
Proof.
  intros HP Ha H Hfull. destruct (task_steps_life P s s' HP H Ha) as [_ [Hlen L]].
  rewrite kern_run. unfold scdk_user_task_create. rewrite bind_gets. unfold alloc_task_slot.
  rewrite (proj2 (find_slot_None _ _)); [by destruct s'|]. intros j y Hy. apply negb_false_iff.
  assert (tv_slots (mview s') !! j = Some (core_of y)) as Hj.
  { unfold mview, kview, view. simpl. by rewrite list_lookup_fmap, Hy. }
  destruct (lookup_lt_is_Some_2 (tv_slots (mview s)) j) as [x Hx].
  { rewrite <-Hlen. by eapply lookup_lt_Some. }
  destruct x as [c|]; [|by destruct (Hfull j)]. destruct (L j c Hx) as (c' & Hc' & _).
  rewrite Hj in Hc'. injection Hc' as Hc'. unfold core_of in Hc'. by destruct (ut_in_use y).
Qed.

(** ** A concrete machine

    A kernel with a scheduler and one endpoint, and a platform whose user program
    makes an endpoint call and exits. *)
Definition demo_program : MM unit :=
  modify (λ m, set_sys (let s := m_sys m in
    mk_syscall_state (ss_kernel_stack_top s) (ss_user_rsp s) (ss_user_rip s) (ss_user_rflags s)
      (ss_arg0 s) (ss_arg1 s) (ss_arg2 s) (ss_arg3 s) SCDK_OK (ss_user_return_rsp s)
      (ss_user_return_rip s) true true false SCDK_OK) m).
Definition demo_platform : platform := {|
  enter_user := λ _ _ _, demo_program;
  test_stub := [144]; page_fault_stub := [144]; invalid_syscall_stub := [144]; bad_pointer_stub := [144];
  tss_address := 0x100000; syscall_stack_end := 0x200000; scdk_syscall_entry := 0x100100;
  scdk_isr_invalid_opcode := 0x100200; scdk_isr_general_protection := 0x100300;
  scdk_isr_page_fault := 0x100400 |}.

Definition value_of {A} (default : A) (r : result A) : A := match r with Ok a => a | _ => default end.

Definition demo_endpoint_run : result Z * kernel :=
  scdk_endpoint_create 0 (Some console_endpoint_handler) 7 demo_booted.
Definition demo_ep : Z := value_of 0 demo_endpoint_run.1.
Definition demo_machine : machine :=
  mk_machine demo_endpoint_run.2 (mk_syscall_state 0 0 0 0 0 0 0 0 0 0 0 false false false 0) false []
    tss_zero false [] false false false false ∅.
Definition demo_created : machine := (kern scdk_user_task_create demo_machine).2.
Definition demo_task : Z * Z * Z := value_of (0, 0, 0) (kern scdk_user_task_create demo_machine).1.
Definition demo_image : list Z := [1; 2; 3].
Definition demo_ran : machine :=
  (scdk_user_task_run_flat demo_platform demo_task.1.1 demo_image 3 demo_ep 1 demo_created).2.

Lemma demo_user_programs : user_programs demo_platform.
Proof. intros e t c s _. apply (user_call s (enter_user demo_platform e t c s).2); [done|]. apply user_stop. Qed.

(** A table with at most its first slot in use. *)
Lemma first_slot_base v x n :
  tv_slots v = x :: replicate n None →
  match x with Some c => SCDK_TASK_NEW <= tc_state c <= SCDK_TASK_CLEANED | None => True end → base_wf v.
Proof.
  intros E Hx.
  assert (∀ i c, tv_slots v !! i = Some (Some c) → i = 0%nat ∧ x = Some c) as H.
  { intros i c. rewrite E. destruct i as [|i]; simpl; [by intros [= ->]|].
    intros [? _]%lookup_replicate. done. }
  split.
  - intros i j c d Hi Hj _. apply H in Hi as [-> _]. by apply H in Hj as [-> _].
  - intros i c Hi. apply H in Hi as [_ ->]. exact Hx.
Qed.

Lemma endpoint_create_base k L hs owner h ctx c k' :
  space_base k L hs → scdk_endpoint_create owner h ctx k = (Ok c, k') → space_base k' L hs.
Proof.
  intros [Hk Ht Hh Hr] E. pose proof (endpoint_create_kwf owner h ctx k Hk) as Hk'. rewrite E in Hk'.
  destruct (endpoint_create_Ok _ _ _ _ _ _ Hk E) as (i & oid & k1 & ep & _ & _ & _ & Ho & Hc).
  pose proof (cc_frame _ _ _ _ _ Hc) as Fc. pose proof (oc_frame _ _ _ _ _ _ _ Ho) as Fo.
  assert (k_vmm k' = k_vmm k ∧ k_pmm k' = k_pmm k ∧ k_heap k' = k_heap k) as (Ev & Ep & Eh) by (by rewrite Fc; cbn; rewrite Fo).
  split; [done| |by apply (heap_wf_same k)|by rewrite Eh].
  apply (typed_memory_same k); [done|done|rewrite Ep; apply Ht|rewrite Ep; intros p l Hl; by apply (pt_page _ _ Ht p l)|rewrite Ep; apply Ht].
Qed.

Lemma demo_machine_active : active (mview demo_machine).
Proof.
  split.
  - apply (first_slot_base _ None 63); [vm_compute; reflexivity|done].
  - intros H. exfalso. apply H. vm_compute. reflexivity.
Qed.

Lemma demo_created_base : base_wf (mview demo_created).
Proof.
  apply (first_slot_base _ (Some (mk_tcore demo_task.1.1 (demo_task.1.1) demo_task.1.2 demo_task.1.2 1)) 63);
    [vm_compute; reflexivity|].
  simpl. unfold SCDK_TASK_NEW, SCDK_TASK_CLEANED. lia.
Qed.

Lemma demo_machine_named : named (m_kernel demo_machine).
Proof.
  split.
  - destruct (scheduler_init_rel demo_spaces demo_booted demo_labels demo_blocks _ _ demo_env eq_refl demo_boot_runs)
      as (i & L & hs & _ & [Hk Ht Hh Hr _] & _). exists L, hs.
    change (m_kernel demo_machine) with (scdk_endpoint_create 0 (Some console_endpoint_handler) 7 demo_booted).2.
    assert (∃ c, scdk_endpoint_create 0 (Some console_endpoint_handler) 7 demo_booted =
      (Ok c, (scdk_endpoint_create 0 (Some console_endpoint_handler) 7 demo_booted).2)) as [c E].
    { exists demo_ep. apply run_to; [reflexivity|]. vm_compute. reflexivity. }
    revert E. generalize (scdk_endpoint_create 0 (Some console_endpoint_handler) 7 demo_booted).2. intros k' E.
    by apply (endpoint_create_base demo_booted L hs 0 (Some console_endpoint_handler) 7 c).
  - intros i c. assert (tv_slots (kview (m_kernel demo_machine)) = replicate 64 None) as -> by (vm_compute; reflexivity).
    by intros [? _]%lookup_replicate.
Qed.

Lemma demo_create_step : task_step demo_platform demo_machine demo_created.
Proof.
  apply (step_create _ _ _ (Ok demo_task)); [exact demo_machine_named|].
  apply run_to; [reflexivity|]. vm_compute. reflexivity.
Qed.

Lemma demo_run_step : task_step demo_platform demo_created demo_ran.
Proof.
  apply (step_run_flat _ _ _ demo_task.1.1 demo_image 3 demo_ep 1 (Ok tt)); [|discriminate].
  apply run_to; [reflexivity|]. vm_compute. reflexivity.
Qed.

Lemma task_lifecycle_witness :
  active (mview demo_ran) ∧
  ∃ c, tv_slots (mview demo_ran) !! 0%nat = Some (Some c) ∧ SCDK_TASK_NEW <= tc_state c.
Proof.
  destruct (task_lifecycle demo_platform demo_created demo_ran) as [Ha [_ L]].
  - exact demo_user_programs.
  - split; [exact demo_created_base|]. intros H. exfalso. apply H. vm_compute. reflexivity.
  - apply rtc_once. exact demo_run_step.
  - split; [exact Ha|].
    destruct (L 0%nat (mk_tcore demo_task.1.1 (demo_task.1.1) demo_task.1.2 demo_task.1.2 1)) as (c & Hc & _ & Hs);
      [vm_compute; reflexivity|]. exists c. split; [exact Hc|exact Hs].
Defined.

(** The same machine after sixty-four tasks, all of them dead. *)
Definition dead_slot (i : nat) : scdk_user_task_slot :=
  mk_user_task_slot true (Z.of_nat i + 1) (Z.of_nat i + 1) 1 1 0 0 0 SCDK_TASK_DEAD 0.
Definition demo_full : machine :=
  set_kernel (set_utasks (mk_user_tasks (dead_slot <$> seq 0 64)
    (user_threads (k_utasks (m_kernel demo_created))) 0) (m_kernel demo_created)) demo_created.

Lemma demo_full_slots i :
  tv_slots (mview demo_full) !! i =
    (λ j, Some (mk_tcore (Z.of_nat j + 1) (Z.of_nat j + 1) 1 1 SCDK_TASK_DEAD)) <$> seq 0 64 !! i.
Proof.
  change (tv_slots (mview demo_full)) with (core_of <$> (dead_slot <$> seq 0 64)).
  rewrite !list_lookup_fmap. by destruct (seq 0 64 !! i).
Qed.

Lemma demo_full_active : active (mview demo_full).
Proof.
  split.
  - split.
    + intros i j c d. rewrite !demo_full_slots.
      intros (a & [-> _]%lookup_seq & [= ->])%fmap_Some (b & [-> _]%lookup_seq & [= ->])%fmap_Some.
      simpl. lia.
    + intros i c. rewrite demo_full_slots. intros (a & _ & [= ->])%fmap_Some. simpl.
      unfold SCDK_TASK_NEW, SCDK_TASK_DEAD, SCDK_TASK_CLEANED. lia.
  - intros H. exfalso. apply H. vm_compute. reflexivity.
Qed.

Lemma task_table_exhausted_witness :
  kern scdk_user_task_create demo_full = (Err SCDK_ERR_NOMEM, demo_full).
Proof.
  apply (task_table_exhausted demo_platform demo_full demo_full).
  - exact demo_user_programs.
  - exact demo_full_active.
  - apply rtc_refl.
  - intros i. rewrite demo_full_slots. destruct (seq 0 64 !! i); discriminate.
Defined.
