(* ===== verification/KernelStack.v ===== *)
(** * The kernel stack after a nested run

    [scdk_usermode_run_flat_image] allocates a kernel stack for the task it runs
    and installs it twice: for system calls, in the state it saves and restores,
    and for faults, in the task-state segment, which it does not restore. *)
From stdpp Require Import base gmap list numbers relations.
From Stdlib Require Import ZArith Lia.
From S2P Require Import Prelude.
From S2P Require Import Kernel.
From S2P Require Import Capability.
From S2P Require Import Pmm.
From S2P Require Import Vmm.
From S2P Require Import Heap.
From S2P Require Import HeapVm.
From S2P Require Import AddressSpace.
From S2P Require Import UserTask.
From S2P Require Import TaskCreate.
From S2P Require Import Usermode.
From S2P Require Import Process.

#[local] Open Scope Z_scope.

(** What is followed through the run: the task-state segment and the local
    variable that holds the stack. *)
Definition stack_view (s : machine * run_locals) : x86_tss * Z := (m_tss s.1, rl_syscall_stack s.2).

#[global] Instance kern_keeps_tss {A} (m : K A) : Keeps m_tss (kern m).
Proof. by apply keeps_zoom_other. Qed.
#[global] Instance onm_keeps_stack {A} (m : MM A) : Keeps m_tss m → Keeps stack_view (onm m).
Proof.
  intros H [m0 l]. specialize (H m0). unfold onm, zoom, stack_view. simpl.
  destruct (m m0). simpl in *. by rewrite H.
Qed.
#[global] Instance load_code_page_keeps_stack a v src n : Keeps stack_view (load_code_page a v src n).
Proof. unfold load_code_page, setl. apply _. Qed.
#[global] Instance load_code_pages_keeps_stack a e image size i n :
  Keeps stack_view (load_code_pages a e image size i n).
Proof. revert i. induction n as [|n IH]; intros i; cbn [load_code_pages]; apply _. Qed.
#[global] Instance load_stack_keeps_stack a : Keeps stack_view (load_stack a).
Proof. unfold load_stack, setl. apply _. Qed.
#[global] Instance unmap_code_keeps_tss a e i n : Keeps m_tss (unmap_code a e i n).
Proof. revert i. induction n as [|n IH]; intros i; cbn [unmap_code]; apply _. Qed.
#[global] Instance free_code_keeps_tss l : Keeps m_tss (free_code l).
Proof. induction l as [|p l IH]; cbn [free_code]; apply _. Qed.

(** Initialisation installs the stack it is given. *)
Lemma usermode_init_rsp0 P top s u s' :
  scdk_usermode_init P top s = (Ok u, s') → tss_rsp0 (m_tss s') = top.
Proof.
  intros H. unfold scdk_usermode_init in H. minv_step H. apply guard_inv in E as [_ ->].
  minv_step H. apply modify_inv in E as ->.
  apply (keeps_run m_tss) in H; [by rewrite H|].
  unfold scdk_fault_init, scdk_syscall_init, scdk_syscall_reset_task_state, wrmsr. apply _.
Qed.

(** The setup leaves the new stack in the segment and in the local variable. *)
Lemma run_setup_stack P s root s' :
  run_setup P s = (Ok root, s') →
  rl_syscall_stack s'.2 ≠ 0 ∧ tss_rsp0 (m_tss s'.1) = wrap64 (rl_syscall_stack s'.2 + SCDK_PAGE_SIZE).
Proof.
  unfold run_setup, setl. intros H. minv_step H. minv_step H. apply modify_inv in E0 as ->.
  minv_step H. minv_step H. apply guard_inv in E1 as [E1 ->]. minv_step H. apply modify_inv in E2 as ->.
  minv_step H. injection H as _ <-. apply zoom_inv in E2 as (m1 & E2 & ->).
  simpl. split; [by apply Z.eqb_neq|]. by apply (usermode_init_rsp0 P _ _ _ _ E2).
Qed.

(** The cleanup restores the syscall state and ends by freeing the stack. *)
Lemma run_cleanup_end a e saved l s u s' :
  run_cleanup a e saved l s = (Ok u, s') → rl_syscall_stack l ≠ 0 →
  m_tss s' = m_tss s ∧ m_sys s' = saved ∧
  ∃ k, scdk_kfree (rl_syscall_stack l) k = (Ok tt, m_kernel s').
Proof.
  unfold run_cleanup. intros H Hne.
  minv_step H. apply (keeps_run m_tss) in E; [|apply _].
  minv_step H. apply (keeps_run m_tss) in E0; [|apply _].
  minv_step H. apply (keeps_run m_tss) in E1; [|apply _].
  minv_step H. apply (keeps_run m_tss) in E2; [|apply _].
  minv_step H. apply (keeps_run m_tss) in E3; [|apply _].
  minv_step H. apply modify_inv in E4 as ->.
  rewrite (proj2 (Z.eqb_neq _ 0) Hne) in H. cbn [negb] in H. apply zoom_inv in H as (k & H & ->).
  destruct u. split_and!; [simpl; congruence|done|]. by eexists.
Qed.

(** A lookup in the kernel changes nothing. *)
Lemma kern_query_inv {A} (f : kernel → result A) s a s' :
  kern (query f) s = (Ok a, s') → f (m_kernel s) = Ok a ∧ s' = s.
Proof.
  intros (k & [Hf ->]%query_inv & ->)%zoom_inv. split; [exact Hf|]. by destruct s.
Qed.

(** A run with cleanup succeeds only when both parts do. *)
Lemma with_cleanup_inv body cleanup s u s' :
  with_cleanup body cleanup s = (Ok u, s') →
  ∃ v m l w, body (s, no_locals) = (Ok v, (m, l)) ∧ cleanup l m = (Ok w, s').
Proof.
  unfold with_cleanup. destruct (body (s, no_locals)) as [[v|e|] [m l]]; [| |done];
    destruct (cleanup l m) as [[w|e'|] m'] eqn:E; intros H; try discriminate H.
  injection H as _ <-. by exists v, m, l, w.
Qed.

(** Once the setup is done nothing touches the stack it installed. *)
Lemma flat_body_stack (P : platform) aspace entry image size pages endpoint s u s' :
  (∀ e t c, Keeps m_tss (enter_user P e t c)) →
  (let* boot_root := run_setup P in
   load_code_pages aspace entry image size 0 pages ;;
   load_stack aspace ;;
   let* left_state := run_user P aspace entry endpoint boot_root in
   let* ready := gets (λ s, m_usermode_initialized s.1) in
   guard (negb ready || negb (ss_user_exited left_state)
          || negb (ss_endpoint_call_passed left_state)) SCDK_ERR_BUSY) s = (Ok u, s') →
  rl_syscall_stack s'.2 ≠ 0 ∧ tss_rsp0 (m_tss s'.1) = wrap64 (rl_syscall_stack s'.2 + SCDK_PAGE_SIZE).
Proof.
  intros HP H. minv_step H. apply run_setup_stack in E.
  apply (keeps_run stack_view) in H; [|unfold run_user, setl; apply _].
  unfold stack_view in H. injection H as -> ->. exact E.
Qed.

(** ** The heap through the run

    The run allocates the stack first and frees it last; in between only the user
    program can change the heap. *)
Definition mheap (m : machine) : heap := k_heap (m_kernel m).
Definition lheap (s : machine * run_locals) : heap := mheap s.1.

#[local] Instance keeps_heap_pmm {A} (m : M pmm A) : Keeps k_heap (zoom k_pmm set_pmm m).
Proof. by apply keeps_zoom_other. Qed.
#[local] Instance kpage_alloc_heap : Keeps k_heap kpage_alloc.
Proof. unfold kpage_alloc. apply _. Qed.
#[local] Instance kpage_free_heap p : Keeps k_heap (kpage_free p).
Proof. unfold kpage_free. apply _. Qed.
#[local] Instance next_table_heap table index create flags : Keeps k_heap (next_table table index create flags).
Proof. unfold next_table, allocate_table. apply _. Qed.
#[local] Instance leaf_table_heap root virt create flags : Keeps k_heap (leaf_table_for_root root virt create flags).
Proof. unfold leaf_table_for_root. apply _. Qed.
#[local] Instance activate_root_heap root : Keeps k_heap (scdk_vmm_activate_root root).
Proof. unfold scdk_vmm_activate_root. apply _. Qed.
#[local] Instance aspace_map_heap a v p f : Keeps k_heap (scdk_address_space_map a v p f).
Proof. unfold scdk_address_space_map, scdk_vmm_map_page_in_root. apply _. Qed.
#[local] Instance aspace_unmap_heap a v : Keeps k_heap (scdk_address_space_unmap a v).
Proof. unfold scdk_address_space_unmap, scdk_vmm_unmap_page_in_root. apply _. Qed.
#[local] Instance aspace_activate_heap a : Keeps k_heap (scdk_address_space_activate a).
Proof. unfold scdk_address_space_activate. apply _. Qed.
Lemma store_bytes_heap n phys bs k : k_heap (store_bytes n phys bs k) = k_heap k.
Proof.
  revert phys bs k. induction n as [|n IH]; intros phys bs k; [done|].
  destruct bs as [|b bs]; [done|]. cbn [store_bytes]. by rewrite IH.
Qed.
#[local] Instance copy_to_page_heap phys src n : Keeps k_heap (copy_to_page phys src n).
Proof. unfold copy_to_page. destruct (n <=? length src)%nat; [|apply _]. intros k. apply store_bytes_heap. Qed.
#[local] Instance kern_heap {A} (m : K A) : Keeps k_heap m → Keeps mheap (kern m).
Proof. intros H. by apply (keeps_zoom m_kernel set_kernel k_heap). Qed.
#[local] Instance onm_heap {A} (m : MM A) : Keeps mheap m → Keeps lheap (onm m).
Proof. intros H. by apply (keeps_zoom fst (λ m s, (m, s.2)) mheap). Qed.
#[local] Instance setl_heap f : Keeps lheap (setl f).
Proof. unfold setl. apply _. Qed.
#[local] Instance load_code_page_heap a v src n : Keeps lheap (load_code_page a v src n).
Proof. unfold load_code_page. apply _. Qed.
#[local] Instance load_code_pages_heap a e image size i n : Keeps lheap (load_code_pages a e image size i n).
Proof. revert i. induction n as [|n IH]; intros i; cbn [load_code_pages]; apply _. Qed.
#[local] Instance load_stack_heap a : Keeps lheap (load_stack a).
Proof. unfold load_stack. apply _. Qed.
#[local] Instance unmap_code_heap a e i n : Keeps mheap (unmap_code a e i n).
Proof. revert i. induction n as [|n IH]; intros i; cbn [unmap_code]; apply _. Qed.
#[local] Instance free_code_heap l : Keeps mheap (free_code l).
Proof. induction l as [|p l IH]; cbn [free_code]; apply _. Qed.
#[local] Instance usermode_init_heap P top : Keeps mheap (scdk_usermode_init P top).
Proof.
  unfold scdk_usermode_init, scdk_fault_init, scdk_syscall_init, scdk_syscall_reset_task_state, wrmsr. apply _.
Qed.

(** The heap stays in order and no block is given back. *)
Definition heap_kept_by (k k' : kernel) : Prop :=
  ∀ hs, heap_wf k hs → heap_initialized (k_heap k) = true →
  ∃ hs', heap_wf k' hs' ∧ heap_initialized (k_heap k') = true ∧
    ∀ x, x ∈ allocs SCDK_HEAP_BASE hs → x ∈ allocs SCDK_HEAP_BASE hs'.
#[local] Instance heap_kept_by_preorder : PreOrder heap_kept_by.
Proof.
  split; [intros k hs H1 H2; by exists hs|]. intros k1 k2 k3 H12 H23 hs W R.
  destruct (H12 hs W R) as (hs2 & W2 & R2 & A2). destruct (H23 hs2 W2 R2) as (hs3 & W3 & R3 & A3).
  exists hs3. split_and!; [done|done|]. intros x Hx. by apply A3, A2.
Qed.
Lemma heap_same_kept k k' : k_heap k' = k_heap k → heap_kept_by k k'.
Proof. intros E hs W R. exists hs. rewrite E. split_and!; [by apply (heap_wf_same k)|done|done]. Qed.

(** What a user program does to the segment and to the heap. *)
Record user_stays_out (m : MM unit) : Prop := {
  us_tss : Keeps m_tss m;
  us_heap : ∀ s, heap_kept_by (m_kernel s) (m_kernel (m s).2)
}.

(** The stack of the run is the first block it allocates. *)
Lemma run_setup_heap P s root s' :
  run_setup P s = (Ok root, s') →
  ∃ k1, scdk_kalloc SCDK_PAGE_SIZE (m_kernel s.1) = (Ok (rl_syscall_stack s'.2), k1) ∧ lheap s' = k_heap k1.
Proof.
  unfold run_setup, setl. intros H. minv_step H. apply zoom_inv in E as (m1 & E & ->).
  apply kern_query_inv in E as [_ ->]. minv_step H. apply modify_inv in E as ->.
  minv_step H. apply zoom_inv in E as (m1 & E & ->). apply zoom_inv in E as (k1 & E & ->).
  minv_step H. apply guard_inv in E0 as [_ ->]. minv_step H. apply modify_inv in E0 as ->.
  minv_step H. injection H as _ <-. apply zoom_inv in E0 as (m2 & E2 & ->).
  apply (keeps_run mheap) in E2; [|apply _]. exists k1. split; [exact E|exact E2].
Qed.

(** Nothing after the setup gives the stack back. *)
Lemma flat_body_heap (P : platform) aspace entry image size pages endpoint s u s' :
  (∀ e t c, user_stays_out (enter_user P e t c)) →
  (let* boot_root := run_setup P in
   load_code_pages aspace entry image size 0 pages ;;
   load_stack aspace ;;
   let* left_state := run_user P aspace entry endpoint boot_root in
   let* ready := gets (λ s, m_usermode_initialized s.1) in
   guard (negb ready || negb (ss_user_exited left_state)
          || negb (ss_endpoint_call_passed left_state)) SCDK_ERR_BUSY) s = (Ok u, s') →
  ∃ k1, scdk_kalloc SCDK_PAGE_SIZE (m_kernel s.1) = (Ok (rl_syscall_stack s'.2), k1) ∧ heap_kept_by k1 (m_kernel s'.1).
Proof.
  intros HP H. minv_step H. pose proof E as Es. apply run_setup_heap in E as (k1 & Ek & E1).
  pose proof (λ e t c, us_tss _ (HP e t c)) as HT.
  pose proof H as V. apply (keeps_run stack_view) in V; [|unfold run_user, setl; apply _]. injection V as _ V.
  exists k1. rewrite V. split; [exact Ek|].
  minv_step H. apply (keeps_run lheap) in E; [|apply _]. minv_step H. apply (keeps_run lheap) in E0; [|apply _].
  minv_step H. apply (keeps_run lheap) in H; [|apply _].
  unfold run_user in E2. minv_step E2. apply (keeps_run lheap) in E3; [|apply _].
  minv_step E2. apply zoom_inv in E4 as (m1 & E4 & ->). apply (keeps_run lheap) in E2; [|apply _].
  transitivity (m_kernel s4.1); [apply heap_same_kept; change (lheap s4 = k_heap k1); congruence|].
  transitivity (m_kernel m1); [|apply heap_same_kept; change (lheap s' = lheap (m1, s4.2)); congruence].
  pose proof (us_heap _ (HP entry SCDK_USER_TEST_STACK_TOP endpoint) s4.1) as Hh. by rewrite E4 in Hh.
Qed.

(** The cleanup frees the stack of the heap the body left. *)
Lemma run_cleanup_heap a e saved l s u s' :
  run_cleanup a e saved l s = (Ok u, s') → rl_syscall_stack l ≠ 0 →
  ∃ k, scdk_kfree (rl_syscall_stack l) k = (Ok tt, m_kernel s') ∧ k_heap k = mheap s.
Proof.
  unfold run_cleanup, scdk_syscall_restore_task_state. intros H Hne.
  minv_step H. apply (keeps_run mheap) in E; [|apply _]. minv_step H. apply (keeps_run mheap) in E0; [|apply _].
  minv_step H. apply (keeps_run mheap) in E1; [|apply _]. minv_step H. apply (keeps_run mheap) in E2; [|apply _].
  minv_step H. apply (keeps_run mheap) in E3; [|apply _]. minv_step H. apply (keeps_run mheap) in E4; [|apply _].
  rewrite (proj2 (Z.eqb_neq _ 0) Hne) in H. cbn [negb] in H. apply zoom_inv in H as (k & H & ->).
  destruct u. eexists. split; [exact H|]. change (mheap s5 = mheap s). congruence.
Qed.

(** A block that is freed is not covered by any block that is left. *)
Lemma kfree_uncovered k hs p sz k' :
  heap_wf k hs → heap_initialized (k_heap k) = true → (p, sz) ∈ allocs SCDK_HEAP_BASE hs →
  scdk_kfree p k = (Ok tt, k') →
  ∃ hs', heap_wf k' hs' ∧ ∀ q t, (q, t) ∈ allocs SCDK_HEAP_BASE hs' → q + t <= p ∨ p + sz <= q.
Proof.
  intros W R Hin E. destruct (kfree_live k hs p sz W R Hin) as (k2 & hs' & A & B & E2 & W' & _ & _ & HA & HB).
  rewrite E in E2. injection E2 as <-. exists hs'. split; [done|]. rewrite HB. intros q t Hq.
  pose proof (hl_sizes _ _ (hw_list _ _ W)) as Hok.
  assert (allocs SCDK_HEAP_BASE hs !! length A = Some (p, sz)) as Hp by (rewrite HA; by apply list_lookup_middle).
  apply elem_of_app in Hq as [Hq|Hq]; apply list_elem_of_lookup in Hq as [i Hi].
  - left. assert (allocs SCDK_HEAP_BASE hs !! i = Some (q, t)) as Hq by (rewrite HA; by apply lookup_app_l_Some).
    pose proof (allocs_disjoint _ _ _ _ _ _ _ _ Hok Hq Hp ltac:(by eapply lookup_lt_Some)). lia.
  - right. assert (allocs SCDK_HEAP_BASE hs !! (length A + S i)%nat = Some (q, t)) as Hq.
    { rewrite HA, lookup_app_r by lia. by replace (length A + S i - length A)%nat with (S i) by lia. }
    pose proof (allocs_disjoint _ _ _ _ _ _ _ _ Hok Hp Hq ltac:(lia)). lia.
Qed.

(** C33. After a successful nested run the processor would take the next fault
    on freed memory: the function has allocated a page of the heap for its stack,
    and when it returns the syscall state of the caller is back and the block is
    free again, no block of the heap covering any of its bytes, but the stack
    pointer for faults in the task-state segment still is the end of that page.
    The user program does not change the segment itself (ring 3 cannot), that is,
    starts no run of its own, and its system calls keep the heap in order and free
    no block that was there before. *)
Theorem nested_run_stale_fault_stack (P : platform) (aspace thread entry : Z) (image : list Z)
    (size b h : Z) (s s' : machine) (hs : blocks)
  (Huser : ∀ e t c, user_stays_out (enter_user P e t c))
  (Hwf : heap_wf (m_kernel s) hs) (Hready : heap_initialized (k_heap (m_kernel s)) = true)
  (Hrun : scdk_usermode_run_flat_image P aspace thread entry image size b h s = (Ok tt, s')) :
  m_sys s' = m_sys s ∧
  ∃ stack sz k1 hs1 hs', scdk_kalloc SCDK_PAGE_SIZE (m_kernel s) = (Ok stack, k1) ∧
    heap_wf k1 hs1 ∧ (stack, sz) ∈ allocs SCDK_HEAP_BASE hs1 ∧ SCDK_PAGE_SIZE <= sz ∧
    heap_wf (m_kernel s') hs' ∧
    (∀ q t, (q, t) ∈ allocs SCDK_HEAP_BASE hs' → q + t <= stack ∨ stack + SCDK_PAGE_SIZE <= q) ∧
    tss_rsp0 (m_tss s') = stack + SCDK_PAGE_SIZE.
Proof.
  unfold scdk_usermode_run_flat_image in Hrun.
  do 4 (minv_step Hrun; apply guard_inv in E as [_ ->]).
  minv_step Hrun. apply kern_query_inv in E as [_ ->]. minv_step Hrun. apply kern_query_inv in E as [_ ->].
  minv_step Hrun. apply gets_inv in E as [-> ->].
  apply with_cleanup_inv in Hrun as (v & m & l & w & Hb & Hc).
  pose proof (flat_body_heap _ _ _ _ _ _ _ _ _ _ Huser Hb) as (k1 & Ek & Hkept). cbn [fst snd] in Ek, Hkept.
  apply flat_body_stack in Hb as [Hne Hs]; [|intros e t c; apply Huser]. cbn [fst snd] in Hne, Hs.
  pose proof (run_cleanup_heap _ _ _ _ _ _ _ Hc Hne) as (k & Hk & Eh).
  apply run_cleanup_end in Hc as (Ht & Hsys & _); [|exact Hne]. split; [exact Hsys|].
  assert (u64 SCDK_PAGE_SIZE) as Hu by (unfold u64, SCDK_PAGE_SIZE, two64; lia).
  destruct (kalloc_Ok _ _ _ _ _ Hwf Hready Hu Ek) as (hs1 & W1 & R1 & Hpost).
  destruct Hpost as [[? _]|(A & B & sz & Hsz & _ & Hlo & Hhi & _ & HB)]; [done|].
  assert ((rl_syscall_stack l, sz) ∈ allocs SCDK_HEAP_BASE hs1) as Hin.
  { rewrite HB. apply elem_of_app. right. left. }
  destruct (Hkept hs1 W1 R1) as (hs2 & W2 & R2 & Hkeep). apply Hkeep in Hin as Hin2. unfold mheap in Eh. rewrite <-Eh in R2.
  destruct (kfree_uncovered k hs2 _ _ _ (heap_wf_same _ _ _ W2 Eh) R2 Hin2 Hk) as (hs' & W' & Hun).
  exists (rl_syscall_stack l), sz, k1, hs1, hs'. split_and!; [done|done|done|done|done| |].
  - intros q t Hq. destruct (Hun q t Hq); [by left|right; lia].
  - rewrite Ht, Hs. unfold wrap64. apply Z.mod_small. unfold SCDK_HEAP_BASE, SCDK_HEAP_SIZE, SCDK_PAGE_SIZE, two64 in *. lia.
Qed.

Definition demo_nested : machine :=
  (scdk_usermode_run_flat_image demo_platform demo_task.1.2 demo_task.2 0x400000 demo_image 3
     demo_ep 1 demo_created).2.
Definition demo_stack : Z := value_of 0 (scdk_kalloc SCDK_PAGE_SIZE (m_kernel demo_created)).1.

Lemma created_heap m :
  named (m_kernel m) →
  let k := m_kernel (kern scdk_user_task_create m).2 in ∃ hs, heap_wf k hs ∧ heap_initialized (k_heap k) = true.
Proof.
  intros [(L & hs & Hb) _]. destruct (user_task_create_run _ L hs Hb) as (r & k' & hs' & E & _ & W & R & _).
  exists hs'. rewrite kern_run, E. split; [exact W|exact R].
Qed.
Lemma demo_created_heap :
  ∃ hs, heap_wf (m_kernel demo_created) hs ∧ heap_initialized (k_heap (m_kernel demo_created)) = true.
Proof. exact (created_heap demo_machine demo_machine_named). Qed.
Lemma value_of_Ok {A S} (x : result A * S) d a s : x = (Ok a, s) → value_of d x.1 = a.
Proof. by intros ->. Qed.
Lemma demo_stack_again : (scdk_kalloc SCDK_PAGE_SIZE (m_kernel demo_nested)).1 = Ok demo_stack.
Proof. vm_compute. reflexivity. Qed.
Lemma demo_nested_run :
  scdk_usermode_run_flat_image demo_platform demo_task.1.2 demo_task.2 0x400000 demo_image 3 demo_ep 1 demo_created =
    (Ok tt, demo_nested).
Proof. apply run_to; [reflexivity|]. vm_compute. reflexivity. Qed.

(** The page the fault stack is in is also the next one the heap hands out. *)
Lemma nested_run_stale_fault_stack_witness :
  tss_rsp0 (m_tss demo_nested) = demo_stack + SCDK_PAGE_SIZE ∧ m_sys demo_nested = m_sys demo_created ∧
  (scdk_kalloc SCDK_PAGE_SIZE (m_kernel demo_nested)).1 = Ok demo_stack.
Proof.
  destruct demo_created_heap as (hs & Hwf & Hr).
  destruct (nested_run_stale_fault_stack demo_platform demo_task.1.2 demo_task.2 0x400000 demo_image 3
           demo_ep 1 demo_created demo_nested hs) as (Hs & stack & sz & k1 & hs1 & hs' & Ek & _ & _ & _ & _ & _ & Ht).
  - intros e t c. split; [intros s; exact eq_refl|intros s; apply heap_same_kept; exact eq_refl].
  - exact Hwf.
  - exact Hr.
  - exact demo_nested_run.
  - assert (demo_stack = stack) as E by (unfold demo_stack; exact (value_of_Ok _ 0 _ _ Ek)).
    split; [rewrite E; exact Ht|]. split; [exact Hs|exact demo_stack_again].
Defined.
