(* ===== verification/UserMessage.v ===== *)
(** * User messages ([src/ipc/user_ipc.c]: endpoint calls from ring 3)

    A user program hands the kernel the address of a message. The kernel copies
    the message in, checks it against the capability and the registry, copies
    the bytes its arguments designate, runs the endpoint's handler and copies the
    message back. Structs cross the boundary as their bytes: [UserStruct] is the
    layout of a struct of 64-bit fields, with its round trips. *)
From stdpp Require Import base gmap list numbers relations.
From Stdlib Require Import ZArith Lia.
From S2P Require Import Prelude.
From S2P Require Import Kernel.
From S2P Require Import Object.
From S2P Require Import Capability.
From S2P Require Import Invariant.
From S2P Require Import Endpoint.
From S2P Require Import Pmm.
From S2P Require Import Vmm.
From S2P Require Import HeapVm.
From S2P Require Import AddressSpace.
From S2P Require Import CString.
From S2P Require Import UserMemory.
From S2P Require Import UserGrant.
From S2P Require Import UserTask.
From S2P Require Import Usermode.

#[local] Open Scope Z_scope.

Definition SCDK_USER_IPC_MAX_WRITE : Z := 256.

(** ** Structs in memory *)
Fixpoint le_bytes (n : nat) (w : Z) : list Z :=
  match n with O => [] | S n => w mod 256 :: le_bytes n (w / 256) end.
Definition words_bytes (ws : list Z) : list Z := ws ≫= le_bytes 8.
Fixpoint bytes_words (n : nat) (bs : list Z) : list Z :=
  match n with O => [] | S n => le_word (take 8 bs) :: bytes_words n (drop 8 bs) end.

(** A struct whose fields are [struct_words A] words of 64 bits. *)
Class UserStruct (A : Type) := {
  struct_words : nat;
  to_words : A → list Z;
  of_words : list Z → option A;
  to_words_length x : length (to_words x) = struct_words;
  of_to_words x : of_words (to_words x) = Some x;
  of_words_total ws : length ws = struct_words → ∃ x, of_words ws = Some x ∧ to_words x = ws
}.
#[global] Arguments struct_words A {_}.

Definition message_of_words (ws : list Z) : option scdk_message :=
  match ws with
  | [a; b; c; d; e; f; g; h] => Some (mk_message a b c d e f g h)
  | _ => None
  end.
Definition desc_of_words (ws : list Z) : option scdk_ring_desc :=
  match ws with
  | [a; b; c; d; e; f] => Some (mk_ring_desc a b c d e f)
  | _ => None
  end.
Definition completion_of_words (ws : list Z) : option scdk_completion :=
  match ws with
  | [a; b; c; d] => Some (mk_completion a b c d)
  | _ => None
  end.

(** Take a word list of known length apart. *)
Ltac struct_total :=
  intros ws Hws; repeat (destruct ws as [|? ws]; try discriminate Hws); eexists; split; reflexivity.

#[global] Instance message_struct : UserStruct scdk_message.
Proof.
  refine {| struct_words := 8; of_words := message_of_words;
    to_words m := [msg_sender m; msg_target m; msg_type m; msg_arg0 m; msg_arg1 m; msg_arg2 m;
                   msg_arg3 m; msg_status m] |}; [done|by intros []|struct_total].
Defined.
#[global] Instance desc_struct : UserStruct scdk_ring_desc.
Proof.
  refine {| struct_words := 6; of_words := desc_of_words;
    to_words d := [rd_op d; rd_cap d; rd_grant d; rd_offset d; rd_length d; rd_flags d] |};
    [done|by intros []|struct_total].
Defined.
#[global] Instance completion_struct : UserStruct scdk_completion.
Proof.
  refine {| struct_words := 4; of_words := completion_of_words;
    to_words c := [cp_op c; cp_status c; cp_result0 c; cp_result1 c] |}; [done|by intros []|struct_total].
Defined.

Section structs.
Context (A : Type) `{UserStruct A}.

Definition struct_size : Z := 8 * Z.of_nat (struct_words A).
Definition to_bytes (x : A) : list Z := words_bytes (to_words x).
Definition of_bytes (bs : list Z) : result A := deref (of_words (bytes_words (struct_words A) bs)).

(** [scdk_user_copy_from(ptr, &x, sizeof(x))] and the copy back. *)
Definition read_struct (k : kernel) (ptr : Z) : result A :=
  let? bs := scdk_user_copy_from k ptr struct_size in of_bytes bs.
Definition write_struct (ptr : Z) (x : A) : K unit :=
  scdk_user_copy_to ptr (to_bytes x) struct_size.
End structs.
#[global] Arguments to_bytes {A _} x.
#[global] Arguments of_bytes {A _} bs.
#[global] Arguments read_struct {A _} k ptr.
#[global] Arguments write_struct {A _} ptr x.

(** ** The state handlers run on

    Handlers belong to services with state of their own; the machine is a part
    of that state. *)
Class HasMachine (T : Type) := {
  the_machine : T → machine;
  put_machine : machine → T → T;
  machine_put m s : the_machine (put_machine m s) = m;
  put_same s : put_machine (the_machine s) s = s;
  put_put m m' s : put_machine m (put_machine m' s) = put_machine m s
}.
#[global] Program Instance machine_self : HasMachine machine := {|
  the_machine := λ m, m; put_machine := λ m _, m |}.
Solve Obligations with done.
#[global] Instance machine_kernel {T} `{HasMachine T} : HasKernel T := λ s, m_kernel (the_machine s).

Definition onmach {T A} `{HasMachine T} (m : MM A) : M T A := zoom the_machine put_machine m.
Definition onkern {T A} `{HasMachine T} (m : K A) : M T A := onmach (kern m).

(** [status = m; if (status != SCDK_OK) { h(status); return status; }] *)
Definition catch {T A} (m : M T A) (h : err → M T unit) : M T A := λ s,
  match m s with
  | (Err e, s') => recover (fail e) (h e) s'
  | r => r
  end.

(** ** Operations *)
Definition validate_user_message_target (k : kernel) (endpoint_cap : Z) (msg : scdk_message)
  : result unit :=
  let? _ := rguard (msg_target msg =? SCDK_SERVICE_NONE) SCDK_ERR_INVAL in
  let? service_endpoint := scdk_service_lookup k (msg_target msg) in
  rguard (negb (service_endpoint =? endpoint_cap)) SCDK_ERR_PERM.

(** The message types whose [arg0] and [arg1] are a buffer. *)
Definition carries_buffer (type : Z) : bool :=
  (type =? SCDK_MSG_WRITE) || (type =? SCDK_MSG_OPEN) || (type =? SCDK_MSG_PROCESS_SPAWN)
  || (type =? SCDK_MSG_STAT) || (type =? SCDK_MSG_LISTDIR).

(** [buffer] is the address of the kernel's copy; the bytes that are written to
    it are returned. *)
Definition prepare_user_buffer_arg (k : kernel) (msg : scdk_message) (buffer buffer_size : Z)
  : result (scdk_message * list Z) :=
  let? _ := rguard (negb (carries_buffer (msg_type msg))) SCDK_ERR_NOTSUP in
  let length := msg_arg1 msg in
  let? _ := rguard ((msg_arg0 msg =? 0) || (length =? 0) || (buffer_size - 1 <? length))
              SCDK_ERR_BOUNDS in
  let? bytes := scdk_user_copy_from k (msg_arg0 msg) length in
  Ok (set_msg_args msg buffer length (msg_arg2 msg) (msg_arg3 msg), bytes ++ [0]).

(** The message types delivered with their arguments as they are. *)
Definition passes_plain (type : Z) : bool :=
  (type =? SCDK_MSG_CONSOLE_WRITE) || (type =? SCDK_MSG_CONSOLE_CLEAR)
  || (type =? SCDK_MSG_CONSOLE_GET_INFO) || (type =? SCDK_MSG_CONSOLE_SCROLL)
  || (type =? SCDK_MSG_TTY_POLL_EVENT) || (type =? SCDK_MSG_TTY_GET_INFO)
  || (type =? SCDK_MSG_CLOSE) || (type =? SCDK_MSG_SERVICE_LOOKUP).

Section endpoint_call.
Context {T : Type} `{HasMachine T}.
(** [invoke] runs a handler; its first argument is what the kernel's buffer
    holds, when it was filled. [payload_buffer] is the buffer's address. *)
Context (invoke : option (list Z) → handler_on T) (payload_buffer : Z).
Implicit Types (ptr : Z) (msg : scdk_message).

Definition kquery {A} (f : kernel → result A) : M T A := query (λ s, f (kernel_of s)).

(** [msg.status = e; (void)scdk_user_copy_to(ptr, &msg, sizeof(msg));] *)
Definition reply_error ptr msg (e : err) : M T unit :=
  ignore (onkern (write_struct ptr (set_msg_status msg (Endpoint.status_word (Err e))))).

Definition validate_reply_buffer ptr msg : M T unit :=
  catch (kquery (λ k, scdk_user_validate_range k (msg_arg2 msg) (msg_arg3 msg) true))
    (λ e, reply_error ptr msg e ;; onmach (scdk_fault_handle_bad_user_pointer (err_code e))).

(** The switch over the message type: the message to deliver and the buffer. *)
Definition prepare_request ptr msg : M T (scdk_message * option (list Z)) :=
  if carries_buffer (msg_type msg) then
    let* p := catch (kquery (λ k, prepare_user_buffer_arg k msg payload_buffer
                                    (SCDK_USER_IPC_MAX_WRITE + 1)))
      (λ e, reply_error ptr msg e ;;
            if bool_decide (e = SCDK_ERR_BOUNDS ∨ e = SCDK_ERR_NOENT ∨ e = SCDK_ERR_PERM)
            then onmach (scdk_fault_handle_bad_user_pointer (err_code e)) else ret tt) in
    (if msg_type msg =? SCDK_MSG_LISTDIR then validate_reply_buffer ptr p.1 else ret tt) ;;
    ret (p.1, Some p.2)
  else if msg_type msg =? SCDK_MSG_READ then
    (if msg_target msg =? SCDK_SERVICE_VFS then validate_reply_buffer ptr msg else ret tt) ;;
    ret (msg, None)
  else if passes_plain (msg_type msg) then ret (msg, None)
  else reply_error ptr msg SCDK_ERR_NOTSUP ;; fail SCDK_ERR_NOTSUP.

(** The call and the copy back. *)
Definition deliver (endpoint_cap ptr : Z) (request : scdk_message * option (list Z)) : M T unit :=
  let* reply := scdk_endpoint_call (invoke request.2) endpoint_cap request.1 in
  let* copied := attempt (onkern (write_struct ptr
                   (set_msg_status reply.1 (Endpoint.status_word reply.2)))) in
  match copied with
  | Ok _ => lift reply.2
  | _ => fail SCDK_ERR_PERM
  end.

Definition scdk_sys_endpoint_call (endpoint_cap user_message_ptr : Z) : M T unit :=
  catch (kquery (λ k, scdk_cap_check k endpoint_cap SCDK_RIGHT_SEND SCDK_OBJ_ENDPOINT))
    (λ e, onmach (scdk_fault_handle_capability_failure (err_code e))) ;;
  let* msg := catch (kquery (λ k, read_struct k user_message_ptr))
    (λ e, onmach (scdk_fault_handle_bad_user_pointer (err_code e))) in
  catch (kquery (λ k, validate_user_message_target k endpoint_cap msg))
    (λ e, reply_error user_message_ptr msg e ;;
          onmach (scdk_fault_handle_capability_failure (err_code e))) ;;
  let* request := prepare_request user_message_ptr msg in
  deliver endpoint_cap user_message_ptr request.
End endpoint_call.

(** ** Bytes and words *)
Section layout.
Implicit Types (bs ws : list Z).

Lemma le_bytes_length n w : length (le_bytes n w) = n.
Proof. revert w. induction n as [|n IH]; intros w; simpl; [done|]. by rewrite IH. Qed.
Lemma le_bytes_byte n w : Forall byte (le_bytes n w).
Proof.
  revert w. induction n as [|n IH]; intros w; simpl; [done|].
  apply Forall_cons. split; [|done]. by apply Z.mod_pos_bound.
Qed.
Lemma le_word_bytes n w : 0 <= w < 256 ^ Z.of_nat n → le_word (le_bytes n w) = w.
Proof.
  revert w. induction n as [|n IH]; intros w Hw; cbn [le_bytes le_word].
  - change (256 ^ Z.of_nat 0) with 1 in Hw. lia.
  - rewrite Nat2Z.inj_succ, Z.pow_succ_r in Hw by lia.
    rewrite IH by (Z.to_euclidean_division_equations; lia). Z.to_euclidean_division_equations; lia.
Qed.
Lemma le_word_range bs : Forall byte bs → 0 <= le_word bs < 256 ^ Z.of_nat (length bs).
Proof.
  induction 1 as [|b bs Hb _ IH]; cbn [le_word length]; [done|].
  rewrite Nat2Z.inj_succ, Z.pow_succ_r by lia. unfold byte in Hb. lia.
Qed.
Lemma le_bytes_word bs : Forall byte bs → le_bytes (length bs) (le_word bs) = bs.
Proof.
  induction 1 as [|b bs Hb _ IH]; cbn [le_word le_bytes length]; [done|]. unfold byte in Hb.
  rewrite (Z.mul_comm 256), Z.mod_add, Z.div_add, Z.mod_small, Z.div_small, Z.add_0_l, IH by lia. done.
Qed.

Lemma words_bytes_cons w ws : words_bytes (w :: ws) = le_bytes 8 w ++ words_bytes ws.
Proof. done. Qed.
Lemma words_bytes_length ws : length (words_bytes ws) = (8 * length ws)%nat.
Proof.
  induction ws as [|w ws IH]; [done|]. rewrite words_bytes_cons, length_app, IH, le_bytes_length.
  simpl length. lia.
Qed.
Lemma words_bytes_byte ws : Forall byte (words_bytes ws).
Proof. induction ws; [done|]. rewrite words_bytes_cons. apply Forall_app. split; [apply le_bytes_byte|done]. Qed.

Lemma bytes_words_bytes ws : Forall u64 ws → bytes_words (length ws) (words_bytes ws) = ws.
Proof.
  induction 1 as [|w ws Hw _ IH]; [done|]. rewrite words_bytes_cons. cbn [length bytes_words].
  rewrite take_app_length', drop_app_length' by (by rewrite le_bytes_length). rewrite IH.
  f_equal. by apply le_word_bytes.
Qed.
Lemma words_bytes_words n : ∀ bs, length bs = (8 * n)%nat → Forall byte bs →
  words_bytes (bytes_words n bs) = bs ∧ Forall u64 (bytes_words n bs) ∧ length (bytes_words n bs) = n.
Proof.
  induction n as [|n IH]; intros bs Hl Hb; [by destruct bs|]. cbn [bytes_words].
  rewrite words_bytes_cons. rewrite <-(take_drop 8 bs) in Hb. apply Forall_app in Hb as [Hb1 Hb2].
  assert (length (take 8 bs) = 8%nat) as Ht by (rewrite length_take; lia).
  destruct (IH (drop 8 bs)) as (E & Hu & Hn); [rewrite length_drop; lia|done|]. split_and!.
  - rewrite E. replace 8%nat with (length (take 8 bs)) at 1. rewrite le_bytes_word by done. apply take_drop.
  - apply Forall_cons. split; [|done]. pose proof (le_word_range _ Hb1) as Hr. by rewrite Ht in Hr.
  - simpl. by rewrite Hn.
Qed.
End layout.

(** A struct value whose fields fit their type. *)
Definition struct_ok {A} `{UserStruct A} (x : A) : Prop := Forall u64 (to_words x).

Section struct_facts.
Context {A : Type} `{UserStruct A}.
Implicit Types x y : A.

Lemma struct_size_nat : Z.to_nat (struct_size A) = (8 * struct_words A)%nat.
Proof. unfold struct_size. lia. Qed.
Lemma to_bytes_length x : Z.of_nat (length (to_bytes x)) = struct_size A.
Proof. unfold to_bytes, struct_size. rewrite words_bytes_length, to_words_length. lia. Qed.
Lemma to_bytes_byte x : Forall byte (to_bytes x).
Proof. apply words_bytes_byte. Qed.

Lemma of_to_bytes x : struct_ok x → of_bytes (to_bytes x) = Ok x.
Proof.
  intros Hx. unfold of_bytes, to_bytes. rewrite <-(to_words_length x), bytes_words_bytes by done.
  by rewrite of_to_words.
Qed.
Lemma to_of_bytes bs :
  length bs = (8 * struct_words A)%nat → Forall byte bs →
  ∃ x, of_bytes bs = Ok x ∧ to_bytes x = bs ∧ struct_ok x.
Proof.
  intros Hl Hb. destruct (words_bytes_words _ _ Hl Hb) as (E & Hu & Hn).
  destruct (of_words_total _ Hn) as (x & Ex & Ew). exists x.
  unfold of_bytes, to_bytes, struct_ok. by rewrite Ex, Ew.
Qed.

Lemma user_load_bytes k n : ∀ v bs, user_load k v n = Ok bs → length bs = n ∧ Forall byte bs.
Proof.
  induction n as [|n IH]; intros v bs; cbn [user_load]; [by intros [= <-]|].
  intros E. do 2 minv_step E. injection E as <-. apply IH in E1 as [Hl Hf].
  split; [simpl; by rewrite Hl|]. apply Forall_cons. split; [apply load_byte_range|done].
Qed.
Lemma copy_from_bytes k p n bs :
  scdk_user_copy_from k p n = Ok bs → length bs = Z.to_nat n ∧ Forall byte bs.
Proof. intros E. unfold scdk_user_copy_from in E. minv E. by apply (user_load_bytes k _ p). Qed.

(** Reading a struct is reading its bytes. *)
Lemma read_struct_Ok k p x :
  read_struct k p = Ok x ↔ scdk_user_copy_from k p (struct_size A) = Ok (to_bytes x) ∧ struct_ok x.
Proof.
  unfold read_struct. split.
  - intros E. minv_step E. destruct (copy_from_bytes _ _ _ _ E0) as [Hl Hb].
    rewrite struct_size_nat in Hl. destruct (to_of_bytes _ Hl Hb) as (y & Ey & Eb & Hy).
    rewrite E in Ey. injection Ey as <-. by rewrite E0, Eb.
  - intros [-> Hx]. simpl. by apply of_to_bytes.
Qed.
Lemma read_struct_inv k p :
  match scdk_user_copy_from k p (struct_size A) with
  | Ok bs => ∃ x, read_struct k p = Ok x ∧ bs = to_bytes x ∧ struct_ok x
  | Err e => read_struct k p = Err e
  | Ub => read_struct k p = Ub
  end.
Proof.
  unfold read_struct. destruct (scdk_user_copy_from _ _ _) as [bs| |] eqn:E; [|done..]. simpl.
  destruct (copy_from_bytes _ _ _ _ E) as [Hl Hb]. rewrite struct_size_nat in Hl.
  destruct (to_of_bytes _ Hl Hb) as (y & Ey & Eb & Hy). by exists y.
Qed.
End struct_facts.

(** ** User memory through system calls *)

(** The active root is part of a well-typed set of tables, and what user code can
    write holds no table. *)
Record user_memory (k : kernel) (L : gmap Z label) : Prop := {
  um_typed : pt_typed k L;
  um_synced : cr3_synced k;
  um_data : ∀ v t, 0 <= v < SCDK_USER_VIRT_TOP → user_byte k true v → scdk_vmm_virt_to_phys k v = Ok t → no_table L t.1
}.
(** No two bytes of a range are the same memory. *)
Definition range_distinct (k : kernel) (p n : Z) : Prop :=
  ∀ v v' t t', p <= v < p + n → p <= v' < p + n →
    scdk_vmm_virt_to_phys k v = Ok t → scdk_vmm_virt_to_phys k v' = Ok t' → t.1 = t'.1 → v = v'.

(** The tables of the kernel, without user tasks and memory. *)
Definition core_tables (k : kernel) :=
  (k_objs k, k_caps k, k_eps k, k_rings k, k_grants k, k_ugrants k, k_urings k, k_pmm k, k_heap k,
   k_aspaces k, k_sched k).

#[global] Instance user_store_core v src n : Keeps core_tables (user_store v src n).
Proof.
  revert v src. induction n as [|n IH]; intros v src; [by destruct src|].
  destruct src as [|b src]; [apply _|]. cbn [user_store]. apply keeps_bind; [apply _|intros p].
  apply keeps_bind; [by intros k|intros _; apply IH].
Qed.
#[global] Instance write_struct_core {A} `{UserStruct A} p (x : A) : Keeps core_tables (write_struct p x).
Proof. unfold write_struct, scdk_user_copy_to. apply _. Qed.
#[global] Instance kill_main_core i : Keeps core_tables (kill_main_thread i).
Proof. unfold kill_main_thread, get_utask. apply _. Qed.
#[global] Instance task_fault_core st : Keeps core_tables (scdk_task_fault_current st).
Proof. unfold scdk_task_fault_current. apply _. Qed.

Lemma message_size : u64 (struct_size scdk_message).
Proof. by vm_compute. Qed.
Lemma desc_size : u64 (struct_size scdk_ring_desc).
Proof. by vm_compute. Qed.
Lemma completion_size : u64 (struct_size scdk_completion).
Proof. by vm_compute. Qed.

Section user_memory_facts.
Implicit Types (k : kernel) (L : gmap Z label).

Lemma user_memory_step k k' L : user_memory k L → mem_step k k' L → user_memory k' L.
Proof.
  intros [HT Hc Hd] Hs. split; [apply Hs|by eapply mem_step_synced|].
  intros v t Hv (t' & Ht' & Hu & Hw) Ht.
  rewrite (mem_step_translate k k' L) in Ht, Ht' by done. apply (Hd v); [done|by exists t'|done].
Qed.
Lemma range_distinct_step k k' L p n :
  pt_typed k L → mem_step k k' L → range_distinct k p n → range_distinct k' p n.
Proof.
  intros HT Hs Hd v v' t t' Hv Hv'. rewrite !(mem_step_translate k k' L) by done. by apply Hd.
Qed.

(** A struct is written whole and reads back, or nothing is written. *)
Lemma write_struct_run {A} `{UserStruct A} k L p (x : A) :
  user_memory k L → u64 p → u64 (struct_size A) →
  (∃ e, write_struct p x k = (Err e, k)) ∨
  (∃ k', write_struct p x k = (Ok tt, k') ∧ mem_step k k' L ∧
     (range_distinct k p (struct_size A) → struct_ok x → read_struct k' p = Ok x) ∧
     (∀ q, (∀ v t, p <= v < p + struct_size A → scdk_vmm_virt_to_phys k v = Ok t → t.1 ≠ q) →
        load_byte k' q = load_byte k q)).
Proof.
  intros [HT Hc Hd] Hp Hs. unfold write_struct. rewrite <-(to_bytes_length x) in *.
  destruct (copy_to_run k L p (to_bytes x) HT Hc Hp (to_bytes_byte x) Hs) as [He|(k' & E & Hm & Hq & Hr)];
    [intros v t Hv Ht; apply Hd; unfold u64 in Hp; lia|by left|right].
  exists k'. split_and!; [done|done| |done]. intros Hdist Hx. apply read_struct_Ok.
  rewrite <-(to_bytes_length x). split; [by apply Hr|done].
Qed.
Lemma copy_from_defined k p n : cr3_synced k → u64 p → u64 n → defined (scdk_user_copy_from k p n).
Proof.
  intros Hc Hp Hn. destruct (validate_range_spec k p n false Hp Hn) as [Hd Hv].
  unfold scdk_user_copy_from. apply rbind_defined; [apply rguard_defined|intros _ _].
  apply rbind_defined; [done|]. intros [] E. destruct (proj1 Hv E) as (_ & _ & _ & Hm).
  erewrite user_load_run; [done|]. intros i Hi. apply (user_byte_mmu k false); [done|]. apply Hm. lia.
Qed.
Lemma read_struct_defined {A} `{UserStruct A} k p :
  cr3_synced k → u64 p → u64 (struct_size A) → defined (read_struct (A:=A) k p).
Proof.
  intros Hc Hp Hs. pose proof (copy_from_defined k p _ Hc Hp Hs) as Hd.
  pose proof (read_struct_inv (A:=A) k p) as Hr.
  destruct (scdk_user_copy_from k p (struct_size A)) as [bs|e|]; [by destruct Hr as (x & -> & _)|by rewrite Hr|done].
Qed.

Lemma core_tables_kwf k k' : core_tables k' = core_tables k → kernel_wf k → kernel_wf k'.
Proof.
  unfold core_tables. intros [= E1 E2 E3 E4 E5 E6 E7 _ _ _ E8] Hwf. apply (kernel_wf_frame k); [done..|].
  eapply tables_sized_core; [apply Hwf|done..].
Qed.

Lemma slot_for_cap_Ok {A} (p : A → bool) (l : list A) i : find_slot p l = Some i → is_Some (l !! i).
Proof. intros [(x & Hx & _) _]%find_slot_Some. by exists x. Qed.
End user_memory_facts.

(** ** Steps that do not reach a handler *)
Section calm.
Context {T : Type} `{HasMachine T}.
Implicit Types (s : T) (m : machine).

(** Only user memory, user tasks and the state of the processor-facing files may
    differ. *)
Definition calm s s' : Prop :=
  core_tables (kernel_of s') = core_tables (kernel_of s) ∧ ∀ m, put_machine m s' = put_machine m s.

#[global] Instance calm_preorder : PreOrder calm.
Proof.
  split; [done|]. intros s1 s2 s3 [A1 B1] [A2 B2]. split; [by rewrite A2|]. intros m. by rewrite B2.
Qed.

Lemma onmach_run {A} (o : MM A) s :
  onmach o s = ((o (the_machine s)).1, put_machine (o (the_machine s)).2 s).
Proof. unfold onmach, zoom. by destruct (o (the_machine s)). Qed.
Lemma onkern_run {A} (o : K A) s :
  onkern o s = ((o (kernel_of s)).1, put_machine (set_kernel (o (kernel_of s)).2 (the_machine s)) s).
Proof.
  unfold onkern. rewrite onmach_run. unfold kern, zoom, kernel_of, machine_kernel.
  by destruct (o (m_kernel (the_machine s))).
Qed.
Lemma kernel_put m s : kernel_of (put_machine m s) = m_kernel m.
Proof. unfold kernel_of, machine_kernel. by rewrite machine_put. Qed.
Lemma calm_put m s : core_tables (m_kernel m) = core_tables (kernel_of s) → calm s (put_machine m s).
Proof. intros E. split; [by rewrite kernel_put|]. intros m'. by rewrite put_put. Qed.

Lemma calm_kwf s s' : calm s s' → kernel_wf (kernel_of s) → kernel_wf (kernel_of s').
Proof. intros [E _]. by apply core_tables_kwf. Qed.

Lemma upd_utask_lookup i j f k x :
  user_tasks (k_utasks k) !! j = Some x → is_Some (user_tasks (k_utasks (upd_utask i f k)) !! j).
Proof. intros Hx. simpl. apply lookup_lt_is_Some_2. rewrite length_alter. by eapply lookup_lt_Some. Qed.

Lemma task_fault_defined st k : defined (scdk_task_fault_current st k).1.
Proof.
  unfold scdk_task_fault_current. rewrite bind_gets. apply bind_defined; [by destruct (_ =? _)|].
  intros _ k1 [_ ->]%guard_inv. apply bind_defined; [unfold query, user_task_slot_for_cap; simpl; by case_match|].
  intros i k1 [E ->]%query_inv. unfold user_task_slot_for_cap in E. case_match eqn:Hf; [|done].
  injection E as ->. apply slot_for_cap_Ok in Hf as [x Hx]. rewrite !bind_modify. unfold kill_main_thread.
  apply bind_defined.
  - unfold get_utask, query. destruct (upd_utask_lookup i i (with_exit_status st) k x Hx) as [y Hy].
    destruct (upd_utask_lookup i i (with_ustate SCDK_TASK_DEAD) _ y Hy) as [z Hz]. simpl in *. by rewrite Hz.
  - intros y k1 _. apply bind_defined; [unfold attempt, query, user_thread_slot_for_cap; by destruct (find_slot _ _)|].
    intros [j|e|] k2 _; done.
Qed.

Lemma mark_user_fault_run st m :
  ∃ m', mark_user_fault st m = (Ok tt, m') ∧ core_tables (m_kernel m') = core_tables (m_kernel m) ∧
    ss_user_faulted (m_sys m') = true ∧ ss_user_fault_status (m_sys m') = st.
Proof.
  unfold mark_user_fault, ignore, kern, zoom, bind, attempt.
  pose proof (task_fault_defined st (m_kernel m)) as Hd. pose proof (task_fault_core st (m_kernel m)) as Hk.
  destruct (scdk_task_fault_current st (m_kernel m)) as [[a|e|] k']; [| |done];
    (eexists; split_and!; [reflexivity|exact Hk|done|done]).
Qed.

(** A fault handler marks the user program and ends. *)
Definition faulted (st : Z) s : Prop :=
  ss_user_faulted (m_sys (the_machine s)) = true ∧ ss_user_fault_status (m_sys (the_machine s)) = st.
Lemma capability_failure_run st s :
  ∃ s', onmach (scdk_fault_handle_capability_failure st) s = (Ok tt, s') ∧ calm s s' ∧ faulted st s'.
Proof.
  rewrite onmach_run. unfold scdk_fault_handle_capability_failure.
  destruct (mark_user_fault_run st (the_machine s)) as (m' & -> & Hc & Hf).
  eexists. split; [done|]. split; [by apply calm_put|]. unfold faulted. by rewrite machine_put.
Qed.
Lemma bad_pointer_run st s :
  ∃ s', onmach (scdk_fault_handle_bad_user_pointer st) s = (Ok tt, s') ∧ calm s s' ∧ faulted st s'.
Proof.
  rewrite onmach_run. unfold scdk_fault_handle_bad_user_pointer. rewrite bind_modify.
  edestruct (mark_user_fault_run st) as (m' & -> & Hc & Hf).
  eexists. split; [done|]. split; [by apply calm_put|]. unfold faulted. by rewrite machine_put.
Qed.

Lemma reply_error_run L ptr msg e s :
  user_memory (kernel_of s) L → u64 ptr → ∃ s', reply_error ptr msg e s = (Ok tt, s') ∧ calm s s'.
Proof.
  intros Hum Hp. unfold reply_error, ignore, bind, attempt. rewrite onkern_run.
  pose proof (write_struct_core ptr (set_msg_status msg (Endpoint.status_word (Err e))) (kernel_of s)) as Hk.
  destruct (write_struct_run (kernel_of s) L ptr (set_msg_status msg (Endpoint.status_word (Err e))) Hum Hp)
    as [(e' & E)|(k' & E & _)]; [apply message_size|..]; rewrite E in Hk |- *;
    (eexists; split; [reflexivity|by apply calm_put]).
Qed.

(** [kquery] under a [catch] goes on unchanged or ends there. *)
Lemma catch_cases {A} (f : kernel → result A) (h : err → M T unit) s (Q : err → T → Prop) :
  defined (f (kernel_of s)) → (∀ e, f (kernel_of s) = Err e → ∃ s', h e s = (Ok tt, s') ∧ Q e s') →
  (∃ a, f (kernel_of s) = Ok a ∧ catch (kquery f) h s = (Ok a, s)) ∨
  (∃ e s', f (kernel_of s) = Err e ∧ catch (kquery f) h s = (Err e, s') ∧ Q e s').
Proof.
  intros Hd Hh. unfold catch, kquery, query. destruct (f (kernel_of s)) as [a|e|]; [left; by exists a| |done].
  destruct (Hh e eq_refl) as (s' & E & HQ). right. exists e, s'. unfold recover, fail. by rewrite E.
Qed.
End calm.

(** ** What is delivered *)

(** A range user code may write (or read). *)
Definition user_range (k : kernel) (w : bool) (p n : Z) : Prop :=
  0 < n ∧ SCDK_USER_VIRT_BASE <= p ∧ p + n <= SCDK_USER_VIRT_TOP ∧ ∀ v, p <= v < p + n → user_byte k w v.

(** The request made of a user's message: the message handed to the handler and
    the contents of the kernel's buffer. *)
Inductive request_of (buffer : Z) (k : kernel) (m : scdk_message)
  : scdk_message * option (list Z) → Prop :=
  | request_buffer bytes :
      carries_buffer (msg_type m) = true →
      0 < msg_arg1 m <= SCDK_USER_IPC_MAX_WRITE → msg_arg0 m ≠ 0 →
      scdk_user_copy_from k (msg_arg0 m) (msg_arg1 m) = Ok bytes →
      (msg_type m = SCDK_MSG_LISTDIR → user_range k true (msg_arg2 m) (msg_arg3 m)) →
      request_of buffer k m
        (set_msg_args m buffer (msg_arg1 m) (msg_arg2 m) (msg_arg3 m), Some (bytes ++ [0]))
  | request_read :
      msg_type m = SCDK_MSG_READ →
      (msg_target m = SCDK_SERVICE_VFS → user_range k true (msg_arg2 m) (msg_arg3 m)) →
      request_of buffer k m (m, None)
  | request_plain : passes_plain (msg_type m) = true → request_of buffer k m (m, None).

(** The caller holds SEND on the endpoint, and the message names the service that
    is registered under the very capability it is sent through. *)
Record authorised (k : kernel) (ep ptr : Z) (m : scdk_message) : Prop := {
  au_send : is_Ok (scdk_cap_check k ep SCDK_RIGHT_SEND SCDK_OBJ_ENDPOINT);
  au_message : read_struct k ptr = Ok m;
  au_service : scdk_service_lookup k (msg_target m) = Ok ep
}.

Section admission.
Context {T : Type} `{HasMachine T} (buffer : Z).
Implicit Types (s : T) (L : gmap Z label) (ptr ep : Z) (m : scdk_message).

Lemma validate_range_user k w p n : u64 p → u64 n →
  scdk_user_validate_range k p n w = Ok tt ↔ user_range k w p n.
Proof. intros Hp Hn. apply (validate_range_spec k p n w Hp Hn). Qed.

Lemma message_fields m :
  struct_ok m → u64 (msg_arg0 m) ∧ u64 (msg_arg1 m) ∧ u64 (msg_arg2 m) ∧ u64 (msg_arg3 m).
Proof. unfold struct_ok. simpl. rewrite !Forall_cons. tauto. Qed.

Lemma target_valid k ep m :
  defined (validate_user_message_target k ep m) ∧
  (validate_user_message_target k ep m = Ok tt ↔ scdk_service_lookup k (msg_target m) = Ok ep).
Proof.
  unfold validate_user_message_target. rewrite service_lookup_spec. unfold spec_lookup.
  destruct (msg_target m =? SCDK_SERVICE_NONE); [done|]. cbn [rguard rbind].
  destruct (registry k !! msg_target m) as [c|]; [|done]. cbn [rbind].
  destruct (Z.eqb_spec c ep) as [->|Hne]; [done|]. split; [done|]. split; [done|]. by intros [= ->].
Qed.

(** The buffer [arg2], [arg3] a handler will fill in. *)
Lemma validate_reply_cases L ptr m s :
  user_memory (kernel_of s) L → u64 ptr → u64 (msg_arg2 m) → u64 (msg_arg3 m) →
  (user_range (kernel_of s) true (msg_arg2 m) (msg_arg3 m) ∧ validate_reply_buffer ptr m s = (Ok tt, s)) ∨
  (∃ e s', ¬ user_range (kernel_of s) true (msg_arg2 m) (msg_arg3 m) ∧
     validate_reply_buffer ptr m s = (Err e, s') ∧ calm s s' ∧ faulted (err_code e) s').
Proof.
  intros Hum Hp H2 H3.
  destruct (validate_range_spec (kernel_of s) _ _ true H2 H3) as [Hd Hv].
  destruct (catch_cases (λ k, scdk_user_validate_range k (msg_arg2 m) (msg_arg3 m) true)
    (λ e, reply_error ptr m e ;; onmach (scdk_fault_handle_bad_user_pointer (err_code e))) s
    (λ e s', calm s s' ∧ faulted (err_code e) s')) as [([] & E & Hrun)|(e & s' & E & Hrun & Hc)]; [done| | |].
  - intros e _. destruct (reply_error_run L ptr m e s Hum Hp) as (s1 & E1 & C1).
    destruct (bad_pointer_run (err_code e) s1) as (s2 & E2 & C2 & F2).
    exists s2. rewrite (bind_Ok _ _ _ _ _ E1), E2. split; [done|]. split; [by transitivity s1|done].
  - left. split; [by apply Hv|done].
  - right. exists e, s'. split; [|done]. intros Hr%Hv. congruence.
Qed.

Lemma prepare_buffer_Ok k m r :
  struct_ok m →
  prepare_user_buffer_arg k m buffer (SCDK_USER_IPC_MAX_WRITE + 1) = Ok r ↔
  carries_buffer (msg_type m) = true ∧ 0 < msg_arg1 m <= SCDK_USER_IPC_MAX_WRITE ∧ msg_arg0 m ≠ 0 ∧
  ∃ bytes, scdk_user_copy_from k (msg_arg0 m) (msg_arg1 m) = Ok bytes ∧
    r = (set_msg_args m buffer (msg_arg1 m) (msg_arg2 m) (msg_arg3 m), bytes ++ [0]).
Proof.
  intros (_ & H1 & _)%message_fields. unfold prepare_user_buffer_arg, SCDK_USER_IPC_MAX_WRITE, u64 in *. split.
  - intros E. minv E. bsplit. split_and!; [done|lia|lia|done|]. eexists. split; [done|]. done.
  - intros (Hc & Hl & H0 & bytes & Hb & ->). rewrite Hc, Hb. simpl.
    rewrite (proj2 (Z.eqb_neq _ _) H0), (proj2 (Z.eqb_neq (msg_arg1 m) 0)) by lia.
    rewrite (proj2 (Z.ltb_ge _ _)) by lia. done.
Qed.
Lemma prepare_buffer_defined k m n :
  cr3_synced k → struct_ok m → defined (prepare_user_buffer_arg k m buffer n).
Proof.
  intros Hc (H0 & H1 & _)%message_fields. unfold prepare_user_buffer_arg.
  apply rbind_defined; [apply rguard_defined|intros _ _]. apply rbind_defined; [apply rguard_defined|intros _ _].
  apply rbind_defined; [by apply copy_from_defined|done].
Qed.

(** What the switch does with a message: it makes the one request the message
    describes, or refuses. *)
Definition prepared ptr m s : Prop :=
  (∃ req, request_of buffer (kernel_of s) m req ∧ prepare_request buffer ptr m s = (Ok req, s)) ∨
  (∃ e s', (∀ req, ¬ request_of buffer (kernel_of s) m req) ∧
     prepare_request buffer ptr m s = (Err e, s') ∧ calm s s').

Lemma carries_not_plain type : carries_buffer type = true → passes_plain type = true → False.
Proof.
  intros Hc Hpl. unfold passes_plain in Hpl.
  repeat (apply orb_true_iff in Hpl as [Hpl|Hpl]); apply Z.eqb_eq in Hpl; by rewrite Hpl in Hc.
Qed.

Lemma buffer_request_inv k m req :
  carries_buffer (msg_type m) = true → struct_ok m → request_of buffer k m req →
  (∃ r, prepare_user_buffer_arg k m buffer (SCDK_USER_IPC_MAX_WRITE + 1) = Ok r) ∧
  (msg_type m = SCDK_MSG_LISTDIR → user_range k true (msg_arg2 m) (msg_arg3 m)).
Proof.
  intros Hc Hm Hr. destruct Hr as [bytes Ht Hl Hz Hb Hdir|Hread _|Hpl]; [|by rewrite Hread in Hc|].
  - split; [|done]. eexists. apply prepare_buffer_Ok; [done|]. eauto 10.
  - by destruct (carries_not_plain (msg_type m)).
Qed.

Lemma buffer_request_cases L ptr m s :
  user_memory (kernel_of s) L → u64 ptr → struct_ok m → carries_buffer (msg_type m) = true → prepared ptr m s.
Proof.
  intros Hum Hp Hm Hc. pose proof (message_fields m Hm) as (_ & _ & H2 & H3).
  unfold prepared, prepare_request. rewrite Hc.
  destruct (catch_cases (λ k, prepare_user_buffer_arg k m buffer (SCDK_USER_IPC_MAX_WRITE + 1))
    (λ e, reply_error ptr m e ;;
      if bool_decide (e = SCDK_ERR_BOUNDS ∨ e = SCDK_ERR_NOENT ∨ e = SCDK_ERR_PERM)
      then onmach (scdk_fault_handle_bad_user_pointer (err_code e)) else ret tt) s
    (λ _ s', calm s s')) as [(r & E & Hrun)|(e & s' & E & Hrun & Hcalm)].
  - apply prepare_buffer_defined; [apply (um_synced _ _ Hum)|done].
  - intros e _. destruct (reply_error_run L ptr m e s Hum Hp) as (s1 & E1 & C1).
    rewrite (bind_Ok _ _ _ _ _ E1). case_bool_decide; [|by exists s1].
    destruct (bad_pointer_run (err_code e) s1) as (s2 & E2 & C2 & _). exists s2.
    split; [done|by transitivity s1].
  - rewrite (bind_Ok _ _ _ _ _ Hrun). apply prepare_buffer_Ok in E as (_ & Hl & Hz & bytes & Hb & ->); [|done].
    destruct (Z.eqb_spec (msg_type m) SCDK_MSG_LISTDIR) as [Hd|Hd].
    + edestruct (validate_reply_cases L ptr (set_msg_args m buffer (msg_arg1 m) (msg_arg2 m) (msg_arg3 m)) s)
        as [[Hr E2]|(e & s' & Hr & E2 & Hcalm & _)]; [done..| |].
      * left. rewrite (bind_Ok _ _ _ _ _ E2). eexists. split; [|done]. by apply request_buffer.
      * right. exists e, s'. rewrite (bind_Err _ _ _ _ _ E2). split; [|done].
        intros req [_ Hn]%buffer_request_inv; [|done..]. by apply Hr, Hn.
    + left. rewrite bind_ret. eexists. split; [|done]. by apply request_buffer.
  - right. exists e, s'. rewrite (bind_Err _ _ _ _ _ Hrun). split; [|done].
    intros req [[r Hr] _]%buffer_request_inv; [congruence|done..].
Qed.

Lemma plain_request_cases L ptr m s :
  user_memory (kernel_of s) L → u64 ptr → struct_ok m → carries_buffer (msg_type m) = false → prepared ptr m s.
Proof.
  intros Hum Hp Hm Hc. pose proof (message_fields m Hm) as (_ & _ & H2 & H3).
  unfold prepared, prepare_request. rewrite Hc.
  assert (∀ req, request_of buffer (kernel_of s) m req →
    (msg_type m = SCDK_MSG_READ ∧ (msg_target m = SCDK_SERVICE_VFS →
       user_range (kernel_of s) true (msg_arg2 m) (msg_arg3 m))) ∨ passes_plain (msg_type m) = true) as Hreq.
  { intros req Hr. destruct Hr as [bytes Ht|Hread Hv|Hpl]; [congruence|by left|by right]. }
  destruct (Z.eqb_spec (msg_type m) SCDK_MSG_READ) as [Hr|Hr].
  - destruct (Z.eqb_spec (msg_target m) SCDK_SERVICE_VFS) as [Hv|Hv].
    + destruct (validate_reply_cases L ptr m s) as [[Hg E]|(e & s' & Hg & E & Hcalm & _)]; [done..| |].
      * left. rewrite (bind_Ok _ _ _ _ _ E). eexists. split; [|done]. by apply request_read.
      * right. exists e, s'. rewrite (bind_Err _ _ _ _ _ E). split; [|done].
        intros req [[_ Hn]|Hp']%Hreq; [by apply Hg, Hn|by rewrite Hr in Hp'].
    + left. rewrite bind_ret. eexists. split; [|done]. by apply request_read.
  - destruct (passes_plain (msg_type m)) eqn:Hpl; [left; eexists; split; [|done]; by apply request_plain|].
    right. destruct (reply_error_run L ptr m SCDK_ERR_NOTSUP s Hum Hp) as (s1 & E1 & C1).
    exists SCDK_ERR_NOTSUP, s1. rewrite (bind_Ok _ _ _ _ _ E1). split; [|done].
    intros req [[? _]|?]%Hreq; congruence.
Qed.

Lemma prepare_request_cases L ptr m s :
  user_memory (kernel_of s) L → u64 ptr → struct_ok m → prepared ptr m s.
Proof.
  intros Hum Hp Hm. destruct (carries_buffer (msg_type m)) eqn:Hc;
    [by eapply buffer_request_cases|by eapply plain_request_cases].
Qed.

(** The three checks before the switch. *)
Lemma authorise_cases (invoke : option (list Z) → handler_on T) L ep ptr s :
  kernel_wf (kernel_of s) → user_memory (kernel_of s) L → u64 ptr →
  (∃ m, authorised (kernel_of s) ep ptr m ∧ struct_ok m ∧
     scdk_sys_endpoint_call invoke buffer ep ptr s =
       (let* request := prepare_request buffer ptr m in deliver invoke ep ptr request) s) ∨
  (∃ e s', (∀ m, ¬ authorised (kernel_of s) ep ptr m) ∧
     (∀ invoke', scdk_sys_endpoint_call invoke' buffer ep ptr s = (Err e, s')) ∧ calm s s' ∧
     faulted (err_code e) s').
Proof.
  intros Hwf Hum Hp. unfold scdk_sys_endpoint_call.
  destruct (catch_cases (λ k, scdk_cap_check k ep SCDK_RIGHT_SEND SCDK_OBJ_ENDPOINT)
    (λ e, onmach (scdk_fault_handle_capability_failure (err_code e))) s
    (λ e s', calm s s' ∧ faulted (err_code e) s')) as [(en & E & Hrun)|(e & s' & E & Hrun & Hq)];
    [apply cap_check_defined, Hwf|intros e _; apply capability_failure_run| |].
  2:{ right. exists e, s'. split; [intros m [[? Hs] _ _]; congruence|]. split; [|done].
      intros invoke'. by rewrite (bind_Err _ _ _ _ _ Hrun). }
  rewrite (bind_Ok _ _ _ _ _ Hrun).
  destruct (catch_cases (λ k, read_struct (A:=scdk_message) k ptr)
    (λ e, onmach (scdk_fault_handle_bad_user_pointer (err_code e))) s
    (λ e s', calm s s' ∧ faulted (err_code e) s')) as [(m & Em & Hrun2)|(e & s' & Em & Hrun2 & Hq)];
    [apply read_struct_defined; [apply (um_synced _ _ Hum)|done|apply message_size]|
     intros e _; apply bad_pointer_run| |].
  2:{ right. exists e, s'. split; [intros m [_ Hs _]; congruence|]. split; [|done].
      intros invoke'. by rewrite (bind_Ok _ _ _ _ _ Hrun), (bind_Err _ _ _ _ _ Hrun2). }
  rewrite (bind_Ok _ _ _ _ _ Hrun2). destruct (target_valid (kernel_of s) ep m) as [Hd Hv].
  destruct (catch_cases (λ k, validate_user_message_target k ep m)
    (λ e, reply_error ptr m e ;; onmach (scdk_fault_handle_capability_failure (err_code e))) s
    (λ e s', calm s s' ∧ faulted (err_code e) s')) as [([] & Et & Hrun3)|(e & s' & Et & Hrun3 & Hq)]; [done| | |].
  - intros e _. destruct (reply_error_run L ptr m e s Hum Hp) as (s1 & E1 & C1).
    destruct (capability_failure_run (err_code e) s1) as (s2 & E2 & C2 & F2).
    exists s2. rewrite (bind_Ok _ _ _ _ _ E1), E2. split; [done|]. split; [by transitivity s1|done].
  - left. exists m. rewrite (bind_Ok _ _ _ _ _ Hrun3). apply read_struct_Ok in Em as Hm. split; [|by split; [apply Hm|]].
    split; [by exists en|done|by apply Hv].
  - right. exists e, s'. split; [|split; [|done]].
    + intros m' [_ Hm' Ha]. rewrite Em in Hm'. injection Hm' as <-. apply Hv in Ha. congruence.
    + intros invoke'. by rewrite (bind_Ok _ _ _ _ _ Hrun), (bind_Ok _ _ _ _ _ Hrun2), (bind_Err _ _ _ _ _ Hrun3).
Qed.
End admission.

(** ** Requests *)
Section request_facts.
Implicit Types (k : kernel) (m : scdk_message).

Lemma request_unique b k m r1 r2 : request_of b k m r1 → request_of b k m r2 → r1 = r2.
Proof.
  intros [bs1 Hc1 _ _ Hb1 _|Hr1 _|Hp1] [bs2 Hc2 _ _ Hb2 _|Hr2 _|Hp2]; try done.
  - rewrite Hb1 in Hb2. by injection Hb2 as ->.
  - by rewrite Hr2 in Hc1.
  - by destruct (carries_not_plain (msg_type m)).
  - by rewrite Hr1 in Hc2.
  - by destruct (carries_not_plain (msg_type m)).
Qed.

Lemma request_buffer_arg b k m msg bytes :
  struct_ok m → u64 b → request_of b k m (msg, Some bytes) → msg_arg0 msg = b ∧ struct_ok msg.
Proof.
  intros Hm Hb Hr. inversion Hr as [bs Hc Hl Hz Hcopy Hd Em| |]; subst. split; [done|].
  unfold struct_ok in *. simpl in *. rewrite !Forall_cons in *. tauto.
Qed.

Lemma object_lookup_u64 k id o : objects_wf (k_objs k) → scdk_object_lookup k id = Ok o → u64 id.
Proof.
  intros Hwf (i & Hi & Hty & Hid & Hg & Hne & Hindex)%object_lookup_Ok.
  destruct (owf_live _ Hwf i o Hi Hty) as (_ & Ho & Hgen). rewrite <-Hid, Ho.
  apply object_make_id_u64; [|by eapply owf_gens_u32]. apply lookup_lt_Some in Hi.
  rewrite (owf_table_length _ Hwf) in Hi. by apply (table_index_u32 _ SCDK_MAX_OBJECTS).
Qed.
Lemma endpoint_target_u64 k ep oid h ctx : kernel_wf k → endpoint_target k ep = Ok (oid, h, ctx) → u64 oid.
Proof.
  intros Hwf (e & o & i & _ & _ & Ho & _)%endpoint_target_Ok. eapply object_lookup_u64; [apply Hwf|done].
Qed.

Lemma status_word_u64 st : u64 (Endpoint.status_word st).
Proof. destruct st as [[]|e|]; [done| |done]. apply Z.mod_pos_bound. done. Qed.

Lemma write_struct_accepts {A} `{UserStruct A} k p (x : A) e :
  u64 p → u64 (struct_size A) → user_range k true p (struct_size A) → write_struct p x k ≠ (Err e, k).
Proof.
  intros Hp Hs Hr Ew. pose proof Hr as (Hpos & _). apply validate_range_user in Hr; [|done..].
  unfold write_struct, scdk_user_copy_to in Ew. rewrite bind_guard in Ew by (apply Z.eqb_neq; lia).
  rewrite (bind_query _ _ _ tt) in Ew by done. revert Ew.
  assert (∀ n v src k k', user_store v src n k ≠ (Err e, k')) as Hno; [|apply Hno].
  intros n. induction n as [|n IH]; intros v src k1 k2; [by destruct src|].
  destruct src as [|b src]; [done|]. cbn [user_store]. unfold bind at 1, query. unfold mmu_write.
  destruct (pte _ _ _); [|done..]. cbv zeta. destruct (_ =? 0); [done|]. rewrite bind_modify. apply IH.
Qed.
End request_facts.

(** ** The theorems *)
Section theorems.
Context {T : Type} `{HasMachine T}.
Implicit Types (s : T) (L : gmap Z label).

Lemma deliver_run invoke ep ptr req s reply st s1 L :
  scdk_endpoint_call (invoke req.2) ep req.1 s = (Ok (reply, st), s1) →
  user_memory (kernel_of s1) L → u64 ptr →
  (∃ s', deliver invoke ep ptr req s = (st, s') ∧
     (range_distinct (kernel_of s1) ptr (struct_size scdk_message) →
      struct_ok (set_msg_status reply (Endpoint.status_word st)) →
      read_struct (kernel_of s') ptr = Ok (set_msg_status reply (Endpoint.status_word st)))) ∨
  (∃ e, write_struct ptr (set_msg_status reply (Endpoint.status_word st)) (kernel_of s1) = (Err e, kernel_of s1) ∧
     deliver invoke ep ptr req s = (Err SCDK_ERR_PERM, put_machine (set_kernel (kernel_of s1) (the_machine s1)) s1)).
Proof.
  intros Hrun Hum Hp. unfold deliver. rewrite (bind_Ok _ _ _ _ _ Hrun). cbn [fst snd].
  unfold bind, attempt. rewrite onkern_run.
  destruct (write_struct_run (kernel_of s1) L ptr (set_msg_status reply (Endpoint.status_word st)) Hum Hp message_size)
    as [(e & E)|(k' & E & Hs & Hr & _)]; rewrite E; [right; by exists e|left].
  eexists. split; [reflexivity|]. intros Hd Hx. rewrite kernel_put. by apply Hr.
Qed.

(** Delivered or refused. *)
Lemma user_call_cases (invoke : option (list Z) → handler_on T) (buffer ep ptr : Z) s L
  (Hwf : kernel_wf (kernel_of s)) (Hum : user_memory (kernel_of s) L) (Hp : u64 ptr) :
  (∃ m req, authorised (kernel_of s) ep ptr m ∧ request_of buffer (kernel_of s) m req ∧
     scdk_sys_endpoint_call invoke buffer ep ptr s = deliver invoke ep ptr req s) ∨
  (∃ e s', (∀ invoke', scdk_sys_endpoint_call invoke' buffer ep ptr s = (Err e, s')) ∧ calm s s' ∧
     (∀ m req, authorised (kernel_of s) ep ptr m → ¬ request_of buffer (kernel_of s) m req) ∧
     ((∀ m, ¬ authorised (kernel_of s) ep ptr m) → faulted (err_code e) s')).
Proof.
  destruct (authorise_cases buffer invoke L ep ptr s Hwf Hum Hp)
    as [(m & Ha & Hm & E)|(e & s' & Hno & E & Hc & Hf)].
  2:{ right. exists e, s'. split_and!; [done|done| |done]. intros m req Hm. by destruct (Hno m). }
  assert (∀ m', authorised (kernel_of s) ep ptr m' → m' = m) as Huniq.
  { intros m' [_ Hm' _]. destruct Ha as [_ Hm0 _]. congruence. }
  destruct (prepare_request_cases buffer L ptr m s Hum Hp Hm) as [(req & Hr & Er)|(e & s' & Hno & Er & Hc)].
  - left. exists m, req. split_and!; [done|done|]. by rewrite E, (bind_Ok _ _ _ _ _ Er).
  - right. exists e, s'. split_and!; [|done| |].
    + intros invoke'. destruct (authorise_cases buffer invoke' L ep ptr s Hwf Hum Hp)
        as [(m' & Ha' & _ & E')|(? & ? & Hno' & _)]; [|by destruct (Hno' m)].
      rewrite (Huniq m' Ha') in E'. by rewrite E', (bind_Err _ _ _ _ _ Er).
    + intros m' req Ha'. rewrite (Huniq m' Ha'). apply Hno.
    + intros Hnone. by destruct (Hnone m).
Qed.

(** C15. An endpoint call from user mode runs a handler only for an authorised
    and well-formed request. Either the caller holds SEND on the endpoint, the
    message can be read, it names the service registered under that same
    capability and describes a request, and then exactly that request is
    delivered; or no handler runs, an error is returned, and nothing changes except
    user memory, user tasks and the fault record, the program being marked faulted
    when it was not authorised. A request has a supported type; for a type with a
    buffer argument, 1 to 256 readable bytes, of which the handler gets a private
    copy with a terminating zero; a writable reply buffer for a listing and for a
    READ addressed to the VFS. The reply buffer of a READ addressed to any other
    service is not checked: such a message is delivered as it is. *)
Theorem user_call_admission (invoke : option (list Z) → handler_on T) (buffer ep ptr : Z) s L
  (Hwf : kernel_wf (kernel_of s)) (Hum : user_memory (kernel_of s) L) (Hp : u64 ptr) :
  ((∃ m req, authorised (kernel_of s) ep ptr m ∧ request_of buffer (kernel_of s) m req ∧
     scdk_sys_endpoint_call invoke buffer ep ptr s = deliver invoke ep ptr req s) ∨
   (∃ e s', (∀ invoke', scdk_sys_endpoint_call invoke' buffer ep ptr s = (Err e, s')) ∧ calm s s' ∧
     (∀ m req, authorised (kernel_of s) ep ptr m → ¬ request_of buffer (kernel_of s) m req) ∧
     ((∀ m, ¬ authorised (kernel_of s) ep ptr m) → faulted (err_code e) s'))) ∧
  ∀ m, authorised (kernel_of s) ep ptr m → msg_type m = SCDK_MSG_READ → msg_target m ≠ SCDK_SERVICE_VFS →
    scdk_sys_endpoint_call invoke buffer ep ptr s = deliver invoke ep ptr (m, None) s.
Proof.
  pose proof (user_call_cases invoke buffer ep ptr s L Hwf Hum Hp) as Hcases. split; [done|].
  intros m Hm Hty Htg. assert (request_of buffer (kernel_of s) m (m, None)) as Hr by (by apply request_read).
  destruct Hcases as [(m' & req & Hm' & Hr' & E)|(e & s' & _ & _ & Hno & _)]; [|by destruct (Hno m (m, None))].
  assert (m' = m) as -> by (destruct Hm as [_ E1 _], Hm' as [_ E2 _]; congruence).
  destruct Hr' as [bytes Hc| |]; [by rewrite Hty in Hc|done..].
Qed.

(** A message with a buffer gives away a kernel address: when a handler
    answers such a message and leaves its first argument alone, the message user
    code reads back has the address of the kernel's copy of the buffer, which is
    on the kernel stack, in place of the pointer the program had put there. *)
Theorem user_call_reveals_buffer (invoke : option (list Z) → handler_on T) (buffer ep ptr : Z)
  (m msg : scdk_message) (bytes : list Z) (st : result unit) s L
  (Hwf : kernel_wf (kernel_of s)) (Hum : user_memory (kernel_of s) L) (Hp : u64 ptr) (Hb : u64 buffer)
  (Hau : authorised (kernel_of s) ep ptr m) (Hreq : request_of buffer (kernel_of s) m (msg, Some bytes))
  (Htarget : is_Ok (endpoint_target (kernel_of s) ep))
  (Hmsg : user_range (kernel_of s) true ptr (struct_size scdk_message))
  (Hdist : range_distinct (kernel_of s) ptr (struct_size scdk_message))
  (Hst : defined st) (Hh : ∀ h msg' context, invoke (Some bytes) h ep msg' context s = (Ok (msg', st), s)) :
  ∃ s' reply, scdk_sys_endpoint_call invoke buffer ep ptr s = (st, s') ∧
    read_struct (kernel_of s') ptr = Ok reply ∧ msg_arg0 reply = buffer.
Proof.
  destruct (authorise_cases buffer invoke L ep ptr s Hwf Hum Hp) as [(m' & Ha & Hm & E)|(? & ? & Hno & _)];
    [|by destruct (Hno m)].
  assert (m' = m) as -> by (destruct Ha as [_ H1 _], Hau as [_ H2 _]; congruence).
  destruct (prepare_request_cases buffer L ptr m s Hum Hp Hm) as [(req & Hr & Er)|(? & ? & Hno & _)];
    [|by destruct (Hno _ Hreq)].
  pose proof (request_unique _ _ _ _ _ Hr Hreq) as ->. apply request_buffer_arg in Hreq as (Hmb & Hmok); [|done..].
  rewrite E, (bind_Ok _ _ _ _ _ Er). destruct Htarget as [[[oid h] ctx] Ht].
  pose proof (endpoint_target_u64 _ _ _ _ _ Hwf Ht) as Hoid.
  set (reply := set_msg_status (set_msg_target msg oid) (Endpoint.status_word st)).
  assert (scdk_endpoint_call (invoke (msg, Some bytes).2) ep (msg, Some bytes).1 s = (Ok (reply, st), s)) as Hcall.
  { unfold scdk_endpoint_call. rewrite Ht. cbn [fst snd]. by rewrite (bind_Ok _ _ _ _ _ (Hh _ _ _)). }
  destruct (deliver_run _ _ _ _ _ _ _ _ L Hcall Hum Hp) as [(s' & Ed & Hread)|(e & Ew & _)].
  - exists s'. eexists. split; [done|]. split; [apply Hread; [done|]|done].
    unfold struct_ok in Hmok |- *. simpl in Hmok |- *. rewrite !Forall_cons in Hmok |- *.
    destruct Hmok as (? & ? & ? & ? & ? & ? & ? & ? & ?). split_and!; try done. by apply status_word_u64.
  - by destruct (write_struct_accepts (A:=scdk_message) (kernel_of s) ptr _ e Hp message_size Hmsg Ew).
Qed.
End theorems.

(** ** Witnesses

    The user page of [demo_mapped] with a message in it, and a console endpoint
    that is registered. *)
Definition demo_served : kernel :=
  ((let* c := scdk_endpoint_create 0 (Some console_endpoint_handler) 7 in
    scdk_service_register SCDK_SERVICE_CONSOLE c) demo_mapped).2.
Definition demo_message : scdk_message :=
  mk_message 26952 SCDK_SERVICE_CONSOLE SCDK_MSG_WRITE 4194368 2 0 0 0.
Definition demo_posted : kernel := (write_struct 4194368 demo_message demo_served).2.
Definition machine_of (k : kernel) : machine :=
  mk_machine k (mk_syscall_state 0 0 0 0 0 0 0 0 0 0 0 false false false 0) true []
    tss_zero true [] true false false false ∅.

Lemma run_unique {S A} (o : M S A) s r1 s1 r2 s2 : o s = (r1, s1) → o s = (r2, s2) → r1 = r2 ∧ s1 = s2.
Proof. intros -> [= -> ->]. done. Qed.

Section demo.
Implicit Types (k : kernel) (L : gmap Z label).

Lemma reach_vmm k k' idxs : k_vmm k' = k_vmm k → ∀ t, reach k' t idxs = reach k t idxs.
Proof.
  intros E. induction idxs as [|i idxs IH]; intros t; [done|]. cbn [reach].
  assert (load64 k' (t + 8 * i) = load64 k (t + 8 * i)) as -> by (unfold load64; by rewrite E).
  destruct (walk_entry _); [|done..]. apply IH.
Qed.
Lemma pte_vmm k k' root v : k_vmm k' = k_vmm k → pte k' root v = pte k root v.
Proof.
  intros E. unfold pte. rewrite (reach_vmm k k') by done. destruct (reach _ _ _); [|done..]. simpl.
  unfold load64. by rewrite E.
Qed.
Lemma virt_to_phys_vmm k k' v :
  k_vmm k' = k_vmm k → scdk_vmm_virt_to_phys k' v = scdk_vmm_virt_to_phys k v.
Proof.
  intros E. unfold scdk_vmm_virt_to_phys. rewrite E.
  apply pte_same_translation; [by rewrite E|by apply pte_vmm].
Qed.
Lemma user_memory_vmm k k' L :
  k_vmm k' = k_vmm k → k_pmm k' = k_pmm k → user_memory k L → user_memory k' L.
Proof.
  intros Ev Ep [HT Hc Hd]. split.
  - apply (typed_memory_same k); [done|done|rewrite Ep; apply HT..].
  - unfold cr3_synced. by rewrite Ev.
  - intros v t Hv (t' & Ht' & Hu) Ht. rewrite (virt_to_phys_vmm k k') in Ht, Ht' by done.
    apply (Hd v); [done|by exists t'|done].
Qed.

(** Nothing but the page is mapped. *)
Lemma demo_user_bytes v t :
  0 <= v < SCDK_USER_VIRT_TOP → scdk_vmm_virt_to_phys demo_mapped v = Ok t → 4194304 <= v < 4198400.
Proof.
  intros Hv E. destruct (decide (4194304 <= v < 4198400)) as [|Hout]; [done|exfalso].
  assert (u64 4194304 ∧ 0 <= 69632 < phys_limit ∧ u64 3) as (H1 & H2 & H3)
    by (unfold u64, two64, phys_limit; lia).
  destruct (map_page_state _ _ _ _ _ _ _ _ demo_vm_typed demo_root H1 H2 H3 demo_map_runs)
    as (L & _ & _ & _ & Hother & _).
  unfold scdk_vmm_virt_to_phys in E. change (active_cr3_phys (k_vmm demo_mapped)) with 1048576 in E.
  rewrite virt_to_phys_pte, (Hother 1048576 v demo_root) in E; [|lia|].
  - do 2 minv_step E. minv_step E. assert (∀ a, load64 demo_vm a = 0) as Hz by done.
    unfold pte, path in E2. cbn [reach] in E2. by rewrite Hz in E2.
  - left. unfold page_bits, SCDK_USER_VIRT_TOP in *.
    rewrite (Z.mod_small (v / 4096)) by (split; [apply Z.div_pos|apply Z.div_lt_upper_bound]; lia).
    change (4194304 / 4096 mod 68719476736) with 1024. intros Heq.
    pose proof (Z.div_mod v 4096 ltac:(done)). pose proof (Z.mod_pos_bound v 4096 ltac:(done)). lia.
Qed.

Lemma demo_mapped_memory :
  ∃ L, user_memory demo_mapped L ∧
    ∀ v, 4194304 <= v < 4198400 → scdk_vmm_virt_to_phys demo_mapped v = Ok (v - 4124672, 3).
Proof.
  destruct demo_user_map as (L & HT & HL & Ht). exists L. split; [|exact Ht]. split; [exact HT|exact demo_synced|].
  intros v t Hv _ E. pose proof (demo_user_bytes v t Hv E) as Hin. rewrite (Ht v Hin) in E.
  injection E as <-. intros l. assert ((v - 4124672, 3).1 - (v - 4124672, 3).1 mod 4096 = 69632) as -> by
    (simpl; Z.to_euclidean_division_equations; lia).
  rewrite HL. intros [= <-]. simpl. lia.
Qed.

Lemma demo_served_kwf : kernel_wf demo_served.
Proof.
  refine (preserves_bind _ _ _ _ _ demo_mapped demo_mapped_kwf); [apply endpoint_create_kwf|intros c].
  apply service_register_kwf.
Qed.

Lemma demo_range_distinct k p n :
  (∀ v, 4194304 <= v < 4198400 → scdk_vmm_virt_to_phys k v = Ok (v - 4124672, 3)) →
  4194304 <= p → p + n <= 4198400 → range_distinct k p n.
Proof.
  intros Ht Hp Hn v v' t t' Hv Hv' E E'. rewrite Ht in E, E' by lia. injection E as <-. injection E' as <-.
  simpl. lia.
Qed.
Lemma demo_user_range k p n :
  (∀ v, 4194304 <= v < 4198400 → scdk_vmm_virt_to_phys k v = Ok (v - 4124672, 3)) →
  4194304 <= p → 0 < n → p + n <= 4198400 → user_range k true p n.
Proof.
  intros Ht Hp H0 Hn. unfold user_range, SCDK_USER_VIRT_BASE, SCDK_USER_VIRT_TOP. split_and!; [lia..|].
  intros v Hv. exists (v - 4124672, 3). split; [apply Ht; lia|]. split; [discriminate|intros _; discriminate].
Qed.

Lemma demo_served_memory :
  ∃ L, user_memory demo_served L ∧
    ∀ v, 4194304 <= v < 4198400 → scdk_vmm_virt_to_phys demo_served v = Ok (v - 4124672, 3).
Proof.
  destruct demo_mapped_memory as (L & Hum & Ht). exists L.
  assert (k_vmm demo_served = k_vmm demo_mapped) as Ev by (vm_compute; reflexivity).
  assert (k_pmm demo_served = k_pmm demo_mapped) as Ep by (vm_compute; reflexivity).
  split; [exact (user_memory_vmm _ _ L Ev Ep Hum)|]. intros v Hv.
  rewrite (virt_to_phys_vmm _ _ v Ev). exact (Ht v Hv).
Qed.
Lemma demo_posted_memory :
  kernel_wf demo_posted ∧ read_struct demo_posted 4194368 = Ok demo_message ∧
  ∃ L, user_memory demo_posted L ∧
    ∀ v, 4194304 <= v < 4198400 → scdk_vmm_virt_to_phys demo_posted v = Ok (v - 4124672, 3).
Proof.
  destruct demo_served_memory as (L & Hum & Ht). split.
  { exact (core_tables_kwf _ _ (write_struct_core 4194368 demo_message demo_served) demo_served_kwf). }
  assert (u64 4194368) as Hp by (unfold u64, two64; lia).
  assert (write_struct 4194368 demo_message demo_served = (Ok tt, demo_posted)) as Hrun
    by (apply run_to; [reflexivity|vm_compute; reflexivity]).
  destruct (write_struct_run demo_served L 4194368 demo_message Hum Hp message_size)
    as [(e & E)|(k' & E & Hs & Hr & _)]; destruct (run_unique _ _ _ _ _ _ Hrun E) as [Er Ek]; [discriminate Er|].
  clear E. subst k'. split.
  - apply Hr; [apply demo_range_distinct; [exact Ht|lia|vm_compute; discriminate]|].
    unfold struct_ok. simpl. repeat (apply Forall_cons; split; [unfold u64, two64; vm_compute; split; [discriminate|reflexivity]|]).
    apply Forall_nil. exact I.
  - exists L. split; [exact (user_memory_step _ _ L Hum Hs)|]. intros v Hv.
    rewrite (mem_step_translate _ _ L v (um_typed _ _ Hum) Hs). exact (Ht v Hv).
Qed.
Lemma demo_posted_authorised : authorised demo_posted 4294967296 4194368 demo_message.
Proof.
  destruct demo_posted_memory as (_ & Hr & _). split; [eexists; vm_compute; reflexivity|exact Hr|vm_compute; reflexivity].
Qed.
Lemma demo_posted_request b :
  request_of b demo_posted demo_message
    (set_msg_args demo_message b 2 0 0, Some [72; 105; 0]).
Proof.
  apply (request_buffer b demo_posted demo_message [72; 105]); [reflexivity|unfold SCDK_USER_IPC_MAX_WRITE; simpl; lia|
    discriminate|vm_compute; reflexivity|discriminate].
Qed.
End demo.

Lemma kernel_machine k : kernel_of (machine_of k) = k.
Proof. reflexivity. Qed.

(** A handler that answers every message. *)
Definition demo_invoke : option (list Z) → handler_on machine := λ _ _ _ msg _, ret (msg, Ok tt).

Lemma user_call_admission_witness :
  ∃ req, scdk_sys_endpoint_call demo_invoke 8192 4294967296 4194368 (machine_of demo_posted) =
    deliver demo_invoke 4294967296 4194368 req (machine_of demo_posted).
Proof.
  destruct demo_posted_memory as (Hwf & _ & L & Hum & _).
  pose proof demo_posted_authorised as Hau. pose proof (demo_posted_request 8192) as Hreq.
  pose proof (kernel_machine demo_posted) as Ek. rewrite <-Ek in Hwf, Hum, Hau, Hreq. clear Ek.
  assert (u64 4194368) as Hp by (unfold u64, two64; lia).
  destruct (user_call_admission demo_invoke 8192 4294967296 4194368 (machine_of demo_posted) L Hwf Hum Hp)
    as [[(m & req & _ & _ & E)|(e & s' & _ & _ & Hno & _)] _]; [exists req; exact E|].
  destruct (Hno _ _ Hau Hreq).
Defined.

Lemma user_call_reveals_buffer_witness :
  ∃ s' reply, scdk_sys_endpoint_call demo_invoke 8192 4294967296 4194368 (machine_of demo_posted) = (Ok tt, s') ∧
    read_struct (kernel_of s') 4194368 = Ok reply ∧ msg_arg0 reply = 8192.
Proof.
  destruct demo_posted_memory as (Hwf & _ & L & Hum & Ht).
  pose proof demo_posted_authorised as Hau. pose proof (demo_posted_request 8192) as Hreq.
  assert (is_Ok (endpoint_target demo_posted 4294967296)) as Htg by (eexists; vm_compute; reflexivity).
  pose proof (kernel_machine demo_posted) as Ek. rewrite <-Ek in Hwf, Hum, Hau, Hreq, Ht, Htg. clear Ek.
  assert (u64 4194368 ∧ u64 8192) as [Hp Hb] by (unfold u64, two64; lia).
  apply (user_call_reveals_buffer demo_invoke 8192 4294967296 4194368 demo_message _ _ (Ok tt)
    (machine_of demo_posted) L Hwf Hum Hp Hb Hau Hreq Htg).
  - apply demo_user_range; [exact Ht|lia|reflexivity|vm_compute; discriminate].
  - apply demo_range_distinct; [exact Ht|lia|vm_compute; discriminate].
  - discriminate.
  - intros h msg' context. reflexivity.
Defined.
