(* ===== verification/UserRing.v ===== *)
(** * User rings ([src/core/user_ring.c])

    A user task creates a ring, binds it to a service endpoint, submits batches
    of descriptors from its memory and polls completions into its memory. A
    submission is followed by a synchronous call of the endpoint, whose handler
    drains the ring. *)
From stdpp Require Import base gmap list numbers relations.
From Stdlib Require Import ZArith Lia.
From S2P Require Import Prelude.
From S2P Require Import Kernel.
From S2P Require Import Object.
From S2P Require Import Capability.
From S2P Require Import Invariant.
From S2P Require Import Endpoint.
From S2P Require Import Ring.
From S2P Require Import Pmm.
From S2P Require Import Vmm.
From S2P Require Import HeapVm.
From S2P Require Import AddressSpace.
From S2P Require Import CString.
From S2P Require Import UserMemory.
From S2P Require Import UserGrant.
From S2P Require Import UserTask.
From S2P Require Import Usermode.
From S2P Require Import UserMessage.

#[local] Open Scope Z_scope.

(** ** Operations *)
Definition validate_count (count : Z) : result unit :=
  rguard ((count =? 0) || (SCDK_RING_MAX_ENTRIES <? count)) SCDK_ERR_BOUNDS.

(** The slot of a ring that belongs to a task. *)
Definition uring_named (source_task ring_cap : Z) (s : scdk_user_ring_slot) : bool :=
  ur_in_use s && (ur_source_task s =? source_task) && (ur_ring_cap s =? ring_cap).
Definition user_ring_slot_for (k : kernel) (source_task ring_cap : Z) : result nat :=
  let? _ := rguard ((source_task =? 0) || (ring_cap =? 0)) SCDK_ERR_INVAL in
  let? _ := scdk_cap_check k source_task SCDK_RIGHT_READ SCDK_OBJ_TASK in
  let? _ := scdk_cap_check k ring_cap SCDK_RIGHT_READ SCDK_OBJ_RING in
  match find_slot (uring_named source_task ring_cap) (k_urings k) with
  | Some i => Ok i
  | None => Err SCDK_ERR_NOENT
  end.

Definition put_uring (i : nat) (s : scdk_user_ring_slot) (k : kernel) : kernel :=
  set_urings (<[i := s]> (k_urings k)) k.
Definition get_uring (k : kernel) (i : nat) : result scdk_user_ring_slot := deref (k_urings k !! i).

Definition scdk_user_ring_create (source_task entries : Z) : K Z :=
  guard (source_task =? 0) SCDK_ERR_INVAL ;;
  lift (validate_count entries) ;;
  query (λ k, scdk_cap_check k source_task SCDK_RIGHT_READ SCDK_OBJ_TASK) ;;
  let* slot := gets (λ k, find_slot (λ s, negb (ur_in_use s)) (k_urings k)) in
  match slot with
  | None => fail SCDK_ERR_NOMEM
  | Some i =>
      let* ring := scdk_ring_create SCDK_BOOT_CORE entries 0 in
      modify (put_uring i (mk_user_ring_slot true source_task ring 0)) ;;
      ret ring
  end.

Definition scdk_user_ring_bind (source_task ring_cap target_endpoint : Z) : K unit :=
  guard (target_endpoint =? 0) SCDK_ERR_INVAL ;;
  let* i := query (λ k, user_ring_slot_for k source_task ring_cap) in
  scdk_ring_bind_target ring_cap target_endpoint ;;
  let* slot := query (λ k, get_uring k i) in
  modify (put_uring i (mk_user_ring_slot (ur_in_use slot) (ur_source_task slot) (ur_ring_cap slot)
            target_endpoint)).

(** The checks that submission and polling share: the slot, with a target that
    can still be called. *)
Definition usable_slot (k : kernel) (source_task ring_cap : Z) : result nat :=
  let? i := user_ring_slot_for k source_task ring_cap in
  let? slot := get_uring k i in
  let? _ := rguard (ur_target_endpoint slot =? 0) SCDK_ERR_BUSY in
  let? _ := scdk_cap_check k (ur_target_endpoint slot) SCDK_RIGHT_SEND SCDK_OBJ_ENDPOINT in
  Ok i.

(** The loop of [scdk_user_ring_submit] from descriptor [i], [n] turns to go. *)
Fixpoint submit_descs (ring_cap user_descs i : Z) (n : nat) : K unit :=
  match n with
  | O => ret tt
  | S n =>
      let* desc := query (λ k, read_struct k (wrap64 (user_descs + i * struct_size scdk_ring_desc))) in
      scdk_ring_submit ring_cap desc ;;
      submit_descs ring_cap user_descs (i + 1) n
  end.

(** [scdk_user_ring_submit] up to the call of the endpoint. *)
Definition submit_batch (source_task ring_cap user_descs count : Z) : K nat :=
  lift (validate_count count) ;;
  guard (user_descs =? 0) SCDK_ERR_INVAL ;;
  let* i := query (λ k, usable_slot k source_task ring_cap) in
  query (λ k, scdk_user_validate_range k user_descs (struct_size scdk_ring_desc * count) false) ;;
  submit_descs ring_cap user_descs 0 (Z.to_nat count) ;;
  ret i.

Definition ring_process_message (source_task ring_cap count : Z) : scdk_message :=
  set_msg_args (scdk_message_init source_task 0 SCDK_MSG_RING_PROCESS) ring_cap count 0 0.

Definition scdk_user_ring_submit {T} `{HasMachine T} (invoke : handler_on T)
    (source_task ring_cap user_descs count : Z) : M T unit :=
  let* i := onkern (submit_batch source_task ring_cap user_descs count) in
  let* slot := query (λ s : T, get_uring (kernel_of s) i) in
  let* reply := scdk_endpoint_call invoke (ur_target_endpoint slot)
                  (ring_process_message source_task ring_cap count) in
  lift reply.2.

(** The loop of [scdk_user_ring_poll]: [n] completions may still be copied. *)
Fixpoint poll_completions (ring_cap user_completions polled : Z) (n : nat) : K Z :=
  match n with
  | O => ret polled
  | S n =>
      let* c := attempt (scdk_ring_poll ring_cap) in
      match c with
      | Ok completion =>
          write_struct (wrap64 (user_completions + polled * struct_size scdk_completion)) completion ;;
          poll_completions ring_cap user_completions (polled + 1) n
      | Err SCDK_ERR_NOENT => ret polled
      | Err e => fail e
      | Ub => ub
      end
  end.

Definition scdk_user_ring_poll (source_task ring_cap user_completions max_count : Z) : K Z :=
  lift (validate_count max_count) ;;
  guard (user_completions =? 0) SCDK_ERR_INVAL ;;
  query (λ k, usable_slot k source_task ring_cap) ;;
  query (λ k, scdk_user_validate_range k user_completions (struct_size scdk_completion * max_count) true) ;;
  poll_completions ring_cap user_completions 0 (Z.to_nat max_count).

(** ** Reading user memory again

    A copy depends on the translations and on the bytes of the range only. *)
Section copies_agree.
Implicit Types k : kernel.

Lemma validate_range_agree k k' p n w :
  (∀ v, scdk_vmm_virt_to_phys k' v = scdk_vmm_virt_to_phys k v) →
  scdk_user_validate_range k' p n w = scdk_user_validate_range k p n w.
Proof.
  intros Ht. unfold scdk_user_validate_range. destruct (checked_user_end p n) as [last|]; [|done].
  generalize (page_of p) as page, (page_turns (page_of p) last) as fuel. intros page fuel. revert page.
  induction fuel as [|f IH]; intros page; [done|].
  cbn [validate_pages]. rewrite Ht. destruct (scdk_vmm_virt_to_phys k page) as [t| |]; [|done..]. cbn [rbind].
  destruct (rguard _ _); [|done..]. cbn [rbind]. destruct (rguard _ _); [|done..]. cbn [rbind].
  destruct (_ <=? _); [done|apply IH].
Qed.

Lemma copy_from_agree k k' p n :
  (∀ v, scdk_vmm_virt_to_phys k' v = scdk_vmm_virt_to_phys k v) → (∀ v, mmu k' v = mmu k v) →
  (∀ v q, p <= v < p + n → mmu k v = Ok q → load_byte k' q = load_byte k q) →
  scdk_user_copy_from k' p n = scdk_user_copy_from k p n.
Proof.
  intros Ht Hm Hb. unfold scdk_user_copy_from. rewrite (validate_range_agree k k') by done.
  destruct (rguard _ _); [|done..]. cbn [rbind]. destruct (scdk_user_validate_range _ _ _ _); [|done..].
  cbn [rbind]. assert (∀ m v, p <= v → v + Z.of_nat m <= p + n ∨ m = O → user_load k' v m = user_load k v m) as Hl.
  { intros m. induction m as [|m IH]; intros v Hv Hm'; [done|]. cbn [user_load]. rewrite Hm.
    destruct (mmu k v) as [q| |] eqn:Eq; [|done..]. cbn [rbind]. rewrite IH by lia.
    rewrite (Hb v q) by (done || lia). done. }
  apply Hl; lia.
Qed.

Lemma read_struct_agree {A} `{UserStruct A} k k' p :
  scdk_user_copy_from k' p (struct_size A) = scdk_user_copy_from k p (struct_size A) →
  read_struct (A:=A) k' p = read_struct k p.
Proof. intros E. unfold read_struct. by rewrite E. Qed.

Lemma mmu_vmm k k' v : k_vmm k' = k_vmm k → mmu k' v = mmu k v.
Proof. intros E. unfold mmu. by rewrite E, (pte_vmm k k') by done. Qed.
Lemma copy_from_vmm k k' p n :
  k_vmm k' = k_vmm k → scdk_user_copy_from k' p n = scdk_user_copy_from k p n.
Proof.
  intros E. apply copy_from_agree; [intros v; by apply virt_to_phys_vmm|intros v; by apply mmu_vmm|].
  intros v q _ _. unfold load_byte, load64. by rewrite E.
Qed.
End copies_agree.

(** ** The loop of a submission *)
Definition desc_at (descs j : Z) : Z := wrap64 (descs + j * struct_size scdk_ring_desc).

(** [n] descriptors at [descs] from index [j] on. *)
Definition descs_in (k : kernel) (descs j : Z) (ds : list scdk_ring_desc) : Prop :=
  ∀ (x : nat) d, ds !! x = Some d → read_struct k (desc_at descs (j + Z.of_nat x)) = Ok d.

(** How many more descriptors the ring takes. *)
Definition ring_free (r : scdk_ring) : nat :=
  Z.to_nat (rg_entries r) - length (ff_submissions (ring_fifo r)).
Definition with_submissions (l : list scdk_ring_desc) (f : fifo) : fifo :=
  mk_fifo (ff_capacity f) l (ff_completions f).

Section submit_facts.
Implicit Types (k : kernel) (r : scdk_ring).

Lemma ring_submissions_length r :
  ring_ok r → (length (ff_submissions (ring_fifo r)) ≤ Z.to_nat (rg_entries r))%nat ∧ 0 < rg_entries r.
Proof.
  intros [Hq _]. pose proof (window_length _ _ _ _ Hq) as Hl. destruct Hq as [He _ _ _ Hc]. simpl. lia.
Qed.

Lemma ring_submit_run k cap i r d n :
  ring_reach k cap i r → ring_ok r → 0 <= n → ring_steady r (n + 1) →
  ∃ r', ring_reach (set_ring i r' k) cap i r' ∧ ring_ok r' ∧ ring_steady r' n ∧
    scdk_ring_submit cap d k = (if decide (ring_free r = O) then Err SCDK_ERR_BUSY else Ok tt, set_ring i r' k) ∧
    ring_fifo r' = (if decide (ring_free r = O) then ring_fifo r
                    else with_submissions (ff_submissions (ring_fifo r) ++ [d]) (ring_fifo r)).
Proof.
  intros Hr Hok Hn Hs. destruct (ring_step_sim k cap i r (op_submit d) n Hr Hok Hn Hs) as (r' & E & Hok' & Hf & Hs').
  exists r'. split; [by eapply ring_reach_set|]. split; [done|]. split; [done|].
  pose proof (ring_submissions_length r Hok) as [Hl He]. cbn [fifo_step] in E, Hf. unfold ring_free.
  change (ff_capacity (ring_fifo r)) with (rg_entries r) in E, Hf. unfold ring_step, bind, ret in E.
  destruct (Z.leb_spec (rg_entries r) (Z.of_nat (length (ff_submissions (ring_fifo r))))) as [Hle|Hgt].
  - rewrite !decide_True by lia. split; [|done].
    revert E. destruct (scdk_ring_submit cap d k) as [[[]| |] k']; intros E; cbn in E; congruence.
  - rewrite !decide_False by lia. split; [|done].
    revert E. destruct (scdk_ring_submit cap d k) as [[[]| |] k']; intros E; cbn in E; congruence.
Qed.

(** As many descriptors as fit are queued, in order; the loop then ends well when
    that was all of them. *)
Lemma submit_descs_run cap i descs ds : ∀ j k r,
  ring_reach k cap i r → ring_ok r → ring_steady r (Z.of_nat (length ds)) → descs_in k descs j ds →
  ∃ r', ring_ok r' ∧ ring_reach (set_ring i r' k) cap i r' ∧
    submit_descs cap descs j (length ds) k =
      (if decide (length ds ≤ ring_free r)%nat then Ok tt else Err SCDK_ERR_BUSY, set_ring i r' k) ∧
    ring_fifo r' = with_submissions (ff_submissions (ring_fifo r) ++ take (ring_free r) ds) (ring_fifo r).
Proof.
  induction ds as [|d ds IH]; intros j k r Hr Hok Hs Hd.
  { exists r. rewrite (set_ring_id k i r) by apply Hr. split_and!; [done|done|done|].
    unfold with_submissions. rewrite take_nil, app_nil_r. by destruct (ring_fifo r). }
  cbn [length submit_descs] in *. rewrite Nat2Z.inj_succ in Hs.
  rewrite (bind_query _ _ _ d) by (pose proof (Hd 0%nat d eq_refl) as H0; by rewrite Z.add_0_r in H0).
  destruct (ring_submit_run k cap i r d (Z.of_nat (length ds)) Hr Hok) as (r1 & Hr1 & Hok1 & Hs1 & E1 & Hf1);
    [lia|done|].
  case_decide as Hfree.
  { exists r1. rewrite (bind_Err _ _ _ _ _ E1), Hf1, Hfree. rewrite decide_False by lia. cbn [take].
    rewrite app_nil_r. split_and!; [done|done|done|]. by destruct (ring_fifo r). }
  rewrite (bind_Ok _ _ _ _ _ E1).
  destruct (IH (j + 1) (set_ring i r1 k) r1 Hr1 Hok1 Hs1) as (r2 & Hok2 & Hr2 & E2 & Hf2).
  { intros x d' Hx. rewrite <-(Hd (S x) d' Hx).
    replace (j + Z.of_nat (S x)) with (j + 1 + Z.of_nat x) by lia. apply read_struct_agree. by apply copy_from_vmm. }
  rewrite set_ring_set in E2, Hr2. exists r2. split; [done|]. split; [done|].
  assert (ring_free r = S (ring_free r1)) as Efree.
  { unfold ring_free in *. rewrite Hf1. change (rg_entries r1) with (ff_capacity (ring_fifo r1)).
    rewrite Hf1. simpl. rewrite length_app. simpl. simpl in Hfree. lia. }
  rewrite E2, Hf2, Hf1, Efree. cbn [take with_submissions ff_submissions ff_capacity ff_completions].
  rewrite <-app_assoc. split; [|done]. f_equal.
  destruct (decide (length ds ≤ ring_free r1)%nat), (decide (S (length ds) ≤ S (ring_free r1))%nat); done || lia.
Qed.
End submit_facts.

(** ** Batches *)

(** The state with another kernel in it. *)
Definition with_kernel {T} `{HasMachine T} (k : kernel) (s : T) : T :=
  put_machine (set_kernel k (the_machine s)) s.

Section batch_facts.
Context {T : Type} `{HasMachine T}.
Implicit Types (k : kernel) (r : scdk_ring) (s : T).

Lemma with_kernel_same s : with_kernel (kernel_of s) s = s.
Proof.
  unfold with_kernel. assert (set_kernel (kernel_of s) (the_machine s) = the_machine s) as ->.
  { unfold kernel_of, machine_kernel. by destruct (the_machine s). }
  apply put_same.
Qed.
Lemma kernel_with_kernel k s : kernel_of (with_kernel k s) = k.
Proof. unfold with_kernel. by rewrite kernel_put. Qed.

Lemma user_range_sub k w p n p' n' :
  user_range k w p n → p <= p' → p' + n' <= p + n → 0 < n' → user_range k w p' n'.
Proof. intros (H1 & H2 & H3 & H4) ? ? ?. split_and!; [lia..|]. intros v Hv. apply H4. lia. Qed.
Lemma user_range_read k p n : user_range k true p n → user_range k false p n.
Proof.
  intros (H1 & H2 & H3 & H4). split_and!; [done..|]. intros v Hv.
  destruct (H4 v Hv) as (t & Ht & Hu & _). by exists t.
Qed.

Lemma user_range_same k k' w p n :
  (∀ v, scdk_vmm_virt_to_phys k' v = scdk_vmm_virt_to_phys k v) → user_range k w p n → user_range k' w p n.
Proof.
  intros Ht (H1 & H2 & H3 & H4). split_and!; [done..|]. intros v Hv. destruct (H4 v Hv) as (t & Ht' & Hu).
  exists t. by rewrite Ht.
Qed.

(** Structs in a readable range can be read. *)
Lemma read_struct_range {A} `{UserStruct A} k p :
  cr3_synced k → u64 p → u64 (struct_size A) → user_range k false p (struct_size A) →
  ∃ x : A, read_struct k p = Ok x.
Proof.
  intros Hc Hp Hs (H1 & H2 & H3 & H4). pose proof (read_struct_inv (A:=A) k p) as Hr.
  rewrite copy_from_run in Hr by done. destruct Hr as (x & Hx & _). by exists x.
Qed.

Lemma desc_at_range k descs count (x : nat) :
  user_range k false descs (struct_size scdk_ring_desc * count) → u64 descs → Z.of_nat x < count →
  desc_at descs (0 + Z.of_nat x) = descs + Z.of_nat x * struct_size scdk_ring_desc ∧
  u64 (desc_at descs (0 + Z.of_nat x)) ∧
  user_range k false (desc_at descs (0 + Z.of_nat x)) (struct_size scdk_ring_desc).
Proof.
  intros Hr Hu Hx. pose proof Hr as (_ & _ & Htop & _). unfold SCDK_USER_VIRT_TOP, u64 in *.
  change (struct_size scdk_ring_desc) with 48 in *.
  assert (desc_at descs (0 + Z.of_nat x) = descs + Z.of_nat x * 48) as E.
  { unfold desc_at, wrap64. change (struct_size scdk_ring_desc) with 48. rewrite Z.add_0_l.
    apply Z.mod_small. unfold two64. lia. }
  rewrite E. split_and!; [done|lia|unfold two64 in *; lia|]. eapply user_range_sub; [done|lia|lia|lia].
Qed.

Lemma descs_readable k descs (n : nat) :
  cr3_synced k → u64 descs → user_range k false descs (struct_size scdk_ring_desc * Z.of_nat n) →
  ∃ ds, length ds = n ∧ descs_in k descs 0 ds.
Proof.
  intros Hc Hu Hr.
  exists ((λ x : nat, match read_struct k (desc_at descs (0 + Z.of_nat x)) with
                      | Ok d => d | _ => null_ring_desc end) <$> seq 0 n).
  split; [by rewrite length_fmap, length_seq|].
  intros x d (y & -> & [-> Hy]%lookup_seq)%list_lookup_fmap_Some. rewrite Nat.add_0_l.
  destruct (desc_at_range k descs (Z.of_nat n) x Hr Hu) as (_ & Hu' & Hr'); [lia|].
  destruct (read_struct_range (A:=scdk_ring_desc) k _ Hc Hu' desc_size Hr') as [d ->]. done.
Qed.

Lemma validate_count_Ok n : u32 n → validate_count n = Ok tt ↔ 0 < n <= SCDK_RING_MAX_ENTRIES.
Proof.
  intros Hn. unfold validate_count, rguard, SCDK_RING_MAX_ENTRIES, u32 in *.
  destruct (Z.eqb_spec n 0), (Z.ltb_spec 64 n); simpl; split; intros; done || lia.
Qed.
End batch_facts.

(** [r] is the ring of task [task], bound to endpoint [ep], in good order. *)
Record user_ring_ready (k : kernel) (task cap ep : Z) (i : nat) (r : scdk_ring) : Prop := {
  urr_slot : ∃ j, usable_slot k task cap = Ok j ∧ k_urings k !! j = Some (mk_user_ring_slot true task cap ep);
  urr_reach : ring_reach k cap i r;
  urr_ok : ring_ok r
}.

Section submit_batch_facts.
Context {T : Type} `{HasMachine T}.
Implicit Types (k : kernel) (r : scdk_ring) (s : T).

Lemma submit_batch_run k task cap ep i r descs (count : nat) :
  user_ring_ready k task cap ep i r → cr3_synced k → 0 < Z.of_nat count <= SCDK_RING_MAX_ENTRIES → u64 descs →
  user_range k false descs (struct_size scdk_ring_desc * Z.of_nat count) → ring_steady r (Z.of_nat count) →
  ∃ ds r' j, length ds = count ∧ descs_in k descs 0 ds ∧ ring_ok r' ∧ ring_reach (set_ring i r' k) cap i r' ∧
    k_urings k !! j = Some (mk_user_ring_slot true task cap ep) ∧
    ring_fifo r' = with_submissions (ff_submissions (ring_fifo r) ++ take (ring_free r) ds) (ring_fifo r) ∧
    submit_batch task cap descs (Z.of_nat count) k =
      (if decide (count ≤ ring_free r)%nat then Ok j else Err SCDK_ERR_BUSY, set_ring i r' k).
Proof.
  intros [(j & Hj & Hslot) Hr Hok] Hc Hcount Hu Hrange Hs.
  destruct (descs_readable k descs count Hc Hu Hrange) as (ds & Hlen & Hds). rewrite <-Hlen in Hs.
  destruct (submit_descs_run cap i descs ds 0 k r Hr Hok Hs Hds) as (r' & Hok' & Hr' & E & Hf).
  exists ds, r', j. split_and!; try done. unfold submit_batch, lift, SCDK_RING_MAX_ENTRIES in *.
  rewrite (bind_Ok _ _ k tt k) by (f_equal; apply validate_count_Ok; unfold u32, two32, SCDK_RING_MAX_ENTRIES; lia).
  pose proof Hrange as (_ & Hlo & _). unfold SCDK_USER_VIRT_BASE in Hlo.
  rewrite bind_guard by (apply Z.eqb_neq; lia). rewrite (bind_query _ _ _ j) by done.
  rewrite (bind_query _ _ _ tt).
  2:{ apply validate_range_user; [done| |done]. change (struct_size scdk_ring_desc) with 48. unfold u64, two64. lia. }
  rewrite Nat2Z.id, <-Hlen. case_decide; [by rewrite (bind_Ok _ _ _ _ _ E)|by rewrite (bind_Err _ _ _ _ _ E)].
Qed.
End submit_batch_facts.

Section submit_theorems.
Context {T : Type} `{HasMachine T}.
Implicit Types (k : kernel) (r : scdk_ring) (s : T).

(** A full ring refuses. *)
Lemma ring_submit_full k cap i r d :
  ring_reach k cap i r → ring_ok r → ring_free r = O → scdk_ring_submit cap d k = (Err SCDK_ERR_BUSY, k).
Proof.
  intros [_ Hw Ha] [Hq _] Hf. unfold scdk_ring_submit. rewrite (bind_query _ _ _ i), (bind_query _ _ _ r) by done.
  rewrite bind_stop; [done|]. apply Z.leb_le. rewrite <-(window_length _ _ _ _ Hq).
  unfold ring_free in Hf. simpl in Hf. lia.
Qed.

Lemma usable_slot_defined k task cap : kernel_wf k → defined (usable_slot k task cap).
Proof.
  intros Hwf. unfold usable_slot, user_ring_slot_for.
  assert (∀ c q t, defined (scdk_cap_check k c q t)) as Hd by (intros; apply cap_check_defined, Hwf).
  destruct (find_slot (uring_named task cap) (k_urings k)) as [j|] eqn:Hf.
  - apply slot_for_cap_Ok in Hf as [x Hx].
    apply rbind_defined; [repeat (apply rbind_defined; [apply rguard_defined || apply Hd|intros ? _]); done|].
    intros j' E. minv E. unfold get_uring. rewrite Hx. cbn [deref rbind].
    repeat (apply rbind_defined; [apply rguard_defined || apply Hd|intros ? _]). done.
  - apply rbind_defined; [|intros j E; minv E; done].
    repeat (apply rbind_defined; [apply rguard_defined || apply Hd|intros ? _]). done.
Qed.

(** Every later batch is refused at the latest at its first descriptor. *)
Lemma submit_batch_blocked k task cap i r descs count :
  kernel_wf k → cr3_synced k → ring_reach k cap i r → ring_ok r → ring_free r = O → u64 descs → u32 count →
  ∃ e, submit_batch task cap descs count k = (Err e, k).
Proof.
  intros Hwf Hc Hr Hok Hf Hu Hn. unfold submit_batch, lift.
  destruct (validate_count count) as [[]|e|] eqn:Ec;
    [|exists e; done|by unfold validate_count, rguard in Ec; case_match].
  rewrite (bind_Ok _ _ k tt k) by done. apply validate_count_Ok in Ec; [|done]. unfold SCDK_RING_MAX_ENTRIES in Ec.
  destruct (descs =? 0) eqn:E0; [exists SCDK_ERR_INVAL; by rewrite bind_stop|]. rewrite bind_guard by done.
  unfold bind at 1, query at 1. pose proof (usable_slot_defined k task cap Hwf) as Hd.
  destruct (usable_slot k task cap) as [j|e|] eqn:Ej; [|by exists e|done].
  unfold bind at 1, query at 1. assert (u64 (struct_size scdk_ring_desc * count)) as Hs.
  { change (struct_size scdk_ring_desc) with 48. unfold u64, two64. lia. }
  destruct (validate_range_spec k descs _ false Hu Hs) as [Hd2 _].
  destruct (scdk_user_validate_range _ _ _ _) as [[]|e|]; [|by exists e|done].
  destruct (Z.to_nat count) as [|n] eqn:En; [lia|]. cbn [submit_descs]. unfold bind, query.
  pose proof (read_struct_defined (A:=scdk_ring_desc) k (wrap64 (descs + 0 * struct_size scdk_ring_desc)) Hc
    (Z.mod_pos_bound _ two64 ltac:(done)) desc_size) as Hd3.
  destruct (read_struct (A:=scdk_ring_desc) k _) as [d|e|]; [|by exists e|done].
  exists SCDK_ERR_BUSY. by rewrite (ring_submit_full k cap i r).
Qed.

(** C28. Submitting a batch from user memory is exact: for a bound ring of the
    caller and a readable array of 1 to 64 descriptors, the descriptors are
    queued in the order they have in memory; when all of them fit, the bound
    endpoint is then called with the ring and the count, on the state in which
    the ring holds them all; when they do not, the call returns BUSY, and those
    that fit stay queued. *)
Theorem user_ring_submit_exact (invoke : handler_on T) s (task cap ep descs : Z) (i count : nat) (r : scdk_ring)
  (Hready : user_ring_ready (kernel_of s) task cap ep i r) (Hsync : cr3_synced (kernel_of s))
  (Hcount : 0 < Z.of_nat count <= SCDK_RING_MAX_ENTRIES) (Hu : u64 descs)
  (Hrange : user_range (kernel_of s) false descs (struct_size scdk_ring_desc * Z.of_nat count))
  (Hsteady : ring_steady r (Z.of_nat count)) :
  ∃ ds r', length ds = count ∧ descs_in (kernel_of s) descs 0 ds ∧
    ring_reach (set_ring i r' (kernel_of s)) cap i r' ∧
    ring_fifo r' = with_submissions (ff_submissions (ring_fifo r) ++ take (ring_free r) ds) (ring_fifo r) ∧
    let s' := with_kernel (set_ring i r' (kernel_of s)) s in
    scdk_user_ring_submit invoke task cap descs (Z.of_nat count) s =
      if decide (count ≤ ring_free r)%nat
      then (let* reply := scdk_endpoint_call invoke ep (ring_process_message task cap (Z.of_nat count)) in
            lift reply.2) s'
      else (Err SCDK_ERR_BUSY, s').
Proof.
  destruct (submit_batch_run _ task cap ep i r descs count Hready Hsync Hcount Hu Hrange Hsteady)
    as (ds & r' & j & Hlen & Hds & Hok & Hr & Hslot & Hf & E).
  exists ds, r'. split_and!; [done..|]. intros s'. unfold scdk_user_ring_submit.
  destruct (decide (count ≤ ring_free r)%nat).
  - erewrite bind_Ok by (rewrite onkern_run, E; reflexivity).
    rewrite (bind_query _ _ _ (mk_user_ring_slot true task cap ep)); [done|].
    rewrite kernel_put. unfold get_uring. simpl. by rewrite Hslot.
  - erewrite bind_Err by (rewrite onkern_run, E; reflexivity). done.
Qed.

(** C40. A batch that does not fit blocks its ring: the call returns BUSY without
    calling the endpoint, and in the state it leaves every submission to that
    ring, of any task and any batch, is refused without any change. Repeating
    submissions therefore never reaches the handler that would drain the ring. *)
Theorem user_ring_overrun_blocks s (task cap ep descs : Z) (i count : nat) (r : scdk_ring)
  (Hwf : kernel_wf (kernel_of s)) (Hready : user_ring_ready (kernel_of s) task cap ep i r)
  (Hsync : cr3_synced (kernel_of s)) (Hcount : 0 < Z.of_nat count <= SCDK_RING_MAX_ENTRIES) (Hu : u64 descs)
  (Hrange : user_range (kernel_of s) false descs (struct_size scdk_ring_desc * Z.of_nat count))
  (Hsteady : ring_steady r (Z.of_nat count)) (Hover : (ring_free r < count)%nat) :
  ∃ s', (∀ invoke, scdk_user_ring_submit invoke task cap descs (Z.of_nat count) s = (Err SCDK_ERR_BUSY, s')) ∧
    ∀ task' descs' count', u64 descs' → u32 count' →
      ∃ e, ∀ invoke, scdk_user_ring_submit invoke task' cap descs' count' s' = (Err e, s').
Proof.
  destruct (submit_batch_run _ task cap ep i r descs count Hready Hsync Hcount Hu Hrange Hsteady)
    as (ds & r' & j & Hlen & Hds & Hok & Hr & Hslot & Hf & E).
  set (k' := set_ring i r' (kernel_of s)) in *. exists (with_kernel k' s). split.
  { intros invoke. unfold scdk_user_ring_submit. rewrite decide_False in E by lia.
    by erewrite bind_Err by (rewrite onkern_run, E; reflexivity). }
  intros task' descs' count' Hu' Hn'. destruct Hready as [_ _ Hok0].
  pose proof (ring_submissions_length r Hok0) as [Hl He].
  assert (ring_free r' = O) as Hfull.
  { change (rg_entries r') with (ff_capacity (ring_fifo r')). unfold ring_free.
    change (rg_entries r') with (ff_capacity (ring_fifo r')). rewrite Hf. simpl. rewrite length_app, length_take.
    unfold ring_free in *. simpl in *. lia. }
  destruct (submit_batch_blocked k' task' cap i r' descs' count') as [e He']; try done.
  { by apply set_ring_kwf. }
  exists e. intros invoke. unfold scdk_user_ring_submit.
  erewrite bind_Err; [reflexivity|]. rewrite onkern_run, kernel_with_kernel, He'. cbn [fst snd]. f_equal.
  unfold with_kernel. by rewrite put_put, machine_put.
Qed.
End submit_theorems.

(** ** Polling *)
Definition completion_at (base j : Z) : Z := wrap64 (base + j * struct_size scdk_completion).
Definition with_completions (l : list scdk_completion) (f : fifo) : fifo :=
  mk_fifo (ff_capacity f) (ff_submissions f) l.

Section poll_facts.
Implicit Types (k : kernel) (r : scdk_ring) (L : gmap Z label).

Lemma ring_reach_memory k k' L cap i r : mem_step k k' L → ring_reach k cap i r → ring_reach k' cap i r.
Proof. intros [-> _ _] [H1 H2 H3]. by split. Qed.

Lemma ring_poll_run k cap i r n :
  ring_reach k cap i r → ring_ok r → 0 <= n → ring_steady r (n + 1) →
  match ff_completions (ring_fifo r) with
  | [] => scdk_ring_poll cap k = (Err SCDK_ERR_NOENT, k)
  | c :: cs => ∃ r', ring_reach (set_ring i r' k) cap i r' ∧ ring_ok r' ∧ ring_steady r' n ∧
      scdk_ring_poll cap k = (Ok c, set_ring i r' k) ∧ ring_fifo r' = with_completions cs (ring_fifo r)
  end.
Proof.
  intros Hr Hok Hn Hs. destruct (ring_step_sim k cap i r op_poll n Hr Hok Hn Hs) as (r' & E & Hok' & Hf & Hs').
  cbn [fifo_step] in E, Hf. unfold ring_step, bind, ret in E.
  destruct (ff_completions (ring_fifo r)) as [|c cs] eqn:Ec.
  - pose proof Hr as [Hread _ Hat]. unfold scdk_ring_poll in *.
    rewrite (bind_query _ _ _ i), (bind_query _ _ _ r) in * by done. rewrite bind_stop; [done|].
    apply Z.eqb_eq. destruct Hok as [_ Hq]. apply queue_count_zero; [apply Hq..|].
    rewrite <-(window_length _ _ _ _ Hq). simpl in Ec. by rewrite Ec.
  - exists r'. split; [by eapply ring_reach_set|]. split; [done|]. split; [done|]. split; [|done].
    revert E. destruct (scdk_ring_poll cap k) as [[c'| |] k']; intros E; cbn in E; congruence.
Qed.

(** A write leaves what is read elsewhere. *)
Lemma copy_from_other k k' L p n p' n' :
  pt_typed k L → cr3_synced k → mem_step k k' L → range_distinct k p n →
  (∀ q, (∀ v t, p' <= v < p' + n' → scdk_vmm_virt_to_phys k v = Ok t → t.1 ≠ q) → load_byte k' q = load_byte k q) →
  p <= p' → p' + n' <= p + n →
  ∀ p0 n0, p <= p0 → p0 + n0 <= p + n → p0 + n0 <= p' ∨ p' + n' <= p0 → user_range k false p0 n0 →
  scdk_user_copy_from k' p0 n0 = scdk_user_copy_from k p0 n0.
Proof.
  intros HT Hc Hs Hd Hb Hlo Hhi p0 n0 H1 H2 Hdis (_ & _ & _ & Hm).
  apply copy_from_agree; [intros v; by apply (mem_step_translate _ _ L)|intros v; by apply (mem_step_mmu _ _ L)|].
  intros v q Hv Hq. apply Hb. intros v' t Hv' Ht <-. destruct (Hm v Hv) as (t0 & Ht0 & _).
  rewrite (mmu_translation k v t0 Hc Ht0) in Hq. injection Hq as Heq.
  pose proof (Hd v v' t0 t ltac:(lia) ltac:(lia) Ht0 Ht Heq). lia.
Qed.
End poll_facts.

(** What a polling loop needs: room for [n] completions from index [j] on. *)
Record poll_room (k : kernel) (L : gmap Z label) (base : Z) (max : Z) : Prop := {
  pr_memory : user_memory k L;
  pr_base : u64 base;
  pr_count : 0 <= max <= SCDK_RING_MAX_ENTRIES;
  pr_range : user_range k true base (struct_size scdk_completion * max);
  pr_distinct : range_distinct k base (struct_size scdk_completion * max)
}.

Section poll_loop.
Implicit Types (k : kernel) (r : scdk_ring) (L : gmap Z label).

Lemma poll_room_step k k' L base max :
  poll_room k L base max → mem_step k k' L → poll_room k' L base max.
Proof.
  intros [Hm Hb Hc Hr Hd] Hs. pose proof (um_typed _ _ Hm) as HT. split; [by eapply user_memory_step|done..| |].
  - apply (user_range_same k); [|done]. intros v. by apply (mem_step_translate _ _ L).
  - by eapply range_distinct_step.
Qed.
Lemma poll_room_vmm k k' L base max :
  k_vmm k' = k_vmm k → k_pmm k' = k_pmm k → poll_room k L base max → poll_room k' L base max.
Proof.
  intros Ev Ep [Hm Hb Hc Hr Hd]. split; [by eapply user_memory_vmm|done..| |].
  - apply (user_range_same k); [|done]. intros v. by apply virt_to_phys_vmm.
  - intros v v' t t' Hv Hv'. rewrite !(virt_to_phys_vmm k k') by done. by apply Hd.
Qed.

Lemma completion_at_range k L base max j :
  poll_room k L base max → 0 <= j < max →
  completion_at base j = base + j * struct_size scdk_completion ∧ u64 (completion_at base j) ∧
  user_range k true (completion_at base j) (struct_size scdk_completion) ∧
  range_distinct k (completion_at base j) (struct_size scdk_completion).
Proof.
  intros [_ Hu Hc Hr Hd] Hj. pose proof Hr as (_ & _ & Htop & _).
  unfold SCDK_USER_VIRT_TOP, u64, SCDK_RING_MAX_ENTRIES in *. change (struct_size scdk_completion) with 32 in *.
  assert (completion_at base j = base + j * 32) as E.
  { unfold completion_at, wrap64. change (struct_size scdk_completion) with 32.
    apply Z.mod_small. unfold two64. lia. }
  rewrite E. split_and!; [done|lia|unfold two64 in *; lia| |].
  - eapply user_range_sub; [done|lia|lia|lia].
  - intros v v' t t' Hv Hv'. apply Hd; lia.
Qed.

(** One completion copied out: it is there, and what was copied before stays. *)
Lemma write_completion k L base max j c :
  poll_room k L base max → 0 <= j < max → struct_ok c →
  ∃ k', write_struct (completion_at base j) c k = (Ok tt, k') ∧ mem_step k k' L ∧
    read_struct k' (completion_at base j) = Ok c ∧
    ∀ p0 n0, base <= p0 → p0 + n0 <= base + struct_size scdk_completion * max →
      p0 + n0 <= completion_at base j ∨ completion_at base j + struct_size scdk_completion <= p0 →
      user_range k false p0 n0 → scdk_user_copy_from k' p0 n0 = scdk_user_copy_from k p0 n0.
Proof.
  intros Hroom Hj Hc. destruct (completion_at_range k L base max j Hroom Hj) as (E & Hu & Hr & Hd).
  pose proof Hroom as [Hm _ _ _ Hd0].
  destruct (write_struct_run k L (completion_at base j) c Hm Hu completion_size) as [(e & Ew)|(k' & Ew & Hs & Hrd & Hq)].
  { by destruct (write_struct_accepts k _ c e Hu completion_size Hr). }
  exists k'. split_and!; [done|done|by apply Hrd|]. intros p0 n0 Hlo Hhi Hdis Hr0.
  eapply (copy_from_other k k' L base (struct_size scdk_completion * max) (completion_at base j)
    (struct_size scdk_completion)); try done;
    [apply (um_typed _ _ Hm)|apply (um_synced _ _ Hm)|..];
    change (struct_size scdk_completion) with 32 in *; lia.
Qed.

Lemma poll_completions_run cap i base max L : ∀ n j k r,
  poll_room k L base max → ring_reach k cap i r → ring_ok r → ring_steady r (Z.of_nat n) →
  0 <= j → j + Z.of_nat n = max → Forall struct_ok (ff_completions (ring_fifo r)) →
  ∃ k' r', poll_completions cap base j n k =
      (Ok (j + Z.of_nat (length (take n (ff_completions (ring_fifo r))))), k') ∧
    ring_reach k' cap i r' ∧
    ring_fifo r' = with_completions (drop n (ff_completions (ring_fifo r))) (ring_fifo r) ∧
    (∀ x c, take n (ff_completions (ring_fifo r)) !! x = Some c →
       read_struct k' (completion_at base (j + Z.of_nat x)) = Ok c) ∧
    (∀ p0 n0, base <= p0 → p0 + n0 <= base + j * struct_size scdk_completion → user_range k false p0 n0 →
       scdk_user_copy_from k' p0 n0 = scdk_user_copy_from k p0 n0).
Proof.
  induction n as [|n IH]; intros j k r Hroom Hr Hok Hs Hj Hmax Hcs.
  { exists k, r. cbn [take length poll_completions]. rewrite Z.add_0_r. split_and!; [done|done| |done|done].
    rewrite drop_0. by destruct (ring_fifo r). }
  rewrite Nat2Z.inj_succ in Hs. cbn [poll_completions].
  pose proof (ring_poll_run k cap i r (Z.of_nat n) Hr Hok ltac:(lia) Hs) as Hp.
  destruct (ff_completions (ring_fifo r)) as [|c cs] eqn:Ec.
  { exists k, r. unfold bind, attempt. rewrite Hp. cbn [take drop length]. rewrite Z.add_0_r.
    split_and!; [done|done| |done|done]. rewrite <-Ec. by destruct (ring_fifo r). }
  destruct Hp as (r1 & Hr1 & Hok1 & Hs1 & E1 & Hf1). apply Forall_cons in Hcs as [Hc Hcs].
  assert (poll_room (set_ring i r1 k) L base max) as Hroom1 by (by apply (poll_room_vmm k)).
  destruct (write_completion _ L base max j c Hroom1 ltac:(lia) Hc) as (k2 & E2 & Hs2 & Hrd2 & Hkeep2).
  pose proof (poll_room_step _ _ L base max Hroom1 Hs2) as Hroom2.
  destruct (IH (j + 1) k2 r1) as (k3 & r3 & E3 & Hr3 & Hf3 & Hrd3 & Hkeep3);
    [done|by eapply ring_reach_memory|done|done|lia|lia|by rewrite Hf1|].
  rewrite Hf1 in *. cbn [with_completions ff_completions] in *.
  destruct (completion_at_range k2 L base max j Hroom2 ltac:(lia)) as (Eat & _ & Hrange2 & _).
  exists k3, r3. split_and!; [|done|by rewrite Hf3| |].
  - unfold bind at 1, attempt. rewrite E1. rewrite (bind_Ok _ _ _ _ _ E2), E3. cbn [take length].
    do 2 f_equal. lia.
  - intros [|x] c' Hx; cbn [take] in Hx.
    + injection Hx as <-. rewrite Z.add_0_r, <-Hrd2. apply read_struct_agree, Hkeep3.
      * pose proof (pr_base _ _ _ _ Hroom). change (struct_size scdk_completion) with 32 in *. lia.
      * change (struct_size scdk_completion) with 32 in *. lia.
      * by apply user_range_read.
    + replace (j + Z.of_nat (S x)) with (j + 1 + Z.of_nat x) by lia. by apply Hrd3.
  - intros p0 n0 H1 H2 H3. change (struct_size scdk_completion) with 32 in *.
    assert (user_range (set_ring i r1 k) false p0 n0) as H3'.
    { apply (user_range_same k); [|done]. intros v. by apply virt_to_phys_vmm. }
    rewrite Hkeep3; [|done|lia|].
    + rewrite Hkeep2; [by apply copy_from_vmm|done|lia|left; lia|done].
    + apply (user_range_same (set_ring i r1 k)); [|done]. intros v.
      apply (mem_step_translate _ _ L); [apply (pr_memory _ _ _ _ Hroom1)|done].
Qed.
End poll_loop.

(** What a poll leaves alone: everything but the rings and user memory. *)
Definition poll_tables (k : kernel) :=
  (k_objs k, k_caps k, k_eps k, k_grants k, k_ugrants k, k_urings k, k_pmm k, k_heap k, k_aspaces k,
   k_sched k, k_utasks k).
#[global] Instance user_store_tables v src n : Keeps poll_tables (user_store v src n).
Proof.
  revert v src. induction n as [|n IH]; intros v src; [by destruct src|].
  destruct src as [|b src]; [apply _|]. cbn [user_store]. apply keeps_bind; [apply _|intros p].
  apply keeps_bind; [by intros k|intros _; apply IH].
Qed.
#[global] Instance poll_completions_tables cap base j n : Keeps poll_tables (poll_completions cap base j n).
Proof.
  revert j. induction n as [|n IH]; intros j; cbn [poll_completions]; [apply _|].
  apply keeps_bind; [unfold scdk_ring_poll; apply _|]. intros [c|[]|]; apply _.
Qed.

(** Polling hands over completions exactly once and in order: for a bound
    ring of the caller and room for [max] completions in its memory, the call
    returns the smaller of [max] and the number of completions waiting; that many
    of the oldest ones are in the caller's array in order, the others are still
    waiting, and nothing else of the kernel changes. *)
Theorem user_ring_poll_exact (k : kernel) (L : gmap Z label) (task cap ep base : Z) (i max : nat) (r : scdk_ring)
  (Hready : user_ring_ready k task cap ep i r) (Hmax : (0 < max)%nat)
  (Hroom : poll_room k L base (Z.of_nat max)) (Hsteady : ring_steady r (Z.of_nat max))
  (Hcs : Forall struct_ok (ff_completions (ring_fifo r))) :
  let waiting := ff_completions (ring_fifo r) in
  ∃ k' r', scdk_user_ring_poll task cap base (Z.of_nat max) k = (Ok (Z.of_nat (length (take max waiting))), k') ∧
    (∀ x c, take max waiting !! x = Some c → read_struct k' (completion_at base (Z.of_nat x)) = Ok c) ∧
    ring_reach k' cap i r' ∧ ring_fifo r' = with_completions (drop max waiting) (ring_fifo r) ∧
    poll_tables k' = poll_tables k.
Proof.
  intros waiting. destruct Hready as [(j & Hj & _) Hr Hok].
  pose proof Hroom as [Hm Hu Hc Hrange _]. pose proof Hrange as (_ & Hlo & _).
  unfold SCDK_USER_VIRT_BASE, SCDK_RING_MAX_ENTRIES in *.
  destruct (poll_completions_run cap i base (Z.of_nat max) L max 0 k r Hroom Hr Hok Hsteady)
    as (k' & r' & E & Hr' & Hf & Hrd & _); [lia|lia|done|].
  exists k', r'. split_and!; [|exact Hrd|done|done|].
  - unfold scdk_user_ring_poll, lift.
    rewrite (bind_Ok _ _ k tt k) by (f_equal; apply validate_count_Ok; unfold u32, two32, SCDK_RING_MAX_ENTRIES; lia).
    rewrite bind_guard by (apply Z.eqb_neq; lia). rewrite (bind_query _ _ _ j), (bind_query _ _ _ tt), Nat2Z.id by
      (done || (apply validate_range_user; [done| |done]; change (struct_size scdk_completion) with 32; unfold u64, two64; lia)).
    exact E.
  - by eapply keeps_run in E; [|apply poll_completions_tables].
Qed.

(** ** Witnesses

    The task and the endpoint of [demo_lender], with a ring of one entry that is
    bound to the endpoint and has one completion waiting. *)
Definition demo_uring : kernel :=
  ((let* ring := scdk_user_ring_create 4294967297 1 in
    scdk_user_ring_bind 4294967297 ring 4294967296 ;;
    scdk_ring_complete ring (mk_completion 1 0 5 0)) demo_lender).2.
Definition demo_uring_ring : scdk_ring :=
  match ring_at demo_uring 0 with Ok r => r | _ => null_ring end.

Lemma uring_create_kwf task entries : preserves kernel_wf (scdk_user_ring_create task entries).
Proof.
  unfold scdk_user_ring_create. apply preserves_bind; [eauto with scdk|intros _].
  apply preserves_bind; [eauto with scdk|intros _]. apply preserves_bind; [eauto with scdk|intros _].
  apply preserves_bind; [eauto with scdk|]. intros [j|]; [|eauto with scdk].
  apply preserves_bind; [apply ring_create_kwf|intros c]. apply preserves_bind; [|eauto with scdk].
  apply preserves_modify. intros k Hk. kwf_update.
Qed.

Lemma demo_uring_kwf : kernel_wf demo_uring.
Proof.
  refine (preserves_bind _ _ _ _ _ demo_lender demo_lender_kwf); [apply uring_create_kwf|intros c].
  apply preserves_bind; [|intros _].
  - unfold scdk_user_ring_bind, scdk_ring_bind_target. preserves_tac; try by apply set_ring_kwf.
    match goal with Hk : kernel_wf _ |- _ => kwf_update end.
  - unfold scdk_ring_complete. preserves_tac. by apply set_ring_kwf.
Qed.

Lemma demo_uring_ready : user_ring_ready demo_uring 4294967297 4294967298 4294967296 0 demo_uring_ring.
Proof.
  split.
  - exists 0%nat. split; vm_compute; reflexivity.
  - split; vm_compute; reflexivity.
  - split; (split; [vm_compute; split; [reflexivity|discriminate]|vm_compute; reflexivity|
      vm_compute; split; [discriminate|reflexivity]|vm_compute; split; [discriminate|reflexivity]|vm_compute; discriminate]).
Qed.
Lemma demo_uring_steady n : ring_steady demo_uring_ring n.
Proof.
  assert (rg_entries demo_uring_ring = 1) as E by (vm_compute; reflexivity).
  unfold ring_steady, steady. rewrite E. split; left; exists two32; reflexivity.
Qed.
Lemma demo_uring_memory :
  ∃ L, user_memory demo_uring L ∧
    ∀ v, 4194304 <= v < 4198400 → scdk_vmm_virt_to_phys demo_uring v = Ok (v - 4124672, 3).
Proof.
  destruct demo_mapped_memory as (L & Hum & Ht). exists L.
  assert (k_vmm demo_uring = k_vmm demo_mapped) as Ev by (vm_compute; reflexivity).
  assert (k_pmm demo_uring = k_pmm demo_mapped) as Ep by (vm_compute; reflexivity).
  split; [exact (user_memory_vmm _ _ L Ev Ep Hum)|]. intros v Hv.
  rewrite (virt_to_phys_vmm _ _ v Ev). exact (Ht v Hv).
Qed.

Lemma user_ring_submit_exact_witness :
  ∃ (ds : list scdk_ring_desc) s', length ds = 1%nat ∧
    scdk_user_ring_submit (demo_invoke None) 4294967297 4294967298 4194400 1 (machine_of demo_uring) =
    (let* reply := scdk_endpoint_call (demo_invoke None) 4294967296
       (ring_process_message 4294967297 4294967298 1) in lift reply.2) s'.
Proof.
  destruct demo_uring_memory as (L & Hum & Ht). pose proof (um_synced _ _ Hum) as Hc.
  pose proof demo_uring_ready as Hr. pose proof (kernel_machine demo_uring) as Ek.
  rewrite <-Ek in Hc, Hr, Ht. clear Ek.
  destruct (user_ring_submit_exact (demo_invoke None) (machine_of demo_uring) 4294967297 4294967298 4294967296
    4194400 0 1 demo_uring_ring Hr Hc) as (ds & r' & Hl & _ & _ & _ & E).
  - split; [reflexivity|discriminate].
  - unfold u64, two64. lia.
  - apply user_range_read, demo_user_range; [exact Ht|lia|reflexivity|vm_compute; discriminate].
  - apply demo_uring_steady.
  - exists ds. eexists. split; [exact Hl|]. cbv zeta in E.
    rewrite decide_True in E by (vm_compute; lia). exact E.
Defined.

Lemma user_ring_overrun_blocks_witness :
  ∃ s', (∀ invoke, scdk_user_ring_submit invoke 4294967297 4294967298 4194400 2 (machine_of demo_uring) =
    (Err SCDK_ERR_BUSY, s')) ∧
    ∃ e, ∀ invoke, scdk_user_ring_submit invoke 4294967297 4294967298 4194400 1 s' = (Err e, s').
Proof.
  destruct demo_uring_memory as (L & Hum & Ht). pose proof (um_synced _ _ Hum) as Hc.
  pose proof demo_uring_ready as Hr. pose proof demo_uring_kwf as Hwf. pose proof (kernel_machine demo_uring) as Ek.
  rewrite <-Ek in Hc, Hr, Ht, Hwf. clear Ek.
  destruct (user_ring_overrun_blocks (machine_of demo_uring) 4294967297 4294967298 4294967296
    4194400 0 2 demo_uring_ring Hwf Hr Hc) as (s' & E & Hb).
  - split; [reflexivity|discriminate].
  - unfold u64, two64. lia.
  - apply user_range_read, demo_user_range; [exact Ht|lia|reflexivity|vm_compute; discriminate].
  - apply demo_uring_steady.
  - vm_compute. lia.
  - exists s'. split; [exact E|]. apply Hb; unfold u64, two64, u32, two32; lia.
Defined.

Lemma user_ring_poll_exact_witness :
  ∃ k', scdk_user_ring_poll 4294967297 4294967298 4194400 4 demo_uring = (Ok 1, k') ∧
    read_struct k' (completion_at 4194400 0) = Ok (mk_completion 1 0 5 0).
Proof.
  destruct demo_uring_memory as (L & Hum & Ht).
  assert (ff_completions (ring_fifo demo_uring_ring) = [mk_completion 1 0 5 0]) as Ecs by (vm_compute; reflexivity).
  destruct (user_ring_poll_exact demo_uring L 4294967297 4294967298 4294967296 4194400 0 4 demo_uring_ring
    demo_uring_ready) as (k' & r' & E & Hrd & _).
  - lia.
  - split; [exact Hum|unfold u64, two64; lia|vm_compute; split; discriminate|
      apply demo_user_range; [exact Ht|lia|reflexivity|vm_compute; discriminate]|
      apply demo_range_distinct; [exact Ht|lia|vm_compute; discriminate]].
  - apply demo_uring_steady.
  - rewrite Ecs. apply Forall_cons. split; [|apply Forall_nil; exact I]. unfold struct_ok. simpl.
    repeat (apply Forall_cons; split; [vm_compute; split; [discriminate|reflexivity]|]). apply Forall_nil. exact I.
  - rewrite Ecs in E, Hrd. exists k'. split; [exact E|]. exact (Hrd 0%nat _ eq_refl).
Defined.
