(* ===== verification/Syscall.v ===== *)
(** * System calls ([src/core/syscall_dispatch.c])

    What the entry stub calls with the number and the arguments of a system call.
    The result tells the stub whether to go back to the program or to leave
    ring 3. A yield may switch to another thread; the rest of the call then runs
    when the thread is resumed ([dispatch_resume]). *)
From stdpp Require Import base gmap list numbers relations.
From Stdlib Require Import ZArith Lia.
From S2P Require Import Prelude.
From S2P Require Import Kernel.
From S2P Require Import Object.
From S2P Require Import Capability.
From S2P Require Import Invariant.
From S2P Require Import Endpoint.
From S2P Require Import Ring.
From S2P Require Import Scheduler.
From S2P Require Import UserMemory.
From S2P Require Import UserGrant.
From S2P Require Import UserTask.
From S2P Require Import Usermode.
From S2P Require Import Process.
From S2P Require Import UserMessage.
From S2P Require Import UserRing.

#[local] Open Scope Z_scope.

Definition SCDK_SYS_DEBUG_WRITE : Z := 0.
Definition SCDK_SYS_ENDPOINT_CALL : Z := 1.
Definition SCDK_SYS_YIELD : Z := 2.
Definition SCDK_SYS_EXIT : Z := 3.
Definition SCDK_SYS_GRANT_CREATE : Z := 4.
Definition SCDK_SYS_GRANT_REVOKE : Z := 5.
Definition SCDK_SYS_RING_CREATE : Z := 6.
Definition SCDK_SYS_RING_BIND : Z := 7.
Definition SCDK_SYS_RING_SUBMIT : Z := 8.
Definition SCDK_SYS_RING_POLL : Z := 9.

(** ** State of the syscall path *)
Definition with_return (v : Z) (s : scdk_syscall_task_state) : scdk_syscall_task_state :=
  mk_syscall_state (ss_kernel_stack_top s) (ss_user_rsp s) (ss_user_rip s) (ss_user_rflags s)
    (ss_arg0 s) (ss_arg1 s) (ss_arg2 s) (ss_arg3 s) v (ss_user_return_rsp s) (ss_user_return_rip s)
    (ss_user_exited s) (ss_endpoint_call_passed s) (ss_user_faulted s) (ss_user_fault_status s).
Definition with_call_passed (s : scdk_syscall_task_state) : scdk_syscall_task_state :=
  mk_syscall_state (ss_kernel_stack_top s) (ss_user_rsp s) (ss_user_rip s) (ss_user_rflags s)
    (ss_arg0 s) (ss_arg1 s) (ss_arg2 s) (ss_arg3 s) (ss_return_value s) (ss_user_return_rsp s)
    (ss_user_return_rip s) (ss_user_exited s) true (ss_user_faulted s) (ss_user_fault_status s).
Definition with_exited (s : scdk_syscall_task_state) : scdk_syscall_task_state :=
  mk_syscall_state (ss_kernel_stack_top s) (ss_user_rsp s) (ss_user_rip s) (ss_user_rflags s)
    (ss_arg0 s) (ss_arg1 s) (ss_arg2 s) (ss_arg3 s) (ss_return_value s) (ss_user_return_rsp s)
    (ss_user_return_rip s) true (ss_endpoint_call_passed s) (ss_user_faulted s) (ss_user_fault_status s).
Definition upd_sys (f : scdk_syscall_task_state → scdk_syscall_task_state) : MM unit :=
  modify (λ m, set_sys (f (m_sys m)) m).

Definition scdk_syscall_ready (m : machine) : bool := m_syscall_initialized m.
Definition scdk_syscall_user_exited (m : machine) : bool := ss_user_exited (m_sys m).
Definition scdk_syscall_endpoint_call_passed (m : machine) : bool := ss_endpoint_call_passed (m_sys m).
Definition scdk_syscall_user_faulted (m : machine) : bool := ss_user_faulted (m_sys m).
Definition scdk_syscall_user_fault_status (m : machine) : Z := ss_user_fault_status (m_sys m).

(** ** Dispatch *)
Inductive dispatch_result : Type :=
  | to_user
  | leave_user
  | switched (loaded : scdk_thread_context).

(** [status == SCDK_OK ? value : (uint64_t)status] *)
Definition value_or_status (r : result Z) : Z :=
  match r with
  | Ok v => v
  | Err e => wrap64 (err_code e)
  | Ub => 0
  end.

Section dispatch.
Context {T : Type} `{HasMachine T}.
Context (invoke : option (list Z) → handler_on T) (payload_buffer : Z) (regs : scdk_thread_context).

(** [scdk_syscall_return_value = (uint64_t)status; return 0;] *)
Definition finish (status : result unit) : M T dispatch_result :=
  onmach (upd_sys (with_return (Endpoint.status_word status))) ;; ret to_user.
Definition finish_value (r : result Z) : M T dispatch_result :=
  onmach (upd_sys (with_return (value_or_status r))) ;; ret to_user.
Definition pass_if_ok (status : result unit) : M T unit :=
  match status with Ok _ => onmach (upd_sys with_call_passed) | _ => ret tt end.

(** The calls that name the running task. *)
Definition as_task {A} (f : Z → M T A) : M T (result A) :=
  attempt (let* task := query (λ s : T, scdk_user_task_current (kernel_of s)) in f task).

(** What is left of a system call when the thread runs again after a yield. *)
Definition dispatch_resume : M T dispatch_result := finish (Ok tt).

Definition scdk_syscall_dispatch (number arg0 arg1 arg2 arg3 : Z) : M T dispatch_result :=
  let* ready := gets (λ s, scdk_syscall_ready (the_machine s)) in
  if negb ready then
    onmach (upd_sys (with_return (wrap64 (err_code SCDK_ERR_NOTSUP)))) ;; ret leave_user
  else if number =? SCDK_SYS_DEBUG_WRITE then finish (Ok tt)
  else if number =? SCDK_SYS_ENDPOINT_CALL then
    let* status := attempt (scdk_sys_endpoint_call invoke payload_buffer arg0 arg1) in
    let* faulted := gets (λ s, scdk_syscall_user_faulted (the_machine s)) in
    if (faulted : bool) then ret leave_user
    else pass_if_ok status ;; finish status
  else if number =? SCDK_SYS_YIELD then
    let* loaded := onkern (scdk_yield regs) in
    match loaded with
    | Some c => ret (switched c)
    | None => dispatch_resume
    end
  else if number =? SCDK_SYS_EXIT then
    onmach (upd_sys with_exited) ;; onmach (upd_sys (with_return SCDK_OK)) ;; ret leave_user
  else if number =? SCDK_SYS_GRANT_CREATE then
    let* grant := as_task (λ task, onkern (scdk_user_grant_create task arg0 arg1 arg2 arg3)) in
    finish_value grant
  else if number =? SCDK_SYS_GRANT_REVOKE then
    let* status := attempt (onkern (scdk_user_grant_revoke arg0)) in
    finish status
  else if number =? SCDK_SYS_RING_CREATE then
    let* ring := as_task (λ task, onkern (scdk_user_ring_create task (wrap32 arg0))) in
    finish_value ring
  else if number =? SCDK_SYS_RING_BIND then
    let* status := as_task (λ task, onkern (scdk_user_ring_bind task arg0 arg1)) in
    finish status
  else if number =? SCDK_SYS_RING_SUBMIT then
    let* status := as_task (λ task, scdk_user_ring_submit (invoke None) task arg0 arg1 (wrap32 arg2)) in
    pass_if_ok status ;; finish status
  else if number =? SCDK_SYS_RING_POLL then
    let* completed := as_task (λ task, onkern (scdk_user_ring_poll task arg0 arg1 (wrap32 arg2))) in
    finish_value completed
  else
    onmach scdk_fault_handle_invalid_syscall ;; ret leave_user.
End dispatch.

(** ** System calls and the table of user tasks

    A call either lets the program go on, having done nothing to the table of
    tasks that a user program may not do, or it ends the program. *)
Definition quiet_run (s s' : machine) : Prop := ∀ s'', user_run s' s'' → user_run s s''.
#[global] Instance quiet_preorder : PreOrder quiet_run.
Proof. split; [by intros s s''|]. intros s1 s2 s3 H1 H2 s'' H. by apply H1, H2. Qed.

Lemma quiet_same s s' : mview s' = mview s → quiet_run s s'.
Proof. intros E s'' H. by eapply user_call. Qed.
Lemma quiet_user_run s s' : quiet_run s s' → user_run s s'.
Proof. intros H. apply H, user_stop. Qed.

(** Operations a program survives. *)
Class Quiet {A} (m : MM A) : Prop := quiet : ∀ s, quiet_run s (m s).2.
#[global] Instance keeps_quiet {A} (m : MM A) : Keeps mview m → Quiet m | 10.
Proof. intros H s. apply quiet_same, H. Qed.
#[global] Instance quiet_bind {A B} (m : MM A) (f : A → MM B) : Quiet m → (∀ a, Quiet (f a)) → Quiet (bind m f).
Proof.
  intros Hm Hf s. specialize (Hm s). unfold bind. destruct (m s) as [[a|e|] s']; simpl in *; [|done..].
  etrans; [exact Hm|apply Hf].
Qed.
#[global] Instance quiet_attempt {A} (m : MM A) : Quiet m → Quiet (attempt m).
Proof. intros Hm s. specialize (Hm s). unfold attempt. by destruct (m s) as [[]]. Qed.

(** Operations that end the program with a fault, or that it survives. *)
Definition ended (s s' : machine) : Prop := user_run s s' ∧ ss_user_faulted (m_sys s') = true.
Definition faulting (m : MM unit) : Prop := ∀ s, quiet_run s (m s).2 ∨ ended s (m s).2.
Definition tame {A} (m : MM A) : Prop :=
  ∀ s, quiet_run s (m s).2 ∨ (ended s (m s).2 ∧ ∀ a, (m s).1 ≠ Ok a).

Section tame.
Implicit Types s : machine.

Lemma faulting_mark st : faulting (mark_user_fault st).
Proof.
  intros s. right. split; [apply user_fault|].
  destruct (mark_user_fault_run st s) as (m' & -> & _ & Hf & _). done.
Qed.
Lemma faulting_quiet m : Quiet m → faulting m.
Proof. intros H s. left. apply H. Qed.
Lemma faulting_then {A} (m : MM A) f : Quiet m → (∀ a, faulting (f a)) → faulting (bind m f).
Proof.
  intros Hm Hf s. specialize (Hm s). unfold bind. destruct (m s) as [[a|e|] s1]; simpl in *; [|by left..].
  destruct (Hf a s1) as [Hq|[Hu He]]; [left; by etrans|right; split; [by apply Hm|done]].
Qed.
Lemma tame_quiet {A} (m : MM A) : Quiet m → tame m.
Proof. intros H s. left. apply H. Qed.
Lemma tame_bind {A B} (m : MM A) (f : A → MM B) : tame m → (∀ a, tame (f a)) → tame (bind m f).
Proof.
  intros Hm Hf s. specialize (Hm s). unfold bind. destruct (m s) as [[a|e|] s1]; simpl in *.
  - destruct Hm as [Hm|[_ Hno]]; [|by destruct (Hno a)].
    destruct (Hf a s1) as [Hq|[[Hu He] Hno]]; [left; by etrans|right].
    split; [split; [by apply Hm|done]|done].
  - destruct Hm as [Hm|[He _]]; [by left|right; split; done].
  - destruct Hm as [Hm|[He _]]; [by left|right; split; done].
Qed.
Lemma tame_catch {A} (m : MM A) h : Quiet m → (∀ e, faulting (h e)) → tame (catch m h).
Proof.
  intros Hm Hh s. specialize (Hm s). unfold catch, recover, fail.
  destruct (m s) as [[a|e|] s1]; simpl in *; [by left| |by left].
  specialize (Hh e s1). destruct (h e s1) as [[[]|e'|] s2]; simpl in *;
    (destruct Hh as [Hq|[Hu He]]; [left; by etrans|right; split; [split; [by apply Hm|done]|done]]).
Qed.
End tame.

Section keeps_tasks.
#[global] Instance onmach_keeps {A} (m : MM A) : Keeps mview m → Keeps mview (onmach m).
Proof. intros H s. specialize (H s). unfold onmach, zoom. simpl. by destruct (m s). Qed.
#[global] Instance upd_sys_keeps f : Keeps mview (upd_sys f).
Proof. by intros s. Qed.
#[global] Instance onkern_keeps {A} (m : K A) : Keeps k_utasks m → Keeps mview (onkern m).
Proof. intros H. unfold onkern. apply _. Qed.
#[global] Instance user_store_utasks v src n : Keeps k_utasks (user_store v src n).
Proof.
  revert v src. induction n as [|n IH]; intros v src; [by destruct src|].
  destruct src as [|b src]; [apply _|]. cbn [user_store]. apply keeps_bind; [apply _|intros p].
  apply keeps_bind; [by intros k|intros _; apply IH].
Qed.
#[global] Instance write_struct_utasks {A} `{UserStruct A} p (x : A) : Keeps k_utasks (write_struct p x).
Proof. unfold write_struct, scdk_user_copy_to. apply _. Qed.
#[global] Instance cap_revoke_utasks c : Keeps k_utasks (scdk_cap_revoke c).
Proof. unfold scdk_cap_revoke. apply _. Qed.
#[global] Instance ring_create_utasks o n t : Keeps k_utasks (scdk_ring_create o n t).
Proof. unfold scdk_ring_create. apply _. Qed.
#[global] Instance user_grant_create_utasks t b l r e : Keeps k_utasks (scdk_user_grant_create t b l r e).
Proof. unfold scdk_user_grant_create, fill_ugrant. apply _. Qed.
#[global] Instance user_grant_revoke_utasks c : Keeps k_utasks (scdk_user_grant_revoke c).
Proof. unfold scdk_user_grant_revoke. apply _. Qed.
#[global] Instance user_ring_create_utasks t n : Keeps k_utasks (scdk_user_ring_create t n).
Proof. unfold scdk_user_ring_create. apply _. Qed.
#[global] Instance user_ring_bind_utasks t c e : Keeps k_utasks (scdk_user_ring_bind t c e).
Proof. unfold scdk_user_ring_bind, scdk_ring_bind_target. apply _. Qed.
#[global] Instance submit_descs_utasks c d i n : Keeps k_utasks (submit_descs c d i n).
Proof.
  revert i. induction n as [|n IH]; intros i; cbn [submit_descs]; [apply _|].
  unfold scdk_ring_submit. apply _.
Qed.
#[global] Instance submit_batch_utasks t c d n : Keeps k_utasks (submit_batch t c d n).
Proof. unfold submit_batch. apply _. Qed.
#[global] Instance user_ring_poll_utasks t c b n : Keeps k_utasks (scdk_user_ring_poll t c b n).
Proof.
  unfold scdk_user_ring_poll. repeat (apply keeps_bind; [apply _|intros ?]).
  generalize 0 as j, (Z.to_nat n) as fuel. intros j fuel. revert j.
  induction fuel as [|f IH]; intros j; cbn [poll_completions]; [apply _|].
  apply keeps_bind; [unfold scdk_ring_poll; apply _|]. intros [x|[]|]; apply _.
Qed.
End keeps_tasks.

#[global] Instance get_queue_utasks core : Keeps k_utasks (get_queue core).
Proof. unfold get_queue. apply _. Qed.
#[global] Instance put_queue_utasks core q : Keeps k_utasks (put_queue core q).
Proof. unfold put_queue. apply _. Qed.
#[global] Instance get_thread_utasks i : Keeps k_utasks (get_thread i).
Proof. unfold get_thread. apply _. Qed.
#[global] Instance dequeue_utasks core : Keeps k_utasks (dequeue_thread core).
Proof.
  unfold dequeue_thread. apply keeps_bind; [apply _|intros q]. generalize (Z.to_nat (rq_count q)) as fuel.
  induction fuel as [|f IH]; cbn [dequeue_loop]; apply _.
Qed.
#[global] Instance enqueue_utasks i : Keeps k_utasks (enqueue_thread i).
Proof. unfold enqueue_thread. apply _. Qed.
#[global] Instance switch_utasks regs n : Keeps k_utasks (switch_to_thread regs n).
Proof. unfold switch_to_thread. apply _. Qed.
#[global] Instance yield_utasks regs : Keeps k_utasks (scdk_yield regs).
Proof. unfold scdk_yield. apply _. Qed.

(** ** A call, seen from the table of tasks *)
Section calls.
Context (invoke : option (list Z) → handler_on machine).
Context (Hinvoke : ∀ b h ep msg ctx, Quiet (invoke b h ep msg ctx)).
Implicit Types s : machine.

#[local] Instance endpoint_call_quiet b ep msg : Quiet (scdk_endpoint_call (invoke b) ep msg).
Proof.
  intros s. unfold scdk_endpoint_call. destruct (endpoint_target (kernel_of s) ep) as [[[oid h] ctx]| |];
    [|by apply quiet_same..].
  apply (quiet_bind _ _ (Hinvoke b h ep (set_msg_target msg oid) ctx)). intros a. apply _.
Qed.
#[local] Instance reply_error_keeps ptr msg e : Keeps mview (reply_error ptr msg e).
Proof. unfold reply_error. apply _. Qed.
#[local] Instance kquery_keeps {A} (f : kernel → result A) : Keeps mview (kquery f).
Proof. unfold kquery. apply _. Qed.

Lemma faulting_capability st : faulting (onmach (scdk_fault_handle_capability_failure st)).
Proof.
  intros s. pose proof (faulting_mark st s) as H. unfold onmach, zoom, scdk_fault_handle_capability_failure.
  simpl. by destruct (mark_user_fault st s).
Qed.
Lemma faulting_pointer st : faulting (onmach (scdk_fault_handle_bad_user_pointer st)).
Proof.
  intros s. assert (faulting (scdk_fault_handle_bad_user_pointer st)) as H.
  { unfold scdk_fault_handle_bad_user_pointer. apply faulting_then; [apply _|intros _; apply faulting_mark]. }
  specialize (H s). unfold onmach, zoom. simpl. by destruct (scdk_fault_handle_bad_user_pointer st s).
Qed.

Lemma validate_reply_tame ptr msg : tame (validate_reply_buffer ptr msg).
Proof.
  apply tame_catch; [apply _|]. intros e. apply faulting_then; [apply _|intros _; apply faulting_pointer].
Qed.

Lemma prepare_request_tame buffer ptr msg : tame (prepare_request buffer ptr msg).
Proof.
  unfold prepare_request. destruct (carries_buffer _).
  - apply tame_bind.
    + apply tame_catch; [apply _|]. intros e. apply faulting_then; [apply _|intros _].
      case_bool_decide; [apply faulting_pointer|]. apply faulting_quiet. apply _.
    + intros p. apply tame_bind; [|intros _; apply tame_quiet, _].
      destruct (_ =? _); [apply validate_reply_tame|apply tame_quiet, _].
  - destruct (_ =? SCDK_MSG_READ).
    + apply tame_bind; [|intros _; apply tame_quiet, _].
      destruct (_ =? _); [apply validate_reply_tame|apply tame_quiet, _].
    + apply tame_quiet. destruct (passes_plain _); apply _.
Qed.

Lemma sys_endpoint_call_tame buffer ep ptr : tame (scdk_sys_endpoint_call invoke buffer ep ptr).
Proof.
  unfold scdk_sys_endpoint_call.
  apply tame_bind; [apply tame_catch; [apply _|intros e; apply faulting_capability]|intros _].
  apply tame_bind; [apply tame_catch; [apply _|intros e; apply faulting_pointer]|intros msg].
  apply tame_bind.
  - apply tame_catch; [apply _|]. intros e. apply faulting_then; [apply _|intros _; apply faulting_capability].
  - intros _. apply tame_bind; [apply prepare_request_tame|]. intros req. apply tame_quiet. unfold deliver. apply _.
Qed.

#[local] Instance finish_keeps st : Keeps mview (finish st).
Proof. unfold finish. apply _. Qed.
#[local] Instance finish_value_keeps r : Keeps mview (finish_value r).
Proof. unfold finish_value. apply _. Qed.
#[local] Instance pass_keeps st : Keeps mview (pass_if_ok st).
Proof. unfold pass_if_ok. apply _. Qed.
#[local] Instance as_task_quiet {A} (f : Z → MM A) : (∀ t, Quiet (f t)) → Quiet (as_task f).
Proof. intros Hf. unfold as_task. apply _. Qed.
#[local] Instance user_ring_submit_quiet t c d n : Quiet (scdk_user_ring_submit (invoke None) t c d n).
Proof. unfold scdk_user_ring_submit. apply _. Qed.

(** A call that goes back to the program has done nothing the program does not
    survive; a call that leaves it may have ended it. *)
Definition call_from s (o : result dispatch_result * machine) : Prop :=
  match o.1 with
  | Ok to_user | Ok (switched _) => quiet_run s o.2
  | _ => user_run s o.2
  end.
Lemma call_quiet s o : quiet_run s o.2 → call_from s o.
Proof. intros H. unfold call_from. destruct o.1 as [[]| |]; [done|by apply quiet_user_run|done|by apply quiet_user_run..]. Qed.

Lemma call_after_fault r s s1 :
  quiet_run s s1 ∨ ended s s1 →
  call_from s ((if ss_user_faulted (m_sys s1) then ret leave_user else pass_if_ok r ;; finish r) s1).
Proof.
  intros Hs1. destruct (ss_user_faulted (m_sys s1)) eqn:Ef.
  - destruct Hs1 as [Hq|[Hu _]]; [by apply call_quiet|done].
  - destruct Hs1 as [Hq|[_ He]]; [|congruence]. apply call_quiet. etrans; [exact Hq|].
    assert (Quiet (pass_if_ok r ;; finish r)) as H by apply _. apply H.
Qed.
Lemma call_endpoint buffer ep ptr s :
  call_from s ((let* status := attempt (scdk_sys_endpoint_call invoke buffer ep ptr) in
    let* faulted := gets (λ s, scdk_syscall_user_faulted (the_machine s)) in
    if (faulted : bool) then ret leave_user else pass_if_ok status ;; finish status) s).
Proof.
  pose proof (sys_endpoint_call_tame buffer ep ptr s) as Ht. unfold bind at 1, attempt.
  destruct (scdk_sys_endpoint_call invoke buffer ep ptr s) as [[[]|e|] s1]; simpl in Ht; [rewrite bind_gets..|].
  - apply call_after_fault. destruct Ht as [?|[_ Hno]]; [by left|by destruct (Hno tt)].
  - apply call_after_fault. destruct Ht as [?|[? _]]; [by left|by right].
  - destruct Ht as [?|[[? _] _]]; [by apply call_quiet|done].
Qed.

Lemma invalid_syscall_run s :
  call_from s ((onmach scdk_fault_handle_invalid_syscall ;; ret leave_user) s).
Proof.
  assert (faulting scdk_fault_handle_invalid_syscall) as H.
  { apply faulting_then; [apply _|intros _; apply faulting_mark]. }
  specialize (H s). unfold bind, onmach, zoom. simpl.
  destruct (scdk_fault_handle_invalid_syscall s) as [[[]|e|] s1]; simpl in *;
    (destruct H as [?|[? _]]; [by apply call_quiet|done]).
Qed.

Lemma dispatch_run buffer regs number arg0 arg1 arg2 arg3 s :
  call_from s (scdk_syscall_dispatch invoke buffer regs number arg0 arg1 arg2 arg3 s).
Proof.
  unfold scdk_syscall_dispatch. rewrite bind_gets.
  assert (∀ m : MM dispatch_result, Quiet m → call_from s (m s)) as Hq by (intros m Hm; apply call_quiet, Hm).
  destruct (negb _); [apply Hq, _|].
  destruct (_ =? SCDK_SYS_DEBUG_WRITE); [apply Hq, _|].
  destruct (_ =? SCDK_SYS_ENDPOINT_CALL); [apply call_endpoint|].
  destruct (_ =? SCDK_SYS_YIELD); [apply Hq; unfold dispatch_resume; apply _|].
  destruct (_ =? SCDK_SYS_EXIT); [apply Hq, _|].
  destruct (_ =? SCDK_SYS_GRANT_CREATE); [apply Hq, _|].
  destruct (_ =? SCDK_SYS_GRANT_REVOKE); [apply Hq, _|].
  destruct (_ =? SCDK_SYS_RING_CREATE); [apply Hq, _|].
  destruct (_ =? SCDK_SYS_RING_BIND); [apply Hq, _|].
  destruct (_ =? SCDK_SYS_RING_SUBMIT); [apply Hq, _|].
  destruct (_ =? SCDK_SYS_RING_POLL); [apply Hq, _|].
  apply invalid_syscall_run.
Qed.
End calls.

(** ** Programs that make system calls

    Between two calls a program computes on its own memory and registers; the
    next call may depend on everything the program can see. [others] is what the
    other threads do while a yield has switched away. *)
Record user_program := {
  up_compute : machine → machine;
  up_call : machine → option (Z * Z * Z * Z * Z);
  up_regs : machine → scdk_thread_context
}.

Section program.
Context (invoke : option (list Z) → handler_on machine) (payload_buffer : Z)
  (others : scdk_thread_context → MM unit).

(** At most [n] system calls. *)
Fixpoint run_program (p : user_program) (n : nat) : MM unit :=
  match n with
  | O => ret tt
  | S n =>
      modify (up_compute p) ;;
      let* call := gets (up_call p) in
      let* regs := gets (up_regs p) in
      match call with
      | None => ret tt
      | Some (number, arg0, arg1, arg2, arg3) =>
          let* r := scdk_syscall_dispatch invoke payload_buffer regs number arg0 arg1 arg2 arg3 in
          match r with
          | to_user => run_program p n
          | leave_user => ret tt
          | switched c =>
              others c ;;
              (dispatch_resume : MM dispatch_result) ;;
              run_program p n
          end
      end
  end.
End program.

(** What is asked of the rest of the system: handlers and other threads do to the
    table of tasks only what user programs may do, and computing changes no table. *)
Record well_behaved (invoke : option (list Z) → handler_on machine)
    (others : scdk_thread_context → MM unit) (p : user_program) : Prop := {
  wb_invoke : ∀ b h ep msg ctx, Quiet (invoke b h ep msg ctx);
  wb_others : ∀ c, Quiet (others c);
  wb_compute : ∀ s, mview (up_compute p s) = mview s
}.

Lemma run_program_user_run invoke buffer others p n s :
  well_behaved invoke others p → user_run s (run_program invoke buffer others p n s).2.
Proof.
  intros [Hi Ho Hc]. revert s. induction n as [|n IH]; intros s; [apply user_stop|]. cbn [run_program].
  rewrite bind_modify, !bind_gets. apply (user_call s (up_compute p s)); [apply Hc|].
  destruct (up_call p (up_compute p s)) as [[[[[num a0] a1] a2] a3]|]; [|apply user_stop].
  generalize (up_compute p s), (up_regs p (up_compute p s)). clear s. intros s regs.
  pose proof (dispatch_run invoke Hi buffer regs num a0 a1 a2 a3 s) as Hd. unfold bind at 1. unfold call_from in Hd.
  destruct (scdk_syscall_dispatch invoke buffer regs num a0 a1 a2 a3 s) as [[[| |c]|e|] s1]; simpl in *;
    [by apply Hd|done| |done..].
  specialize (Ho c s1). unfold bind. destruct (others c s1) as [[[]|e|] s2]; simpl in *;
    [|apply Hd, quiet_user_run, Ho..].
  apply Hd, Ho. by refine (user_call s2 _ _ _ (IH _)).
Qed.


(** ** Return values *)

(** A status word is in the last seven values; tokens and counts are not. *)
Definition error_word (v : Z) : Prop := two64 - 7 <= v < two64.

Section return_values.
Context {T : Type} `{HasMachine T}.
Implicit Types (s : T) (k : kernel).

Lemma cap_token_not_error c k e : scdk_cap_lookup k c = Ok e → ¬ error_word c.
Proof.
  intros Hl He. unfold scdk_cap_lookup, validate_cap_slot in Hl. minv Hl. minv E. bsplit.
  unfold cap_index in *. change 0xffffffff with (2 ^ 32 - 1) in *. rewrite land_mask_mod in * by done.
  unfold wrap32, SCDK_MAX_CAPS, error_word, two64, two32 in *. change (2 ^ 32) with 4294967296 in *.
  Z.to_euclidean_division_equations. lia.
Qed.
Lemma error_word_code e : error_word (wrap64 (err_code e)).
Proof. destruct e; vm_compute; split; congruence. Qed.

Lemma poll_completions_count cap base n : ∀ j k v k',
  poll_completions cap base j n k = (Ok v, k') → j <= v <= j + Z.of_nat n.
Proof.
  induction n as [|n IH]; intros j k v k' E; cbn [poll_completions] in E; [apply ret_inv in E as [-> _]; lia|].
  minv_step E. destruct a as [c|[]|]; try done.
  - minv_step E. apply IH in E. lia.
  - apply ret_inv in E as [-> _]. lia.
Qed.

(** The system calls that return a token or a count. *)
Definition value_call (number arg0 arg1 arg2 arg3 task : Z) : option (K Z) :=
  if number =? SCDK_SYS_GRANT_CREATE then Some (scdk_user_grant_create task arg0 arg1 arg2 arg3)
  else if number =? SCDK_SYS_RING_CREATE then Some (scdk_user_ring_create task (wrap32 arg0))
  else if number =? SCDK_SYS_RING_POLL then Some (scdk_user_ring_poll task arg0 arg1 (wrap32 arg2))
  else None.

Lemma value_call_token number arg0 arg1 arg2 arg3 task op k v k' :
  kernel_wf k → ugrants_wf k → value_call number arg0 arg1 arg2 arg3 task = Some op →
  op k = (Ok v, k') → ¬ error_word v.
Proof.
  intros Hwf Hug Hop E. unfold value_call in Hop.
  destruct (_ =? SCDK_SYS_GRANT_CREATE); [injection Hop as <-|
    destruct (_ =? SCDK_SYS_RING_CREATE); [injection Hop as <-|
      destruct (_ =? SCDK_SYS_RING_POLL); [injection Hop as <-|done]]].
  - apply user_grant_create_Ok in E as (i & oid & _ & _ & _ & _ & _ & Hgm); [|done..].
    destruct (gm_new _ _ _ _ _ _ Hgm) as (g & _ & Hl). by eapply cap_token_not_error.
  - unfold scdk_user_ring_create in E. do 4 minv_step E. repeat minv_leaf.
    destruct (find_slot _ _) as [i|]; [|done]. minv_step E. minv E.
    apply ring_create_Ok in E3 as (j & oid & x & _ & _ & _ & _ & Hm); [|done|apply wrap32_range].
    destruct (mt_object _ _ _ _ _ _ _ _ _ _ Hm) as (g & _ & Hl). by eapply cap_token_not_error.
  - unfold scdk_user_ring_poll in E. do 4 minv_step E. apply poll_completions_count in E.
    repeat minv_leaf. destruct a. apply validate_count_Ok in E0; [|apply wrap32_range].
    unfold error_word, SCDK_RING_MAX_ENTRIES, two64 in *. lia.
Qed.

Lemma value_call_dispatch invoke buffer regs number arg0 arg1 arg2 arg3 s :
  scdk_syscall_ready (the_machine s) = true →
  (∀ task, value_call number arg0 arg1 arg2 arg3 task ≠ None) →
  ∃ f : Z → K Z, (∀ task, value_call number arg0 arg1 arg2 arg3 task = Some (f task)) ∧
    scdk_syscall_dispatch invoke buffer regs number arg0 arg1 arg2 arg3 s =
    (let* r := as_task (λ task, onkern (f task)) in finish_value r) s.
Proof.
  intros Hr Hv. unfold scdk_syscall_dispatch. rewrite bind_gets, Hr. cbn [negb].
  unfold value_call in *. destruct (Z.eqb_spec number SCDK_SYS_GRANT_CREATE) as [->|_]; [by eexists|].
  destruct (Z.eqb_spec number SCDK_SYS_RING_CREATE) as [->|_]; [by eexists|].
  destruct (Z.eqb_spec number SCDK_SYS_RING_POLL) as [->|_]; [by eexists|]. by destruct (Hv 0).
Qed.

(** The value a system call returns tells success from failure: creating a
    grant, creating a ring and polling return a token or a count that is never
    one of the seven status codes (as unsigned words), and the kernel is the one
    the operation leaves; otherwise they return the status code of the error. *)
Theorem syscall_value_unambiguous (invoke : option (list Z) → handler_on T) (buffer : Z)
  (regs : scdk_thread_context) (number arg0 arg1 arg2 arg3 : Z) s s' (r : result dispatch_result)
  (Hwf : kernel_wf (kernel_of s)) (Hug : ugrants_wf (kernel_of s))
  (Hready : scdk_syscall_ready (the_machine s) = true)
  (Hvalue : ∀ task, value_call number arg0 arg1 arg2 arg3 task ≠ None) (Hdef : r ≠ Ub)
  (Hrun : scdk_syscall_dispatch invoke buffer regs number arg0 arg1 arg2 arg3 s = (r, s')) :
  let v := ss_return_value (m_sys (the_machine s')) in
  r = Ok to_user ∧
  ((¬ error_word v ∧ ∃ task op, scdk_user_task_current (kernel_of s) = Ok task ∧
      value_call number arg0 arg1 arg2 arg3 task = Some op ∧ op (kernel_of s) = (Ok v, kernel_of s')) ∨
   (error_word v ∧ ∃ e, v = wrap64 (err_code e) ∧
      (scdk_user_task_current (kernel_of s) = Err e ∨ ∃ task op, scdk_user_task_current (kernel_of s) = Ok task ∧
         value_call number arg0 arg1 arg2 arg3 task = Some op ∧ op (kernel_of s) = (Err e, kernel_of s')))).
Proof.
  destruct (value_call_dispatch invoke buffer regs number arg0 arg1 arg2 arg3 s Hready Hvalue) as (f & Hf & E).
  rewrite E in Hrun. clear E. revert Hrun. unfold as_task, finish_value, bind, attempt, query.
  destruct (scdk_user_task_current (kernel_of s)) as [task|e|] eqn:Et; [|..].
  - rewrite onkern_run. destruct (f task (kernel_of s)) as [[v|e|] k'] eqn:Ef; cbn [fst snd];
      [| |by intros [= <- _]]; cbv beta iota; rewrite onmach_run; simpl; intros [= <- <-]; rewrite !machine_put; simpl;
      rewrite kernel_put; (split; [done|]).
    + left. split; [by eapply value_call_token; [..|apply (Hf task)|exact Ef]|]. by exists task, (f task).
    + right. split; [apply error_word_code|]. exists e. split; [done|]. right. by exists task, (f task).
  - cbv beta iota. rewrite onmach_run. simpl. intros [= <- <-]. rewrite machine_put. simpl. split; [done|]. right.
    split; [apply error_word_code|]. exists e. split; [done|by left].
  - unfold scdk_user_task_current, rguard in Et. by destruct (_ =? 0).
Qed.
End return_values.

(** ** Witnesses

    A program that polls nothing and exits, on the machine of [demo_created]; a
    poll of the ring of [demo_uring]. *)
Definition exit_program : user_program := {|
  up_compute := λ s, s; up_call := λ _, Some (SCDK_SYS_EXIT, 0, 0, 0, 0); up_regs := λ _, null_context |}.
Definition exit_platform : platform := {|
  enter_user := λ _ _ _, run_program demo_invoke 8192 (λ _, ret tt) exit_program 1;
  test_stub := [144]; page_fault_stub := [144]; invalid_syscall_stub := [144]; bad_pointer_stub := [144];
  tss_address := 0x100000; syscall_stack_end := 0x200000; scdk_syscall_entry := 0x100100;
  scdk_isr_invalid_opcode := 0x100200; scdk_isr_general_protection := 0x100300;
  scdk_isr_page_fault := 0x100400 |}.
Definition exit_ran : machine :=
  (scdk_user_task_run_flat exit_platform demo_task.1.1 demo_image 3 demo_ep 1 demo_created).2.

Lemma exit_run_returns :
  (scdk_user_task_run_flat exit_platform demo_task.1.1 demo_image 3 demo_ep 1 demo_created).1 = Err SCDK_ERR_BUSY.
Proof. vm_compute. reflexivity. Qed.


Definition demo_polling : kernel := set_current_utask 4294967297 demo_uring.
Lemma demo_polling_grants : ugrants_wf demo_polling.
Proof.
  assert (k_ugrants demo_polling = replicate 128 null_user_grant) as E by (vm_compute; reflexivity).
  split; intros i s; rewrite E; intros [-> _]%lookup_replicate.
  - intros Hne. destruct (Hne eq_refl).
  - change (u64 0 ∧ u64 0). unfold u64, two64. lia.
Qed.
Lemma demo_polling_kwf : kernel_wf demo_polling.
Proof.
  apply (kernel_wf_frame demo_uring demo_polling demo_uring_kwf); [reflexivity..|].
  destruct (kwf_sized _ demo_uring_kwf). split; assumption.
Qed.

Lemma syscall_value_unambiguous_witness :
  ¬ error_word (ss_return_value (m_sys (scdk_syscall_dispatch demo_invoke 8192 null_context SCDK_SYS_RING_POLL
      4294967298 4194400 4 0 (machine_of demo_polling)).2)).
Proof.
  pose proof demo_polling_kwf as Hwf. pose proof demo_polling_grants as Hug.
  pose proof (kernel_machine demo_polling) as Ek. rewrite <-Ek in Hwf, Hug. clear Ek.
  destruct (syscall_value_unambiguous demo_invoke 8192 null_context SCDK_SYS_RING_POLL 4294967298 4194400 4 0
    (machine_of demo_polling) (scdk_syscall_dispatch demo_invoke 8192 null_context SCDK_SYS_RING_POLL
      4294967298 4194400 4 0 (machine_of demo_polling)).2 (Ok to_user) Hwf Hug) as [_ [[H _]|[He _]]].
  - reflexivity.
  - intros task. discriminate.
  - discriminate.
  - apply run_to; [reflexivity|]. vm_compute. reflexivity.
  - exact H.
  - exfalso. revert He. vm_compute. intros [H _]. exact (H eq_refl).
Defined.
