(* ===== verification/Circular.v ===== *)
(** * Circular buffers

    The keyboard queue and the trace of the log keep a window of their history
    in a fixed array, from a start index on, modulo the size. *)
From stdpp Require Import base list numbers.
From Stdlib Require Import ZArith Lia.
From S2P Require Import Prelude.

#[local] Open Scope Z_scope.

Section circular.
Context {A : Type} (size : Z) (Hsize : 0 < size).
Implicit Types (buf : list A) (start : Z) (n : nat).

Definition slot_of (i : Z) : nat := Z.to_nat (i mod size).

(** The [n] elements from [start] on. *)
Definition circular buf start n : list A :=
  omap (λ i : nat, buf !! slot_of (start + Z.of_nat i)) (seq 0 n).

Lemma slot_of_lt i : (slot_of i < Z.to_nat size)%nat.
Proof. unfold slot_of. pose proof (Z.mod_pos_bound i size Hsize). lia. Qed.
Lemma slot_of_mod i j : slot_of (i mod size + j) = slot_of (i + j).
Proof. unfold slot_of. by rewrite Zplus_mod_idemp_l. Qed.
Lemma slot_of_eq i j : slot_of i = slot_of j → i mod size = j mod size.
Proof.
  unfold slot_of. pose proof (Z.mod_pos_bound i size Hsize). pose proof (Z.mod_pos_bound j size Hsize). lia.
Qed.
Lemma slot_of_inj i j : Z.abs (i - j) < size → slot_of i = slot_of j → i = j.
Proof.
  intros Hd E%slot_of_eq. assert ((i - j) mod size = 0) as H0 by (by rewrite Zminus_mod, E, Z.sub_diag, Zmod_0_l).
  apply Z.mod_divide in H0 as [q Hq]; [|lia]. destruct (Z.eq_dec q 0) as [->|Hne]; [lia|nia].
Qed.

Lemma circular_full buf start n :
  length buf = Z.to_nat size → ∀ m, is_Some (buf !! slot_of (start + Z.of_nat m)).
Proof. intros Hl m. apply lookup_lt_is_Some_2. rewrite Hl. apply slot_of_lt. Qed.

Lemma circular_snoc buf start n x :
  buf !! slot_of (start + Z.of_nat n) = Some x → circular buf start (S n) = circular buf start n ++ [x].
Proof. intros Hx. unfold circular. rewrite seq_S, omap_app. csimpl. by rewrite Hx. Qed.

Lemma circular_length buf start n : length buf = Z.to_nat size → length (circular buf start n) = n.
Proof.
  intros Hl. induction n as [|n IH]; [done|].
  destruct (circular_full buf start n Hl n) as [x Hx]. rewrite (circular_snoc _ _ _ x Hx), length_app, IH. simpl. lia.
Qed.

Lemma circular_ext buf buf' start n :
  (∀ i : nat, (i < n)%nat → buf !! slot_of (start + Z.of_nat i) = buf' !! slot_of (start + Z.of_nat i)) →
  circular buf start n = circular buf' start n.
Proof.
  unfold circular. induction n as [|n IH]; intros H; [done|]. rewrite seq_S, !omap_app. rewrite IH by auto.
  csimpl. by rewrite (H n) by lia.
Qed.

Lemma circular_start buf start n : circular buf (start mod size) n = circular buf start n.
Proof. unfold circular. induction n as [|n IH]; [done|]. rewrite seq_S, !omap_app, IH. csimpl. by rewrite slot_of_mod. Qed.

(** An element added behind a window that is not full. *)
Lemma circular_push buf start n x :
  length buf = Z.to_nat size → Z.of_nat n < size →
  circular (<[slot_of (start + Z.of_nat n) := x]> buf) start (S n) = circular buf start n ++ [x].
Proof.
  intros Hl Hn. rewrite (circular_snoc _ _ _ x) by (rewrite list_lookup_insert_eq; [done|rewrite Hl; apply slot_of_lt]).
  f_equal. apply circular_ext. intros i Hi. apply list_lookup_insert_ne.
  intros E%slot_of_inj; lia.
Qed.

(** The oldest element taken out. *)
Lemma circular_pop buf start n :
  length buf = Z.to_nat size →
  ∃ x, buf !! slot_of start = Some x ∧ circular buf start (S n) = x :: circular buf (start + 1) n.
Proof.
  intros Hl. destruct (circular_full buf start n Hl 0) as [x Hx]. rewrite Z.add_0_r in Hx. exists x. split; [done|].
  induction n as [|n IH].
  - unfold circular. csimpl. by rewrite Z.add_0_r, Hx.
  - destruct (circular_full buf start n Hl (S n)) as [y Hy]. rewrite (circular_snoc _ _ _ y Hy), IH.
    rewrite (circular_snoc buf (start + 1) n y); [done|]. rewrite <-Hy. do 2 f_equal. lia.
Qed.
End circular.
