(* ===== verification/Keyboard.v ===== *)
(** * Keyboard and terminal service
    ([src/drivers/input/ps2_keyboard.c], [src/services/tty_service.c])

    The driver is polled: a poll returns a queued event or reads one byte from
    the controller and decodes it. The controller is hardware: [PS2] states what
    its two ports do. *)
From stdpp Require Import base list numbers relations.
From Stdlib Require Import ZArith Lia.
From Stdlib Require String Ascii.
Import (notations) String.
From S2P Require Import Prelude.
From S2P Require Import Kernel.
From S2P Require Import Endpoint.
From S2P Require Import Circular.

#[local] Open Scope Z_scope.

Definition PS2_DATA_PORT : Z := 0x60.
Definition PS2_STATUS_PORT : Z := 0x64.
Definition PS2_STATUS_OUTPUT_FULL : Z := 1.
Definition KEY_QUEUE_SIZE : Z := 32.

Definition SCDK_INPUT_KEY_DOWN : Z := 1.
Definition SCDK_INPUT_KEY_UP : Z := 2.
Definition SCDK_INPUT_MOD_SHIFT : Z := 1.
Definition SCDK_INPUT_MOD_CAPS_LOCK : Z := 2.
Definition SCDK_KEY_NONE : Z := 0.
Definition SCDK_KEY_ENTER : Z := 13.
Definition SCDK_KEY_BACKSPACE : Z := 8.
Definition SCDK_KEY_TAB : Z := 9.
Definition SCDK_KEY_ESCAPE : Z := 27.
Definition SCDK_KEY_CAPS_LOCK : Z := 58.
Definition SCDK_KEY_HOME : Z := 0x100.
Definition SCDK_KEY_UP : Z := 0x101.
Definition SCDK_KEY_PAGE_UP : Z := 0x102.
Definition SCDK_KEY_LEFT : Z := 0x103.
Definition SCDK_KEY_RIGHT : Z := 0x104.
Definition SCDK_KEY_END : Z := 0x105.
Definition SCDK_KEY_DOWN : Z := 0x106.
Definition SCDK_KEY_PAGE_DOWN : Z := 0x107.

(** ** Key maps *)
Record key_map_entry := mk_key {
  km_keycode : Z;
  km_normal : Z;
  km_shifted : Z
}.

(** The designated entries of the two arrays of 128; every other entry is zero. *)
Definition scancode_set1 : list (Z * key_map_entry) :=
  [ (0x01, mk_key SCDK_KEY_ESCAPE 27 27); (0x02, mk_key 49 49 33); (0x03, mk_key 50 50 64);
    (0x04, mk_key 51 51 35); (0x05, mk_key 52 52 36); (0x06, mk_key 53 53 37);
    (0x07, mk_key 54 54 94); (0x08, mk_key 55 55 38); (0x09, mk_key 56 56 42);
    (0x0a, mk_key 57 57 40); (0x0b, mk_key 48 48 41); (0x0c, mk_key 45 45 95);
    (0x0d, mk_key 61 61 43); (0x0e, mk_key SCDK_KEY_BACKSPACE 8 8); (0x0f, mk_key SCDK_KEY_TAB 9 9);
    (0x10, mk_key 113 113 81); (0x11, mk_key 119 119 87); (0x12, mk_key 101 101 69);
    (0x13, mk_key 114 114 82); (0x14, mk_key 116 116 84); (0x15, mk_key 121 121 89);
    (0x16, mk_key 117 117 85); (0x17, mk_key 105 105 73); (0x18, mk_key 111 111 79);
    (0x19, mk_key 112 112 80); (0x1a, mk_key 91 91 123); (0x1b, mk_key 93 93 125);
    (0x1c, mk_key SCDK_KEY_ENTER 10 10); (0x1e, mk_key 97 97 65); (0x1f, mk_key 115 115 83);
    (0x20, mk_key 100 100 68); (0x21, mk_key 102 102 70); (0x22, mk_key 103 103 71);
    (0x23, mk_key 104 104 72); (0x24, mk_key 106 106 74); (0x25, mk_key 107 107 75);
    (0x26, mk_key 108 108 76); (0x27, mk_key 59 59 58); (0x28, mk_key 39 39 34);
    (0x29, mk_key 96 96 126); (0x2b, mk_key 92 92 124); (0x2c, mk_key 122 122 90);
    (0x2d, mk_key 120 120 88); (0x2e, mk_key 99 99 67); (0x2f, mk_key 118 118 86);
    (0x30, mk_key 98 98 66); (0x31, mk_key 110 110 78); (0x32, mk_key 109 109 77);
    (0x33, mk_key 44 44 60); (0x34, mk_key 46 46 62); (0x35, mk_key 47 47 63);
    (0x39, mk_key 32 32 32); (0x3a, mk_key SCDK_KEY_CAPS_LOCK 0 0) ].

Definition extended_scancode_set1 : list (Z * key_map_entry) :=
  [ (0x47, mk_key SCDK_KEY_HOME 0 0); (0x48, mk_key SCDK_KEY_UP 0 0); (0x49, mk_key SCDK_KEY_PAGE_UP 0 0);
    (0x4b, mk_key SCDK_KEY_LEFT 0 0); (0x4d, mk_key SCDK_KEY_RIGHT 0 0); (0x4f, mk_key SCDK_KEY_END 0 0);
    (0x50, mk_key SCDK_KEY_DOWN 0 0); (0x51, mk_key SCDK_KEY_PAGE_DOWN 0 0) ].

Fixpoint key_at (table : list (Z * key_map_entry)) (code : Z) : key_map_entry :=
  match table with
  | [] => mk_key 0 0 0
  | (c, entry) :: table => if c =? code then entry else key_at table code
  end.

(** ** State *)
Record scdk_input_event := mk_event {
  ie_timestamp : Z;
  ie_type : Z;
  ie_keycode : Z;
  ie_ascii : Z;
  ie_modifiers : Z;
  ie_flags : Z
}.
Definition null_event : scdk_input_event := mk_event 0 0 0 0 0 0.

(** The variables that decoding uses. *)
Record decoder := mk_decoder {
  event_clock : Z;
  left_shift_down : bool;
  right_shift_down : bool;
  caps_lock_on : bool;
  extended_scancode_pending : bool
}.

Record keyboard := mk_keyboard {
  kq_events : list scdk_input_event;
  kq_head : Z;
  kq_tail : Z;
  kq_count : Z;
  kb_decoder : decoder;
  keyboard_initialized : bool
}.

(** Before anything runs. *)
Definition boot_keyboard : keyboard :=
  mk_keyboard (replicate (Z.to_nat KEY_QUEUE_SIZE) null_event) 0 0 0 (mk_decoder 0 false false false false) false.

(** ** Decoding *)
Definition is_alpha_entry (e : key_map_entry) : bool :=
  (97 <=? km_normal e) && (km_normal e <=? 122) && (65 <=? km_shifted e) && (km_shifted e <=? 90).
Definition shift_down (d : decoder) : bool := left_shift_down d || right_shift_down d.
Definition current_modifiers (d : decoder) : Z :=
  let modifiers := if shift_down d then SCDK_INPUT_MOD_SHIFT else 0 in
  if caps_lock_on d then Z.lor modifiers SCDK_INPUT_MOD_CAPS_LOCK else modifiers.
Definition ascii_for_entry (d : decoder) (e : key_map_entry) : Z :=
  let shift := shift_down d in
  if is_alpha_entry e
  then if negb (eqb shift (caps_lock_on d)) then km_shifted e else km_normal e
  else if shift then km_shifted e else km_normal e.

Definition set_extended (b : bool) (d : decoder) : decoder :=
  mk_decoder (event_clock d) (left_shift_down d) (right_shift_down d) (caps_lock_on d) b.
Definition set_left_shift (b : bool) (d : decoder) : decoder :=
  mk_decoder (event_clock d) b (right_shift_down d) (caps_lock_on d) (extended_scancode_pending d).
Definition set_right_shift (b : bool) (d : decoder) : decoder :=
  mk_decoder (event_clock d) (left_shift_down d) b (caps_lock_on d) (extended_scancode_pending d).
Definition toggle_caps (d : decoder) : decoder :=
  mk_decoder (event_clock d) (left_shift_down d) (right_shift_down d) (negb (caps_lock_on d))
    (extended_scancode_pending d).
Definition tick (d : decoder) : decoder :=
  mk_decoder (wrap64 (event_clock d + 1)) (left_shift_down d) (right_shift_down d) (caps_lock_on d)
    (extended_scancode_pending d).

(** [handle_scancode] up to the queue: the decoder after a byte, and the event
    to queue. *)
Definition decode_scancode (d : decoder) (scancode : Z) : decoder * option scdk_input_event :=
  if scancode =? 0xe0 then (set_extended true d, None)
  else
    let extended := extended_scancode_pending d in
    let d := set_extended false d in
    let released := negb (Z.land scancode 0x80 =? 0) in
    let code := Z.land scancode 0x7f in
    if negb extended && (code =? 0x2a) then (set_left_shift (negb released) d, None)
    else if negb extended && (code =? 0x36) then (set_right_shift (negb released) d, None)
    else if 128 <=? code then (d, None)
    else
      let entry := key_at (if extended then extended_scancode_set1 else scancode_set1) code in
      if km_keycode entry =? 0 then (d, None)
      else
        let d := if (km_keycode entry =? SCDK_KEY_CAPS_LOCK) && negb released then toggle_caps d else d in
        let d := tick d in
        (d, Some (mk_event (event_clock d)
              (if released then SCDK_INPUT_KEY_UP else SCDK_INPUT_KEY_DOWN) (km_keycode entry)
              (if released then 0 else ascii_for_entry d entry) (current_modifiers d) 0)).

(** ** The queue *)
Definition set_decoder (d : decoder) (k : keyboard) : keyboard :=
  mk_keyboard (kq_events k) (kq_head k) (kq_tail k) (kq_count k) d (keyboard_initialized k).

Definition enqueue_event (event : scdk_input_event) : M keyboard unit :=
  let* k := gets (λ k, k) in
  guard (KEY_QUEUE_SIZE <=? kq_count k) SCDK_ERR_BUSY ;;
  (if Z.of_nat (length (kq_events k)) <=? kq_tail k then ub else ret tt) ;;
  modify (λ k, mk_keyboard (<[Z.to_nat (kq_tail k) := event]> (kq_events k)) (kq_head k)
            (wrap32 (kq_tail k + 1) mod KEY_QUEUE_SIZE) (wrap32 (kq_count k + 1)) (kb_decoder k)
            (keyboard_initialized k)).

Definition dequeue_event : M keyboard scdk_input_event :=
  let* k := gets (λ k, k) in
  guard (kq_count k =? 0) SCDK_ERR_NOENT ;;
  let* event := lift (deref (kq_events k !! Z.to_nat (kq_head k))) in
  modify (λ k, mk_keyboard (kq_events k) (wrap32 (kq_head k + 1) mod KEY_QUEUE_SIZE) (kq_tail k)
            (wrap32 (kq_count k - 1)) (kb_decoder k) (keyboard_initialized k)) ;;
  ret event.

Definition handle_scancode (scancode : Z) : M keyboard unit :=
  let* d := gets kb_decoder in
  let (d, event) := decode_scancode d scancode in
  modify (set_decoder d) ;;
  match event with
  | None => fail SCDK_ERR_NOENT
  | Some event => enqueue_event event
  end.

(** The queue's storage is not cleared. *)
Definition scdk_keyboard_init : M keyboard unit :=
  modify (λ k, mk_keyboard (kq_events k) 0 0 0 (mk_decoder 0 false false false false) true).

(** ** The controller

    [inb] reads a port. [pending] are the bytes the controller has not handed
    over: bit 0 of the status port says whether there are any, the data port
    hands over the first. *)
Class PS2 (H : Type) := {
  inb : Z → H → Z * H;
  pending : H → list Z;
  inb_status h :
    pending (inb PS2_STATUS_PORT h).2 = pending h ∧
    (Z.land (inb PS2_STATUS_PORT h).1 PS2_STATUS_OUTPUT_FULL = 0 ↔ pending h = []);
  inb_data h b bs :
    pending h = b :: bs → (inb PS2_DATA_PORT h).1 = b ∧ pending (inb PS2_DATA_PORT h).2 = bs;
  pending_bytes h : Forall (λ b, 0 <= b < 256) (pending h)
}.

Section driver.
Context {H : Type} `{PS2 H}.

Definition on_keyboard {A} (m : M keyboard A) : M (keyboard * H) A := zoom fst (λ k s, (k, s.2)) m.
Definition read_port (port : Z) : M (keyboard * H) Z := λ s,
  let (v, h) := inb port s.2 in (Ok v, (s.1, h)).

Definition scdk_keyboard_poll : M (keyboard * H) scdk_input_event :=
  let* ready := gets (λ s, keyboard_initialized s.1) in
  (if (ready : bool) then ret tt else on_keyboard scdk_keyboard_init) ;;
  let* event := attempt (on_keyboard dequeue_event) in
  match event with
  | Ok event => ret event
  | _ =>
      let* status := read_port PS2_STATUS_PORT in
      guard (Z.land status PS2_STATUS_OUTPUT_FULL =? 0) SCDK_ERR_NOENT ;;
      let* scancode := read_port PS2_DATA_PORT in
      attempt (on_keyboard (handle_scancode scancode)) ;;
      on_keyboard dequeue_event
  end.
End driver.

Definition scdk_keyboard_inject_test_key (ascii : Z) : M keyboard unit :=
  let* ready := gets keyboard_initialized in
  (if (ready : bool) then ret tt else scdk_keyboard_init) ;;
  guard ((ascii =? 0) || (0x7f <? ascii)) SCDK_ERR_INVAL ;;
  modify (λ k, set_decoder (tick (kb_decoder k)) k) ;;
  let* clock := gets (λ k, event_clock (kb_decoder k)) in
  enqueue_event (mk_event clock SCDK_INPUT_KEY_DOWN ascii ascii 0 0).

(** ** The terminal service *)
Definition SCDK_TTY_INFO_POLLING : Z := 1.
(** [sizeof(struct scdk_input_event)], padded to the alignment of [uint64_t]. *)
Definition event_sizeof : Z := 32.

Definition scdk_tty_pack_event (e : scdk_input_event) : Z * Z * Z * Z :=
  (ie_timestamp e, Z.lor (wrap64 (Z.shiftl (ie_type e) 32)) (ie_keycode e), ie_ascii e,
   Z.lor (wrap64 (Z.shiftl (ie_modifiers e) 32)) (ie_flags e)).

Section tty.
Context {H : Type} `{PS2 H}.

Definition tty_endpoint_handler_fn (msg : scdk_message) : M (keyboard * H) (scdk_message * result unit) :=
  if msg_type msg =? SCDK_MSG_TTY_POLL_EVENT then
    let* event := attempt scdk_keyboard_poll in
    match event with
    | Ok event =>
        let '(a0, a1, a2, a3) := scdk_tty_pack_event event in
        ret (set_msg_args msg a0 a1 a2 a3, Ok tt)
    | Err e => ret (msg, Err e)
    | Ub => ub
    end
  else if msg_type msg =? SCDK_MSG_TTY_GET_INFO then
    ret (set_msg_args msg event_sizeof SCDK_TTY_INFO_POLLING 0 0, Ok tt)
  else ret (msg, Err SCDK_ERR_NOTSUP).
End tty.

(** The kernel, the keyboard, and [tty_started]. *)
Definition scdk_tty_service_init : M (kernel * keyboard * bool) Z :=
  let* started := gets snd in
  guard started SCDK_ERR_BUSY ;;
  zoom (λ s, s.1.2) (λ k s, (s.1.1, k, s.2)) scdk_keyboard_init ;;
  let* endpoint := zoom (λ s, s.1.1) (λ k s, (k, s.1.2, s.2))
                     (scdk_endpoint_create SCDK_BOOT_CORE (Some tty_endpoint_handler) 0) in
  zoom (λ s, s.1.1) (λ k s, (k, s.1.2, s.2)) (scdk_service_register SCDK_SERVICE_TTY endpoint) ;;
  modify (λ s, (s.1, true)) ;;
  ret endpoint.

(** ** The queue is a bounded queue *)
Record keyboard_wf (k : keyboard) : Prop := {
  kw_storage : length (kq_events k) = Z.to_nat KEY_QUEUE_SIZE;
  kw_head : 0 <= kq_head k < KEY_QUEUE_SIZE;
  kw_count : 0 <= kq_count k <= KEY_QUEUE_SIZE;
  kw_tail : kq_tail k = (kq_head k + kq_count k) mod KEY_QUEUE_SIZE
}.
(** The events waiting, oldest first. *)
Definition queued (k : keyboard) : list scdk_input_event :=
  circular KEY_QUEUE_SIZE (kq_events k) (kq_head k) (Z.to_nat (kq_count k)).

Section queue_facts.
Implicit Types (k : keyboard) (e : scdk_input_event).

Lemma queued_length k : keyboard_wf k → Z.of_nat (length (queued k)) = kq_count k.
Proof. intros [Hl _ Hc _]. unfold queued. rewrite circular_length by done. lia. Qed.
Lemma queued_none k : keyboard_wf k → kq_count k = 0 ↔ queued k = [].
Proof.
  intros Hk. pose proof (queued_length k Hk) as Hl. destruct (queued k); simpl in Hl; split; intros; done || lia.
Qed.

Lemma enqueue_run k e :
  keyboard_wf k →
  if decide (Z.of_nat (length (queued k)) = KEY_QUEUE_SIZE) then enqueue_event e k = (Err SCDK_ERR_BUSY, k)
  else ∃ k', enqueue_event e k = (Ok tt, k') ∧ keyboard_wf k' ∧ queued k' = queued k ++ [e] ∧
         kb_decoder k' = kb_decoder k ∧ keyboard_initialized k' = keyboard_initialized k.
Proof.
  intros Hk. rewrite queued_length by done. pose proof Hk as [Hl Hh Hc Ht]. unfold enqueue_event.
  rewrite bind_gets. case_decide as Hfull.
  { by rewrite bind_stop by (apply Z.leb_le; lia). }
  rewrite bind_guard by (apply Z.leb_gt; lia).
  assert (kq_tail k < Z.of_nat (length (kq_events k)) ∧ 0 <= kq_tail k) as Htl.
  { rewrite Hl, Ht. pose proof (Z.mod_pos_bound (kq_head k + kq_count k) KEY_QUEUE_SIZE ltac:(done)).
    unfold KEY_QUEUE_SIZE in *. lia. }
  rewrite (proj2 (Z.leb_gt _ _)) by lia. rewrite bind_ret. eexists. split; [done|].
  assert (wrap32 (kq_count k + 1) = kq_count k + 1) as Ec.
  { apply Z.mod_small. unfold KEY_QUEUE_SIZE, two32 in *. lia. }
  assert (wrap32 (kq_tail k + 1) = kq_tail k + 1) as Et.
  { apply Z.mod_small. unfold KEY_QUEUE_SIZE, two32 in *. rewrite Hl in Htl. lia. }
  split; [|split; [|done]].
  - split; simpl; [by rewrite length_insert|done|rewrite Ec; lia|].
    rewrite Et, Ec, Ht, Zplus_mod_idemp_l. f_equal. lia.
  - unfold queued. simpl. rewrite Ec, Z2Nat.inj_add by lia. change (Z.to_nat 1) with 1%nat. rewrite Nat.add_1_r.
    rewrite <-(circular_push KEY_QUEUE_SIZE ltac:(done)); [|done|lia]. f_equal. f_equal.
    unfold slot_of. rewrite Ht, Z2Nat.id by lia. done.
Qed.

Lemma dequeue_run k :
  keyboard_wf k →
  match queued k with
  | [] => dequeue_event k = (Err SCDK_ERR_NOENT, k)
  | e :: q => ∃ k', dequeue_event k = (Ok e, k') ∧ keyboard_wf k' ∧ queued k' = q ∧
                kb_decoder k' = kb_decoder k ∧ keyboard_initialized k' = keyboard_initialized k
  end.
Proof.
  intros Hk. pose proof (queued_none k Hk) as Hn. pose proof Hk as [Hl Hh Hc Ht]. unfold dequeue_event.
  rewrite bind_gets. destruct (Z.eqb_spec (kq_count k) 0) as [E0|Hne].
  { rewrite (proj1 Hn E0). by rewrite bind_stop. }
  rewrite bind_guard by done. unfold queued.
  destruct (Z.to_nat (kq_count k)) as [|n] eqn:En; [lia|].
  destruct (circular_pop KEY_QUEUE_SIZE ltac:(done) (kq_events k) (kq_head k) n Hl) as (x & Hx & ->).
  unfold slot_of in Hx. rewrite Z.mod_small in Hx by done. rewrite Hx.
  assert (wrap32 (kq_count k - 1) = Z.of_nat n) as Ec.
  { unfold wrap32. rewrite Z.mod_small; [lia|]. unfold KEY_QUEUE_SIZE, two32 in *. lia. }
  assert (wrap32 (kq_head k + 1) = kq_head k + 1) as Eh.
  { apply Z.mod_small. unfold KEY_QUEUE_SIZE, two32 in *. lia. }
  eexists. split; [reflexivity|]. split; [|split; [|done]].
  - split; simpl; [done|by apply Z.mod_pos_bound|rewrite Ec; unfold KEY_QUEUE_SIZE in *; lia|].
    rewrite Ec, Eh, Ht, Zplus_mod_idemp_l. f_equal. lia.
  - unfold queued. simpl. rewrite Ec, Nat2Z.id, Eh. apply circular_start.
Qed.

Lemma boot_keyboard_wf : keyboard_wf boot_keyboard.
Proof. split; [apply length_replicate|done..]. Qed.
Lemma init_keyboard_wf k :
  length (kq_events k) = Z.to_nat KEY_QUEUE_SIZE →
  keyboard_wf (scdk_keyboard_init k).2 ∧ queued (scdk_keyboard_init k).2 = [].
Proof. intros Hl. split; [by split|done]. Qed.
End queue_facts.

(** ** Polling loses nothing *)

(** The events a sequence of bytes means. *)
Fixpoint decode_all (d : decoder) (bytes : list Z) : decoder * list scdk_input_event :=
  match bytes with
  | [] => (d, [])
  | b :: bytes =>
      let (d, e) := decode_scancode d b in
      let (d, es) := decode_all d bytes in
      (d, match e with Some e => e :: es | None => es end)
  end.

Section polls.
Context {H : Type} `{PS2 H}.
Implicit Types (k : keyboard) (h : H).

(** [n] polls, and the events they return. *)
Fixpoint polls (n : nat) (s : keyboard * H) : list scdk_input_event * (keyboard * H) :=
  match n with
  | O => ([], s)
  | S n =>
      let (r, s) := scdk_keyboard_poll s in
      let (es, s) := polls n s in
      (match r with Ok e => e :: es | _ => es end, s)
  end.

Lemma handle_run k b :
  keyboard_wf k → queued k = [] →
  ∃ k', keyboard_wf k' ∧ kb_decoder k' = (decode_scancode (kb_decoder k) b).1 ∧
    keyboard_initialized k' = keyboard_initialized k ∧
    match (decode_scancode (kb_decoder k) b).2 with
    | None => handle_scancode b k = (Err SCDK_ERR_NOENT, k') ∧ queued k' = []
    | Some e => handle_scancode b k = (Ok tt, k') ∧ queued k' = [e]
    end.
Proof.
  intros Hk Hq. unfold handle_scancode. rewrite bind_gets.
  destruct (decode_scancode (kb_decoder k) b) as [d [e|]]; rewrite bind_modify; cbn [fst snd].
  - assert (keyboard_wf (set_decoder d k)) as Hk1 by (by destruct Hk; split).
    pose proof (enqueue_run (set_decoder d k) e Hk1) as He. change (queued (set_decoder d k)) with (queued k) in He.
    rewrite Hq in He. rewrite decide_False in He by done. destruct He as (k' & E & Hk' & Hq' & Hd & Hi). by exists k'.
  - exists (set_decoder d k). split; [by destruct Hk; split|]. done.
Qed.

Lemma on_keyboard_run {A} (m : M keyboard A) k h : on_keyboard m (k, h) = ((m k).1, ((m k).2, h)).
Proof. unfold on_keyboard, zoom. cbn [fst snd]. by destruct (m k). Qed.
Lemma attempt_keyboard {A B} (m : M keyboard A) (f : result A → M (keyboard * H) B) k h :
  (m k).1 ≠ Ub → (let* r := attempt (on_keyboard m) in f r) (k, h) = f (m k).1 ((m k).2, h).
Proof. intros Hm. unfold bind, attempt. rewrite on_keyboard_run. by destruct (m k) as [[]]. Qed.

Lemma bind_read_port {B} port (f : Z → M (keyboard * H) B) k h :
  (let* v := read_port port in f v) (k, h) = f (inb port h).1 (k, (inb port h).2).
Proof. unfold bind, read_port. cbn [fst snd]. by destruct (inb port h). Qed.

(** One poll. *)
Lemma poll_run k h :
  keyboard_wf k → keyboard_initialized k = true →
  ∃ k' h', keyboard_wf k' ∧ keyboard_initialized k' = true ∧
    match queued k, pending h with
    | e :: q, bs => scdk_keyboard_poll (k, h) = (Ok e, (k', h')) ∧ queued k' = q ∧
        kb_decoder k' = kb_decoder k ∧ pending h' = bs
    | [], [] => scdk_keyboard_poll (k, h) = (Err SCDK_ERR_NOENT, (k', h')) ∧ queued k' = [] ∧
        kb_decoder k' = kb_decoder k ∧ pending h' = []
    | [], b :: bs =>
        scdk_keyboard_poll (k, h) =
          (match (decode_scancode (kb_decoder k) b).2 with Some e => Ok e | None => Err SCDK_ERR_NOENT end,
           (k', h')) ∧
        queued k' = [] ∧ pending h' = bs ∧ kb_decoder k' = (decode_scancode (kb_decoder k) b).1
    end.
Proof.
  intros Hk Hi. unfold scdk_keyboard_poll. rewrite bind_gets. cbn [fst]. rewrite Hi, bind_ret.
  pose proof (dequeue_run k Hk) as Hd.
  rewrite attempt_keyboard by (destruct (queued k); [by rewrite Hd|destruct Hd as (? & -> & _); done]).
  destruct (queued k) as [|e q] eqn:Eq.
  2:{ destruct Hd as (k' & E & Hk' & Hq & Hdec & Hi'). exists k', h. rewrite E. rewrite Hi'. by split_and!. }
  rewrite Hd. cbn [fst snd]. rewrite bind_read_port.
  destruct (inb_status h) as [Hp Hs]. destruct (inb PS2_STATUS_PORT h) as [v h1]. cbn [fst snd] in *.
  destruct (pending h) as [|b bs] eqn:Ep.
  { exists k, h1. rewrite bind_stop by (apply Z.eqb_eq; by apply Hs). by split_and!. }
  rewrite bind_guard by (apply Z.eqb_neq; intros Hz; by apply Hs in Hz).
  destruct (inb_data h1 b bs) as [Hb Hbs]; [congruence|]. rewrite bind_read_port.
  destruct (inb PS2_DATA_PORT h1) as [v' h2]. cbn [fst snd] in *. subst v'.
  destruct (handle_run k b Hk Eq) as (k' & Hk' & Hdec & Hi' & Hrun).
  rewrite attempt_keyboard by (destruct (decode_scancode _ _).2; destruct Hrun as [-> _]; done).
  rewrite on_keyboard_run.
  pose proof (dequeue_run k' Hk') as Hd2. destruct (decode_scancode (kb_decoder k) b).2 as [e|].
  - destruct Hrun as [E Hq]. rewrite Hq in Hd2. destruct Hd2 as (k2 & E2 & Hk2 & Hq2 & Hdec2 & Hi2).
    exists k2, h2. rewrite E. cbn [fst snd]. rewrite E2, Hi2, Hi', Hdec2. by split_and!.
  - destruct Hrun as [E Hq]. rewrite Hq in Hd2. exists k', h2. rewrite E. cbn [fst snd].
    rewrite Hd2, Hi'. by split_and!.
Qed.

Lemma polls_run n : ∀ k h,
  keyboard_wf k → keyboard_initialized k = true → (length (queued k) + length (pending h) ≤ n)%nat →
  ∃ k' h', polls n (k, h) = (queued k ++ (decode_all (kb_decoder k) (pending h)).2, (k', h')) ∧
    keyboard_wf k' ∧ queued k' = [] ∧ pending h' = [] ∧
    kb_decoder k' = (decode_all (kb_decoder k) (pending h)).1.
Proof.
  induction n as [|n IH]; intros k h Hk Hi Hn.
  { exists k, h. destruct (queued k) eqn:Eq, (pending h) eqn:Ep; simpl in Hn; try lia. by split_and!. }
  destruct (poll_run k h Hk Hi) as (k1 & h1 & Hk1 & Hi1 & Hp). cbn [polls].
  destruct (queued k) as [|e q] eqn:Eq; [destruct (pending h) as [|b bs] eqn:Ep|].
  - destruct Hp as (E & Hq & Hd & Hp). rewrite E.
    destruct (IH k1 h1 Hk1 Hi1) as (k2 & h2 & E2 & Hrest); [rewrite Hq, Hp; simpl; lia|].
    rewrite E2. exists k2, h2. rewrite Hq, Hp, Hd in *. done.
  - destruct Hp as (E & Hq & Hp & Hd). rewrite E.
    destruct (IH k1 h1 Hk1 Hi1) as (k2 & h2 & E2 & Hrest); [rewrite Hq, Hp; simpl in *; lia|].
    rewrite E2. exists k2, h2. rewrite Hq, Hp, Hd in *. cbn [decode_all].
    destruct (decode_scancode (kb_decoder k) b) as [d oe]. cbn [fst snd] in *.
    destruct (decode_all d bs) as [d2 es]. cbn [fst snd] in *. by destruct oe.
  - destruct Hp as (E & Hq & Hd & Hp). rewrite E.
    destruct (IH k1 h1 Hk1 Hi1) as (k2 & h2 & E2 & Hrest); [rewrite Hq, Hp; simpl in *; lia|].
    rewrite E2. exists k2, h2. by rewrite Hq, Hp, Hd in *.
Qed.
End polls.

(** ** What a client of the terminal service reads *)

(** The event a reply stands for. *)
Definition event_of_message (m : scdk_message) : scdk_input_event :=
  mk_event (msg_arg0 m) (wrap32 (Z.shiftr (msg_arg1 m) 32)) (wrap32 (msg_arg1 m)) (wrap32 (msg_arg2 m))
    (wrap32 (Z.shiftr (msg_arg3 m) 32)) (wrap32 (msg_arg3 m)).

(** Every field at its width. *)
Definition event_typed (e : scdk_input_event) : Prop :=
  0 <= ie_timestamp e < two64 ∧ 0 <= ie_type e < two32 ∧ 0 <= ie_keycode e < two32 ∧
  0 <= ie_ascii e < two32 ∧ 0 <= ie_modifiers e < two32 ∧ 0 <= ie_flags e < two32.

Lemma pack_words hi lo :
  0 <= hi < two32 → 0 <= lo < two32 →
  let w := Z.lor (wrap64 (Z.shiftl hi 32)) lo in wrap32 (Z.shiftr w 32) = hi ∧ wrap32 w = lo.
Proof.
  intros Hh Hl. cbv zeta. unfold wrap32, wrap64.
  rewrite (Z.mod_small (Z.shiftl hi 32)) by (rewrite Z.shiftl_mul_pow2 by lia; unfold two32, two64 in *; lia).
  rewrite lor_disjoint_add by (unfold two32 in *; lia). rewrite Z.shiftr_div_pow2 by lia. change (2 ^ 32) with two32.
  rewrite Z.div_add_l, (Z.div_small lo), Z.add_0_r by (unfold two32 in *; lia).
  rewrite (Z.add_comm (hi * two32)), Z.mod_add by done. by rewrite !Z.mod_small.
Qed.

Lemma pack_roundtrip m e :
  event_typed e →
  event_of_message (let '(a0, a1, a2, a3) := scdk_tty_pack_event e in set_msg_args m a0 a1 a2 a3) = e.
Proof.
  intros (_ & Ht & Hk & Ha & Hm & Hf). destruct e as [ts ty kc a mo fl]. simpl in *.
  destruct (pack_words ty kc Ht Hk) as [E1 E2]. destruct (pack_words mo fl Hm Hf) as [E3 E4]. cbv zeta in *.
  unfold event_of_message. simpl. rewrite E1, E2, E3, E4. f_equal. by apply Z.mod_small.
Qed.

(** *** Every event fits its fields *)
Definition entry_typed (e : key_map_entry) : Prop :=
  0 <= km_keycode e < two32 ∧ 0 <= km_normal e < two32 ∧ 0 <= km_shifted e < two32.
Lemma key_at_typed table code : Forall (λ p, entry_typed p.2) table → entry_typed (key_at table code).
Proof.
  induction 1 as [|[c e] table He _ IH]; [done|]. simpl. by destruct (c =? code).
Qed.
Lemma scancode_set1_typed : Forall (λ p, entry_typed p.2) scancode_set1.
Proof. unfold scancode_set1. repeat apply Forall_cons_2; (apply Forall_nil_2 || done). Qed.
Lemma extended_scancode_set1_typed : Forall (λ p, entry_typed p.2) extended_scancode_set1.
Proof. unfold extended_scancode_set1. repeat apply Forall_cons_2; (apply Forall_nil_2 || done). Qed.

Lemma entry_event_typed d d' (released : bool) entry :
  entry_typed entry →
  event_typed (mk_event (event_clock (tick d')) (if released then SCDK_INPUT_KEY_UP else SCDK_INPUT_KEY_DOWN)
    (km_keycode entry) (if released then 0 else ascii_for_entry d entry) (current_modifiers d) 0).
Proof.
  intros (Hk & Hn & Hs). split_and!; cbn [ie_timestamp ie_type ie_keycode ie_ascii ie_modifiers ie_flags];
    try apply Hk; try done.
  - by apply Z.mod_pos_bound.
  - by apply Z.mod_pos_bound.
  - by destruct released.
  - by destruct released.
  - destruct released; [done|]. unfold ascii_for_entry. repeat case_match; apply Hn || apply Hs.
  - destruct released; [done|]. unfold ascii_for_entry. repeat case_match; apply Hn || apply Hs.
  - unfold current_modifiers. by repeat case_match.
  - unfold current_modifiers. by repeat case_match.
Qed.

Lemma decode_typed d b e : (decode_scancode d b).2 = Some e → event_typed e.
Proof.
  unfold decode_scancode. destruct (b =? 224); [done|].
  destruct (_ && (_ =? 0x2a)); [done|]. destruct (_ && (_ =? 0x36)); [done|]. destruct (128 <=? _); [done|].
  destruct (km_keycode _ =? 0); [done|]. intros [= <-]. apply entry_event_typed, key_at_typed.
  destruct (extended_scancode_pending d); [apply extended_scancode_set1_typed|apply scancode_set1_typed].
Qed.
Lemma decode_all_typed bytes : ∀ d, Forall event_typed (decode_all d bytes).2.
Proof.
  induction bytes as [|b bytes IH]; intros d; [constructor|]. cbn [decode_all].
  pose proof (decode_typed d b) as Hb. destruct (decode_scancode d b) as [d1 oe]. specialize (IH d1).
  destruct (decode_all d1 bytes) as [d2 es]. destruct oe as [e|]; [|done]. constructor; [by apply Hb|done].
Qed.

(** *** Polling through the service *)
Definition poll_message : scdk_message := scdk_message_init 0 SCDK_SERVICE_TTY SCDK_MSG_TTY_POLL_EVENT.

Section tty_polls.
Context {H : Type} `{PS2 H}.

(** [n] calls of the handler with a poll message, and the events a client reads
    from the replies. *)
Fixpoint tty_polls (n : nat) (s : keyboard * H) : list scdk_input_event * (keyboard * H) :=
  match n with
  | O => ([], s)
  | S n =>
      let (r, s) := tty_endpoint_handler_fn poll_message s in
      let (es, s) := tty_polls n s in
      (match r with Ok (reply, Ok _) => event_of_message reply :: es | _ => es end, s)
  end.

Lemma tty_polls_polls n : ∀ s,
  Forall event_typed (polls n s).1 → tty_polls n s = polls n s.
Proof.
  induction n as [|n IH]; intros s; [done|]. cbn [polls tty_polls].
  unfold tty_endpoint_handler_fn. rewrite Z.eqb_refl. unfold bind, attempt.
  destruct (scdk_keyboard_poll s) as [[e|e|] s1].
  - pose proof (pack_roundtrip poll_message e) as Hp. destruct (scdk_tty_pack_event e) as [[[a0 a1] a2] a3].
    unfold ret. specialize (IH s1). destruct (polls n s1) as [es s2]. intros [He Hes]%Forall_cons.
    rewrite IH by done. by rewrite Hp.
  - unfold ret. specialize (IH s1). destruct (polls n s1) as [es s2]. intros Hes. by rewrite IH.
  - unfold ub. specialize (IH s1). destruct (polls n s1) as [es s2]. intros Hes. by rewrite IH.
Qed.
End tty_polls.

(** *** Typing text *)

(** The US keyboard, apart from the driver: scancode set 1 numbers the keys in
    the order they lie on the keyboard, row by row from left to right. A row is
    given by its first code and by what is printed on its keys, without and with
    shift. *)
Definition codes (s : String.string) : list Z :=
  (λ a, Z.of_N (Ascii.N_of_ascii a)) <$> String.list_ascii_of_string s.
#[local] Arguments codes s%_string_scope.
Fixpoint row (code : Z) (plain shifted : list Z) : list (Z * (Z * Z)) :=
  match plain, shifted with
  | p :: plain, s :: shifted => (code, (p, s)) :: row (code + 1) plain shifted
  | _, _ => []
  end.
Definition us_keyboard : list (Z * (Z * Z)) :=
  [(0x01, (27, 27))] ++
  row 0x02 (codes "1234567890-=") (codes "!@#$%^&*()_+") ++
  [(0x0e, (8, 8)); (0x0f, (9, 9))] ++
  row 0x10 (codes "qwertyuiop[]") (codes "QWERTYUIOP{}") ++
  [(0x1c, (10, 10))] ++
  row 0x1e (codes "asdfghjkl;'`") (codes "ASDFGHJKL:" ++ 34 :: codes "~") ++
  row 0x2b (codes "\zxcvbnm,./") (codes "|ZXCVBNM<>?") ++
  [(0x39, (32, 32))].

(** The bytes such a keyboard sends for a character: press and release, with the
    left shift key around them where the character needs it. *)
Definition keystrokes (c : Z) : list Z :=
  match list_find (λ p, p.2.1 = c) us_keyboard with
  | Some (_, (code, _)) => [code; code + 0x80]
  | None =>
      match list_find (λ p, p.2.2 = c) us_keyboard with
      | Some (_, (code, _)) => [0x2a; code; code + 0x80; 0xaa]
      | None => []
      end
  end.
(** The printable characters, escape, backspace, tab and newline. *)
Definition typable : list Z := [27; 8; 9; 10] ++ seqZ 32 95.
(** The characters of the key presses. *)
Definition characters (es : list scdk_input_event) : list Z :=
  omap (λ e, if (ie_type e =? SCDK_INPUT_KEY_DOWN) && negb (ie_ascii e =? 0) then Some (ie_ascii e) else None) es.
(** No modifier is held and no prefix is pending. *)
Definition at_rest (clock : Z) : decoder := mk_decoder clock false false false false.

Lemma decode_all_app xs ys : ∀ d,
  decode_all d (xs ++ ys) =
  let (d1, es) := decode_all d xs in let (d2, fs) := decode_all d1 ys in (d2, es ++ fs).
Proof.
  induction xs as [|x xs IH]; intros d; simpl; [by destruct (decode_all d ys)|].
  destruct (decode_scancode d x) as [d1 oe]. rewrite IH. destruct (decode_all d1 xs) as [d2 es].
  destruct (decode_all d2 ys) as [d3 fs]. by destruct oe.
Qed.

Lemma type_character c clock :
  c ∈ typable →
  (decode_all (at_rest clock) (keystrokes c)).1 = at_rest (wrap64 (wrap64 (clock + 1) + 1)) ∧
  characters (decode_all (at_rest clock) (keystrokes c)).2 = [c].
Proof.
  revert c. apply Forall_forall. let l := eval vm_compute in typable in change typable with l.
  repeat (apply Forall_cons_2; [split; cbv -[wrap64]; reflexivity|]). constructor.
Qed.

Lemma type_text text : ∀ clock,
  Forall (.∈ typable) text →
  characters (decode_all (at_rest clock) (text ≫= keystrokes)).2 = text.
Proof.
  induction text as [|c text IH]; intros clock; [done|]. intros [Hc Ht]%Forall_cons.
  cbn [mbind list_bind]. rewrite decode_all_app. destruct (type_character c clock Hc) as [Ed Ec].
  destruct (decode_all (at_rest clock) (keystrokes c)) as [d1 es]. simpl in Ed, Ec. subst d1.
  specialize (IH (wrap64 (wrap64 (clock + 1) + 1)) Ht).
  destruct (decode_all _ (text ≫= keystrokes)) as [d2 fs]. simpl in *.
  unfold characters in *. by rewrite omap_app, Ec, IH.
Qed.

Section terminal_facts.
Context {H : Type} `{PS2 H}.

Lemma tty_polls_run n (k : keyboard) (h : H) :
  keyboard_wf k → keyboard_initialized k = true → Forall event_typed (queued k) →
  (length (queued k) + length (pending h) ≤ n)%nat →
  ∃ k' h', tty_polls n (k, h) = (queued k ++ (decode_all (kb_decoder k) (pending h)).2, (k', h')) ∧
    keyboard_wf k' ∧ queued k' = [] ∧ pending h' = [] ∧
    kb_decoder k' = (decode_all (kb_decoder k) (pending h)).1.
Proof.
  intros Hk Hi Hq Hn. destruct (polls_run n k h Hk Hi Hn) as (k' & h' & E & Hrest).
  exists k', h'. split; [|done]. rewrite tty_polls_polls; [done|]. rewrite E. apply Forall_app_2; [done|].
  apply decode_all_typed.
Qed.
End terminal_facts.

(** A controller that is a queue of bytes. *)
Definition queue_inb (port : Z) (h : list Z) : Z * list Z :=
  if port =? PS2_STATUS_PORT then (match h with [] => 0 | _ => 1 end, h)
  else match h with [] => (0, []) | b :: h => (b mod 256, h) end.
#[export] Program Instance queue_ps2 : PS2 (list Z) := {|
  inb := queue_inb;
  pending := map (λ b, b mod 256)
|}.
Next Obligation. intros h. split; [done|]. by destruct h. Qed.
Next Obligation. intros [|b0 h] b bs; intros E; [done|]. by injection E as <- <-. Qed.
Next Obligation. intros h. induction h; constructor; [by apply Z.mod_pos_bound|done]. Qed.

(** Polling the terminal service loses, repeats and reorders nothing: from
    any state of the driver and any bytes waiting in the controller, enough polls
    return the events already queued and then the events the waiting bytes mean,
    each with every field intact after it has been packed into a message; then
    nothing waits anywhere. *)
Theorem tty_no_event_lost {H : Type} `{PS2 H} (n : nat) (k : keyboard) (h : H) :
  keyboard_wf k → keyboard_initialized k = true → Forall event_typed (queued k) →
  (length (queued k) + length (pending h) ≤ n)%nat →
  ∃ k' h', tty_polls n (k, h) = (queued k ++ (decode_all (kb_decoder k) (pending h)).2, (k', h')) ∧
    keyboard_wf k' ∧ queued k' = [] ∧ pending h' = [] ∧
    kb_decoder k' = (decode_all (kb_decoder k) (pending h)).1.
Proof. apply tty_polls_run. Qed.

(** C23. What is typed arrives: once the driver is initialised, the press and
    release codes of any text of printable characters, newlines, tabs, backspaces
    and escapes typed on a US keyboard come out of the terminal service as exactly
    that text. The codes are those of the keyboard's layout, written down apart
    from the driver's table. *)
Theorem terminal_types_text {H : Type} `{PS2 H} (n : nat) (k : keyboard) (h : H) (text : list Z) :
  length (kq_events k) = Z.to_nat KEY_QUEUE_SIZE → Forall (.∈ typable) text →
  pending h = text ≫= keystrokes → (length (pending h) ≤ n)%nat →
  ∃ es s, tty_polls n ((scdk_keyboard_init k).2, h) = (es, s) ∧ characters es = text.
Proof.
  intros Hl Ht Hp Hn. destruct (init_keyboard_wf k Hl) as [Hk Hq].
  destruct (tty_polls_run n _ h Hk eq_refl) as (k' & h' & E & _); [by rewrite Hq|by rewrite Hq|].
  eexists _, _. split; [exact E|]. rewrite Hq, Hp. by apply type_text.
Qed.

(** A shell command with a capital letter and a symbol behind shift. *)
Definition demo_text : list Z := [72; 105; 32; 124; 10].
Lemma tty_no_event_lost_witness :
  ∃ es k' h', tty_polls 14 ((scdk_keyboard_init boot_keyboard).2, demo_text ≫= keystrokes) = (es, (k', h')) ∧
    queued k' = [] ∧ pending h' = [].
Proof.
  destruct (tty_no_event_lost 14 (scdk_keyboard_init boot_keyboard).2 (demo_text ≫= keystrokes))
    as (k' & h' & E & _ & Hq & Hp & _); [by apply init_keyboard_wf|done|constructor|vm_compute; lia|].
  eexists _, k', h'. split; [exact E|]. split; [exact Hq|exact Hp].
Defined.
Lemma terminal_types_text_witness :
  ∃ es s, tty_polls 14 ((scdk_keyboard_init boot_keyboard).2, demo_text ≫= keystrokes) = (es, s) ∧
    characters es = demo_text.
Proof.
  apply (terminal_types_text 14 boot_keyboard (demo_text ≫= keystrokes) demo_text);
    [done| |done|vm_compute; lia].
  apply (bool_decide_unpack _). vm_compute. exact I.
Defined.
