(* ===== verification/Framebuffer.v ===== *)
(** * Framebuffer drawing ([src/arch/x86_64/framebuffer.c])

    The linear framebuffer, the glyphs, the geometry of the text area and the
    drawing routines. Drawing is described by pictures: a routine paints a
    picture when it stores the picture's pixels and leaves every other byte of
    memory alone. *)
From stdpp Require Import base list numbers relations.
From Stdlib Require Import ZArith Lia.
From S2P Require Import Prelude.

#[local] Open Scope Z_scope.

(** ** The framebuffer *)
Record limine_framebuffer := mk_fb {
  fb_address : Z;
  fb_width : Z;
  fb_height : Z;
  fb_pitch : Z;
  fb_bpp : Z;
  fb_memory_model : Z;
  fb_red_mask_size : Z;
  fb_red_mask_shift : Z;
  fb_green_mask_size : Z;
  fb_green_mask_shift : Z;
  fb_blue_mask_size : Z;
  fb_blue_mask_shift : Z
}.

(** Memory, byte by byte. *)
Definition memory := Z → Z.
Definition poke_byte (a v : Z) (m : memory) : memory := λ i, if i =? a then v else m i.
(** A 32-bit store, low byte first. *)
Definition poke_word (a v : Z) (m : memory) : memory := λ i,
  if (a <=? i) && (i <? a + 4) then Z.land (Z.shiftr v (8 * (i - a))) 0xff else m i.

(** [for (i = 0; i < n; i++)] *)
Definition for_upto {A} (n : Z) (body : Z → A → A) (a : A) : A := foldl (λ a i, body i a) a (seqZ 0 n).

(** [active_framebuffer], null or a framebuffer. *)
Implicit Types (fb : option limine_framebuffer) (f : limine_framebuffer) (m : memory).

Definition pack_rgb fb (r g b : Z) : Z :=
  match fb with
  | None => 0
  | Some f =>
      let pixel := 0 in
      let pixel := Z.lor pixel (wrap32 (Z.shiftl (Z.shiftr r (8 - fb_red_mask_size f)) (fb_red_mask_shift f))) in
      let pixel := Z.lor pixel (wrap32 (Z.shiftl (Z.shiftr g (8 - fb_green_mask_size f)) (fb_green_mask_shift f))) in
      Z.lor pixel (wrap32 (Z.shiftl (Z.shiftr b (8 - fb_blue_mask_size f)) (fb_blue_mask_shift f)))
  end.

Definition put_pixel fb (x y pixel : Z) : memory → memory := λ m,
  match fb with
  | None => m
  | Some f =>
      if negb (fb_bpp f =? 32) then m
      else if (fb_width f <=? x) || (fb_height f <=? y) then m
      else poke_word (wrap64 (fb_address f + y * fb_pitch f + 4 * x)) pixel m
  end.

(** ** Glyphs *)
Definition glyph_blank : list Z := [0x00; 0x00; 0x00; 0x00; 0x00; 0x00; 0x00].
Definition glyph_unknown : list Z := [0x1f; 0x11; 0x01; 0x02; 0x04; 0x00; 0x04].
Definition glyph_letters : list (list Z) :=
  [ [0x0e; 0x11; 0x11; 0x1f; 0x11; 0x11; 0x11]; [0x1e; 0x11; 0x11; 0x1e; 0x11; 0x11; 0x1e];
    [0x0e; 0x11; 0x10; 0x10; 0x10; 0x11; 0x0e]; [0x1e; 0x11; 0x11; 0x11; 0x11; 0x11; 0x1e];
    [0x1f; 0x10; 0x10; 0x1e; 0x10; 0x10; 0x1f]; [0x1f; 0x10; 0x10; 0x1e; 0x10; 0x10; 0x10];
    [0x0e; 0x11; 0x10; 0x17; 0x11; 0x11; 0x0f]; [0x11; 0x11; 0x11; 0x1f; 0x11; 0x11; 0x11];
    [0x0e; 0x04; 0x04; 0x04; 0x04; 0x04; 0x0e]; [0x07; 0x02; 0x02; 0x02; 0x12; 0x12; 0x0c];
    [0x11; 0x12; 0x14; 0x18; 0x14; 0x12; 0x11]; [0x10; 0x10; 0x10; 0x10; 0x10; 0x10; 0x1f];
    [0x11; 0x1b; 0x15; 0x15; 0x11; 0x11; 0x11]; [0x11; 0x19; 0x15; 0x13; 0x11; 0x11; 0x11];
    [0x0e; 0x11; 0x11; 0x11; 0x11; 0x11; 0x0e]; [0x1e; 0x11; 0x11; 0x1e; 0x10; 0x10; 0x10];
    [0x0e; 0x11; 0x11; 0x11; 0x15; 0x12; 0x0d]; [0x1e; 0x11; 0x11; 0x1e; 0x14; 0x12; 0x11];
    [0x0f; 0x10; 0x10; 0x0e; 0x01; 0x01; 0x1e]; [0x1f; 0x04; 0x04; 0x04; 0x04; 0x04; 0x04];
    [0x11; 0x11; 0x11; 0x11; 0x11; 0x11; 0x0e]; [0x11; 0x11; 0x11; 0x11; 0x0a; 0x0a; 0x04];
    [0x11; 0x11; 0x11; 0x15; 0x15; 0x1b; 0x11]; [0x11; 0x11; 0x0a; 0x04; 0x0a; 0x11; 0x11];
    [0x11; 0x11; 0x0a; 0x04; 0x04; 0x04; 0x04]; [0x1f; 0x01; 0x02; 0x04; 0x08; 0x10; 0x1f] ].
Definition glyph_lowercase : list (list Z) :=
  [ [0x00; 0x00; 0x0e; 0x01; 0x0f; 0x11; 0x0f]; [0x10; 0x10; 0x1e; 0x11; 0x11; 0x11; 0x1e];
    [0x00; 0x00; 0x0e; 0x10; 0x10; 0x10; 0x0e]; [0x01; 0x01; 0x0f; 0x11; 0x11; 0x11; 0x0f];
    [0x00; 0x00; 0x0e; 0x11; 0x1f; 0x10; 0x0e]; [0x06; 0x08; 0x08; 0x1c; 0x08; 0x08; 0x08];
    [0x00; 0x00; 0x0f; 0x11; 0x11; 0x0f; 0x01]; [0x10; 0x10; 0x1e; 0x11; 0x11; 0x11; 0x11];
    [0x04; 0x00; 0x0c; 0x04; 0x04; 0x04; 0x0e]; [0x02; 0x00; 0x06; 0x02; 0x02; 0x12; 0x0c];
    [0x10; 0x10; 0x12; 0x14; 0x18; 0x14; 0x12]; [0x0c; 0x04; 0x04; 0x04; 0x04; 0x04; 0x0e];
    [0x00; 0x00; 0x1a; 0x15; 0x15; 0x11; 0x11]; [0x00; 0x00; 0x1e; 0x11; 0x11; 0x11; 0x11];
    [0x00; 0x00; 0x0e; 0x11; 0x11; 0x11; 0x0e]; [0x00; 0x00; 0x1e; 0x11; 0x11; 0x1e; 0x10];
    [0x00; 0x00; 0x0f; 0x11; 0x11; 0x0f; 0x01]; [0x00; 0x00; 0x16; 0x19; 0x10; 0x10; 0x10];
    [0x00; 0x00; 0x0f; 0x10; 0x0e; 0x01; 0x1e]; [0x08; 0x08; 0x1c; 0x08; 0x08; 0x09; 0x06];
    [0x00; 0x00; 0x11; 0x11; 0x11; 0x13; 0x0d]; [0x00; 0x00; 0x11; 0x11; 0x0a; 0x0a; 0x04];
    [0x00; 0x00; 0x11; 0x11; 0x15; 0x15; 0x0a]; [0x00; 0x00; 0x11; 0x0a; 0x04; 0x0a; 0x11];
    [0x00; 0x00; 0x11; 0x11; 0x0f; 0x01; 0x0e]; [0x00; 0x00; 0x1f; 0x02; 0x04; 0x08; 0x1f] ].
Definition glyph_digits : list (list Z) :=
  [ [0x0e; 0x11; 0x13; 0x15; 0x19; 0x11; 0x0e]; [0x04; 0x0c; 0x04; 0x04; 0x04; 0x04; 0x0e];
    [0x0e; 0x11; 0x01; 0x02; 0x04; 0x08; 0x1f]; [0x1e; 0x01; 0x01; 0x0e; 0x01; 0x01; 0x1e];
    [0x02; 0x06; 0x0a; 0x12; 0x1f; 0x02; 0x02]; [0x1f; 0x10; 0x10; 0x1e; 0x01; 0x01; 0x1e];
    [0x0e; 0x10; 0x10; 0x1e; 0x11; 0x11; 0x0e]; [0x1f; 0x01; 0x02; 0x04; 0x08; 0x08; 0x08];
    [0x0e; 0x11; 0x11; 0x0e; 0x11; 0x11; 0x0e]; [0x0e; 0x11; 0x11; 0x0f; 0x01; 0x01; 0x0e] ].
Definition glyph_colon : list Z := [0x00; 0x04; 0x04; 0x00; 0x04; 0x04; 0x00].
Definition glyph_dash : list Z := [0x00; 0x00; 0x00; 0x1f; 0x00; 0x00; 0x00].
Definition glyph_dot : list Z := [0x00; 0x00; 0x00; 0x00; 0x00; 0x0c; 0x0c].
Definition glyph_left_bracket : list Z := [0x0e; 0x08; 0x08; 0x08; 0x08; 0x08; 0x0e].
Definition glyph_right_bracket : list Z := [0x0e; 0x02; 0x02; 0x02; 0x02; 0x02; 0x0e].
Definition glyph_slash : list Z := [0x01; 0x01; 0x02; 0x04; 0x08; 0x10; 0x10].
Definition glyph_greater : list Z := [0x10; 0x08; 0x04; 0x02; 0x04; 0x08; 0x10].
Definition glyph_underscore : list Z := [0x00; 0x00; 0x00; 0x00; 0x00; 0x00; 0x1f].

(** A row of a table; every use is in range. *)
Definition glyph_row (table : list (list Z)) (i : Z) : list Z := nth (Z.to_nat i) table glyph_unknown.

Definition glyph_for (c : Z) : list Z :=
  if (97 <=? c) && (c <=? 122) then glyph_row glyph_lowercase (c - 97)
  else if (65 <=? c) && (c <=? 90) then glyph_row glyph_letters (c - 65)
  else if (48 <=? c) && (c <=? 57) then glyph_row glyph_digits (c - 48)
  else if c =? 32 then glyph_blank
  else if c =? 58 then glyph_colon
  else if c =? 45 then glyph_dash
  else if c =? 46 then glyph_dot
  else if c =? 91 then glyph_left_bracket
  else if c =? 93 then glyph_right_bracket
  else if c =? 47 then glyph_slash
  else if c =? 62 then glyph_greater
  else if c =? 95 then glyph_underscore
  else glyph_unknown.

(** ** Geometry of the text area *)
Definition CONSOLE_MAX_COLUMNS : Z := 160.
Definition CONSOLE_VERTICAL_MARGIN_MIN : Z := 8.
Definition console_cell_width : Z := 14.
Definition console_cell_height : Z := 20.
Definition console_line_step : Z := console_cell_height + 2.

Definition console_origin_x fb : Z :=
  match fb with
  | None => 0
  | Some f => if fb_width f <? 64 then 4 else fb_width f / 32
  end.
Definition console_origin_y fb : Z :=
  let line_step := console_cell_height + 2 in
  match fb with
  | None => 0
  | Some f =>
      if fb_height f <=? console_cell_height + CONSOLE_VERTICAL_MARGIN_MIN * 2 then 4
      else
        let rows := (fb_height f - CONSOLE_VERTICAL_MARGIN_MIN * 2) / line_step in
        if rows =? 0 then 4
        else
          let used := rows * line_step in
          (fb_height f - used) / 2
  end.
Definition console_columns fb : Z :=
  let origin := console_origin_x fb in
  match fb with
  | None => 0
  | Some f => if (fb_width f <=? origin) || (console_cell_width =? 0) then 0
              else (fb_width f - origin) / console_cell_width
  end.
Definition console_visible_columns fb : Z :=
  let columns := console_columns fb in
  if CONSOLE_MAX_COLUMNS <? columns then CONSOLE_MAX_COLUMNS else columns.
Definition console_rows fb : Z :=
  let origin := console_origin_y fb in
  match fb with
  | None => 0
  | Some f => if (fb_height f <=? origin) || (console_line_step =? 0) then 0
              else (fb_height f - origin) / console_line_step
  end.

#[global] Arguments console_origin_x : simpl never.
#[global] Arguments console_origin_y : simpl never.
#[global] Arguments console_visible_columns : simpl never.
#[global] Arguments console_rows : simpl never.

(** ** Drawing *)
Definition fill_rect fb (x y width height pixel : Z) : memory → memory :=
  for_upto height (λ py, for_upto width (λ px, put_pixel fb (wrap64 (x + px)) (wrap64 (y + py)) pixel)).

Definition clear_console_cell fb (x y : Z) : memory → memory :=
  let background := pack_rgb fb 8 13 18 in
  let width := console_cell_width in
  let height := console_cell_height in
  fill_rect fb x y width height background.

(** Whether the glyph has the pixel. *)
Definition glyph_bit (glyph : list Z) (row col : Z) : bool :=
  negb (Z.land (nth (Z.to_nat row) glyph 0) (Z.shiftl 1 (4 - col)) =? 0).

Definition draw_console_char fb (c x y : Z) : memory → memory := λ m,
  let glyph := glyph_for c in
  let foreground := pack_rgb fb 226 232 240 in
  let shadow := pack_rgb fb 15 23 42 in
  let scale := 2 in
  let m := clear_console_cell fb x y m in
  for_upto 7 (λ row, for_upto 5 (λ col m,
    if negb (glyph_bit glyph row col) then m
    else
      let ox := wrap64 (x + 2 + col * scale) in
      let oy := wrap64 (y + 3 + row * scale) in
      for_upto scale (λ sy, for_upto scale (λ sx m,
        let m := put_pixel fb (wrap64 (ox + sx + 1)) (wrap64 (oy + sy + 1)) shadow m in
        put_pixel fb (wrap64 (ox + sx)) (wrap64 (oy + sy)) foreground m)) m)) m.

(** The copy loop of a scroll, row by row and byte by byte from the origin to the
    end of the row. *)
Definition copy_rows f (origin_x origin_y line_step bottom_y : Z) : memory → memory :=
  for_upto (bottom_y - line_step - origin_y) (λ i,
    let y := origin_y + i in
    let dst := fb_address f + y * fb_pitch f in
    let src := fb_address f + (y + line_step) * fb_pitch f in
    for_upto (fb_pitch f - origin_x * 4) (λ j m,
      let x := origin_x * 4 + j in
      poke_byte (wrap64 (dst + x)) (m (wrap64 (src + x))) m)).

Definition scroll_console_pixels_up fb : memory → memory := λ m,
  let origin_x := console_origin_x fb in
  let origin_y := console_origin_y fb in
  let line_step := console_line_step in
  let bottom_y := origin_y + console_rows fb * line_step in
  let background := pack_rgb fb 8 13 18 in
  match fb with
  | None => m
  | Some f =>
      if line_step =? 0 then m
      else if bottom_y <=? origin_y + line_step then m
      else
        let m := copy_rows f origin_x origin_y line_step bottom_y m in
        fill_rect fb origin_x (bottom_y - line_step) (fb_width f - origin_x) line_step background m
  end.

Definition or_one (n : Z) : Z := if n =? 0 then 1 else n.

Definition scdk_framebuffer_draw_test_pattern fb : memory → memory := λ m,
  match fb with
  | None => m
  | Some f =>
      if negb (fb_bpp f =? 32) then m
      else
        let width := fb_width f in
        let height := fb_height f in
        let m := for_upto height (λ y, for_upto width (λ x,
          let r := wrap64 (x * 255) / or_one width mod 256 in
          let g := wrap64 (y * 255) / or_one height mod 256 in
          let b := wrap64 ((x + y) * 127) / or_one (wrap64 (width + height)) mod 256 in
          put_pixel fb x y (pack_rgb fb r g b))) m in
        let bar_height := height / 12 in
        let bar_height := if bar_height <? 24 then 24 else bar_height in
        let dark := pack_rgb fb 12 18 24 in
        let cyan := pack_rgb fb 56 189 248 in
        let green := pack_rgb fb 34 197 94 in
        let m := for_upto (Z.min bar_height height) (λ y, for_upto width (λ x, put_pixel fb x y dark)) m in
        let inset := width / 32 in
        let line_y := bar_height / 2 in
        let line_h := 4 in
        for_upto (Z.min (line_y + line_h) height - line_y) (λ i,
          let y := line_y + i in
          for_upto (width - inset - inset) (λ j,
            let x := inset + j in
            put_pixel fb x y (if Z.land x 16 =? 0 then cyan else green))) m
  end.

(** ** Pictures *)

(** A framebuffer the boot loader hands over: 32 bits per pixel, rows that hold
    their pixels, memory that does not wrap, masks that select within a pixel. *)
Record fb_wf f : Prop := {
  fw_bpp : fb_bpp f = 32;
  fw_width : 0 <= fb_width f < two32;
  fw_height : 0 <= fb_height f < two32;
  fw_pitch : 4 * fb_width f <= fb_pitch f;
  fw_address : 0 <= fb_address f;
  fw_end : fb_address f + fb_height f * fb_pitch f <= two64;
  fw_red : 0 <= fb_red_mask_size f <= 8 ∧ 0 <= fb_red_mask_shift f < 32;
  fw_green : 0 <= fb_green_mask_size f <= 8 ∧ 0 <= fb_green_mask_shift f < 32;
  fw_blue : 0 <= fb_blue_mask_size f <= 8 ∧ 0 <= fb_blue_mask_shift f < 32
}.

Definition picture := Z → Z → option Z.
Definition blank : picture := λ _ _, None.
Definition over (q p : picture) : picture := λ x y, match q x y with Some v => Some v | None => p x y end.
Definition dot (x0 y0 v : Z) : picture := λ x y, if (x =? x0) && (y =? y0) then Some v else None.
Definition rect (x0 y0 w h v : Z) : picture := λ x y,
  if (x0 <=? x) && (x <? x0 + w) && ((y0 <=? y) && (y <? y0 + h)) then Some v else None.
Definition layers (l : list Z) (p : Z → picture) : picture := foldl (λ acc i, over (p i) acc) blank l.

(** Where byte [j] of a pixel is. *)
Definition pixel_at f (x y j : Z) : Z := fb_address f + y * fb_pitch f + 4 * x + j.
Definition pixel_byte (v j : Z) : Z := Z.land (Z.shiftr v (8 * j)) 0xff.
Definition on_screen f (x y : Z) : Prop := 0 <= x < fb_width f ∧ 0 <= y < fb_height f.

Record paints f (op : memory → memory) (p : picture) : Prop := {
  paints_in m x y j : on_screen f x y → 0 <= j < 4 →
    op m (pixel_at f x y j) = match p x y with Some v => pixel_byte v j | None => m (pixel_at f x y j) end;
  paints_out m i : (∀ x y j, on_screen f x y → 0 <= j < 4 → i ≠ pixel_at f x y j) → op m i = m i
}.

Section layers_facts.
Implicit Types (p q : Z → picture) (l : list Z).

Lemma in_last l i : i ∈ l ++ [i].
Proof. apply elem_of_app. right. apply list_elem_of_singleton. done. Qed.
Lemma in_front l i k : k ∈ l → k ∈ l ++ [i].
Proof. intros. apply elem_of_app. auto. Qed.
#[local] Hint Resolve in_last in_front : core.

Lemma layers_snoc l i p : layers (l ++ [i]) p = over (p i) (layers l p).
Proof. unfold layers. by rewrite foldl_app. Qed.
(** The same picture elsewhere, in other colours. *)
Lemma layers_map (g : Z → Z) l p q x y x' y' :
  (∀ i, i ∈ l → p i x y = g <$> q i x' y') → layers l p x y = g <$> layers l q x' y'.
Proof.
  induction l as [|i l IH] using rev_ind; intros Hp; [done|]. rewrite !layers_snoc. unfold over.
  rewrite Hp by auto. destruct (q i x' y'); [done|]. apply IH; auto.
Qed.
Lemma layers_none l p x y : (∀ i, i ∈ l → p i x y = None) → layers l p x y = None.
Proof.
  induction l as [|i l IH] using rev_ind; intros Hp; [done|]. rewrite layers_snoc. unfold over.
  rewrite Hp; auto.
Qed.
(** Only one layer has the pixel. *)
Lemma layers_one l p x y k :
  k ∈ l → (∀ i, i ∈ l → i ≠ k → p i x y = None) → layers l p x y = p k x y.
Proof.
  induction l as [|i l IH] using rev_ind; intros Hk Hp; [by apply not_elem_of_nil in Hk|].
  rewrite layers_snoc. unfold over. destruct (decide (i = k)) as [->|Hne].
  - destruct (p k x y) eqn:E; [done|]. apply layers_none. intros i Hi.
    destruct (decide (i = k)) as [->|]; auto.
  - rewrite Hp by auto. apply IH; auto. apply elem_of_app in Hk as [|Hk%list_elem_of_singleton]; congruence.
Qed.
End layers_facts.
#[export] Hint Resolve in_last in_front : scdk.

Section paints_facts.
Context (f : limine_framebuffer) (Hf : fb_wf f).
Implicit Types (op : memory → memory) (p q : picture).

Lemma pixel_at_inj x y j x' y' j' :
  on_screen f x y → on_screen f x' y' → 0 <= j < 4 → 0 <= j' < 4 →
  pixel_at f x y j = pixel_at f x' y' j' → x = x' ∧ y = y' ∧ j = j'.
Proof.
  intros [Hx Hy] [Hx' Hy'] Hj Hj' E. pose proof (fw_pitch _ Hf) as Hp. unfold pixel_at in E.
  destruct (Z.lt_trichotomy y y') as [|[->|]]; [nia|lia|nia].
Qed.

Lemma paints_id : paints f (λ m, m) blank.
Proof. by split. Qed.
Lemma paints_seq op1 op2 p1 p2 :
  paints f op1 p1 → paints f op2 p2 → paints f (λ m, op2 (op1 m)) (over p2 p1).
Proof.
  intros [H1 O1] [H2 O2]. split.
  - intros m x y j Hs Hj. rewrite H2, H1 by done. unfold over. by destruct (p2 x y).
  - intros m i Hi. by rewrite O2, O1.
Qed.
Lemma paints_ext op p q :
  paints f op p → (∀ x y, on_screen f x y → p x y = q x y) → paints f op q.
Proof. intros [Hin Hout] E. split; [|done]. intros. rewrite Hin by done. by rewrite E. Qed.
Lemma paints_layers l (op : Z → memory → memory) (p : Z → picture) :
  (∀ i, i ∈ l → paints f (op i) (p i)) → paints f (λ m, foldl (λ m i, op i m) m l) (layers l p).
Proof.
  induction l as [|i l IH] using rev_ind; intros Hp; [apply paints_id|]. rewrite layers_snoc.
  destruct (paints_seq _ _ _ _ (IH ltac:(auto with scdk)) (Hp i ltac:(auto with scdk))) as [Hin Hout].
  split; intros; rewrite foldl_app; simpl; auto.
Qed.
Lemma paints_for n (op : Z → memory → memory) (p : Z → picture) :
  (∀ i, 0 <= i < n → paints f (op i) (p i)) → paints f (for_upto n op) (layers (seqZ 0 n) p).
Proof. intros Hp. apply paints_layers. intros i Hi%elem_of_seqZ. apply Hp. lia. Qed.

Lemma paints_put x0 y0 v : 0 <= x0 → 0 <= y0 → paints f (put_pixel (Some f) x0 y0 v) (dot x0 y0 v).
Proof.
  intros Hx0 Hy0. unfold put_pixel. rewrite (fw_bpp _ Hf). change (negb (32 =? 32)) with false. cbv iota.
  destruct ((fb_width f <=? x0) || (fb_height f <=? y0)) eqn:Hout.
  { split; [|done]. intros m x y j [Hx Hy] _. unfold dot. apply orb_true_iff in Hout. rewrite !Z.leb_le in Hout.
    destruct (Z.eqb_spec x x0); [|done]. destruct (Z.eqb_spec y y0); [lia|done]. }
  apply orb_false_iff in Hout as [Hw%Z.leb_gt Hh%Z.leb_gt].
  assert (on_screen f x0 y0) as Hs0 by (split; lia).
  assert (wrap64 (fb_address f + y0 * fb_pitch f + 4 * x0) = pixel_at f x0 y0 0) as ->.
  { unfold wrap64, pixel_at. rewrite Z.mod_small; [lia|].
    pose proof (fw_pitch _ Hf). pose proof (fw_address _ Hf). pose proof (fw_end _ Hf). nia. }
  split; unfold poke_word; cbv beta.
  - intros m x y j Hs Hj. unfold dot.
    destruct ((_ <=? _) && (_ <? _)) eqn:E.
    + apply andb_true_iff in E as [E1%Z.leb_le E2%Z.ltb_lt].
      assert (pixel_at f x y j = pixel_at f x0 y0 (pixel_at f x y j - pixel_at f x0 y0 0)) as E
        by (unfold pixel_at; lia).
      apply pixel_at_inj in E as (-> & -> & Ej); [|done..|lia]. rewrite !Z.eqb_refl, <-Ej. done.
    + destruct ((x =? x0) && (y =? y0)) eqn:Exy; [|done].
      apply andb_true_iff in Exy as [->%Z.eqb_eq ->%Z.eqb_eq]. exfalso.
      rewrite andb_false_iff, Z.leb_gt, Z.ltb_ge in E. unfold pixel_at in E. lia.
  - intros m i Hi. destruct (_ && _) eqn:E; [|done]. apply andb_true_iff in E as [E1%Z.leb_le E2%Z.ltb_lt].
    exfalso. apply (Hi x0 y0 (i - pixel_at f x0 y0 0)); [done|lia|unfold pixel_at; lia].
Qed.

Lemma paints_rect x0 y0 w h v :
  0 <= x0 → 0 <= y0 → x0 + w <= two64 → y0 + h <= two64 →
  paints f (fill_rect (Some f) x0 y0 w h v) (rect x0 y0 w h v).
Proof.
  intros Hx Hy Hw Hh. eapply paints_ext.
  { apply paints_for. intros py Hpy. apply paints_for. intros px Hpx. apply paints_put;
      unfold wrap64; apply Z.mod_pos_bound; done. }
  intros x y _. unfold rect.
  assert (∀ px py, px ∈ seqZ 0 w → py ∈ seqZ 0 h →
    dot (wrap64 (x0 + px)) (wrap64 (y0 + py)) v x y = dot (x0 + px) (y0 + py) v x y) as Ed.
  { intros px py Hpx%elem_of_seqZ Hpy%elem_of_seqZ. unfold wrap64. rewrite !Z.mod_small by lia. done. }
  destruct (_ && _) eqn:E.
  - rewrite !andb_true_iff, !Z.leb_le, !Z.ltb_lt in E. destruct E as [[E1 E2] [E3 E4]].
    rewrite (layers_one _ _ _ _ (y - y0)).
    + rewrite (layers_one _ _ _ _ (x - x0)).
      * rewrite Ed by (apply elem_of_seqZ; lia). unfold dot. by rewrite !Zplus_minus, !Z.eqb_refl.
      * apply elem_of_seqZ; lia.
      * intros i Hi Hne. rewrite Ed by (done || apply elem_of_seqZ; lia). unfold dot.
        by rewrite (proj2 (Z.eqb_neq x _)) by lia.
    + apply elem_of_seqZ; lia.
    + intros i Hi Hne. apply layers_none. intros j Hj. rewrite Ed by done. unfold dot.
      rewrite (proj2 (Z.eqb_neq y _)) by lia. by rewrite andb_false_r.
  - apply layers_none. intros i Hi. apply layers_none. intros j Hj. rewrite Ed by done.
    apply elem_of_seqZ in Hi, Hj. unfold dot.
    destruct (Z.eqb_spec x (x0 + j)); [|done]. destruct (Z.eqb_spec y (y0 + i)); [|done].
    rewrite !andb_false_iff, !Z.leb_gt, !Z.ltb_ge in E. lia.
Qed.
End paints_facts.

(** ** A character cell *)

(** The strokes of a glyph at a cell's corner, over the cleared cell. *)
Definition stroke_picture (glyph : list Z) (foreground shadow x y : Z) : picture :=
  layers (seqZ 0 7) (λ row, layers (seqZ 0 5) (λ col,
    if negb (glyph_bit glyph row col) then blank
    else layers (seqZ 0 2) (λ sy, layers (seqZ 0 2) (λ sx,
      over (dot (x + 2 + col * 2 + sx) (y + 3 + row * 2 + sy) foreground)
           (dot (x + 2 + col * 2 + sx + 1) (y + 3 + row * 2 + sy + 1) shadow))))).
Definition glyph_picture (glyph : list Z) (foreground shadow background x y : Z) : picture :=
  over (stroke_picture glyph foreground shadow x y) (rect x y console_cell_width console_cell_height background).

(** The colour of a pixel of a cell: the foreground where the glyph, doubled in
    size, has a bit; its shadow one pixel right and down; else the background. *)
Definition glyph_has (glyph : list Z) (dx dy : Z) : bool :=
  (2 <=? dx) && (dx <? 12) && ((3 <=? dy) && (dy <? 17)) && glyph_bit glyph ((dy - 3) / 2) ((dx - 2) / 2).
Definition ink {A} (glyph : list Z) (foreground shadow background : A) (dx dy : Z) : A :=
  if glyph_has glyph dx dy then foreground
  else if glyph_has glyph (dx - 1) (dy - 1) then shadow
  else background.
Definition cell_colour fb (c dx dy : Z) : Z :=
  ink (glyph_for c) (pack_rgb fb 226 232 240) (pack_rgb fb 15 23 42) (pack_rgb fb 8 13 18) dx dy.

(** A cell as a picture. *)
Definition cell_picture fb (c x y : Z) : picture := λ px py,
  if (x <=? px) && (px <? x + console_cell_width) && ((y <=? py) && (py <? y + console_cell_height))
  then Some (cell_colour fb c (px - x) (py - y)) else None.

Section cell_facts.
Implicit Types glyph : list Z.

Definition glyphs : list (list Z) :=
  [glyph_blank; glyph_unknown; glyph_colon; glyph_dash; glyph_dot; glyph_left_bracket; glyph_right_bracket;
   glyph_slash; glyph_greater; glyph_underscore] ++ glyph_letters ++ glyph_lowercase ++ glyph_digits.

Lemma glyph_row_in table i : glyph_row table i = glyph_unknown ∨ glyph_row table i ∈ table.
Proof.
  unfold glyph_row. destruct (nth_in_or_default (Z.to_nat i) table glyph_unknown) as [Hin|]; [|by left].
  right. by apply list_elem_of_In.
Qed.
Lemma glyph_for_in c : glyph_for c ∈ glyphs.
Proof.
  unfold glyphs, glyph_for. repeat case_match; try (apply elem_of_app; left; repeat constructor; fail).
  all: match goal with |- glyph_row ?t ?i ∈ _ => destruct (glyph_row_in t i) as [->|Hin] end;
    [apply elem_of_app; left; repeat constructor|rewrite !elem_of_app; auto].
Qed.

(** With colours as numbers, the strokes of every glyph give the colours above. *)
Definition strokes_exact glyph : bool :=
  forallb (λ dy, forallb (λ dx,
    bool_decide (glyph_picture glyph 1 2 3 0 0 dx dy = Some (ink glyph 1 2 3 dx dy)))
    (seqZ 0 console_cell_width)) (seqZ 0 console_cell_height).
Lemma strokes_exact_all : forallb strokes_exact glyphs = true.
Proof. vm_compute. reflexivity. Qed.

Lemma dot_map (g : Z → Z) x0 y0 v x y x' y' dx dy :
  x - x0 = x' - dx → y - y0 = y' - dy → dot x0 y0 (g v) x y = g <$> dot dx dy v x' y'.
Proof.
  intros Ex Ey. unfold dot. destruct (Z.eqb_spec x x0), (Z.eqb_spec x' dx); try lia; [|done].
  destruct (Z.eqb_spec y y0), (Z.eqb_spec y' dy); try lia; done.
Qed.
Lemma strokes_map (g : Z → Z) glyph v1 v2 x y px py :
  stroke_picture glyph (g v1) (g v2) x y px py = g <$> stroke_picture glyph v1 v2 0 0 (px - x) (py - y).
Proof.
  unfold stroke_picture. apply layers_map. intros row _. apply layers_map. intros col _.
  destruct (negb _); [done|]. apply layers_map. intros sy _. apply layers_map. intros sx _.
  unfold over. rewrite (dot_map g _ _ v1 px py (px - x) (py - y) (0 + 2 + col * 2 + sx) (0 + 3 + row * 2 + sy)) by lia.
  destruct (dot _ _ v1 _ _); [done|]. simpl. apply dot_map; lia.
Qed.
Lemma strokes_outside glyph fg sh x y px py :
  ¬ (x <= px < x + console_cell_width ∧ y <= py < y + console_cell_height) →
  stroke_picture glyph fg sh x y px py = None.
Proof.
  intros Hout. unfold stroke_picture, console_cell_width, console_cell_height in *.
  apply layers_none. intros row Hr%elem_of_seqZ. apply layers_none. intros col Hc%elem_of_seqZ.
  destruct (negb _); [done|].
  apply layers_none. intros sy Hsy%elem_of_seqZ. apply layers_none. intros sx Hsx%elem_of_seqZ.
  unfold over, dot. repeat match goal with |- context [?a =? ?b] => destruct (Z.eqb_spec a b) end; simpl; done || lia.
Qed.

Lemma rect_in x0 y0 w h v x y :
  x0 <= x < x0 + w → y0 <= y < y0 + h → rect x0 y0 w h v x y = Some v.
Proof.
  intros Hx Hy. unfold rect. rewrite (proj2 (Z.leb_le x0 x)), (proj2 (Z.ltb_lt x _)) by lia.
  by rewrite (proj2 (Z.leb_le y0 y)), (proj2 (Z.ltb_lt y _)) by lia.
Qed.
Lemma rect_out x0 y0 w h v x y :
  ¬ (x0 <= x < x0 + w ∧ y0 <= y < y0 + h) → rect x0 y0 w h v x y = None.
Proof.
  intros Hn. unfold rect. destruct (_ && _) eqn:E; [|done]. exfalso. apply Hn.
  rewrite !andb_true_iff, !Z.leb_le, !Z.ltb_lt in E. lia.
Qed.
Lemma cell_picture_in fb c x y px py :
  x <= px < x + console_cell_width → y <= py < y + console_cell_height →
  cell_picture fb c x y px py = Some (cell_colour fb c (px - x) (py - y)).
Proof. intros Hx Hy. apply (rect_in x y _ _ (cell_colour fb c (px - x) (py - y)) px py Hx Hy). Qed.
Lemma cell_picture_out fb c x y px py :
  ¬ (x <= px < x + console_cell_width ∧ y <= py < y + console_cell_height) →
  cell_picture fb c x y px py = None.
Proof. apply (rect_out x y _ _ (cell_colour fb c (px - x) (py - y)) px py). Qed.

Lemma strokes_exact_at c dx dy :
  0 <= dx < console_cell_width → 0 <= dy < console_cell_height →
  glyph_picture (glyph_for c) 1 2 3 0 0 dx dy = Some (ink (glyph_for c) 1 2 3 dx dy).
Proof.
  intros Hx Hy. pose proof strokes_exact_all as Hall. rewrite forallb_forall in Hall.
  specialize (Hall (glyph_for c) (proj1 (list_elem_of_In _ _) (glyph_for_in c))).
  assert (dx ∈ seqZ 0 console_cell_width ∧ dy ∈ seqZ 0 console_cell_height) as [Hdx Hdy]
    by (split; apply elem_of_seqZ; lia).
  apply list_elem_of_In in Hdx, Hdy. unfold strokes_exact in Hall. rewrite forallb_forall in Hall.
  specialize (Hall dy Hdy). cbv beta in Hall. rewrite forallb_forall in Hall. specialize (Hall dx Hdx).
  by apply bool_decide_eq_true in Hall.
Qed.

Lemma glyph_picture_cell fb c x y px py :
  glyph_picture (glyph_for c) (pack_rgb fb 226 232 240) (pack_rgb fb 15 23 42) (pack_rgb fb 8 13 18) x y px py =
  cell_picture fb c x y px py.
Proof.
  unfold glyph_picture, over.
  destruct (decide (x <= px < x + console_cell_width ∧ y <= py < y + console_cell_height)) as [[Hx Hy]|Hout].
  2:{ by rewrite strokes_outside, rect_out, cell_picture_out. }
  rewrite cell_picture_in by done. pose proof (strokes_exact_at c (px - x) (py - y) ltac:(lia) ltac:(lia)) as E.
  set (g := λ i, if i =? 1 then pack_rgb fb 226 232 240 else if i =? 2 then pack_rgb fb 15 23 42
                 else pack_rgb fb 8 13 18).
  change (pack_rgb fb 226 232 240) with (g 1) at 1. change (pack_rgb fb 15 23 42) with (g 2) at 1.
  rewrite strokes_map. rewrite rect_in by done. unfold glyph_picture, over in E.
  rewrite rect_in in E by lia. unfold cell_colour. change (ink _ _ _ _ _ _) with
    (ink (glyph_for c) (g 1) (g 2) (g 3) (px - x) (py - y)).
  destruct (stroke_picture _ 1 2 0 0 _ _) as [i|]; simpl; injection E as E.
  - rewrite E. unfold ink. by repeat case_match.
  - change (pack_rgb fb 8 13 18) with (g 3). rewrite E at 1. unfold ink. by repeat case_match.
Qed.
End cell_facts.

Section drawing_facts.
Context (f : limine_framebuffer) (Hf : fb_wf f).

Lemma paints_cell x y :
  0 <= x < two32 → 0 <= y < two32 →
  paints f (clear_console_cell (Some f) x y)
    (rect x y console_cell_width console_cell_height (pack_rgb (Some f) 8 13 18)).
Proof.
  intros Hx Hy. apply paints_rect; unfold console_cell_width, console_cell_height, two32, two64 in *; done || lia.
Qed.

Lemma paints_char c x y :
  0 <= x < two32 → 0 <= y < two32 →
  paints f (draw_console_char (Some f) c x y) (cell_picture (Some f) c x y).
Proof.
  intros Hx Hy. eapply paints_ext; [|intros; apply glyph_picture_cell]. unfold draw_console_char. cbv zeta.
  apply (paints_seq f (clear_console_cell (Some f) x y)); [by apply paints_cell|].
  apply paints_for. intros row Hr. apply paints_for. intros col Hc.
  destruct (negb _); [apply paints_id|]. apply paints_for. intros sy Hsy. apply paints_for. intros sx Hsx.
  assert (∀ z d, 0 <= z < two32 → 0 <= d < 100 → wrap64 (z + d) = z + d) as Hw.
  { intros. apply Z.mod_small. unfold two32, two64 in *. lia. }
  rewrite <-!(Z.add_assoc x), <-!(Z.add_assoc y). rewrite (Hw x), (Hw y) by (done || lia).
  rewrite <-!(Z.add_assoc x), <-!(Z.add_assoc y). rewrite !(Hw x), !(Hw y) by (done || lia).
  apply paints_seq; apply paints_put; (done || lia).
Qed.
End drawing_facts.

(** ** Scrolling *)
Lemma for_upto_ind {A} (P : Z → A → Prop) n (body : Z → A → A) a :
  0 <= n → P 0 a → (∀ i a, 0 <= i < n → P i a → P (i + 1) (body i a)) → P n (for_upto n body a).
Proof.
  intros Hn H0 Hstep. unfold for_upto. revert Hstep. pattern n. apply natlike_ind; [..|done]; clear n Hn.
  - done.
  - intros n Hn IH Hstep. unfold Z.succ. rewrite seqZ_app, foldl_app by lia. simpl.
    apply Hstep; [lia|]. apply IH. intros. apply Hstep; [lia|done].
Qed.

Section scroll_facts.
Context (f : limine_framebuffer) (Hf : fb_wf f).

(** A byte of the framebuffer by row and offset. *)
Definition byte_at (y b : Z) : Z := fb_address f + y * fb_pitch f + b.

Lemma copy_row y ox step m :
  0 <= ox → 4 * ox <= fb_pitch f → 0 <= y → 0 < step → y + step < fb_height f →
  ∀ i, for_upto (fb_pitch f - ox * 4) (λ j m,
         poke_byte (wrap64 (fb_address f + y * fb_pitch f + (ox * 4 + j)))
           (m (wrap64 (fb_address f + (y + step) * fb_pitch f + (ox * 4 + j)))) m) m i =
       if (byte_at y (4 * ox) <=? i) && (i <? byte_at y (fb_pitch f)) then m (i + step * fb_pitch f) else m i.
Proof.
  intros Hox Hp Hy Hs Hh.
  assert (∀ z, byte_at y 0 <= z < byte_at (y + step) (fb_pitch f) → wrap64 z = z) as Hw.
  { intros z Hz. apply Z.mod_small. pose proof (fw_end _ Hf). pose proof (fw_address _ Hf).
    unfold byte_at in *. nia. }
  enough (∀ i, for_upto (fb_pitch f - ox * 4) (λ j m,
         poke_byte (wrap64 (fb_address f + y * fb_pitch f + (ox * 4 + j)))
           (m (wrap64 (fb_address f + (y + step) * fb_pitch f + (ox * 4 + j)))) m) m i =
       if (byte_at y (4 * ox) <=? i) && (i <? byte_at y (4 * ox) + (fb_pitch f - ox * 4)) then m (i + step * fb_pitch f) else m i)
    as He.
  { intros i. rewrite He. replace (byte_at y (4 * ox) + (fb_pitch f - ox * 4)) with (byte_at y (fb_pitch f))
      by (unfold byte_at; lia). done. }
  apply (for_upto_ind (λ n m', ∀ i, m' i =
    if (byte_at y (4 * ox) <=? i) && (i <? byte_at y (4 * ox) + n) then m (i + step * fb_pitch f) else m i));
    [lia| |].
  - intros i. destruct (_ && _) eqn:E; [|done]. rewrite andb_true_iff, Z.leb_le, Z.ltb_lt in E. lia.
  - intros j m' Hj IH i. unfold poke_byte.
    rewrite !Hw by (unfold byte_at; nia).
    replace (fb_address f + y * fb_pitch f + (ox * 4 + j)) with (byte_at y (4 * ox) + j) by (unfold byte_at; lia).
    replace (fb_address f + (y + step) * fb_pitch f + (ox * 4 + j)) with (byte_at y (4 * ox) + j + step * fb_pitch f)
      by (unfold byte_at; lia).
    rewrite !IH. destruct (Z.eqb_spec i (byte_at y (4 * ox) + j)) as [->|Hne].
    + rewrite (proj2 (Z.leb_le _ (byte_at y (4 * ox) + j))), (proj2 (Z.ltb_lt (byte_at y (4 * ox) + j) _)) by lia.
      cbn [andb]. destruct (_ && _) eqn:E; [|done]. rewrite andb_true_iff, Z.leb_le, Z.ltb_lt in E. nia.
    + destruct (_ <=? i); [|done]. cbn [andb].
      destruct (Z.ltb_spec i (byte_at y (4 * ox) + j)), (Z.ltb_spec i (byte_at y (4 * ox) + (j + 1))); done || lia.
Qed.

Lemma copy_rows_run ox oy step bottom m :
  0 <= ox → 4 * ox <= fb_pitch f → 0 <= oy → 0 < step → oy + step <= bottom → bottom <= fb_height f →
  ∀ y b, 0 <= b < fb_pitch f →
    copy_rows f ox oy step bottom m (byte_at y b) =
    if (oy <=? y) && (y <? bottom - step) && (4 * ox <=? b) then m (byte_at (y + step) b) else m (byte_at y b).
Proof.
  intros Hox Hp Hoy Hs Hb Hh. unfold copy_rows. cbv zeta.
  enough (∀ y b, 0 <= b < fb_pitch f → for_upto (bottom - step - oy) (λ i,
    for_upto (fb_pitch f - ox * 4) (λ j m,
      poke_byte (wrap64 (fb_address f + (oy + i) * fb_pitch f + (ox * 4 + j)))
           (m (wrap64 (fb_address f + (oy + i + step) * fb_pitch f + (ox * 4 + j)))) m)) m (byte_at y b) =
    if (oy <=? y) && (y <? oy + (bottom - step - oy)) && (4 * ox <=? b)
    then m (byte_at (y + step) b) else m (byte_at y b)) as He.
  { intros y b Hy. rewrite He by done. by replace (oy + (bottom - step - oy)) with (bottom - step) by lia. }
  apply (for_upto_ind (λ n m', ∀ y b, 0 <= b < fb_pitch f → m' (byte_at y b) =
    if (oy <=? y) && (y <? oy + n) && (4 * ox <=? b) then m (byte_at (y + step) b) else m (byte_at y b)));
    [lia| |].
  - intros y b Hb'. destruct (Z.leb_spec oy y); [|done]. destruct (Z.ltb_spec y (oy + 0)); [lia|done].
  - intros k m' Hk IH y b Hb'. rewrite copy_row by lia.
    replace (byte_at y b + step * fb_pitch f) with (byte_at (y + step) b) by (unfold byte_at; lia).
    rewrite !IH by done. destruct (decide (y = oy + k)) as [->|Hne].
    + rewrite (proj2 (Z.leb_le oy (oy + k))), (proj2 (Z.ltb_lt (oy + k) (oy + (k + 1)))) by lia.
      rewrite (proj2 (Z.leb_le oy _)), (proj2 (Z.ltb_ge (oy + k) (oy + k))), (proj2 (Z.ltb_ge _ (oy + k))) by lia.
      cbn [andb]. rewrite (proj2 (Z.ltb_lt _ (byte_at (oy + k) (fb_pitch f)))) by (unfold byte_at; lia).
      rewrite andb_true_r.
      destruct (Z.leb_spec (byte_at (oy + k) (4 * ox)) (byte_at (oy + k) b)), (Z.leb_spec (4 * ox) b);
        unfold byte_at in *; done || lia.
    + assert ((byte_at (oy + k) (4 * ox) <=? byte_at y b) && (byte_at y b <? byte_at (oy + k) (fb_pitch f)) = false)
        as ->.
      { rewrite andb_false_iff, Z.leb_gt, Z.ltb_ge. unfold byte_at. destruct (Z.lt_total y (oy + k)) as [|[|]]; nia. }
      destruct (oy <=? y); [|done]. cbn [andb].
      destruct (Z.ltb_spec y (oy + k)), (Z.ltb_spec y (oy + (k + 1))); done || lia.
Qed.

(** The same for the bytes of a pixel right of the origin. *)
Lemma copy_rows_pixel ox oy step bottom m x y j :
  0 <= ox <= x → x < fb_width f → 0 <= oy <= y → 0 < step → oy + step <= bottom → bottom <= fb_height f →
  0 <= j < 4 →
  copy_rows f ox oy step bottom m (pixel_at f x y j) =
  if y <? bottom - step then m (pixel_at f x (y + step) j) else m (pixel_at f x y j).
Proof.
  intros Hx Hw Hy Hs Hb Hh Hj. pose proof (fw_pitch _ Hf).
  assert (∀ z, pixel_at f x z j = byte_at z (4 * x + j)) as E by (intros; unfold pixel_at, byte_at; lia).
  rewrite !E, copy_rows_run by lia. rewrite (proj2 (Z.leb_le oy y)), (proj2 (Z.leb_le (4 * ox) _)) by lia.
  by rewrite andb_true_r.
Qed.
End scroll_facts.
