(* ===== verification/TextConsole.v ===== *)
(** * Text console on the framebuffer ([src/arch/x86_64/framebuffer.c])

    A history of 256 lines of 160 characters, a cursor on the newest line and a
    view that follows it or is scrolled back. Output is drawn cell by cell, by
    moving pixels, or by drawing everything again; the theorems relate the pixels
    to the history and the history to a terminal with unlimited lines. *)
From stdpp Require Import base list numbers relations.
From Stdlib Require Import ZArith Lia.
From S2P Require Import Prelude.
From S2P Require Import CString.
From S2P Require Import Circular.
From S2P Require Import Framebuffer.

#[local] Open Scope Z_scope.

Definition CONSOLE_HISTORY_ROWS : Z := 256.

Record console := mk_console {
  active_framebuffer : option limine_framebuffer;
  console_cursor_x : Z;
  console_cursor_y : Z;
  console_cursor_ready : bool;
  console_history : list (list Z);
  console_cursor_column : Z;
  console_current_line : Z;
  console_view_top_line : Z;
  (** the bytes of memory *)
  fb_memory : memory
}.
Implicit Types s : console.

(** ** Updates *)
Definition with_framebuffer fb s : console :=
  mk_console fb (console_cursor_x s) (console_cursor_y s) (console_cursor_ready s) (console_history s)
    (console_cursor_column s) (console_current_line s) (console_view_top_line s) (fb_memory s).
Definition with_pixels (x y : Z) s : console :=
  mk_console (active_framebuffer s) x y (console_cursor_ready s) (console_history s)
    (console_cursor_column s) (console_current_line s) (console_view_top_line s) (fb_memory s).
Definition with_ready (b : bool) s : console :=
  mk_console (active_framebuffer s) (console_cursor_x s) (console_cursor_y s) b (console_history s)
    (console_cursor_column s) (console_current_line s) (console_view_top_line s) (fb_memory s).
Definition with_history h s : console :=
  mk_console (active_framebuffer s) (console_cursor_x s) (console_cursor_y s) (console_cursor_ready s) h
    (console_cursor_column s) (console_current_line s) (console_view_top_line s) (fb_memory s).
Definition with_column (c : Z) s : console :=
  mk_console (active_framebuffer s) (console_cursor_x s) (console_cursor_y s) (console_cursor_ready s)
    (console_history s) c (console_current_line s) (console_view_top_line s) (fb_memory s).
Definition with_line (l : Z) s : console :=
  mk_console (active_framebuffer s) (console_cursor_x s) (console_cursor_y s) (console_cursor_ready s)
    (console_history s) (console_cursor_column s) l (console_view_top_line s) (fb_memory s).
Definition with_view (v : Z) s : console :=
  mk_console (active_framebuffer s) (console_cursor_x s) (console_cursor_y s) (console_cursor_ready s)
    (console_history s) (console_cursor_column s) (console_current_line s) v (fb_memory s).
Definition with_memory (op : memory → memory) s : console :=
  mk_console (active_framebuffer s) (console_cursor_x s) (console_cursor_y s) (console_cursor_ready s)
    (console_history s) (console_cursor_column s) (console_current_line s) (console_view_top_line s)
    (op (fb_memory s)).

(** ** The history *)
Definition history_slot (line : Z) : nat := Z.to_nat (line mod CONSOLE_HISTORY_ROWS).
Definition blank_row : list Z := replicate (Z.to_nat CONSOLE_MAX_COLUMNS) 32.

Definition clear_history_row (line : Z) s : console :=
  with_history (<[history_slot line := blank_row]> (console_history s)) s.
(** [console_history[line % CONSOLE_HISTORY_ROWS][column] = ch] *)
Definition history_put (line column ch : Z) : M console unit :=
  if CONSOLE_MAX_COLUMNS <=? column then ub
  else modify (λ s, with_history (alter (λ row, <[Z.to_nat column := ch]> row) (history_slot line)
                                    (console_history s)) s).

Definition oldest_history_line s : Z :=
  if CONSOLE_HISTORY_ROWS <? wrap64 (console_current_line s + 1)
  then wrap64 (console_current_line s + 1) - CONSOLE_HISTORY_ROWS else 0.
Definition bottom_view_top_line s : Z :=
  let rows := console_rows (active_framebuffer s) in
  if (rows =? 0) || (wrap64 (console_current_line s + 1) <=? rows) then 0
  else wrap64 (console_current_line s + 1) - rows.
Definition view_is_at_bottom s : bool := bottom_view_top_line s <=? console_view_top_line s.
Definition clamp_console_view s : console :=
  let oldest := oldest_history_line s in
  let bottom := bottom_view_top_line s in
  let s := if console_view_top_line s <? oldest then with_view oldest s else s in
  if bottom <? console_view_top_line s then with_view bottom s else s.
(** The row of a line that is in view. *)
Definition history_line_visible s (line : Z) : option Z :=
  let rows := console_rows (active_framebuffer s) in
  if (line <? console_view_top_line s) || (wrap64 (console_view_top_line s + rows) <=? line) then None
  else Some (line - console_view_top_line s).
Definition history_char_at s (line column : Z) : Z :=
  if (CONSOLE_MAX_COLUMNS <=? column) || (line <? oldest_history_line s) || (console_current_line s <? line)
  then 32
  else nth (Z.to_nat column) (nth (history_slot line) (console_history s) []) 32.

(** ** Drawing *)
Definition update_console_cursor_pixels s : console :=
  let fb := active_framebuffer s in
  let columns := console_visible_columns fb in
  let s := if negb (columns =? 0) && (columns <? console_cursor_column s) then with_column columns s else s in
  let row := default 0 (history_line_visible s (console_current_line s)) in
  with_pixels (console_origin_x fb + console_cursor_column s * console_cell_width)
    (console_origin_y fb + row * console_line_step) s.

Definition draw_history_cell (line column : Z) s : console :=
  let fb := active_framebuffer s in
  match history_line_visible s line with
  | None => s
  | Some row =>
      if console_visible_columns fb <=? column then s
      else
        let ch := history_char_at s line column in
        let x := console_origin_x fb + column * console_cell_width in
        let y := console_origin_y fb + row * console_line_step in
        if ch =? 32 then with_memory (clear_console_cell fb x y) s
        else with_memory (draw_console_char fb ch x y) s
  end.

(** The two loops of [render_console]. *)
Definition draw_view s : memory → memory :=
  let fb := active_framebuffer s in
  for_upto (console_rows fb) (λ row,
    let line := wrap64 (console_view_top_line s + row) in
    for_upto (console_visible_columns fb) (λ column m,
      let ch := history_char_at s line column in
      if ch =? 32 then m
      else draw_console_char fb ch (console_origin_x fb + column * console_cell_width)
             (console_origin_y fb + row * console_line_step) m)).

Definition render_console s : console :=
  let fb := active_framebuffer s in
  let origin_x := console_origin_x fb in
  let origin_y := console_origin_y fb in
  let background := pack_rgb fb 8 13 18 in
  match fb with
  | None => s
  | Some f =>
      if negb (fb_bpp f =? 32) then s
      else if (fb_height f <=? origin_y) || (fb_width f <=? origin_x) then s
      else
        let s := clamp_console_view s in
        let height := fb_height f - origin_y in
        let s := with_memory (fill_rect fb origin_x origin_y (fb_width f - origin_x) height background) s in
        update_console_cursor_pixels (with_memory (draw_view s) s)
  end.

(** ** Control characters *)
Definition console_newline s : console :=
  let follow := view_is_at_bottom s in
  let old_top := console_view_top_line s in
  let s := with_line (wrap64 (console_current_line s + 1)) s in
  let s := with_column 0 s in
  let s := clear_history_row (console_current_line s) s in
  let s := if follow then with_view (bottom_view_top_line s) s else s in
  let s := clamp_console_view s in
  if follow && (console_view_top_line s =? wrap64 (old_top + 1))
  then update_console_cursor_pixels (with_memory (scroll_console_pixels_up (active_framebuffer s)) s)
  else if negb (console_view_top_line s =? old_top) then render_console s
  else update_console_cursor_pixels s.

Definition console_carriage_return s : console := update_console_cursor_pixels (with_column 0 s).

Definition console_backspace : M console unit :=
  let* column := gets console_cursor_column in
  if column =? 0 then ret tt
  else
    modify (with_column (column - 1)) ;;
    let* line := gets console_current_line in
    history_put line (column - 1) 32 ;;
    modify (draw_history_cell line (column - 1)) ;;
    modify update_console_cursor_pixels.

(** [for (row = 0; row < CONSOLE_HISTORY_ROWS; row++) clear_history_row(row);] *)
Definition clear_history : console → console := for_upto CONSOLE_HISTORY_ROWS clear_history_row.

(** Line 0, column 0, the view on it. *)
Definition home_cursor s : console :=
  update_console_cursor_pixels (with_ready true (with_view 0 (with_line 0 (with_column 0 s)))).

Definition ensure_console_cursor s : console :=
  if console_cursor_ready s then s else home_cursor (clear_history s).

(** ** Operations *)
Definition scdk_framebuffer_init (framebuffer : option limine_framebuffer) s : bool * console :=
  match framebuffer with
  | None => (false, s)
  | Some f => if fb_address f =? 0 then (false, s) else (true, with_ready false (with_framebuffer (Some f) s))
  end.

Definition supported fb : bool := match fb with None => false | Some f => fb_bpp f =? 32 end.

Definition scdk_fb_text_clear : M console unit :=
  let* fb := gets active_framebuffer in
  guard (negb (supported fb)) SCDK_ERR_NOTSUP ;;
  let* f := lift (deref fb) in
  let background := pack_rgb fb 8 13 18 in
  modify (with_memory (fill_rect fb 0 0 (fb_width f) (fb_height f) background)) ;;
  modify clear_history ;;
  modify home_cursor.

Definition scdk_fb_text_init (framebuffer width height pitch bpp : Z) : M console unit :=
  guard ((framebuffer =? 0) || (width =? 0) || (height =? 0) || (pitch =? 0) || negb (bpp =? 32))
    SCDK_ERR_INVAL ;;
  modify (λ s,
    match active_framebuffer s with
    | Some f => if fb_address f =? framebuffer then s
                else with_framebuffer (Some (mk_fb framebuffer width height pitch bpp 1 8 16 8 8 8 0)) s
    | None => with_framebuffer (Some (mk_fb framebuffer width height pitch bpp 1 8 16 8 8 8 0)) s
    end) ;;
  modify (with_ready false) ;;
  scdk_fb_text_clear.

(** [scdk_fb_text_putchar] below its tests for control characters. *)
Definition put_plain (ch : Z) : M console unit :=
  let* columns := gets (λ s, console_visible_columns (active_framebuffer s)) in
  guard (columns =? 0) SCDK_ERR_NOTSUP ;;
  modify (λ s, if columns <=? console_cursor_column s then console_newline s else s) ;;
  let* follow := gets view_is_at_bottom in
  let* old_top := gets console_view_top_line in
  let* line := gets console_current_line in
  let* column := gets console_cursor_column in
  history_put line column ch ;;
  modify (λ s, if (follow : bool) then with_view (bottom_view_top_line s) s else s) ;;
  modify clamp_console_view ;;
  modify (λ s, if negb (console_view_top_line s =? old_top) then render_console s
               else draw_history_cell line column s) ;;
  modify (λ s, with_column (console_cursor_column s + 1) s) ;;
  modify update_console_cursor_pixels.

(** [scdk_fb_text_putchar] with the entry tests, for any character but a tab. *)
Definition put_char (ch : Z) : M console unit :=
  let* fb := gets active_framebuffer in
  guard (negb (supported fb)) SCDK_ERR_NOTSUP ;;
  modify ensure_console_cursor ;;
  if ch =? 10 then modify console_newline
  else if ch =? 13 then modify console_carriage_return
  else if ch =? 8 then console_backspace
  else put_plain ch.

(** [do putchar(' ') while (console_cursor_column % 4 != 0)]: no value when the
    loop is not left within [fuel] rounds. *)
Fixpoint tab_loop (fuel : nat) : M console unit :=
  match fuel with
  | O => ub
  | S fuel =>
      put_char 32 ;;
      let* column := gets console_cursor_column in
      if column mod 4 =? 0 then ret tt else tab_loop fuel
  end.
(** Seven rounds leave the loop if any number does. *)
Definition TAB_ROUNDS : nat := 7.

Definition scdk_fb_text_putchar (ch : Z) : M console unit :=
  if ch =? 9 then
    let* fb := gets active_framebuffer in
    guard (negb (supported fb)) SCDK_ERR_NOTSUP ;;
    modify ensure_console_cursor ;;
    tab_loop TAB_ROUNDS
  else put_char ch.

Fixpoint put_chars (buf : list Z) (i n : nat) : M console unit :=
  match n with
  | O => ret tt
  | S n => let* ch := lift (load8 buf i) in scdk_fb_text_putchar ch ;; put_chars buf (S i) n
  end.
Definition scdk_fb_text_write (buf : option (list Z)) (len : Z) : M console unit :=
  match buf with
  | None => fail SCDK_ERR_INVAL
  | Some buf =>
      let* n := lift (if len =? 0 then strlen buf else Ok (Z.to_nat len)) in
      put_chars buf 0 n
  end.

Definition scdk_fb_text_set_cursor (x y : Z) : M console unit :=
  let* fb := gets active_framebuffer in
  let columns := console_columns fb in
  let rows := console_rows fb in
  guard (negb (bool_decide (is_Some fb)) || (columns =? 0) || (rows =? 0)) SCDK_ERR_NOTSUP ;;
  guard ((columns <=? x) || (rows <=? y)) SCDK_ERR_BOUNDS ;;
  let* s := gets (λ s, s) in
  let line := wrap64 (console_view_top_line s + y) in
  guard ((line <? oldest_history_line s) || (console_current_line s <? line)) SCDK_ERR_BOUNDS ;;
  modify (with_column x) ;;
  modify (with_line line) ;;
  modify (with_ready true) ;;
  modify update_console_cursor_pixels.

Definition scdk_fb_text_scroll (lines : Z) : M console unit :=
  let* fb := gets active_framebuffer in
  guard (negb (supported fb)) SCDK_ERR_NOTSUP ;;
  modify ensure_console_cursor ;;
  if lines =? 0 then ret tt
  else
    let* s := gets (λ s, s) in
    let old_top := console_view_top_line s in
    let oldest := oldest_history_line s in
    let bottom := bottom_view_top_line s in
    (if lines <? 0 then
       let amount := - lines in
       modify (with_view (if wrap64 (old_top - oldest) <? amount then oldest else old_top - amount))
     else
       let amount := lines in
       modify (with_view (if wrap64 (bottom - old_top) <? amount then bottom else wrap64 (old_top + amount)))) ;;
    modify clamp_console_view ;;
    modify (λ s, if negb (console_view_top_line s =? old_top) then render_console s else s).

Record scdk_console_info := mk_console_info {
  ci_columns : Z;
  ci_rows : Z;
  ci_cursor_x : Z;
  ci_cursor_y : Z;
  ci_flags : Z
}.
Definition SCDK_CONSOLE_INFO_SERIAL_MIRROR : Z := 1.
Definition SCDK_CONSOLE_INFO_FRAMEBUFFER_TEXT : Z := 2.

Definition scdk_fb_text_get_info : M console scdk_console_info :=
  let* fb := gets active_framebuffer in
  guard (negb (supported fb)) SCDK_ERR_NOTSUP ;;
  modify ensure_console_cursor ;;
  let* s := gets (λ s, s) in
  let rows := wrap32 (console_rows fb) in
  let cursor_y :=
    match history_line_visible s (console_current_line s) with
    | Some _ => wrap32 (console_current_line s - console_view_top_line s)
    | None => if negb (rows =? 0) then wrap32 (rows - 1) else 0
    end in
  ret (mk_console_info (wrap32 (console_visible_columns fb)) rows (wrap32 (console_cursor_column s)) cursor_y
         SCDK_CONSOLE_INFO_FRAMEBUFFER_TEXT).

(** ** What the screen shows *)
Section screen.
Context (f : limine_framebuffer).
Implicit Types (chars : Z → Z → Z) (m : memory).

#[local] Abbreviation fb := (Some f).
#[local] Abbreviation ox := (console_origin_x (Some f)).
#[local] Abbreviation oy := (console_origin_y (Some f)).
#[local] Abbreviation rows := (console_rows (Some f)).
#[local] Abbreviation columns := (console_visible_columns (Some f)).

(** Room for a character and for two lines, and not more lines than the history
    keeps. *)
Record text_area : Prop := {
  ta_fb : fb_wf f;
  ta_columns : 0 < columns;
  ta_rows : 2 <= rows <= CONSOLE_HISTORY_ROWS
}.

Definition in_text_area (x y : Z) : Prop := ox <= x < fb_width f ∧ oy <= y < fb_height f.

(** The colour of a pixel of the text area, with [chars row column] the
    characters in view. *)
Definition text_colour chars (x y : Z) : Z :=
  let row := (y - oy) / console_line_step in
  let dy := (y - oy) mod console_line_step in
  let column := (x - ox) / console_cell_width in
  let dx := (x - ox) mod console_cell_width in
  if (row <? rows) && (column <? columns) && (dy <? console_cell_height)
  then cell_colour fb (chars row column) dx dy
  else pack_rgb fb 8 13 18.
Definition shows m chars : Prop := ∀ x y j,
  in_text_area x y → 0 <= j < 4 → m (pixel_at f x y j) = pixel_byte (text_colour chars x y) j.

(** A byte that is not the framebuffer's. *)
Definition elsewhere (i : Z) : Prop :=
  i < fb_address f ∨ fb_address f + fb_height f * fb_pitch f <= i.
Definition confined (op : memory → memory) : Prop := ∀ m i, elsewhere i → op m i = m i.

Section screen_facts.
Context (Ha : text_area).

Let Hf : fb_wf f := ta_fb Ha.

Lemma origin_x_bounds : 0 <= ox ∧ ox + columns * console_cell_width <= fb_width f.
Proof.
  pose proof (fw_width _ Hf). pose proof (ta_columns Ha) as Hc. unfold console_visible_columns in *.
  assert (0 <= ox) as H0.
  { unfold console_origin_x. destruct (_ <? 64); [lia|]. apply Z.div_pos; lia. }
  split; [done|]. unfold console_columns in *. change (console_cell_width =? 0) with false in *.
  rewrite orb_false_r in *. destruct (Z.leb_spec (fb_width f) ox); [simpl in Hc; lia|].
  pose proof (Z.mul_div_le (fb_width f - ox) console_cell_width ltac:(done)).
  destruct (Z.ltb_spec CONSOLE_MAX_COLUMNS ((fb_width f - ox) / console_cell_width));
    unfold console_cell_width in *; lia.
Qed.
Lemma origin_y_bounds : 0 <= oy ∧ oy + rows * console_line_step <= fb_height f.
Proof.
  pose proof (fw_height _ Hf). pose proof (ta_rows Ha) as Hr.
  assert (0 <= oy) as H0.
  { unfold console_origin_y. destruct (_ <=? _); [lia|]. destruct (_ =? 0); [lia|].
    apply Z.div_pos; [|lia].
    pose proof (Z.mul_div_le (fb_height f - CONSOLE_VERTICAL_MARGIN_MIN * 2) (console_cell_height + 2) ltac:(done)).
    unfold CONSOLE_VERTICAL_MARGIN_MIN in *. lia. }
  split; [done|]. unfold console_rows in *. change (console_line_step =? 0) with false in *.
  rewrite orb_false_r in *. destruct (Z.leb_spec (fb_height f) oy); [lia|].
  pose proof (Z.mul_div_le (fb_height f - oy) console_line_step ltac:(done)).
  unfold console_line_step, console_cell_height in *. lia.
Qed.
Lemma columns_bounds : 0 < columns <= CONSOLE_MAX_COLUMNS.
Proof. pose proof (ta_columns Ha). unfold console_visible_columns in *. destruct (Z.ltb_spec CONSOLE_MAX_COLUMNS (console_columns fb)); lia. Qed.

Lemma in_text_area_screen x y : in_text_area x y → on_screen f x y.
Proof. intros [Hx Hy]. pose proof origin_x_bounds. pose proof origin_y_bounds. split; lia. Qed.

Lemma paints_confined op p : paints f op p → confined op.
Proof.
  intros [_ Hout] m i Hi. apply Hout. intros x y j [Hx Hy] Hj ->. pose proof (fw_pitch _ Hf).
  unfold elsewhere, pixel_at in Hi. nia.
Qed.

Lemma shows_ext m chars chars' :
  (∀ r c, 0 <= r < rows → 0 <= c < columns → chars r c = chars' r c) → shows m chars → shows m chars'.
Proof.
  intros E Hs x y j [Hx Hy] Hj. rewrite Hs by done. f_equal. unfold text_colour. cbv zeta.
  destruct (Z.ltb_spec ((y - oy) / console_line_step) rows); [|done].
  destruct (Z.ltb_spec ((x - ox) / console_cell_width) columns); [|done].
  rewrite E; [done|split; [apply Z.div_pos; [lia|done]|done]..].
Qed.

(** The cell a pixel is in. *)
Lemma cell_of_pixel x y r c :
  ox <= x → oy <= y → 0 <= r → 0 <= c →
  (ox + c * console_cell_width <= x < ox + c * console_cell_width + console_cell_width ∧
   oy + r * console_line_step <= y < oy + r * console_line_step + console_cell_height) ↔
  (x - ox) / console_cell_width = c ∧ (y - oy) / console_line_step = r ∧
  (y - oy) mod console_line_step < console_cell_height.
Proof.
  intros Hx Hy Hr Hc. pose proof (Z.div_mod (x - ox) console_cell_width ltac:(done)) as E1.
  pose proof (Z.div_mod (y - oy) console_line_step ltac:(done)) as E2.
  pose proof (Z.mod_pos_bound (x - ox) console_cell_width ltac:(done)).
  pose proof (Z.mod_pos_bound (y - oy) console_line_step ltac:(done)).
  unfold console_line_step, console_cell_width, console_cell_height in *. split; [|lia].
  intros [Hx' Hy']. assert ((x - ox) / 14 = c) by lia. assert ((y - oy) / (20 + 2) = r) by lia. lia.
Qed.

Lemma blank_colour dx dy : cell_colour fb 32 dx dy = pack_rgb fb 8 13 18.
Proof.
  unfold cell_colour, ink. change (glyph_for 32) with glyph_blank.
  assert (∀ a b, glyph_has glyph_blank a b = false) as Hn; [|by rewrite !Hn].
  intros a b. unfold glyph_has, glyph_bit.
  assert (nth (Z.to_nat ((b - 3) / 2)) glyph_blank 0 = 0) as ->; [|apply andb_false_r].
  generalize (Z.to_nat ((b - 3) / 2)). intros n. do 8 (destruct n as [|n]; [done|]). done.
Qed.

(** A character drawn into a cell in view. *)
Lemma shows_cell op ch r c m chars :
  0 <= r < rows → 0 <= c < columns →
  paints f op (cell_picture fb ch (ox + c * console_cell_width) (oy + r * console_line_step)) →
  shows m chars →
  shows (op m) (λ r' c', if (r' =? r) && (c' =? c) then ch else chars r' c').
Proof.
  intros Hr Hc Hop Hs x y j Hxy Hj. rewrite (paints_in _ _ _ Hop) by auto using in_text_area_screen.
  pose proof Hxy as [Hx Hy]. destruct (cell_of_pixel x y r c) as [Hin Hout]; try lia.
  destruct (decide ((x - ox) / console_cell_width = c ∧ (y - oy) / console_line_step = r ∧
    (y - oy) mod console_line_step < console_cell_height)) as [Hd|Hd].
  - pose proof (Hout Hd) as Hp. rewrite cell_picture_in by apply Hp. f_equal. destruct Hd as (E1 & E2 & E3).
    unfold text_colour. rewrite E1, E2, !Z.eqb_refl.
    rewrite (proj2 (Z.ltb_lt r rows)), (proj2 (Z.ltb_lt c columns)), (proj2 (Z.ltb_lt _ console_cell_height)) by lia.
    cbn [andb]. f_equal.
    + pose proof (Z.div_mod (x - ox) console_cell_width ltac:(done)). lia.
    + pose proof (Z.div_mod (y - oy) console_line_step ltac:(done)). lia.
  - rewrite cell_picture_out by (intros Hp; by apply Hd, Hin). rewrite Hs by done. f_equal.
    unfold text_colour. cbv zeta. destruct (Z.ltb_spec ((y - oy) / console_line_step) rows); [|done].
    destruct (Z.ltb_spec ((x - ox) / console_cell_width) columns); [|done].
    destruct (Z.ltb_spec ((y - oy) mod console_line_step) console_cell_height); [|done]. cbn [andb].
    destruct (Z.eqb_spec ((y - oy) / console_line_step) r); [|done].
    destruct (Z.eqb_spec ((x - ox) / console_cell_width) c); [|done]. tauto.
Qed.

(** A cleared cell is a space. *)
Lemma paints_space x y :
  0 <= x < two32 → 0 <= y < two32 → paints f (clear_console_cell fb x y) (cell_picture fb 32 x y).
Proof.
  intros Hx Hy. eapply paints_ext; [by apply paints_cell|]. intros px py _. unfold cell_picture, rect.
  by rewrite blank_colour.
Qed.
Lemma paints_at ch r c :
  0 <= r < rows → 0 <= c < columns →
  let x := ox + c * console_cell_width in
  let y := oy + r * console_line_step in
  paints f (clear_console_cell fb x y) (cell_picture fb 32 x y) ∧
  paints f (draw_console_char fb ch x y) (cell_picture fb ch x y).
Proof.
  intros Hr Hc x y. pose proof origin_x_bounds. pose proof origin_y_bounds.
  pose proof (fw_width _ Hf). pose proof (fw_height _ Hf).
  assert (0 <= x < two32 ∧ 0 <= y < two32) as [Hx Hy].
  { unfold x, y, console_cell_width, console_line_step, console_cell_height in *. nia. }
  split; [by apply paints_space|by apply paints_char].
Qed.

Lemma text_colour_blank x y : text_colour (λ _ _, 32) x y = pack_rgb fb 8 13 18.
Proof. unfold text_colour. rewrite blank_colour. by destruct (_ && _). Qed.

(** Filling at least the text area. *)
Lemma shows_fill x0 y0 m :
  0 <= x0 <= ox → 0 <= y0 <= oy →
  shows (fill_rect fb x0 y0 (fb_width f - x0) (fb_height f - y0) (pack_rgb fb 8 13 18) m) (λ _ _, 32).
Proof.
  intros Hx0 Hy0 x y j Hxy Hj. pose proof (fw_width _ Hf). pose proof (fw_height _ Hf).
  rewrite (paints_in _ _ _ (paints_rect f Hf x0 y0 (fb_width f - x0) (fb_height f - y0) (pack_rgb fb 8 13 18)
    ltac:(lia) ltac:(lia) ltac:(unfold two32, two64 in *; lia) ltac:(unfold two32, two64 in *; lia)))
    by auto using in_text_area_screen.
  destruct Hxy as [Hx Hy]. rewrite rect_in by lia. by rewrite text_colour_blank.
Qed.

(** Drawing the characters in view over a blank text area. *)
Lemma shows_draw chars m :
  shows m (λ _ _, 32) →
  shows (for_upto rows (λ row, for_upto columns (λ column m,
    if chars row column =? 32 then m
    else draw_console_char fb (chars row column) (ox + column * console_cell_width)
           (oy + row * console_line_step) m)) m) chars.
Proof.
  intros Hm. pose proof (ta_rows Ha). pose proof columns_bounds. eapply shows_ext.
  2:{ apply (for_upto_ind (λ n m, shows m (λ r c, if r <? n then chars r c else 32))); [lia| |].
      - eapply shows_ext; [|exact Hm]. intros r c Hr _. by rewrite (proj2 (Z.ltb_ge r 0)) by lia.
      - intros i m' Hi Hm'. eapply shows_ext.
        2:{ apply (for_upto_ind (λ n m, shows m (λ r c,
              if (r <? i) || ((r =? i) && (c <? n)) then chars r c else 32))); [lia| |].
            - eapply shows_ext; [|exact Hm']. intros r c _ Hc. rewrite (proj2 (Z.ltb_ge c 0)) by lia.
              by rewrite andb_false_r, orb_false_r.
            - intros k m2 Hk Hm2. destruct (Z.eqb_spec (chars i k) 32) as [E|E].
              + eapply shows_ext; [|exact Hm2]. intros r c _ _. cbv beta.
                destruct (Z.ltb_spec r i); [done|]. cbn [orb]. destruct (Z.eqb_spec r i) as [->|]; [|done]. cbn [andb].
                destruct (Z.ltb_spec c k), (Z.ltb_spec c (k + 1)); try done; [lia|]. by replace c with k by lia.
              + eapply shows_ext; [|eapply (shows_cell _ (chars i k) i k); [lia|lia| |exact Hm2]];
                  [|apply paints_at; lia].
                intros r c _ _. cbv beta. destruct (Z.eqb_spec r i) as [->|].
                * rewrite Z.ltb_irrefl. cbn [orb andb]. destruct (Z.eqb_spec c k) as [->|].
                  -- by rewrite (proj2 (Z.ltb_lt k (k + 1))) by lia.
                  -- destruct (Z.ltb_spec c k), (Z.ltb_spec c (k + 1)); done || lia.
                * cbn [andb]. by rewrite !orb_false_r. }
        intros r c _ Hc. cbv beta. rewrite (proj2 (Z.ltb_lt c columns)) by lia. rewrite andb_true_r.
        destruct (Z.ltb_spec r i), (Z.ltb_spec r (i + 1)), (Z.eqb_spec r i); done || lia. }
  intros r c Hr _. cbv beta. by rewrite (proj2 (Z.ltb_lt r rows)) by lia.
Qed.

(** Moving the pixels up by a line. *)
Lemma shows_scroll m chars :
  shows m chars →
  shows (scroll_console_pixels_up fb m) (λ r c, if r =? rows - 1 then 32 else chars (r + 1) c).
Proof.
  intros Hm. pose proof (ta_rows Ha). pose proof origin_x_bounds as [Hox Hw]. pose proof origin_y_bounds as [Hoy Hh].
  pose proof columns_bounds. pose proof (fw_width _ Hf). pose proof (fw_height _ Hf). pose proof (fw_pitch _ Hf).
  unfold scroll_console_pixels_up. change (console_line_step =? 0) with false. cbv iota.
  unfold console_line_step, console_cell_height, console_cell_width in *.
  rewrite (proj2 (Z.leb_gt _ _)) by lia. intros x y j Hxy Hj.
  rewrite (paints_in _ _ _ (paints_rect f Hf ox (oy + rows * (20 + 2) - (20 + 2)) (fb_width f - ox) (20 + 2)
    (pack_rgb fb 8 13 18) ltac:(lia) ltac:(lia) ltac:(unfold two32, two64 in *; lia)
    ltac:(unfold two32, two64 in *; lia))) by auto using in_text_area_screen.
  pose proof Hxy as [Hx Hy]. pose proof (Z.div_mod (y - oy) (20 + 2) ltac:(done)) as Ed.
  pose proof (Z.mod_pos_bound (y - oy) (20 + 2) ltac:(done)).
  destruct (Z.le_gt_cases (oy + rows * (20 + 2) - (20 + 2)) y).
  - destruct (Z.lt_ge_cases y (oy + rows * (20 + 2))).
    + rewrite rect_in by lia. f_equal. unfold text_colour. cbv zeta.
      assert ((y - oy) / console_line_step = rows - 1) as ->.
      { unfold console_line_step, console_cell_height. lia. }
      rewrite Z.eqb_refl, blank_colour. by destruct (_ && _).
    + rewrite rect_out by lia.
      rewrite (copy_rows_pixel f Hf) by lia. rewrite (proj2 (Z.ltb_ge y _)) by lia. rewrite Hm by done. f_equal.
      unfold text_colour. cbv zeta. rewrite (proj2 (Z.ltb_ge ((y - oy) / console_line_step) rows)); [done|].
      unfold console_line_step, console_cell_height. lia.
  - rewrite rect_out by lia.
    rewrite (copy_rows_pixel f Hf) by lia. rewrite (proj2 (Z.ltb_lt y _)) by lia.
    rewrite Hm by (split; lia). f_equal. unfold text_colour. cbv zeta. unfold console_line_step, console_cell_height.
    replace (y + (20 + 2) - oy) with (y - oy + 1 * (20 + 2)) by lia. rewrite Z.div_add, Z.mod_add by done.
    assert ((y - oy) / (20 + 2) < rows - 1) by lia.
    rewrite (proj2 (Z.ltb_lt (_ + 1) rows)), (proj2 (Z.ltb_lt ((y - oy) / (20 + 2)) rows)) by lia.
    by rewrite (proj2 (Z.eqb_neq _ (rows - 1))) by lia.
Qed.

(** *** Only the framebuffer is written *)
Lemma confined_for n (op : Z → memory → memory) :
  (∀ i, 0 <= i < n → confined (op i)) → confined (for_upto n op).
Proof.
  intros Hop m i Hi. destruct (Z.le_gt_cases 0 n) as [Hn|Hn].
  - apply (for_upto_ind (λ _ m', m' i = m i)); [done..|]. intros k m' Hk IH. by rewrite Hop.
  - unfold for_upto. by rewrite seqZ_nil by lia.
Qed.
Lemma confined_seq op1 op2 : confined op1 → confined op2 → confined (λ m, op2 (op1 m)).
Proof. intros H1 H2 m i Hi. by rewrite H2, H1. Qed.
Lemma confined_fill x0 y0 w h v :
  0 <= x0 → 0 <= y0 → x0 + w < two64 → y0 + h < two64 → confined (fill_rect fb x0 y0 w h v).
Proof. intros. eapply paints_confined, paints_rect; done || lia. Qed.
Lemma confined_scroll : confined (scroll_console_pixels_up fb).
Proof.
  pose proof (ta_rows Ha). pose proof origin_x_bounds as [Hox Hw]. pose proof origin_y_bounds as [Hoy Hh].
  pose proof columns_bounds. pose proof (fw_width _ Hf). pose proof (fw_height _ Hf). pose proof (fw_pitch _ Hf).
  unfold scroll_console_pixels_up. change (console_line_step =? 0) with false. cbv iota.
  unfold console_line_step, console_cell_height, console_cell_width in *.
  rewrite (proj2 (Z.leb_gt _ _)) by lia.
  apply (confined_seq (copy_rows f ox oy (20 + 2) (oy + rows * (20 + 2)))).
  2:{ apply confined_fill; unfold two32, two64 in *; lia. }
  intros m i Hi. pose proof (Z.div_mod (i - fb_address f) (fb_pitch f) ltac:(lia)) as E.
  pose proof (Z.mod_pos_bound (i - fb_address f) (fb_pitch f) ltac:(lia)).
  assert (i = byte_at f ((i - fb_address f) / fb_pitch f) ((i - fb_address f) mod fb_pitch f)) as ->
    by (unfold byte_at; lia).
  rewrite (copy_rows_run f Hf) by (done || lia).
  destruct (_ && _ && _) eqn:Et; [|done]. exfalso.
  rewrite !andb_true_iff, Z.leb_le, Z.ltb_lt in Et. unfold elsewhere, byte_at in Hi. nia.
Qed.
Lemma confined_put x y v : 0 <= x → 0 <= y → confined (put_pixel fb x y v).
Proof. intros. eapply paints_confined, paints_put; done. Qed.
Lemma confined_test_pattern : confined (scdk_framebuffer_draw_test_pattern fb).
Proof.
  unfold scdk_framebuffer_draw_test_pattern. destruct (negb _); [done|]. cbv zeta.
  pose proof (fw_width _ Hf). pose proof (fw_height _ Hf).
  assert (0 <= fb_width f / 32 ∧ 0 <= fb_height f / 12) as [Hi Hb] by (split; apply Z.div_pos; lia).
  apply (confined_seq (λ m, for_upto _ _ (for_upto _ _ m))); [apply (confined_seq (for_upto _ _))|];
    apply confined_for; intros y Hy; apply confined_for; intros x Hx; apply confined_put; try lia.
  destruct (_ <? 24); [|apply Z.add_nonneg_nonneg; [apply Z.div_pos|]; lia].
  change (24 / 2) with 12. lia.
Qed.
End screen_facts.

(** ** A terminal with unlimited lines *)
Record terminal := mk_terminal {
  t_cells : Z → Z → Z;
  t_line : Z;
  t_column : Z
}.
Implicit Types t : terminal.

Definition t_start : terminal := mk_terminal (λ _ _, 32) 0 0.
Definition t_set (c ch : Z) t : Z → Z → Z := λ l' c',
  if (l' =? t_line t) && (c' =? c) then ch else t_cells t l' c'.
Definition t_newline t : terminal := mk_terminal (t_cells t) (t_line t + 1) 0.
Definition t_return t : terminal := mk_terminal (t_cells t) (t_line t) 0.
Definition t_backspace t : terminal :=
  if t_column t =? 0 then t else mk_terminal (t_set (t_column t - 1) 32 t) (t_line t) (t_column t - 1).
Definition t_put (ch : Z) t : terminal :=
  let t := if columns <=? t_column t then t_newline t else t in
  mk_terminal (t_set (t_column t) ch t) (t_line t) (t_column t + 1).
(** How many spaces a tab is: to the next stop, or over the end of the line to
    the first stop of the next. *)
Definition tab_width (column : Z) : nat :=
  Z.to_nat (if columns <=? column then 4
            else if 4 * (column / 4) + 4 <=? columns then 4 * (column / 4) + 4 - column
            else columns - column + 4).
Definition t_char (ch : Z) t : terminal :=
  if ch =? 9 then Nat.iter (tab_width (t_column t)) (t_put 32) t
  else if ch =? 10 then t_newline t
  else if ch =? 13 then t_return t
  else if ch =? 8 then t_backspace t
  else t_put ch t.
Definition t_text (text : list Z) t : terminal := foldl (λ t ch, t_char ch t) t text.

(** ** The invariant *)
Definition LINE_LIMIT : Z := 2 ^ 62.

Record console_ok s : Prop := {
  ok_fb : active_framebuffer s = Some f;
  ok_ready : console_cursor_ready s = true;
  ok_history : length (console_history s) = Z.to_nat CONSOLE_HISTORY_ROWS;
  ok_rows : Forall (λ row, length row = Z.to_nat CONSOLE_MAX_COLUMNS) (console_history s);
  ok_column : 0 <= console_cursor_column s <= columns;
  ok_line : 0 <= console_current_line s < LINE_LIMIT;
  ok_view : oldest_history_line s <= console_view_top_line s <= bottom_view_top_line s
}.
(** The characters in view. *)
Definition view_chars s : Z → Z → Z := λ row column, history_char_at s (console_view_top_line s + row) column.
(** The history holds the last lines of the terminal. *)
Record keeps_lines s t : Prop := {
  kl_line : console_current_line s = t_line t;
  kl_column : console_cursor_column s = t_column t;
  kl_cells l c : oldest_history_line s <= l <= console_current_line s → 0 <= c < CONSOLE_MAX_COLUMNS →
    history_char_at s l c = t_cells t l c;
  kl_fresh l c : console_current_line s < l → t_cells t l c = 32
}.
(** A console on [f], in memory that was [m0] elsewhere, that shows [t]. *)
Record console_inv (m0 : memory) s t : Prop := {
  ci_ok : console_ok s;
  ci_shows : shows (fb_memory s) (view_chars s);
  ci_elsewhere i : elsewhere i → fb_memory s i = m0 i;
  ci_keeps : keeps_lines s t
}.

Section console_facts.
Context (Ha : text_area).
Let Hrows := ta_rows Ha.
Let Hcols := columns_bounds Ha.

Lemma wrap_line z : 0 <= z < LINE_LIMIT + 1000 → wrap64 z = z.
Proof. intros Hz. apply Z.mod_small. unfold LINE_LIMIT, two64 in *. lia. Qed.

Lemma oldest_val s : 0 <= console_current_line s < LINE_LIMIT →
  oldest_history_line s = Z.max 0 (console_current_line s + 1 - CONSOLE_HISTORY_ROWS).
Proof.
  intros Hl. unfold oldest_history_line. rewrite wrap_line by lia.
  destruct (Z.ltb_spec CONSOLE_HISTORY_ROWS (console_current_line s + 1)); lia.
Qed.
Lemma bottom_val s : active_framebuffer s = Some f → 0 <= console_current_line s < LINE_LIMIT →
  bottom_view_top_line s = Z.max 0 (console_current_line s + 1 - rows).
Proof.
  intros Hfb Hl. unfold bottom_view_top_line. rewrite Hfb, wrap_line by lia.
  rewrite (proj2 (Z.eqb_neq rows 0)) by lia. cbn [orb].
  destruct (Z.leb_spec (console_current_line s + 1) rows); lia.
Qed.
Lemma clamp_val s : active_framebuffer s = Some f → 0 <= console_current_line s < LINE_LIMIT →
  clamp_console_view s =
  with_view (Z.min (bottom_view_top_line s) (Z.max (oldest_history_line s) (console_view_top_line s))) s.
Proof.
  intros Hfb Hl. unfold clamp_console_view. cbv zeta.
  assert (oldest_history_line s <= bottom_view_top_line s) as Hob.
  { rewrite oldest_val, bottom_val by done. lia. }
  destruct (Z.ltb_spec (console_view_top_line s) (oldest_history_line s)).
  - cbn [console_view_top_line with_view]. rewrite (proj2 (Z.ltb_ge _ _)) by lia.
    rewrite Z.max_l, Z.min_r by lia. done.
  - rewrite Z.max_r by lia. destruct (Z.ltb_spec (bottom_view_top_line s) (console_view_top_line s)).
    + by rewrite Z.min_l by lia.
    + rewrite Z.min_r by lia. by destruct s.
Qed.
Lemma clamp_ok s : console_ok s → clamp_console_view s = s.
Proof.
  intros Hs. rewrite clamp_val by apply Hs. pose proof (ok_view _ Hs). rewrite Z.max_r, Z.min_r by lia. by destruct s.
Qed.
Lemma update_ok s : active_framebuffer s = Some f → console_cursor_column s <= columns →
  ∃ x y, update_console_cursor_pixels s = with_pixels x y s.
Proof.
  intros Hfb Hc. unfold update_console_cursor_pixels. rewrite Hfb. cbv zeta.
  rewrite (proj2 (Z.ltb_ge columns (console_cursor_column s))) by lia. rewrite andb_false_r. eauto.
Qed.
Lemma visible_val s line : console_ok s →
  history_line_visible s line =
  if (console_view_top_line s <=? line) && (line <? console_view_top_line s + rows)
  then Some (line - console_view_top_line s) else None.
Proof.
  intros Hs. pose proof (ok_line _ Hs) as Hl. pose proof (ok_view _ Hs) as Hv.
  rewrite oldest_val, bottom_val in Hv by apply Hs.
  unfold history_line_visible. rewrite (ok_fb _ Hs), wrap_line by (unfold CONSOLE_HISTORY_ROWS in *; lia).
  destruct (Z.ltb_spec line (console_view_top_line s)), (Z.leb_spec (console_view_top_line s) line),
    (Z.leb_spec (console_view_top_line s + rows) line), (Z.ltb_spec line (console_view_top_line s + rows)); done || lia.
Qed.

(** *** The history *)
Lemma history_at s l c :
  0 <= c → oldest_history_line s <= l <= console_current_line s → c < CONSOLE_MAX_COLUMNS →
  history_char_at s l c =
  default 32 (default [] (console_history s !! history_slot l) !! Z.to_nat c).
Proof.
  intros Hc Hl Hc'. unfold history_char_at.
  rewrite (proj2 (Z.leb_gt _ c)), (proj2 (Z.ltb_ge l _)), (proj2 (Z.ltb_ge _ l)) by lia. cbn [orb].
  by rewrite !nth_lookup.
Qed.
Lemma history_outside s l c :
  l < oldest_history_line s ∨ console_current_line s < l → history_char_at s l c = 32.
Proof.
  intros Hl. unfold history_char_at. destruct (_ <=? c); [done|].
  destruct (Z.ltb_spec l (oldest_history_line s)); [done|]. destruct (Z.ltb_spec (console_current_line s) l); [done|lia].
Qed.
Lemma slots_differ l l' : Z.abs (l - l') < CONSOLE_HISTORY_ROWS → l ≠ l' → history_slot l ≠ history_slot l'.
Proof. intros Hd Hne E. by apply Hne, (slot_of_inj CONSOLE_HISTORY_ROWS ltac:(done) l l' Hd). Qed.
Lemma slot_bound l : (history_slot l < Z.to_nat CONSOLE_HISTORY_ROWS)%nat.
Proof. apply (slot_of_lt CONSOLE_HISTORY_ROWS ltac:(done)). Qed.

(** A character written on the current line. *)
Definition put_history (column ch : Z) s : console :=
  with_history (alter (λ row, <[Z.to_nat column := ch]> row) (history_slot (console_current_line s))
                  (console_history s)) s.
Lemma put_history_at s column ch l c :
  console_ok s → 0 <= column < CONSOLE_MAX_COLUMNS → 0 <= c < CONSOLE_MAX_COLUMNS →
  history_char_at (put_history column ch s) l c =
  if (l =? console_current_line s) && (c =? column) then ch else history_char_at s l c.
Proof.
  intros Hs Hcol Hc. pose proof (ok_line _ Hs) as Hl. pose proof (oldest_val s Hl) as Eo.
  destruct (decide (oldest_history_line s <= l <= console_current_line s)) as [Hin|Hout].
  2:{ rewrite !history_outside by (try change (console_current_line (put_history column ch s)) with
        (console_current_line s); try change (oldest_history_line (put_history column ch s)) with
        (oldest_history_line s); lia).
      rewrite (proj2 (Z.eqb_neq l _)) by lia. done. }
  rewrite !history_at by (done || lia). unfold put_history. cbn [console_history with_history].
  destruct (Z.eqb_spec l (console_current_line s)) as [->|Hne].
  - destruct (lookup_lt_is_Some_2 (console_history s) (history_slot (console_current_line s))) as [row Hrow].
    { rewrite (ok_history _ Hs). apply slot_bound. }
    rewrite list_lookup_alter_eq, Hrow. simpl. pose proof (Forall_lookup_1 _ _ _ _ (ok_rows _ Hs) Hrow) as Hlen.
    destruct (Z.eqb_spec c column) as [->|Hne].
    + rewrite list_lookup_insert_eq; [done|]. cbv beta in Hlen. rewrite Hlen. lia.
    + by rewrite list_lookup_insert_ne by lia.
  - rewrite list_lookup_alter_ne; [done|]. apply not_eq_sym, slots_differ; [|done]. unfold CONSOLE_HISTORY_ROWS in *. lia.
Qed.

(** A fresh line. *)
Definition fresh_line s : console :=
  clear_history_row (console_current_line s + 1) (with_column 0 (with_line (console_current_line s + 1) s)).
Lemma fresh_line_at s l c :
  console_ok s → console_current_line s + 1 < LINE_LIMIT → 0 <= c < CONSOLE_MAX_COLUMNS →
  oldest_history_line (fresh_line s) <= l →
  history_char_at (fresh_line s) l c = history_char_at s l c.
Proof.
  intros Hs Hlt Hc Hl. pose proof (ok_line _ Hs) as Hls. pose proof (oldest_val s Hls) as Eo.
  pose proof (oldest_val (fresh_line s)) as Eo'. cbn [console_current_line fresh_line clear_history_row with_history
    with_column with_line] in Eo'. specialize (Eo' ltac:(lia)).
  destruct (Z.lt_trichotomy l (console_current_line s + 1)) as [Hlo|[->|Hhi]].
  - rewrite !history_at by (cbn; lia). cbn [console_history fresh_line clear_history_row with_history with_column with_line].
    rewrite list_lookup_insert_ne; [done|]. apply slots_differ; lia.
  - rewrite (history_outside s) by lia. rewrite history_at by (cbn; lia).
    cbn [console_history fresh_line clear_history_row with_history with_column with_line].
    rewrite list_lookup_insert_eq by (rewrite (ok_history _ Hs); apply slot_bound). simpl.
    unfold blank_row. by rewrite lookup_replicate_2 by lia.
  - rewrite !history_outside; [done|lia|cbn; lia].
Qed.

(** *** Drawing *)
Lemma inv_drawn m0 s t op x y :
  console_ok s → keeps_lines s t → confined op → (∀ i, elsewhere i → fb_memory s i = m0 i) →
  shows (op (fb_memory s)) (view_chars s) → console_inv m0 (with_pixels x y (with_memory op s)) t.
Proof.
  intros [] [] Hop Hm Hs. split; [by split|exact Hs| |by split]. intros i Hi. cbn. by rewrite Hop, Hm.
Qed.
Lemma inv_kept m0 s t x y :
  console_ok s → keeps_lines s t → (∀ i, elsewhere i → fb_memory s i = m0 i) →
  shows (fb_memory s) (view_chars s) → console_inv m0 (with_pixels x y s) t.
Proof. intros Hs Ht Hm Hsh. by apply (inv_drawn m0 s t (λ m, m)). Qed.

Lemma render_run s : console_ok s →
  ∃ x y op, render_console s = with_pixels x y (with_memory op s) ∧ confined op ∧
    shows (op (fb_memory s)) (view_chars s).
Proof.
  intros Hs. pose proof (origin_x_bounds Ha) as [Hox Hw]. pose proof (origin_y_bounds Ha) as [Hoy Hh].
  pose proof (fw_width _ (ta_fb Ha)). pose proof (fw_height _ (ta_fb Ha)).
  unfold render_console. rewrite (ok_fb _ Hs), (fw_bpp _ (ta_fb Ha)). change (negb (32 =? 32)) with false.
  unfold console_line_step, console_cell_height, console_cell_width in *.
  rewrite (proj2 (Z.leb_gt (fb_height f) _)), (proj2 (Z.leb_gt (fb_width f) _)) by lia. cbn [orb]. cbv zeta.
  rewrite clamp_ok by done.
  set (fill := fill_rect fb ox oy (fb_width f - ox) (fb_height f - oy) (pack_rgb fb 8 13 18)).
  destruct (update_ok (with_memory (draw_view (with_memory fill s)) (with_memory fill s))) as (x & y & ->);
    [apply Hs..|].
  exists x, y, (λ m, draw_view s (fill m)). split; [done|].
  assert (∀ r, 0 <= r < rows → wrap64 (console_view_top_line s + r) = console_view_top_line s + r) as Hwrap.
  { intros r Hr. pose proof (ok_view _ Hs) as Hv. rewrite oldest_val, bottom_val in Hv by apply Hs.
    pose proof (ok_line _ Hs). apply wrap_line. unfold CONSOLE_HISTORY_ROWS in *. lia. }
  unfold draw_view. rewrite (ok_fb _ Hs). split.
  - apply (confined_seq fill); [apply confined_fill; [done|lia..|unfold two32, two64 in *; lia|unfold two32, two64 in *; lia]|].
    apply confined_for. intros r Hr. apply confined_for. intros c Hc.
    destruct (_ =? 32); [done|]. eapply paints_confined, paints_at; done.
  - eapply shows_ext; [|apply shows_draw; [done|]].
    + intros r c Hr Hc. unfold view_chars. cbv beta. by rewrite Hwrap.
    + apply shows_fill; [done|lia..].
Qed.

Lemma fresh_ok m0 s t v :
  console_inv m0 s t → console_current_line s + 1 < LINE_LIMIT →
  oldest_history_line (fresh_line s) <= v <= bottom_view_top_line (fresh_line s) →
  console_ok (with_view v (fresh_line s)) ∧ keeps_lines (with_view v (fresh_line s)) (t_newline t).
Proof.
  intros [Hs _ _ Ht] Hlt Hv. pose proof (ok_line _ Hs) as Hl. split.
  - split; [apply Hs|apply Hs| | | |cbn; lia|exact Hv].
    + cbn. rewrite length_insert. apply Hs.
    + cbn. apply Forall_insert; [apply Hs|]. apply length_replicate.
    + cbn. lia.
  - split; [cbn; by rewrite (kl_line _ _ Ht)|done| |].
    + intros l c Hl' Hc. change (history_char_at (with_view v (fresh_line s)) l c) with
        (history_char_at (fresh_line s) l c). change (oldest_history_line (with_view v (fresh_line s))) with
        (oldest_history_line (fresh_line s)) in Hl'. rewrite fresh_line_at by (done || lia).
      destruct (Z.le_gt_cases l (console_current_line s)).
      * apply (kl_cells _ _ Ht); [|done]. rewrite oldest_val in Hl' |- * by (cbn; lia). cbn in Hl'. lia.
      * rewrite history_outside by lia. symmetry. apply (kl_fresh _ _ Ht). lia.
    + intros l c Hl'. apply (kl_fresh _ _ Ht). cbn in Hl'. lia.
Qed.

Lemma follow_spec s : console_ok s →
  view_is_at_bottom s = true ↔ console_view_top_line s = bottom_view_top_line s.
Proof. intros Hs. unfold view_is_at_bottom. rewrite Z.leb_le. pose proof (ok_view _ Hs). lia. Qed.

(** The pixels after a fresh line, when the view follows, and when it stays. *)
Lemma fresh_scrolled s :
  console_ok s → console_current_line s + 1 < LINE_LIMIT →
  bottom_view_top_line (fresh_line s) = console_view_top_line s + 1 →
  shows (fb_memory s) (view_chars s) →
  shows (scroll_console_pixels_up fb (fb_memory s))
    (view_chars (with_view (console_view_top_line s + 1) (fresh_line s))).
Proof.
  intros Hs Hlt Hb Hsh. pose proof (ok_line _ Hs) as Hl. pose proof (ok_view _ Hs) as Hv.
  assert (0 <= console_view_top_line s) as Hv0 by (rewrite oldest_val in Hv by done; lia).
  assert (console_view_top_line s + 1 = console_current_line s + 2 - rows) as Hbv.
  { rewrite (bottom_val (fresh_line s) (ok_fb _ Hs) ltac:(cbn; lia)) in Hb. cbn in Hb. lia. }
  eapply shows_ext; [|apply (shows_scroll Ha), Hsh]. intros r c Hr Hc. unfold view_chars.
  cbn [console_view_top_line with_view].
  change (history_char_at (with_view _ (fresh_line s))) with (history_char_at (fresh_line s)).
  rewrite fresh_line_at; [|done|done|unfold CONSOLE_MAX_COLUMNS in *; lia|].
  2:{ rewrite oldest_val by (cbn; lia). cbn. unfold CONSOLE_HISTORY_ROWS in *. lia. }
  destruct (Z.eqb_spec r (rows - 1)) as [->|].
  - symmetry. apply history_outside. lia.
  - f_equal. lia.
Qed.
Lemma fresh_unmoved s :
  console_ok s → console_current_line s + 1 < LINE_LIMIT →
  oldest_history_line (fresh_line s) <= console_view_top_line s →
  shows (fb_memory s) (view_chars s) →
  shows (fb_memory s) (view_chars (with_view (console_view_top_line s) (fresh_line s))).
Proof.
  intros Hs Hlt Hv Hsh. eapply shows_ext; [|exact Hsh]. intros r c Hr Hc. unfold view_chars.
  cbn [console_view_top_line with_view].
  change (history_char_at (with_view _ (fresh_line s))) with (history_char_at (fresh_line s)).
  rewrite fresh_line_at; [done|done|done|unfold CONSOLE_MAX_COLUMNS in *; lia|lia].
Qed.

(** A line break. *)
Lemma newline_inv m0 s t :
  console_inv m0 s t → console_current_line s + 1 < LINE_LIMIT →
  console_inv m0 (console_newline s) (t_newline t) ∧
  (view_is_at_bottom s = true → view_is_at_bottom (console_newline s) = true).
Proof.
  intros Hi Hlt. pose proof Hi as [Hs Hsh Hm Ht]. pose proof (ok_line _ Hs) as Hl. pose proof (ok_view _ Hs) as Hv.
  pose proof (bottom_val s (ok_fb _ Hs) Hl) as Eb. pose proof (oldest_val s Hl) as Eo.
  pose proof (bottom_val (fresh_line s) (ok_fb _ Hs) ltac:(cbn; lia)) as Eb'.
  pose proof (oldest_val (fresh_line s) ltac:(cbn; lia)) as Eo'. cbn in Eb', Eo'.
  pose proof (follow_spec s Hs) as Hfol.
  unfold console_newline. cbv zeta. rewrite !wrap_line by (unfold LINE_LIMIT in *; lia).
  change (clear_history_row _ _) with (fresh_line s).
  set (v := if view_is_at_bottom s then bottom_view_top_line (fresh_line s) else console_view_top_line s).
  assert ((if view_is_at_bottom s then with_view (bottom_view_top_line (fresh_line s)) (fresh_line s)
           else fresh_line s) = with_view v (fresh_line s)) as -> by (unfold v; by destruct (view_is_at_bottom s)).
  rewrite (clamp_val (with_view v (fresh_line s)) (ok_fb _ Hs) ltac:(cbn; lia)).
  set (w := Z.min _ _).
  assert (w = Z.max (oldest_history_line (fresh_line s)) v) as Ew.
  { unfold w. change (bottom_view_top_line (with_view v (fresh_line s))) with (bottom_view_top_line (fresh_line s)).
    change (oldest_history_line (with_view v (fresh_line s))) with (oldest_history_line (fresh_line s)).
    change (console_view_top_line (with_view v (fresh_line s))) with v. unfold v.
    destruct (view_is_at_bottom s); lia. }
  change (with_view w (with_view v (fresh_line s))) with (with_view w (fresh_line s)). clearbody w.
  assert (oldest_history_line (fresh_line s) <= w <= bottom_view_top_line (fresh_line s)) as Hw.
  { rewrite Ew. unfold v. destruct (view_is_at_bottom s); lia. }
  destruct (fresh_ok m0 s t w Hi Hlt Hw) as [Hs' Ht']. change (console_view_top_line (with_view w _)) with w.
  assert (∀ s', console_view_top_line s' = w → console_current_line s' = console_current_line s + 1 →
    active_framebuffer s' = Some f → view_is_at_bottom s = true → view_is_at_bottom s' = true) as Hbot.
  { intros s' E1 E2 E3 Hf'. unfold view_is_at_bottom. apply Z.leb_le. rewrite bottom_val, E1, E2 by (done || lia).
    rewrite Ew. unfold v. rewrite Hf'. lia. }
  destruct (view_is_at_bottom s) eqn:Ef; cbn [andb].
  - pose proof (proj1 Hfol eq_refl) as Hfv. destruct (Z.eqb_spec w (console_view_top_line s + 1)) as [Ew1|Hne].
    + destruct (update_ok (with_memory (scroll_console_pixels_up (active_framebuffer (with_view w (fresh_line s))))
        (with_view w (fresh_line s)))) as (x & y & ->); [apply Hs'..|].
      split; [|by apply Hbot, Hs'; rewrite ?(ok_fb _ Hs')]. apply inv_drawn; [done|done| |done|].
      * rewrite (ok_fb _ Hs'). by apply confined_scroll.
      * rewrite (ok_fb _ Hs'). cbn [fb_memory with_view fresh_line clear_history_row with_history with_column with_line].
        rewrite Ew1. apply fresh_scrolled; [done|done|lia|done].
    + assert (w = console_view_top_line s) as Ew0 by lia. rewrite (proj2 (Z.eqb_eq w _) Ew0). cbn [negb].
      destruct (update_ok (with_view w (fresh_line s))) as (x & y & ->); [apply Hs'..|].
      split; [|by apply Hbot, Hs'; rewrite ?(ok_fb _ Hs')]. apply inv_kept; [done|done|done|]. rewrite Ew0.
      exact (fresh_unmoved s Hs Hlt ltac:(lia) Hsh).
  - split; [|done]. destruct (Z.eqb_spec w (console_view_top_line s)) as [Ew0|Hne]; cbn [negb].
    + destruct (update_ok (with_view w (fresh_line s))) as (x & y & ->); [apply Hs'..|].
      apply inv_kept; [done|done|done|]. rewrite Ew0. exact (fresh_unmoved s Hs Hlt ltac:(lia) Hsh).
    + destruct (render_run _ Hs') as (x & y & op & -> & Hop & Hsh'). by apply inv_drawn.
Qed.

Lemma column_inv m0 s t c :
  console_inv m0 s t → 0 <= c <= columns → console_inv m0 (with_column c s) (mk_terminal (t_cells t) (t_line t) c).
Proof. intros [[] ? ? []] Hc. split; by try split. Qed.
Lemma update_inv m0 s t : console_inv m0 s t → console_inv m0 (update_console_cursor_pixels s) t.
Proof.
  intros [Hs Hsh Hm Ht]. destruct (update_ok s) as (x & y & ->); [apply Hs..|]. by apply inv_kept.
Qed.

(** A character written on the current line and drawn. *)
Lemma write_inv m0 s t column ch :
  console_inv m0 s t → 0 <= column < columns →
  console_inv m0 (draw_history_cell (console_current_line s) column (put_history column ch s))
    (mk_terminal (t_set column ch t) (t_line t) (t_column t)).
Proof.
  intros [Hs Hsh Hm Ht] Hc. set (s1 := put_history column ch s).
  assert (console_ok s1) as Hs1.
  { destruct Hs. split; try done; cbn; [by rewrite length_alter|].
    apply Forall_alter; [done|]. intros row _ Hrow. by rewrite length_insert. }
  assert (keeps_lines s1 (mk_terminal (t_set column ch t) (t_line t) (t_column t))) as Ht1.
  { split; [apply Ht|apply Ht| |].
    - intros l c Hl Hc'. unfold s1. rewrite put_history_at by (done || lia). cbn. unfold t_set.
      rewrite (kl_line _ _ Ht). destruct (_ && _); [done|]. by apply (kl_cells _ _ Ht).
    - intros l c Hl. cbn. unfold t_set. rewrite <-(kl_line _ _ Ht). change (console_current_line s1) with
        (console_current_line s) in Hl. rewrite (proj2 (Z.eqb_neq l _)) by lia. apply (kl_fresh _ _ Ht). lia. }
  assert (∀ r c, 0 <= r < rows → 0 <= c < columns → view_chars s1 r c =
    if (console_view_top_line s + r =? console_current_line s) && (c =? column) then ch else view_chars s r c) as Hv.
  { intros r c Hr Hc'. unfold view_chars, s1. rewrite put_history_at by (done || lia). done. }
  unfold draw_history_cell. rewrite visible_val by done. rewrite (ok_fb _ Hs1).
  change (console_view_top_line s1) with (console_view_top_line s).
  destruct (Z.leb_spec (console_view_top_line s) (console_current_line s)); cbn [andb].
  2:{ split; [done| |done|done]. eapply shows_ext; [|exact Hsh]. intros r c Hr Hc'. rewrite Hv by done.
      by rewrite (proj2 (Z.eqb_neq _ (console_current_line s))) by lia. }
  destruct (Z.ltb_spec (console_current_line s) (console_view_top_line s + rows)); cbn [andb].
  2:{ split; [done| |done|done]. eapply shows_ext; [|exact Hsh]. intros r c Hr Hc'. rewrite Hv by done.
      by rewrite (proj2 (Z.eqb_neq _ (console_current_line s))) by lia. }
  rewrite (proj2 (Z.leb_gt columns column)) by lia. cbv zeta.
  assert (history_char_at s1 (console_current_line s) column = ch) as ->.
  { unfold s1. rewrite put_history_at by (done || lia). by rewrite !Z.eqb_refl. }
  set (r := console_current_line s - console_view_top_line s).
  destruct (paints_at Ha ch r column ltac:(lia) ltac:(lia)) as [Hspace Hchar].
  assert (∀ op, paints f op (cell_picture fb ch (ox + column * console_cell_width) (oy + r * console_line_step)) →
    console_inv m0 (with_memory op s1) (mk_terminal (t_set column ch t) (t_line t) (t_column t))) as Hop.
  { intros op Hop. split; [by destruct Hs1; split| | |by destruct Ht1; split].
    - eapply shows_ext; [|apply (shows_cell Ha op ch r column); [lia|lia|done|exact Hsh]].
      intros r' c Hr' Hc'. cbv beta. change (view_chars (with_memory op s1)) with (view_chars s1). rewrite Hv by done.
      destruct (Z.eqb_spec (console_view_top_line s + r') (console_current_line s)), (Z.eqb_spec r' r); done || lia.
    - intros i Hi. cbn. rewrite (paints_confined Ha _ _ Hop) by done. by apply Hm. }
  destruct (Z.eqb_spec ch 32) as [->|]; by apply Hop.
Qed.

(** An ordinary character. *)
Lemma put_plain_inv m0 s t ch :
  console_inv m0 s t → console_current_line s + 1 < LINE_LIMIT →
  ∃ s', put_plain ch s = (Ok tt, s') ∧ console_inv m0 s' (t_put ch t) ∧
    (view_is_at_bottom s = true → view_is_at_bottom s' = true).
Proof.
  intros Hi Hlt. pose proof (ci_ok _ _ _ Hi) as Hs. unfold put_plain. rewrite bind_gets, (ok_fb _ Hs).
  rewrite bind_guard by (apply Z.eqb_neq; lia). rewrite bind_modify.
  set (s1 := if columns <=? console_cursor_column s then console_newline s else s).
  set (t1 := if columns <=? t_column t then t_newline t else t).
  assert (console_inv m0 s1 t1 ∧ (view_is_at_bottom s = true → view_is_at_bottom s1 = true) ∧
    console_cursor_column s1 < columns) as (Hi1 & Hb1 & Hc1).
  { unfold s1, t1. rewrite (kl_column _ _ (ci_keeps _ _ _ Hi)).
    destruct (Z.leb_spec columns (t_column t)) as [Hc|Hc].
    - destruct (newline_inv m0 s t Hi Hlt) as [Hn Hb]. split; [done|]. split; [done|].
      rewrite (kl_column _ _ (ci_keeps _ _ _ Hn)). cbn. lia.
    - split; [done|]. split; [done|]. rewrite (kl_column _ _ (ci_keeps _ _ _ Hi)). lia. }
  clearbody s1. pose proof (ci_ok _ _ _ Hi1) as Hs1. pose proof (ok_column _ Hs1).
  rewrite !bind_gets. unfold history_put. rewrite (proj2 (Z.leb_gt CONSOLE_MAX_COLUMNS _)) by lia.
  rewrite !bind_modify. change (with_history _ s1) with (put_history (console_cursor_column s1) ch s1).
  set (s2 := put_history (console_cursor_column s1) ch s1).
  assert ((if view_is_at_bottom s1 then with_view (bottom_view_top_line s2) s2 else s2) = s2) as ->.
  { destruct (view_is_at_bottom s1) eqn:Hb; [|done]. apply (follow_spec s1 Hs1) in Hb.
    change (bottom_view_top_line s2) with (bottom_view_top_line s1). rewrite <-Hb. by destruct s1. }
  assert (clamp_console_view s2 = s2) as ->.
  { rewrite clamp_val by apply Hs1. change (bottom_view_top_line s2) with (bottom_view_top_line s1).
    change (oldest_history_line s2) with (oldest_history_line s1).
    change (console_view_top_line s2) with (console_view_top_line s1). pose proof (ok_view _ Hs1).
    rewrite Z.max_r, Z.min_r by lia. by destruct s1. }
  change (console_view_top_line s2) with (console_view_top_line s1). rewrite Z.eqb_refl. cbn [negb].
  pose proof (write_inv m0 s1 t1 (console_cursor_column s1) ch Hi1 ltac:(lia)) as Hi2. fold s2 in Hi2.
  set (s3 := draw_history_cell (console_current_line s1) (console_cursor_column s1) s2) in *.
  pose proof (kl_column _ _ (ci_keeps _ _ _ Hi2)) as Hc3. cbn in Hc3.
  pose proof (kl_column _ _ (ci_keeps _ _ _ Hi1)) as Hct.
  pose proof (update_inv _ _ _ (column_inv m0 s3 _ (console_cursor_column s3 + 1) Hi2 ltac:(lia))) as Hi3.
  eexists. split; [reflexivity|]. split.
  - unfold t_put. fold t1. rewrite <-Hct. rewrite <-Hct in Hc3. rewrite Hc3 in Hi3 |- *. exact Hi3.
  - intros Hb%Hb1. apply (follow_spec _ (ci_ok _ _ _ Hi3)). apply (follow_spec _ Hs1) in Hb.
    destruct (update_ok (with_column (console_cursor_column s3 + 1) s3)) as (x & y & ->);
      [apply (ci_ok _ _ _ Hi2)|cbn; lia|].
    assert (console_view_top_line s3 = console_view_top_line s1 ∧ bottom_view_top_line s3 = bottom_view_top_line s1)
      as [E1 E2].
    { unfold s3, draw_history_cell. by repeat case_match. }
    exact (eq_trans E1 (eq_trans Hb (eq_sym E2))).
Qed.

Lemma backspace_inv m0 s t :
  console_inv m0 s t →
  ∃ s', console_backspace s = (Ok tt, s') ∧ console_inv m0 s' (t_backspace t) ∧
    (view_is_at_bottom s = true → view_is_at_bottom s' = true).
Proof.
  intros Hi. pose proof (ci_ok _ _ _ Hi) as Hs. pose proof (ok_column _ Hs) as Hc.
  unfold console_backspace, t_backspace. rewrite bind_gets, <-(kl_column _ _ (ci_keeps _ _ _ Hi)).
  destruct (Z.eqb_spec (console_cursor_column s) 0); [by exists s|].
  set (c := console_cursor_column s - 1). rewrite bind_modify, bind_gets. unfold history_put.
  rewrite (proj2 (Z.leb_gt CONSOLE_MAX_COLUMNS c)) by lia. rewrite !bind_modify.
  pose proof (column_inv m0 s t c Hi ltac:(lia)) as Hi1.
  pose proof (update_inv _ _ _ (write_inv m0 _ _ c 32 Hi1 ltac:(lia))) as Hi2.
  eexists. split; [reflexivity|]. split; [exact Hi2|]. intros Hb%(follow_spec _ Hs).
  apply (follow_spec _ (ci_ok _ _ _ Hi2)).
  set (s3 := draw_history_cell _ _ _) in *.
  destruct (update_ok s3) as (x & y & ->).
  { unfold s3, draw_history_cell. repeat case_match; apply Hs. }
  { unfold s3, draw_history_cell. repeat case_match; cbn; lia. }
  assert (console_view_top_line s3 = console_view_top_line s ∧ bottom_view_top_line s3 = bottom_view_top_line s)
    as [E1 E2].
  { unfold s3, draw_history_cell. by repeat case_match. }
  exact (eq_trans E1 (eq_trans Hb (eq_sym E2))).
Qed.

Lemma supported_ok s : console_ok s → supported (active_framebuffer s) = true.
Proof. intros Hs. rewrite (ok_fb _ Hs). cbn. by rewrite (fw_bpp _ (ta_fb Ha)). Qed.
Lemma ensure_ok s : console_ok s → ensure_console_cursor s = s.
Proof. intros Hs. unfold ensure_console_cursor. by rewrite (ok_ready _ Hs). Qed.

(** Any character but a tab. *)
Lemma put_char_inv m0 s t ch :
  console_inv m0 s t → console_current_line s + 1 < LINE_LIMIT → ch ≠ 9 →
  ∃ s', put_char ch s = (Ok tt, s') ∧ console_inv m0 s' (t_char ch t) ∧
    (view_is_at_bottom s = true → view_is_at_bottom s' = true).
Proof.
  intros Hi Hlt Hch. pose proof (ci_ok _ _ _ Hi) as Hs. unfold put_char, t_char.
  rewrite bind_gets, bind_guard by (by rewrite supported_ok). rewrite bind_modify, ensure_ok by done.
  rewrite (proj2 (Z.eqb_neq ch 9)) by done.
  destruct (ch =? 10); [destruct (newline_inv m0 s t Hi Hlt); by eexists|].
  destruct (ch =? 13).
  { eexists. split; [reflexivity|]. pose proof (update_inv _ _ _ (column_inv m0 s t 0 Hi ltac:(lia))) as Hi'.
    split; [exact Hi'|]. intros Hb%(follow_spec _ Hs). apply (follow_spec _ (ci_ok _ _ _ Hi')).
    unfold console_carriage_return. destruct (update_ok (with_column 0 s)) as (x & y & ->); [apply Hs|cbn; lia|].
    exact Hb. }
  destruct (ch =? 8); [by apply backspace_inv|by apply put_plain_inv].
Qed.

(** *** Tabs *)
Lemma t_put_column ch t : t_column (t_put ch t) = if columns <=? t_column t then 1 else t_column t + 1.
Proof. unfold t_put. cbn. by destruct (columns <=? t_column t). Qed.
Lemma t_put_line ch t : t_line t <= t_line (t_put ch t) <= t_line t + 1.
Proof. unfold t_put. cbn. destruct (columns <=? t_column t); cbn; lia. Qed.
Lemma tab_width_step c :
  4 <= columns → 0 <= c <= columns →
  let c' := if columns <=? c then 1 else c + 1 in
  if c' mod 4 =? 0 then tab_width c = 1%nat else tab_width c = S (tab_width c').
Proof.
  intros H4 Hc. cbv zeta. unfold tab_width.
  destruct (Z.leb_spec columns c).
  - change (1 mod 4 =? 0) with false. cbv iota. rewrite (proj2 (Z.leb_gt columns 1)) by lia.
    change (4 * (1 / 4) + 4) with 4. by rewrite (proj2 (Z.leb_le 4 columns)) by lia.
  - destruct (Z.eqb_spec ((c + 1) mod 4) 0); destruct (Z.leb_spec (4 * (c / 4) + 4) columns);
      destruct (Z.leb_spec columns (c + 1)); destruct (Z.leb_spec (4 * ((c + 1) / 4) + 4) columns);
      Z.to_euclidean_division_equations; lia.
Qed.
Lemma tab_width_bound c : 4 <= columns → 0 <= c <= columns → (tab_width c ≤ TAB_ROUNDS)%nat.
Proof.
  intros H4 Hc. unfold tab_width, TAB_ROUNDS. destruct (Z.leb_spec columns c); [lia|].
  destruct (Z.leb_spec (4 * (c / 4) + 4) columns); Z.to_euclidean_division_equations; lia.
Qed.

Lemma tab_loop_inv m0 n : ∀ s t,
  4 <= columns → console_inv m0 s t → (tab_width (t_column t) ≤ n)%nat →
  console_current_line s + Z.of_nat n < LINE_LIMIT →
  ∃ s', tab_loop n s = (Ok tt, s') ∧ console_inv m0 s' (Nat.iter (tab_width (t_column t)) (t_put 32) t) ∧
    (view_is_at_bottom s = true → view_is_at_bottom s' = true).
Proof.
  induction n as [|n IH]; intros s t H4 Hi Hw Hlt; pose proof (ok_column _ (ci_ok _ _ _ Hi)) as Hc;
    rewrite (kl_column _ _ (ci_keeps _ _ _ Hi)) in Hc; pose proof (tab_width_step (t_column t) H4 Hc) as Hstep;
    cbv zeta in Hstep; rewrite <-(t_put_column 32) in Hstep.
  { destruct (_ =? 0); lia. }
  cbn [tab_loop]. destruct (put_char_inv m0 s t 32 Hi ltac:(lia) ltac:(done)) as (s1 & E & Hi1 & Hb1).
  change (t_char 32 t) with (t_put 32 t) in Hi1. rewrite (bind_Ok _ _ _ _ _ E), bind_gets.
  rewrite (kl_column _ _ (ci_keeps _ _ _ Hi1)). destruct (_ =? 0).
  { exists s1. by rewrite Hstep. }
  rewrite Hstep in Hw |- *. rewrite Nat.iter_succ_r.
  destruct (IH s1 (t_put 32 t) H4 Hi1) as (s2 & E2 & Hi2 & Hb2); [lia| |].
  { rewrite (kl_line _ _ (ci_keeps _ _ _ Hi1)). pose proof (t_put_line 32 t).
    rewrite (kl_line _ _ (ci_keeps _ _ _ Hi)) in Hlt. lia. }
  exists s2. auto.
Qed.

Lemma putchar_inv m0 s t ch :
  console_inv m0 s t → 4 <= columns → console_current_line s + 8 < LINE_LIMIT →
  ∃ s', scdk_fb_text_putchar ch s = (Ok tt, s') ∧ console_inv m0 s' (t_char ch t) ∧
    (view_is_at_bottom s = true → view_is_at_bottom s' = true).
Proof.
  intros Hi H4 Hlt. pose proof (ci_ok _ _ _ Hi) as Hs. unfold scdk_fb_text_putchar.
  destruct (Z.eqb_spec ch 9) as [->|]; [|apply put_char_inv; [done|lia|done]].
  rewrite bind_gets, bind_guard by (by rewrite supported_ok). rewrite bind_modify, ensure_ok by done.
  apply tab_loop_inv; [done|done| |unfold TAB_ROUNDS; lia].
  apply tab_width_bound; [done|]. rewrite <-(kl_column _ _ (ci_keeps _ _ _ Hi)). apply Hs.
Qed.

Lemma t_char_line ch t : t_line (t_char ch t) <= t_line t + 7.
Proof.
  unfold t_char. repeat case_match; try (cbn; lia).
  - assert (∀ n, t_line (Nat.iter n (t_put 32) t) <= t_line t + Z.of_nat n) as Hn.
    { induction n as [|n IH]; [cbn; lia|]. rewrite Nat.iter_succ. pose proof (t_put_line 32 (Nat.iter n (t_put 32) t)). lia. }
    specialize (Hn (tab_width (t_column t))). enough (tab_width (t_column t) ≤ 7)%nat by lia.
    unfold tab_width. destruct (Z.leb_spec columns (t_column t)); [lia|].
    destruct (Z.leb_spec (4 * (t_column t / 4) + 4) columns); Z.to_euclidean_division_equations; lia.
  - unfold t_backspace. case_match; cbn; lia.
  - pose proof (t_put_line ch t). lia.
Qed.

(** A whole text. *)
Lemma put_chars_inv m0 buf n : ∀ i s t,
  console_inv m0 s t → 4 <= columns → (i + n ≤ length buf)%nat →
  console_current_line s + 8 * Z.of_nat n < LINE_LIMIT →
  ∃ s', put_chars buf i n s = (Ok tt, s') ∧ console_inv m0 s' (t_text (take n (drop i buf)) t) ∧
    (view_is_at_bottom s = true → view_is_at_bottom s' = true).
Proof.
  induction n as [|n IH]; intros i s t Hi H4 Hn Hlt; [by exists s|]. cbn [put_chars].
  destruct (lookup_lt_is_Some_2 buf i ltac:(lia)) as [ch Hch].
  rewrite (bind_Ok (lift (load8 buf i)) _ s ch s) by (unfold lift; by rewrite (load8_Ok _ _ _ Hch)).
  destruct (putchar_inv m0 s t ch Hi H4 ltac:(lia)) as (s1 & E & Hi1 & Hb1). rewrite (bind_Ok _ _ _ _ _ E).
  destruct (IH (S i) s1 (t_char ch t) Hi1 H4) as (s2 & E2 & Hi2 & Hb2); [lia| |].
  { rewrite (kl_line _ _ (ci_keeps _ _ _ Hi1)). pose proof (t_char_line ch t).
    rewrite (kl_line _ _ (ci_keeps _ _ _ Hi)) in Hlt. lia. }
  exists s2. split; [done|]. split; [|auto]. rewrite (drop_S _ _ _ Hch). exact Hi2.
Qed.

(** *** Clearing and scrolling *)
Lemma clear_history_spec s :
  length (console_history s) = Z.to_nat CONSOLE_HISTORY_ROWS →
  clear_history s = with_history (replicate (Z.to_nat CONSOLE_HISTORY_ROWS) blank_row) s.
Proof.
  intros Hlen. unfold clear_history.
  assert (∃ h, for_upto CONSOLE_HISTORY_ROWS clear_history_row s = with_history h s ∧
    length h = Z.to_nat CONSOLE_HISTORY_ROWS ∧
    ∀ i, (i < Z.to_nat CONSOLE_HISTORY_ROWS)%nat → h !! i = Some blank_row) as (h & -> & Hl & Hh).
  { apply (for_upto_ind (λ n s', ∃ h, s' = with_history h s ∧ length h = Z.to_nat CONSOLE_HISTORY_ROWS ∧
      ∀ i, (i < Z.to_nat n)%nat → h !! i = Some blank_row)); [done| |].
    - exists (console_history s). split; [by destruct s|]. split; [done|]. intros i Hi. lia.
    - intros k s' Hk (h & -> & Hl & Hh). exists (<[history_slot k := blank_row]> h). split; [done|].
      split; [by rewrite length_insert|]. intros i Hi. unfold history_slot. rewrite Z.mod_small by done.
      destruct (decide (i = Z.to_nat k)) as [->|].
      + apply list_lookup_insert_eq. unfold CONSOLE_HISTORY_ROWS in *. lia.
      + rewrite list_lookup_insert_ne by done. apply Hh. lia. }
  f_equal. apply list_eq. intros i. destruct (decide (i < Z.to_nat CONSOLE_HISTORY_ROWS)%nat) as [Hi|Hi].
  - rewrite Hh by done. by rewrite lookup_replicate_2.
  - rewrite !lookup_ge_None_2; [done|rewrite length_replicate; lia|lia].
Qed.

Lemma clear_inv s :
  active_framebuffer s = Some f → length (console_history s) = Z.to_nat CONSOLE_HISTORY_ROWS →
  ∃ s', scdk_fb_text_clear s = (Ok tt, s') ∧ console_inv (fb_memory s) s' t_start ∧
    view_is_at_bottom s' = true.
Proof.
  intros Hfb Hlen. pose proof (fw_width _ (ta_fb Ha)). pose proof (fw_height _ (ta_fb Ha)).
  unfold scdk_fb_text_clear. rewrite bind_gets, Hfb.
  rewrite bind_guard by (cbn; by rewrite (fw_bpp _ (ta_fb Ha))).
  rewrite (bind_Ok (lift (deref (Some f))) _ s f s) by done. rewrite !bind_modify.
  rewrite clear_history_spec by done.
  set (fill := fill_rect fb 0 0 (fb_width f) (fb_height f) (pack_rgb fb 8 13 18)).
  set (s1 := with_ready true (with_view 0 (with_line 0 (with_column 0
    (with_history (replicate (Z.to_nat CONSOLE_HISTORY_ROWS) blank_row) (with_memory fill s)))))).
  assert (console_ok s1) as Hs1.
  { split; [done|done|apply length_replicate| |cbn; lia|cbn; unfold LINE_LIMIT; lia|].
    - apply Forall_replicate. apply length_replicate.
    - rewrite oldest_val, bottom_val by (done || cbn; unfold LINE_LIMIT; lia). cbn. unfold CONSOLE_HISTORY_ROWS in *. lia. }
  assert (∀ l c, 0 <= c < CONSOLE_MAX_COLUMNS → history_char_at s1 l c = 32) as Hblank.
  { intros l c Hc. destruct (decide (oldest_history_line s1 <= l <= console_current_line s1)) as [Hl|Hl].
    - rewrite history_at by (done || lia). cbn [console_history s1 with_ready with_view with_line with_column with_history].
      rewrite lookup_replicate_2 by apply slot_bound. change (default [] (Some blank_row)) with blank_row.
      unfold blank_row. by rewrite lookup_replicate_2 by lia.
    - apply history_outside. lia. }
  assert (console_inv (fb_memory s) s1 t_start) as Hi.
  { split; [done| | |].
    - pose proof (shows_fill Ha 0 0 (fb_memory s)) as Hfill. rewrite !Z.sub_0_r in Hfill.
      pose proof (origin_x_bounds Ha). pose proof (origin_y_bounds Ha).
      eapply shows_ext; [|apply Hfill; lia].
      intros r c Hr Hc. unfold view_chars. rewrite Hblank by lia. done.
    - intros i Hi. cbn. unfold fill. apply (confined_fill Ha); [done|done|unfold two32, two64 in *; lia..|done].
    - split; [done|done| |done]. intros l c Hl Hc. by apply Hblank. }
  eexists. split; [reflexivity|]. split; [by apply update_inv|].
  change (home_cursor _) with (update_console_cursor_pixels s1). destruct (update_ok s1) as (x & y & ->); [apply Hs1..|]. unfold view_is_at_bottom. apply Z.leb_le.
  rewrite bottom_val by (done || cbn; unfold LINE_LIMIT; lia). cbn. lia.
Qed.

Lemma scroll_inv m0 s t lines :
  console_inv m0 s t → - 2 ^ 31 <= lines < 2 ^ 31 →
  ∃ s', scdk_fb_text_scroll lines s = (Ok tt, s') ∧ console_inv m0 s' t ∧
    console_view_top_line s' =
      Z.min (bottom_view_top_line s) (Z.max (oldest_history_line s) (console_view_top_line s + lines)).
Proof.
  intros Hi Hlines. pose proof Hi as [Hs Hsh Hm Ht]. pose proof (ok_view _ Hs) as Hv. pose proof (ok_line _ Hs) as Hl.
  assert (0 <= oldest_history_line s ∧ bottom_view_top_line s < LINE_LIMIT) as [Ho Hb].
  { rewrite oldest_val, bottom_val by apply Hs. lia. }
  unfold scdk_fb_text_scroll. rewrite bind_gets, bind_guard by (by rewrite supported_ok).
  rewrite bind_modify, ensure_ok by done. destruct (Z.eqb_spec lines 0) as [->|Hne].
  { exists s. split; [done|]. split; [done|]. lia. }
  rewrite bind_gets. cbv zeta. rewrite !wrap_line by (unfold LINE_LIMIT in *; lia).
  set (v := Z.min _ (Z.max _ _)).
  assert (∀ u, (u = oldest_history_line s ∨ u = bottom_view_top_line s ∨ u = console_view_top_line s + lines) →
    Z.min (bottom_view_top_line s) (Z.max (oldest_history_line s) u) = v →
    ∃ s', (modify (with_view u) ;; modify clamp_console_view ;;
      modify (λ s0, if negb (console_view_top_line s0 =? console_view_top_line s) then render_console s0 else s0)) s =
      (Ok tt, s') ∧ console_inv m0 s' t ∧ console_view_top_line s' = v) as Hgo.
  { intros u _ Eu. rewrite !bind_modify. rewrite clamp_val by apply Hs.
    change (with_view _ (with_view u s)) with
      (with_view (Z.min (bottom_view_top_line s) (Z.max (oldest_history_line s) u)) s). rewrite Eu.
    cbn [console_view_top_line with_view].
    assert (console_ok (with_view v s)) as Hs'.
    { destruct Hs. split; try done. cbn [console_view_top_line with_view].
      change (oldest_history_line (with_view v s)) with (oldest_history_line s).
      change (bottom_view_top_line (with_view v s)) with (bottom_view_top_line s). lia. }
    assert (keeps_lines (with_view v s) t) as Ht' by (by destruct Ht; split).
    unfold modify. cbn [console_view_top_line with_view]. destruct (Z.eqb_spec v (console_view_top_line s)) as [Ev|]; cbn [negb].
    - eexists. split; [reflexivity|]. split; [|done]. rewrite Ev.
      clear -Hi. by destruct s.
    - destruct (render_run _ Hs') as (x & y & op & E & Hop & Hsh'). eexists. split; [reflexivity|]. rewrite E.
      split; [by apply inv_drawn|done]. }
  destruct (Z.ltb_spec lines 0).
  - destruct (Z.ltb_spec (console_view_top_line s - oldest_history_line s) (- lines)); apply Hgo;
      [by left|lia|right; right; lia|lia].
  - destruct (Z.ltb_spec (bottom_view_top_line s - console_view_top_line s) lines).
    + apply Hgo; [auto|lia].
    + rewrite wrap_line by (unfold LINE_LIMIT in *; lia). apply Hgo; [auto|lia].
Qed.

(** *** Sequences of operations *)
Inductive console_op :=
  | Put (ch : Z)
  | Scroll (lines : Z)
  | Info.
Definition op_typed (o : console_op) : Prop :=
  match o with Scroll lines => - 2 ^ 31 <= lines < 2 ^ 31 | _ => True end.
Definition run_op (o : console_op) : M console unit :=
  match o with
  | Put ch => scdk_fb_text_putchar ch
  | Scroll lines => scdk_fb_text_scroll lines
  | Info => scdk_fb_text_get_info ;; ret tt
  end.
Fixpoint run_ops (os : list console_op) : M console unit :=
  match os with [] => ret tt | o :: os => run_op o ;; run_ops os end.

Lemma info_inv s : console_ok s → ∃ i, scdk_fb_text_get_info s = (Ok i, s).
Proof.
  intros Hs. unfold scdk_fb_text_get_info. rewrite bind_gets, bind_guard by (by rewrite supported_ok).
  rewrite bind_modify, ensure_ok by done. rewrite bind_gets. by eexists.
Qed.
Lemma run_ops_inv m0 os : ∀ s t,
  console_inv m0 s t → 4 <= columns → Forall op_typed os →
  console_current_line s + 8 * Z.of_nat (length os) < LINE_LIMIT →
  ∃ s' t', run_ops os s = (Ok tt, s') ∧ console_inv m0 s' t'.
Proof.
  induction os as [|o os IH]; intros s t Hi H4 Ho Hlt; [by exists s, t|]. apply Forall_cons in Ho as [Ho Hos].
  cbn [run_ops]. rewrite length_cons in Hlt.
  assert (∃ s1 t1, run_op o s = (Ok tt, s1) ∧ console_inv m0 s1 t1 ∧ t_line t1 <= t_line t + 7)
    as (s1 & t1 & E & Hi1 & Hl1).
  { destruct o as [ch|lines|]; cbn [run_op].
    - destruct (putchar_inv m0 s t ch Hi H4 ltac:(lia)) as (s1 & E & Hi1 & _). exists s1, (t_char ch t).
      split; [done|]. split; [done|]. apply t_char_line.
    - destruct (scroll_inv m0 s t lines Hi Ho) as (s1 & E & Hi1 & _). exists s1, t. split; [done|]. split; [done|]. lia.
    - destruct (info_inv s (ci_ok _ _ _ Hi)) as [i E]. exists s, t. rewrite (bind_Ok _ _ _ _ _ E).
      split; [done|]. split; [done|]. lia. }
  rewrite (bind_Ok _ _ _ _ _ E). apply (IH s1 t1 Hi1 H4 Hos).
  rewrite (kl_line _ _ (ci_keeps _ _ _ Hi1)). rewrite (kl_line _ _ (ci_keeps _ _ _ Hi)) in Hlt. lia.
Qed.

(** Drawing everything again changes nothing. *)
Lemma render_same m0 s t x y j :
  console_inv m0 s t → in_text_area x y → 0 <= j < 4 →
  fb_memory (render_console s) (pixel_at f x y j) = fb_memory s (pixel_at f x y j).
Proof.
  intros Hi Hxy Hj. destruct (render_run s (ci_ok _ _ _ Hi)) as (px & py & op & -> & _ & Hsh).
  rewrite (ci_shows _ _ _ Hi) by done. by rewrite <-(Hsh x y j).
Qed.
Lemma view_chars_lines m0 s t r c :
  console_inv m0 s t → view_is_at_bottom s = true → 0 <= r < rows → 0 <= c < columns →
  view_chars s r c = t_cells t (Z.max 0 (t_line t + 1 - rows) + r) c.
Proof.
  intros Hi Hb%(follow_spec _ (ci_ok _ _ _ Hi)) Hr Hc. pose proof (ci_ok _ _ _ Hi) as Hs.
  pose proof (ci_keeps _ _ _ Hi) as Ht. pose proof (ok_line _ Hs) as Hl. pose proof (ok_view _ Hs) as Hv.
  rewrite bottom_val in Hb by apply Hs. rewrite oldest_val in Hv by apply Hs. unfold view_chars. rewrite Hb.
  rewrite <-(kl_line _ _ Ht).
  destruct (Z.le_gt_cases (Z.max 0 (console_current_line s + 1 - rows) + r) (console_current_line s)).
  - apply (kl_cells _ _ Ht); [|lia]. rewrite oldest_val by done. lia.
  - rewrite history_outside by lia. symmetry. apply (kl_fresh _ _ Ht). lia.
Qed.
(** A tab where no stop can be reached. *)
Lemma tab_loop_stuck m0 n : ∀ s t,
  console_inv m0 s t → columns < 4 → console_current_line s + Z.of_nat n < LINE_LIMIT → (tab_loop n s).1 = Ub.
Proof.
  induction n as [|n IH]; intros s t Hi H4 Hlt; [done|]. cbn [tab_loop].
  destruct (put_char_inv m0 s t 32 Hi ltac:(lia) ltac:(done)) as (s1 & E & Hi1 & _).
  change (t_char 32 t) with (t_put 32 t) in Hi1. rewrite (bind_Ok _ _ _ _ _ E), bind_gets.
  pose proof (ok_column _ (ci_ok _ _ _ Hi)) as Hc. rewrite (kl_column _ _ (ci_keeps _ _ _ Hi)) in Hc.
  rewrite (kl_column _ _ (ci_keeps _ _ _ Hi1)), t_put_column.
  assert (0 < (if columns <=? t_column t then 1 else t_column t + 1) < 4) as Hc1.
  { destruct (Z.leb_spec columns (t_column t)); lia. }
  rewrite (Z.mod_small _ 4), (proj2 (Z.eqb_neq _ 0)) by lia. apply (IH s1 _ Hi1 H4).
  rewrite (kl_line _ _ (ci_keeps _ _ _ Hi1)). pose proof (t_put_line 32 t).
  rewrite (kl_line _ _ (ci_keeps _ _ _ Hi)) in Hlt. lia.
Qed.
End console_facts.
End screen.

(** ** Properties *)

(** C13. The screen is always current: after the console has been cleared, any
    sequence of characters and scrolls succeeds, and then every pixel of the text
    area has the colour the history and the view give it, drawing everything
    again would change no pixel of it, the view is inside the history, and no
    byte outside the framebuffer has been written. *)
Theorem console_screen_current f s os :
  text_area f → 4 <= console_visible_columns (Some f) → active_framebuffer s = Some f →
  length (console_history s) = Z.to_nat CONSOLE_HISTORY_ROWS → Forall op_typed os →
  8 * Z.of_nat (length os) < LINE_LIMIT →
  ∃ s', (scdk_fb_text_clear ;; run_ops os) s = (Ok tt, s') ∧
    shows f (fb_memory s') (view_chars s') ∧
    (∀ x y j, in_text_area f x y → 0 <= j < 4 →
       fb_memory (render_console s') (pixel_at f x y j) = fb_memory s' (pixel_at f x y j)) ∧
    oldest_history_line s' <= console_view_top_line s' <= bottom_view_top_line s' ∧
    (∀ i, elsewhere f i → fb_memory s' i = fb_memory s i).
Proof.
  intros Ha H4 Hfb Hlen Ho Hn. destruct (clear_inv f Ha s Hfb Hlen) as (s1 & E & Hi & _).
  destruct (run_ops_inv f Ha (fb_memory s) os s1 t_start Hi H4 Ho) as (s2 & t2 & E2 & Hi2).
  { rewrite (kl_line _ _ (ci_keeps _ _ _ _ Hi)). cbn. lia. }
  exists s2. rewrite (bind_Ok _ _ _ _ _ E). split; [done|]. split; [apply Hi2|].
  split; [intros; by eapply render_same|]. split; [apply (ok_view _ _ (ci_ok _ _ _ _ Hi2))|apply Hi2].
Qed.

(** C14. The console shows the text written to it: after a clear, a text of any
    length, with its line breaks, carriage returns, backspaces and tabs, leaves on
    the screen the last lines of the text as a terminal with unlimited lines lays
    it out. *)
Theorem console_shows_text f s text :
  text_area f → 4 <= console_visible_columns (Some f) → active_framebuffer s = Some f →
  length (console_history s) = Z.to_nat CONSOLE_HISTORY_ROWS →
  text ≠ [] → 8 * Z.of_nat (length text) < LINE_LIMIT →
  let t := t_text f text t_start in
  ∃ s', (scdk_fb_text_clear ;; scdk_fb_text_write (Some text) (Z.of_nat (length text))) s = (Ok tt, s') ∧
    ∀ x y j, in_text_area f x y → 0 <= j < 4 →
      fb_memory s' (pixel_at f x y j) =
      pixel_byte (text_colour f (λ row column,
        t_cells t (Z.max 0 (t_line t + 1 - console_rows (Some f)) + row) column) x y) j.
Proof.
  intros Ha H4 Hfb Hlen Hne Hn t. destruct (clear_inv f Ha s Hfb Hlen) as (s1 & E & Hi & Hb).
  destruct (put_chars_inv f Ha (fb_memory s) text (length text) 0 s1 t_start Hi H4 ltac:(lia))
    as (s2 & E2 & Hi2 & Hb2).
  { rewrite (kl_line _ _ (ci_keeps _ _ _ _ Hi)). cbn. lia. }
  exists s2. rewrite (bind_Ok _ _ _ _ _ E). split.
  - unfold scdk_fb_text_write. rewrite (proj2 (Z.eqb_neq _ 0)) by (destruct text; [done|rewrite length_cons; lia]).
    rewrite Nat2Z.id. done.
  - intros x y j. apply (shows_ext f (fb_memory s2) (view_chars s2)); [|apply Hi2]. intros r c Hr Hc.
    rewrite drop_0, firstn_all in Hi2. by apply (view_chars_lines f Ha (fb_memory s) s2 t r c); auto.
Qed.

(** On a framebuffer too narrow for four columns a tab never ends: the loop
    that fills with spaces up to the next multiple of four is still running
    after any number of rounds that the line counter can count. *)
Theorem console_tab_hangs f s n :
  text_area f → console_visible_columns (Some f) < 4 → active_framebuffer s = Some f →
  length (console_history s) = Z.to_nat CONSOLE_HISTORY_ROWS → Z.of_nat n < LINE_LIMIT →
  ∃ s', scdk_fb_text_clear s = (Ok tt, s') ∧ (tab_loop n s').1 = Ub.
Proof.
  intros Ha H4 Hfb Hlen Hn. destruct (clear_inv f Ha s Hfb Hlen) as (s1 & E & Hi & _).
  exists s1. split; [done|]. eapply (tab_loop_stuck f Ha (fb_memory s)); [done|done|].
  rewrite (kl_line _ _ (ci_keeps _ _ _ _ Hi)). cbn. lia.
Qed.

(** A display of 64 by 64 pixels: four columns and two rows; and one of 40. *)
Definition demo_fb (width : Z) : limine_framebuffer := mk_fb 4096 width 64 256 32 1 8 16 8 8 8 0.
Definition demo_console (width : Z) : console :=
  mk_console (Some (demo_fb width)) 0 0 false (replicate 256 (replicate 160 0)) 0 0 0 (λ _, 0).
Lemma demo_fb_wf width : 0 <= width <= 64 → fb_wf (demo_fb width).
Proof. intros Hw. split; cbn; unfold two32, two64; lia. Qed.
Lemma demo_text_area width : (width =? 64) || (width =? 40) = true → text_area (demo_fb width).
Proof.
  intros [->%Z.eqb_eq| ->%Z.eqb_eq]%orb_true_iff; (split; [by apply demo_fb_wf|done|by split]).
Qed.
Definition demo_ops : list console_op := [Put 79; Put 75; Put 10; Put 9; Put 62; Scroll (-1); Info; Put 10; Put 8].

Lemma console_screen_current_witness :
  ∃ s', (scdk_fb_text_clear ;; run_ops demo_ops) (demo_console 64) = (Ok tt, s') ∧
    shows (demo_fb 64) (fb_memory s') (view_chars s').
Proof.
  destruct (console_screen_current (demo_fb 64) (demo_console 64) demo_ops) as (s' & E & Hs & _);
    [by apply demo_text_area|vm_compute; congruence|reflexivity|reflexivity| |reflexivity|].
  - repeat constructor; vm_compute; congruence.
  - exists s'. split; [exact E|exact Hs].
Defined.
Lemma console_shows_text_witness :
  ∃ s', (scdk_fb_text_clear ;; scdk_fb_text_write (Some [72; 105; 10]) 3) (demo_console 64) = (Ok tt, s').
Proof.
  destruct (console_shows_text (demo_fb 64) (demo_console 64) [72; 105; 10]) as (s' & E & _);
    [by apply demo_text_area|vm_compute; congruence|reflexivity|reflexivity|congruence|reflexivity|].
  exists s'. exact E.
Defined.
Lemma console_tab_hangs_witness :
  ∃ s', scdk_fb_text_clear (demo_console 40) = (Ok tt, s') ∧ (tab_loop 100 s').1 = Ub.
Proof.
  apply (console_tab_hangs (demo_fb 40) (demo_console 40) 100);
    [by apply demo_text_area|reflexivity|reflexivity|reflexivity|reflexivity].
Defined.
