(* ===== verification/ConsoleBackend.v ===== *)
(** * Serial port and console backend
    ([src/arch/x86_64/serial.c], [src/drivers/console_backend.c])

    Console output goes to the framebuffer and is mirrored on COM1 while the port
    works. The UART is hardware: [UART] states what its ports do. *)
From stdpp Require Import base list numbers relations.
From Stdlib Require Import ZArith Lia.
From S2P Require Import Prelude.
From S2P Require Import CString.
From S2P Require Import Framebuffer.
From S2P Require Import TextConsole.

#[local] Open Scope Z_scope.

Definition COM1_PORT : Z := 0x3f8.
Definition SERIAL_TRANSMIT_SPINS : Z := 100000.

(** [uart_in] and [uart_out] access a port; [sent] are the bytes on the line. The
    port is [online] when the divisor latch and the loopback mode are off, and
    [holding_empty] when the transmitter takes a byte: then a byte written to the
    data port is sent. What becomes of a byte written at another time is not known.
    Bit 5 of the line status register says that the transmitter takes a byte, and
    it does until one is written. Reading a port sends nothing. *)
Class UART (H : Type) := {
  uart_in : Z → H → Z * H;
  uart_out : Z → Z → H → H;
  sent : H → list Z;
  online : H → bool;
  holding_empty : H → bool;
  uart_in_keeps p h : sent (uart_in p h).2 = sent h ∧ online (uart_in p h).2 = online h;
  uart_status h : Z.testbit (uart_in (COM1_PORT + 5) h).1 5 = true →
    holding_empty (uart_in (COM1_PORT + 5) h).2 = true;
  uart_out_sends v h : online h = true → holding_empty h = true →
    sent (uart_out COM1_PORT v h) = sent h ++ [v] ∧ online (uart_out COM1_PORT v h) = true
}.

(** A port that works: it takes a byte after so many polls of its status, whatever
    was written to it before. *)
Fixpoint polled_empty `{UART H} (polls : nat) (h : H) : bool :=
  match polls with
  | O => false
  | S polls => let (v, h) := uart_in (COM1_PORT + 5) h in Z.testbit v 5 || polled_empty polls h
  end.
Record responsive `{UART H} (P : H → Prop) : Prop := {
  rs_ready h : P h → polled_empty (Z.to_nat SERIAL_TRANSMIT_SPINS) h = true;
  rs_in p h : P h → P (uart_in p h).2;
  rs_out v h : P h → P (uart_out COM1_PORT v h)
}.

Record backend (H : Type) := mk_backend {
  bk_console : console;
  bk_uart : H;
  serial_ready : bool;
  console_backend_initialized : bool;
  serial_mirror_enabled : bool
}.
Arguments mk_backend {H}.
Arguments bk_console {H}.
Arguments bk_uart {H}.
Arguments serial_ready {H}.
Arguments console_backend_initialized {H}.
Arguments serial_mirror_enabled {H}.

Section backend_ops.
Context {H : Type} `{UART H}.
Implicit Types b : backend H.

Definition with_console c b : backend H :=
  mk_backend c (bk_uart b) (serial_ready b) (console_backend_initialized b) (serial_mirror_enabled b).
Definition with_uart h b : backend H :=
  mk_backend (bk_console b) h (serial_ready b) (console_backend_initialized b) (serial_mirror_enabled b).
Definition with_serial_ready r b : backend H :=
  mk_backend (bk_console b) (bk_uart b) r (console_backend_initialized b) (serial_mirror_enabled b).
Definition with_initialized i b : backend H :=
  mk_backend (bk_console b) (bk_uart b) (serial_ready b) i (serial_mirror_enabled b).
Definition with_mirror m b : backend H :=
  mk_backend (bk_console b) (bk_uart b) (serial_ready b) (console_backend_initialized b) m.

(** ** The serial port *)
Definition serial_outb (port value : Z) : M (backend H) unit :=
  modify (λ b, with_uart (uart_out port value (bk_uart b)) b).
Definition serial_inb (port : Z) : M (backend H) Z := λ b,
  let (v, h) := uart_in port (bk_uart b) in (Ok v, with_uart h b).

Definition transmit_empty : M (backend H) bool :=
  let* status := serial_inb (COM1_PORT + 5) in
  ret (negb (Z.land status 0x20 =? 0)).

Definition scdk_serial_init : M (backend H) bool :=
  modify (with_serial_ready false) ;;
  serial_outb (COM1_PORT + 1) 0x00 ;;
  serial_outb (COM1_PORT + 3) 0x80 ;;
  serial_outb (COM1_PORT + 0) 0x01 ;;
  serial_outb (COM1_PORT + 1) 0x00 ;;
  serial_outb (COM1_PORT + 3) 0x03 ;;
  serial_outb (COM1_PORT + 2) 0xc7 ;;
  serial_outb (COM1_PORT + 4) 0x0b ;;
  serial_outb (COM1_PORT + 4) 0x1e ;;
  serial_outb (COM1_PORT + 0) 0xae ;;
  let* echo := serial_inb (COM1_PORT + 0) in
  if negb (echo =? 0xae) then ret false
  else
    serial_outb (COM1_PORT + 4) 0x0f ;;
    modify (with_serial_ready true) ;;
    ret true.

Definition scdk_serial_is_available b : bool := serial_ready b.

(** The polling loop, with the rounds left. *)
Fixpoint transmit_loop (spins : nat) (value : Z) : M (backend H) unit :=
  match spins with
  | O => modify (with_serial_ready false) ;; fail SCDK_ERR_BUSY
  | S spins =>
      let* empty := transmit_empty in
      if (empty : bool) then serial_outb COM1_PORT value else transmit_loop spins value
  end.
Definition serial_write_byte (value : Z) : M (backend H) unit :=
  let* ready := gets serial_ready in
  guard (negb ready) SCDK_ERR_NOTSUP ;;
  transmit_loop (Z.to_nat SERIAL_TRANSMIT_SPINS) value.

Definition scdk_serial_write_char (c : Z) : M (backend H) unit :=
  (if c =? 10 then serial_write_byte 13 else ret tt) ;;
  serial_write_byte c.

(** The characters of a string, or of [(null)]. *)
Definition null_text : list Z := [40; 110; 117; 108; 108; 41].
Fixpoint serial_chars (s : list Z) (i n : nat) : M (backend H) unit :=
  match n with
  | O => ret tt
  | S n => let* c := lift (load8 s i) in scdk_serial_write_char c ;; serial_chars s (S i) n
  end.
Definition scdk_serial_write_string (s : option (list Z)) : M (backend H) unit :=
  let s := default (null_text ++ [0]) s in
  let* n := lift (strlen s) in
  serial_chars s 0 n.

(** ** The backend *)
Definition on_console {A} (m : M console A) : M (backend H) A := zoom bk_console with_console m.

Definition scdk_console_backend_init : M (backend H) unit :=
  modify (with_initialized true) ;;
  modify (λ b, with_mirror (scdk_serial_is_available b) b) ;;
  attempt (on_console scdk_fb_text_clear) ;;
  ret tt.

(** The mirror loop: a character that cannot be sent ends the mirroring. *)
Fixpoint mirror_chars (buffer : list Z) (i n : nat) : M (backend H) unit :=
  match n with
  | O => ret tt
  | S n =>
      let* c := lift (load8 buffer i) in
      let* status := attempt (scdk_serial_write_char c) in
      match status with
      | Ok _ => mirror_chars buffer (S i) n
      | _ => modify (with_mirror false)
      end
  end.
Definition ensure_backend : M (backend H) unit :=
  let* ready := gets console_backend_initialized in
  if (ready : bool) then ret tt else scdk_console_backend_init.

Definition scdk_console_backend_write (buffer : option (list Z)) (length : Z) : M (backend H) unit :=
  match buffer with
  | None => fail SCDK_ERR_INVAL
  | Some buffer =>
      let* n := lift (if length =? 0 then strlen buffer else Ok (Z.to_nat length)) in
      attempt ensure_backend ;;
      modify (λ b, with_mirror (scdk_serial_is_available b) b) ;;
      let* mirror := gets serial_mirror_enabled in
      (if (mirror : bool) then mirror_chars buffer 0 n else ret tt) ;;
      attempt (on_console (scdk_fb_text_write (Some buffer) (Z.of_nat n))) ;;
      ret tt
  end.

Definition scdk_console_backend_clear : M (backend H) unit :=
  ensure_backend ;; on_console scdk_fb_text_clear.
Definition scdk_console_backend_scroll (lines : Z) : M (backend H) unit :=
  ensure_backend ;; on_console (scdk_fb_text_scroll lines).
Definition scdk_console_backend_get_info : M (backend H) scdk_console_info :=
  let* info := on_console scdk_fb_text_get_info in
  modify (λ b, with_mirror (scdk_serial_is_available b) b) ;;
  let* mirror := gets serial_mirror_enabled in
  ret (if (mirror : bool)
       then mk_console_info (ci_columns info) (ci_rows info) (ci_cursor_x info) (ci_cursor_y info)
              (Z.lor (ci_flags info) SCDK_CONSOLE_INFO_SERIAL_MIRROR)
       else info).
Definition scdk_console_backend_ready : M (backend H) unit := scdk_console_backend_init.
Definition scdk_console_direct_access_audit : M (backend H) unit := ret tt.
End backend_ops.

(** ** What is sent *)

(** A line break is sent as carriage return and line feed. *)
Definition on_line (text : list Z) : list Z := text ≫= λ c, if c =? 10 then [13; 10] else [c].

Section backend_facts.
Context {H : Type} `{UART H}.
Implicit Types b : backend H.

Lemma status_bit v : negb (Z.land v 0x20 =? 0) = Z.testbit v 5.
Proof.
  assert (Z.land v 0x20 = if Z.testbit v 5 then 0x20 else 0) as ->; [|by destruct (Z.testbit v 5)].
  change 0x20 with (2 ^ 5). apply Z.bits_inj'. intros n Hn. rewrite Z.land_spec, Z.pow2_bits_eqb by done.
  destruct (Z.eqb_spec 5 n) as [<-|Hne].
  - rewrite andb_true_r. by destruct (Z.testbit v 5).
  - rewrite andb_false_r. destruct (Z.testbit v 5); [|by rewrite Z.bits_0].
    symmetry. rewrite Z.pow2_bits_eqb by done. by apply Z.eqb_neq.
Qed.

(** What sending does: some of the bytes are sent, all of them if the port is
    still in use, as a port that works is; nothing else changes. *)
Record sending (bytes : list Z) (b b' : backend H) : Prop := {
  sd_console : bk_console b' = bk_console b;
  sd_initialized : console_backend_initialized b' = console_backend_initialized b;
  sd_online : online (bk_uart b') = true;
  sd_sent : ∃ rest, sent (bk_uart b) ++ bytes = sent (bk_uart b') ++ rest ∧ (serial_ready b' = true → rest = []);
  sd_works : ∀ P, responsive P → P (bk_uart b) → serial_ready b = true → serial_ready b' = true ∧ P (bk_uart b')
}.

Lemma sending_nil b : online (bk_uart b) = true → sending [] b b.
Proof. intros Ho. split; [done..| |done]. exists []. by rewrite app_nil_r. Qed.
Lemma sending_app b b1 b2 bytes1 bytes2 :
  sending bytes1 b b1 → serial_ready b1 = true → sending bytes2 b1 b2 → sending (bytes1 ++ bytes2) b b2.
Proof.
  intros [Hc1 Hi1 Ho1 (r1 & E1 & Hr1) W1] Hr [Hc2 Hi2 Ho2 (r2 & E2 & Hr2) W2]. rewrite (Hr1 Hr), app_nil_r in E1.
  split; [congruence..| |]. { exists r2. by rewrite app_assoc, E1. }
  intros P HP Hb Hrb. destruct (W1 P HP Hb Hrb). by apply W2.
Qed.
Lemma sending_stopped b b1 bytes1 bytes2 :
  sending bytes1 b b1 → serial_ready b1 = false → sending (bytes1 ++ bytes2) b b1.
Proof.
  intros [Hc1 Hi1 Ho1 (r1 & E1 & _) W1] Hr. split; [done..| |done]. exists (r1 ++ bytes2).
  split; [by rewrite !app_assoc, E1|congruence].
Qed.

Lemma transmit_run n value : ∀ b,
  online (bk_uart b) = true → serial_ready b = true →
  ∃ r b', transmit_loop n value b = (r, b') ∧ bk_console b' = bk_console b ∧
    console_backend_initialized b' = console_backend_initialized b ∧ online (bk_uart b') = true ∧
    serial_mirror_enabled b' = serial_mirror_enabled b ∧
    (∀ P, responsive P → P (bk_uart b) → P (bk_uart b')) ∧
    (r = Ok tt ∧ serial_ready b' = true ∧ sent (bk_uart b') = sent (bk_uart b) ++ [value] ∨
     r = Err SCDK_ERR_BUSY ∧ serial_ready b' = false ∧ sent (bk_uart b') = sent (bk_uart b) ∧
     polled_empty n (bk_uart b) = false).
Proof.
  induction n as [|n IH]; intros b Ho Hr; cbn [transmit_loop polled_empty].
  { eexists _, _. split; [reflexivity|]. split_and!; try done. by right. }
  unfold transmit_empty, serial_inb. unfold bind at 1 2. pose proof (uart_in_keeps (COM1_PORT + 5) (bk_uart b)) as [Es Eo].
  pose proof (uart_status (bk_uart b)) as Hst.
  assert (∀ P, responsive P → P (bk_uart b) → P (uart_in (COM1_PORT + 5) (bk_uart b)).2) as HP by (intros P HP; apply HP).
  destruct (uart_in (COM1_PORT + 5) (bk_uart b)) as [v h]. cbn [snd fst] in *. unfold ret. cbv beta iota. rewrite status_bit.
  destruct (Z.testbit v 5).
  - eexists _, _. split; [reflexivity|]. destruct (uart_out_sends value h) as [Es' Eo']; [by rewrite Eo|by apply Hst|].
    split_and!; [done..| |left; cbn; by rewrite Es', Es]. intros P HP' Hb. apply HP', HP; done.
  - destruct (IH (with_uart h b)) as (r & b' & E & Hc & Hi & Ho' & Hm & HP' & Hres); [by cbn; rewrite Eo|done|].
    exists r, b'. cbn in Hres. rewrite Es in Hres. split_and!; [done..| |done]. intros P HPr Hb. apply HP'; [done|]. by apply HP.
Qed.
Lemma write_byte_run value b :
  online (bk_uart b) = true → serial_ready b = true →
  ∃ r b', serial_write_byte value b = (r, b') ∧ sending [value] b b' ∧
    serial_mirror_enabled b' = serial_mirror_enabled b ∧
    (r = Ok tt ∧ serial_ready b' = true ∨ r = Err SCDK_ERR_BUSY ∧ serial_ready b' = false).
Proof.
  intros Ho Hr. unfold serial_write_byte. rewrite bind_gets, bind_guard by (by rewrite Hr).
  destruct (transmit_run (Z.to_nat SERIAL_TRANSMIT_SPINS) value b Ho Hr)
    as (r & b' & E & Hc & Hi & Ho' & Hm & HP & [(-> & Hr' & Es)|(-> & Hr' & Es & Hp)]); exists r, b' || eexists _, b'.
  all: split; [done|]; split; [|split; [done|auto]]; split; [done..| |].
  - exists []. by rewrite Es, app_nil_r.
  - intros P HPr Hb _. split; [done|by apply HP].
  - exists [value]. rewrite Es. split; [done|congruence].
  - intros P HPr Hb _. by rewrite (rs_ready _ HPr _ Hb) in Hp.
Qed.
Lemma write_char_run c b :
  online (bk_uart b) = true → serial_ready b = true →
  ∃ r b', scdk_serial_write_char c b = (r, b') ∧ sending (on_line [c]) b b' ∧
    (r = Ok tt ∧ serial_ready b' = true ∨ r = Err SCDK_ERR_BUSY ∧ serial_ready b' = false).
Proof.
  intros Ho Hr. unfold scdk_serial_write_char, on_line. cbn [mbind list_bind]. rewrite app_nil_r.
  destruct (c =? 10) eqn:Ec.
  2:{ destruct (write_byte_run c b Ho Hr) as (r & b' & E & Hs & _ & Hres). exists r, b'. done. }
  apply Z.eqb_eq in Ec as ->.
  destruct (write_byte_run 13 b Ho Hr) as (r & b1 & E & Hs & _ & Hres). destruct Hres as [[-> Hr1]|[-> Hr1]].
  - rewrite (bind_Ok _ _ _ _ _ E). destruct (write_byte_run 10 b1 (sd_online _ _ _ Hs) Hr1) as (r & b2 & E2 & Hs2 & _ & Hres).
    exists r, b2. split; [done|]. split; [|done]. by apply (sending_app b b1 b2 [13] [10]).
  - rewrite (bind_Err _ _ _ _ _ E). eexists _, _. split; [reflexivity|]. split; [|by auto].
    by apply (sending_stopped b b1 [13] [10]).
Qed.

Lemma mirror_run buffer n : ∀ i b,
  online (bk_uart b) = true → serial_ready b = true → (i + n ≤ length buffer)%nat →
  ∃ b', mirror_chars buffer i n b = (Ok tt, b') ∧ sending (on_line (take n (drop i buffer))) b b'.
Proof.
  induction n as [|n IH]; intros i b Ho Hr Hn; cbn [mirror_chars].
  { exists b. split; [done|]. by apply sending_nil. }
  destruct (lookup_lt_is_Some_2 buffer i ltac:(lia)) as [c Hc].
  rewrite (bind_Ok (lift (load8 buffer i)) _ b c b) by (unfold lift; by rewrite (load8_Ok _ _ _ Hc)).
  rewrite (drop_S _ _ _ Hc). cbn [take]. unfold on_line. rewrite bind_cons.
  replace (if c =? 10 then [13; 10] else [c]) with (on_line [c]) by (unfold on_line; cbn; apply app_nil_r).
  destruct (write_char_run c b Ho Hr) as (r & b1 & E & Hs & Hres).
  destruct Hres as [[-> Hr1]|[-> Hr1]].
  - rewrite (bind_Ok _ _ b (Ok tt) b1) by (unfold attempt; by rewrite E).
    destruct (IH (S i) b1 (sd_online _ _ _ Hs) Hr1) as (b2 & E2 & Hs2); [lia|].
    exists b2. split; [done|]. by apply (sending_app b b1 b2).
  - rewrite (bind_Ok _ _ b (Err SCDK_ERR_BUSY) b1) by (unfold attempt; by rewrite E).
    exists (with_mirror false b1). split; [done|].
    destruct (sending_stopped b b1 (on_line [c]) (on_line (take n (drop (S i) buffer))) Hs Hr1). by split.
Qed.

(** A text written to the backend: [n] characters of [buffer]. *)
Lemma backend_write_run f m0 b t buffer len n :
  text_area f → 4 <= console_visible_columns (Some f) →
  console_inv f m0 (bk_console b) t → console_backend_initialized b = true → online (bk_uart b) = true →
  (if len =? 0 then strlen buffer else Ok (Z.to_nat len)) = Ok n →
  (0 < n)%nat → (n ≤ length buffer)%nat → t_line t + 8 * Z.of_nat n < LINE_LIMIT →
  ∃ b', scdk_console_backend_write (Some buffer) len b = (Ok tt, b') ∧
    console_inv f m0 (bk_console b') (t_text f (take n buffer) t) ∧
    (view_is_at_bottom (bk_console b) = true → view_is_at_bottom (bk_console b') = true) ∧
    console_backend_initialized b' = true ∧ online (bk_uart b') = true ∧
    (serial_ready b = false → sent (bk_uart b') = sent (bk_uart b) ∧ serial_ready b' = false) ∧
    (∃ rest, sent (bk_uart b) ++ on_line (take n buffer) = sent (bk_uart b') ++ rest ∧
      (serial_ready b' = true → rest = [])) ∧
    ∀ P, responsive P → P (bk_uart b) → serial_ready b = true → serial_ready b' = true ∧ P (bk_uart b').
Proof.
  intros Ha H4 Hi Hin Ho En Hn Hlen Hlt. unfold scdk_console_backend_write.
  rewrite (bind_Ok _ _ b n b) by (unfold lift; by rewrite En).
  rewrite (bind_Ok (attempt ensure_backend) _ b (Ok tt) b)
    by (unfold attempt, ensure_backend; rewrite bind_gets, Hin; done).
  rewrite bind_modify, bind_gets. set (b0 := with_mirror (scdk_serial_is_available b) b).
  assert (∃ b1, (if serial_mirror_enabled b0 then mirror_chars buffer 0 n else ret tt) b0 = (Ok tt, b1) ∧
    sending (on_line (take n buffer)) b b1 ∧ (serial_ready b = false → b1 = b0)) as (b1 & E1 & Hsd & Hno).
  { change (serial_mirror_enabled b0) with (serial_ready b). destruct (serial_ready b) eqn:Hr.
    - destruct (mirror_run buffer n 0 b0 Ho Hr ltac:(lia)) as (b1 & E1 & [Hc Hi1 Ho1 Hs1 W1]).
      exists b1. split; [done|]. split; [by split|done].
    - exists b0. split; [done|]. split; [|done]. split; [done..| |congruence].
      exists (on_line (take n buffer)). split; [done|]. cbn. congruence. }
  rewrite (bind_Ok _ _ _ _ _ E1).
  destruct (put_chars_inv f Ha m0 buffer n 0 (bk_console b) t Hi H4 ltac:(lia)) as (c & Ec & Hi' & Hb').
  { rewrite (kl_line _ _ (ci_keeps _ _ _ _ Hi)). lia. }
  rewrite (bind_Ok _ _ b1 (Ok tt) (with_console c b1)).
  2:{ unfold attempt, on_console, zoom. rewrite (sd_console _ _ _ Hsd). unfold scdk_fb_text_write.
      rewrite (proj2 (Z.eqb_neq _ 0)) by lia. rewrite Nat2Z.id. unfold bind, lift. by rewrite Ec. }
  eexists. split; [reflexivity|]. rewrite drop_0 in Hi'. split; [exact Hi'|]. split; [exact Hb'|].
  split; [cbn; by rewrite (sd_initialized _ _ _ Hsd)|]. split; [apply (sd_online _ _ _ Hsd)|].
  split; [|split; [apply (sd_sent _ _ _ Hsd)|apply (sd_works _ _ _ Hsd)]]. intros Hr. rewrite (Hno Hr). done.
Qed.
End backend_facts.

(** A write to the console backend always reaches the screen: on an
    initialised backend the whole text is laid out and drawn whatever the serial
    port does. The port receives the text with a carriage return before each line
    feed, all of it if it works; a port that stops accepting bytes has received a
    prefix of it, is taken out of use, and is not written to again. *)
Theorem backend_write_exact {H : Type} `{UART H} f m0 (b : backend H) t text :
  text_area f → 4 <= console_visible_columns (Some f) →
  console_inv f m0 (bk_console b) t → console_backend_initialized b = true → online (bk_uart b) = true →
  text ≠ [] → t_line t + 8 * Z.of_nat (length text) < LINE_LIMIT →
  ∃ b', scdk_console_backend_write (Some text) (Z.of_nat (length text)) b = (Ok tt, b') ∧
    console_inv f m0 (bk_console b') (t_text f text t) ∧
    (serial_ready b = false → sent (bk_uart b') = sent (bk_uart b) ∧ serial_ready b' = false) ∧
    (∃ rest, sent (bk_uart b) ++ on_line text = sent (bk_uart b') ++ rest ∧ (serial_ready b' = true → rest = [])) ∧
    ∀ P, responsive P → P (bk_uart b) → serial_ready b = true → serial_ready b' = true ∧ P (bk_uart b').
Proof.
  intros Ha H4 Hi Hin Ho Hne Hlt.
  assert (0 < length text)%nat as Hpos by (destruct text; [done|simpl; lia]).
  destruct (backend_write_run f m0 b t text (Z.of_nat (length text)) (length text)) as (b' & E & Hi' & _ & _ & _ & Hq & Hs);
    try done.
  { rewrite (proj2 (Z.eqb_neq _ 0)) by lia. by rewrite Nat2Z.id. }
  exists b'. rewrite firstn_all in Hi', Hs. done.
Qed.

(** A port that is busy for one poll of its status after each byte, and loses what
    is written meanwhile. *)
Definition demo_uart : Type := list Z * bool.
Definition demo_in (p : Z) (h : demo_uart) : Z * demo_uart := if h.2 then (0, (h.1, false)) else (0x20, h).
Definition demo_out (p v : Z) (h : demo_uart) : demo_uart := if h.2 then h else (h.1 ++ [v], true).
#[export] Program Instance slow_uart : UART demo_uart := {|
  uart_in := demo_in;
  uart_out := demo_out;
  sent h := h.1;
  online _ := true;
  holding_empty h := negb h.2
|}.
Next Obligation. intros p [l []]; done. Qed.
Next Obligation. intros [l []]; done. Qed.
Next Obligation. intros v [l []]; done. Qed.
Lemma slow_uart_works : responsive (λ _ : demo_uart, True).
Proof.
  split; [|done|done]. intros [l b] _. assert (∃ n, Z.to_nat SERIAL_TRANSMIT_SPINS = S (S n)) as [n ->].
  { exists (Z.to_nat (SERIAL_TRANSMIT_SPINS - 2)). unfold SERIAL_TRANSMIT_SPINS. lia. }
  by destruct b.
Qed.

Definition demo_backend : backend demo_uart :=
  mk_backend (scdk_fb_text_clear (demo_console 64)).2 ([], false) true true true.
Lemma backend_write_exact_witness :
  ∃ b', scdk_console_backend_write (Some [72; 10; 105]) 3 demo_backend = (Ok tt, b') ∧
    [72; 13; 10; 105] = sent (bk_uart b').
Proof.
  destruct (clear_inv (demo_fb 64) (demo_text_area 64 eq_refl) (demo_console 64) eq_refl eq_refl) as (s' & E & Hi & _).
  destruct (backend_write_exact (demo_fb 64) (fb_memory (demo_console 64)) demo_backend t_start [72; 10; 105])
    as (b' & Eb & _ & _ & (rest & Er & Hrest) & Hw);
    [by apply demo_text_area|vm_compute; congruence| |reflexivity|reflexivity|congruence|reflexivity|].
  - unfold demo_backend. cbn [bk_console]. rewrite E. exact Hi.
  - destruct (Hw _ slow_uart_works I eq_refl) as [Hr _]. rewrite (Hrest Hr), app_nil_r in Er.
    exists b'. split; [exact Eb|exact Er].
Defined.
