(* ===== verification/LogFormat.v ===== *)
(** * Log messages ([src/kernel/log.c], formatting and the trace)

    A message is formatted into a buffer of 512 bytes and appended to a trace
    that keeps the last 8192 characters. *)
From stdpp Require Import base list numbers relations.
From Stdlib Require Import ZArith Lia.
From S2P Require Import Prelude.
From S2P Require Import CString.
From S2P Require Import Circular.

#[local] Open Scope Z_scope.

Definition SCDK_LOG_BUFFER_SIZE : Z := 512.
Definition SCDK_LOG_TRACE_SIZE : Z := 8192.

(** ** The buffer *)
Record scdk_log_buffer := mk_log_buffer {
  lb_data : list Z;
  lb_len : Z
}.
Implicit Types b : scdk_log_buffer.

Definition empty_log_buffer : scdk_log_buffer := mk_log_buffer (replicate (Z.to_nat SCDK_LOG_BUFFER_SIZE) 0) 0.

Definition append_char b (c : Z) : scdk_log_buffer :=
  if Z.of_nat (length (lb_data b)) <=? lb_len b + 1 then b
  else mk_log_buffer (<[Z.to_nat (lb_len b + 1) := 0]> (<[Z.to_nat (lb_len b) := c]> (lb_data b))) (lb_len b + 1).

(** [while ( *s != 0) append_char(buffer, *s++)] *)
Fixpoint append_chars (s : list Z) b : result scdk_log_buffer :=
  match s with
  | [] => Ub
  | c :: s => if c =? 0 then Ok b else append_chars s (append_char b c)
  end.
Definition null_string : list Z := [40; 110; 117; 108; 108; 41; 0].
Definition append_string b (s : option (list Z)) : result scdk_log_buffer :=
  append_chars (default null_string s) b.

Definition digits_upper : list Z := [48; 49; 50; 51; 52; 53; 54; 55; 56; 57; 65; 66; 67; 68; 69; 70].
Definition digits_lower : list Z := [48; 49; 50; 51; 52; 53; 54; 55; 56; 57; 97; 98; 99; 100; 101; 102].
Definition digit_table (upper : bool) : list Z := if upper then digits_upper else digits_lower.

(** The loop that fills [buf[32]], with the slots left; the list is what the
    second loop reads, last slot first. *)
Fixpoint digit_loop (slots : nat) (value base : Z) (upper : bool) (buf : list Z) : list Z :=
  match slots with
  | O => buf
  | S slots =>
      if value =? 0 then buf
      else digit_loop slots (value / base) base upper (nth (Z.to_nat (value mod base)) (digit_table upper) 0 :: buf)
  end.
Definition append_unsigned b (value base : Z) (upper : bool) : scdk_log_buffer :=
  if value =? 0 then append_char b 48
  else foldl append_char b (digit_loop 32 value base upper []).

Definition append_signed b (value : Z) : scdk_log_buffer :=
  if value <? 0 then append_unsigned (append_char b 45) (wrap64 (wrap64 (- (value + 1)) + 1)) 10 false
  else append_unsigned b value 10 false.

(** ** Variable arguments *)

(** The integer types an argument can have. *)
Inductive int_rank :=
  | R_int
  | R_long
  | R_llong.
#[global] Instance int_rank_eq_dec : EqDecision int_rank.
Proof. solve_decision. Defined.
Definition rank_bits (r : int_rank) : Z := match r with R_int => 32 | _ => 64 end.

Inductive va_value :=
  | va_int (rank : int_rank) (signed : bool) (value : Z)
  | va_str (s : option (list Z))
  | va_ptr (p : Z).

(** [va_arg] of an integer type: the argument must have that type, or the
    corresponding type of the other signedness with a value both can hold. *)
Definition va_arg_int (rank : int_rank) (signed : bool) (args : list va_value) : result (Z * list va_value) :=
  match args with
  | va_int r s v :: args =>
      if bool_decide (r = rank) && (eqb s signed || (0 <=? v) && (v <? 2 ^ (rank_bits rank - 1)))
      then Ok (v, args) else Ub
  | _ => Ub
  end.
Definition va_arg_str (args : list va_value) : result (option (list Z) * list va_value) :=
  match args with va_str s :: args => Ok (s, args) | _ => Ub end.
Definition va_arg_ptr (args : list va_value) : result (Z * list va_value) :=
  match args with va_ptr p :: args => Ok (p, args) | _ => Ub end.

(** The [switch] of [append_format]. *)
Definition convert (rank : int_rank) (conv : Z) (args : list va_value) b
  : result (scdk_log_buffer * list va_value) :=
  if conv =? 99 then
    let? a := va_arg_int R_int true args in
    Ok (append_char b (a.1 mod 256), a.2)
  else if conv =? 115 then
    let? a := va_arg_str args in
    let? b := append_string b a.1 in
    Ok (b, a.2)
  else if (conv =? 100) || (conv =? 105) then
    let? a := va_arg_int rank true args in
    Ok (append_signed b a.1, a.2)
  else if conv =? 117 then
    let? a := va_arg_int rank false args in
    Ok (append_unsigned b a.1 10 false, a.2)
  else if (conv =? 120) || (conv =? 88) then
    let? a := va_arg_int rank false args in
    Ok (append_unsigned b a.1 16 (conv =? 88), a.2)
  else if conv =? 112 then
    let? b := append_string b (Some [48; 120; 0]) in
    let? a := va_arg_ptr args in
    Ok (append_unsigned b a.1 16 false, a.2)
  else Ok (append_char (append_char b 37) conv, args).

(** After a [%]: the length modifier, the conversion and what follows it. *)
Definition directive (fmt : list Z) : result (int_rank * Z * list Z) :=
  let? c := deref (head fmt) in
  if c =? 108 then
    let? c := deref (head (tail fmt)) in
    if c =? 108 then
      let? c := deref (head (tail (tail fmt))) in
      Ok (R_llong, c, tail (tail (tail fmt)))
    else Ok (R_long, c, tail (tail fmt))
  else if c =? 122 then
    let? c := deref (head (tail fmt)) in
    Ok (R_long, c, tail (tail fmt))
  else Ok (R_int, c, tail fmt).

(** The loop of [append_format]; every round moves on in the format, so its
    length bounds the rounds. *)
Fixpoint format_loop (rounds : nat) (fmt : list Z) (args : list va_value) b : result scdk_log_buffer :=
  match rounds, fmt with
  | O, _ | _, [] => Ub
  | S rounds, c :: fmt =>
      if c =? 0 then Ok b
      else if negb (c =? 37) then format_loop rounds fmt args (append_char b c)
      else
        let? c := deref (head fmt) in
        if c =? 37 then format_loop rounds (tail fmt) args (append_char b 37)
        else
          let? d := directive fmt in
          let? r := convert d.1.1 d.1.2 args b in
          if d.1.2 =? 0 then Ok r.1 else format_loop rounds d.2 r.2 r.1
  end.
Definition append_format b (fmt : list Z) (args : list va_value) : result scdk_log_buffer :=
  format_loop (length fmt) fmt args b.

(** ** The trace *)
Record log_trace_state := mk_log_trace {
  log_trace : list Z;
  log_trace_head : Z;
  log_trace_len : Z
}.
Implicit Types t : log_trace_state.

Definition trace_append_char t (c : Z) : log_trace_state :=
  mk_log_trace (<[Z.to_nat (log_trace_head t) := c]> (log_trace t))
    ((log_trace_head t + 1) mod SCDK_LOG_TRACE_SIZE)
    (if log_trace_len t <? SCDK_LOG_TRACE_SIZE then log_trace_len t + 1 else log_trace_len t).
(** The first [n] of the characters at [s]. *)
Fixpoint trace_append (s : list Z) (i n : nat) t : result log_trace_state :=
  match n with
  | O => Ok t
  | S n => let? c := load8 s i in trace_append s (S i) n (trace_append_char t c)
  end.

(** [scdk_log_trace_copy] into a buffer: the result and the buffer, or no buffer. *)
Fixpoint trace_copy_loop t (start capacity : Z) (rounds : nat) (copied : Z) (dst : list Z) : result (Z * list Z) :=
  match rounds with
  | O => Ub
  | S rounds =>
      if (copied + 1 <? capacity) && (copied <? log_trace_len t) then
        let? c := deref (log_trace t !! Z.to_nat ((start + copied) mod SCDK_LOG_TRACE_SIZE)) in
        let? dst := store8 dst (Z.to_nat copied) c in
        trace_copy_loop t start capacity rounds (copied + 1) dst
      else Ok (copied, dst)
  end.
Definition scdk_log_trace_copy t (dst : option (list Z)) (capacity : Z) : result (Z * option (list Z)) :=
  match dst with
  | None => Ok (log_trace_len t, None)
  | Some dst =>
      if capacity =? 0 then Ok (log_trace_len t, Some dst)
      else
        let start := (log_trace_head t + SCDK_LOG_TRACE_SIZE - log_trace_len t) mod SCDK_LOG_TRACE_SIZE in
        let? r := trace_copy_loop t start capacity (S (Z.to_nat SCDK_LOG_TRACE_SIZE)) 0 dst in
        let? dst := store8 r.2 (Z.to_nat r.1) 0 in
        Ok (r.1, Some dst)
  end.
Definition scdk_log_trace_size t : Z := log_trace_len t.

(** ** The buffer holds what was appended *)
Record buffer_wf b : Prop := {
  bw_size : length (lb_data b) = Z.to_nat SCDK_LOG_BUFFER_SIZE;
  bw_len : 0 <= lb_len b < SCDK_LOG_BUFFER_SIZE;
  bw_end : lb_data b !! Z.to_nat (lb_len b) = Some 0
}.
Definition contents b : list Z := take (Z.to_nat (lb_len b)) (lb_data b).
(** What a buffer keeps of a text. *)
Definition fitting (l : list Z) : list Z := take 511 l.

Lemma empty_buffer_wf : buffer_wf empty_log_buffer.
Proof. by split. Qed.

Lemma contents_length b : buffer_wf b → Z.of_nat (length (contents b)) = lb_len b.
Proof. intros [Hs Hl _]. unfold contents. rewrite length_take, Hs. lia. Qed.

Lemma append_char_spec b c :
  buffer_wf b → buffer_wf (append_char b c) ∧ contents (append_char b c) = fitting (contents b ++ [c]).
Proof.
  intros Hb. pose proof (contents_length b Hb) as Hcl. destruct Hb as [Hs Hl He]. unfold append_char. rewrite Hs.
  unfold SCDK_LOG_BUFFER_SIZE in *. destruct (Z.leb_spec (Z.of_nat (Z.to_nat 512)) (lb_len b + 1)).
  - split; [by split|]. unfold fitting. rewrite take_app_le by lia. by rewrite take_ge by lia.
  - split.
    + split; cbn; [by rewrite !length_insert|unfold SCDK_LOG_BUFFER_SIZE; lia|].
      apply list_lookup_insert_eq. rewrite length_insert, Hs. lia.
    + unfold fitting. rewrite take_ge by (rewrite length_app; simpl; lia). unfold contents. cbn.
      rewrite Z2Nat.inj_add by lia. change (Z.to_nat 1) with 1%nat. rewrite Nat.add_1_r.
      rewrite take_insert, decide_False by lia.
      rewrite (take_S_r _ _ c) by (apply list_lookup_insert_eq; rewrite Hs; lia).
      by rewrite take_insert, decide_False by lia.
Qed.

Lemma fitting_app l r : fitting (fitting l ++ r) = fitting (l ++ r).
Proof.
  unfold fitting. destruct (Nat.le_gt_cases (length l) 511).
  - by rewrite (take_ge l) by done.
  - rewrite !take_app_le by (rewrite ?length_take; lia). by rewrite take_take, Nat.min_id.
Qed.
Lemma append_all_spec text : ∀ b,
  buffer_wf b → buffer_wf (foldl append_char b text) ∧
  contents (foldl append_char b text) = fitting (contents b ++ text).
Proof.
  induction text as [|c text IH]; intros b Hb; cbn [foldl].
  - split; [done|]. rewrite app_nil_r. unfold fitting. rewrite take_ge; [done|].
    pose proof (contents_length b Hb). destruct Hb as [_ Hl _]. unfold SCDK_LOG_BUFFER_SIZE in *. lia.
  - destruct (append_char_spec b c Hb) as [Hw E]. destruct (IH _ Hw) as [Hw' E']. split; [done|].
    by rewrite E', E, fitting_app, <-app_assoc.
Qed.
Lemma append_chars_spec s rest b : (0 ∉ s) → append_chars (s ++ 0 :: rest) b = Ok (foldl append_char b s).
Proof.
  revert b. induction s as [|c s IH]; intros b Hs; [done|]. apply not_elem_of_cons in Hs as [Hc Hs]. simpl.
  rewrite (proj2 (Z.eqb_neq c 0)) by done. by apply IH.
Qed.

(** ** Numbers *)
Definition number (base : Z) (upper : bool) (v : Z) : list Z :=
  if v =? 0 then [48] else digit_loop 32 v base upper [].
Definition digit_value (c : Z) : Z :=
  if c <=? 57 then c - 48 else if c <=? 70 then c - 55 else c - 87.
(** The value of a numeral. *)
Definition value_of (base : Z) (l : list Z) : Z := foldl (λ a c, a * base + digit_value c) 0 l.

Lemma append_unsigned_number b v base upper :
  append_unsigned b v base upper = foldl append_char b (number base upper v).
Proof. unfold append_unsigned, number. by destruct (v =? 0). Qed.

Lemma digit_table_value upper d : 0 <= d < 16 → digit_value (nth (Z.to_nat d) (digit_table upper) 0) = d.
Proof.
  intros Hd. assert (d ∈ seqZ 0 16) as Hin by (apply elem_of_seqZ; lia). revert d Hin Hd.
  apply (proj1 (Forall_forall (λ d, 0 <= d < 16 → _) (seqZ 0 16))).
  destruct upper; repeat (apply Forall_cons_2; [done|]); apply Forall_nil_2.
Qed.
Lemma digit_loop_value base upper n : 2 <= base <= 16 → ∀ v buf, 0 <= v < base ^ Z.of_nat n →
  value_of base (digit_loop n v base upper buf) = foldl (λ a c, a * base + digit_value c) v buf.
Proof.
  intros Hb. unfold value_of. induction n as [|n IH]; intros v buf Hv.
  { simpl in Hv. replace v with 0 by lia. done. }
  cbn [digit_loop]. destruct (Z.eqb_spec v 0) as [->|]; [done|].
  rewrite Nat2Z.inj_succ, Z.pow_succ_r in Hv by lia.
  rewrite IH by (split; [apply Z.div_pos; lia|apply Z.div_lt_upper_bound; lia]). cbn [foldl].
  pose proof (Z.mod_pos_bound v base ltac:(lia)). rewrite digit_table_value by lia.
  f_equal. rewrite (Z.div_mod v base) at 3 by lia. lia.
Qed.
Lemma number_value base upper v :
  base = 10 ∨ base = 16 → u64 v → value_of base (number base upper v) = v.
Proof.
  intros Hb Hv. unfold number. destruct (Z.eqb_spec v 0) as [->|]; [done|].
  rewrite digit_loop_value; [done|lia|]. destruct Hb as [-> | ->]; unfold u64, two64 in *; simpl; lia.
Qed.

(** ** Formats *)

(** The parts of a format, each with the argument it takes. *)
Inductive item :=
  | Lit (c : Z)
  | Percent
  | Chr (c : Z)
  | Str (s : option (list Z))
  | Dec (rank : int_rank) (v : Z)
  | Uns (rank : int_rank) (v : Z)
  | Hex (rank : int_rank) (upper : bool) (v : Z)
  | Ptr (p : Z).

Definition item_ok (i : item) : Prop :=
  match i with
  | Lit c => c ≠ 0 ∧ c ≠ 37
  | Percent => True
  | Chr c => 0 < c < 128
  | Str s => 0 ∉ default [] s
  | Dec rank v => - 2 ^ (rank_bits rank - 1) <= v < 2 ^ (rank_bits rank - 1)
  | Uns rank v | Hex rank _ v => 0 <= v < 2 ^ rank_bits rank
  | Ptr p => u64 p
  end.
Definition modifier (rank : int_rank) : list Z :=
  match rank with R_int => [] | R_long => [108] | R_llong => [108; 108] end.
(** How it is written in a format, what is passed for it, and what it becomes. *)
Definition item_format (i : item) : list Z :=
  match i with
  | Lit c => [c]
  | Percent => [37; 37]
  | Chr _ => [37; 99]
  | Str _ => [37; 115]
  | Dec rank _ => 37 :: modifier rank ++ [100]
  | Uns rank _ => 37 :: modifier rank ++ [117]
  | Hex rank upper _ => 37 :: modifier rank ++ [if upper then 88 else 120]
  | Ptr _ => [37; 112]
  end.
Definition item_args (i : item) : list va_value :=
  match i with
  | Lit _ | Percent => []
  | Chr c => [va_int R_int true c]
  | Str s => [va_str ((λ s, s ++ [0]) <$> s)]
  | Dec rank v => [va_int rank true v]
  | Uns rank v | Hex rank _ v => [va_int rank false v]
  | Ptr p => [va_ptr p]
  end.
Definition item_text (i : item) : list Z :=
  match i with
  | Lit c | Chr c => [c]
  | Percent => [37]
  | Str s => default [40; 110; 117; 108; 108; 41] s
  | Dec _ v => if v <? 0 then 45 :: number 10 false (- v) else number 10 false v
  | Uns _ v => number 10 false v
  | Hex _ upper v => number 16 upper v
  | Ptr p => [48; 120] ++ number 16 false p
  end.

Lemma append_signed_text b rank v :
  item_ok (Dec rank v) → append_signed b v = foldl append_char b (item_text (Dec rank v)).
Proof.
  intros Hv. unfold append_signed. cbn [item_text]. destruct (Z.ltb_spec v 0); [|apply append_unsigned_number].
  rewrite append_unsigned_number. cbn [foldl]. f_equal. f_equal.
  assert (2 ^ (rank_bits rank - 1) <= 2 ^ 63) as Hr by (by destruct rank). cbn [item_ok] in Hv.
  change (2 ^ 63) with 9223372036854775808 in Hr. unfold wrap64.
  rewrite (Z.mod_small (- (v + 1))), Z.mod_small by (unfold two64; lia). lia.
Qed.

Lemma va_arg_exact rank signed v args : va_arg_int rank signed (va_int rank signed v :: args) = Ok (v, args).
Proof. unfold va_arg_int. by rewrite bool_decide_true, eqb_reflx by done. Qed.

(** A conversion with its argument. *)
Lemma convert_item i conv rank args b :
  item_ok i →
  match i with
  | Lit _ | Percent => False
  | Chr _ => conv = 99
  | Str _ => conv = 115
  | Dec r _ => conv = 100 ∧ rank = r
  | Uns r _ => conv = 117 ∧ rank = r
  | Hex r upper _ => conv = (if (upper : bool) then 88 else 120) ∧ rank = r
  | Ptr _ => conv = 112
  end →
  convert rank conv (item_args i ++ args) b = Ok (foldl append_char b (item_text i), args).
Proof.
  intros Hi Hc. destruct i as [| |c|s|r v|r v|r upper v|p]; try done; unfold convert; cbn [item_args app].
  - subst conv. rewrite va_arg_exact. cbn. by rewrite Z.mod_small by (cbn in Hi; lia).
  - subst conv. cbn. unfold append_string. destruct s as [s|]; [|done]. cbn. by rewrite append_chars_spec.
  - destruct Hc as [-> ->]. rewrite va_arg_exact. cbn [rbind fst snd].
    by rewrite (append_signed_text b r v).
  - destruct Hc as [-> ->]. rewrite va_arg_exact. cbn [rbind fst snd].
    by rewrite append_unsigned_number.
  - destruct Hc as [-> ->]. rewrite va_arg_exact. destruct upper; cbn [rbind fst snd];
      by rewrite !append_unsigned_number.
  - subst conv. change (append_string b (Some [48; 120; 0])) with (Ok (append_char (append_char b 48) 120)).
    cbn [va_arg_ptr rbind fst snd]. by rewrite !append_unsigned_number.
Qed.

Lemma directive_item rank c rest :
  c ≠ 108 → c ≠ 122 → directive (modifier rank ++ c :: rest) = Ok (rank, c, rest).
Proof.
  intros H1%Z.eqb_neq H2%Z.eqb_neq. destruct rank; unfold directive; cbn; by rewrite ?H1, ?H2.
Qed.

Lemma item_step i n rest args b :
  item_ok i → (length (item_format i ++ rest) ≤ S n)%nat →
  ∃ n', (n' ≤ n)%nat ∧ (length rest ≤ n')%nat ∧
    format_loop (S n) (item_format i ++ rest) (item_args i ++ args) b =
    format_loop n' rest args (foldl append_char b (item_text i)).
Proof.
  intros Hi Hn. exists n. split; [done|]. rewrite length_app in Hn. split.
  { enough (1 ≤ length (item_format i))%nat by lia. destruct i; simpl; lia. }
  assert (∀ r c, c ≠ 0 → c ≠ 37 → c ≠ 108 → c ≠ 122 →
    match i with Lit _ | Percent => False | Chr _ => c = 99 | Str _ => c = 115 | Dec r' _ => c = 100 ∧ r = r'
      | Uns r' _ => c = 117 ∧ r = r' | Hex r' upper _ => c = (if (upper : bool) then 88 else 120) ∧ r = r'
      | Ptr _ => c = 112 end →
    format_loop (S n) (37 :: modifier r ++ c :: rest) (item_args i ++ args) b =
    format_loop n rest args (foldl append_char b (item_text i))) as Hconv.
  { intros r c H0 H37 H108 H122 Hm. cbn [format_loop]. change (37 =? 0) with false. change (negb (37 =? 37)) with false.
    cbv iota. assert (∃ c', head (modifier r ++ c :: rest) = Some c' ∧ c' ≠ 37) as (c' & Ec & Hc')
      by (destruct r; eexists; split; (reflexivity || done)).
    rewrite Ec. cbn [deref rbind]. rewrite (proj2 (Z.eqb_neq c' 37)) by done.
    rewrite directive_item by done. cbn [rbind fst snd]. rewrite (convert_item i c r args b Hi Hm). cbn [rbind fst snd].
    by rewrite (proj2 (Z.eqb_neq c 0)) by done. }
  destruct i as [c| |c|s|r v|r v|r upper v|p]; cbn [item_format app].
  - destruct Hi as [H0 H37]. cbn [format_loop item_args app]. rewrite (proj2 (Z.eqb_neq c 0)), (proj2 (Z.eqb_neq c 37)) by done.
    done.
  - done.
  - by apply (Hconv R_int).
  - by apply (Hconv R_int).
  - rewrite <-app_assoc. by apply Hconv.
  - rewrite <-app_assoc. by apply Hconv.
  - rewrite <-app_assoc. apply Hconv; destruct upper; done.
  - by apply (Hconv R_int).
Qed.

Lemma format_items items (rest : list Z) : ∀ n b,
  Forall item_ok items → (length ((items ≫= item_format) ++ 0%Z :: rest) ≤ n)%nat →
  format_loop n ((items ≫= item_format) ++ 0 :: rest) (items ≫= item_args) b =
  Ok (foldl append_char b (items ≫= item_text)).
Proof.
  induction items as [|i items IH]; intros n b Hok Hn.
  - simpl in Hn. destruct n; [lia|]. done.
  - apply Forall_cons in Hok as [Hi Hok]. cbn [mbind list_bind] in *. rewrite <-app_assoc in *. rewrite foldl_app.
    destruct n as [|n]; [rewrite !length_app in Hn; simpl in Hn; lia|].
    destruct (item_step i n ((items ≫= item_format) ++ 0 :: rest) (items ≫= item_args) b Hi Hn) as (n' & _ & Hn' & E).
    rewrite E. by apply IH.
Qed.

(** ** The trace is the end of what was logged *)
Record trace_wf t : Prop := {
  tw_size : length (log_trace t) = Z.to_nat SCDK_LOG_TRACE_SIZE;
  tw_head : 0 <= log_trace_head t < SCDK_LOG_TRACE_SIZE;
  tw_len : 0 <= log_trace_len t <= SCDK_LOG_TRACE_SIZE
}.
Definition traced t : list Z :=
  circular SCDK_LOG_TRACE_SIZE (log_trace t) (log_trace_head t - log_trace_len t) (Z.to_nat (log_trace_len t)).
(** The last [n] elements. *)
Definition keep_last {A} (n : nat) (l : list A) : list A := drop (length l - n) l.

Lemma keep_last_app {A} n (l r : list A) : keep_last n (keep_last n l ++ r) = keep_last n (l ++ r).
Proof.
  unfold keep_last. rewrite !length_app, length_drop.
  destruct (Nat.le_gt_cases (length l) n).
  - rewrite (proj2 (Nat.sub_0_le (length l) n)) by done. rewrite drop_0. f_equal. lia.
  - rewrite <-(drop_app_le l r) by lia. rewrite drop_drop. f_equal. lia.
Qed.

Lemma traced_length t : trace_wf t → Z.of_nat (length (traced t)) = log_trace_len t.
Proof. intros [Hs _ Hl]. unfold traced. rewrite circular_length by done. lia. Qed.
Lemma trace_char_spec t c :
  trace_wf t → trace_wf (trace_append_char t c) ∧
  traced (trace_append_char t c) = keep_last (Z.to_nat SCDK_LOG_TRACE_SIZE) (traced t ++ [c]).
Proof.
  intros Ht. pose proof (traced_length t Ht) as Htl. pose proof Ht as [Hs Hh Hl]. split.
  { split; cbn; [by rewrite length_insert|by apply Z.mod_pos_bound|].
    destruct (Z.ltb_spec (log_trace_len t) SCDK_LOG_TRACE_SIZE); lia. }
  set (n := Z.to_nat (log_trace_len t)). set (start := log_trace_head t - log_trace_len t) in *.
  assert (Z.to_nat (log_trace_head t) = slot_of SCDK_LOG_TRACE_SIZE (start + Z.of_nat n)) as Eslot.
  { unfold slot_of, start, n. rewrite Z2Nat.id by lia. rewrite Z.mod_small by lia. lia. }
  unfold traced, trace_append_char. cbn [log_trace log_trace_head log_trace_len]. rewrite Eslot. unfold keep_last.
  rewrite length_app. fold start n in Htl |- *. unfold traced in Htl. fold start n in Htl. simpl length.
  destruct (Z.ltb_spec (log_trace_len t) SCDK_LOG_TRACE_SIZE) as [Hlt|Hge].
  - rewrite (proj2 (Nat.sub_0_le _ _)) by lia. rewrite drop_0.
    rewrite <-(circular_push SCDK_LOG_TRACE_SIZE ltac:(done)) by (done || lia).
    replace (Z.to_nat (log_trace_len t + 1)) with (S n) by lia.
    rewrite <-(circular_start _ _ start), <-(circular_start _ _ (_ - _)). f_equal.
    rewrite Zminus_mod_idemp_l. unfold start. f_equal. lia.
  - assert (log_trace_len t = SCDK_LOG_TRACE_SIZE) as El by lia.
    replace (length (circular SCDK_LOG_TRACE_SIZE (log_trace t) start n) + 1 - Z.to_nat SCDK_LOG_TRACE_SIZE)%nat
      with 1%nat by lia.
    assert (n = S (Z.to_nat (SCDK_LOG_TRACE_SIZE - 1))) as En by (unfold n; rewrite El; done).
    set (k := Z.to_nat (SCDK_LOG_TRACE_SIZE - 1)) in *.
    destruct (circular_pop SCDK_LOG_TRACE_SIZE ltac:(done) (log_trace t) start k Hs) as (x & _ & Epop).
    assert (circular SCDK_LOG_TRACE_SIZE (log_trace t) start n =
      x :: circular SCDK_LOG_TRACE_SIZE (log_trace t) (start + 1) k) as -> by (rewrite En; exact Epop).
    cbn [app]. rewrite skipn_cons, drop_0.
    assert (Z.of_nat k < SCDK_LOG_TRACE_SIZE) as Hk by (unfold k; lia).
    rewrite <-(circular_push SCDK_LOG_TRACE_SIZE ltac:(done)) by done. change (Z.to_nat (log_trace_len t)) with n.
    rewrite <-En. replace (start + 1 + Z.of_nat k) with (start + Z.of_nat n) by lia.
    rewrite <-(circular_start _ _ (start + 1)), <-(circular_start _ _ (_ - _)). f_equal.
    rewrite Zminus_mod_idemp_l. unfold start. f_equal. lia.
Qed.
Lemma trace_append_spec s n : ∀ i t,
  trace_wf t → (i + n ≤ length s)%nat →
  ∃ t', trace_append s i n t = Ok t' ∧ trace_wf t' ∧
    traced t' = keep_last (Z.to_nat SCDK_LOG_TRACE_SIZE) (traced t ++ take n (drop i s)).
Proof.
  induction n as [|n IH]; intros i t Ht Hn; cbn [trace_append].
  - exists t. split; [done|]. split; [done|]. rewrite app_nil_r. unfold keep_last.
    pose proof (traced_length t Ht). destruct Ht as [_ _ Hl]. by rewrite (proj2 (Nat.sub_0_le _ _)) by lia.
  - destruct (lookup_lt_is_Some_2 s i ltac:(lia)) as [c Hc]. rewrite (load8_Ok _ _ _ Hc). cbn [rbind].
    destruct (trace_char_spec t c Ht) as [Ht1 E1]. destruct (IH (S i) _ Ht1 ltac:(lia)) as (t' & E & Ht' & Et').
    exists t'. split; [done|]. split; [done|]. rewrite Et', E1, keep_last_app, <-app_assoc.
    rewrite (drop_S _ _ _ Hc). done.
Qed.

Lemma circular_lookup {A} size (buf : list A) start n i :
  0 < size → length buf = Z.to_nat size → (i < n)%nat →
  circular size buf start n !! i = buf !! slot_of size (start + Z.of_nat i).
Proof.
  intros Hsz Hl. induction n as [|n IH]; intros Hi; [lia|].
  destruct (circular_full size Hsz buf start n Hl n) as [x Hx]. rewrite (circular_snoc size buf start n x Hx).
  destruct (decide (i = n)) as [->|].
  - rewrite lookup_app_r by (by rewrite circular_length). rewrite circular_length, Nat.sub_diag by done. by rewrite Hx.
  - rewrite lookup_app_l by (rewrite circular_length by done; lia). apply IH. lia.
Qed.

(** Copying the trace out. *)
Lemma trace_copy_spec t dst capacity :
  trace_wf t → 0 < capacity → (Z.to_nat capacity ≤ length dst)%nat →
  let text := take (Z.to_nat (capacity - 1)) (traced t) in
  scdk_log_trace_copy t (Some dst) capacity =
  Ok (Z.of_nat (length text), Some (text ++ 0 :: drop (length text + 1) dst)).
Proof.
  intros Ht Hcap Hd text. pose proof (traced_length t Ht) as Htl. pose proof Ht as [Hs Hh Hl].
  assert (length text = Z.to_nat (Z.min (capacity - 1) (log_trace_len t))) as Htext.
  { unfold text. rewrite length_take. lia. }
  unfold scdk_log_trace_copy. rewrite (proj2 (Z.eqb_neq capacity 0)) by lia. cbv zeta.
  set (start := (log_trace_head t + SCDK_LOG_TRACE_SIZE - log_trace_len t) mod SCDK_LOG_TRACE_SIZE).
  assert (∀ k i, (i + k = length text)%nat → ∀ rounds, (k < rounds)%nat →
    trace_copy_loop t start capacity rounds (Z.of_nat i) (take i text ++ drop i dst) =
    Ok (Z.of_nat (length text), text ++ drop (length text) dst)) as Hloop.
  { induction k as [|k IH]; intros i Hi [|rounds] Hr; try lia; cbn [trace_copy_loop].
    - replace i with (length text) by lia. rewrite firstn_all.
      destruct (Z.ltb_spec (Z.of_nat (length text) + 1) capacity);
        destruct (Z.ltb_spec (Z.of_nat (length text)) (log_trace_len t)); done || lia.
    - rewrite (proj2 (Z.ltb_lt _ capacity)), (proj2 (Z.ltb_lt _ (log_trace_len t))) by lia. cbn [andb].
      destruct (lookup_lt_is_Some_2 text i ltac:(lia)) as [c Hc].
      assert (log_trace t !! Z.to_nat ((start + Z.of_nat i) mod SCDK_LOG_TRACE_SIZE) = Some c) as Hlk.
      { unfold text in Hc. apply lookup_take_Some in Hc as [Hc _]. unfold traced in Hc.
        rewrite circular_lookup in Hc by (done || lia). rewrite <-Hc. f_equal. unfold slot_of, start.
        rewrite Zplus_mod_idemp_l. f_equal. 
        rewrite <-(Z.mod_add (log_trace_head t - log_trace_len t + Z.of_nat i) 1) by done. f_equal. lia. }
      rewrite Hlk. cbn [deref rbind].
      rewrite store8_Ok by (rewrite length_app, length_take, length_drop; lia).
      cbn [rbind]. rewrite Nat2Z.id. replace (Z.of_nat i + 1) with (Z.of_nat (S i)) by lia.
      destruct (lookup_lt_is_Some_2 dst i ltac:(lia)) as [o Ho].
      rewrite insert_app_r_alt, length_take, Nat.min_l, Nat.sub_diag by (rewrite ?length_take; lia).
      rewrite (drop_S _ _ _ Ho). cbn [insert list_insert]. rewrite <-(IH (S i)) with (rounds := rounds) by lia.
      f_equal. rewrite (take_S_r _ _ c Hc), <-app_assoc. done. }
  pose proof (Hloop (length text) 0%nat ltac:(lia) (S (Z.to_nat SCDK_LOG_TRACE_SIZE)) ltac:(lia)) as E.
  change (Z.of_nat 0) with 0 in E. rewrite drop_0 in E. change (take 0 text ++ dst) with dst in E. rewrite E. cbn [rbind fst snd].
  rewrite Nat2Z.id. rewrite store8_Ok by (rewrite length_app, length_drop; lia). cbn [rbind].
  rewrite insert_app_r_alt, Nat.sub_diag by lia. do 4 f_equal.
  destruct (lookup_lt_is_Some_2 dst (length text) ltac:(lia)) as [o Ho]. rewrite (drop_S _ _ _ Ho).
  by rewrite Nat.add_1_r.
Qed.

(** ** A line *)
Lemma digit_table_nonzero upper d : 0 <= d < 16 → nth (Z.to_nat d) (digit_table upper) 0 ≠ 0.
Proof. intros Hd E. pose proof (digit_table_value upper d Hd) as Hv. rewrite E in Hv. change (digit_value 0) with (-48) in Hv. lia. Qed.
Lemma digit_loop_nonzero base upper n : 2 <= base <= 16 → ∀ v buf,
  0 <= v → 0 ∉ buf → 0 ∉ digit_loop n v base upper buf.
Proof.
  intros Hb. induction n as [|n IH]; intros v buf Hv Hbuf; [done|]. cbn [digit_loop].
  destruct (v =? 0); [done|]. apply IH; [apply Z.div_pos; lia|]. apply not_elem_of_cons. split; [|done].
  apply not_eq_sym, digit_table_nonzero. pose proof (Z.mod_pos_bound v base ltac:(lia)). lia.
Qed.
(** [0 ∉ l] for a list of constants. *)
Ltac no_zero := repeat (apply not_elem_of_cons; split; [done|]); try apply not_elem_of_nil.

Lemma number_nonzero base upper v : base = 10 ∨ base = 16 → 0 <= v → 0 ∉ number base upper v.
Proof.
  intros Hb Hv. unfold number. destruct (v =? 0).
  - no_zero.
  - apply digit_loop_nonzero; [lia|done|apply not_elem_of_nil].
Qed.
Lemma item_text_nonzero i : item_ok i → 0 ∉ item_text i.
Proof.
  intros Hi. destruct i as [c| |c|s|r v|r v|r upper v|p]; cbn [item_text item_ok] in *.
  - destruct Hi as [Hc _]. apply not_elem_of_cons. split; [congruence|apply not_elem_of_nil].
  - no_zero.
  - apply not_elem_of_cons. split; [lia|apply not_elem_of_nil].
  - destruct s; [done|]. cbn. no_zero.
  - destruct (Z.ltb_spec v 0); [apply not_elem_of_cons; split; [done|]|]; apply number_nonzero; auto; lia.
  - apply number_nonzero; auto; lia.
  - apply number_nonzero; auto; lia.
  - cbn [app]. no_zero. apply number_nonzero; [auto|]. unfold u64 in Hi. lia.
Qed.
Lemma items_nonzero items : Forall item_ok items → 0 ∉ items ≫= item_text.
Proof.
  induction 1 as [|i items Hi _ IH]; [apply not_elem_of_nil|]. cbn. rewrite not_elem_of_app.
  split; [by apply item_text_nonzero|done].
Qed.
Lemma contents_cstr b : buffer_wf b → 0 ∉ contents b → cstr (lb_data b) (contents b).
Proof.
  intros [Hs Hl He] Hz. unfold contents in *. split.
  - apply Forall_forall. intros c Hc ->. done.
  - exists (drop (S (Z.to_nat (lb_len b))) (lb_data b)). by rewrite (take_drop_middle _ _ _ He).
Qed.
