(* ===== verification/Log.v ===== *)
(** * The log and panic ([src/kernel/log.c], [src/kernel/panic.c])

    The state that console output touches: the machine, the log and the console
    backend. A line is formatted, traced, and sent to the console endpoint once
    there is one; while a line is being dispatched, and when the endpoint refuses
    it, it goes straight to the backend. *)
From stdpp Require Import base gmap list numbers relations strings.
From Stdlib Require Import ZArith Lia Ascii String.
From S2P Require Import Prelude.
From S2P Require Import Kernel.
From S2P Require Import Capability.
From S2P Require Import Endpoint.
From S2P Require Import CString.
From S2P Require Import Usermode.
From S2P Require Import UserMessage.
From S2P Require Import TextConsole.
From S2P Require Import ConsoleBackend.
From S2P Require Import LogFormat.

#[local] Open Scope Z_scope.

Record log_state := mk_log {
  log_console_endpoint : Z;
  log_dispatching : bool;
  log_kept : log_trace_state
}.

Record system (H : Type) := mk_system {
  sys_machine : machine;
  sys_log : log_state;
  sys_backend : backend H
}.
Arguments mk_system {H}.
Arguments sys_machine {H}.
Arguments sys_log {H}.
Arguments sys_backend {H}.

Definition with_machine {H} m (s : system H) : system H := mk_system m (sys_log s) (sys_backend s).
Definition with_backend {H} b (s : system H) : system H := mk_system (sys_machine s) (sys_log s) b.
Definition with_log {H} l (s : system H) : system H := mk_system (sys_machine s) l (sys_backend s).

#[global] Program Instance system_machine {H} : HasMachine (system H) := {|
  the_machine := sys_machine; put_machine := with_machine |}.
Next Obligation. done. Qed.
Next Obligation. by intros ? []. Qed.
Next Obligation. done. Qed.

(** A string literal, with its end. *)
Definition chars (s : string) : list Z := map (λ a, Z.of_nat (nat_of_ascii a)) (String.list_ascii_of_string s).
Definition literal (s : string) : list Z := chars s ++ [0].

Section log_ops.
Context {H : Type} `{UART H}.
(** [invoke] runs a handler; its first argument is what the line buffer holds.
    [line_buffer] is the buffer's address. *)
Context (invoke : option (list Z) → handler_on (system H)) (line_buffer : Z).
Implicit Types s : system H.

Definition on_backend {A} (m : M (backend H) A) : M (system H) A := zoom sys_backend with_backend m.

Definition set_dispatching (d : bool) s : system H :=
  with_log (mk_log (log_console_endpoint (sys_log s)) d (log_kept (sys_log s))) s.
Definition set_kept t s : system H :=
  with_log (mk_log (log_console_endpoint (sys_log s)) (log_dispatching (sys_log s)) t) s.

Definition write_backend_line (line : list Z) : M (system H) unit :=
  ignore (on_backend (scdk_console_backend_write (Some line) 0)).

Definition write_console_line (line : list Z) (len : Z) : M (system H) unit :=
  let* l := gets sys_log in
  if (log_console_endpoint l =? 0) || log_dispatching l then write_backend_line line
  else
    let* msg := lift (scdk_message_init_write 0 0 line_buffer len) in
    modify (set_dispatching true) ;;
    let* reply := scdk_endpoint_call (invoke (Some line)) (log_console_endpoint l) msg in
    modify (set_dispatching false) ;;
    lift reply.2.

Definition scdk_log_set_console_endpoint (endpoint : Z) : M (system H) unit :=
  let* _ := query (λ s, scdk_cap_check (kernel_of s) endpoint SCDK_RIGHT_SEND SCDK_OBJ_ENDPOINT) in
  modify (λ s, with_log (mk_log endpoint (log_dispatching (sys_log s)) (log_kept (sys_log s))) s).

(** The buffer with the whole line. *)
Definition format_line (level : option (list Z)) (fmt : option (list Z)) (args : list va_value)
  : result scdk_log_buffer :=
  let level := default (literal "log") level in
  let fmt := default (literal "(null)") fmt in
  let? b := append_string empty_log_buffer (Some (literal "[")) in
  let? b := append_string b (Some level) in
  let? b := append_string b (Some (literal "] ")) in
  let? b := append_format b fmt args in
  append_string b (Some [10; 0]).

Definition scdk_log_vwrite (level fmt : option (list Z)) (args : list va_value) : M (system H) unit :=
  let* b := lift (format_line level fmt args) in
  let* t := query (λ s, trace_append (lb_data b) 0 (Z.to_nat (lb_len b)) (log_kept (sys_log s))) in
  modify (set_kept t) ;;
  let* status := attempt (write_console_line (lb_data b) (lb_len b)) in
  match status with
  | Ok _ => ret tt
  | _ => write_backend_line (lb_data b)
  end.

Definition scdk_log_write (level : option (list Z)) (fmt : option (list Z)) (args : list va_value)
  : M (system H) unit := scdk_log_vwrite level fmt args.
Definition scdk_log_info (fmt : option (list Z)) (args : list va_value) : M (system H) unit :=
  scdk_log_vwrite (Some (literal "info")) fmt args.
Definition scdk_log_warn (fmt : option (list Z)) (args : list va_value) : M (system H) unit :=
  scdk_log_vwrite (Some (literal "warn")) fmt args.
Definition scdk_log_error (fmt : option (list Z)) (args : list va_value) : M (system H) unit :=
  scdk_log_vwrite (Some (literal "error")) fmt args.

Definition log_literal (level text : string) : M (system H) unit :=
  scdk_log_write (Some (literal level)) (Some (literal text)) [].

(** ** Panic *)
Definition dump_registers_placeholder : M (system H) unit :=
  log_literal "panic" "register dump placeholder:" ;;
  log_literal "panic" "  rip/rsp/rflags unavailable before IDT/ISR setup" ;;
  log_literal "panic" "  fault vector unavailable before exception handlers".
(** Up to [halt_forever], which does not return. *)
Definition scdk_panic (fmt : option (list Z)) (args : list va_value) : M (system H) unit :=
  scdk_log_vwrite (Some (literal "panic")) fmt args ;;
  dump_registers_placeholder ;;
  log_literal "panic" "halting".
End log_ops.
