(* ===== verification/Console.v ===== *)
(** * Console service ([src/services/console_service.c])

    The endpoint handler: text from the kernel's buffers, text a user task has
    granted, and descriptors of a ring bound to the endpoint. *)
From stdpp Require Import base gmap list numbers relations strings.
From Stdlib Require Import ZArith Lia.
From S2P Require Import Prelude.
From S2P Require Import Kernel.
From S2P Require Import Object.
From S2P Require Import Capability.
From S2P Require Import Vmm.
From S2P Require Import Endpoint.
From S2P Require Import Ring.
From S2P Require Import CString.
From S2P Require Import UserMemory.
From S2P Require Import UserGrant.
From S2P Require Import Usermode.
From S2P Require Import UserMessage.
From S2P Require Import Framebuffer.
From S2P Require Import TextConsole.
From S2P Require Import ConsoleBackend.
From S2P Require Import LogFormat.
From S2P Require Import Log.

#[local] Open Scope Z_scope.

Definition SCDK_CONSOLE_RING_MAX_WRITE : Z := 128.

Section console_service.
Context {H : Type} `{UART H}.
Implicit Types (msg : scdk_message) (s : system H).

(** [payload] are the bytes at the address in [arg0]. *)
Definition console_handle_write (payload : option (list Z)) msg : M (system H) unit :=
  let length := msg_arg1 msg in
  guard (msg_arg0 msg =? 0) SCDK_ERR_INVAL ;;
  let* buffer := lift (deref payload) in
  let* n := lift (if length =? 0 then strlen buffer else Ok (Z.to_nat length)) in
  on_backend (scdk_console_backend_write (Some buffer) (Z.of_nat n)).

Definition console_handle_grant_write (endpoint : Z) msg : M (system H) unit :=
  guard (msg_arg0 msg =? 0) SCDK_ERR_INVAL ;;
  let length := msg_arg2 msg in
  guard ((length =? 0) || (SCDK_CONSOLE_RING_MAX_WRITE <? length)) SCDK_ERR_BOUNDS ;;
  let* data := kquery (λ k, scdk_user_grant_copy_from k endpoint (msg_arg0 msg) (msg_arg1 msg) length) in
  on_backend (scdk_console_backend_write (Some (data ++ [0])) length).

Definition console_handle_get_info msg : M (system H) scdk_message :=
  let* info := on_backend scdk_console_backend_get_info in
  ret (set_msg_args msg (ci_columns info) (ci_rows info)
         (Z.lor (wrap64 (Z.shiftl (ci_cursor_x info) 32)) (ci_cursor_y info)) (ci_flags info)).

(** [(int64_t)v] *)
Definition signed64 (v : Z) : Z := if v <? 2 ^ 63 then v else v - two64.
Definition console_handle_scroll msg : M (system H) unit :=
  let lines := signed64 (msg_arg0 msg) in
  guard ((lines <? - 2 ^ 31) || (2 ^ 31 - 1 <? lines)) SCDK_ERR_BOUNDS ;;
  on_backend (scdk_console_backend_scroll lines).

(** What a descriptor asks for. *)
Definition console_ring_write (endpoint : Z) (desc : scdk_ring_desc) : M (system H) unit :=
  guard (negb (rd_op desc =? SCDK_RING_OP_CONSOLE_WRITE) || negb (rd_cap desc =? endpoint) ||
         (rd_grant desc =? 0) || (rd_length desc =? 0) || (SCDK_CONSOLE_RING_MAX_WRITE <? rd_length desc))
    SCDK_ERR_INVAL ;;
  let* data := kquery (λ k, scdk_user_grant_copy_from k endpoint (rd_grant desc) (rd_offset desc) (rd_length desc)) in
  on_backend (scdk_console_backend_write (Some (data ++ [0])) (rd_length desc)).

Fixpoint console_ring_loop (endpoint ring : Z) (count : nat) : M (system H) unit :=
  match count with
  | O => ret tt
  | S count =>
      let* desc := onkern (scdk_ring_consume ring) in
      let* op_status := attempt (console_ring_write endpoint desc) in
      onkern (scdk_ring_complete ring
        (mk_completion (rd_op desc) (Endpoint.status_word op_status)
           (match op_status with Ok _ => rd_length desc | _ => 0 end) (rd_flags desc))) ;;
      match op_status with
      | Ok _ => console_ring_loop endpoint ring count
      | _ => lift op_status
      end
  end.
Definition console_handle_ring_process (endpoint : Z) msg : M (system H) unit :=
  guard ((msg_arg0 msg =? 0) || (msg_arg1 msg =? 0)) SCDK_ERR_INVAL ;;
  let ring := msg_arg0 msg in
  let count := wrap32 (msg_arg1 msg) in
  guard (negb (count =? msg_arg1 msg) || (SCDK_RING_MAX_ENTRIES <? count)) SCDK_ERR_BOUNDS ;;
  let* bound := kquery (λ k, scdk_ring_bound_target k ring) in
  guard (negb (bound =? endpoint)) SCDK_ERR_PERM ;;
  console_ring_loop endpoint ring (Z.to_nat count).

(** A handler's status, with the message as it was. *)
Definition replies msg (m : M (system H) unit) : M (system H) (scdk_message * result unit) :=
  let* status := attempt m in
  ret (msg, status).

Definition console_endpoint_handler_fn (payload : option (list Z)) (endpoint : Z) msg (context : Z)
  : M (system H) (scdk_message * result unit) :=
  if msg_type msg =? SCDK_MSG_WRITE then replies msg (console_handle_write payload msg)
  else if msg_type msg =? SCDK_MSG_CONSOLE_WRITE then replies msg (console_handle_grant_write endpoint msg)
  else if msg_type msg =? SCDK_MSG_CONSOLE_CLEAR then replies msg (on_backend scdk_console_backend_clear)
  else if msg_type msg =? SCDK_MSG_CONSOLE_GET_INFO then
    let* reply := attempt (console_handle_get_info msg) in
    match reply with
    | Ok reply => ret (reply, Ok tt)
    | Err e => ret (msg, Err e)
    | Ub => ub
    end
  else if msg_type msg =? SCDK_MSG_CONSOLE_BIND_OUTPUT_RING then ret (msg, Err SCDK_ERR_NOTSUP)
  else if msg_type msg =? SCDK_MSG_CONSOLE_SCROLL then replies msg (console_handle_scroll msg)
  else if msg_type msg =? SCDK_MSG_RING_PROCESS then replies msg (console_handle_ring_process endpoint msg)
  else ret (msg, Err SCDK_ERR_NOTSUP).

(** The handlers, the console's among them. *)
Context (other : option (list Z) → handler_on (system H)) (line_buffer : Z).
Definition services (payload : option (list Z)) : handler_on (system H) := λ h endpoint msg context,
  match h with
  | console_endpoint_handler => console_endpoint_handler_fn payload endpoint msg context
  | _ => other payload h endpoint msg context
  end.

Definition scdk_console_service_init : M (system H) Z :=
  on_backend scdk_console_backend_init ;;
  log_literal services line_buffer "console" "backend init ok" ;;
  log_literal services line_buffer "console" "framebuffer text backend ok" ;;
  let* info := attempt (on_backend scdk_console_backend_get_info) in
  (if match info with
      | Ok info => negb (Z.land (ci_flags info) SCDK_CONSOLE_INFO_SERIAL_MIRROR =? 0)
      | _ => false
      end
   then log_literal services line_buffer "console" "serial mirror backend ok"
   else log_literal services line_buffer "console" "serial mirror backend unavailable") ;;
  let* endpoint := onkern (scdk_endpoint_create SCDK_BOOT_CORE (Some console_endpoint_handler) 0) in
  onkern (scdk_service_register SCDK_SERVICE_CONSOLE endpoint) ;;
  log_literal services line_buffer "console" "frontend ready" ;;
  log_literal services line_buffer "console" "service endpoint registered" ;;
  ret endpoint.
End console_service.

(** ** Lines of the log *)
Definition log_line (level : list Z) (items : list item) : list Z :=
  fitting ([91] ++ level ++ [93; 32] ++ (items ≫= item_text) ++ [10]).

Lemma format_line_spec level items rest rest' :
  0 ∉ level → Forall item_ok items →
  ∃ b, format_line (Some (level ++ 0 :: rest)) (Some ((items ≫= item_format) ++ 0 :: rest')) (items ≫= item_args) = Ok b ∧
    buffer_wf b ∧ contents b = log_line level items.
Proof.
  intros Hl Hi. unfold format_line, append_string. cbn [default].
  change (literal "[") with ([91] ++ 0 :: []). change (literal "] ") with ([93; 32] ++ 0 :: []).
  change [10; 0] with ([10] ++ 0 :: []). unfold default, id.
  rewrite (append_chars_spec [91]) by no_zero. cbn [rbind].
  rewrite append_chars_spec by done. cbn [rbind].
  rewrite (append_chars_spec [93; 32]) by no_zero. cbn [rbind].
  unfold append_format. rewrite format_items by done. cbn [rbind].
  rewrite (append_chars_spec [10]) by no_zero.
  eexists. split; [reflexivity|]. rewrite <-!foldl_app.
  destruct (append_all_spec ([91] ++ level ++ [93; 32] ++ (items ≫= item_text) ++ [10])
    empty_log_buffer empty_buffer_wf) as [Hw E].
  split; [exact Hw|exact E].
Qed.
Lemma log_line_nonzero level items : 0 ∉ level → Forall item_ok items → 0 ∉ log_line level items.
Proof.
  intros Hl Hi Hin. unfold log_line, fitting in Hin.
  assert (0 ∈ [91] ++ level ++ [93; 32] ++ (items ≫= item_text) ++ [10]) as Hin'.
  { rewrite <-(take_drop 511). apply elem_of_app. by left. }
  rewrite !elem_of_app, !list_elem_of_singleton in Hin'. pose proof (items_nonzero items Hi).
  destruct Hin' as [|[|[Hc|[|]]]]; try done. apply list_elem_of_In in Hc. destruct Hc as [|[|[]]]; done.
Qed.

Section log_facts.
Context {H : Type} `{UART H} (other : option (list Z) → handler_on (system H)) (line_buffer : Z).
Implicit Types s : system H.

(** A system whose console shows [t] on [f]. *)
Record console_up f m0 s t : Prop := {
  cu_area : text_area f;
  cu_columns : 4 <= console_visible_columns (Some f);
  cu_inv : console_inv f m0 (bk_console (sys_backend s)) t;
  cu_initialized : console_backend_initialized (sys_backend s) = true;
  cu_online : online (bk_uart (sys_backend s)) = true
}.
(** The effect of printing [text]. *)
Record printed f m0 s t (text : list Z) s' : Prop := {
  pr_up : console_up f m0 s' (t_text f text t);
  pr_view : view_is_at_bottom (bk_console (sys_backend s)) = true →
            view_is_at_bottom (bk_console (sys_backend s')) = true;
  pr_serial : ∃ rest, sent (bk_uart (sys_backend s)) ++ on_line text = sent (bk_uart (sys_backend s')) ++ rest ∧
                (serial_ready (sys_backend s') = true → rest = []);
  pr_works : ∀ P, responsive P → P (bk_uart (sys_backend s)) → serial_ready (sys_backend s) = true →
    serial_ready (sys_backend s') = true ∧ P (bk_uart (sys_backend s'));
  pr_machine : sys_machine s' = sys_machine s;
  pr_log : sys_log s' = sys_log s
}.

Lemma backend_prints f m0 s t buffer len n :
  console_up f m0 s t → (if len =? 0 then strlen buffer else Ok (Z.to_nat len)) = Ok n →
  (0 < n)%nat → (n ≤ length buffer)%nat → t_line t + 8 * Z.of_nat n < LINE_LIMIT →
  ∃ s', on_backend (scdk_console_backend_write (Some buffer) len) s = (Ok tt, s') ∧
    printed f m0 s t (take n buffer) s'.
Proof.
  intros [Ha H4 Hi Hin Ho] En Hn Hlen Hlt.
  destruct (backend_write_run f m0 (sys_backend s) t buffer len n Ha H4 Hi Hin Ho En Hn Hlen Hlt)
    as (b' & E & Hi' & Hv & Hin' & Ho' & _ & Hs & Hw).
  exists (with_backend b' s). unfold on_backend, zoom. rewrite E. split; [done|]. split; [by split|done..].
Qed.

(** A line in a buffer goes to the backend as it is. *)
Lemma backend_line f m0 s t line data :
  console_up f m0 s t → cstr data line → line ≠ [] → t_line t + 8 * Z.of_nat (length line) < LINE_LIMIT →
  ∃ s', write_backend_line data s = (Ok tt, s') ∧ printed f m0 s t line s'.
Proof.
  intros Hu Hc Hne Hlt. assert (0 < length line)%nat as Hpos by (destruct line; [done|simpl; lia]).
  destruct (backend_prints f m0 s t data 0 (length line) Hu) as (s' & E & Hp); [|done| |done|].
  - rewrite Z.eqb_refl. by apply strlen_Ok.
  - pose proof (cstr_length _ _ Hc). lia.
  - exists s'. split; [unfold write_backend_line, ignore, bind, attempt; by rewrite E|].
    rewrite (cstr_take data line (length line) Hc ltac:(lia)), firstn_all in Hp. done.
Qed.

Lemma set_dispatching_up f m0 s t d : console_up f m0 s t → console_up f m0 (set_dispatching d s) t.
Proof. intros []. by split. Qed.

(** Through the endpoint of the console service. *)
Lemma console_line f m0 s t line data :
  console_up f m0 s t → cstr data line → line ≠ [] → t_line t + 8 * Z.of_nat (length line) < LINE_LIMIT →
  line_buffer ≠ 0 →
  (log_console_endpoint (sys_log s) = 0 ∨ log_dispatching (sys_log s) = true ∨
   ∃ oid ctx, endpoint_target (kernel_of s) (log_console_endpoint (sys_log s)) = Ok (oid, console_endpoint_handler, ctx)) →
  ∃ s', write_console_line (services other) line_buffer data (Z.of_nat (length line)) s = (Ok tt, s') ∧
    printed f m0 s t line s'.
Proof.
  intros Hu Hc Hne Hlt Hb Hroute. unfold write_console_line. rewrite bind_gets.
  destruct ((log_console_endpoint (sys_log s) =? 0) || log_dispatching (sys_log s)) eqn:Hd; [by apply backend_line|].
  apply orb_false_iff in Hd as [He Hd]. apply Z.eqb_neq in He.
  destruct Hroute as [|[|(oid & ctx & Ht)]]; [done|congruence|].
  unfold scdk_message_init_write. rewrite (rpass _ _ _ (proj2 (Z.eqb_neq line_buffer 0) Hb)).
  rewrite (bind_Ok _ _ s _ s) by reflexivity. rewrite bind_modify.
  assert (0 < length line)%nat as Hpos by (destruct line; [done|simpl; lia]).
  destruct (backend_prints f m0 (set_dispatching true s) t data (Z.of_nat (length line)) (length line)
    (set_dispatching_up _ _ _ _ _ Hu)) as (s1 & E1 & Hp1); [|done| |done|].
  { rewrite (proj2 (Z.eqb_neq _ 0)) by lia. by rewrite Nat2Z.id. }
  { pose proof (cstr_length _ _ Hc). lia. }
  rewrite (cstr_take data line (length line) Hc ltac:(lia)), firstn_all in Hp1.
  eexists (set_dispatching false s1). split.
  - erewrite bind_Ok.
    2:{ unfold scdk_endpoint_call. change (kernel_of (set_dispatching true s)) with (kernel_of s). rewrite Ht.
        cbn [services]. unfold console_endpoint_handler_fn. cbn [msg_type set_msg_target set_msg_status set_msg_args scdk_message_init].
        change (SCDK_MSG_WRITE =? SCDK_MSG_WRITE) with true. cbv iota.
        unfold replies, console_handle_write.
        cbn [msg_arg0 msg_arg1 set_msg_target set_msg_status set_msg_args scdk_message_init].
        unfold bind at 1 2, attempt. rewrite bind_guard by (by apply Z.eqb_neq).
        rewrite (bind_Ok (lift (deref (Some data))) _ _ data (set_dispatching true s)) by reflexivity.
        rewrite (proj2 (Z.eqb_neq (Z.of_nat (length line)) 0)) by lia. rewrite Nat2Z.id.
        rewrite (bind_Ok (lift (Ok (length line))) _ _ (length line) (set_dispatching true s)) by reflexivity.
        rewrite E1. reflexivity. }
    reflexivity.
  - destruct Hp1 as [Hup Hv Hs Hw Hm Hl]. split; [by apply set_dispatching_up|exact Hv|exact Hs|exact Hw|exact Hm|].
    unfold set_dispatching. cbn [sys_log with_log]. rewrite Hl. cbn. destruct (sys_log s) as [ep d tr]. cbn in *. by subst d.
Qed.
End log_facts.

Section log_write.
Context {H : Type} `{UART H} (other : option (list Z) → handler_on (system H)) (line_buffer : Z).
Implicit Types s : system H.

Lemma log_line_length level items : (0 < length (log_line level items) ≤ 511)%nat.
Proof. unfold log_line, fitting. rewrite length_take, length_app. cbn [length]. lia. Qed.
Lemma buffer_line b level items :
  buffer_wf b → contents b = log_line level items → lb_len b = Z.of_nat (length (log_line level items)).
Proof. intros Hb <-. by rewrite contents_length. Qed.

(** C17. A log line is delivered: the trace ends with the line and the screen shows
    it, whether the log writes to the backend itself or through the endpoint of the
    console service; the line is the level in brackets and the formatted message,
    cut at 511 characters. A serial port that is in use and works is sent exactly
    the line, once, with a carriage return before the line feed, and stays in use;
    any other port has been sent a prefix of that, and all of it if it is still in
    use. *)
Theorem log_line_delivered f m0 s t level items rest rest' :
  console_up f m0 s t → trace_wf (log_kept (sys_log s)) →
  0 ∉ level → Forall item_ok items → t_line t + 8 * 512 < LINE_LIMIT → line_buffer ≠ 0 →
  (log_console_endpoint (sys_log s) = 0 ∨ log_dispatching (sys_log s) = true ∨
   ∃ oid ctx, endpoint_target (kernel_of s) (log_console_endpoint (sys_log s)) = Ok (oid, console_endpoint_handler, ctx)) →
  let line := log_line level items in
  ∃ s', scdk_log_vwrite (services other) line_buffer (Some (level ++ 0 :: rest))
          (Some ((items ≫= item_format) ++ 0 :: rest')) (items ≫= item_args) s = (Ok tt, s') ∧
    console_up f m0 s' (t_text f line t) ∧
    (∃ unsent, sent (bk_uart (sys_backend s)) ++ on_line line = sent (bk_uart (sys_backend s')) ++ unsent ∧
       (serial_ready (sys_backend s') = true → unsent = [])) ∧
    (∀ P, responsive P → P (bk_uart (sys_backend s)) → serial_ready (sys_backend s) = true →
       serial_ready (sys_backend s') = true ∧
       sent (bk_uart (sys_backend s')) = sent (bk_uart (sys_backend s)) ++ on_line line) ∧
    traced (log_kept (sys_log s')) =
      keep_last (Z.to_nat SCDK_LOG_TRACE_SIZE) (traced (log_kept (sys_log s)) ++ line) ∧
    sys_machine s' = sys_machine s ∧ log_dispatching (sys_log s') = log_dispatching (sys_log s).
Proof.
  intros Hu Htr Hl Hi Hlt Hb Hroute line. pose proof (log_line_length level items) as Hlen.
  destruct (format_line_spec level items rest rest' Hl Hi) as (b & Eb & Hw & Hc).
  pose proof (buffer_line b level items Hw Hc) as Elen.
  assert (cstr (lb_data b) line) as Hcs.
  { unfold line. rewrite <-Hc. apply contents_cstr; [done|]. rewrite Hc. by apply log_line_nonzero. }
  unfold scdk_log_vwrite. rewrite (bind_Ok _ _ s b s) by (unfold lift; by rewrite Eb).
  destruct (trace_append_spec (lb_data b) (Z.to_nat (lb_len b)) 0 _ Htr) as (tr & Et & Htw & Etr).
  { rewrite (bw_size _ Hw), Elen. unfold SCDK_LOG_BUFFER_SIZE. lia. }
  rewrite (bind_query _ _ s tr Et), bind_modify. rewrite drop_0 in Etr. change (take _ _) with (contents b) in Etr.
  rewrite Hc in Etr. rewrite Elen. fold line. fold line in Hlen, Etr.
  destruct (console_line other line_buffer f m0 (set_kept tr s) t line (lb_data b)) as (s' & Es & Hp).
  { destruct Hu. by split. }
  { done. }
  { intros E. rewrite E in Hlen. simpl in Hlen. lia. }
  { lia. }
  { done. }
  { exact Hroute. }
  rewrite (bind_Ok _ _ _ (Ok tt) s') by (unfold attempt; by rewrite Es).
  exists s'. split; [done|]. destruct Hp as [Hup Hv Hs Hwk Hm Hlg]. rewrite Hlg.
  split_and!; [done|exact Hs| |done..]. intros P HP Hb' Hr. destruct (Hwk P HP Hb' Hr) as [Hr' _]. split; [done|].
  destruct Hs as (rest0 & Es0 & Hrest). rewrite (Hrest Hr'), app_nil_r in Es0. by rewrite <-Es0.
Qed.
End log_write.

(** C29. Formatting is exact: for every format made of literal text, [%%], and
    conversions with their arguments, the buffer holds what it held and then the
    text of each part, cut at 511 characters and terminated; the digits written
    for an integer of any width have exactly its value. *)
Theorem log_format_exact b items rest :
  buffer_wf b → Forall item_ok items →
  ∃ b', append_format b ((items ≫= item_format) ++ 0 :: rest) (items ≫= item_args) = Ok b' ∧ buffer_wf b' ∧
    contents b' = fitting (contents b ++ (items ≫= item_text)) ∧
    (∀ r v, Uns r v ∈ items → value_of 10 (item_text (Uns r v)) = v) ∧
    (∀ r u v, Hex r u v ∈ items → value_of 16 (item_text (Hex r u v)) = v) ∧
    (∀ r v, Dec r v ∈ items →
       if v <? 0 then ∃ n, item_text (Dec r v) = 45 :: n ∧ value_of 10 n = - v
       else value_of 10 (item_text (Dec r v)) = v).
Proof.
  intros Hb Hi. destruct (append_all_spec (items ≫= item_text) b Hb) as [Hw E].
  eexists. split; [unfold append_format; by apply format_items|]. split; [done|]. split; [done|].
  rewrite Forall_forall in Hi.
  assert (∀ r : int_rank, 2 ^ rank_bits r <= two64 ∧ 2 ^ (rank_bits r - 1) < two64) as Hr by (by intros []).
  split; [|split].
  - intros r v Hin%Hi. cbn in Hin. destruct (Hr r). apply number_value; [auto|]. unfold u64. lia.
  - intros r u v Hin%Hi. cbn in Hin. destruct (Hr r). apply number_value; [auto|]. unfold u64. lia.
  - intros r v Hin%Hi. cbn [item_ok] in Hin. destruct (Hr r). cbn [item_text]. destruct (Z.ltb_spec v 0).
    + eexists. split; [done|]. apply number_value; [auto|]. unfold u64. lia.
    + apply number_value; [auto|]. unfold u64. lia.
Qed.

(** A log message that does not fit loses its line break: the line that is
    traced and printed is 511 characters long and has no line break of its own, so
    the next message continues on the same line. *)
Theorem log_long_line_unterminated level items :
  0 ∉ level → Forall item_ok items → 10 ∉ level → 10 ∉ (items ≫= item_text) →
  (508 ≤ length level + length (items ≫= item_text))%nat →
  ∃ b, format_line (Some (level ++ [0])) (Some ((items ≫= item_format) ++ [0])) (items ≫= item_args) = Ok b ∧
    lb_len b = 511 ∧ 10 ∉ contents b.
Proof.
  intros Hl Hi Hl10 Ht10 Hlen. destruct (format_line_spec level items [] [] Hl Hi) as (b & E & Hw & Hc).
  exists b. split; [done|]. pose proof (contents_length b Hw) as Hcl. rewrite Hc in Hcl |- *.
  unfold log_line, fitting in *. rewrite !app_assoc in *.
  rewrite take_app_le in * by (rewrite !length_app; cbn [length]; lia). split.
  - rewrite <-Hcl, length_take, !length_app. cbn [length]. lia.
  - intros Hin. assert (10 ∈ (([91] ++ level) ++ [93; 32]) ++ (items ≫= item_text)) as Hin'.
    { rewrite <-(take_drop 511). apply elem_of_app. by left. }
    rewrite !elem_of_app, list_elem_of_singleton in Hin'. destruct Hin' as [[[|]|Hc2]|]; try done.
    apply list_elem_of_In in Hc2. destruct Hc2 as [|[|[]]]; done.
Qed.

(** ** A console of two rows, a log that goes through the console's endpoint *)
Definition boot_trace : log_trace_state := mk_log_trace (replicate (Z.to_nat SCDK_LOG_TRACE_SIZE) 0) 0 0.
Definition demo_system : system demo_uart :=
  mk_system (machine_of demo_endpoint) (mk_log 4294967296 false boot_trace) demo_backend.
Definition demo_items : list item := [Lit 120; Percent; Dec R_llong (-7); Hex R_int true 48879; Str None].

Lemma boot_trace_wf : trace_wf boot_trace.
Proof. split; [apply length_replicate|done|done]. Qed.
Lemma demo_items_ok : Forall item_ok demo_items.
Proof.
  repeat (apply Forall_cons_2; [|]); [done|done|split; vm_compute; congruence|split; vm_compute; congruence| |apply Forall_nil_2].
  apply not_elem_of_nil.
Qed.
Lemma demo_system_up : console_up (demo_fb 64) (fb_memory (demo_console 64)) demo_system t_start.
Proof.
  destruct (clear_inv (demo_fb 64) (demo_text_area 64 eq_refl) (demo_console 64) eq_refl eq_refl) as (s' & E & Hi & _).
  split; [by apply demo_text_area|vm_compute; congruence| |reflexivity|reflexivity].
  unfold demo_system, demo_backend. cbn [sys_backend bk_console]. rewrite E. exact Hi.
Qed.
Lemma demo_system_target :
  ∃ oid ctx, endpoint_target (kernel_of demo_system) 4294967296 = Ok (oid, console_endpoint_handler, ctx).
Proof. eexists _, _. vm_compute. reflexivity. Qed.
Definition demo_other : option (list Z) → handler_on (system demo_uart) := λ _ _ _ msg _, ret (msg, Err SCDK_ERR_NOTSUP).

Lemma log_line_delivered_witness :
  ∃ s', scdk_log_vwrite (services demo_other) 8192 (Some ([105] ++ [0]))
          (Some ((demo_items ≫= item_format) ++ [0])) (demo_items ≫= item_args) demo_system = (Ok tt, s') ∧
    sent (bk_uart (sys_backend s')) = on_line (log_line [105] demo_items).
Proof.
  destruct (log_line_delivered demo_other 8192 (demo_fb 64) (fb_memory (demo_console 64)) demo_system t_start [105]
    demo_items [] []) as (s' & E & _ & _ & Hsent & _).
  - exact demo_system_up.
  - exact boot_trace_wf.
  - no_zero.
  - exact demo_items_ok.
  - vm_compute. reflexivity.
  - congruence.
  - right. right. exact demo_system_target.
  - exists s'. split; [exact E|]. exact (proj2 (Hsent _ slow_uart_works I eq_refl)).
Defined.
Lemma log_format_exact_witness :
  ∃ b', append_format empty_log_buffer ((demo_items ≫= item_format) ++ [0]) (demo_items ≫= item_args) = Ok b' ∧
    contents b' = [120; 37; 45; 55; 66; 69; 69; 70; 40; 110; 117; 108; 108; 41].
Proof.
  destruct (log_format_exact empty_log_buffer demo_items [] empty_buffer_wf demo_items_ok) as (b' & E & _ & Hc & _).
  exists b'. split; [exact E|exact Hc].
Defined.
Lemma log_long_line_unterminated_witness :
  ∃ b, format_line (Some ([105] ++ [0])) (Some ((replicate 600 (Lit 120) ≫= item_format) ++ [0]))
         (replicate 600 (Lit 120) ≫= item_args) = Ok b ∧ lb_len b = 511 ∧ 10 ∉ contents b.
Proof.
  apply (log_long_line_unterminated [105] (replicate 600 (Lit 120))).
  - no_zero.
  - apply Forall_replicate. done.
  - apply not_elem_of_cons. split; [done|apply not_elem_of_nil].
  - assert ((replicate 600 (Lit 120) ≫= item_text) = replicate 600 120) as -> by (vm_compute; reflexivity).
    intros [E _]%elem_of_replicate. discriminate E.
  - vm_compute. lia.
Defined.

(** ** Rings *)
Section ring_facts.
Context {H : Type} `{UART H}.
Implicit Types (s : system H) (k : kernel) (d : scdk_ring_desc).

(** The text a descriptor names, or why it names none. *)
Definition desc_data k (endpoint : Z) d : result (list Z) :=
  let? _ := rguard (negb (rd_op d =? SCDK_RING_OP_CONSOLE_WRITE) || negb (rd_cap d =? endpoint) ||
         (rd_grant d =? 0) || (rd_length d =? 0) || (SCDK_CONSOLE_RING_MAX_WRITE <? rd_length d)) SCDK_ERR_INVAL in
  scdk_user_grant_copy_from k endpoint (rd_grant d) (rd_offset d) (rd_length d).

(** It depends on the capabilities, the grants and the memory only. *)
Lemma grant_lookup_same k k' cap rights live :
  k_objs k' = k_objs k → k_caps k' = k_caps k → k_ugrants k' = k_ugrants k →
  user_grant_lookup k' cap rights live = user_grant_lookup k cap rights live.
Proof.
  intros Eo Ec Eg. unfold user_grant_lookup.
  assert (∀ c r t, scdk_cap_check k' c r t = scdk_cap_check k c r t) as Hc by (intros; by apply cap_check_tables).
  rewrite Hc. destruct (scdk_cap_check k cap rights SCDK_OBJ_GRANT) as [e| |]; [|done..]. simpl.
  rewrite (object_lookup_objs k' k) by done. destruct (scdk_object_lookup k _) as [o| |]; [|done..]. simpl.
  rewrite Eg. destruct (obj_payload o); try done. destruct (k_ugrants k !! _); [|done]. simpl. by rewrite !Hc.
Qed.
Lemma user_load_vmm k k' n : k_vmm k' = k_vmm k → ∀ v, user_load k' v n = user_load k v n.
Proof.
  intros E. induction n as [|n IH]; intros v; [done|]. cbn [user_load]. unfold mmu. rewrite E, (pte_vmm k k') by done.
  rewrite IH. destruct (pte k _ v); [|done..]. simpl. destruct (user_load k (v + 1) n); [|done..]. simpl.
  unfold load_byte, load64. by rewrite E.
Qed.
Lemma validate_pages_vmm k k' n : k_vmm k' = k_vmm k → ∀ p l w, validate_pages n k' p l w = validate_pages n k p l w.
Proof.
  intros E. induction n as [|n IH]; intros p l w; [done|]. cbn [validate_pages].
  rewrite (virt_to_phys_vmm k k') by done. destruct (scdk_vmm_virt_to_phys k p); [|done..]. simpl. by rewrite IH.
Qed.
Lemma desc_data_same k k' endpoint d :
  k_objs k' = k_objs k → k_caps k' = k_caps k → k_ugrants k' = k_ugrants k → k_vmm k' = k_vmm k →
  desc_data k' endpoint d = desc_data k endpoint d.
Proof.
  intros Eo Ec Eg Ev. unfold desc_data, scdk_user_grant_copy_from. rewrite (grant_lookup_same k k') by done.
  destruct (rguard _ SCDK_ERR_INVAL); [|done..]. cbn [rbind]. destruct (rguard (endpoint =? 0) _); [|done..]. cbn [rbind].
  destruct (user_grant_lookup k _ _ _) as [found| |]; [|done..]. cbn [rbind].
  unfold scdk_user_copy_from, scdk_user_validate_range. destruct (checked_user_end _ _); [|done..].
  by rewrite (user_load_vmm k k'), (validate_pages_vmm k k') by done.
Qed.

Lemma user_load_length k n : ∀ v bs, user_load k v n = Ok bs → length bs = n.
Proof.
  induction n as [|n IH]; intros v bs; cbn [user_load]; [by intros [= <-]|]. intros E. minv E. cbn. f_equal. eauto.
Qed.
Lemma desc_data_length k endpoint d data :
  0 <= rd_length d → desc_data k endpoint d = Ok data →
  Z.of_nat (length data) = rd_length d ∧ 0 < rd_length d <= SCDK_CONSOLE_RING_MAX_WRITE.
Proof.
  unfold desc_data, scdk_user_grant_copy_from, scdk_user_copy_from. intros Hl E. minv E.
  apply user_load_length in E. apply orb_false_iff in E0 as [E0 Hmax%Z.ltb_ge].
  apply Z.eqb_neq in E5. lia.
Qed.

Definition upd_kernel k s : system H := put_machine (set_kernel k (the_machine s)) s.
Lemma upd_kernel_of k s : kernel_of (upd_kernel k s) = k.
Proof. reflexivity. Qed.
Lemma upd_kernel_up f m0 s t k : console_up f m0 s t → console_up f m0 (upd_kernel k s) t.
Proof. intros []. by split. Qed.

Lemma ring_write_run f m0 s t endpoint d data :
  console_up f m0 s t → 0 <= rd_length d → desc_data (kernel_of s) endpoint d = Ok data →
  t_line t + 1024 < LINE_LIMIT →
  ∃ s', console_ring_write endpoint d s = (Ok tt, s') ∧ printed f m0 s t data s'.
Proof.
  intros Hu Hl Hd Hlt. pose proof (desc_data_length _ _ _ _ Hl Hd) as [Elen Hb].
  unfold desc_data, rguard in Hd. unfold console_ring_write.
  destruct (negb _ || _ || _ || _ || _) eqn:Hg; [done|]. cbn [rbind] in Hd.
  unfold kquery. rewrite bind_guard by done. rewrite (bind_query _ _ s data Hd).
  unfold SCDK_CONSOLE_RING_MAX_WRITE in Hb.
  destruct (backend_prints f m0 s t (data ++ [0]) (rd_length d) (length data) Hu) as (s' & E & Hp).
  - rewrite (proj2 (Z.eqb_neq _ 0)) by lia. f_equal. lia.
  - lia.
  - rewrite length_app. lia.
  - lia.
  - exists s'. split; [done|]. by rewrite take_app_length in Hp.
Qed.
Lemma ring_write_err s endpoint d e :
  desc_data (kernel_of s) endpoint d = Err e → console_ring_write endpoint d s = (Err e, s).
Proof.
  unfold desc_data, console_ring_write, rguard, guard. destruct (negb _ || _ || _ || _ || _); cbn [rbind]; intros Hd.
  - by injection Hd as <-.
  - rewrite (bind_Ok (ret tt) _ s tt s) by done. apply bind_Err. unfold kquery, query. by rewrite Hd.
Qed.

Definition completed (d : scdk_ring_desc) : scdk_completion := mk_completion (rd_op d) 0 (rd_length d) (rd_flags d).
Definition refused (d : scdk_ring_desc) (e : err) : scdk_completion :=
  mk_completion (rd_op d) (Endpoint.status_word (Err e)) 0 (rd_flags d).

(** One descriptor taken and one completion given. *)
Lemma consume_run k ring i r d q done cap n :
  ring_reach k ring i r → ring_ok r → 0 <= n → ring_steady r (n + 1) → ring_fifo r = mk_fifo cap (d :: q) done →
  ∃ r', scdk_ring_consume ring k = (Ok d, set_ring i r' k) ∧ ring_ok r' ∧ ring_steady r' n ∧
    ring_fifo r' = mk_fifo cap q done.
Proof.
  intros Hr Hok Hn Hs Hf. destruct (ring_step_sim k ring i r op_consume n Hr Hok Hn Hs) as (r' & E & Hok' & Hf' & Hs').
  rewrite Hf in E, Hf'. exists r'. split; [|done]. cbn [ring_step fifo_step ff_submissions fst] in E.
  unfold bind, ret in E. destruct (scdk_ring_consume ring k) as [[d'| |] k']; by simplify_eq.
Qed.
Lemma complete_run k ring i r c q done cap n :
  ring_reach k ring i r → ring_ok r → 0 <= n → ring_steady r (n + 1) → ring_fifo r = mk_fifo cap q done →
  Z.of_nat (length done) < cap →
  ∃ r', scdk_ring_complete ring c k = (Ok tt, set_ring i r' k) ∧ ring_ok r' ∧ ring_steady r' n ∧
    ring_fifo r' = mk_fifo cap q (done ++ [c]).
Proof.
  intros Hr Hok Hn Hs Hf Hc. destruct (ring_step_sim k ring i r (op_complete c) n Hr Hok Hn Hs) as (r' & E & Hok' & Hf' & Hs').
  rewrite Hf in E, Hf'. cbn [fifo_step ff_capacity ff_completions ff_submissions] in E, Hf'.
  rewrite (proj2 (Z.leb_gt cap _)) in E, Hf' by lia. exists r'. split; [|done]. cbn [ring_step fst] in E.
  unfold bind, ret in E. destruct (scdk_ring_complete ring c k) as [[[]| |] k']; by simplify_eq.
Qed.
Lemma onkern_upd {A} (o : K A) s a k' : o (kernel_of s) = (Ok a, k') → onkern o s = (Ok a, upd_kernel k' s).
Proof. intros E. rewrite onkern_run, E. done. Qed.

Lemma t_text_line f text : ∀ t, t_line (t_text f text t) <= t_line t + 7 * Z.of_nat (length text).
Proof.
  induction text as [|c text IH]; intros t; [cbn; lia|]. cbn [t_text foldl]. specialize (IH (t_char f c t)).
  unfold t_text in IH. pose proof (t_char_line f c t). rewrite length_cons. lia.
Qed.

Lemma ring_loop_good f m0 endpoint ring i cap more n goods : ∀ s t r done m,
  console_up f m0 s t → ring_reach (kernel_of s) ring i r → ring_ok r → 0 <= m →
  ring_steady r (2 * Z.of_nat (length goods) + m) →
  ring_fifo r = mk_fifo cap (map fst goods ++ more) done →
  Forall (λ p, 0 <= rd_length p.1 ∧ desc_data (kernel_of s) endpoint p.1 = Ok p.2) goods →
  Z.of_nat (length done + length goods) <= cap →
  t_line t + 2048 * Z.of_nat (length goods) < LINE_LIMIT →
  ∃ s' r', console_ring_loop endpoint ring (length goods + n) s = console_ring_loop endpoint ring n s' ∧
    console_up f m0 s' (t_text f (concat (map snd goods)) t) ∧
    kernel_of s' = set_ring i r' (kernel_of s) ∧ ring_reach (kernel_of s') ring i r' ∧ ring_ok r' ∧ ring_steady r' m ∧
    ring_fifo r' = mk_fifo cap more (done ++ map (λ p, completed p.1) goods) ∧ sys_log s' = sys_log s.
Proof.
  induction goods as [|[d data] goods IH]; intros s t r done m Hu Hr Hok Hm Hs Hf Hg Hc Hlt.
  { exists s, r. cbn [length map concat app] in *. rewrite app_nil_r. rewrite (set_ring_id _ _ _ (rr_at _ _ _ _ Hr)).
    split_and!; try done. }
  apply Forall_cons in Hg as [[Hl Hd] Hg]. cbn [fst snd] in Hl, Hd. cbn [length map app] in *.
  rewrite Nat2Z.inj_succ in Hs, Hlt. cbn [Nat.add console_ring_loop].
  destruct (consume_run (kernel_of s) ring i r d (map fst goods ++ more) done cap (2 * Z.of_nat (length goods) + m + 1) Hr Hok)
    as (r1 & E1 & Hok1 & Hs1 & Hf1); [lia|by replace (2 * Z.of_nat (length goods) + m + 1 + 1) with
      (2 * Z.succ (Z.of_nat (length goods)) + m) by lia|done|].
  rewrite (bind_Ok _ _ _ _ _ (onkern_upd _ s _ _ E1)). set (s1 := upd_kernel (set_ring i r1 (kernel_of s)) s).
  assert (desc_data (kernel_of s1) endpoint d = Ok data) as Hd1 by (by rewrite (desc_data_same (kernel_of s))).
  destruct (ring_write_run f m0 s1 t endpoint d data (upd_kernel_up _ _ _ _ _ Hu) Hl Hd1 ltac:(lia)) as (s2 & E2 & Hp).
  rewrite (bind_Ok _ _ s1 (Ok tt) s2) by (unfold attempt; by rewrite E2).
  assert (kernel_of s2 = set_ring i r1 (kernel_of s)) as Ek2.
  { unfold kernel_of, machine_kernel, the_machine, system_machine. by rewrite (pr_machine _ _ _ _ _ _ Hp). }
  assert (ring_reach (kernel_of s2) ring i r1) as Hr1 by (rewrite Ek2; by eapply ring_reach_set).
  destruct (complete_run (kernel_of s2) ring i r1 (completed d) (map fst goods ++ more) done cap (2 * Z.of_nat (length goods) + m) Hr1 Hok1)
    as (r2 & E3 & Hok2 & Hs2 & Hf2); [lia|done|done|lia|].
  change (mk_completion (rd_op d) (Endpoint.status_word (Ok tt)) (rd_length d) (rd_flags d)) with (completed d).
  rewrite (bind_Ok _ _ _ _ _ (onkern_upd _ s2 _ _ E3)). set (s3 := upd_kernel (set_ring i r2 (kernel_of s2)) s2).
  assert (kernel_of s3 = set_ring i r2 (kernel_of s)) as Ek3.
  { unfold s3. rewrite upd_kernel_of, Ek2. apply set_ring_set. }
  pose proof (desc_data_length _ _ _ _ Hl Hd) as [Elen Hmax].
  destruct (IH s3 (t_text f data t) r2 (done ++ [completed d]) m) as (s4 & r4 & E4 & Hu4 & Ek4 & Hr4 & Hok4 & Hs4 & Hf4 & Hl4).
  - apply upd_kernel_up, Hp.
  - rewrite Ek3. by eapply ring_reach_set.
  - done.
  - done.
  - done.
  - done.
  - eapply Forall_impl; [exact Hg|]. intros p [Hpl Hpd]. split; [done|]. rewrite (desc_data_same (kernel_of s)); [done|..];
      by rewrite Ek3.
  - rewrite length_app. cbn. lia.
  - pose proof (t_text_line f data t). unfold SCDK_CONSOLE_RING_MAX_WRITE in Hmax. lia.
  - exists s4, r4. split; [exact E4|]. cbn [concat map].
    split; [unfold t_text; rewrite foldl_app; exact Hu4|]. split; [rewrite Ek4, Ek3; apply set_ring_set|].
    split; [done|]. split; [done|]. split; [done|]. split; [rewrite Hf4, <-app_assoc; done|].
    rewrite Hl4. exact (pr_log _ _ _ _ _ _ Hp).
Qed.
End ring_facts.

(** C22. Ring output: the console prints, in order, the granted text of each
    descriptor it is asked to process and completes each one with its length. The
    first descriptor that names no readable grant for this endpoint is completed
    with the error and the error is returned; the descriptors behind it stay
    queued and nothing of them is printed. *)
Theorem console_ring_exact {H : Type} `{UART H} f m0 (s : system H) t endpoint ring i r cap goods more done msg :
  console_up f m0 s t → ring_reach (kernel_of s) ring i r → ring_ok r → ring_steady r 200 →
  ring_fifo r = mk_fifo cap (map fst goods ++ more) done →
  Forall (λ p, 0 <= rd_length p.1 ∧ desc_data (kernel_of s) endpoint p.1 = Ok p.2) goods →
  scdk_ring_bound_target (kernel_of s) ring = Ok endpoint →
  Z.of_nat (length done + length goods) < cap → t_line t + 2 ^ 20 < LINE_LIMIT →
  msg_arg0 msg = ring → ring ≠ 0 →
  let out := concat (map snd goods) in
  let done' := done ++ map (λ p, completed p.1) goods in
  (msg_arg1 msg = Z.of_nat (length goods) → 0 < msg_arg1 msg <= SCDK_RING_MAX_ENTRIES →
   ∃ s' r', console_handle_ring_process endpoint msg s = (Ok tt, s') ∧
     console_up f m0 s' (t_text f out t) ∧ ring_reach (kernel_of s') ring i r' ∧
     ring_fifo r' = mk_fifo cap more done') ∧
  (∀ d e more', more = d :: more' → desc_data (kernel_of s) endpoint d = Err e →
   Z.of_nat (length goods) < msg_arg1 msg <= SCDK_RING_MAX_ENTRIES →
   ∃ s' r', console_handle_ring_process endpoint msg s = (Err e, s') ∧
     console_up f m0 s' (t_text f out t) ∧ ring_reach (kernel_of s') ring i r' ∧
     ring_fifo r' = mk_fifo cap more' (done' ++ [refused d e])).
Proof.
  intros Hu Hr Hok Hs Hf Hg Hb Hc Hlt Hring Hnz out done'.
  assert (∀ n, 0 < msg_arg1 msg <= SCDK_RING_MAX_ENTRIES → Z.to_nat (msg_arg1 msg) = n →
    console_handle_ring_process endpoint msg s = console_ring_loop endpoint ring n s) as Hstart.
  { intros n Hn <-. unfold SCDK_RING_MAX_ENTRIES in Hn. unfold console_handle_ring_process. rewrite Hring.
    assert (wrap32 (msg_arg1 msg) = msg_arg1 msg) as Ew by (apply Z.mod_small; unfold two32; lia). rewrite Ew.
    rewrite bind_guard by (apply orb_false_iff; split; apply Z.eqb_neq; lia).
    rewrite bind_guard by (rewrite Z.eqb_refl; cbn; apply Z.ltb_ge; unfold SCDK_RING_MAX_ENTRIES; lia).
    unfold kquery. rewrite (bind_query _ _ s endpoint Hb). by rewrite bind_guard by (by rewrite Z.eqb_refl). }
  split.
  - intros Hn Hle. rewrite (Hstart (length goods + 0)%nat Hle ltac:(lia)). unfold SCDK_RING_MAX_ENTRIES in Hle.
    destruct (ring_loop_good f m0 endpoint ring i cap more 0 goods s t r done (200 - 2 * Z.of_nat (length goods)))
      as (s' & r' & E & Hu' & _ & Hr' & _ & _ & Hf' & _); try done; try lia.
    { by replace (2 * Z.of_nat (length goods) + (200 - 2 * Z.of_nat (length goods))) with 200 by lia. }
    exists s', r'. by rewrite E.
  - intros d e more' -> Hd Hn. unfold SCDK_RING_MAX_ENTRIES in Hn.
    rewrite (Hstart (length goods + S (Z.to_nat (msg_arg1 msg) - length goods - 1))%nat
      ltac:(unfold SCDK_RING_MAX_ENTRIES; lia) ltac:(lia)).
    destruct (ring_loop_good f m0 endpoint ring i cap (d :: more') (S (Z.to_nat (msg_arg1 msg) - length goods - 1)) goods
      s t r done (200 - 2 * Z.of_nat (length goods))) as (s1 & r1 & E & Hu1 & Ek1 & Hr1 & Hok1 & Hs1 & Hf1 & _); try done; try lia.
    { by replace (2 * Z.of_nat (length goods) + (200 - 2 * Z.of_nat (length goods))) with 200 by lia. }
    rewrite E. cbn [console_ring_loop]. set (m := 198 - 2 * Z.of_nat (length goods)).
    destruct (consume_run (kernel_of s1) ring i r1 d more' done' cap (m + 1) Hr1 Hok1) as (r2 & E2 & Hok2 & Hs2 & Hf2);
      [unfold m; lia|by replace (m + 1 + 1) with (200 - 2 * Z.of_nat (length goods)) by (unfold m; lia)|done|].
    rewrite (bind_Ok _ _ _ _ _ (onkern_upd _ s1 _ _ E2)). set (s2 := upd_kernel (set_ring i r2 (kernel_of s1)) s1).
    assert (desc_data (kernel_of s2) endpoint d = Err e) as Hd2
      by (rewrite (desc_data_same (kernel_of s)); [done|by unfold s2; rewrite upd_kernel_of, Ek1..]).
    rewrite (bind_Ok _ _ s2 (Err e) s2) by (unfold attempt; by rewrite (ring_write_err s2 endpoint d e Hd2)).
    assert (ring_reach (kernel_of s2) ring i r2) as Hr2 by (unfold s2; rewrite upd_kernel_of; by eapply ring_reach_set).
    destruct (complete_run (kernel_of s2) ring i r2 (refused d e) more' done' cap m Hr2 Hok2) as (r3 & E3 & Hok3 & Hs3 & Hf3);
      [unfold m; lia|done|done|unfold done'; rewrite length_app, length_map; lia|].
    change (mk_completion (rd_op d) (Endpoint.status_word (Err e)) 0 (rd_flags d)) with (refused d e).
    rewrite (bind_Ok _ _ _ _ _ (onkern_upd _ s2 _ _ E3)).
    exists (upd_kernel (set_ring i r3 (kernel_of s2)) s2), r3. split; [done|]. split; [by apply upd_kernel_up, upd_kernel_up|].
    split; [rewrite upd_kernel_of; by eapply ring_reach_set|done].
Qed.

(** A ring bound to the console with a granted text and a descriptor without a
    grant. *)
Definition demo_good : scdk_ring_desc := mk_ring_desc SCDK_RING_OP_CONSOLE_WRITE 4294967296 4294967298 60 4 7.
Definition demo_bad : scdk_ring_desc := mk_ring_desc SCDK_RING_OP_CONSOLE_WRITE 4294967296 0 0 4 8.
Definition demo_ringed : kernel :=
  ((let* ring := scdk_ring_create 0 4 4294967296 in
   scdk_ring_submit ring demo_good ;; scdk_ring_submit ring demo_bad) demo_lent).2.
Definition demo_ringed_ring : scdk_ring := match ring_at demo_ringed 0 with Ok r => r | _ => null_ring end.
Definition demo_ringed_system : system demo_uart :=
  mk_system (machine_of demo_ringed) (mk_log 0 false boot_trace) demo_backend.
Definition demo_process : scdk_message :=
  set_msg_args (scdk_message_init 0 SCDK_SERVICE_CONSOLE SCDK_MSG_RING_PROCESS) 4294967299 2 0 0.

Lemma demo_ringed_reach : ring_reach (kernel_of demo_ringed_system) 4294967299 0 demo_ringed_ring.
Proof. split; vm_compute; reflexivity. Qed.
Lemma demo_ringed_ok : ring_ok demo_ringed_ring ∧ ring_steady demo_ringed_ring 200.
Proof.
  assert (rg_entries demo_ringed_ring = 4) as E by (vm_compute; reflexivity). split.
  - split; (split; [vm_compute; split; [reflexivity|discriminate]|vm_compute; reflexivity|
      vm_compute; split; [discriminate|reflexivity]|vm_compute; split; [discriminate|reflexivity]|vm_compute; discriminate]).
  - unfold ring_steady, steady. rewrite E. split; left; exists 1073741824; reflexivity.
Qed.
Lemma demo_ringed_up : console_up (demo_fb 64) (fb_memory (demo_console 64)) demo_ringed_system t_start.
Proof. destruct demo_system_up. by split. Qed.

Lemma console_ring_exact_witness :
  ∃ s' r', console_handle_ring_process 4294967296 demo_process demo_ringed_system = (Err SCDK_ERR_INVAL, s') ∧
    ring_fifo r' = mk_fifo 4 [] [completed demo_good; refused demo_bad SCDK_ERR_INVAL].
Proof.
  destruct demo_ringed_ok as [Hok Hst].
  destruct (console_ring_exact (demo_fb 64) (fb_memory (demo_console 64)) demo_ringed_system t_start 4294967296
    4294967299 0 demo_ringed_ring 4 [(demo_good, [0; 0; 0; 0])] [demo_bad] [] demo_process) as [_ Hbad].
  - exact demo_ringed_up.
  - exact demo_ringed_reach.
  - exact Hok.
  - exact Hst.
  - vm_compute. reflexivity.
  - apply Forall_cons_2; [|apply Forall_nil_2]. split; [vm_compute; discriminate|vm_compute; reflexivity].
  - vm_compute. reflexivity.
  - vm_compute. reflexivity.
  - vm_compute. reflexivity.
  - reflexivity.
  - discriminate.
  - destruct (Hbad demo_bad SCDK_ERR_INVAL []) as (s' & r' & E & _ & _ & Hf);
      [reflexivity|vm_compute; reflexivity|vm_compute; split; [reflexivity|discriminate]|].
    exists s', r'. split; [exact E|exact Hf].
Defined.
