(* ===== verification/Component.v ===== *)
(** * Components with state of their own

    Endpoint handlers belong to services that keep state beside the machine.
    [Beside U T] says that a state [T] has a part [U] apart from its machine;
    handlers are written against it, so that services can be put together in one
    state. The file also counts what the two core tables have left, since objects
    are never given back. *)
From stdpp Require Import base gmap list numbers relations.
From Stdlib Require Import ZArith Lia.
From S2P Require Import Prelude.
From S2P Require Import Kernel.
From S2P Require Import Object.
From S2P Require Import Capability.
From S2P Require Import Invariant.
From S2P Require Import Endpoint.
From S2P Require Import Usermode.
From S2P Require Import UserMessage.

#[local] Open Scope Z_scope.

Class Beside (U T : Type) `{HasMachine T} := {
  own : T → U;
  put_own : U → T → T;
  own_put u s : own (put_own u s) = u;
  put_own_same s : put_own (own s) s = s;
  put_own_put u u' s : put_own u (put_own u' s) = put_own u s;
  machine_put_own u s : the_machine (put_own u s) = the_machine s;
  own_put_machine m s : own (put_machine m s) = own s
}.
#[global] Hint Mode Beside ! ! - : typeclass_instances.

(** The machine and one component. *)
#[global] Program Instance pair_machine {U} : HasMachine (machine * U) := {|
  the_machine := fst; put_machine := λ m s, (m, s.2) |}.
Solve Obligations with by intros; repeat match goal with p : _ * _ |- _ => destruct p end.
#[global] Program Instance pair_beside {U} : Beside U (machine * U) := {|
  own := snd; put_own := λ u s, (s.1, u) |}.
Solve Obligations with by intros; repeat match goal with p : _ * _ |- _ => destruct p end.

(** ** Operations on the parts *)
Section parts.
Context {U T : Type} `{Beside U T}.
Implicit Types (s : T) (u : U).

Definition onown {A} (m : M U A) : M T A := zoom own put_own m.

(** The message a handler leaves behind: its reply, or the request on an error. *)
Definition answers (msg : scdk_message) (m : M T scdk_message) : M T (scdk_message * result unit) :=
  let* r := attempt m in
  match r with
  | Ok reply => ret (reply, Ok tt)
  | Err e => ret (msg, Err e)
  | Ub => ub
  end.

Definition put_kernel (k : kernel) s : T := put_machine (set_kernel k (the_machine s)) s.
Lemma kernel_put_kernel k s : kernel_of (put_kernel k s) = k.
Proof. unfold put_kernel. by rewrite kernel_put. Qed.
Lemma own_put_kernel k s : own (U:=U) (put_kernel k s) = own s.
Proof. apply own_put_machine. Qed.
Lemma kernel_put_own u s : kernel_of (put_own u s) = kernel_of s.
Proof. unfold kernel_of, machine_kernel. by rewrite machine_put_own. Qed.
Lemma put_kernel_put k k' s : put_kernel k (put_kernel k' s) = put_kernel k s.
Proof. unfold put_kernel. by rewrite machine_put, put_put. Qed.
Lemma put_kernel_same s : put_kernel (kernel_of s) s = s.
Proof.
  unfold put_kernel, kernel_of, machine_kernel. replace (set_kernel _ _) with (the_machine s); [apply put_same|].
  by destruct (the_machine s).
Qed.
Lemma onkern_put {A} (o : K A) s a k : o (kernel_of s) = (a, k) → onkern o s = (a, put_kernel k s).
Proof. intros E. rewrite onkern_run, E. done. Qed.
Lemma onkern_same {A} (o : K A) s a : o (kernel_of s) = (a, kernel_of s) → onkern o s = (a, s).
Proof. intros E. rewrite (onkern_put _ _ _ _ E). by rewrite put_kernel_same. Qed.
Lemma onown_read {A} (m : M U A) s a : m (own s) = (a, own s) → onown m s = (a, s).
Proof. intros E. unfold onown, zoom. rewrite E. by rewrite put_own_same. Qed.
Lemma answers_eq msg (op : M T scdk_message) s :
  answers msg op s =
  match op s with
  | (Ok reply, s') => (Ok (reply, Ok tt), s')
  | (Err e, s') => (Ok (msg, Err e), s')
  | (Ub, s') => (Ub, s')
  end.
Proof. unfold answers, bind, attempt. by destruct (op s) as [[]]. Qed.
Lemma onown_modify f s : onown (modify f) s = (Ok tt, put_own (f (own s)) s).
Proof. done. Qed.
End parts.

(** ** Free slots of the core tables *)
Lemma filter_insert_length {A} (P : A → Prop) `{∀ x, Decision (P x)} (l : list A) : ∀ i x y,
  l !! i = Some x → P x → ¬ P y → length (filter P l) = S (length (filter P (<[i := y]> l))).
Proof.
  induction l as [|z l IH]; intros i x y Hi Hx Hy; [done|]. destruct i as [|i]; simpl in Hi.
  - injection Hi as ->. change (<[0%nat := y]> (x :: l)) with (y :: l).
    by rewrite filter_cons_True, filter_cons_False by done.
  - change (<[S i := y]> (z :: l)) with (z :: <[i := y]> l). rewrite !filter_cons.
    pose proof (IH i x y Hi Hx Hy) as E. by case_decide; simpl; rewrite E.
Qed.
Lemma filter_none_length {A} (P : A → Prop) `{∀ x, Decision (P x)} (l : list A) :
  (∀ i x, l !! i = Some x → ¬ P x) ↔ length (filter P l) = 0%nat.
Proof.
  rewrite length_zero_iff_nil. split.
  - intros Hn. destruct (filter P l) as [|x r] eqn:E; [done|].
    assert (x ∈ filter P l) as [Hx Hin]%list_elem_of_filter by (rewrite E; constructor).
    apply list_elem_of_lookup in Hin as [i Hi]. by destruct (Hn i x).
  - intros E i x Hi Hx. assert (x ∈ filter P l) as Hin.
    { apply list_elem_of_filter. split; [done|by eapply list_elem_of_lookup_2]. }
    rewrite E in Hin. by apply not_elem_of_nil in Hin.
Qed.

Definition free_objects (k : kernel) : nat :=
  length (filter (λ o, obj_type o = SCDK_OBJ_NONE) (object_table (k_objs k))).
Definition free_caps (k : kernel) : nat := length (filter (λ e, ¬ cap_live e) (cap_table (k_caps k))).

Section free_slots.
Implicit Types k : kernel.

Lemma object_create_count k type owner flags pl :
  objects_wf (k_objs k) → type ≠ SCDK_OBJ_NONE → owner < SCDK_MAX_CORES →
  (free_objects k = 0%nat ∧ scdk_object_create type owner flags pl k = (Err SCDK_ERR_NOMEM, k)) ∨
  (∃ id k', scdk_object_create type owner flags pl k = (Ok id, k') ∧
     object_created k k' id type owner flags pl ∧ free_objects k = S (free_objects k')).
Proof.
  intros Hwf Ht Ho. destruct (scdk_object_create type owner flags pl k) as [r k'] eqn:E.
  destruct (object_create_inv _ _ _ _ _ _ _ E Hwf)
    as [(_ & _ & [?|?])|[(-> & -> & Hn)|(i & o0 & g & _ & _ & Hi & Hz & Hg & -> & Ek)]]; [done|lia| |].
  - left. split; [|done]. by apply filter_none_length.
  - right. eexists _, k'. split; [done|]. split; [by apply object_create_Ok|]. rewrite Ek.
    unfold free_objects. cbn [set_object set_object_generation set_objs k_objs object_table].
    by eapply filter_insert_length.
Qed.
Lemma cap_create_count k oid rights o :
  caps_wf k → rights ≠ 0 → scdk_object_lookup k oid = Ok o →
  (free_caps k = 0%nat ∧ scdk_cap_create oid rights k = (Err SCDK_ERR_NOMEM, k)) ∨
  (∃ c k', scdk_cap_create oid rights k = (Ok c, k') ∧ cap_created k k' c oid rights ∧
     free_caps k = S (free_caps k')).
Proof.
  intros Hwf Hr Ho. destruct (scdk_cap_create oid rights k) as [r k'] eqn:E.
  destruct (cap_create_inv _ _ _ _ _ E Hwf)
    as [(e & -> & -> & [(? & _)|[(_ & He)|(_ & -> & Hl)]])|(o' & i & e0 & g & _ & Ho' & Hi & Hd & Hg & -> & Ek)];
    [done|congruence| |].
  - left. split; [|done]. apply filter_none_length. intros i e Hi Hn. by apply Hn, (Hl i).
  - right. eexists _, k'. split; [done|]. split; [by apply cap_create_Ok|]. rewrite Ek.
    unfold free_caps. cbn [set_cap_entry set_cap_generation set_caps k_caps cap_table].
    eapply filter_insert_length; [done|done|]. intros Hn. apply Hn. split; [|done]. cbn.
    apply object_lookup_Ok in Ho' as (? & _ & _ & -> & _ & ? & _). done.
Qed.
End free_slots.

(** ** Growth *)

(** A step that changes the core tables by new objects and capabilities only. *)
Record grown (k k' : kernel) : Prop := {
  gw_vmm : k_vmm k' = k_vmm k;
  gw_pmm : k_pmm k' = k_pmm k;
  gw_heap : k_heap k' = k_heap k;
  gw_eps : k_eps k' = k_eps k;
  gw_caps c e : u64 c → scdk_cap_lookup k c = Ok e → scdk_cap_lookup k' c = Ok e;
  gw_objects id o : scdk_object_lookup k id = Ok o → scdk_object_lookup k' id = Ok o
}.
#[global] Instance grown_preorder : PreOrder grown.
Proof.
  split; [done|]. intros k1 k2 k3 [] [].
  split; [congruence..| |]; auto.
Qed.
Lemma object_grown k k' id ty o fl pl : caps_wf k → object_created k k' id ty o fl pl → grown k k'.
Proof.
  intros Hwf Hoc. pose proof (oc_frame _ _ _ _ _ _ _ Hoc) as Hf.
  split; [by rewrite Hf..| |apply Hoc]. intros c e _. by eapply object_created_caps.
Qed.
Lemma cap_grown k k' c oid rights : cap_created k k' c oid rights → grown k k'.
Proof.
  intros Hcc. pose proof (cc_frame _ _ _ _ _ Hcc) as Hf. split; [by rewrite Hf..|apply Hcc|].
  intros id o. rewrite <-(object_lookup_objs k' k); [done|]. by rewrite Hf.
Qed.

(** ** A new object with one capability *)
Record minted (k k' : kernel) (ty : Z) (pl : payload) (rights oid c : Z) : Prop := {
  mn_wf : kernel_wf k';
  mn_grown : grown k k';
  mn_u64 : u64 c;
  mn_nonzero : c ≠ 0;
  mn_fresh : ∀ e, scdk_cap_lookup k c ≠ Ok e;
  mn_cap : ∃ g, scdk_cap_lookup k' c = Ok (mk_cap_entry oid g ty 0 rights);
  mn_object : ∃ g o, scdk_object_lookup k' oid = Ok (mk_object oid ty g o 0 pl);
  mn_only : ∀ id o, scdk_object_lookup k' id = Ok o →
    scdk_object_lookup k id = Ok o ∨ (id = oid ∧ obj_payload o = pl);
  mn_objects : free_objects k = S (free_objects k');
  mn_caps : free_caps k = S (free_caps k')
}.
Lemma mint_run k ty owner pl rights :
  kernel_wf k → payload_typed ty pl → ty ≠ SCDK_OBJ_NONE → owner < SCDK_MAX_CORES → rights ≠ 0 →
  (0 < free_objects k)%nat → (0 < free_caps k)%nat →
  ∃ oid k1 c k2, scdk_object_create ty owner 0 pl k = (Ok oid, k1) ∧
    scdk_cap_create oid rights k1 = (Ok c, k2) ∧ minted k k2 ty pl rights oid c.
Proof.
  intros Hwf Hp Ht Ho Hr Hfo Hfc.
  destruct (object_create_count k ty owner 0 pl) as [[E0 _]|(oid & k1 & E1 & Hoc & Eo)]; [apply Hwf|done|done|lia|].
  pose proof (object_created_kwf _ _ _ _ _ _ _ Hwf Hoc Hp) as Hwf1.
  destruct (oc_lookup _ _ _ _ _ _ _ Hoc) as (g & _ & Hobj).
  assert (free_caps k = free_caps k1) as Efc by (unfold free_caps; by rewrite (oc_frame _ _ _ _ _ _ _ Hoc)).
  destruct (cap_create_count k1 oid rights _ (kwf_caps _ Hwf1) Hr Hobj) as [[E0 _]|(c & k2 & E2 & Hcc & Ec)]; [lia|].
  assert (∀ id, scdk_object_lookup k2 id = scdk_object_lookup k1 id) as Hl.
  { intros id. apply object_lookup_objs. by rewrite (cc_frame _ _ _ _ _ Hcc). }
  exists oid, k1, c, k2. split; [done|]. split; [done|]. split.
  - eapply cap_table_only_kwf; [done|apply Hcc..].
  - etrans; [by eapply object_grown; [apply Hwf|]|by eapply cap_grown].
  - apply Hcc.
  - apply Hcc.
  - intros e He. eapply (cc_fresh _ _ _ _ _ Hcc). eapply object_created_caps; [apply Hwf|done|done].
  - destruct (cc_lookup _ _ _ _ _ Hcc) as (o & Ho' & Hc). rewrite Hobj in Ho'. injection Ho' as <-. by exists g.
  - rewrite Hl. eauto.
  - intros id o. rewrite Hl. intros [?|(-> & _ & -> & _)]%(oc_only _ _ _ _ _ _ _ Hoc); [by left|by right].
  - rewrite Eo. f_equal. unfold free_objects. by rewrite (cc_frame _ _ _ _ _ Hcc).
  - congruence.
Qed.
