(* ===== verification/Files.v ===== *)
(** * File services ([src/services/tmpfs_service.c], [src/services/vfs_service.c])

    The tmpfs service keeps a table of 32 open files, each an object with a
    capability over the contents of a boot file. The VFS service checks that a
    path is absolute and forwards the message to tmpfs. Both are endpoint
    handlers; their state is a part of the state handlers run on
    ([Component.Beside]).

    A file is read with [memcpy] to the address in the message. The address is
    translated by the walk of [UserMemory.mmu], which also covers the kernel
    addresses that the kernel maps itself, the heap; an address outside these
    (the direct map, the kernel image) has no meaning here. *)
From stdpp Require Import base gmap list numbers relations.
From Stdlib Require Import ZArith Lia.
From S2P Require Import Prelude.
From S2P Require Import Kernel.
From S2P Require Import Object.
From S2P Require Import Capability.
From S2P Require Import Invariant.
From S2P Require Import Endpoint.
From S2P Require Import Pmm.
From S2P Require Import Vmm.
From S2P Require Import HeapVm.
From S2P Require Import CString.
From S2P Require Import Initrd.
From S2P Require Import UserMemory.
From S2P Require Import UserGrant.
From S2P Require Import Usermode.
From S2P Require Import UserMessage.
From S2P Require Import Component.

#[local] Open Scope Z_scope.

Definition SCDK_TMPFS_MAX_OPEN_FILES : Z := 32.

Record scdk_tmpfs_file := mk_file {
  tf_object_id : Z;
  tf_cap : Z;
  tf_backing : scdk_initrd_entry;
  tf_open : bool
}.
Definition null_file : scdk_tmpfs_file := mk_file 0 0 entry_zero false.

(** The static variables of the two files and of the boot file system. *)
Record files := mk_files {
  fl_initrd : initrd;
  open_files : list scdk_tmpfs_file;
  tmpfs_started : bool;
  root_tmpfs_endpoint : Z;
  vfs_started : bool
}.
Definition boot_files : files :=
  mk_files boot_initrd (zeroed SCDK_TMPFS_MAX_OPEN_FILES null_file) false 0 false.

Definition set_open_files (l : list scdk_tmpfs_file) (f : files) : files :=
  mk_files (fl_initrd f) l (tmpfs_started f) (root_tmpfs_endpoint f) (vfs_started f).
Definition set_file (i : nat) (x : scdk_tmpfs_file) (f : files) : files :=
  set_open_files (<[i := x]> (open_files f)) f.
Definition upd_file (i : nat) (g : scdk_tmpfs_file → scdk_tmpfs_file) (f : files) : files :=
  set_open_files (alter g i (open_files f)) f.
Definition set_tmpfs_started (f : files) : files :=
  mk_files (fl_initrd f) (open_files f) true (root_tmpfs_endpoint f) (vfs_started f).
Definition set_mounted (root : Z) (f : files) : files :=
  mk_files (fl_initrd f) (open_files f) (tmpfs_started f) root true.

Abbreviation the_files := (own (U:=files)).
Abbreviation put_files := (put_own (U:=files)).

(** ** The tmpfs service *)

(** The file an object's payload points to ([None] when null). *)
Definition file_payload (p : payload) : result (option nat) :=
  match p with
  | P_null => Ok None
  | P_file i => Ok (Some i)
  | _ => Ub
  end.
Definition tmpfs_slot_for_cap (k : kernel) (fs : files) (file_cap : Z) : result nat :=
  let? entry := scdk_cap_check k file_cap SCDK_RIGHT_READ SCDK_OBJ_FILE in
  let? object := scdk_object_lookup k (ce_object_id entry) in
  let? slot := file_payload (obj_payload object) in
  match slot with
  | None => Err SCDK_ERR_NOENT
  | Some i =>
      let? file := deref (open_files fs !! i) in
      let? _ := rguard (negb (tf_object_id file =? ce_object_id entry) || negb (tf_open file)) SCDK_ERR_NOENT in
      Ok i
  end.

Definition alloc_open_file_slot (fs : files) : option nat := find_slot (λ f, negb (tf_open f)) (open_files fs).

(** [payload] are the bytes at the address in [arg0]. The bytes of the local
    buffer are taken to be zero before it is written. *)
Definition tmpfs_path_from_message (payload : option (list Z)) (msg : scdk_message) (path_size : nat)
  : result (list Z) :=
  let? _ := rguard ((path_size =? 0)%nat || (msg_arg0 msg =? 0)) SCDK_ERR_INVAL in
  let? bytes := deref payload in
  let? path_length := if msg_arg1 msg =? 0 then let? n := strlen bytes in Ok (Z.of_nat n)
                      else Ok (msg_arg1 msg) in
  let? _ := rguard ((path_length =? 0) || (Z.of_nat path_size - 1 <? path_length)) SCDK_ERR_BOUNDS in
  let? bounded_path := memcpy (replicate path_size 0) 0 bytes (Z.to_nat path_length) in
  store8 bounded_path (Z.to_nat path_length) 0.

(** Directory entries in memory: the name, then the two words. *)
Definition dirent_size : Z := 80.
Definition dirent_bytes (d : scdk_vfs_dirent) : list Z :=
  vd_name d ++ le_bytes 8 (vd_type d) ++ le_bytes 8 (vd_size d).
Definition dirent_of_bytes (bs : list Z) : scdk_vfs_dirent := {|
  vd_name := take SCDK_VFS_MAX_NAME bs;
  vd_type := le_word (take 8 (drop SCDK_VFS_MAX_NAME bs));
  vd_size := le_word (take 8 (drop (SCDK_VFS_MAX_NAME + 8) bs)) |}.
Fixpoint dirents_of_bytes (n : nat) (bs : list Z) : list scdk_vfs_dirent :=
  match n with O => [] | S n => dirent_of_bytes (take 80 bs) :: dirents_of_bytes n (drop 80 bs) end.

Section tmpfs.
Context {T : Type} `{Beside files T}.
Implicit Types (msg : scdk_message) (s : T).

(** From the free slot on. *)
Definition tmpfs_open_slot (i : nat) (backing : scdk_initrd_entry) msg : M T scdk_message :=
  let* object_id := onkern (scdk_object_create SCDK_OBJ_FILE SCDK_BOOT_CORE 0 (P_file i)) in
  let* cap := recover (onkern (scdk_cap_create object_id SCDK_RIGHT_READ))
    (onown (modify (upd_file i (λ f, mk_file 0 (tf_cap f) (tf_backing f) (tf_open f))))) in
  onown (modify (set_file i (mk_file object_id cap backing true))) ;;
  ret (set_msg_args msg cap (ie_size backing) (msg_arg2 msg) (msg_arg3 msg)).
Definition tmpfs_handle_open (payload : option (list Z)) msg : M T scdk_message :=
  let* path := lift (tmpfs_path_from_message payload msg SCDK_INITRD_MAX_PATH) in
  let* backing := onown (query (λ fs, scdk_initrd_find (fl_initrd fs) path)) in
  let* slot := onown (gets alloc_open_file_slot) in
  match slot with
  | None => fail SCDK_ERR_NOMEM
  | Some i => tmpfs_open_slot i backing msg
  end.

Definition tmpfs_handle_stat (payload : option (list Z)) msg : M T scdk_message :=
  let* path := lift (tmpfs_path_from_message payload msg SCDK_INITRD_MAX_PATH) in
  let* stat := onown (query (λ fs, scdk_initrd_stat (fl_initrd fs) path)) in
  ret (set_msg_args msg (vs_type stat) (vs_size stat) 0 0).

(** The caller's array is read and written back whole, so one that is not mapped
    counts as undefined even where the code returns before it clears it. *)
Definition tmpfs_handle_listdir (payload : option (list Z)) msg : M T scdk_message :=
  guard ((msg_arg2 msg =? 0) || (msg_arg3 msg <? dirent_size)) SCDK_ERR_INVAL ;;
  let* path := lift (tmpfs_path_from_message payload msg SCDK_INITRD_MAX_PATH) in
  let capacity := Z.to_nat (msg_arg3 msg / dirent_size) in
  let* bytes := onkern (query (λ k, user_load k (msg_arg2 msg) (80 * capacity))) in
  let* fs := onown (gets fl_initrd) in
  let out := scdk_initrd_listdir fs path capacity (dirents_of_bytes capacity bytes) in
  onkern (user_store (msg_arg2 msg) (out.2 ≫= dirent_bytes) (80 * capacity)) ;;
  let* count := lift out.1 in
  ret (set_msg_args msg (Z.of_nat count) 0 0 0).

Definition tmpfs_handle_read msg : M T scdk_message :=
  guard (msg_arg2 msg =? 0) SCDK_ERR_INVAL ;;
  let* i := query (λ s, tmpfs_slot_for_cap (kernel_of s) (the_files s) (msg_arg0 msg)) in
  let offset := msg_arg1 msg in
  let requested := msg_arg3 msg in
  let reply n := set_msg_args msg n (msg_arg1 msg) (msg_arg2 msg) (msg_arg3 msg) in
  if requested =? 0 then ret (reply 0)
  else
    let* file := onown (query (λ fs, deref (open_files fs !! i))) in
    let size := ie_size (tf_backing file) in
    guard (size <? offset) SCDK_ERR_BOUNDS ;;
    let available := size - offset in
    let to_copy := if requested <? available then requested else available in
    let* data := lift (deref (ie_data (tf_backing file))) in
    onkern (user_store (msg_arg2 msg) (drop (Z.to_nat offset) data) (Z.to_nat to_copy)) ;;
    ret (reply to_copy).

Definition tmpfs_handle_close msg : M T scdk_message :=
  let* i := query (λ s, tmpfs_slot_for_cap (kernel_of s) (the_files s) (msg_arg0 msg)) in
  onown (modify (upd_file i (λ f, mk_file (tf_object_id f) (tf_cap f) (tf_backing f) false))) ;;
  ret msg.

Definition tmpfs_endpoint_handler_fn (payload : option (list Z)) (endpoint : Z) msg (context : Z)
  : M T (scdk_message * result unit) :=
  if msg_type msg =? SCDK_MSG_OPEN then answers msg (tmpfs_handle_open payload msg)
  else if msg_type msg =? SCDK_MSG_STAT then answers msg (tmpfs_handle_stat payload msg)
  else if msg_type msg =? SCDK_MSG_LISTDIR then answers msg (tmpfs_handle_listdir payload msg)
  else if msg_type msg =? SCDK_MSG_READ then answers msg (tmpfs_handle_read msg)
  else if msg_type msg =? SCDK_MSG_CLOSE then answers msg (tmpfs_handle_close msg)
  else ret (msg, Err SCDK_ERR_NOTSUP).

Definition scdk_tmpfs_service_init : M T Z :=
  let* started := onown (gets tmpfs_started) in
  guard started SCDK_ERR_BUSY ;;
  let* endpoint := onkern (scdk_endpoint_create SCDK_BOOT_CORE (Some tmpfs_endpoint_handler) 0) in
  onkern (scdk_service_register SCDK_SERVICE_TMPFS endpoint) ;;
  onown (modify set_tmpfs_started) ;;
  ret endpoint.

(** ** The VFS service *)

(** Both branches of the code look at the first byte only. *)
Definition path_under_root (path : option (list Z)) (path_length : Z) : result bool :=
  match path with
  | None => Ok false
  | Some path =>
      let? c := load8 path 0 in
      if path_length =? 0 then Ok (c =? c_slash) else Ok ((0 <? path_length) && (c =? c_slash))
  end.

Section vfs.
Context (invoke : handler_on T).

Definition vfs_forward_to_tmpfs msg : M T (scdk_message * result unit) :=
  let* root := onown (gets root_tmpfs_endpoint) in
  if root =? 0 then ret (msg, Err SCDK_ERR_INVAL)
  else
    let* reply := scdk_endpoint_call invoke root (set_msg_target msg SCDK_SERVICE_TMPFS) in
    ret (set_msg_target reply.1 SCDK_SERVICE_VFS, reply.2).

(** [null] is the status for a null path. *)
Definition vfs_handle_path (null : err) (payload : option (list Z)) msg : M T (scdk_message * result unit) :=
  if msg_arg0 msg =? 0 then ret (msg, Err null)
  else
    let* path := lift (deref payload) in
    let* under := lift (path_under_root (Some path) (msg_arg1 msg)) in
    if (under : bool) then vfs_forward_to_tmpfs msg else ret (msg, Err SCDK_ERR_NOENT).
Definition vfs_handle_open := vfs_handle_path SCDK_ERR_INVAL.

Definition vfs_endpoint_handler_fn (payload : option (list Z)) (endpoint : Z) msg (context : Z)
  : M T (scdk_message * result unit) :=
  if msg_type msg =? SCDK_MSG_OPEN then vfs_handle_open payload msg
  else if (msg_type msg =? SCDK_MSG_STAT) || (msg_type msg =? SCDK_MSG_LISTDIR) then
    vfs_handle_path SCDK_ERR_NOENT payload msg
  else if (msg_type msg =? SCDK_MSG_READ) || (msg_type msg =? SCDK_MSG_CLOSE) then vfs_forward_to_tmpfs msg
  else ret (msg, Err SCDK_ERR_NOTSUP).
End vfs.

(** The handlers with the file services among them. A handler calls endpoints,
    so the depth of the calls is bounded; two are enough for a file. *)
Fixpoint file_services (other : option (list Z) → handler_on T) (depth : nat) (payload : option (list Z))
  : handler_on T := λ h endpoint msg context,
  match depth with
  | O => ub
  | S depth =>
      match h with
      | tmpfs_endpoint_handler => tmpfs_endpoint_handler_fn payload endpoint msg context
      | vfs_endpoint_handler =>
          vfs_endpoint_handler_fn (file_services other depth payload) payload endpoint msg context
      | _ => other payload h endpoint msg context
      end
  end.

Definition scdk_vfs_service_init : M T Z :=
  let* started := onown (gets vfs_started) in
  guard started SCDK_ERR_BUSY ;;
  let* tmpfs_endpoint := onkern (query (λ k, scdk_service_lookup k SCDK_SERVICE_TMPFS)) in
  onkern (query (λ k, scdk_cap_check k tmpfs_endpoint SCDK_RIGHT_SEND SCDK_OBJ_ENDPOINT)) ;;
  let* endpoint := onkern (scdk_endpoint_create SCDK_BOOT_CORE (Some vfs_endpoint_handler) 0) in
  onkern (scdk_service_register SCDK_SERVICE_VFS endpoint) ;;
  onown (modify (set_mounted tmpfs_endpoint)) ;;
  ret endpoint.
End tmpfs.

(** ** Slots and capabilities *)
Section slots.
Implicit Types (k : kernel) (fs : files) (c : Z).

Lemma file_slot_Ok k fs c i :
  tmpfs_slot_for_cap k fs c = Ok i ↔
  ∃ e o f, scdk_cap_check k c SCDK_RIGHT_READ SCDK_OBJ_FILE = Ok e ∧
    scdk_object_lookup k (ce_object_id e) = Ok o ∧ obj_payload o = P_file i ∧
    open_files fs !! i = Some f ∧ tf_object_id f = ce_object_id e ∧ tf_open f = true.
Proof.
  unfold tmpfs_slot_for_cap. split.
  - intros H. do 3 minv_step H. unfold file_payload in E1.
    destruct (obj_payload a0) eqn:Ep; try discriminate E1; injection E1 as <-; [done|].
    minv H. bsplit. eauto 10.
  - intros (e & o & f & -> & Ho & Hp & Hf & Hid & Hopen). simpl. rewrite Ho. simpl. rewrite Hp. simpl.
    rewrite Hf. simpl. by rewrite Hid, Z.eqb_refl, Hopen.
Qed.

(** The tables of the kernel and of the service agree. *)
Record files_ok k fs (boot : list (list Z * list Z)) : Prop := {
  fo_kernel : kernel_wf k;
  fo_length : length (open_files fs) = Z.to_nat SCDK_TMPFS_MAX_OPEN_FILES;
  fo_slot id o i : scdk_object_lookup k id = Ok o → obj_payload o = P_file i →
    (i < length (open_files fs))%nat;
  fo_open i f : open_files fs !! i = Some f → tf_open f = true →
    u64 (tf_cap f) ∧ tmpfs_slot_for_cap k fs (tf_cap f) = Ok i;
  fo_only c i f : u64 c → tmpfs_slot_for_cap k fs c = Ok i → open_files fs !! i = Some f → c = tf_cap f;
  fo_backing i f : open_files fs !! i = Some f → tf_open f = true →
    ∃ x, x ∈ boot ∧ entry_rep (tf_backing f) x;
  fo_boot : initrd_rep (fl_initrd fs) boot;
  fo_ready : initrd_initialized (fl_initrd fs) = true;
  fo_bytes : Forall (λ x, Forall byte x.2) boot
}.

Lemma file_slot_defined k fs boot c : files_ok k fs boot → defined (tmpfs_slot_for_cap k fs c).
Proof.
  intros Hok. pose proof (fo_kernel _ _ _ Hok) as Hwf. unfold tmpfs_slot_for_cap.
  apply rbind_defined; [apply cap_check_defined, Hwf|intros e He].
  apply rbind_defined; [apply object_lookup_defined, Hwf|intros o Ho].
  assert (payload_typed SCDK_OBJ_FILE (obj_payload o)) as Hp
    by (by eapply checked_payload; [..|exact He|exact Ho]).
  unfold file_payload. payload_cases (obj_payload o) Hp; [done|]. simpl.
  destruct (lookup_lt_is_Some_2 (open_files fs) i) as [f ->]; [by eapply fo_slot|]. simpl.
  by destruct (_ || _).
Qed.

(** ** The open files as a map from capabilities to contents *)
Definition contents_of (f : scdk_tmpfs_file) : list Z := default [] (file_bytes (tf_backing f)).
Definition open_pair (f : scdk_tmpfs_file) : option (Z * list Z) :=
  if tf_open f then Some (tf_cap f, contents_of f) else None.
Definition handles fs : gmap Z (list Z) := list_to_map (omap open_pair (open_files fs)).

Lemma open_pair_elem fs c d :
  (c, d) ∈ omap open_pair (open_files fs) ↔
  ∃ i f, open_files fs !! i = Some f ∧ tf_open f = true ∧ tf_cap f = c ∧ contents_of f = d.
Proof.
  rewrite list_elem_of_omap. unfold open_pair. split.
  - intros (f & [i Hi]%list_elem_of_lookup & Hf). destruct (tf_open f) eqn:Ho; [|done].
    injection Hf as <- <-. eauto 10.
  - intros (i & f & Hi & Ho & <- & <-). exists f. split; [by eapply list_elem_of_lookup_2|]. by rewrite Ho.
Qed.

Lemma open_slot_unique k fs boot i j f g :
  files_ok k fs boot → open_files fs !! i = Some f → open_files fs !! j = Some g →
  tf_open f = true → tf_open g = true → tf_cap f = tf_cap g → i = j.
Proof.
  intros Hok Hi Hj Hf Hg Heq. destruct (fo_open _ _ _ Hok i f Hi Hf) as [_ Ei].
  destruct (fo_open _ _ _ Hok j g Hj Hg) as [_ Ej]. rewrite Heq in Ei. congruence.
Qed.

Lemma omap_caps_nodup (l : list scdk_tmpfs_file) :
  (∀ i j f g, l !! i = Some f → l !! j = Some g → tf_open f = true → tf_open g = true →
     tf_cap f = tf_cap g → i = j) → NoDup (omap open_pair l).*1.
Proof.
  induction l as [|f l IH]; intros Hu; [constructor|].
  assert (NoDup (omap open_pair l).*1) as Hn.
  { apply IH. intros i j g h Hi Hj Hg Hh E. by apply (Nat.succ_inj i j), (Hu (S i) (S j) g h). }
  simpl. unfold open_pair at 1. destruct (tf_open f) eqn:Ho; [|done]. simpl. apply NoDup_cons. split; [|done].
  intros Hin. apply list_elem_of_fmap in Hin as ([c d] & Hc & Hin). apply list_elem_of_omap in Hin as (g & Hg & E).
  unfold open_pair in E. destruct (tf_open g) eqn:Hgo; [|done]. injection E as Eg _.
  apply list_elem_of_lookup in Hg as [j Hj]. simpl in Hc. subst c.
  by discriminate (Hu 0%nat (S j) f g eq_refl Hj Ho Hgo).
Qed.

Lemma handles_nodup k fs boot : files_ok k fs boot → NoDup (omap open_pair (open_files fs)).*1.
Proof. intros Hok. apply omap_caps_nodup. intros. by eapply open_slot_unique. Qed.

Lemma handles_lookup k fs boot c d :
  files_ok k fs boot →
  handles fs !! c = Some d ↔
  u64 c ∧ ∃ i f, tmpfs_slot_for_cap k fs c = Ok i ∧ open_files fs !! i = Some f ∧ contents_of f = d.
Proof.
  intros Hok. unfold handles.
  rewrite <-elem_of_list_to_map by (by eapply handles_nodup). rewrite open_pair_elem. split.
  - intros (i & f & Hi & Ho & <- & <-). destruct (fo_open _ _ _ Hok i f Hi Ho) as [Hu Hs]. eauto 10.
  - intros (Hu & i & f & Hs & Hi & <-). exists i, f. apply file_slot_Ok in Hs as Hs'.
    destruct Hs' as (e & o & f' & _ & _ & _ & Hf & _ & Ho). rewrite Hi in Hf. injection Hf as <-.
    split_and!; [done|done| |done]. symmetry. by eapply fo_only.
Qed.

(** All slots open means all handles used. *)
Lemma handles_full k fs boot :
  files_ok k fs boot → alloc_open_file_slot fs = None → size (handles fs) = Z.to_nat SCDK_TMPFS_MAX_OPEN_FILES.
Proof.
  intros Hok Hn. unfold handles. rewrite map_size_list_to_map by (by eapply handles_nodup).
  rewrite <-(fo_length _ _ _ Hok). unfold alloc_open_file_slot in Hn. rewrite find_slot_None in Hn.
  clear Hok. induction (open_files fs) as [|f l IH]; [done|]. simpl. unfold open_pair at 1.
  pose proof (Hn 0%nat f eq_refl) as Hf. apply negb_false_iff in Hf. rewrite Hf. simpl. f_equal.
  apply IH. intros j y Hj. by apply (Hn (S j)).
Qed.
Lemma handles_room k fs boot i :
  files_ok k fs boot → alloc_open_file_slot fs = Some i → (size (handles fs) < Z.to_nat SCDK_TMPFS_MAX_OPEN_FILES)%nat.
Proof.
  intros Hok Hi. unfold handles. rewrite map_size_list_to_map by (by eapply handles_nodup).
  rewrite <-(fo_length _ _ _ Hok). apply find_slot_Some in Hi as [(f & Hf & Ho) _]. apply negb_true_iff in Ho.
  clear Hok. revert i Hf. induction (open_files fs) as [|g l IH]; intros i Hf; [done|].
  assert (∀ g' l', length (omap open_pair (g' :: l')) =
    ((if tf_open g' then 1 else 0) + length (omap open_pair l'))%nat) as Hcons.
  { intros g' l'. simpl. unfold open_pair at 1. by destruct (tf_open g'). }
  assert (length (omap open_pair l) ≤ length l)%nat as Hle.
  { clear -Hcons. induction l as [|h l IH]; [done|]. rewrite Hcons. cbn [length]. destruct (tf_open h); lia. }
  rewrite Hcons. cbn [length]. destruct i as [|i]; simpl in Hf.
  - injection Hf as ->. rewrite Ho. lia.
  - specialize (IH i Hf). destruct (tf_open g); lia.
Qed.
End slots.

(** ** Opening and closing, on the tables *)
Section tables.
Implicit Types (k : kernel) (fs : files) (boot : list (list Z * list Z)) (c : Z).

Definition file_closed fs (i : nat) : Prop := ∃ f, open_files fs !! i = Some f ∧ tf_open f = false.
Lemma alloc_closed fs i : alloc_open_file_slot fs = Some i → file_closed fs i.
Proof. intros [(f & Hf & Ho) _]%find_slot_Some. apply negb_true_iff in Ho. by exists f. Qed.
Lemma slot_not_closed k fs c i : tmpfs_slot_for_cap k fs c = Ok i → ¬ file_closed fs i.
Proof.
  intros (e & o & f & _ & _ & _ & Hf & _ & Ho)%file_slot_Ok (g & Hg & Hc). congruence.
Qed.

(** The kernel and the table change without a change of what any capability
    designates. *)
Lemma files_ok_same k k' fs fs' boot :
  files_ok k fs boot → kernel_wf k' → fl_initrd fs' = fl_initrd fs → length (open_files fs') = length (open_files fs) →
  (∀ id o i, scdk_object_lookup k' id = Ok o → obj_payload o = P_file i → (i < length (open_files fs))%nat) →
  (∀ i f, tf_open f = true → open_files fs' !! i = Some f ↔ open_files fs !! i = Some f) →
  (∀ c i, u64 c → tmpfs_slot_for_cap k' fs' c = Ok i ↔ tmpfs_slot_for_cap k fs c = Ok i) →
  files_ok k' fs' boot ∧ handles fs' = handles fs.
Proof.
  intros Hok Hwf Hb Hl Hs Hf Hc. assert (files_ok k' fs' boot) as Hok'.
  { split; [done|rewrite Hl; apply Hok| | | | |rewrite Hb; apply Hok..|apply Hok].
    - rewrite Hl. apply Hs.
    - intros i f Hi Ho. rewrite Hf in Hi by done. destruct (fo_open _ _ _ Hok i f Hi Ho) as [Hu E].
      by rewrite Hc.
    - intros c i f Hu Ec Hi. apply file_slot_Ok in Ec as Ec'. destruct Ec' as (? & ? & f' & _ & _ & _ & Hf' & _ & Ho).
      rewrite Hi in Hf'. injection Hf' as <-. rewrite Hf in Hi by done. rewrite Hc in Ec by done. by eapply fo_only.
    - intros i f Hi Ho. rewrite Hf in Hi by done. by eapply fo_backing. }
  split; [done|]. apply map_eq. intros c. apply option_eq. intros d.
  rewrite (handles_lookup _ _ _ _ _ Hok'), (handles_lookup _ _ _ _ _ Hok).
  split; intros (Hu & i & f & Ec & Hi & Hd); (split; [done|]); exists i, f.
  - apply file_slot_Ok in Ec as Ec'. destruct Ec' as (? & ? & f' & _ & _ & _ & Hf' & _ & Ho).
    rewrite Hi in Hf'. injection Hf' as <-. by rewrite <-Hc, <-Hf.
  - apply file_slot_Ok in Ec as Ec'. destruct Ec' as (? & ? & f' & _ & _ & _ & Hf' & _ & Ho).
    rewrite Hi in Hf'. injection Hf' as <-. by rewrite Hc, Hf.
Qed.

Lemma slot_kernel k k' fs c i :
  (∀ e, scdk_cap_lookup k c = Ok e → scdk_cap_lookup k' c = Ok e) →
  (∀ id o, scdk_object_lookup k id = Ok o → scdk_object_lookup k' id = Ok o) →
  tmpfs_slot_for_cap k fs c = Ok i → tmpfs_slot_for_cap k' fs c = Ok i.
Proof.
  intros Hc Ho. rewrite !file_slot_Ok. intros (e & o & f & (Hr & Hl & ? & ?)%cap_check_Ok & Hlo & ? & ?).
  exists e, o, f. split_and!; [|by apply Ho|tauto..]. apply cap_check_Ok. auto.
Qed.

(** A new object has no capability and no open file. *)
Lemma files_object k k1 fs boot oid i :
  files_ok k fs boot → file_closed fs i →
  object_created k k1 oid SCDK_OBJ_FILE SCDK_BOOT_CORE 0 (P_file i) →
  files_ok k1 fs boot ∧ (∀ c e, scdk_cap_lookup k1 c = Ok e → ce_object_id e ≠ oid).
Proof.
  intros Hok Hcl Hoc. pose proof (fo_kernel _ _ _ Hok) as Hwf.
  assert (∀ c e, scdk_cap_lookup k1 c = Ok e → scdk_cap_lookup k c = Ok e) as Hback.
  { intros c e. eapply object_created_caps_back; [apply Hwf|done]. }
  assert (∀ c e, scdk_cap_lookup k1 c = Ok e → ce_object_id e ≠ oid) as Hno.
  { intros c e He%Hback Heq. unfold scdk_cap_lookup in He. do 3 minv_step He. apply (inj Ok) in He as ->.
    rewrite Heq in E0. by apply (oc_fresh _ _ _ _ _ _ _ Hoc) in E0. }
  split; [|done]. destruct (files_ok_same k k1 fs fs boot) as [? _]; [done| |done|done| |done| |done].
  - by eapply object_created_kwf.
  - intros id o j Ho Hp. destruct (oc_only _ _ _ _ _ _ _ Hoc id o Ho) as [Ho'|(_ & _ & Hp' & _)];
      [by eapply fo_slot|]. rewrite Hp in Hp'. injection Hp' as ->. destruct Hcl as (f & Hf & _).
    by eapply lookup_lt_Some.
  - intros c j _. split.
    + intros (e & o & f & Hc & Ho & Hr)%file_slot_Ok. apply file_slot_Ok. exists e, o, f.
      split_and!; [| |tauto..].
      * apply cap_check_Ok in Hc as (? & ? & ? & ?). apply cap_check_Ok. auto.
      * destruct (oc_only _ _ _ _ _ _ _ Hoc _ o Ho) as [Ho'|(Heq & _)]; [done|].
        apply cap_check_Ok in Hc as (_ & Hl & _). by destruct (Hno c e).
    + apply slot_kernel; [|apply Hoc]. intros e. by eapply object_created_caps; [apply Hwf|].
Qed.

(** The capability makes it the open file of that slot. *)
Section opened.
Context k1 k2 fs boot (oid g cap : Z) (i : nat) (b : scdk_initrd_entry) (x : list Z * list Z).
Context (Hok : files_ok k1 fs boot) (Hcl : file_closed fs i).
Context (Hno : ∀ c e, scdk_cap_lookup k1 c = Ok e → ce_object_id e ≠ oid).
Context (Hobj : scdk_object_lookup k1 oid = Ok (mk_object oid SCDK_OBJ_FILE g SCDK_BOOT_CORE 0 (P_file i))).
Context (Hcc : cap_created k1 k2 cap oid SCDK_RIGHT_READ) (Hx : x ∈ boot) (Hb : entry_rep b x).
Let fs' : files := set_file i (mk_file oid cap b true) fs.

Lemma opened_here : open_files fs' !! i = Some (mk_file oid cap b true).
Proof. destruct Hcl as (f0 & Hf0 & _). apply list_lookup_insert_eq. by eapply lookup_lt_Some. Qed.
Lemma opened_else j : j ≠ i → open_files fs' !! j = open_files fs !! j.
Proof. intros. by apply list_lookup_insert_ne. Qed.
Lemma opened_objects id : scdk_object_lookup k2 id = scdk_object_lookup k1 id.
Proof. apply object_lookup_objs. by rewrite (cc_frame _ _ _ _ _ Hcc). Qed.

Lemma opened_slots c j :
  u64 c → tmpfs_slot_for_cap k2 fs' c = Ok j ↔ (c = cap ∧ j = i) ∨ (c ≠ cap ∧ j ≠ i ∧ tmpfs_slot_for_cap k1 fs c = Ok j).
Proof.
  destruct (cc_lookup _ _ _ _ _ Hcc) as (o & Ho & Hcap). rewrite Hobj in Ho. injection Ho as <-. cbn in Hcap.
  intros Hu. rewrite !file_slot_Ok. split.
  - intros (e & o & f & (Hr & Hl & Ht & Hrt)%cap_check_Ok & Ho & Hp & Hf & Hid & Hopen). rewrite opened_objects in Ho.
    destruct (cc_only _ _ _ _ _ Hcc c e Hu Hl) as [Hl1| ->].
    + right. destruct (decide (j = i)) as [->|Hji].
      * rewrite opened_here in Hf. injection Hf as <-. cbn in Hid. by destruct (Hno c e).
      * rewrite opened_else in Hf by done. split_and!; [|done|].
        -- intros ->. by apply (cc_fresh _ _ _ _ _ Hcc) in Hl1.
        -- exists e, o, f. split_and!; try done. by apply cap_check_Ok.
    + left. split; [done|]. rewrite Hcap in Hl. injection Hl as <-. cbn in Ho. rewrite Hobj in Ho.
      injection Ho as <-. cbn in Hp. by injection Hp as ->.
  - intros [[-> ->]|(_ & Hji & e & o & f & (Hr & Hl & Ht & Hrt)%cap_check_Ok & Ho & Hp & Hf & Hid & Hopen)].
    + eexists _, _, _. split_and!; [apply cap_check_Ok; split_and!; [done|exact Hcap|by right|done]
        |rewrite opened_objects; exact Hobj|done|exact opened_here|done|done].
    + exists e, o, f. rewrite opened_objects, opened_else by done. split_and!; try done.
      apply cap_check_Ok. split_and!; try done. by apply Hcc.
Qed.
(** What designated a file before still does, and it was not this slot. *)
Lemma opened_old c j : tmpfs_slot_for_cap k1 fs c = Ok j → c ≠ cap ∧ j ≠ i.
Proof.
  intros Hs. pose proof (slot_not_closed _ _ _ _ Hs) as Hn. apply file_slot_Ok in Hs.
  destruct Hs as (e & _ & _ & (_ & Hl & _)%cap_check_Ok & _). split; intros ->; [by apply Hcc in Hl|done].
Qed.

Lemma opened_ok : files_ok k2 fs' boot.
Proof.
  split; [|cbn; rewrite length_insert; apply Hok| | | | |apply Hok..].
  - eapply cap_table_only_kwf; [apply Hok|apply Hcc..].
  - intros id o j. rewrite opened_objects. cbn. rewrite length_insert. apply Hok.
  - intros j f Hj Hopen. destruct (decide (j = i)) as [->|Hji].
    + rewrite opened_here in Hj. injection Hj as <-. split; [apply Hcc|]. apply opened_slots; [apply Hcc|by left].
    + rewrite opened_else in Hj by done. destruct (fo_open _ _ _ Hok j f Hj Hopen) as [Hu Hs]. split; [done|].
      apply opened_slots; [done|]. right. split; [by eapply opened_old|done].
  - intros c j f Hu Hs Hj. apply opened_slots in Hs; [|done]. destruct Hs as [[-> ->]|(_ & Hji & Hs)].
    + rewrite opened_here in Hj. by injection Hj as <-.
    + rewrite opened_else in Hj by done. by eapply fo_only.
  - intros j f Hj Hopen. destruct (decide (j = i)) as [->|Hji].
    + rewrite opened_here in Hj. injection Hj as <-. eauto.
    + rewrite opened_else in Hj by done. by eapply fo_backing.
Qed.

Lemma opened_fresh : handles fs !! cap = None.
Proof.
  apply eq_None_not_Some. intros [d Hd].
  apply (handles_lookup k1 fs boot) in Hd as (_ & j & f & Hs & _); [|done]. by apply opened_old in Hs as [? _].
Qed.
Lemma opened_handles : handles fs' = <[cap := x.2]> (handles fs).
Proof.
  assert (contents_of (mk_file oid cap b true) = x.2) as Hd.
  { unfold contents_of. cbn. by rewrite (entry_rep_bytes _ _ Hb). }
  apply map_eq. intros c. apply option_eq. intros d.
  rewrite (handles_lookup _ _ _ _ _ opened_ok), lookup_insert_Some, (handles_lookup _ _ _ _ _ Hok). split.
  - intros (Hu & j & f & Hs & Hj & <-). apply opened_slots in Hs; [|done]. destruct Hs as [[-> ->]|(Hc & Hji & Hs)].
    + left. rewrite opened_here in Hj. by injection Hj as <-.
    + right. split; [done|]. split; [done|]. exists j, f. by rewrite <-opened_else.
  - intros [[<- <-]|(Hc & Hu & j & f & Hs & Hj & <-)].
    + split; [apply Hcc|]. exists i, (mk_file oid cap b true).
      split_and!; [apply opened_slots; [apply Hcc|by left]|apply opened_here|done].
    + split; [done|]. destruct (opened_old c j Hs). exists j, f. split_and!; [|by rewrite opened_else|done].
      apply opened_slots; [done|by right].
Qed.
End opened.

(** Closing forgets the capability's file and keeps the others. *)
Section closed.
Context k fs boot (c : Z) (i : nat) (Hok : files_ok k fs boot) (Hu : u64 c) (Hc : tmpfs_slot_for_cap k fs c = Ok i).
Let fs' : files := upd_file i (λ f, mk_file (tf_object_id f) (tf_cap f) (tf_backing f) false) fs.

Lemma closed_else j : j ≠ i → open_files fs' !! j = open_files fs !! j.
Proof. intros. by apply list_lookup_alter_ne. Qed.
Lemma closed_here : file_closed fs' i.
Proof.
  apply file_slot_Ok in Hc as (_ & _ & f & _ & _ & _ & Hf & _). eexists.
  split; [cbn; by rewrite list_lookup_alter_eq, Hf|done].
Qed.
Lemma closed_slots c' j :
  u64 c' → tmpfs_slot_for_cap k fs' c' = Ok j ↔ c' ≠ c ∧ j ≠ i ∧ tmpfs_slot_for_cap k fs c' = Ok j.
Proof.
  intros Hu'. split.
  - intros Hs. assert (j ≠ i) as Hji by (intros ->; by apply (slot_not_closed _ _ _ _ Hs), closed_here).
    assert (tmpfs_slot_for_cap k fs c' = Ok j) as Hs'.
    { revert Hs. rewrite !file_slot_Ok. setoid_rewrite closed_else; [|done]. done. }
    split_and!; [|done|done]. intros ->. congruence.
  - intros (_ & Hji & Hs). revert Hs. rewrite !file_slot_Ok. by setoid_rewrite closed_else.
Qed.
Lemma closed_old c' j : u64 c' → tmpfs_slot_for_cap k fs c' = Ok j → c' ≠ c → j ≠ i.
Proof.
  intros Hu' Hs Hne ->. apply Hne. apply file_slot_Ok in Hc as Hc'. destruct Hc' as (_ & _ & f & _ & _ & _ & Hf & _).
  by rewrite (fo_only _ _ _ Hok c i f), (fo_only _ _ _ Hok c' i f).
Qed.

Lemma closed_ok : files_ok k fs' boot.
Proof.
  split; [apply Hok|cbn; rewrite length_alter; apply Hok| | | | |apply Hok..].
  - intros id o j. cbn. rewrite length_alter. apply Hok.
  - intros j f Hj Hopen. assert (j ≠ i) as Hji.
    { intros ->. destruct closed_here as (f' & Hf' & Ho). congruence. }
    rewrite closed_else in Hj by done. destruct (fo_open _ _ _ Hok j f Hj Hopen) as [Hu' Hs]. split; [done|].
    apply closed_slots; [done|]. split_and!; [|done|done]. intros E. rewrite E in Hs. congruence.
  - intros c' j f Hu' Hs Hj. apply closed_slots in Hs as (_ & Hji & Hs); [|done]. rewrite closed_else in Hj by done.
    by eapply fo_only.
  - intros j f Hj Hopen. destruct (decide (j = i)) as [->|Hji].
    + destruct closed_here as (f' & Hf' & Ho). congruence.
    + rewrite closed_else in Hj by done. by eapply fo_backing.
Qed.
Lemma closed_handles : handles fs' = delete c (handles fs).
Proof.
  apply map_eq. intros c'. apply option_eq. intros d.
  rewrite (handles_lookup _ _ _ _ _ closed_ok), lookup_delete_Some, (handles_lookup _ _ _ _ _ Hok). split.
  - intros (Hu' & j & f & Hs & Hj & <-). apply closed_slots in Hs as (Hne & Hji & Hs); [|done].
    rewrite closed_else in Hj by done. split; [done|]. eauto 10.
  - intros (Hne & Hu' & j & f & Hs & Hj & <-). assert (j ≠ i) as Hji by (eapply closed_old; eauto).
    split; [done|]. exists j, f. rewrite closed_else by done. split_and!; [by apply closed_slots|done|done].
Qed.
End closed.

(** Clearing the object id of a closed slot changes nothing. *)
Lemma files_ok_undone k fs boot i :
  files_ok k fs boot → file_closed fs i →
  let fs' := upd_file i (λ f, mk_file 0 (tf_cap f) (tf_backing f) (tf_open f)) fs in
  files_ok k fs' boot ∧ handles fs' = handles fs.
Proof.
  intros Hok (f0 & Hf0 & Hcl) fs'.
  assert (∀ j f, tf_open f = true → open_files fs' !! j = Some f ↔ open_files fs !! j = Some f) as Hf.
  { intros j f Ho. cbn. destruct (decide (j = i)) as [->|Hj]; [|by rewrite list_lookup_alter_ne].
    rewrite list_lookup_alter_eq, Hf0. split; [intros [= <-]|intros [= <-]]; cbn in Ho; congruence. }
  apply (files_ok_same k); [done|apply Hok|done|cbn; apply length_alter|apply Hok|done|].
  intros c j _. rewrite !file_slot_Ok.
  split; intros (e & o & f & H1 & H2 & H3 & H4 & H5 & H6); exists e, o, f; split_and!; try done; by apply Hf.
Qed.
End tables.

(** ** Reading the boot files *)
Lemma initrd_find_entry st boot path s :
  initrd_rep st boot → initrd_initialized st = true → cstr path s →
  match file_lookup s boot with
  | Some d => ∃ f x, scdk_initrd_find st path = Ok f ∧ x ∈ boot ∧ entry_rep f x ∧ x.2 = d ∧
      ∃ rest, s = c_slash :: rest
  | None => scdk_initrd_find st path = Err SCDK_ERR_NOENT
  end.
Proof.
  intros Hr Hi Hs. unfold scdk_initrd_find. rewrite rpass by (by rewrite Hi).
  destruct (first_file_run (λ f, str_eq (Some path) (Some (ie_path f)))
    (λ x, bool_decide (s = x.1)) st boot Hr) as (r & -> & Hf).
  { intros f x (Hx & _). by apply str_eq_cstr. }
  simpl. destruct r as [f|]; [|by rewrite file_lookup_none].
  destruct Hf as (l & x & l' & -> & Hx & Hq & Hl). rewrite file_lookup_first by done.
  apply bool_decide_eq_true in Hq. exists f, x. split_and!; [done|set_solver|done|done|].
  destruct Hx as (_ & _ & (c & rest & E) & _). rewrite Hq, E. eauto.
Qed.

(** A range that is mapped writable and holds no table: the user memory that was
    validated, or memory of the kernel. *)
Definition writable (L : gmap Z label) (k : kernel) (p n : Z) : Prop :=
  ∀ v, p <= v < p + n → ∃ t, scdk_vmm_virt_to_phys k v = Ok t ∧ Z.land t.2 SCDK_VMM_MAP_WRITE ≠ 0 ∧ no_table L t.1.
(** A write to such a range. *)
Record written (L : gmap Z label) (k k' : kernel) (p : Z) (src : list Z) : Prop := {
  wr_step : mem_step k k' L;
  wr_else q : (∀ v, p <= v < p + Z.of_nat (length src) → place k v ≠ q) → load_byte k' q = load_byte k q;
  wr_here : range_distinct k p (Z.of_nat (length src)) → user_load k' p (length src) = Ok src
}.

Section stores.
Implicit Types (k : kernel) (L : gmap Z label).

Lemma user_store_take n : ∀ v src k, (n ≤ length src)%nat → user_store v src n k = user_store v (take n src) n k.
Proof.
  induction n as [|n IH]; intros v src k Hn; [by destruct src|]. destruct src as [|b src]; [simpl in Hn; lia|].
  cbn [user_store take]. unfold bind at 1 3, query at 1 2. destruct (mmu_write k v); [|done..].
  rewrite !bind_modify. apply IH. simpl in Hn. lia.
Qed.

Lemma validated_writable k L p n :
  user_memory k L → u64 p → u64 n → scdk_user_validate_range k p n true = Ok tt → writable L k p n.
Proof.
  intros [HT Hc Hd] Hp Hn Hv. apply validate_range_spec in Hv as (H0 & Hlo & Hhi & Hm); [|done..].
  intros v Hv. destruct (Hm v Hv) as (t & Ht & Hr & Hw). exists t. split; [done|]. split; [by apply Hw|].
  apply (Hd v); [unfold u64 in Hp; lia|by exists t|done].
Qed.
Lemma writable_same L k k' p n :
  (∀ v, scdk_vmm_virt_to_phys k' v = scdk_vmm_virt_to_phys k v) → writable L k p n → writable L k' p n.
Proof. intros Htr Hw v Hv. rewrite Htr. by apply Hw. Qed.

Lemma store_written k L p n src :
  pt_typed k L → cr3_synced k → Forall byte src → (length src ≤ Z.to_nat n)%nat → writable L k p n →
  ∃ k', user_store p src (length src) k = (Ok tt, k') ∧ written L k k' p src.
Proof.
  intros HT Hc Hb Hl Hm.
  assert (∀ i, 0 <= i < Z.of_nat (length src) →
    mmu_write k (p + i) = Ok (place k (p + i)) ∧ no_table L (place k (p + i))) as Hplace.
  { intros i Hi. destruct (Hm (p + i)) as (t & Ht & Hw & Hn); [lia|]. unfold place. rewrite Ht.
    split; [by apply mmu_write_translation|done]. }
  destruct (user_store_run L (place k) src p k HT Hc Hb Hplace) as (k' & Hst & Hs & Hout & Hin).
  exists k'. split; [done|]. split; [done| |].
  - intros q Hq. apply Hout. intros i Hi. apply Hq. lia.
  - intros Hdist. assert (∀ v, mmu k' v = mmu k v) as Hmm by (intros v; by eapply mem_step_mmu).
    rewrite (user_load_run k' (place k)) by (intros i Hi; rewrite Hmm; apply mmu_write_read, Hplace; lia).
    f_equal. apply list_eq. intros i. rewrite list_lookup_fmap. destruct (src !! i) as [b|] eqn:Ei.
    + rewrite lookup_seq_lt by (by eapply lookup_lt_Some). simpl. f_equal. apply Hin; [|done].
      intros i' j' Hi Hj Heq.
      destruct (Hm (p + i') ltac:(lia)) as (t & Ht & _), (Hm (p + j') ltac:(lia)) as (t' & Ht' & _).
      unfold place in Heq. rewrite Ht, Ht' in Heq.
      pose proof (Hdist (p + i') (p + j') t t' ltac:(lia) ltac:(lia) Ht Ht' Heq). lia.
    + rewrite lookup_seq_ge; [done|]. by apply lookup_ge_None.
Qed.

Lemma written_nil k L p : user_memory k L → written L k k p [].
Proof. intros Hm. split; [apply mem_step_refl, Hm|done|done]. Qed.
End stores.
