(* ===== verification/FileService.v ===== *)
(** * What the file services promise

    The services of [Files] against an abstract file service, a map from
    capabilities to contents together with the objects and capabilities the kernel
    has left; requests through the VFS endpoint refine it. A read that goes to tmpfs
    directly is not checked, and the last theorem says what it can do. *)
From stdpp Require Import base gmap list numbers relations.
From Stdlib Require Import ZArith Lia.
From S2P Require Import Prelude.
From S2P Require Import Kernel.
From S2P Require Import Object.
From S2P Require Import Capability.
From S2P Require Import Invariant.
From S2P Require Import Endpoint.
From S2P Require Import Pmm.
From S2P Require Import Vmm.
From S2P Require Import HeapVm.
From S2P Require Import AddressSpace.
From S2P Require Import CString.
From S2P Require Import Initrd.
From S2P Require Import UserMemory.
From S2P Require Import UserGrant.
From S2P Require Import Usermode.
From S2P Require Import UserMessage.
From S2P Require Import Component.
From S2P Require Import Files.

#[local] Open Scope Z_scope.

(** ** The abstract file service

    Its state: the contents behind each capability, and how many objects and
    capabilities can still be created. *)
Record fstate := mk_fstate { f_open : gmap Z (list Z); f_objects : nat; f_caps : nat }.

Inductive file_request : Set :=
  | F_open (path : list Z)
  | F_read (c offset buffer length : Z)
  | F_close (c : Z).

(** The first two arguments of the reply. *)
Definition file_reply : Type := result (Z * Z).

Definition spec_open (contents : option (list Z)) (a : fstate) (out : file_reply) (a' : fstate) : Prop :=
  match contents with
  | None => out = Err SCDK_ERR_NOENT ∧ a' = a
  | Some d =>
      if decide (size (f_open a) = Z.to_nat SCDK_TMPFS_MAX_OPEN_FILES) then out = Err SCDK_ERR_NOMEM ∧ a' = a
      else match f_objects a, f_caps a with
      | O, _ => out = Err SCDK_ERR_NOMEM ∧ a' = a
      | S n, O => out = Err SCDK_ERR_NOMEM ∧ a' = mk_fstate (f_open a) n O
      | S n, S m => ∃ c, out = Ok (c, Z.of_nat (length d)) ∧ f_open a !! c = None ∧
                      a' = mk_fstate (<[c := d]> (f_open a)) n m
      end
  end.
Section spec_open.
Context (d : list Z) (a : fstate).
Lemma spec_open_full :
  size (f_open a) = Z.to_nat SCDK_TMPFS_MAX_OPEN_FILES → spec_open (Some d) a (Err SCDK_ERR_NOMEM) a.
Proof. intros E. unfold spec_open. by rewrite decide_True. Qed.
Context (Hroom : size (f_open a) ≠ Z.to_nat SCDK_TMPFS_MAX_OPEN_FILES).
Lemma spec_open_objects : f_objects a = 0%nat → spec_open (Some d) a (Err SCDK_ERR_NOMEM) a.
Proof. intros E. unfold spec_open. by rewrite decide_False, E. Qed.
Lemma spec_open_caps n :
  f_objects a = S n → f_caps a = 0%nat → spec_open (Some d) a (Err SCDK_ERR_NOMEM) (mk_fstate (f_open a) n 0).
Proof. intros E E'. unfold spec_open. by rewrite decide_False, E, E'. Qed.
Lemma spec_open_ok n m c :
  f_objects a = S n → f_caps a = S m → f_open a !! c = None →
  spec_open (Some d) a (Ok (c, Z.of_nat (length d))) (mk_fstate (<[c := d]> (f_open a)) n m).
Proof. intros E E' Hc. unfold spec_open. rewrite decide_False, E, E' by done. eauto. Qed.
End spec_open.
(** What a read copies. *)
Definition read_bytes (d : list Z) (offset n : Z) : list Z := take (Z.to_nat n) (drop (Z.to_nat offset) d).
Definition spec_read (d : list Z) (offset n : Z) : file_reply :=
  if n =? 0 then Ok (0, offset)
  else if Z.of_nat (length d) <? offset then Err SCDK_ERR_BOUNDS
  else Ok (Z.of_nat (length (read_bytes d offset n)), offset).

Definition file_spec (boot : list (list Z * list Z)) (a : fstate) (r : file_request) (out : file_reply)
    (a' : fstate) : Prop :=
  match r with
  | F_open path => spec_open (file_lookup path boot) a out a'
  | F_read c offset _ n =>
      a' = a ∧ match f_open a !! c with
               | Some d => out = spec_read d offset n
               | None => ∃ e, out = Err e
               end
  | F_close c =>
      match f_open a !! c with
      | Some _ => is_Ok out ∧ a' = mk_fstate (delete c (f_open a)) (f_objects a) (f_caps a)
      | None => (∃ e, out = Err e) ∧ a' = a
      end
  end.

(** What a request does to memory: a read that succeeds stores the bytes of the
    file at the caller's address and changes no other byte; nothing else changes
    memory. *)
Definition memory_spec (L : gmap Z label) (a : fstate) (r : file_request) (out : file_reply) (k k' : kernel) : Prop :=
  match r, out with
  | F_read c offset buffer n, Ok _ => ∃ d, f_open a !! c = Some d ∧ written L k k' buffer (read_bytes d offset n)
  | _, _ => k_vmm k' = k_vmm k
  end.

(** ** Requests through the VFS endpoint *)
Section requests.
Context {T : Type} `{Beside files T} (other : option (list Z) → handler_on T).
Context (path_at vfs : Z) (boot : list (list Z * list Z)) (L : gmap Z label).
Implicit Types (s : T) (r : file_request).

Definition request_msg r : scdk_message * option (list Z) :=
  match r with
  | F_open path =>
      (set_msg_args (scdk_message_init 0 SCDK_SERVICE_VFS SCDK_MSG_OPEN) path_at (Z.of_nat (length path)) 0 0,
       Some (path ++ [0]))
  | F_read c offset buffer n =>
      (set_msg_args (scdk_message_init 0 SCDK_SERVICE_VFS SCDK_MSG_READ) c offset buffer n, None)
  | F_close c => (set_msg_args (scdk_message_init 0 SCDK_SERVICE_VFS SCDK_MSG_CLOSE) c 0 0 0, None)
  end.
Definition reply_of (reply : scdk_message * result unit) : file_reply :=
  match reply.2 with
  | Ok _ => Ok (msg_arg0 reply.1, msg_arg1 reply.1)
  | Err e => Err e
  | Ub => Ub
  end.
Definition request r : M T file_reply :=
  let* reply := scdk_endpoint_call (file_services other 2 (request_msg r).2) vfs (request_msg r).1 in
  ret (reply_of reply).
Fixpoint requests (rs : list file_request) : M T (list file_reply) :=
  match rs with
  | [] => ret []
  | r :: rs => let* out := request r in let* outs := requests rs in ret (out :: outs)
  end.

(** The state after the two services have started. *)
Record mounted s : Prop := {
  mo_files : files_ok (kernel_of s) (the_files s) boot;
  mo_vfs : u64 vfs ∧ ∃ oid ctx, endpoint_target (kernel_of s) vfs = Ok (oid, vfs_endpoint_handler, ctx);
  mo_tmpfs : let root := root_tmpfs_endpoint (the_files s) in
    u64 root ∧ ∃ oid ctx, endpoint_target (kernel_of s) root = Ok (oid, tmpfs_endpoint_handler, ctx);
  mo_memory : user_memory (kernel_of s) L
}.
(** What is known of a request that is forwarded: the buffer of a read is
    writable, as user memory is once the kernel has checked it. *)
Definition request_ok (k : kernel) r : Prop :=
  match r with
  | F_open path => (0 < length path < SCDK_INITRD_MAX_PATH)%nat ∧ Forall (λ b, b ≠ 0) path
  | F_read c offset buffer n =>
      u64 c ∧ u64 offset ∧ u64 buffer ∧ u64 n ∧ buffer ≠ 0 ∧
      (n ≠ 0 → writable L k buffer n)
  | F_close c => u64 c
  end.
Definition fstate_of s : fstate :=
  mk_fstate (handles (the_files s)) (free_objects (kernel_of s)) (free_caps (kernel_of s)).

Lemma grown_mounted s k' fs' :
  mounted s → grown (kernel_of s) k' → files_ok k' fs' boot →
  root_tmpfs_endpoint fs' = root_tmpfs_endpoint (the_files s) → mounted (put_files fs' (put_kernel k' s)).
Proof.
  intros [Hf [Hv (oid & ctx & Ev)] [Ht (oid' & ctx' & Et)] Hm] Hg Hf' Hr.
  assert (∀ c t, u64 c → endpoint_target (kernel_of s) c = Ok t → endpoint_target k' c = Ok t) as Hep.
  { intros c t Hu. apply endpoint_target_tables; [apply Hg| |apply Hg]. intros e. by apply Hg. }
  split; rewrite ?kernel_put_own, ?kernel_put_kernel, ?own_put; [done| | |].
  - split; [done|]. eauto.
  - rewrite Hr. cbv zeta. split; [done|]. eauto.
  - eapply user_memory_vmm; [apply Hg..|done].
Qed.
Lemma grown_request k k' r : grown k k' → request_ok k r → request_ok k' r.
Proof.
  intros Hg. destruct r as [|c off buf n|]; [done| |done]. intros (? & ? & ? & ? & ? & Hv). split_and!; [done..|].
  intros Hn. apply (writable_same L k); [|by apply Hv]. intros v. apply virt_to_phys_vmm, Hg.
Qed.

(** The path as the service copies it. *)
Lemma path_message buf msg path :
  msg_arg0 msg ≠ 0 → msg_arg1 msg = Z.of_nat (length path) ∨ msg_arg1 msg = 0 → cstr buf path →
  (0 < length path < SCDK_INITRD_MAX_PATH)%nat →
  ∃ copy, tmpfs_path_from_message (Some buf) msg SCDK_INITRD_MAX_PATH = Ok copy ∧ cstr copy path.
Proof.
  intros Ha0 Ha1 Hbuf Hl. unfold tmpfs_path_from_message. rewrite (proj2 (Z.eqb_neq _ 0) Ha0).
  assert ((if msg_arg1 msg =? 0 then let? n := strlen buf in Ok (Z.of_nat n) else Ok (msg_arg1 msg)) =
    Ok (Z.of_nat (length path))) as Elen.
  { destruct Ha1 as [->| ->]; [by rewrite (proj2 (Z.eqb_neq _ 0)) by lia|]. by rewrite (strlen_Ok buf path). }
  destruct Hbuf as [Hz [rest ->]].
  unfold SCDK_INITRD_MAX_PATH in *. change ((128 =? 0)%nat) with false. change (Z.of_nat 128 - 1) with 127.
  cbn [orb rguard rbind deref]. rewrite Elen. cbn [rbind].
  rewrite (proj2 (Z.eqb_neq _ 0)) by lia. rewrite (proj2 (Z.ltb_ge _ _)) by lia. cbn [orb rguard rbind].
  rewrite Nat2Z.id, memcpy_Ok by (rewrite ?length_replicate, ?length_app; simpl; lia). cbn [rbind].
  rewrite take_app_length. rewrite store8_Ok by (rewrite patch_length; rewrite length_replicate; lia).
  eexists. split; [done|]. split; [done|]. exists (replicate (127 - length path) 0). unfold patch. rewrite take_0, app_nil_l.
  rewrite Nat.add_0_l, insert_app_r_alt by lia. rewrite Nat.sub_diag, drop_replicate.
  replace (128 - length path)%nat with (S (127 - length path)) by lia. done.
Qed.

Definition reply_args (m : result scdk_message) : file_reply :=
  match m with
  | Ok m => Ok (msg_arg0 m, msg_arg1 m)
  | Err e => Err e
  | Ub => Ub
  end.

(** Running an operation whose outcome the specification allows. *)
Definition simulates (spec : file_reply → T → Prop) (op : M T scdk_message) s : Prop :=
  ∃ m s', op s = (m, s') ∧ defined m ∧ mounted s' ∧ (∀ r, request_ok (kernel_of s) r → request_ok (kernel_of s') r) ∧
    spec (reply_args m) s'.
(** The specification, with what happens to user memory. *)
Definition effect s r (out : file_reply) (k' : kernel) : Prop :=
  match r with
  | F_read c offset buffer n =>
      match f_open (fstate_of s) !! c, out with
      | Some d, Ok _ => written L (kernel_of s) k' buffer (read_bytes d offset n)
      | _, _ => k' = kernel_of s
      end
  | F_open _ => grown (kernel_of s) k'
  | F_close _ => k' = kernel_of s
  end.
Definition serves s r (out : file_reply) (s' : T) : Prop :=
  file_spec boot (fstate_of s) r out (fstate_of s') ∧ effect s r out (kernel_of s').
Definition opens s (contents : option (list Z)) (out : file_reply) (s' : T) : Prop :=
  spec_open contents (fstate_of s) out (fstate_of s') ∧ grown (kernel_of s) (kernel_of s').

Lemma open_slot_sim s i b x msg :
  mounted s → file_closed (the_files s) i → x ∈ boot → entry_rep b x →
  size (f_open (fstate_of s)) ≠ Z.to_nat SCDK_TMPFS_MAX_OPEN_FILES →
  simulates (opens s (Some x.2)) (tmpfs_open_slot i b msg) s.
Proof.
  intros Hm Hcl Hx Hb Hroom. pose proof (mo_files _ Hm) as Hok. pose proof (fo_kernel _ _ _ Hok) as Hwf.
  unfold tmpfs_open_slot, simulates.
  destruct (object_create_count (kernel_of s) SCDK_OBJ_FILE SCDK_BOOT_CORE 0 (P_file i))
    as [[E0 E]|(oid & k1 & E & Hoc & Ecount)]; [apply Hwf|done|done| |].
  { rewrite (bind_Err _ _ _ _ _ (onkern_same _ _ _ E)). eexists _, s. split; [done|]. split_and!; [done..|].
    split; [by apply spec_open_objects|done]. }
  rewrite (bind_Ok _ _ _ _ _ (onkern_put _ _ _ _ E)).
  destruct (files_object _ _ _ _ _ _ Hok Hcl Hoc) as [Hok1 Hno].
  destruct (oc_lookup _ _ _ _ _ _ _ Hoc) as (g & _ & Hobj).
  pose proof (object_grown _ _ _ _ _ _ _ (kwf_caps _ Hwf) Hoc) as Hg1.
  assert (free_caps (kernel_of s) = free_caps k1) as Efc.
  { unfold free_caps. by rewrite (oc_frame _ _ _ _ _ _ _ Hoc). }
  destruct (cap_create_count k1 oid SCDK_RIGHT_READ _ (kwf_caps _ (fo_kernel _ _ _ Hok1)) ltac:(done) Hobj)
    as [[E0 E1]|(cap & k2 & E1 & Hcc & Ecount1)].
  - set (fs' := upd_file i (λ f, mk_file 0 (tf_cap f) (tf_backing f) (tf_open f)) (the_files s)).
    destruct (files_ok_undone k1 (the_files s) boot i Hok1 Hcl) as [Hok' Eh]. fold fs' in Hok', Eh.
    rewrite (bind_Err _ _ _ SCDK_ERR_NOMEM (put_files fs' (put_kernel k1 s))).
    2:{ unfold recover. rewrite (onkern_same _ _ (Err SCDK_ERR_NOMEM)) by (by rewrite kernel_put_kernel).
        rewrite onown_modify, own_put_kernel. done. }
    eexists _, _. split; [done|]. unfold opens, fstate_of at 2.
    rewrite own_put, kernel_put_own, kernel_put_kernel, Eh, E0.
    split_and!; [done|by apply grown_mounted|intros r; by apply grown_request| |apply Hg1].
    apply spec_open_caps; [done|done|cbn; congruence].
  - set (fs' := set_file i (mk_file oid cap b true) (the_files s)).
    rewrite (bind_Ok _ _ _ cap (put_kernel k2 s)).
    2:{ unfold recover. rewrite (onkern_put _ _ (Ok cap) k2) by (by rewrite kernel_put_kernel).
        unfold put_kernel. by rewrite machine_put, put_put. }
    rewrite (bind_Ok _ _ _ tt (put_files fs' (put_kernel k2 s))) by (by rewrite onown_modify, own_put_kernel).
    assert (grown (kernel_of s) k2) as Hg by (etrans; [exact Hg1|by eapply cap_grown]).
    assert (files_ok k2 fs' boot) as Hok2 by (by eapply opened_ok).
    assert (ie_size b = Z.of_nat (length x.2)) as -> by apply Hb.
    assert (handles fs' = <[cap := x.2]> (handles (the_files s))) as Eh by (by eapply opened_handles).
    eexists _, _. split; [done|]. unfold opens, fstate_of at 2.
    rewrite own_put, kernel_put_own, kernel_put_kernel, Eh.
    split_and!; [done|by apply grown_mounted|intros r; by apply grown_request| |apply Hg].
    apply spec_open_ok; [done| |cbn; congruence|by eapply opened_fresh].
    cbn. rewrite Ecount. f_equal. unfold free_objects. by rewrite (cc_frame _ _ _ _ _ Hcc).
Qed.

Lemma tmpfs_open_sim s payload msg path buf :
  mounted s → tmpfs_path_from_message payload msg SCDK_INITRD_MAX_PATH = Ok buf → cstr buf path →
  simulates (opens s (file_lookup path boot)) (tmpfs_handle_open payload msg) s.
Proof.
  intros Hm Hp Hs. pose proof (mo_files _ Hm) as Hok. unfold tmpfs_handle_open, simulates.
  pose proof (initrd_find_entry _ _ _ _ (fo_boot _ _ _ Hok) (fo_ready _ _ _ Hok) Hs) as Hfind.
  rewrite (bind_Ok _ _ s buf s) by (unfold lift; by rewrite Hp).
  destruct (file_lookup path boot) as [d|].
  2:{ rewrite (bind_Err _ _ s SCDK_ERR_NOENT s) by (apply onown_read; unfold query; by rewrite Hfind).
      eexists _, s. split; [done|]. split_and!; done. }
  destruct Hfind as (b & x & Efind & Hx & Hb & <- & _).
  rewrite (bind_Ok _ _ s b s) by (apply onown_read; unfold query; by rewrite Efind).
  rewrite (bind_Ok _ _ s (alloc_open_file_slot (the_files s)) s) by (by apply onown_read).
  destruct (alloc_open_file_slot (the_files s)) as [i|] eqn:Ei.
  - apply open_slot_sim; [done|by apply alloc_closed|done|done|].
    pose proof (handles_room _ _ _ _ Hok Ei). cbn. lia.
  - eexists _, s. split; [done|]. split_and!; [done..|]. split; [apply spec_open_full; by eapply handles_full|done].
Qed.

Lemma take_length_take {A} n (l : list A) : take (length (take n l)) l = take n l.
Proof.
  rewrite length_take. destruct (Nat.min_spec n (length l)) as [[? ->]|[? ->]]; [done|].
  by rewrite firstn_all, take_ge.
Qed.

(** What a capability designates, in the tables and in the map. *)
Lemma handle_cases s c :
  mounted s → u64 c →
  (∃ i f x, tmpfs_slot_for_cap (kernel_of s) (the_files s) c = Ok i ∧ open_files (the_files s) !! i = Some f ∧
     x ∈ boot ∧ entry_rep (tf_backing f) x ∧ f_open (fstate_of s) !! c = Some x.2) ∨
  (∃ e, tmpfs_slot_for_cap (kernel_of s) (the_files s) c = Err e ∧ f_open (fstate_of s) !! c = None).
Proof.
  intros Hm Hu. pose proof (mo_files _ Hm) as Hok.
  pose proof (file_slot_defined _ _ _ c Hok) as Hd. cbn [f_open fstate_of].
  destruct (tmpfs_slot_for_cap (kernel_of s) (the_files s) c) as [i|e|] eqn:E; [left|right|done].
  - apply file_slot_Ok in E as E'. destruct E' as (_ & _ & f & _ & _ & _ & Hf & _ & Ho).
    destruct (fo_backing _ _ _ Hok i f Hf Ho) as (x & Hx & Hb). exists i, f, x. split_and!; [done..|].
    apply (handles_lookup (kernel_of s) _ boot); [done|]. split; [done|]. exists i, f. split_and!; [done..|].
    unfold contents_of. by rewrite (entry_rep_bytes _ _ Hb).
  - exists e. split; [done|]. apply eq_None_not_Some. intros [d Hd'].
    apply (handles_lookup (kernel_of s) _ boot) in Hd' as (_ & i & f & E' & _); [|done]. congruence.
Qed.

Lemma tmpfs_close_sim s msg :
  mounted s → u64 (msg_arg0 msg) →
  simulates (serves s (F_close (msg_arg0 msg))) (tmpfs_handle_close msg) s.
Proof.
  intros Hm Hu. pose proof (mo_files _ Hm) as Hok. unfold tmpfs_handle_close, simulates, serves, effect, file_spec.
  destruct (handle_cases s _ Hm Hu) as [(i & f & x & E & Hf & _ & _ & Eh)|(e & E & Eh)]; rewrite Eh.
  - rewrite (bind_query _ _ _ i) by done. rewrite (bind_Ok _ _ _ _ _ (onown_modify _ _)).
    eexists _, _. split; [done|].
    set (fs' := upd_file i (λ f, mk_file (tf_object_id f) (tf_cap f) (tf_backing f) false) (the_files s)).
    replace (put_files fs' s) with (put_files fs' (put_kernel (kernel_of s) s)) by (by rewrite put_kernel_same).
    rewrite kernel_put_own, kernel_put_kernel.
    split_and!; [done|apply grown_mounted; [done|done|by eapply closed_ok|done]|done|by eexists| |done].
    + unfold fstate_of. rewrite own_put, kernel_put_own, kernel_put_kernel. cbn. f_equal. by eapply closed_handles.
  - rewrite (bind_Err _ _ _ e s) by (unfold query; by rewrite E). eexists _, s. split; [done|].
    split_and!; [done..| |done|done]. by eexists.
Qed.

(** A change of user memory keeps the services mounted. *)
Lemma written_mounted s k' :
  mounted s → mem_step (kernel_of s) k' L → mounted (put_kernel k' s) ∧ fstate_of (put_kernel k' s) = fstate_of s ∧
  (∀ r, request_ok (kernel_of s) r → request_ok k' r).
Proof.
  intros [Hf Hv Ht Hm] Hs. assert (∀ v, scdk_vmm_virt_to_phys k' v = scdk_vmm_virt_to_phys (kernel_of s) v) as Htr.
  { intros v. by apply (mem_step_translate _ _ L); [apply Hm|]. }
  pose proof (user_memory_step _ _ _ Hm Hs) as Hm'. split_and!.
  - split; rewrite ?kernel_put_kernel, ?own_put_kernel; try done; rewrite (ms_frame _ _ _ Hs); try done.
    destruct Hf as [A1 A2 A3 A4 A5 A6 A7 A8 A9]. split; try done. apply (kernel_wf_frame (kernel_of s)); [done..|].
    by apply (tables_sized_core (kernel_of s)); [apply A1|..].
  - unfold fstate_of. rewrite kernel_put_kernel, own_put_kernel. by rewrite (ms_frame _ _ _ Hs).
  - intros [|c off buf n|]; [done| |done]. intros (? & ? & ? & ? & ? & Hn). split_and!; [done..|].
    intros Hn0. apply (writable_same L (kernel_of s)); auto.
Qed.

(** A read of an open file is a copy to the buffer. *)
Lemma tmpfs_read_copy s msg d k' :
  let data := read_bytes d (msg_arg1 msg) (msg_arg3 msg) in
  mounted s → u64 (msg_arg0 msg) → u64 (msg_arg1 msg) → u64 (msg_arg3 msg) → msg_arg2 msg ≠ 0 → msg_arg3 msg ≠ 0 →
  f_open (fstate_of s) !! msg_arg0 msg = Some d → msg_arg1 msg <= Z.of_nat (length d) →
  user_store (msg_arg2 msg) data (length data) (kernel_of s) = (Ok tt, k') →
  tmpfs_handle_read msg s =
    (Ok (set_msg_args msg (Z.of_nat (length data)) (msg_arg1 msg) (msg_arg2 msg) (msg_arg3 msg)), put_kernel k' s).
Proof.
  intros data Hm Hc Ho Hn Hb Hn0 Hd Hoff Est. unfold tmpfs_handle_read. rewrite bind_guard by (by apply Z.eqb_neq).
  destruct (handle_cases s _ Hm Hc) as [(i & f & x & E & Hf & Hx & Hrep & Ex)|(e & _ & Ex)]; [|congruence].
  assert (x.2 = d) as <- by congruence. rewrite (bind_query _ _ _ i) by done.
  rewrite (proj2 (Z.eqb_neq _ 0) Hn0).
  rewrite (bind_Ok _ _ s f s) by (apply onown_read; unfold query; by rewrite Hf).
  destruct Hrep as (_ & _ & _ & [rest Erest] & -> & _).
  rewrite bind_guard by (by apply Z.ltb_ge). rewrite Erest. cbn [deref]. rewrite (bind_Ok _ _ s (x.2 ++ rest) s) by done.
  assert (Z.of_nat (length data) = if msg_arg3 msg <? Z.of_nat (length x.2) - msg_arg1 msg then msg_arg3 msg
    else Z.of_nat (length x.2) - msg_arg1 msg) as El.
  { unfold data, read_bytes. rewrite length_take, length_drop. unfold u64 in *.
    destruct (Z.ltb_spec (msg_arg3 msg) (Z.of_nat (length x.2) - msg_arg1 msg)); lia. }
  rewrite <-El, Nat2Z.id.
  assert (take (length data) (drop (Z.to_nat (msg_arg1 msg)) (x.2 ++ rest)) = data) as Ed.
  { rewrite drop_app_le by (unfold u64 in *; lia). rewrite take_app_le; [apply take_length_take|].
    unfold data, read_bytes. rewrite length_take. lia. }
  rewrite (bind_Ok _ _ s tt (put_kernel k' s)); [done|].
  apply onkern_put. rewrite user_store_take, Ed; [done|]. rewrite length_drop, length_app.
  unfold data, read_bytes. rewrite length_take, length_drop. lia.
Qed.
(** The bytes it copies. *)
Lemma handle_bytes s c d offset n : mounted s → f_open (fstate_of s) !! c = Some d → Forall byte (read_bytes d offset n).
Proof.
  intros Hm Hd. apply Forall_take, Forall_drop.
  assert (u64 c) as Hc by (by apply (handles_lookup _ _ _ _ _ (mo_files _ Hm)) in Hd as [? _]).
  destruct (handle_cases s c Hm Hc) as [(i & f & x & _ & _ & Hx & _ & Ex)|(e & _ & Ex)]; [|congruence].
  assert (x.2 = d) as <- by congruence.
  by apply (proj1 (Forall_forall _ _) (fo_bytes _ _ _ (mo_files _ Hm)) x).
Qed.

Lemma tmpfs_read_run s msg :
  let c := msg_arg0 msg in let offset := msg_arg1 msg in let n := msg_arg3 msg in
  mounted s → request_ok (kernel_of s) (F_read c offset (msg_arg2 msg) n) →
  match f_open (fstate_of s) !! c with
  | Some d => ∃ m s', tmpfs_handle_read msg s = (m, s') ∧ reply_args m = spec_read d offset n ∧
      (s' = s ∧ (n = 0 ∨ ∃ e, m = Err e) ∨
       ∃ k', s' = put_kernel k' s ∧ written L (kernel_of s) k' (msg_arg2 msg) (read_bytes d offset n) ∧ is_Ok m)
  | None => ∃ e, tmpfs_handle_read msg s = (Err e, s)
  end.
Proof.
  intros c offset n Hm (Hc & Ho & Hb & Hn & Hnz & Hval).
  destruct (handle_cases s c Hm Hc) as [(i & f & x & E & Hf & Hx & Hrep & Ex)|(e & E & ->)].
  2:{ exists e. unfold tmpfs_handle_read. rewrite bind_guard by (by apply Z.eqb_neq). fold c.
      by rewrite (bind_Err _ _ _ e s) by (unfold query; by rewrite E). }
  rewrite Ex. unfold spec_read. destruct (Z.eqb_spec n 0) as [Hn0|Hn0].
  { unfold tmpfs_handle_read. rewrite bind_guard by (by apply Z.eqb_neq). fold c n. rewrite (bind_query _ _ _ i) by done.
    rewrite (proj2 (Z.eqb_eq n 0) Hn0). eexists _, s. split; [done|]. split; [done|left; auto]. }
  destruct (Z.ltb_spec (Z.of_nat (length x.2)) offset) as [Hlt|Hge].
  { unfold tmpfs_handle_read. rewrite bind_guard by (by apply Z.eqb_neq). fold c n offset.
    rewrite (bind_query _ _ _ i) by done. rewrite (proj2 (Z.eqb_neq n 0) Hn0).
    rewrite (bind_Ok _ _ s f s) by (apply onown_read; unfold query; by rewrite Hf).
    destruct Hrep as (_ & _ & _ & _ & Hsz & _). rewrite Hsz, bind_stop by (by apply Z.ltb_lt).
    eexists _, s. split; [done|]. split; [done|left; eauto]. }
  destruct (store_written (kernel_of s) L (msg_arg2 msg) n (read_bytes x.2 offset n)) as (k' & Est & Hw);
    [exact (um_typed _ _ (mo_memory _ Hm))|exact (um_synced _ _ (mo_memory _ Hm))|by eapply handle_bytes| |by apply Hval|].
  { unfold read_bytes. rewrite length_take. lia. }
  rewrite (tmpfs_read_copy s msg x.2 k') by done.
  eexists _, _. split; [done|]. split; [done|]. right. exists k'. split_and!; [done|done|by eexists].
Qed.

(** ** Forwarding *)
Lemma answers_run msg op s m s' :
  op s = (m, s') → defined m → ∃ reply, answers msg op s = (Ok reply, s') ∧ reply_of reply = reply_args m.
Proof.
  intros E Hd. unfold answers, bind, attempt. rewrite E. destruct m as [m|e|]; [by eexists..|done].
Qed.

(** The same request with another target. *)
Definition same_request (msg msg' : scdk_message) : Prop := ∃ t, msg' = set_msg_target msg t.

Lemma forward_run (spec : file_reply → T → Prop) s payload msg op :
  mounted s →
  (∀ msg', same_request msg msg' → simulates spec (op msg') s ∧
     ∀ ep ctx, tmpfs_endpoint_handler_fn payload ep msg' ctx = answers msg' (op msg')) →
  ∃ reply s', vfs_forward_to_tmpfs (file_services other 1 payload) msg s = (Ok reply, s') ∧ mounted s' ∧
    (∀ r, request_ok (kernel_of s) r → request_ok (kernel_of s') r) ∧
    spec (reply_of reply) s'.
Proof.
  intros Hm Hop. destruct (mo_tmpfs _ Hm) as [_ (oid & ctx & Et)]. unfold vfs_forward_to_tmpfs.
  rewrite (bind_Ok _ _ s (root_tmpfs_endpoint (the_files s)) s) by (by apply onown_read).
  assert (root_tmpfs_endpoint (the_files s) ≠ 0) as Hnz.
  { intros E0. rewrite E0 in Et. done. }
  rewrite (proj2 (Z.eqb_neq _ 0) Hnz).
  destruct (Hop (set_msg_target (set_msg_target msg SCDK_SERVICE_TMPFS) oid)) as [(m & s' & E & Hd & Hm' & Hr & Hs) Hh];
    [by eexists|].
  destruct (answers_run (set_msg_target (set_msg_target msg SCDK_SERVICE_TMPFS) oid) _ _ _ _ E Hd) as (reply & Ea & Er).
  assert (scdk_endpoint_call (file_services other 1 payload) (root_tmpfs_endpoint (the_files s))
    (set_msg_target msg SCDK_SERVICE_TMPFS) s = (Ok (set_msg_status reply.1 (Endpoint.status_word reply.2), reply.2), s')) as Ec.
  { unfold scdk_endpoint_call. rewrite Et. cbn [file_services]. rewrite Hh. by rewrite (bind_Ok _ _ _ _ _ Ea). }
  rewrite (bind_Ok _ _ _ _ _ Ec). eexists _, s'. split; [done|]. split_and!; [done|done|].
  by rewrite <-Er in Hs.
Qed.

Lemma vfs_call_run s msg payload :
  mounted s → ∃ oid ctx, scdk_endpoint_call (file_services other 2 payload) vfs msg s =
    (let* reply := vfs_endpoint_handler_fn (file_services other 1 payload) payload vfs (set_msg_target msg oid) ctx in
     ret (set_msg_status reply.1 (Endpoint.status_word reply.2), reply.2)) s.
Proof.
  intros Hm. destruct (mo_vfs _ Hm) as [_ (oid & ctx & Ev)]. exists oid, ctx.
  unfold scdk_endpoint_call. by rewrite Ev.
Qed.

Lemma call_forward (spec : file_reply → T → Prop) s msg payload op :
  mounted s →
  (∀ msg' ep ctx, same_request msg msg' →
     vfs_endpoint_handler_fn (file_services other 1 payload) payload ep msg' ctx s =
     vfs_forward_to_tmpfs (file_services other 1 payload) msg' s) →
  (∀ msg', same_request msg msg' → simulates spec (op msg') s ∧
     ∀ ep ctx, tmpfs_endpoint_handler_fn payload ep msg' ctx = answers msg' (op msg')) →
  ∃ reply s', scdk_endpoint_call (file_services other 2 payload) vfs msg s = (Ok reply, s') ∧ mounted s' ∧
    (∀ r', request_ok (kernel_of s) r' → request_ok (kernel_of s') r') ∧ spec (reply_of reply) s'.
Proof.
  intros Hm Hv Hop. destruct (vfs_call_run s msg payload Hm) as (oid & ctx & Ecall).
  destruct (forward_run spec s payload (set_msg_target msg oid) op Hm) as (reply & s' & E & Hr).
  { intros msg' [t ->]. apply Hop. by exists t. }
  exists (set_msg_status reply.1 (Endpoint.status_word reply.2), reply.2), s'. split; [|done].
  rewrite Ecall. unfold bind at 1. rewrite Hv, E; [done|by eexists].
Qed.

(** Opening a file, with the length of the path or without. *)
Lemma open_call s msg path buf :
  mounted s → msg_type msg = SCDK_MSG_OPEN → msg_arg0 msg ≠ 0 →
  msg_arg1 msg = Z.of_nat (length path) ∨ msg_arg1 msg = 0 → request_ok (kernel_of s) (F_open path) → cstr buf path →
  ∃ reply s', scdk_endpoint_call (file_services other 2 (Some buf)) vfs msg s = (Ok reply, s') ∧ mounted s' ∧
    (∀ r', request_ok (kernel_of s) r' → request_ok (kernel_of s') r') ∧
    opens s (file_lookup path boot) (reply_of reply) s'.
Proof.
  intros Hm Hty Ha Hlen [Hl _] Hbuf. destruct path as [|b path]; [simpl in Hl; lia|].
  assert (load8 buf 0 = Ok b) as Hb0 by (by destruct Hbuf as [_ [rest ->]]).
  destruct (decide (b = c_slash)) as [->|Hb].
  - apply (call_forward (opens s (file_lookup (c_slash :: path) boot)) s msg (Some buf)
      (tmpfs_handle_open (Some buf))); [done| |].
    + intros msg' ep ctx [t ->]. unfold vfs_endpoint_handler_fn, vfs_handle_open, vfs_handle_path. cbn. rewrite Hty.
      change (SCDK_MSG_OPEN =? SCDK_MSG_OPEN) with true. cbv iota. rewrite (proj2 (Z.eqb_neq _ 0) Ha).
      unfold path_under_root, bind at 1. cbn [deref lift]. rewrite Hb0. cbn [rbind]. destruct Hlen as [->| ->]; [|done].
      cbn [length]. by rewrite (proj2 (Z.eqb_neq _ 0)), (proj2 (Z.ltb_lt 0 _)) by lia.
    + intros msg' [t ->]. split; [|intros ep ctx; unfold tmpfs_endpoint_handler_fn; cbn; by rewrite Hty].
      destruct (path_message buf (set_msg_target msg t) (c_slash :: path))
        as (copy & Ep & Hs); [exact Ha|done|done|exact Hl|].
      by eapply tmpfs_open_sim.
  - destruct (vfs_call_run s msg (Some buf) Hm) as (oid & ctx & Ecall).
    assert (vfs_endpoint_handler_fn (file_services other 1 (Some buf)) (Some buf) vfs
      (set_msg_target msg oid) ctx s = (Ok (set_msg_target msg oid, Err SCDK_ERR_NOENT), s)) as Eh.
    { unfold vfs_endpoint_handler_fn, vfs_handle_open, vfs_handle_path. cbn. rewrite Hty.
      change (SCDK_MSG_OPEN =? SCDK_MSG_OPEN) with true. cbv iota. rewrite (proj2 (Z.eqb_neq _ 0) Ha).
      unfold path_under_root, bind at 1. cbn [deref lift]. rewrite Hb0. cbn [rbind].
      rewrite (proj2 (Z.eqb_neq b c_slash) Hb), andb_false_r. by destruct (_ =? 0). }
    rewrite Ecall, (bind_Ok _ _ _ _ _ Eh). eexists _, s. split; [done|]. split_and!; try done. split; [|done].
    pose proof (mo_files _ Hm) as Hok.
    pose proof (initrd_find_entry (fl_initrd (the_files s)) boot buf (b :: path) (fo_boot _ _ _ Hok)
      (fo_ready _ _ _ Hok) Hbuf) as Hf.
    destruct (file_lookup (b :: path) boot) as [d|]; [|done].
    by destruct Hf as (? & ? & _ & _ & _ & _ & rest & [= -> _]).
Qed.

Lemma request_call (spec : file_reply → T → Prop) s r :
  (∃ reply s', scdk_endpoint_call (file_services other 2 (request_msg r).2) vfs (request_msg r).1 s = (Ok reply, s') ∧
     mounted s' ∧ (∀ r', request_ok (kernel_of s) r' → request_ok (kernel_of s') r') ∧ spec (reply_of reply) s') →
  ∃ out s', request r s = (Ok out, s') ∧ mounted s' ∧
    (∀ r', request_ok (kernel_of s) r' → request_ok (kernel_of s') r') ∧ spec out s'.
Proof.
  intros (reply & s' & E & Hr). exists (reply_of reply), s'. split; [|done]. unfold request. by rewrite (bind_Ok _ _ _ _ _ E).
Qed.

Lemma tmpfs_read_sim s msg :
  mounted s → request_ok (kernel_of s) (F_read (msg_arg0 msg) (msg_arg1 msg) (msg_arg2 msg) (msg_arg3 msg)) →
  simulates (serves s (F_read (msg_arg0 msg) (msg_arg1 msg) (msg_arg2 msg) (msg_arg3 msg))) (tmpfs_handle_read msg) s.
Proof.
  intros Hm Hr. pose proof (tmpfs_read_run s msg Hm Hr) as Hrun. unfold simulates, serves, effect, file_spec.
  destruct (f_open (fstate_of s) !! msg_arg0 msg) as [d|].
  - destruct Hrun as (m & s' & E & Ea & Hs'). exists m, s'. split; [done|].
    assert (defined m) as Hd.
    { intros ->. unfold spec_read in Ea. by repeat case_match. }
    destruct Hs' as [[-> Hno]|(k' & -> & Hw & [m' ->])].
    + split_and!; try done. destruct m as [m|e|]; [|done..]. cbn [reply_args]. destruct Hno as [Hn0|[e [=]]].
      unfold read_bytes. rewrite Hn0. apply written_nil, Hm.
    + destruct (written_mounted s k' Hm (wr_step _ _ _ _ _ Hw)) as (Hm' & Ef & Hk). rewrite kernel_put_kernel.
      split_and!; done.
  - destruct Hrun as (e & E). exists (Err e), s. split_and!; try done. by exists e.
Qed.

(** One request of any kind. *)
Lemma request_sim s r :
  mounted s → path_at ≠ 0 → request_ok (kernel_of s) r →
  ∃ out s', request r s = (Ok out, s') ∧ mounted s' ∧
    (∀ r', request_ok (kernel_of s) r' → request_ok (kernel_of s') r') ∧
    serves s r out s'.
Proof.
  intros Hm Ha Hr. apply request_call. destruct r as [path|c off buf n|c].
  - apply (open_call s (request_msg (F_open path)).1 path (path ++ [0]) Hm eq_refl Ha (or_introl eq_refl) Hr).
    split; [apply Hr|by exists []].
  - apply (call_forward (serves s (F_read c off buf n)) s _ _ tmpfs_handle_read); [done|by intros msg' ep ctx [t ->]|].
    intros msg' [t ->]. split; [|done].
    by apply (tmpfs_read_sim s (set_msg_target (request_msg (F_read c off buf n)).1 t)).
  - apply (call_forward (serves s (F_close c)) s _ _ tmpfs_handle_close); [done|by intros msg' ep ctx [t ->]|].
    intros msg' [t ->]. split; [|done]. by apply (tmpfs_close_sim s (set_msg_target (request_msg (F_close c)).1 t)).
Qed.
End requests.

(** A run of the abstract service, on its own state and on memory. *)
Inductive file_run (boot : list (list Z * list Z)) (L : gmap Z label) :
    fstate → kernel → list file_request → list file_reply → fstate → kernel → Prop :=
  | file_run_nil a k : file_run boot L a k [] [] a k
  | file_run_cons a a1 a2 k k1 k2 r rs out outs :
      file_spec boot a r out a1 → memory_spec L a r out k k1 →
      file_run boot L a1 k1 rs outs a2 k2 → file_run boot L a k (r :: rs) (out :: outs) a2 k2.

Section runs.
Context {T : Type} `{Beside files T} (other : option (list Z) → handler_on T) (path_at vfs : Z).
Context (boot : list (list Z * list Z)) (L : gmap Z label).

Lemma serves_memory s r out s' :
  serves boot L s r out s' → memory_spec L (fstate_of s) r out (kernel_of s) (kernel_of s').
Proof.
  intros [Hs He]. unfold file_spec, effect, memory_spec in *. destruct r as [path|c off buf n|c]; [apply He| |by rewrite He].
  destruct Hs as [_ Hs]. destruct (f_open (fstate_of s) !! c) as [d|] eqn:Ed; [|destruct Hs as [e ->]; by rewrite He].
  destruct out as [v|e|]; [by exists d|by rewrite He..].
Qed.

Lemma requests_run rs : ∀ s,
  mounted vfs boot L s → path_at ≠ 0 → Forall (request_ok L (kernel_of s)) rs →
  ∃ outs s', requests other path_at vfs rs s = (Ok outs, s') ∧ mounted vfs boot L s' ∧
    file_run boot L (fstate_of s) (kernel_of s) rs outs (fstate_of s') (kernel_of s').
Proof.
  induction rs as [|r rs IH]; intros s Hm Ha Hrs.
  { eexists _, s. split; [done|]. split; [done|constructor]. }
  apply Forall_cons in Hrs as [Hr Hrs].
  destruct (request_sim other path_at vfs boot L s r Hm Ha Hr) as (out & s1 & E & Hm1 & Hk & Hs).
  destruct (IH s1 Hm1 Ha) as (outs & s2 & E2 & Hm2 & Hrun); [by eapply Forall_impl; [exact Hrs|]|].
  exists (out :: outs), s2. split; [|split; [done|]].
  2:{ econstructor; [exact (proj1 Hs)|by apply serves_memory|exact Hrun]. }
  cbn [requests]. by rewrite (bind_Ok _ _ _ _ _ E), (bind_Ok _ _ _ _ _ E2).
Qed.
End runs.

(** ** Properties *)

(** The successful opens of a run. *)
Fixpoint opened_count (rs : list file_request) (outs : list file_reply) : nat :=
  match rs, outs with
  | F_open _ :: rs, Ok _ :: outs => S (opened_count rs outs)
  | _ :: rs, _ :: outs => opened_count rs outs
  | _, _ => O
  end.
Lemma file_run_opens boot L a k rs outs a' k' :
  file_run boot L a k rs outs a' k' → (opened_count rs outs + f_objects a' ≤ f_objects a)%nat.
Proof.
  induction 1 as [|a a1 a2 k k1 k2 r rs out outs Hs _ _ IH]; [cbn; lia|]. destruct r as [path|c off buf n|c]; cbn in *.
  - unfold spec_open in Hs. destruct (file_lookup path boot) as [d|]; [|by destruct Hs as [-> ->]].
    case_decide; [by destruct Hs as [-> ->]|]. destruct (f_objects a) as [|x] eqn:Ea; [destruct Hs as [-> ->]; cbn in *; lia|].
    destruct (f_caps a); [destruct Hs as [-> ->]; cbn in *; lia|]. destruct Hs as (c & -> & _ & ->). cbn in *. lia.
  - by destruct Hs as [-> _].
  - destruct (f_open a !! c); [destruct Hs as [_ ->]; cbn in *; lia|]. destruct Hs as [_ ->]. lia.
Qed.

(** Once no object is left, every file that exists fails to open. *)
Lemma file_run_exhausted boot L a k rs outs a' k' :
  file_run boot L a k rs outs a' k' → f_objects a = 0%nat →
  f_objects a' = 0%nat ∧ ∀ i path, rs !! i = Some (F_open path) → ∃ e, outs !! i = Some (Err e).
Proof.
  induction 1 as [|a a1 a2 k k1 k2 r rs out outs Hs _ _ IH]; intros Ha; [done|].
  assert (f_objects a1 = 0%nat ∧ (∀ path, r = F_open path → ∃ e, out = Err e)) as [Ha1 Hout].
  { destruct r as [path|c off buf n|c]; cbn in Hs.
    - unfold spec_open in Hs. rewrite Ha in Hs.
      split; [|intros ? _]; (destruct (file_lookup path boot); [case_decide|]; destruct Hs as [-> ->]; by eauto).
    - destruct Hs as [-> _]. done.
    - destruct (f_open a !! c); destruct Hs as [_ ->]; done. }
  destruct (IH Ha1) as [Ha2 Hrest]. split; [done|]. intros [|i] path Hi; simpl in *; [|by eapply Hrest].
  injection Hi as ->. destruct (Hout path eq_refl) as [e ->]. eauto.
Qed.

Section properties.
Context {T : Type} `{Beside files T} (other : option (list Z) → handler_on T) (path_at vfs : Z).
Context (boot : list (list Z * list Z)) (L : gmap Z label).
Implicit Types s : T.

(** C11. The file service as a map. Through the VFS endpoint, any sequence of
    open, read and close requests is answered as by a map from capabilities to
    file contents: an open finds exactly the boot files, gives a capability that
    was not in the map and the size, and fails only when 32 files are open or the
    kernel has no object or capability left; a read is answered from the map, cut
    at the end of the file, and leaves at the caller's address exactly the bytes of
    the file from the offset on, with no other byte of memory changed; a close
    removes the capability, which is refused from then on. Opens, closes and
    requests that fail change no memory. *)
Theorem vfs_refines_file_table s rs :
  mounted vfs boot L s → path_at ≠ 0 → Forall (request_ok L (kernel_of s)) rs →
  ∃ outs s', requests other path_at vfs rs s = (Ok outs, s') ∧ mounted vfs boot L s' ∧
    file_run boot L (fstate_of s) (kernel_of s) rs outs (fstate_of s') (kernel_of s').
Proof. intros. by apply requests_run. Qed.

(** Reading a boot file: opening a path gives a capability and the size;
    reading through it at an offset stores in the caller's buffer exactly the bytes
    of the file from there on, as many as were asked for and the file has, and
    changes no other byte of memory; after the close the capability reads nothing. *)
Theorem vfs_file_session s path d offset buffer n :
  mounted vfs boot L s → path_at ≠ 0 → request_ok L (kernel_of s) (F_open path) →
  (∀ c, u64 c → request_ok L (kernel_of s) (F_read c offset buffer n)) → n ≠ 0 →
  file_lookup path boot = Some d → offset <= Z.of_nat (length d) →
  (size (f_open (fstate_of s)) ≠ Z.to_nat SCDK_TMPFS_MAX_OPEN_FILES)%nat →
  (0 < f_objects (fstate_of s))%nat → (0 < f_caps (fstate_of s))%nat →
  let data := read_bytes d offset n in
  ∃ c s1 s2 s3,
    request other path_at vfs (F_open path) s = (Ok (Ok (c, Z.of_nat (length d))), s1) ∧
    request other path_at vfs (F_read c offset buffer n) s1 = (Ok (Ok (Z.of_nat (length data), offset)), s2) ∧
    k_vmm (kernel_of s1) = k_vmm (kernel_of s) ∧ written L (kernel_of s1) (kernel_of s2) buffer data ∧
    (∃ v, request other path_at vfs (F_close c) s2 = (Ok (Ok v), s3)) ∧
    ∃ e s4, request other path_at vfs (F_read c offset buffer n) s3 = (Ok (Err e), s4).
Proof.
  intros Hm Ha Hop Hread Hn Hd Hoff Hroom Hobj Hcap data.
  destruct (request_sim other path_at vfs boot L s _ Hm Ha Hop) as (out & s1 & E1 & Hm1 & Hk1 & Hs1 & He1).
  unfold file_spec, spec_open in Hs1. rewrite Hd, decide_False in Hs1 by done.
  destruct (f_objects (fstate_of s)) as [|i]; [lia|]. destruct (f_caps (fstate_of s)) as [|j]; [lia|].
  destruct Hs1 as (c & -> & Hfresh & Ef1).
  assert (f_open (fstate_of s1) !! c = Some d) as Hc by (rewrite Ef1; apply lookup_insert_eq).
  assert (u64 c) as Hu by (by apply (handles_lookup _ _ _ _ _ (mo_files _ _ _ _ Hm1)) in Hc as [? _]).
  destruct (request_sim other path_at vfs boot L s1 (F_read c offset buffer n) Hm1 Ha) as
    (out2 & s2 & E2 & Hm2 & Hk2 & [Ef2 Hs2] & He2); [auto|].
  rewrite Hc in Hs2. unfold spec_read in Hs2. rewrite (proj2 (Z.eqb_neq n 0) Hn), (proj2 (Z.ltb_ge _ _) Hoff) in Hs2.
  subst out2. unfold effect in He2. rewrite Hc in He2.
  destruct (request_sim other path_at vfs boot L s2 (F_close c) Hm2 Ha Hu) as (out3 & s3 & E3 & Hm3 & Hk3 & Hs3 & _).
  unfold file_spec in Hs3. rewrite Ef2, Hc in Hs3. destruct Hs3 as [[v ->] Ef3].
  destruct (request_sim other path_at vfs boot L s3 (F_read c offset buffer n) Hm3 Ha) as
    (out4 & s4 & E4 & _ & _ & [_ Hs4] & _); [auto|].
  rewrite Ef3 in Hs4. cbn [f_open] in Hs4. rewrite lookup_delete_eq in Hs4. destruct Hs4 as [e ->].
  exists c, s1, s2, s3. split_and!; [done|done|apply He1|done|by exists v|by exists e, s4].
Qed.

(** C38. Files can be opened only finitely often: every successful open uses up
    an object of the kernel's table of 4096, closing gives none back, and when
    none is left every open fails, whatever is closed before it. *)
Theorem file_opens_bounded s rs :
  mounted vfs boot L s → path_at ≠ 0 → Forall (request_ok L (kernel_of s)) rs →
  ∃ outs s', requests other path_at vfs rs s = (Ok outs, s') ∧
    (opened_count rs outs + free_objects (kernel_of s') ≤ free_objects (kernel_of s) ≤ Z.to_nat SCDK_MAX_OBJECTS)%nat ∧
    (free_objects (kernel_of s) = 0%nat →
       ∀ i path, rs !! i = Some (F_open path) → ∃ e, outs !! i = Some (Err e)).
Proof.
  intros Hm Ha Hr. destruct (requests_run other path_at vfs boot L rs s Hm Ha Hr) as (outs & s' & E & _ & Hrun).
  exists outs, s'. split; [done|]. split; [split|].
  - by apply file_run_opens in Hrun.
  - unfold free_objects. etrans; [apply length_filter|].
    by rewrite (owf_table_length _ (cwf_objs _ (kwf_caps _ (fo_kernel _ _ _ (mo_files _ _ _ _ Hm))))).
  - intros H0'. by apply (file_run_exhausted _ _ _ _ _ _ _ _ Hrun).
Qed.
End properties.

(** ** Reads that are not forwarded *)
Section unchecked.
Context {T : Type} `{Beside files T} (other : option (list Z) → handler_on T) (buffer vfs : Z).
Context (boot : list (list Z * list Z)) (L : gmap Z label).
Implicit Types (s : T) (msg : scdk_message).

(** A message sent to tmpfs itself is delivered as it is. *)
Lemma direct_read_delivered s ep ptr msg :
  mounted vfs boot L s → u64 ptr → authorised (kernel_of s) ep ptr msg →
  msg_type msg = SCDK_MSG_READ → msg_target msg = SCDK_SERVICE_TMPFS →
  struct_ok msg ∧ scdk_sys_endpoint_call (file_services other 2) buffer ep ptr s =
    deliver (file_services other 2) ep ptr (msg, None) s.
Proof.
  intros Hm Hp Hau Hty Htg. pose proof (fo_kernel _ _ _ (mo_files _ _ _ _ Hm)) as Hwf.
  destruct (authorise_cases buffer (file_services other 2) L ep ptr s Hwf (mo_memory _ _ _ _ Hm) Hp)
    as [(m' & Ha & Hok & E)|(? & ? & Hno & _)]; [|by destruct (Hno msg)].
  assert (m' = msg) as -> by (destruct Ha as [_ A1 _], Hau as [_ A2 _]; congruence).
  split; [done|]. rewrite E. unfold prepare_request. rewrite Hty, Htg. reflexivity.
Qed.

(** C36. System calls do not keep user code out of kernel memory: a READ message
    to the tmpfs endpoint itself, which any program that has the token can send,
    has the file's bytes written to the address it names when the kernel has that
    range mapped writable, whether or not user code may access it; so user code
    chooses both the place and, by the file and the offset, the bytes. The range is
    one that holds no page table (a write there would change the mapping half way),
    no two of its bytes share a place, and it is apart from the message itself,
    where the reply is stored afterwards. *)
Theorem user_read_writes_anywhere s ep ptr msg d (f : Z → Z) oid ctx :
  let data := read_bytes d (msg_arg1 msg) (msg_arg3 msg) in
  let p := msg_arg2 msg in
  mounted vfs boot L s → u64 ptr → authorised (kernel_of s) ep ptr msg →
  msg_type msg = SCDK_MSG_READ → msg_target msg = SCDK_SERVICE_TMPFS →
  endpoint_target (kernel_of s) ep = Ok (oid, tmpfs_endpoint_handler, ctx) →
  f_open (fstate_of s) !! msg_arg0 msg = Some d → msg_arg1 msg <= Z.of_nat (length d) →
  p ≠ 0 → msg_arg3 msg ≠ 0 →
  (∀ i, 0 <= i < Z.of_nat (length data) → mmu_write (kernel_of s) (p + i) = Ok (f (p + i)) ∧ no_table L (f (p + i))) →
  (∀ i j, 0 <= i < Z.of_nat (length data) → 0 <= j < Z.of_nat (length data) → f (p + i) = f (p + j) → i = j) →
  (∀ i v t, 0 <= i < Z.of_nat (length data) → ptr <= v < ptr + struct_size scdk_message →
     scdk_vmm_virt_to_phys (kernel_of s) v = Ok t → t.1 ≠ f (p + i)) →
  ∀ i b, data !! i = Some b →
  load_byte (kernel_of (scdk_sys_endpoint_call (file_services other 2) buffer ep ptr s).2) (f (p + Z.of_nat i)) = b.
Proof.
  intros data p Hm Hp Hau Hty Htg Hep Hd Hoff Hp0 Hn0 Hmap Hinj Hapart i b Hi.
  destruct (direct_read_delivered s ep ptr msg Hm Hp Hau Hty Htg) as [Hok ->].
  unfold struct_ok in Hok. simpl in Hok. rewrite !Forall_cons in Hok.
  destruct Hok as (_ & _ & _ & Hu0 & Hu1 & _ & Hu3 & _).
  pose proof (mo_memory _ _ _ _ Hm) as Hum.
  destruct (user_store_run L f data p (kernel_of s) (um_typed _ _ Hum) (um_synced _ _ Hum)) as (k1 & Est & Hs1 & _ & Hin);
    [by eapply handle_bytes|exact Hmap|].
  set (msg' := set_msg_target msg oid).
  assert (tmpfs_handle_read msg' s = (Ok (set_msg_args msg' (Z.of_nat (length data)) (msg_arg1 msg) p (msg_arg3 msg)),
    put_kernel k1 s)) as Eread by (by apply (tmpfs_read_copy vfs boot L s msg' d k1)).
  unfold deliver. cbn [fst snd]. unfold bind at 1.
  assert (∃ r, scdk_endpoint_call (file_services other 2 None) ep msg s = (Ok r, put_kernel k1 s)) as [r ->].
  { assert (tmpfs_endpoint_handler_fn None ep msg' ctx = answers msg' (tmpfs_handle_read msg')) as Eh.
    { unfold tmpfs_endpoint_handler_fn. change (msg_type msg') with (msg_type msg). by rewrite Hty. }
    destruct (answers_run msg' _ _ _ _ Eread) as (reply & Ea & _); [done|].
    unfold scdk_endpoint_call. rewrite Hep. cbn [file_services]. fold msg'. rewrite Eh, (bind_Ok _ _ _ _ _ Ea). by eexists. }
  assert (user_memory k1 L) as Hum1 by (by eapply user_memory_step).
  destruct (write_struct_run k1 L ptr (set_msg_status r.1 (Endpoint.status_word r.2)) Hum1 Hp message_size)
    as [(e & Ew)|(k2 & Ew & _ & _ & Hout)].
  - unfold bind at 1, attempt.
    rewrite (onkern_put _ _ (Err e) k1) by (by rewrite kernel_put_kernel). unfold fail. cbn [snd].
    rewrite kernel_put_kernel. by apply Hin.
  - unfold bind at 1, attempt. rewrite (onkern_put _ _ (Ok tt) k2) by (by rewrite kernel_put_kernel).
    cbn [snd]. unfold lift. cbn [snd]. rewrite kernel_put_kernel, Hout; [by apply Hin|].
    intros v t Hv Ht. rewrite (mem_step_translate _ _ L _ (um_typed _ _ Hum) Hs1) in Ht.
    apply (Hapart (Z.of_nat i) v t); [|done|done]. apply lookup_lt_Some in Hi. lia.
Qed.
End unchecked.

(** ** Witnesses *)
(** Services that have just started. *)
Lemma files_ok_start k fs boot :
  kernel_wf k → open_files fs = zeroed SCDK_TMPFS_MAX_OPEN_FILES null_file →
  Forall (λ o, ∀ i, obj_payload o ≠ P_file i) (object_table (k_objs k)) →
  initrd_rep (fl_initrd fs) boot → initrd_initialized (fl_initrd fs) = true → Forall (λ x, Forall byte x.2) boot →
  files_ok k fs boot.
Proof.
  intros Hwf Hz Hno Hr Hi Hb.
  assert (∀ i f, open_files fs !! i = Some f → tf_open f = false) as Hcl.
  { intros i f. rewrite Hz. by intros ->%lookup_zeroed_inv. }
  split; try done.
  - rewrite Hz. apply length_replicate.
  - intros id o i (j & Hj & _)%object_lookup_Ok Hp. rewrite Forall_lookup in Hno. by destruct (Hno j o Hj i).
  - intros i f Hf Ho. by rewrite (Hcl i f Hf) in Ho.
  - intros c i f _ (_ & _ & g & _ & _ & _ & Hg & _ & Ho)%file_slot_Ok _. by rewrite (Hcl i g Hg) in Ho.
  - intros i f Hf Ho. by rewrite (Hcl i f Hf) in Ho.
Qed.
Definition not_file (o : scdk_object) : bool := match obj_payload o with P_file _ => false | _ => true end.
Lemma no_files l : forallb not_file l = true → Forall (λ o, ∀ i, obj_payload o ≠ P_file i) l.
Proof.
  intros Hall. rewrite forallb_forall in Hall. apply Forall_forall. intros o Ho i Hp.
  apply list_elem_of_In in Ho. specialize (Hall o Ho). unfold not_file in Hall. by rewrite Hp in Hall.
Qed.

(** What the two initialisations do to the kernel. *)
Definition start_endpoints : K unit :=
  let* t := scdk_endpoint_create SCDK_BOOT_CORE (Some tmpfs_endpoint_handler) 0 in
  scdk_service_register SCDK_SERVICE_TMPFS t ;;
  let* v := scdk_endpoint_create SCDK_BOOT_CORE (Some vfs_endpoint_handler) 0 in
  scdk_service_register SCDK_SERVICE_VFS v.
Lemma start_endpoints_memory k :
  k_vmm (start_endpoints k).2 = k_vmm k ∧ k_pmm (start_endpoints k).2 = k_pmm k.
Proof.
  assert (Keeps (λ k, (k_vmm k, k_pmm k)) start_endpoints) as Hkeep.
  { unfold start_endpoints, scdk_endpoint_create, scdk_service_register,
      scdk_object_create, next_generation, scdk_cap_create, next_cap_generation. apply _. }
  injection (Hkeep k) as Ev Ep. done.
Qed.
Lemma start_endpoints_kwf : preserves kernel_wf start_endpoints.
Proof.
  unfold start_endpoints. apply preserves_bind; [apply endpoint_create_kwf|intros t].
  apply preserves_bind; [apply service_register_kwf|intros _].
  apply preserves_bind; [apply endpoint_create_kwf|intros v]. apply service_register_kwf.
Qed.
Definition demo_fs_kernel : kernel := (start_endpoints demo_mapped).2.
Definition demo_fs (k : kernel) : machine * files :=
  (machine_of k, mk_files demo_initrd (zeroed SCDK_TMPFS_MAX_OPEN_FILES null_file) true 4294967296 true).
Lemma demo_fs_mounted k L :
  kernel_wf k → user_memory k L → forallb not_file (object_table (k_objs k)) = true →
  (∃ oid ctx, endpoint_target k 4294967297 = Ok (oid, vfs_endpoint_handler, ctx)) →
  (∃ oid ctx, endpoint_target k 4294967296 = Ok (oid, tmpfs_endpoint_handler, ctx)) →
  mounted 4294967297 demo_files L (demo_fs k).
Proof.
  intros Hwf Hum Hno Hv Ht. destruct demo_initrd_rep as [Hr Hi]. split; [|split; [|exact Hv]|split; [|exact Ht]|exact Hum].
  - apply files_ok_start; [exact Hwf|reflexivity|by apply no_files|exact Hr|exact Hi|].
    unfold demo_files, byte. repeat (apply Forall_cons; split); cbn [snd];
      try apply Forall_nil; try exact I; repeat (apply Forall_cons; split); try apply Forall_nil; try exact I; lia.
  - unfold u64, two64. lia.
  - cbn. unfold u64, two64. lia.
Qed.
Definition demo_mounted : machine * files := demo_fs demo_fs_kernel.
Lemma demo_mounted_ok :
  ∃ L, mounted 4294967297 demo_files L demo_mounted ∧
    ∀ v, 4194304 <= v < 4198400 → scdk_vmm_virt_to_phys demo_fs_kernel v = Ok (v - 4124672, 3).
Proof.
  destruct demo_mapped_memory as (L & Hum & Ht). exists L.
  destruct (start_endpoints_memory demo_mapped) as [Ev Ep]. fold demo_fs_kernel in Ev, Ep. split.
  - apply demo_fs_mounted; [exact (start_endpoints_kwf _ demo_mapped_kwf)|exact (user_memory_vmm _ _ L Ev Ep Hum)
      |vm_compute; reflexivity|eexists _, _; vm_compute; reflexivity|eexists _, _; vm_compute; reflexivity].
  - intros v Hv. rewrite (virt_to_phys_vmm _ _ v Ev). exact (Ht v Hv).
Qed.
Definition no_others : option (list Z) → handler_on (machine * files) := λ _ _ _ msg _, ret (msg, Err SCDK_ERR_NOTSUP).
(** Open [/a], read two bytes at offset 1, close, read again. *)
Definition demo_requests : list file_request :=
  [F_open [47; 97]; F_read 4294967298 1 4194400 2; F_close 4294967298; F_read 4294967298 1 4194400 2].
Lemma demo_read_ok L c :
  mounted 4294967297 demo_files L demo_mounted → u64 c → request_ok L demo_fs_kernel (F_read c 1 4194400 2).
Proof.
  intros Hm Hc. destruct demo_mounted_ok as (_ & _ & Ht). unfold request_ok.
  assert (u64 1 ∧ u64 4194400 ∧ u64 2) as (H1 & H2 & H3) by (unfold u64, two64; lia). split_and!; [done..|].
  intros _. apply validated_writable; [exact (mo_memory _ _ _ _ Hm)|done|done|].
  apply validate_range_spec; [done..|]. exact (demo_user_range demo_fs_kernel 4194400 2 Ht ltac:(lia) ltac:(lia) ltac:(lia)).
Qed.
Lemma demo_open_ok L k : request_ok L k (F_open [47; 97]).
Proof. split; [cbn; unfold SCDK_INITRD_MAX_PATH; lia|]. repeat (apply Forall_cons; split; [lia|]). by apply Forall_nil. Qed.
Lemma demo_requests_ok L :
  mounted 4294967297 demo_files L demo_mounted → Forall (request_ok L demo_fs_kernel) demo_requests.
Proof.
  intros Hm. assert (u64 4294967298) as Hu by (unfold u64, two64; lia). unfold demo_requests.
  apply Forall_cons. split; [apply demo_open_ok|]. apply Forall_cons. split; [by apply demo_read_ok|].
  apply Forall_cons. split; [exact Hu|]. apply Forall_cons. split; [by apply demo_read_ok|]. apply Forall_nil. exact I.
Qed.

Lemma vfs_refines_file_table_witness :
  ∃ L s', requests no_others 8192 4294967297 demo_requests demo_mounted =
      (Ok [Ok (4294967298, 3); Ok (2, 1); Ok (4294967298, 0); Err SCDK_ERR_NOENT], s') ∧
    file_run demo_files L (fstate_of demo_mounted) (kernel_of demo_mounted) demo_requests
      [Ok (4294967298, 3); Ok (2, 1); Ok (4294967298, 0); Err SCDK_ERR_NOENT] (fstate_of s') (kernel_of s').
Proof.
  destruct demo_mounted_ok as (L & Hm & _).
  destruct (vfs_refines_file_table no_others 8192 4294967297 demo_files L demo_mounted demo_requests Hm
    ltac:(discriminate) (demo_requests_ok L Hm)) as (outs & s' & E & _ & Hrun).
  assert ((requests no_others 8192 4294967297 demo_requests demo_mounted).1 =
    Ok [Ok (4294967298, 3); Ok (2, 1); Ok (4294967298, 0); Err SCDK_ERR_NOENT]) as Eo by (vm_compute; reflexivity).
  rewrite E in Eo. injection Eo as ->. exists L, s'. split; [exact E|exact Hrun].
Defined.

Lemma vfs_file_session_witness :
  ∃ c s1 s2, request no_others 8192 4294967297 (F_open [47; 97]) demo_mounted = (Ok (Ok (c, 3)), s1) ∧
    request no_others 8192 4294967297 (F_read c 1 4194400 2) s1 = (Ok (Ok (2, 1)), s2).
Proof.
  destruct demo_mounted_ok as (L & Hm & _).
  destruct (vfs_file_session no_others 8192 4294967297 demo_files L demo_mounted [47; 97] [1; 2; 3] 1 4194400 2)
    as (c & s1 & s2 & s3 & E1 & E2 & _); [exact Hm|discriminate|apply demo_open_ok|intros c; apply (demo_read_ok L c Hm)|discriminate
      |vm_compute; reflexivity|vm_compute; discriminate|vm_compute; discriminate|vm_compute; lia|vm_compute; lia|].
  exists c, s1, s2. split; [exact E1|exact E2].
Defined.

Lemma file_opens_bounded_witness :
  ∃ outs s', requests no_others 8192 4294967297 demo_requests demo_mounted = (Ok outs, s') ∧
    (opened_count demo_requests outs ≤ 4096)%nat.
Proof.
  destruct demo_mounted_ok as (L & Hm & _).
  destruct (file_opens_bounded no_others 8192 4294967297 demo_files L demo_mounted demo_requests Hm
    ltac:(discriminate) (demo_requests_ok L Hm)) as (outs & s' & E & Hb & _).
  exists outs, s'. split; [exact E|]. change (Z.to_nat SCDK_MAX_OBJECTS) with 4096%nat in Hb. lia.
Defined.

(** A kernel page next to the user page: [demo_kpage] maps a page of the upper
    half without the user bit. *)
Definition demo_secret : Z := 0xffffc00000000000.
Definition demo_kpage : kernel :=
  (scdk_vmm_map_page_in_root 1048576 demo_secret 73728 SCDK_VMM_MAP_WRITE demo_mapped).2.
Lemma demo_two_labels :
  ∃ L, pt_typed demo_vm L ∧ L !! 1048576 = Some (1048576, []) ∧ L !! 69632 = Some data_label ∧ L !! 73728 = Some data_label.
Proof.
  assert (∀ q, 40000 < q → q ∉ page_stack (k_pmm demo_vm)) as Hst.
  { intros q Hq. assert (page_stack (k_pmm demo_vm) = [32768; 28672; 24576; 20480; 16384; 12288; 8192; 4096]) as ->
      by (vm_compute; reflexivity).
    intros H. repeat (apply elem_of_cons in H as [H|H]; [lia|]). by apply elem_of_nil in H. }
  exists (<[73728 := data_label]> (<[69632 := data_label]> demo_labels)). split_and!.
  - apply typed_label_data; [apply typed_label_data; [exact demo_vm_typed|by apply lookup_singleton_None|done|done|by apply Hst]
      |rewrite lookup_insert_ne by done; by apply lookup_singleton_None|done|done|by apply Hst].
  - rewrite !lookup_insert_ne by done. exact demo_root.
  - rewrite lookup_insert_ne by done. apply lookup_insert_eq.
  - apply lookup_insert_eq.
Qed.
Lemma demo_kpage_typed :
  ∃ L, pt_typed demo_kpage L ∧ L !! 69632 = Some data_label ∧ L !! 73728 = Some data_label ∧
    (∀ v, 0 <= v < SCDK_USER_VIRT_TOP →
       scdk_vmm_virt_to_phys demo_kpage v = scdk_vmm_virt_to_phys demo_mapped v) ∧
    ∀ v, 4194304 <= v < 4198400 → scdk_vmm_virt_to_phys demo_kpage v = Ok (v - 4124672, 3).
Proof.
  assert (u64 4194304 ∧ 0 <= 69632 < phys_limit ∧ u64 3) as (H1 & H2 & H3) by (unfold u64, two64, phys_limit; lia).
  assert (u64 demo_secret ∧ 0 <= 73728 < phys_limit ∧ u64 SCDK_VMM_MAP_WRITE) as (H4 & H5 & H6)
    by (unfold u64, two64, phys_limit, demo_secret, SCDK_VMM_MAP_WRITE; lia).
  destruct demo_two_labels as (L0 & HT0 & Hr0 & Ha & Hb).
  destruct (map_page_state _ _ _ _ _ _ _ _ HT0 Hr0 H1 H2 H3 demo_map_runs) as (L1 & Hs1 & HT1 & _ & _ & Hnew).
  pose proof (lookup_weaken _ _ _ _ Hr0 Hs1) as Hr1.
  assert (scdk_vmm_map_page_in_root 1048576 demo_secret 73728 SCDK_VMM_MAP_WRITE demo_mapped = (Ok tt, demo_kpage)) as Hrun
    by (apply run_to; [reflexivity|vm_compute; reflexivity]).
  destruct (map_page_state _ _ _ _ _ _ _ _ HT1 Hr1 H4 H5 H6 Hrun) as (L2 & Hs2 & HT2 & _ & Hother & _).
  assert (∀ v, 0 <= v < SCDK_USER_VIRT_TOP →
    scdk_vmm_virt_to_phys demo_kpage v = scdk_vmm_virt_to_phys demo_mapped v) as Htr.
  { intros v Hv. unfold scdk_vmm_virt_to_phys. change (active_cr3_phys (k_vmm demo_kpage)) with 1048576.
    change (active_cr3_phys (k_vmm demo_mapped)) with 1048576. apply pte_same_translation; [vm_compute; reflexivity|].
    apply Hother; [exact Hr1|lia|]. left. unfold page_bits, SCDK_USER_VIRT_TOP in *.
    rewrite (Z.mod_small (v / 4096)) by (split; [apply Z.div_pos|apply Z.div_lt_upper_bound]; lia).
    assert (v / 4096 < 34359738368) by (apply Z.div_lt_upper_bound; lia).
    change (demo_secret / 4096 mod 68719476736) with 51539607552. lia. }
  exists L2. split_and!; [exact HT2|exact (lookup_weaken _ _ _ _ (lookup_weaken _ _ _ _ Ha Hs1) Hs2)
    |exact (lookup_weaken _ _ _ _ (lookup_weaken _ _ _ _ Hb Hs1) Hs2)|exact Htr|].
  intros v Hv. rewrite Htr by (unfold SCDK_USER_VIRT_TOP; lia). replace (v - 4124672) with (69632 + (v - 4194304)) by lia.
  replace v with (4194304 + (v - 4194304)) at 1 by lia. exact (Hnew (v - 4194304) ltac:(lia)).
Qed.
Lemma demo_kpage_memory :
  ∃ L, user_memory demo_kpage L ∧ L !! 73728 = Some data_label ∧
    ∀ v, 4194304 <= v < 4198400 → scdk_vmm_virt_to_phys demo_kpage v = Ok (v - 4124672, 3).
Proof.
  destruct demo_kpage_typed as (L & HT & Ha & Hb & Htr & Hpage). exists L. split; [|split; [exact Hb|exact Hpage]].
  split; [exact HT|vm_compute; reflexivity|]. intros v t Hv _ E. rewrite Htr in E by exact Hv.
  pose proof (demo_user_bytes v t Hv E) as Hin. rewrite <-Htr, (Hpage v Hin) in E by exact Hv. injection E as <-.
  intros l. assert ((v - 4124672, 3).1 - (v - 4124672, 3).1 mod 4096 = 69632) as -> by
    (simpl; Z.to_euclidean_division_equations; lia).
  rewrite Ha. intros [= <-]. simpl. lia.
Qed.

(** The program asks tmpfs itself to read [/a] into that page. *)
Definition demo_attack : scdk_message :=
  mk_message 0 SCDK_SERVICE_TMPFS SCDK_MSG_READ 4294967298 0 demo_secret 3 0.
Definition demo_attacker : kernel := (write_struct 4194368 demo_attack demo_kpage).2.
Definition demo_attacked : kernel := (start_endpoints demo_attacker).2.
Definition demo_prey : machine * files := (request no_others 8192 4294967297 (F_open [47; 97]) (demo_fs demo_attacked)).2.

Lemma demo_kpage_kwf : kernel_wf demo_kpage.
Proof.
  apply (kernel_wf_frame demo_mapped); [exact demo_mapped_kwf|vm_compute; reflexivity..|].
  split; vm_compute; reflexivity.
Qed.
Lemma demo_attacked_ok :
  ∃ L, mounted 4294967297 demo_files L (demo_fs demo_attacked) ∧ L !! 73728 = Some data_label ∧
    ∀ v, 4194304 <= v < 4198400 → scdk_vmm_virt_to_phys demo_attacked v = Ok (v - 4124672, 3).
Proof.
  destruct demo_kpage_memory as (L & Hum & HL & Ht). exists L.
  destruct (start_endpoints_memory demo_attacker) as [Ev Ep]. fold demo_attacked in Ev, Ep.
  assert (u64 4194368) as Hp by (unfold u64, two64; lia).
  assert (write_struct 4194368 demo_attack demo_kpage = (Ok tt, demo_attacker)) as Hrun
    by (apply run_to; [reflexivity|vm_compute; reflexivity]).
  destruct (write_struct_run demo_kpage L 4194368 demo_attack Hum Hp message_size)
    as [(e & E)|(k' & E & Hs & _)]; destruct (run_unique _ _ _ _ _ _ Hrun E) as [Er Ek]; [discriminate Er|].
  clear E. subst k'. split_and!; [|exact HL|].
  - apply demo_fs_mounted; [|exact (user_memory_vmm _ _ L Ev Ep (user_memory_step _ _ L Hum Hs))
      |vm_compute; reflexivity|eexists _, _; vm_compute; reflexivity|eexists _, _; vm_compute; reflexivity].
    exact (start_endpoints_kwf _ (core_tables_kwf _ _ (write_struct_core 4194368 demo_attack demo_kpage) demo_kpage_kwf)).
  - intros v Hv. rewrite (virt_to_phys_vmm _ _ v Ev), (mem_step_translate _ _ L v (um_typed _ _ Hum) Hs). exact (Ht v Hv).
Qed.
Lemma demo_prey_ok :
  ∃ L, mounted 4294967297 demo_files L demo_prey ∧ L !! 73728 = Some data_label ∧
    ∀ v, 4194304 <= v < 4198400 → scdk_vmm_virt_to_phys (kernel_of demo_prey) v = Ok (v - 4124672, 3).
Proof.
  destruct demo_attacked_ok as (L & Hm & HL & Ht). exists L.
  destruct (request_sim no_others 8192 4294967297 demo_files L (demo_fs demo_attacked) (F_open [47; 97]) Hm
    ltac:(discriminate) (demo_open_ok L _)) as (out & s' & E & Hm' & _ & _ & [Ev _ _ _ _ _]).
  assert (demo_prey = s') as -> by (unfold demo_prey; by rewrite E). split_and!; [exact Hm'|exact HL|].
  intros v Hv. rewrite (virt_to_phys_vmm _ _ v Ev). exact (Ht v Hv).
Qed.

Lemma user_read_writes_anywhere_witness :
  ¬ user_byte (kernel_of demo_prey) true demo_secret ∧
  load_byte (kernel_of (scdk_sys_endpoint_call (file_services no_others 2) 8192 4294967296 4194368 demo_prey).2) 73730 = 3.
Proof.
  destruct demo_prey_ok as (L & Hm & HL & Ht). split.
  { intros (t & E & Hu & _). assert (scdk_vmm_virt_to_phys (kernel_of demo_prey) demo_secret = Ok (73728, 1)) as E'
      by (vm_compute; reflexivity). rewrite E' in E. injection E as <-. by apply Hu. }
  assert (∀ i, 0 <= i < 3 → mmu_write (kernel_of demo_prey) (demo_secret + i) = Ok (73728 + i)) as Hmmu.
  { intros i Hi. assert (i = 0 ∨ i = 1 ∨ i = 2) as [->|[->| ->]] by lia; vm_compute; reflexivity. }
  refine (user_read_writes_anywhere no_others 8192 4294967297 demo_files L demo_prey 4294967296 4194368 demo_attack [1; 2; 3]
    (λ v, v - demo_secret + 73728) _ _ Hm _ _ _ _ _ _ _ _ _ _ _ _ 2%nat 3 _).
  - unfold u64, two64. lia.
  - split; [eexists; vm_compute; reflexivity|vm_compute; reflexivity|vm_compute; reflexivity].
  - reflexivity.
  - reflexivity.
  - vm_compute. reflexivity.
  - vm_compute. reflexivity.
  - vm_compute. discriminate.
  - vm_compute. discriminate.
  - vm_compute. discriminate.
  - intros i Hi. change (0 <= i < 3) in Hi. change (msg_arg2 demo_attack) with demo_secret.
    replace (demo_secret + i - demo_secret + 73728) with (73728 + i) by lia. split; [by apply Hmmu|].
    intros l. replace (73728 + i - (73728 + i) mod 4096) with 73728 by (Z.to_euclidean_division_equations; lia).
    rewrite HL. intros [= <-]. simpl. lia.
  - intros i j _ _. lia.
  - intros i v t Hi Hv E. change (0 <= i < 3) in Hi. change (struct_size scdk_message) with 64 in Hv.
    rewrite Ht in E by lia. injection E as <-. change (msg_arg2 demo_attack) with demo_secret. simpl. lia.
  - reflexivity.
Defined.
