(* ===== verification/Devices.v ===== *)
(** * Device manager and session service
    ([src/services/devmgr_service.c], [src/services/session_service.c])

    The device manager hands out capabilities over a device and its queue and binds
    a queue to an endpoint. The session service is the name space of user programs:
    it looks up five of the registered services. *)
From stdpp Require Import base gmap list numbers relations.
From Stdlib Require Import ZArith Lia.
From S2P Require Import Prelude.
From S2P Require Import Kernel.
From S2P Require Import Object.
From S2P Require Import Capability.
From S2P Require Import Invariant.
From S2P Require Import Endpoint.
From S2P Require Import Usermode.
From S2P Require Import UserMessage.
From S2P Require Import Component.

#[local] Open Scope Z_scope.

Definition SCDK_DEVMGR_MAX_DEVICES : Z := 8.
Definition SCDK_DEVMGR_MAX_QUEUES : Z := 16.
Definition SCDK_DEVMGR_FAKE_DEVICE_ID : Z := 1.

(** ** State *)
Record scdk_devmgr_device := mk_device {
  dv_object_id : Z;
  dv_cap : Z;
  dv_device_id : Z;
  dv_present : bool
}.
Record scdk_devmgr_queue := mk_queue {
  qu_object_id : Z;
  qu_cap : Z;
  qu_device_id : Z;
  qu_bound_target : Z;
  qu_present : bool
}.
Record devmgr := mk_devmgr {
  devices : list scdk_devmgr_device;
  queues : list scdk_devmgr_queue;
  devmgr_started : bool
}.
Definition boot_devmgr : devmgr :=
  mk_devmgr (zeroed SCDK_DEVMGR_MAX_DEVICES (mk_device 0 0 0 false))
    (zeroed SCDK_DEVMGR_MAX_QUEUES (mk_queue 0 0 0 0 false)) false.

Definition set_device (i : nat) (d : scdk_devmgr_device) (m : devmgr) : devmgr :=
  mk_devmgr (<[i := d]> (devices m)) (queues m) (devmgr_started m).
Definition set_queue (i : nat) (q : scdk_devmgr_queue) (m : devmgr) : devmgr :=
  mk_devmgr (devices m) (<[i := q]> (queues m)) (devmgr_started m).
Definition set_bound (i : nat) (target : Z) (m : devmgr) : devmgr :=
  mk_devmgr (devices m)
    (alter (λ q, mk_queue (qu_object_id q) (qu_cap q) (qu_device_id q) target (qu_present q)) i (queues m))
    (devmgr_started m).
Definition set_devmgr_started (m : devmgr) : devmgr := mk_devmgr (devices m) (queues m) true.

(** ** Device manager *)
Definition alloc_device_slot (m : devmgr) : option nat := find_slot (λ d, negb (dv_present d)) (devices m).
Definition alloc_queue_slot (m : devmgr) : option nat := find_slot (λ q, negb (qu_present q)) (queues m).

Definition queue_payload (p : payload) : result (option nat) :=
  match p with
  | P_null => Ok None
  | P_device_queue i => Ok (Some i)
  | _ => Ub
  end.
Definition devmgr_queue_from_cap (k : kernel) (m : devmgr) (queue_cap required_rights : Z) : result nat :=
  let? entry := scdk_cap_check k queue_cap required_rights SCDK_OBJ_DEVICE_QUEUE in
  let? object := scdk_object_lookup k (ce_object_id entry) in
  let? slot := queue_payload (obj_payload object) in
  match slot with
  | None => Err SCDK_ERR_NOENT
  | Some i =>
      let? queue := deref (queues m !! i) in
      let? _ := rguard (negb (qu_object_id queue =? ce_object_id entry) || negb (qu_present queue)) SCDK_ERR_NOENT in
      Ok i
  end.

Definition device_rights : Z := Z.lor (Z.lor SCDK_RIGHT_READ SCDK_RIGHT_BIND) SCDK_RIGHT_REVOKE.
Definition queue_rights : Z :=
  Z.lor (Z.lor (Z.lor SCDK_RIGHT_READ SCDK_RIGHT_WRITE) SCDK_RIGHT_BIND) SCDK_RIGHT_REVOKE.

Section devmgr.
Context {T : Type} `{Beside devmgr T}.
Implicit Types (msg : scdk_message) (s : T).

Definition devmgr_register_fake_device msg : M T scdk_message :=
  guard (negb (msg_arg0 msg =? SCDK_DEVMGR_FAKE_DEVICE_ID)) SCDK_ERR_INVAL ;;
  let* device := onown (gets alloc_device_slot) in
  let* queue := onown (gets alloc_queue_slot) in
  match device, queue with
  | Some device, Some queue =>
      let* device_object := onkern (scdk_object_create SCDK_OBJ_DEVICE SCDK_BOOT_CORE 0 (P_device device)) in
      let* device_cap := onkern (scdk_cap_create device_object device_rights) in
      let* queue_object := onkern (scdk_object_create SCDK_OBJ_DEVICE_QUEUE SCDK_BOOT_CORE 0 (P_device_queue queue)) in
      let* queue_cap := onkern (scdk_cap_create queue_object queue_rights) in
      onown (modify (set_device device (mk_device device_object device_cap SCDK_DEVMGR_FAKE_DEVICE_ID true))) ;;
      onown (modify (set_queue queue (mk_queue queue_object queue_cap device_object 0 true))) ;;
      ret (set_msg_args msg device_cap queue_cap (msg_arg2 msg) (msg_arg3 msg))
  | _, _ => fail SCDK_ERR_NOMEM
  end.

Definition devmgr_bind_queue msg : M T scdk_message :=
  guard ((msg_arg0 msg =? 0) || (msg_arg1 msg =? 0)) SCDK_ERR_INVAL ;;
  let queue_cap := msg_arg0 msg in
  let target_endpoint := msg_arg1 msg in
  onkern (query (λ k, scdk_cap_check k target_endpoint SCDK_RIGHT_SEND SCDK_OBJ_ENDPOINT)) ;;
  let* queue := query (λ s, devmgr_queue_from_cap (kernel_of s) (own s) queue_cap SCDK_RIGHT_BIND) in
  onown (modify (set_bound queue target_endpoint)) ;;
  ret msg.

Definition devmgr_endpoint_handler_fn (payload : option (list Z)) (endpoint : Z) msg (context : Z)
  : M T (scdk_message * result unit) :=
  if msg_type msg =? SCDK_MSG_DEVICE_REGISTER then answers msg (devmgr_register_fake_device msg)
  else if msg_type msg =? SCDK_MSG_DEVICE_QUEUE_BIND then answers msg (devmgr_bind_queue msg)
  else ret (msg, Err SCDK_ERR_NOTSUP).

Definition scdk_devmgr_service_init : M T Z :=
  let* started := onown (gets devmgr_started) in
  guard started SCDK_ERR_BUSY ;;
  let* endpoint := onkern (scdk_endpoint_create SCDK_BOOT_CORE (Some devmgr_endpoint_handler) 0) in
  onkern (scdk_service_register SCDK_SERVICE_DEVMGR endpoint) ;;
  onown (modify set_devmgr_started) ;;
  ret endpoint.

(** ** Registering a device and binding its queue *)
Lemma queue_slot_Ok k m c r i :
  devmgr_queue_from_cap k m c r = Ok i ↔
  ∃ e o q, scdk_cap_check k c r SCDK_OBJ_DEVICE_QUEUE = Ok e ∧
    scdk_object_lookup k (ce_object_id e) = Ok o ∧ obj_payload o = P_device_queue i ∧
    queues m !! i = Some q ∧ qu_object_id q = ce_object_id e ∧ qu_present q = true.
Proof.
  unfold devmgr_queue_from_cap. split.
  - intros E. do 3 minv_step E. unfold queue_payload in E2.
    destruct (obj_payload a0) eqn:Ep; try discriminate E2; injection E2 as <-; [done|].
    minv E. bsplit. eauto 10.
  - intros (e & o & q & -> & Ho & Hp & Hq & Hid & Hpr). simpl. rewrite Ho. simpl. rewrite Hp. simpl.
    rewrite Hq. simpl. by rewrite Hid, Z.eqb_refl, Hpr.
Qed.

(** The tables of the kernel and of the device manager agree. *)
Record devmgr_ok (k : kernel) (m : devmgr) : Prop := {
  dm_kernel : kernel_wf k;
  dm_slot id o i : scdk_object_lookup k id = Ok o → obj_payload o = P_device_queue i → (i < length (queues m))%nat
}.

(** A bind, by what its two capabilities designate. *)
Lemma bind_queue_run s msg :
  msg_arg0 msg ≠ 0 → msg_arg1 msg ≠ 0 →
  devmgr_bind_queue msg s =
  match scdk_cap_check (kernel_of s) (msg_arg1 msg) SCDK_RIGHT_SEND SCDK_OBJ_ENDPOINT with
  | Ok _ =>
      match devmgr_queue_from_cap (kernel_of s) (own s) (msg_arg0 msg) SCDK_RIGHT_BIND with
      | Ok i => (Ok msg, put_own (set_bound i (msg_arg1 msg) (own s)) s)
      | Err e => (Err e, s)
      | Ub => (Ub, s)
      end
  | Err e => (Err e, s)
  | Ub => (Ub, s)
  end.
Proof.
  intros H0' H1. unfold devmgr_bind_queue.
  rewrite bind_guard by (by rewrite (proj2 (Z.eqb_neq _ 0) H0'), (proj2 (Z.eqb_neq _ 0) H1)).
  unfold bind at 1.
  rewrite (onkern_same _ s (scdk_cap_check (kernel_of s) (msg_arg1 msg) SCDK_RIGHT_SEND SCDK_OBJ_ENDPOINT)) by done.
  destruct (scdk_cap_check _ _ _ _) as [e|e|]; [|done..]. unfold bind at 1, query.
  by destruct (devmgr_queue_from_cap _ _ _ _).
Qed.

Lemma register_run s msg d q :
  devmgr_ok (kernel_of s) (own s) → msg_arg0 msg = SCDK_DEVMGR_FAKE_DEVICE_ID →
  alloc_device_slot (own s) = Some d → alloc_queue_slot (own s) = Some q →
  (1 < free_objects (kernel_of s))%nat → (1 < free_caps (kernel_of s))%nat →
  ∃ doid dc qoid qc k1 k2,
    let m' := set_queue q (mk_queue qoid qc doid 0 true) (set_device d (mk_device doid dc 1 true) (own s)) in
    minted (kernel_of s) k1 SCDK_OBJ_DEVICE (P_device d) device_rights doid dc ∧
    minted k1 k2 SCDK_OBJ_DEVICE_QUEUE (P_device_queue q) queue_rights qoid qc ∧
    devmgr_register_fake_device msg s =
      (Ok (set_msg_args msg dc qc (msg_arg2 msg) (msg_arg3 msg)), put_own m' (put_kernel k2 s)) ∧
    devmgr_ok k2 m'.
Proof.
  intros [Hwf Hsl] Ha Hd Hq Hfo Hfc.
  destruct (mint_run (kernel_of s) SCDK_OBJ_DEVICE SCDK_BOOT_CORE (P_device d) device_rights)
    as (doid & ka & dc & k1 & E1 & E2 & Hm1); [done..|lia|lia|].
  pose proof (mn_objects _ _ _ _ _ _ _ Hm1). pose proof (mn_caps _ _ _ _ _ _ _ Hm1).
  destruct (mint_run k1 SCDK_OBJ_DEVICE_QUEUE SCDK_BOOT_CORE (P_device_queue q) queue_rights)
    as (qoid & kb & qc & k2 & E3 & E4 & Hm2); [apply Hm1|done..|lia|lia|].
  exists doid, dc, qoid, qc, k1, k2. intros m'. split; [done|]. split; [done|]. split.
  - unfold devmgr_register_fake_device. rewrite bind_guard by (by rewrite Ha).
    rewrite (bind_Ok _ _ s (Some d) s) by (apply onown_read; unfold gets; by rewrite Hd).
    rewrite (bind_Ok _ _ s (Some q) s) by (apply onown_read; unfold gets; by rewrite Hq).
    rewrite (bind_Ok _ _ _ _ _ (onkern_put _ _ _ _ E1)).
    rewrite (bind_Ok _ _ _ dc (put_kernel k1 s)) by (rewrite <-(put_kernel_put k1 ka s); apply onkern_put; by rewrite kernel_put_kernel).
    rewrite (bind_Ok _ _ _ qoid (put_kernel kb s)) by (rewrite <-(put_kernel_put kb k1 s); apply onkern_put; by rewrite kernel_put_kernel).
    rewrite (bind_Ok _ _ _ qc (put_kernel k2 s)) by (rewrite <-(put_kernel_put k2 kb s); apply onkern_put; by rewrite kernel_put_kernel).
    rewrite (bind_Ok _ _ _ _ _ (onown_modify _ _)), (bind_Ok _ _ _ _ _ (onown_modify _ _)).
    by rewrite own_put, put_own_put, own_put_kernel.
  - split; [apply Hm2|]. intros id o i Ho Hp. unfold m'. cbn. rewrite length_insert.
    apply find_slot_Some in Hq as [(q0 & Hq0 & _) _].
    destruct (mn_only _ _ _ _ _ _ _ Hm2 id o Ho) as [Ho1|[_ Ep]].
    + destruct (mn_only _ _ _ _ _ _ _ Hm1 id o Ho1) as [Ho2|[_ Ep]]; [by eapply Hsl|congruence].
    + rewrite Hp in Ep. injection Ep as ->. by eapply lookup_lt_Some.
Qed.

(** The token is a live capability that carries [right] on an object of this type. *)
Definition may (k : kernel) (right type c : Z) (e : scdk_cap_entry) : Prop :=
  scdk_cap_lookup k c = Ok e ∧ ce_object_type e = type ∧ Z.land (ce_rights e) right = right.
(** The token lets its holder bind queue [i], which the device manager knows. *)
Definition binds (k : kernel) (m : devmgr) (c : Z) (i : nat) : Prop :=
  ∃ e o q, may k SCDK_RIGHT_BIND SCDK_OBJ_DEVICE_QUEUE c e ∧
    scdk_object_lookup k (ce_object_id e) = Ok o ∧ obj_payload o = P_device_queue i ∧
    queues m !! i = Some q ∧ qu_object_id q = ce_object_id e ∧ qu_present q = true.
Definition sendable (k : kernel) (c : Z) : Prop := ∃ e, may k SCDK_RIGHT_SEND SCDK_OBJ_ENDPOINT c e.

Lemma may_check k right type c e :
  right ≠ 0 → type ≠ SCDK_OBJ_NONE → scdk_cap_check k c right type = Ok e ↔ may k right type c e.
Proof. intros Hr Ht. rewrite cap_check_Ok. unfold may. split; [by intros (_ & ? & [|] & ?)|intros (? & ? & ?); auto]. Qed.
Lemma binds_slot k m c i : devmgr_queue_from_cap k m c SCDK_RIGHT_BIND = Ok i ↔ binds k m c i.
Proof.
  rewrite queue_slot_Ok. unfold binds. split; intros (e & o & q & Hc & Hrest); exists e, o, q; (split; [|done]);
    revert Hc; by apply may_check.
Qed.
Lemma queue_defined k m c : devmgr_ok k m → defined (devmgr_queue_from_cap k m c SCDK_RIGHT_BIND).
Proof.
  intros [Hwf Hsl]. unfold devmgr_queue_from_cap. apply rbind_defined; [apply cap_check_defined, Hwf|]. intros e He.
  apply rbind_defined; [apply object_lookup_defined, Hwf|]. intros o Ho.
  assert (payload_typed SCDK_OBJ_DEVICE_QUEUE (obj_payload o)) as Hp by (by eapply checked_payload; [..|exact He|exact Ho]).
  destruct (obj_payload o) as [| | | | | | | | |i| |] eqn:Ep; cbn in Hp |- *;
    try done; try (by destruct Hp).
  destruct (lookup_lt_is_Some_2 (queues m) i (Hsl _ _ _ Ho Ep)) as [q ->]. cbn. by destruct (negb _ || negb _).
Qed.

(** A bind, for every message: the queue the first token names is bound to the
    endpoint the second one lets the holder send to, or the answer is an error
    and nothing changes. *)
Lemma bind_exact s bd payload endpoint context :
  devmgr_ok (kernel_of s) (own s) → msg_type bd = SCDK_MSG_DEVICE_QUEUE_BIND →
  let answer := devmgr_endpoint_handler_fn payload endpoint bd context s in
  (∀ i, binds (kernel_of s) (own s) (msg_arg0 bd) i → sendable (kernel_of s) (msg_arg1 bd) →
     answer = (Ok (bd, Ok tt), put_own (set_bound i (msg_arg1 bd) (own s)) s)) ∧
  ((∀ i, ¬ binds (kernel_of s) (own s) (msg_arg0 bd) i) ∨ ¬ sendable (kernel_of s) (msg_arg1 bd) →
     ∃ e, answer = (Ok (bd, Err e), s)).
Proof.
  intros Hok Hbt. assert (devmgr_endpoint_handler_fn payload endpoint bd context = answers bd (devmgr_bind_queue bd)) as ->.
  { unfold devmgr_endpoint_handler_fn. by rewrite Hbt. }
  cbv zeta. rewrite !answers_eq.
  assert (∀ c e, may (kernel_of s) SCDK_RIGHT_SEND SCDK_OBJ_ENDPOINT c e → c ≠ 0) as Hn1.
  { intros c e (Hl & _) ->. discriminate Hl. }
  assert (∀ c i, binds (kernel_of s) (own s) c i → c ≠ 0) as Hn0.
  { intros c i (e & o & q & (Hl & _) & _) ->. discriminate Hl. }
  split.
  - intros i Hb [e He]. rewrite bind_queue_run by eauto. apply may_check in He; [|done..]. rewrite He.
    by rewrite (proj2 (binds_slot _ _ _ i) Hb).
  - intros Hno. destruct (decide (msg_arg0 bd = 0 ∨ msg_arg1 bd = 0)) as [Hz|Hz].
    { exists SCDK_ERR_INVAL. assert ((msg_arg0 bd =? 0) || (msg_arg1 bd =? 0) = true) as Eg.
      { destruct Hz as [-> | ->]; [done|]. by rewrite orb_true_r. }
      unfold devmgr_bind_queue. unfold bind at 1, guard. by rewrite Eg. }
    rewrite bind_queue_run by tauto.
    pose proof (cap_check_defined (kernel_of s) (msg_arg1 bd) SCDK_RIGHT_SEND SCDK_OBJ_ENDPOINT (kwf_caps _ (dm_kernel _ _ Hok))) as Hd.
    destruct (scdk_cap_check _ _ _ _) as [e|e|] eqn:Ec; [|by eexists|done]. apply may_check in Ec; [|done..].
    pose proof (queue_defined _ _ (msg_arg0 bd) Hok) as Hq. destruct (devmgr_queue_from_cap _ _ _ _) as [i|e'|] eqn:Eq; [|by eexists|done].
    apply binds_slot in Eq. destruct Hno as [Hno|Hno]; [by destruct (Hno i)|]. destruct Hno. by exists e.
Qed.

(** C35. Devices and queues. When the tables have room, registering the device
    answers with two new capabilities, one for the device and one for its queue;
    the new one names the new queue, the device capability names none, and every
    capability that named a queue names it still. A bind, in this state and in
    every other in which the tables agree, succeeds exactly when its first token
    is a live capability with the BIND right on a queue object whose slot is in
    use for that object and its second one a live capability with the SEND right
    on an endpoint: it then sets the target of that queue and nothing else, and
    otherwise it is refused without effect. *)
Theorem devmgr_register_bind s msg d q payload endpoint context :
  devmgr_ok (kernel_of s) (own s) → msg_type msg = SCDK_MSG_DEVICE_REGISTER →
  msg_arg0 msg = SCDK_DEVMGR_FAKE_DEVICE_ID →
  alloc_device_slot (own s) = Some d → alloc_queue_slot (own s) = Some q →
  (1 < free_objects (kernel_of s))%nat → (1 < free_caps (kernel_of s))%nat →
  (∃ dc qc s', devmgr_endpoint_handler_fn payload endpoint msg context s =
      (Ok (set_msg_args msg dc qc (msg_arg2 msg) (msg_arg3 msg), Ok tt), s') ∧
    devmgr_ok (kernel_of s') (own s') ∧ grown (kernel_of s) (kernel_of s') ∧
    (∀ e, scdk_cap_lookup (kernel_of s) dc ≠ Ok e ∧ scdk_cap_lookup (kernel_of s) qc ≠ Ok e) ∧
    binds (kernel_of s') (own s') qc q ∧ (∀ i, ¬ binds (kernel_of s') (own s') dc i) ∧
    ∀ c i, u64 c → binds (kernel_of s) (own s) c i → binds (kernel_of s') (own s') c i) ∧
  ∀ t bd payload' endpoint' context', devmgr_ok (kernel_of t) (own t) → msg_type bd = SCDK_MSG_DEVICE_QUEUE_BIND →
    let answer := devmgr_endpoint_handler_fn payload' endpoint' bd context' t in
    (∀ i, binds (kernel_of t) (own t) (msg_arg0 bd) i → sendable (kernel_of t) (msg_arg1 bd) →
       answer = (Ok (bd, Ok tt), put_own (set_bound i (msg_arg1 bd) (own t)) t)) ∧
    ((∀ i, ¬ binds (kernel_of t) (own t) (msg_arg0 bd) i) ∨ ¬ sendable (kernel_of t) (msg_arg1 bd) →
       ∃ e, answer = (Ok (bd, Err e), t)).
Proof.
  intros Hok Hty Ha Hd Hq Hfo Hfc. split; [|intros; by apply bind_exact].
  destruct (register_run s msg d q Hok Ha Hd Hq Hfo Hfc) as (doid & dc & qoid & qc & k1 & k2 & Hm1 & Hm2 & E & Hok').
  set (m' := set_queue q _ _) in *. exists dc, qc, (put_own m' (put_kernel k2 s)).
  rewrite kernel_put_own, kernel_put_kernel, own_put. destruct (mn_cap _ _ _ _ _ _ _ Hm1) as (g1 & Hdc).
  apply (gw_caps _ _ (mn_grown _ _ _ _ _ _ _ Hm2)) in Hdc as Hdc2; [|apply Hm1].
  destruct (mn_cap _ _ _ _ _ _ _ Hm2) as (g2 & Hqc). destruct (mn_object _ _ _ _ _ _ _ Hm2) as (g3 & o3 & Hqo).
  assert (grown (kernel_of s) k2) as Hg by (etrans; [apply Hm1|apply Hm2]).
  apply find_slot_Some in Hq as [(q0 & Hq0 & Hfree) _].
  split_and!; [|done|done| | | |].
  - unfold devmgr_endpoint_handler_fn. rewrite Hty, Z.eqb_refl. by rewrite answers_eq, E.
  - intros e. split; [apply Hm1|]. intros Hl. apply (gw_caps _ _ (mn_grown _ _ _ _ _ _ _ Hm1)) in Hl; [|apply Hm2].
    by apply (mn_fresh _ _ _ _ _ _ _ Hm2) in Hl.
  - eexists _, _, _. split; [split; [exact Hqc|done]|]. split; [exact Hqo|]. split; [reflexivity|].
    split; [apply list_lookup_insert_eq; by eapply lookup_lt_Some|done].
  - intros i (e & o & qu & (Hl & Ht & _) & _). rewrite Hdc2 in Hl. injection Hl as <-. discriminate Ht.
  - intros c i Hc (e & o & qu & (Hl & Hrest) & Ho & Hp & Hqu & Hid & Hpr). exists e, o, qu.
    split; [split; [by apply Hg|done]|]. split_and!; [by apply Hg|done| |done|done].
    unfold m'. cbn. rewrite list_lookup_insert_ne; [done|]. intros ->. rewrite Hq0 in Hqu. injection Hqu as ->.
    by rewrite Hpr in Hfree.
Qed.
End devmgr.

(** ** Session service *)

(** [session_started] *)
Record session := mk_session { session_started : bool }.

Definition session_service_allowed (service_id : Z) : bool :=
  (service_id =? SCDK_SERVICE_CONSOLE) || (service_id =? SCDK_SERVICE_VFS) || (service_id =? SCDK_SERVICE_PROC)
  || (service_id =? SCDK_SERVICE_TTY) || (service_id =? SCDK_SERVICE_GRANT_TEST).

Section session.
Context {T : Type} `{Beside session T}.
Implicit Types (msg : scdk_message) (s : T).

Definition session_lookup msg : M T scdk_message :=
  guard (negb (session_service_allowed (msg_arg0 msg))) SCDK_ERR_PERM ;;
  let* service_endpoint := onkern (query (λ k, scdk_service_lookup k (msg_arg0 msg))) in
  ret (set_msg_args msg service_endpoint 0 0 0).
Definition session_endpoint_handler_fn (payload : option (list Z)) (endpoint : Z) msg (context : Z)
  : M T (scdk_message * result unit) :=
  if msg_type msg =? SCDK_MSG_SERVICE_LOOKUP then answers msg (session_lookup msg)
  else ret (msg, Err SCDK_ERR_NOTSUP).

Definition scdk_session_service_init : M T Z :=
  let* started := onown (gets session_started) in
  guard started SCDK_ERR_BUSY ;;
  let* endpoint := onkern (scdk_endpoint_create SCDK_BOOT_CORE (Some session_endpoint_handler) 0) in
  onkern (scdk_service_register SCDK_SERVICE_SESSION endpoint) ;;
  onown (modify (λ _, mk_session true)) ;;
  ret endpoint.

(** The session service answers from the registry, for the five services and no
    other, and changes nothing. *)
Theorem session_lookup_exact s msg payload endpoint context :
  msg_type msg = SCDK_MSG_SERVICE_LOOKUP →
  session_endpoint_handler_fn payload endpoint msg context s =
  (Ok (match (if session_service_allowed (msg_arg0 msg) then registry (kernel_of s) !! msg_arg0 msg else None) with
       | Some ep => (set_msg_args msg ep 0 0 0, Ok tt)
       | None => (msg, Err (if session_service_allowed (msg_arg0 msg) then SCDK_ERR_NOENT else SCDK_ERR_PERM))
       end), s).
Proof.
  intros Hty. unfold session_endpoint_handler_fn. rewrite Hty.
  set (found := if session_service_allowed (msg_arg0 msg) then _ else _).
  set (status := if session_service_allowed (msg_arg0 msg) then _ else _).
  assert (session_lookup msg s =
    (match found with Some ep => Ok (set_msg_args msg ep 0 0 0) | None => Err status end, s)) as E.
  { unfold session_lookup, found, status. destruct (session_service_allowed (msg_arg0 msg)) eqn:Ha; [|done].
    rewrite bind_guard by done. pose proof (service_lookup_spec (kernel_of s) (msg_arg0 msg)) as Hl.
    unfold spec_lookup in Hl. rewrite (proj2 (Z.eqb_neq _ _)) in Hl by (intros Hz; rewrite Hz in Ha; discriminate Ha).
    destruct (registry (kernel_of s) !! msg_arg0 msg) as [ep|].
    - rewrite (bind_Ok _ _ s ep s); [done|]. apply onkern_same. unfold query. by rewrite Hl.
    - rewrite (bind_Err _ _ s SCDK_ERR_NOENT s); [done|]. apply onkern_same. unfold query. by rewrite Hl. }
  rewrite Z.eqb_refl, answers_eq, E. by destruct found.
Qed.
End session.

(** ** Witnesses: the first device after the tables are initialised *)
Definition demo_register : scdk_message :=
  set_msg_args (scdk_message_init 0 SCDK_SERVICE_DEVMGR SCDK_MSG_DEVICE_REGISTER) SCDK_DEVMGR_FAKE_DEVICE_ID 0 0 0.
Definition demo_lookup : scdk_message :=
  set_msg_args (scdk_message_init 0 SCDK_SERVICE_SESSION SCDK_MSG_SERVICE_LOOKUP) SCDK_SERVICE_TTY 0 0 0.
Definition demo_devices : machine * devmgr := (machine_of boot_kernel, boot_devmgr).

Lemma devmgr_register_bind_witness :
  ∃ dc qc s', devmgr_endpoint_handler_fn None 1 demo_register 0 demo_devices =
    (Ok (set_msg_args demo_register dc qc 0 0, Ok tt), s') ∧
    binds (kernel_of s') (own s') qc 0 ∧ ∀ i, ¬ binds (kernel_of s') (own s') dc i.
Proof.
  destruct (devmgr_register_bind demo_devices demo_register 0 0 None 1 0)
    as [(dc & qc & s' & E & _ & _ & _ & Hq & Hd & _) _].
  - split; [exact boot_kernel_wf|]. intros id o i (j & Hj & Hty & _)%object_lookup_Ok Hp.
    apply lookup_zeroed_inv in Hj as ->. discriminate Hp.
  - reflexivity.
  - reflexivity.
  - vm_compute. reflexivity.
  - vm_compute. reflexivity.
  - apply Nat.ltb_lt. vm_compute. reflexivity.
  - apply Nat.ltb_lt. vm_compute. reflexivity.
  - exists dc, qc, s'. split; [exact E|]. split; [exact Hq|exact Hd].
Defined.
Lemma session_lookup_exact_witness :
  session_endpoint_handler_fn None 1 demo_lookup 0 (machine_of boot_kernel, mk_session true) =
    (Ok (demo_lookup, Err SCDK_ERR_NOENT), (machine_of boot_kernel, mk_session true)).
Proof.
  rewrite (session_lookup_exact (machine_of boot_kernel, mk_session true) demo_lookup None 1 0) by reflexivity.
  vm_compute. reflexivity.
Defined.
