(* ===== verification/Timer.v ===== *)
(** * Timer ([src/arch/x86_64/timer.c])

    The interval timer raises interrupt 0 at a programmed rate; the handler counts
    it, acknowledges it and, when preemption is on, yields. Writes to ports are kept
    in the order they were made. *)
From stdpp Require Import base gmap list numbers relations.
From Stdlib Require Import ZArith Lia.
From S2P Require Import Prelude.
From S2P Require Import Kernel.
From S2P Require Import Endpoint.
From S2P Require Import Scheduler.
From S2P Require Import Threads.
From S2P Require Import Usermode.
From S2P Require Import Process.
From S2P Require Import UserMessage.
From S2P Require Import Component.

#[local] Open Scope Z_scope.

Definition PIT_BASE_HZ : Z := 1193182.
Definition PIT_CHANNEL0 : Z := 0x40.
Definition PIT_COMMAND : Z := 0x43.
Definition PIT_MODE_RATE_LOHI : Z := 0x34.
Definition PIC1_COMMAND : Z := 0x20.
Definition PIC1_DATA : Z := 0x21.
Definition PIC2_COMMAND : Z := 0xa0.
Definition PIC2_DATA : Z := 0xa1.
Definition PIC_EOI : Z := 0x20.
Definition PIC_ICW1_INIT : Z := 0x10.
Definition PIC_ICW1_ICW4 : Z := 0x01.
Definition PIC_ICW4_8086 : Z := 0x01.
Definition IRQ0_VECTOR : Z := 32.

(** ** State: the statics, the port writes and the interrupt flag *)
Record timer := mk_timer {
  timer_ticks : Z;
  timer_preemption_enabled : bool;
  timer_initialized : bool;
  port_writes : list (Z * Z);
  interrupt_flag : bool
}.
Definition boot_timer : timer := mk_timer 0 false false [] false.

Definition set_ticks (n : Z) (t : timer) : timer :=
  mk_timer n (timer_preemption_enabled t) (timer_initialized t) (port_writes t) (interrupt_flag t).
Definition set_preemption (b : bool) (t : timer) : timer :=
  mk_timer (timer_ticks t) b (timer_initialized t) (port_writes t) (interrupt_flag t).
Definition set_timer_ready (t : timer) : timer :=
  mk_timer (timer_ticks t) (timer_preemption_enabled t) true (port_writes t) (interrupt_flag t).

(** ** Instructions *)
Definition outb (port value : Z) : M timer unit :=
  modify (λ t, mk_timer (timer_ticks t) (timer_preemption_enabled t) (timer_initialized t)
                 (port_writes t ++ [(port, value)]) (interrupt_flag t)).
Definition io_wait : M timer unit := outb 0x80 0.
Definition sti : M timer unit :=
  modify (λ t, mk_timer (timer_ticks t) (timer_preemption_enabled t) (timer_initialized t) (port_writes t) true).

(** ** Operations *)
Definition pic_remap_for_timer : M timer unit :=
  outb PIC1_DATA 0xff ;;
  outb PIC2_DATA 0xff ;;
  outb PIC1_COMMAND (Z.lor PIC_ICW1_INIT PIC_ICW1_ICW4) ;;
  io_wait ;;
  outb PIC2_COMMAND (Z.lor PIC_ICW1_INIT PIC_ICW1_ICW4) ;;
  io_wait ;;
  outb PIC1_DATA 0x20 ;;
  io_wait ;;
  outb PIC2_DATA 0x28 ;;
  io_wait ;;
  outb PIC1_DATA 0x04 ;;
  io_wait ;;
  outb PIC2_DATA 0x02 ;;
  io_wait ;;
  outb PIC1_DATA PIC_ICW4_8086 ;;
  io_wait ;;
  outb PIC2_DATA PIC_ICW4_8086 ;;
  io_wait ;;
  outb PIC1_DATA 0xfe ;;
  outb PIC2_DATA 0xff.

Definition pit_program (hz : Z) : M timer unit :=
  guard ((hz =? 0) || (PIT_BASE_HZ <? hz)) SCDK_ERR_INVAL ;;
  let divisor := PIT_BASE_HZ / hz in
  guard ((divisor =? 0) || (0xffff <? divisor)) SCDK_ERR_INVAL ;;
  outb PIT_COMMAND PIT_MODE_RATE_LOHI ;;
  outb PIT_CHANNEL0 (Z.land divisor 0xff) ;;
  outb PIT_CHANNEL0 (Z.land (Z.shiftr divisor 8) 0xff).

Section timer.
Context {T : Type} `{Beside timer T}.
Implicit Types s : T.

(** [irq_entry] is the address of [scdk_timer_irq_entry]. *)
Definition scdk_timer_init (P : platform) (irq_entry hz : Z) : M T unit :=
  let* ready := onown (gets timer_initialized) in
  if (ready : bool) then ret tt
  else
    onmach (scdk_fault_init P) ;;
    onmach (scdk_fault_install_gate P IRQ0_VECTOR irq_entry) ;;
    onown pic_remap_for_timer ;;
    onown (pit_program hz) ;;
    onown (modify (set_ticks 0)) ;;
    onown (modify (set_preemption false)) ;;
    onown (modify set_timer_ready).

Definition scdk_timer_ticks s : Z := timer_ticks (own s).
Definition scdk_timer_tick_seen s : bool := negb (timer_ticks (own s) =? 0).

Definition scdk_timer_enable_preemption : M T unit :=
  onown (modify (set_preemption true)) ;; onown sti.
Definition scdk_timer_disable_preemption : M T unit := onown (modify (set_preemption false)).

(** [regs] are the registers of the interrupted thread when it yields. *)
Definition scdk_timer_interrupt (regs : scdk_thread_context) : M T (option scdk_thread_context) :=
  onown (modify (λ t, set_ticks (wrap64 (timer_ticks t + 1)) t)) ;;
  onown (outb PIC1_COMMAND PIC_EOI) ;;
  let* enabled := onown (gets timer_preemption_enabled) in
  if (enabled : bool) then onown sti ;; onkern (scdk_yield regs) else ret None.

(** One interrupt for each set of registers, one after another: the handler of
    each runs to its end. *)
Fixpoint interrupts (rs : list scdk_thread_context) : M T unit :=
  match rs with
  | [] => ret tt
  | regs :: rs => scdk_timer_interrupt regs ;; interrupts rs
  end.
End timer.

(** ** An interrupt inside a yield

    What [scdk_yield] does before [switch_to_thread]: the thread to switch to. *)
Definition yield_prepare : K (option nat) :=
  let* ready := gets (λ k, scheduler_initialized (k_sched k)) in
  let* current := gets (λ k, current_thread_slot (k_sched k)) in
  match current with
  | None => ret None
  | Some old =>
      if negb ready then ret None
      else
        let* slot := get_thread old in
        let* next := dequeue_thread (th_owner_core slot) in
        let* driver := gets (λ k, scheduler_driver_slot (k_sched k)) in
        let* next :=
          match next, driver with
          | None, Some d =>
              if bool_decide (old = d) then ret None
              else
                let* ds := get_thread d in
                ret (if th_state ds =? SCDK_THREAD_BLOCKED then Some d else None)
          | _, _ => ret next
          end in
        match next with
        | None => ret None
        | Some _ =>
            let* slot := get_thread old in
            if th_state slot =? SCDK_THREAD_RUNNING then
              if bool_decide (driver = Some old) then
                modify (upd_thread old (with_state SCDK_THREAD_BLOCKED)) ;; ret next
              else
                modify (upd_thread old (with_state SCDK_THREAD_READY)) ;;
                let* status := attempt (enqueue_thread old) in
                match status with
                | Ok _ => ret next
                | _ => modify (upd_thread old (with_state SCDK_THREAD_RUNNING)) ;; ret None
                end
            else ret next
        end
  end.

Section interrupted.
Context {T : Type} `{Beside timer T}.
Implicit Types s : T.

(** [scdk_yield] with a timer interrupt just before the switch. The interrupt
    returns to the yield when it has not switched itself. *)
Definition interrupted_yield (irq regs : scdk_thread_context) : M T (option scdk_thread_context) :=
  let* next := onkern yield_prepare in
  match next with
  | None => ret None
  | Some n =>
      let* switched := scdk_timer_interrupt irq in
      match switched with
      | Some c => ret (Some c)
      | None => onkern (switch_to_thread regs (Some n))
      end
  end.
End interrupted.

(** The two halves are the whole. *)
Lemma yield_split regs k :
  scdk_yield regs k =
  (let* next := yield_prepare in
   match next with None => ret None | Some n => switch_to_thread regs (Some n) end) k.
Proof.
  unfold scdk_yield, yield_prepare, attempt, modify, gets, ret, bind.
  destruct (current_thread_slot (k_sched k)) as [old|]; [|done].
  destruct (scheduler_initialized (k_sched k)); cbn [negb]; [|done].
  destruct (get_thread old k) as [[slot|e|] k1]; [|done..].
  destruct (dequeue_thread (th_owner_core slot) k1) as [[next|e|] k2]; [|done..].
  match goal with |- context [?m k2] => destruct (m k2) as [[[n|]|e|] k3] end; [|done..].
  destruct (get_thread old k3) as [[slot'|e|] k4]; [|done..].
  destruct (th_state slot' =? SCDK_THREAD_RUNNING); [|done]. case_bool_decide; [done|].
  by destruct (enqueue_thread old _) as [[[]|e|] k5].
Qed.

(** ** The interrupt controllers

    What a controller keeps of the bytes written to its two ports: a command byte
    with bit 4 set starts initialisation, the three data bytes after it are the
    vector base, the wiring and the mode, and any other data byte is the mask of
    disabled lines. *)
Record pic8259 := mk_pic { pic_expects : nat; pic_base : Z; pic_mask : Z }.
Definition pic_write (command data : Z) (p : pic8259) (w : Z * Z) : pic8259 :=
  if w.1 =? command then if Z.testbit w.2 4 then mk_pic 3 (pic_base p) 0 else p
  else if w.1 =? data then
    match pic_expects p with
    | 3%nat => mk_pic 2 (Z.land w.2 0xf8) (pic_mask p)
    | S n => mk_pic n (pic_base p) (pic_mask p)
    | O => mk_pic 0 (pic_base p) w.2
    end
  else p.
Definition pic_after (command data : Z) (p : pic8259) (ws : list (Z * Z)) : pic8259 :=
  foldl (pic_write command data) p ws.

(** The address of a gate. *)
Definition gate_address (g : idt_entry) : Z :=
  idt_offset_low g + 65536 * idt_offset_mid g + two32 * idt_offset_high g.

Definition with_writes (ws : list (Z * Z)) (t : timer) : timer :=
  mk_timer (timer_ticks t) (timer_preemption_enabled t) (timer_initialized t) (port_writes t ++ ws) (interrupt_flag t).
Definition pic_words : list (Z * Z) :=
  [(0x21, 0xff); (0xa1, 0xff); (0x20, 0x11); (0x80, 0); (0xa0, 0x11); (0x80, 0); (0x21, 0x20); (0x80, 0);
   (0xa1, 0x28); (0x80, 0); (0x21, 4); (0x80, 0); (0xa1, 2); (0x80, 0); (0x21, 1); (0x80, 0); (0xa1, 1); (0x80, 0);
   (0x21, 0xfe); (0xa1, 0xff)].
Definition pit_words (divisor : Z) : list (Z * Z) :=
  [(PIT_COMMAND, PIT_MODE_RATE_LOHI); (PIT_CHANNEL0, Z.land divisor 0xff);
   (PIT_CHANNEL0, Z.land (Z.shiftr divisor 8) 0xff)].

Section programming.
Implicit Types t : timer.

Lemma outb_writes port value t : outb port value t = (Ok tt, with_writes [(port, value)] t).
Proof. done. Qed.
Lemma with_writes_app ws ws' t : with_writes ws' (with_writes ws t) = with_writes (ws ++ ws') t.
Proof. unfold with_writes. cbn. by rewrite app_assoc. Qed.
Lemma outb_then {A} port value (f : unit → M timer A) t :
  (let* x := outb port value in f x) t = f tt (with_writes [(port, value)] t).
Proof. done. Qed.

Lemma pic_remap_run t : pic_remap_for_timer t = (Ok tt, with_writes pic_words t).
Proof.
  unfold pic_remap_for_timer, io_wait. rewrite !outb_then, outb_writes, !with_writes_app. done.
Qed.

(** The rates the timer can be set to. *)
Definition rate_ok (hz : Z) : bool := (19 <=? hz) && (hz <=? PIT_BASE_HZ).
Lemma rate_divisor hz :
  0 <= hz → rate_ok hz = negb ((hz =? 0) || (PIT_BASE_HZ <? hz)) && negb ((PIT_BASE_HZ / hz =? 0) || (0xffff <? PIT_BASE_HZ / hz)).
Proof.
  intros Hz. unfold rate_ok, PIT_BASE_HZ. destruct (Z.eqb_spec hz 0) as [->|Hn]; [done|].
  assert (0 <= 1193182 / hz) as H0 by (apply Z.div_pos; lia).
  destruct (Z.leb_spec 19 hz), (Z.leb_spec hz 1193182), (Z.ltb_spec 1193182 hz); try lia; cbn [andb orb negb]; try done.
  - assert (1193182 / hz ≠ 0) as Hd by (Z.to_euclidean_division_equations; nia).
    rewrite (proj2 (Z.eqb_neq _ 0) Hd). symmetry. apply negb_true_iff, Z.ltb_ge.
    Z.to_euclidean_division_equations; nia.
  - symmetry. apply negb_false_iff, orb_true_iff. right. apply Z.ltb_lt. Z.to_euclidean_division_equations; nia.
Qed.
Lemma pit_program_run hz t :
  0 <= hz → pit_program hz t =
    if rate_ok hz then (Ok tt, with_writes (pit_words (PIT_BASE_HZ / hz)) t) else (Err SCDK_ERR_INVAL, t).
Proof.
  intros Hz. rewrite rate_divisor by done. unfold pit_program.
  destruct ((hz =? 0) || (PIT_BASE_HZ <? hz)); [done|]. rewrite bind_guard by done.
  destruct ((PIT_BASE_HZ / hz =? 0) || (0xffff <? PIT_BASE_HZ / hz)); [done|]. rewrite bind_guard by done.
  rewrite !outb_then, outb_writes, !with_writes_app. done.
Qed.
Lemma divisor_bytes hz :
  0 <= hz → rate_ok hz = true →
  let d := PIT_BASE_HZ / hz in
  Z.land d 0xff + 256 * Z.land (Z.shiftr d 8) 0xff = d ∧ d * hz <= PIT_BASE_HZ < (d + 1) * hz.
Proof.
  intros Hz Hr d. unfold rate_ok in Hr. apply andb_true_iff in Hr as [Hlo%Z.leb_le Hhi%Z.leb_le].
  change 0xff with (Z.ones 8). rewrite !Z.land_ones, Z.shiftr_div_pow2 by done. change (2 ^ 8) with 256.
  assert (0 <= d < 65536 ∧ d * hz <= PIT_BASE_HZ < (d + 1) * hz) as [Hd Hb].
  { unfold d, PIT_BASE_HZ in *. Z.to_euclidean_division_equations; nia. }
  split; [|done]. rewrite (Z.mod_small (d / 256)) by (Z.to_euclidean_division_equations; lia).
  pose proof (Z.div_mod d 256). lia.
Qed.

Lemma gate_here vector address idt :
  u64 address → (Z.to_nat vector < length idt)%nat →
  ∃ g, set_gate vector address idt !! Z.to_nat vector = Some g ∧ gate_address g = address.
Proof.
  intros Ha Hv. unfold set_gate. rewrite list_lookup_insert_eq by done. eexists. split; [done|].
  unfold gate_address, u64, wrap32, two32, two64 in *. cbn. rewrite !Z.shiftr_div_pow2 by done.
  change (2 ^ 16) with 65536. change (2 ^ 32) with 4294967296 in *.
  rewrite (Z.mod_small (address / 4294967296)) by (Z.to_euclidean_division_equations; lia).
  Z.to_euclidean_division_equations; lia.
Qed.
End programming.

Section properties.
Context {T : Type} `{Beside timer T}.
Implicit Types s : T.

Lemma onown_run {A} (m : M timer A) s : onown m s = ((m (own s)).1, put_own (m (own s)).2 s).
Proof. unfold onown, zoom. by destruct (m (own s)). Qed.

(** The gates after both fault calls, whatever was there. *)
Lemma gates_run P irq m :
  irq ≠ 0 → (m_fault_initialized m = true → length (m_idt m) = IDT_ENTRIES) →
  ∃ m1 m2, scdk_fault_init P m = (Ok tt, m1) ∧ scdk_fault_install_gate P IRQ0_VECTOR irq m1 = (Ok tt, m2) ∧
    m_kernel m2 = m_kernel m ∧ ∃ idt, length idt = IDT_ENTRIES ∧ m_idt m2 = set_gate IRQ0_VECTOR irq idt.
Proof.
  intros Hirq Hlen. unfold scdk_fault_init at 1. rewrite bind_gets.
  assert (∀ m1, m_fault_initialized m1 = true → length (m_idt m1) = IDT_ENTRIES → m_kernel m1 = m_kernel m →
    ∃ m2, scdk_fault_install_gate P IRQ0_VECTOR irq m1 = (Ok tt, m2) ∧ m_kernel m2 = m_kernel m ∧
      ∃ idt, length idt = IDT_ENTRIES ∧ m_idt m2 = set_gate IRQ0_VECTOR irq idt) as Hgate.
  { intros m1 Hf Hl Hk. unfold scdk_fault_install_gate. rewrite bind_guard by (by apply Z.eqb_neq).
    rewrite (bind_Ok _ _ m1 tt m1) by (unfold scdk_fault_init; by rewrite bind_gets, Hf).
    eexists. split; [done|]. split; [done|]. by exists (m_idt m1). }
  destruct (m_fault_initialized m) eqn:Hf.
  - destruct (Hgate m Hf (Hlen eq_refl) eq_refl) as (m2 & ?). exists m, m2. split; [done|tauto].
  - rewrite !bind_modify.
    match goal with |- context [modify set_fault_ready ?x] => set (m1 := set_fault_ready x) end.
    destruct (Hgate m1) as (m2 & ?); [done| |done|exists m1, m2; split; [done|tauto]].
    unfold m1. cbn [m_idt set_fault_ready set_idt]. unfold set_gate. by rewrite !length_insert, length_replicate.
Qed.

(** Programming the timer. Exactly the rates from 19 Hz to the base rate are
    accepted; then the bytes written to the timer are the divisor whose rate comes
    nearest from above, the tick count starts at 0 and preemption is off. Whether
    accepted or not, afterwards line 0 of the first controller is the only one
    enabled, in any state the controllers were in, and the vector it raises has the
    gate of the entry stub. A refused rate leaves the timer not initialised. *)
Theorem timer_init_exact s P irq hz p1 p2 :
  timer_initialized (own s) = false → irq ≠ 0 → u64 irq → 0 <= hz →
  (m_fault_initialized (the_machine s) = true → length (m_idt (the_machine s)) = IDT_ENTRIES) →
  ∃ r s' ws, scdk_timer_init P irq hz s = (r, s') ∧ kernel_of s' = kernel_of s ∧
    port_writes (own s') = port_writes (own s) ++ ws ∧
    (let p := pic_after PIC1_COMMAND PIC1_DATA p1 ws in
     pic_mask p = Z.lnot (Z.shiftl 1 0) mod 256 ∧
     ∃ g, m_idt (the_machine s') !! Z.to_nat (pic_base p + 0) = Some g ∧ gate_address g = irq) ∧
    pic_mask (pic_after PIC2_COMMAND PIC2_DATA p2 ws) = 255 ∧
    (if decide (19 <= hz <= PIT_BASE_HZ)
     then r = Ok tt ∧ own s' = mk_timer 0 false true (port_writes (own s')) (interrupt_flag (own s)) ∧
       ∃ lo hi, (∃ ws0, ws = ws0 ++ [(PIT_COMMAND, PIT_MODE_RATE_LOHI); (PIT_CHANNEL0, lo); (PIT_CHANNEL0, hi)]) ∧
         let divisor := lo + 256 * hi in divisor * hz <= PIT_BASE_HZ < (divisor + 1) * hz
     else r = Err SCDK_ERR_INVAL ∧ timer_initialized (own s') = false).
Proof.
  intros Hi Hirq Hu Hz Hlen. destruct (gates_run P irq (the_machine s) Hirq Hlen) as (m1 & m2 & E1 & E2 & Ek & idt & Hl & Eidt).
  unfold scdk_timer_init. rewrite (bind_Ok _ _ s false s) by (apply onown_read; unfold gets; by rewrite Hi).
  rewrite (bind_Ok _ _ s tt (put_machine m1 s)) by (rewrite onmach_run; by rewrite E1).
  rewrite (bind_Ok _ _ _ tt (put_machine m2 s)) by (rewrite onmach_run, machine_put, E2, put_put; done).
  set (s2 := put_machine m2 s). assert (own (U:=timer) s2 = own s) as Eo by apply (own_put_machine (U:=timer)).
  rewrite (bind_Ok _ _ s2 tt (put_own (with_writes pic_words (own s)) s2)) by (by rewrite onown_run, Eo, pic_remap_run).
  assert (∀ u : timer, kernel_of (put_own u s2) = kernel_of s) as Hk.
  { intros u. rewrite kernel_put_own. unfold kernel_of, machine_kernel, s2. by rewrite machine_put. }
  assert (∀ u : timer, m_idt (the_machine (put_own u s2)) = set_gate IRQ0_VECTOR irq idt) as Hm.
  { intros u. rewrite machine_put_own. unfold s2. by rewrite machine_put. }
  destruct (gate_here IRQ0_VECTOR irq idt Hu) as (g & Hg & Ha); [rewrite Hl; vm_compute; lia|].
  assert (rate_ok hz = bool_decide (19 <= hz <= PIT_BASE_HZ)) as Hrate.
  { unfold rate_ok. symmetry. destruct (Z.leb_spec 19 hz), (Z.leb_spec hz PIT_BASE_HZ); cbn [andb];
      [apply bool_decide_true|apply bool_decide_false..]; lia. }
  pose proof (pit_program_run hz (with_writes pic_words (own s)) Hz) as Hp. rewrite Hrate in Hp.
  destruct (decide (19 <= hz <= PIT_BASE_HZ)) as [Hd|Hd]; [rewrite (bool_decide_true _ Hd) in Hp|rewrite (bool_decide_false _ Hd) in Hp].
  - rewrite (bind_Ok _ _ _ tt (put_own (with_writes (pit_words (PIT_BASE_HZ / hz)) (with_writes pic_words (own s))) s2))
      by (by rewrite onown_run, own_put, Hp, put_own_put).
    rewrite (bind_Ok _ _ _ _ _ (onown_modify _ _)), (bind_Ok _ _ _ _ _ (onown_modify _ _)), onown_modify.
    rewrite !own_put, !put_own_put, with_writes_app.
    eexists _, _, _. split; [done|]. rewrite Hk, Hm, own_put. split; [done|]. split; [done|].
    split; [split; [done|by exists g]|]. split; [done|]. split; [done|]. split; [done|].
    eexists _, _. split; [by eexists pic_words|]. cbv zeta. destruct (divisor_bytes hz) as [-> ?]; [done|by rewrite Hrate, (bool_decide_true _ Hd)|done].
  - rewrite (bind_Err _ _ _ SCDK_ERR_INVAL (put_own (with_writes pic_words (own s)) s2))
      by (by rewrite onown_run, own_put, Hp, put_own_put).
    eexists _, _, _. split; [done|]. rewrite Hk, Hm, own_put. split; [done|]. split; [done|].
    split; [split; [done|by exists g]|]. split; [done|]. split; [done|exact Hi].
Qed.

(** *** Interrupts between instructions of threads *)
Definition ticked (n : nat) (enabled : bool) (t : timer) : timer :=
  mk_timer (wrap64 (timer_ticks t + Z.of_nat n)) (timer_preemption_enabled t) (timer_initialized t)
    (port_writes t ++ replicate n (PIC1_COMMAND, PIC_EOI))
    (interrupt_flag t || (enabled && negb (n =? 0)%nat)).

Lemma interrupt_run s regs :
  scdk_timer_interrupt regs s =
  let s1 := put_own (ticked 1 (timer_preemption_enabled (own s)) (own s)) s in
  if timer_preemption_enabled (own s)
  then ((scdk_yield regs (kernel_of s)).1, put_kernel (scdk_yield regs (kernel_of s)).2 s1)
  else (Ok None, s1).
Proof.
  unfold scdk_timer_interrupt. rewrite (bind_Ok _ _ _ _ _ (onown_modify _ _)).
  rewrite (bind_Ok _ _ _ tt (put_own (ticked 1 false (own s)) s)).
  2:{ rewrite onown_run, own_put, put_own_put, outb_writes. unfold with_writes, ticked. cbn. by rewrite orb_false_r. }
  rewrite (bind_Ok _ _ _ (timer_preemption_enabled (own s)) (put_own (ticked 1 false (own s)) s))
    by (apply onown_read; unfold gets; by rewrite own_put).
  destruct (timer_preemption_enabled (own s)); [|done].
  rewrite (bind_Ok _ _ _ tt (put_own (ticked 1 true (own s)) s)).
  2:{ rewrite onown_run, own_put, put_own_put. unfold ticked. cbn. by rewrite orb_true_r. }
  rewrite onkern_run, kernel_put_own. cbv zeta. unfold put_kernel. done.
Qed.

Lemma ticked_ticked n enabled t : ticked n enabled (ticked 1 enabled t) = ticked (S n) enabled t.
Proof.
  unfold ticked. cbn [timer_ticks timer_preemption_enabled timer_initialized port_writes interrupt_flag replicate].
  f_equal.
  - unfold wrap64. rewrite Zplus_mod_idemp_l. f_equal. lia.
  - by rewrite <-app_assoc.
  - cbn. rewrite andb_true_r. destruct (interrupt_flag t), enabled; done.
Qed.
Lemma ticked_zero enabled t : u64 (timer_ticks t) → ticked 0 enabled t = t.
Proof.
  intros Hu. destruct t as [n p i w f]. unfold ticked. cbn in *. f_equal; [|apply app_nil_r|].
  - unfold wrap64. rewrite Z.add_0_r. by apply Z.mod_small.
  - by rewrite andb_false_r, orb_false_r.
Qed.

(** A run of interrupts is a run of yields and as many ticks. *)
Lemma interrupts_run l : ∀ s k',
  u64 (timer_ticks (own s)) → timer_preemption_enabled (own s) = true → yields l (kernel_of s) = (Ok tt, k') →
  ∃ s', interrupts l s = (Ok tt, s') ∧ kernel_of s' = k' ∧ own s' = ticked (length l) true (own s).
Proof.
  induction l as [|regs l IH]; intros s k' Hu He Hy.
  { injection Hy as <-. exists s. split; [done|]. split; [done|]. by rewrite ticked_zero. }
  cbn [yields] in Hy. cbn [interrupts]. unfold bind at 1. rewrite interrupt_run, He. cbv zeta iota.
  apply bind_inv in Hy as [(c & k1 & Ey & Hy)|[(e & _ & [=])|[_ [=]]]]. rewrite Ey. cbn [fst snd].
  set (s1 := put_kernel k1 _). assert (own s1 = ticked 1 true (own s)) as Eo.
  { unfold s1. by rewrite own_put_kernel, own_put. }
  destruct (IH s1 k') as (s' & E & Ek & Eo'); rewrite ?Eo; [|done|by unfold s1; rewrite kernel_put_kernel|].
  { unfold ticked. cbn. apply Z.mod_pos_bound. done. }
  exists s'. split; [done|]. split; [done|]. by rewrite Eo', Eo, ticked_ticked.
Qed.

(** A run of interrupts without preemption only counts. *)
Lemma interrupts_idle l : ∀ s,
  u64 (timer_ticks (own s)) → timer_preemption_enabled (own s) = false →
  ∃ s', interrupts l s = (Ok tt, s') ∧ kernel_of s' = kernel_of s ∧ own s' = ticked (length l) false (own s).
Proof.
  induction l as [|regs l IH]; intros s Hu He.
  { exists s. split; [done|]. split; [done|]. by rewrite ticked_zero. }
  cbn [interrupts]. unfold bind at 1. rewrite interrupt_run, He. cbv zeta iota.
  set (s1 := put_own _ s). assert (own s1 = ticked 1 false (own s)) as Eo by (unfold s1; by rewrite own_put).
  destruct (IH s1) as (s' & E & Ek & Eo'); rewrite ?Eo; [|done|].
  { unfold ticked. cbn. apply Z.mod_pos_bound. done. }
  exists s'. split; [done|]. split; [rewrite Ek; unfold s1; by rewrite kernel_put_own|]. by rewrite Eo', Eo, ticked_ticked.
Qed.
Lemma enable_run s :
  scdk_timer_enable_preemption s =
    (Ok tt, put_own (mk_timer (timer_ticks (own s)) true (timer_initialized (own s)) (port_writes (own s)) true) s).
Proof.
  unfold scdk_timer_enable_preemption. rewrite (bind_Ok _ _ _ _ _ (onown_modify _ _)).
  unfold sti. rewrite onown_modify. by rewrite own_put, put_own_put.
Qed.
Lemma disable_run s : scdk_timer_disable_preemption s = (Ok tt, put_own (set_preemption false (own s)) s).
Proof. apply onown_modify. Qed.

(** C34. Preemption shares the processor. Once [scdk_timer_enable_preemption] has
    turned it on, a thread at position [n] of the run queue is the running thread
    after [n + 1] timer interrupts, none of the interrupted threads having to call
    the kernel; once [scdk_timer_disable_preemption] has turned it off the same
    interrupts switch to no thread. Either way every interrupt is counted (in 64
    bits) and acknowledged once. The interrupts come one after another: each is
    taken while a thread runs its own code and the handler runs to its end. (The
    handler enables interrupts before it yields, so on the machine one can also
    come inside a yield: see [timer_interrupt_loses_thread].) *)
Theorem timer_preempts_in_turn s (q : run_state) n t l :
  sched_rel (kernel_of s) q → rs_queue q !! n = Some t → length l = S n → u64 (timer_ticks (own s)) →
  (∃ s' q', (scdk_timer_enable_preemption ;; interrupts l) s = (Ok tt, s') ∧
     sched_rel (kernel_of s') q' ∧ rs_current q' = t ∧ state_of (kernel_of s') t = Some SCDK_THREAD_RUNNING ∧
     scdk_timer_ticks s' = (scdk_timer_ticks s + Z.of_nat (S n)) mod two64 ∧
     port_writes (own s') = port_writes (own s) ++ replicate (S n) (PIC1_COMMAND, PIC_EOI)) ∧
  (∃ s', (scdk_timer_disable_preemption ;; interrupts l) s = (Ok tt, s') ∧ kernel_of s' = kernel_of s ∧
     scdk_timer_ticks s' = (scdk_timer_ticks s + Z.of_nat (S n)) mod two64 ∧
     port_writes (own s') = port_writes (own s) ++ replicate (S n) (PIC1_COMMAND, PIC_EOI)).
Proof.
  intros HR Hq Hl Hu. split.
  - rewrite (bind_Ok _ _ _ _ _ (enable_run s)). set (s1 := put_own _ s).
    assert (kernel_of s1 = kernel_of s) as Ek1 by apply kernel_put_own.
    destruct (yields_reach (kernel_of s1) q n t l) as (k' & q' & Hy & HR' & Hc & _ & Hs); [by rewrite Ek1|done|done|].
    destruct (interrupts_run l s1 k') as (s' & E & Ek & Eo); [unfold s1; by rewrite own_put..|exact Hy|].
    exists s', q'. rewrite Ek. unfold scdk_timer_ticks. rewrite Eo, Hl. unfold s1. rewrite own_put. split_and!; done.
  - rewrite (bind_Ok _ _ _ _ _ (disable_run s)). set (s1 := put_own _ s).
    destruct (interrupts_idle l s1) as (s' & E & Ek & Eo); [unfold s1; by rewrite own_put..|].
    exists s'. rewrite Ek. unfold scdk_timer_ticks. rewrite Eo, Hl. unfold s1. rewrite own_put, kernel_put_own. split_and!; done.
Qed.

(** *** An interrupt inside [scdk_yield] *)
Lemma prepare_run k q n l :
  sched_rel k q → rs_dead q = false → rs_queue q = n :: l → rs_driver q ≠ Some (rs_current q) →
  ∃ k2, yield_prepare k = (Ok (Some n), k2) ∧ parked k2 (rs_current q) n (l ++ [rs_current q]) (rs_driver q).
Proof.
  intros [R1 R2 R3 R4 R5 R6 R7 R8 R9] Hl Hq Hd. destruct q as [o dead q d]. cbn [rs_current rs_dead rs_queue rs_driver] in *.
  subst dead q. unfold yield_prepare. rewrite !bind_gets, R1, R2. cbn [negb].
  destruct (valid_get _ _ _ _ R5) as (slot & Hg & _ & _ & G3 & _). rewrite (bind_Ok _ _ _ _ _ Hg), G3.
  assert (o ∉ n :: l) as Hoq.
  { intros Ho. destruct (valid_unique _ _ _ _ _ _ R5 (qr_valid _ _ R4 o Ho)) as [_ [=]]. }
  apply not_elem_of_cons in Hoq as [Hon Hol]. pose proof (qr_nodup _ _ R4) as Hnd. apply NoDup_cons in Hnd as [Hnl _].
  destruct (dequeue_first _ _ _ R4) as (k1 & Hdq & T1 & Hq1 & Hn1 & _ & Hs1).
  rewrite (bind_Ok _ _ _ _ _ Hdq), bind_gets, bind_ret.
  assert (scheduler_driver_slot (k_sched k1) = d) as -> by (by rewrite Hs1).
  assert (valid_thread k1 o SCDK_THREAD_RUNNING false) as Ho1 by (by apply (touched_valid _ _ _ _ _ _ T1)).
  destruct (valid_get _ _ _ _ Ho1) as (slot1 & Hg1 & G1 & _). rewrite (bind_Ok _ _ _ _ _ Hg1), G1, Z.eqb_refl.
  rewrite bool_decide_false by done. rewrite bind_modify.
  destruct (park_ready k1 o n l d) as (k2 & Hen & _ & _ & HP); try done; try (by rewrite Hs1).
  - by eexists.
  - intros d' -> Hdn Hdo. apply (touched_valid _ _ _ _ _ _ T1); [done|by apply R6].
  - intros j Hj. destruct (decide (j = n)) as [->|].
    + rewrite (valid_state _ _ _ _ Hn1) in Hj. discriminate Hj.
    + rewrite (state_of_others _ _ _ _ T1) in Hj by done. by apply R7 in Hj as [? _].
  - apply (new_threads_touched k k1 (λ j, j = n)); [done|done|]. intros j.
    destruct (decide (j = n)) as [->|]; [right; left|by left]. by rewrite (valid_state _ _ _ _ Hn1).
  - exists k2. split; [|done]. unfold bind, attempt. by rewrite Hen.
Qed.

(** A yield by the parked thread itself takes it out of the queue and goes on. *)
Lemma yield_parked k o n d regs :
  parked k o n [o] d →
  ∃ k', scdk_yield regs k = (Ok None, k') ∧ parked k' o n [] d ∧ state_of k' o = Some SCDK_THREAD_READY.
Proof.
  intros [P1 P2 P3 P4 P5 P6 [st P7] P8 P9 P10 P11]. unfold scdk_yield. rewrite !bind_gets, P1, P2. cbn [negb].
  destruct (qr_valid _ _ P5 o) as (slot & S1 & S2 & S3 & S4 & S5); [left|].
  rewrite (bind_Ok _ _ k slot k) by (unfold get_thread, query; by rewrite S1). rewrite S4.
  destruct (dequeue_first _ _ _ P5) as (k1 & Hdq & T1 & Hq1 & Ho1 & _ & Hs1).
  rewrite (bind_Ok _ _ _ _ _ Hdq), bind_gets, bind_ret.
  destruct (valid_get _ _ _ _ Ho1) as (slot1 & Hg1 & G1 & _). rewrite (bind_Ok _ _ _ _ _ Hg1), G1.
  change (SCDK_THREAD_READY =? SCDK_THREAD_RUNNING) with false. cbv iota. unfold switch_to_thread.
  assert (current_thread_slot (k_sched k1) = Some o) as Hc1 by (by rewrite Hs1).
  rewrite bind_gets, Hc1, bool_decide_true by done. exists k1. split; [done|].
  split; [|by apply (valid_state _ _ _ false)]. split; try (by rewrite Hs1); try done.
  - by apply not_elem_of_nil.
  - exists st. by apply (touched_valid _ _ _ _ _ _ T1).
  - destruct Ho1 as (x & Hx & _). by exists x.
  - intros d' Hd Hn. apply (touched_valid _ _ _ _ _ _ T1); [|by apply P9].
    intros ->. destruct (valid_unique _ _ _ _ _ _ (P9 o Hd (not_eq_sym P4)) (qr_valid _ _ P5 o ltac:(left))) as [[=] _].
  - intros j Hj. destruct (decide (j = o)) as [->|].
    + rewrite (valid_state _ _ _ _ Ho1) in Hj. discriminate Hj.
    + rewrite (state_of_others _ _ _ _ T1) in Hj by done. by apply P10 in Hj.
  - apply (new_threads_touched k k1 (λ j, j = o)); [done|done|]. intros j.
    destruct (decide (j = o)) as [->|]; [right; left|by left]. by rewrite (valid_state _ _ _ _ Ho1).
Qed.

Lemma yields_alone k t l : sched_rel k (mk_run_state t false [] None) → yields l k = (Ok tt, k).
Proof.
  intros HR. induction l as [|regs l IH]; [done|]. cbn [yields].
  pose proof (yield_refines k _ regs HR) as Hy.
  change (scdk_yield regs k = (Ok None, k)) in Hy. by rewrite (bind_Ok _ _ _ _ _ Hy).
Qed.

Lemma switch_leaves k o n regs c k' :
  current_thread_slot (k_sched k) = Some o → n ≠ o → switch_to_thread regs (Some n) k = (Ok c, k') →
  state_of k' o = state_of k o.
Proof.
  intros Hc Hn E. unfold switch_to_thread in E. rewrite bind_gets, Hc, bool_decide_false in E by done.
  rewrite bind_modify in E. apply bind_inv in E as [(slot & k1 & E1 & E)|[(e & _ & [=])|[_ [=]]]].
  unfold get_thread, query in E1. injection E1 as _ <-. rewrite !bind_modify in E. injection E as _ <-.
  unfold state_of. cbn. rewrite list_lookup_alter_eq, list_lookup_alter_ne by done.
  by destruct (thread_table (k_sched k) !! o).
Qed.

(** C37. An interrupt at the wrong moment loses a thread. The running thread yields to
    the only other one; when the timer interrupts the yield after the thread has
    been put back in the queue and before the switch, the handler's own yield takes
    it out again. The switch then leaves it READY in no queue, and no number of
    interrupts lets it run. Without the interrupt it waits in the queue. *)
Theorem timer_interrupt_loses_thread s (q : run_state) t irq regs :
  sched_rel (kernel_of s) q → rs_dead q = false → rs_queue q = [t] → rs_driver q = None →
  timer_preemption_enabled (own s) = true → u64 (timer_ticks (own s)) →
  (∃ c k', scdk_yield regs (kernel_of s) = (Ok (Some c), k') ∧ sched_rel k' (mk_run_state t false [rs_current q] None)) ∧
  ∃ c s', interrupted_yield irq regs s = (Ok (Some c), s') ∧
    state_of (kernel_of s') (rs_current q) = Some SCDK_THREAD_READY ∧ rs_current q ≠ t ∧
    sched_rel (kernel_of s') (mk_run_state t false [] None) ∧
    ∀ l, ∃ s'', interrupts l s' = (Ok tt, s'') ∧ kernel_of s'' = kernel_of s'.
Proof.
  intros HR Hl Hq Hd He Hu. split.
  { pose proof (yield_refines _ _ regs HR) as Hy. unfold rr_yield in Hy. rewrite Hq, Hd in Hy.
    destruct Hy as (k' & c & Hy & _ & HR' & _). exists c, k'. split; [done|]. revert HR'. unfold rr_requeue.
    by rewrite Hl, Hd. }
  destruct (prepare_run _ _ _ _ HR Hl Hq) as (k1 & E1 & HP1); [by rewrite Hd|]. rewrite Hd in HP1.
  destruct (yield_parked _ _ _ _ irq HP1) as (k2 & E2 & HP2 & Hst).
  destruct (switch_refines _ _ _ _ _ regs HP2) as (k3 & c & E3 & _ & HR3 & T3 & _).
  unfold interrupted_yield. rewrite (bind_Ok _ _ _ _ _ (onkern_put _ _ _ _ E1)).
  set (s1 := put_kernel k1 s). assert (own s1 = own s) as Eo1 by (apply (own_put_kernel (U:=timer))).
  assert (kernel_of s1 = k1) as Ek1 by apply kernel_put_kernel.
  set (s2 := put_kernel k2 (put_own (ticked 1 true (own s)) s1)).
  rewrite (bind_Ok _ _ _ None s2) by (rewrite interrupt_run, Eo1, He, Ek1, E2; done).
  assert (kernel_of s2 = k2) as Ek2 by apply kernel_put_kernel.
  rewrite (onkern_put _ s2 (Ok (Some c)) k3) by (by rewrite Ek2). exists c, (put_kernel k3 s2). split; [done|].
  rewrite kernel_put_kernel. split_and!; [|apply not_eq_sym, HP1|done|].
  - rewrite (switch_leaves k2 _ _ _ _ _ (pk_current _ _ _ _ _ HP2) (pk_other _ _ _ _ _ HP2) E3). exact Hst.
  - intros l. destruct (interrupts_run l (put_kernel k3 s2) k3) as (s'' & E & Ek & _).
    + rewrite own_put_kernel. unfold s2. rewrite own_put_kernel, own_put. unfold ticked. cbn. by apply Z.mod_pos_bound.
    + rewrite own_put_kernel. unfold s2. by rewrite own_put_kernel, own_put.
    + rewrite kernel_put_kernel. by eapply yields_alone.
    + by exists s''.
Qed.
End properties.

(** ** Witnesses: two threads and a timer with preemption on *)
Definition demo_ticking : machine * timer := (machine_of demo_started, set_preemption true boot_timer).
Lemma demo_ticking_rel :
  ∃ q t, sched_rel (kernel_of demo_ticking) q ∧ rs_dead q = false ∧ rs_queue q = [t] ∧ rs_driver q = None.
Proof.
  destruct demo_started_rel as (q & HR & Hl & t & Hq). exists q, t. pose proof (sr_driver _ _ HR) as Hd.
  unfold demo_ticking, kernel_of, machine_kernel. cbn [the_machine pair_machine fst].
  change (m_kernel (machine_of demo_started)) with demo_started. split_and!; [done..|].
  rewrite <-Hd. vm_compute. reflexivity.
Qed.

Lemma timer_init_exact_witness :
  ∃ s', scdk_timer_init demo_platform 0x100500 100 (demo_machine, boot_timer) = (Ok tt, s') ∧
    timer_initialized (own s') = true.
Proof.
  destruct (timer_init_exact (demo_machine, boot_timer) demo_platform 0x100500 100 (mk_pic 0 8 0) (mk_pic 0 0x70 0))
    as (r & s' & ws & E & _ & _ & _ & _ & Hr).
  - reflexivity.
  - discriminate.
  - unfold u64, two64. lia.
  - lia.
  - intros Hf. discriminate Hf.
  - destruct (decide (19 <= 100 <= PIT_BASE_HZ)) as [_|Hn]; [|exfalso; apply Hn; unfold PIT_BASE_HZ; lia].
    destruct Hr as (-> & Eo & _). exists s'. split; [exact E|]. rewrite Eo. reflexivity.
Defined.
Lemma timer_preempts_in_turn_witness :
  ∃ t s', (scdk_timer_enable_preemption ;; interrupts [demo_regs]) demo_ticking = (Ok tt, s') ∧
    state_of (kernel_of s') t = Some SCDK_THREAD_RUNNING ∧ scdk_timer_ticks s' = 1.
Proof.
  destruct demo_ticking_rel as (q & t & HR & _ & Hq & _).
  assert (rs_queue q !! 0%nat = Some t) as Hq0 by (rewrite Hq; reflexivity).
  destruct (timer_preempts_in_turn demo_ticking q 0 t [demo_regs] HR Hq0 eq_refl) as [(s' & q' & E & _ & _ & Hs & Ht & _) _].
  - unfold u64, two64. cbn. lia.
  - exists t, s'. split; [exact E|]. split; [exact Hs|]. rewrite Ht. reflexivity.
Defined.
Lemma timer_interrupt_loses_thread_witness :
  ∃ t c s', interrupted_yield demo_regs demo_regs demo_ticking = (Ok (Some c), s') ∧
    state_of (kernel_of s') t = Some SCDK_THREAD_READY.
Proof.
  destruct demo_ticking_rel as (q & t & HR & Hl & Hq & Hd).
  destruct (timer_interrupt_loses_thread demo_ticking q t demo_regs demo_regs HR Hl Hq Hd) as [_ (c & s' & E & Hs & _)].
  - reflexivity.
  - unfold u64, two64. cbn. lia.
  - exists (rs_current q), c, s'. split; [exact E|exact Hs].
Defined.
