(* ===== verification/Loader.v ===== *)
(** * Program loader and process service ([src/core/loader.c],
    [src/services/proc_service.c])

    The loader opens a file through the VFS endpoint, reads it into a block of the
    heap and closes it; the block is the image a new user task runs. The process
    service takes spawn messages and calls the loader.

    Running the task ([Process.scdk_user_task_run_flat]) is an argument here: the
    user code calls back into the services, so it runs on the state the loader runs
    on. *)
From stdpp Require Import base gmap list numbers relations.
From Stdlib Require Import ZArith Lia.
From S2P Require Import Prelude.
From S2P Require Import Kernel.
From S2P Require Import Object.
From S2P Require Import Capability.
From S2P Require Import Invariant.
From S2P Require Import Endpoint.
From S2P Require Import Pmm.
From S2P Require Import Vmm.
From S2P Require Import Heap.
From S2P Require Import HeapVm.
From S2P Require Import AddressSpace.
From S2P Require Import Scheduler.
From S2P Require Import CString.
From S2P Require Import Initrd.
From S2P Require Import UserMemory.
From S2P Require Import HeapPages.
From S2P Require Import UserGrant.
From S2P Require Import UserTask.
From S2P Require Import TaskCreate.
From S2P Require Import Usermode.
From S2P Require Import UserMessage.
From S2P Require Import Component.
From S2P Require Import Files.
From S2P Require Import FileService.

#[local] Open Scope Z_scope.

Definition SCDK_LOADER_MAX_IMAGE_SIZE : Z := 65536.
Definition SCDK_PROC_MAX_PATH : nat := 128.

Section loader.
Context {T : Type} `{HasMachine T}.
(** The endpoint handlers, and the address of the path. *)
Context (invoke : option (list Z) → handler_on T) (path_at : Z).
Implicit Types (vfs_endpoint file buffer size : Z) (path : list Z).

(** [status = scdk_endpoint_call(endpoint, &msg); if (status != SCDK_OK) return status;] *)
Definition loader_call (payload : option (list Z)) (endpoint : Z) (msg : scdk_message) : M T scdk_message :=
  let* reply := scdk_endpoint_call (invoke payload) endpoint msg in
  lift reply.2 ;;
  ret reply.1.

Definition loader_close_file vfs_endpoint file : M T unit :=
  guard ((vfs_endpoint =? 0) || (file =? 0)) SCDK_ERR_INVAL ;;
  loader_call None vfs_endpoint
    (set_msg_args (scdk_message_init 0 SCDK_SERVICE_VFS SCDK_MSG_CLOSE) file 0 0 0) ;;
  ret tt.

(** Each round reads one byte or more, so [size] rounds are enough. *)
Fixpoint loader_read_loop (fuel : nat) vfs_endpoint file buffer size (offset : Z) : M T unit :=
  if offset <? size then
    match fuel with
    | O => ub
    | S fuel =>
        let* msg := loader_call None vfs_endpoint
          (set_msg_args (scdk_message_init 0 SCDK_SERVICE_VFS SCDK_MSG_READ)
             file offset (wrap64 (buffer + offset)) (size - offset)) in
        guard ((msg_arg0 msg =? 0) || (size - offset <? msg_arg0 msg)) SCDK_ERR_BOUNDS ;;
        loader_read_loop fuel vfs_endpoint file buffer size (offset + msg_arg0 msg)
    end
  else ret tt.
Definition loader_read_file vfs_endpoint file buffer size : M T unit :=
  guard ((vfs_endpoint =? 0) || (file =? 0) || (buffer =? 0) || (size =? 0)) SCDK_ERR_INVAL ;;
  loader_read_loop (Z.to_nat size) vfs_endpoint file buffer size 0.

(** The file and its size. *)
Definition loader_open_file vfs_endpoint path : M T (Z * Z) :=
  guard ((vfs_endpoint =? 0) || (path_at =? 0)) SCDK_ERR_INVAL ;;
  let* msg := loader_call (Some path) vfs_endpoint
    (set_msg_args (scdk_message_init 0 SCDK_SERVICE_VFS SCDK_MSG_OPEN) path_at 0 0 0) in
  guard ((msg_arg0 msg =? 0) || (msg_arg1 msg =? 0)) SCDK_ERR_NOENT ;;
  guard (SCDK_LOADER_MAX_IMAGE_SIZE <? msg_arg1 msg) SCDK_ERR_BOUNDS ;;
  ret (msg_arg0 msg, msg_arg1 msg).

(** The block of the image and its size. *)
Definition loader_read_image path : M T (Z * Z) :=
  guard (path_at =? 0) SCDK_ERR_INVAL ;;
  let* vfs_endpoint := onkern (query (λ k, scdk_service_lookup k SCDK_SERVICE_VFS)) in
  let* opened := loader_open_file vfs_endpoint path in
  let (file, image_size) := (opened : Z * Z) in
  let* image := onkern (scdk_kalloc image_size) in
  let* status :=
    if image =? 0 then ret (Err SCDK_ERR_NOMEM)
    else attempt (recover (loader_read_file vfs_endpoint file image image_size) (onkern (scdk_kfree image))) in
  let* close_status := attempt (loader_close_file vfs_endpoint file) in
  lift status ;;
  recover (lift close_status) (onkern (scdk_kfree image)) ;;
  ret (image, image_size).

(** [scdk_user_task_run_flat(task, image, image_size, bootstrap_endpoint, hhdm_offset)] *)
Context (run_flat : Z → list Z → Z → Z → Z → M T unit).

(** The task and its main thread. *)
Definition scdk_loader_load_from_vfs_with_endpoint path (hhdm_offset bootstrap_endpoint : Z) : M T (Z * Z) :=
  guard ((path_at =? 0) || (hhdm_offset =? 0) || (bootstrap_endpoint =? 0)) SCDK_ERR_INVAL ;;
  onkern (query (λ k, scdk_cap_check k bootstrap_endpoint SCDK_RIGHT_SEND SCDK_OBJ_ENDPOINT)) ;;
  let* read := loader_read_image path in
  let (image, image_size) := (read : Z * Z) in
  let* created := recover (onkern scdk_user_task_create) (onkern (scdk_kfree image)) in
  let '(task, address_space, main_thread) := (created : Z * Z * Z) in
  recover (guard ((address_space =? 0) || (main_thread =? 0)) SCDK_ERR_NOENT) (onkern (scdk_kfree image)) ;;
  let* bytes := onkern (query (λ k, user_load k image (Z.to_nat image_size))) in
  let* status := attempt (run_flat task bytes image_size bootstrap_endpoint hhdm_offset) in
  onkern (scdk_kfree image) ;;
  lift status ;;
  ret (task, main_thread).

Definition scdk_loader_load_from_vfs path (hhdm_offset : Z) : M T (Z * Z) :=
  let* console_endpoint := onkern (query (λ k, scdk_service_lookup k SCDK_SERVICE_CONSOLE)) in
  scdk_loader_load_from_vfs_with_endpoint path hhdm_offset console_endpoint.

(** The last step of the boot sequence ([src/kernel/main.c]); [path_at] is the
    address of the literal. *)
Definition init_path : list Z := [47; 105; 110; 105; 116; 0].
Definition launch_init (hhdm_offset : Z) : M T unit :=
  let* session := attempt (onkern (query (λ k, scdk_service_lookup k SCDK_SERVICE_SESSION))) in
  match session with
  | Ok session_endpoint =>
      let* loaded := attempt (scdk_loader_load_from_vfs_with_endpoint init_path hhdm_offset session_endpoint) in
      match loaded with
      | Ok task_thread => ignore (onkern (scdk_task_cleanup task_thread.1))
      | _ => ret tt
      end
  | _ => ret tt
  end.
End loader.

(** ** The process service *)

(** [proc_started] and [proc_hhdm_offset] *)
Record proc := mk_proc { proc_started : bool; proc_hhdm_offset : Z }.
Definition boot_proc : proc := mk_proc false 0.

(** [payload] are the bytes at the address in [arg0]. The bytes of the local buffer
    are taken to be zero before it is written. *)
Definition bounded_path_from_message (payload : option (list Z)) (msg : scdk_message) (path_size : nat)
  : result (list Z) :=
  let? _ := rguard ((path_size =? 0)%nat || (msg_arg0 msg =? 0)) SCDK_ERR_INVAL in
  let length := msg_arg1 msg in
  let? _ := rguard ((length =? 0) || (Z.of_nat path_size <=? length)) SCDK_ERR_BOUNDS in
  let? bytes := deref payload in
  let? path := memcpy (replicate path_size 0) 0 bytes (Z.to_nat length) in
  store8 path (Z.to_nat length) 0.

Section proc.
Context {T : Type} `{Beside proc T}.
Context (invoke : option (list Z) → handler_on T) (path_at : Z) (run_flat : Z → list Z → Z → Z → Z → M T unit).
Implicit Types msg : scdk_message.

Definition proc_handle_spawn (payload : option (list Z)) msg : M T scdk_message :=
  let* path := lift (bounded_path_from_message payload msg SCDK_PROC_MAX_PATH) in
  let bootstrap_endpoint := msg_arg2 msg in
  let* hhdm_offset := onown (gets proc_hhdm_offset) in
  let* loaded :=
    if negb (bootstrap_endpoint =? 0) then
      onkern (query (λ k, scdk_cap_check k bootstrap_endpoint SCDK_RIGHT_SEND SCDK_OBJ_ENDPOINT)) ;;
      scdk_loader_load_from_vfs_with_endpoint invoke path_at run_flat path hhdm_offset bootstrap_endpoint
    else scdk_loader_load_from_vfs invoke path_at run_flat path hhdm_offset in
  onkern (scdk_task_cleanup loaded.1) ;;
  ret (set_msg_args msg loaded.1 0 (msg_arg2 msg) (msg_arg3 msg)).

Definition proc_endpoint_handler_fn (payload : option (list Z)) (endpoint : Z) msg (context : Z)
  : M T (scdk_message * result unit) :=
  if msg_type msg =? SCDK_MSG_PROCESS_SPAWN then answers msg (proc_handle_spawn payload msg)
  else if msg_type msg =? SCDK_MSG_PROCESS_EXIT then ret (msg, Ok tt)
  else ret (msg, Err SCDK_ERR_NOTSUP).

Definition scdk_proc_service_init (hhdm_offset : Z) : M T Z :=
  guard (hhdm_offset =? 0) SCDK_ERR_INVAL ;;
  let* started := onown (gets proc_started) in
  guard started SCDK_ERR_BUSY ;;
  let* endpoint := onkern (scdk_endpoint_create SCDK_BOOT_CORE (Some proc_endpoint_handler) 0) in
  onkern (scdk_service_register SCDK_SERVICE_PROC endpoint) ;;
  onown (modify (λ _, mk_proc true hhdm_offset)) ;;
  ret endpoint.
End proc.

(** ** Loading a file *)

(** The pages of user memory are labelled as data, so no table is ever put there. *)
Definition user_labelled (k : kernel) (L : gmap Z label) : Prop :=
  ∀ v t, 0 <= v < SCDK_USER_VIRT_TOP → scdk_vmm_virt_to_phys k v = Ok t →
    ∃ l, L !! (t.1 - t.1 mod 4096) = Some l ∧ (3 < length l.2)%nat.

Lemma heap_pages_same k k' L :
  k_vmm k' = k_vmm k → k_heap k' = k_heap k → pt_typed k' L →
  heap_pages (heap_commit_end (k_heap k)) k L → heap_pages (heap_commit_end (k_heap k')) k' L.
Proof.
  intros Ev -> HT (pages & [A1 A2 A3 A4 A5 A6] & He). exists pages. split; [|done]. split; try done.
  intros i p Hi. rewrite (virt_to_phys_vmm k) by done. by apply A6.
Qed.

Lemma user_labelled_same k k' L : k_vmm k' = k_vmm k → user_labelled k L → user_labelled k' L.
Proof. intros Ev Hu v t Hr. rewrite (virt_to_phys_vmm k) by done. by apply Hu. Qed.

Section loading.
Context {T : Type} `{Beside files T} (other : option (list Z) → handler_on T).
Context (path_at vfs : Z) (boot : list (list Z * list Z)).
Implicit Types (s : T) (L : gmap Z label) (hs : blocks).

(** Both file services and the heap are up. *)
Record loads L hs s : Prop := {
  ld_mounted : mounted vfs boot L s;
  ld_heap : heap_wf (kernel_of s) hs;
  ld_ready : heap_initialized (k_heap (kernel_of s)) = true;
  ld_pages : heap_pages (heap_commit_end (k_heap (kernel_of s))) (kernel_of s) L;
  ld_user : user_labelled (kernel_of s) L
}.

Lemma low_pml4 v : 0 <= v < SCDK_USER_VIRT_TOP → pml4_index v < 256.
Proof.
  intros Hv. unfold pml4_index. rewrite Z.shiftr_div_pow2 by done. change 0x1ff with (Z.ones 9).
  rewrite Z.land_ones by done. change (2 ^ 9) with 512. change (2 ^ 39) with 549755813888.
  unfold SCDK_USER_VIRT_TOP in Hv. Z.to_euclidean_division_equations; lia.
Qed.
Lemma vm_user_translate k k' L L' v :
  pt_typed k L → vm_step k k' L L' → 0 <= v < SCDK_USER_VIRT_TOP →
  scdk_vmm_virt_to_phys k' v = scdk_vmm_virt_to_phys k v.
Proof.
  intros HT Hs Hv. unfold scdk_vmm_virt_to_phys.
  assert (active_cr3_phys (k_vmm k') = active_cr3_phys (k_vmm k)) as -> by (by rewrite (vs_frame _ _ _ _ Hs)).
  apply pte_same_translation; [by rewrite (vs_frame _ _ _ _ Hs)|].
  apply (vs_user _ _ _ _ Hs); [apply HT|lia|by apply low_pml4].
Qed.

(** The heap grows under the services without their noticing. *)
Lemma vm_mounted s k' L L' :
  mounted vfs boot L s → user_labelled (kernel_of s) L → vm_step (kernel_of s) k' L L' →
  mounted vfs boot L' (put_kernel k' s) ∧ user_labelled k' L' ∧ fstate_of (put_kernel k' s) = fstate_of s.
Proof.
  intros [Hf Hv Ht Hm] Hu Hs.
  assert (user_labelled k' L') as Hu'.
  { intros v t Hr E. rewrite (vm_user_translate (kernel_of s) k' L L') in E by (done || apply Hm).
    destruct (Hu v t Hr E) as (l & Hl & ?). exists l. split; [|done]. eapply lookup_weaken; [done|apply Hs]. }
  pose proof (vs_frame _ _ _ _ Hs) as Hfr. split_and!; [|done|].
  - split; rewrite ?kernel_put_kernel, ?own_put_kernel.
    + rewrite Hfr. destruct Hf as [A1 A2 A3 A4 A5 A6 A7 A8 A9]. split; try done.
      apply (kernel_wf_frame (kernel_of s)); [done..|]. by apply (tables_sized_core (kernel_of s)); [apply A1|..].
    + by rewrite Hfr.
    + by rewrite Hfr.
    + split; [apply Hs| |].
      * pose proof (um_synced _ _ Hm) as Hc. unfold cr3_synced in *. by rewrite Hfr.
      * intros v t Hr _ E. destruct (Hu' v t Hr E) as (l & Hl & ?). intros l' Hl'. congruence.
  - unfold fstate_of. rewrite kernel_put_kernel, own_put_kernel. by rewrite Hfr.
Qed.

Lemma loads_grown s s' L hs :
  loads L hs s → mounted vfs boot L s' → grown (kernel_of s) (kernel_of s') → loads L hs s'.
Proof.
  intros [Hm Hh Hr Hp Hu] Hm' Hg. pose proof (gw_heap _ _ Hg) as Eh. split; [done| | | |].
  - by apply (heap_wf_same (kernel_of s)).
  - by rewrite Eh.
  - apply (heap_pages_same (kernel_of s)); [apply Hg|done|apply Hm'|done].
  - apply (user_labelled_same (kernel_of s)); [apply Hg|done].
Qed.
Lemma loads_written s s' L hs :
  loads L hs s → mounted vfs boot L s' → mem_step (kernel_of s) (kernel_of s') L → loads L hs s'.
Proof.
  intros [Hm Hh Hr Hp Hu] Hm' Hs.
  assert (k_heap (kernel_of s') = k_heap (kernel_of s)) as Eh by (by rewrite (ms_frame _ _ _ Hs)).
  assert (∀ v, scdk_vmm_virt_to_phys (kernel_of s') v = scdk_vmm_virt_to_phys (kernel_of s) v) as Htr.
  { intros v. apply (mem_step_translate _ _ L); [apply Hm|done]. }
  split; [done|..].
  - by apply (heap_wf_same (kernel_of s)).
  - by rewrite Eh.
  - rewrite Eh. destruct Hp as (pages & [A1 A2 A3 A4 A5 A6] & He). exists pages. split; [|done].
    split; try done; [apply Hs|]. intros i p Hi. rewrite Htr. by apply A6.
  - intros v t Hr'. rewrite Htr. by apply Hu.
Qed.

(** *** Calls *)
Abbreviation services := (file_services other 2).
Lemma loader_call_reply payload ep msg s reply s' :
  scdk_endpoint_call (services payload) ep msg s = (Ok reply, s') →
  ∃ m, loader_call services payload ep msg s = (m, s') ∧ reply_args m = reply_of reply.
Proof.
  intros E. unfold loader_call. rewrite (bind_Ok _ _ _ _ _ E). unfold reply_of, bind, lift.
  destruct reply.2 as [[]|e|]; by eexists.
Qed.
Lemma loader_request r s out s' :
  request other path_at vfs r s = (Ok out, s') →
  ∃ m, loader_call services (request_msg path_at r).2 vfs (request_msg path_at r).1 s = (m, s') ∧ reply_args m = out.
Proof.
  unfold request, bind. destruct (scdk_endpoint_call _ _ _ s) as [[reply| |] s1] eqn:E; [|done..].
  intros [= <- <-]. by apply loader_call_reply.
Qed.
Lemma vfs_nonzero s L : mounted vfs boot L s → vfs ≠ 0.
Proof. intros Hm ->. destruct (mo_vfs _ _ _ _ Hm) as [_ (? & ? & E)]. done. Qed.
Lemma handle_nonzero s L c d : mounted vfs boot L s → f_open (fstate_of s) !! c = Some d → u64 c ∧ c ≠ 0.
Proof.
  intros Hm Hd. apply (handles_lookup _ _ _ _ _ (mo_files _ _ _ _ Hm)) in Hd as (Hu & i & f & E & _).
  split; [done|]. intros ->. done.
Qed.

(** The file services answer an open with a file, whatever its size. *)
Lemma open_file_run s L path buf :
  mounted vfs boot L s → path_at ≠ 0 → request_ok L (kernel_of s) (F_open path) → cstr buf path →
  ∃ m s', loader_open_file services path_at vfs buf s =
      (let? msg := m in
       let? _ := rguard ((msg_arg0 msg =? 0) || (msg_arg1 msg =? 0)) SCDK_ERR_NOENT in
       let? _ := rguard (SCDK_LOADER_MAX_IMAGE_SIZE <? msg_arg1 msg) SCDK_ERR_BOUNDS in
       Ok (msg_arg0 msg, msg_arg1 msg), s') ∧
    mounted vfs boot L s' ∧ opens s (file_lookup path boot) (reply_args m) s'.
Proof.
  intros Hm Ha Hr Hb. unfold loader_open_file.
  rewrite bind_guard by (by rewrite (proj2 (Z.eqb_neq _ 0) (vfs_nonzero _ _ Hm)), (proj2 (Z.eqb_neq _ 0) Ha)).
  set (msg := set_msg_args _ _ _ _ _).
  destruct (open_call other vfs boot L s msg path buf Hm eq_refl Ha (or_intror eq_refl) Hr Hb)
    as (reply & s' & E & Hm' & _ & Ho).
  destruct (loader_call_reply _ _ _ _ _ _ E) as (m & Em & Er). exists m, s'. rewrite Er. split; [|done].
  destruct m as [m|e|]; [|by rewrite (bind_Err _ _ _ _ _ Em)|unfold bind; by rewrite Em].
  rewrite (bind_Ok _ _ _ _ _ Em). cbn [rbind]. unfold bind, guard, rguard, ret, fail. by destruct (_ || _), (SCDK_LOADER_MAX_IMAGE_SIZE <? _).
Qed.

(** A block of the heap is writable, and its bytes are its own. *)
Lemma block_memory s L hs p sz n :
  loads L hs s → (p, sz) ∈ allocs SCDK_HEAP_BASE hs → 0 <= n <= sz →
  heap_addr p ∧ u64 n ∧ writable L (kernel_of s) p n ∧ range_distinct (kernel_of s) p n.
Proof.
  intros [Hm Hh Hr Hp Hu] Hin Hn.
  pose proof (allocs_bounds _ _ _ _ (hl_sizes _ _ (hw_list _ _ Hh)) Hin) as (Hlo & Hs & Hhi).
  pose proof (hl_end _ _ (hw_list _ _ Hh)) as Hend. rewrite <-(hw_commit _ _ Hh) in Hhi, Hend.
  unfold SCDK_HEAP_SIZE in Hend. split_and!.
  - unfold heap_addr, SCDK_HEAP_SIZE. lia.
  - unfold u64, two64. lia.
  - intros v Hv. apply (heap_byte_data (heap_commit_end (k_heap (kernel_of s)))); [done|lia].
  - intros v v' t t' Hv Hv'. apply (heap_bytes_distinct _ _ _ _ _ _ _ Hp); lia.
Qed.

Lemma read_file_run s L hs c d p sz :
  loads L hs s → path_at ≠ 0 → f_open (fstate_of s) !! c = Some d → 0 < Z.of_nat (length d) <= sz →
  (p, sz) ∈ allocs SCDK_HEAP_BASE hs →
  ∃ s', loader_read_file services vfs c p (Z.of_nat (length d)) s = (Ok tt, s') ∧ loads L hs s' ∧
    fstate_of s' = fstate_of s ∧ user_load (kernel_of s') p (length d) = Ok d.
Proof.
  intros HL Ha Hd Hlen Hin. pose proof (ld_mounted _ _ _ HL) as Hm. set (n := Z.of_nat (length d)) in *.
  destruct (block_memory s L hs p sz n HL Hin) as (Hh & Hn & Hw & Hdist); [lia|].
  destruct (heap_addr_u64 p Hh) as [Hpu _]. destruct (handle_nonzero s L c d Hm Hd) as [Hcu Hc].
  assert (p ≠ 0) as Hp0 by (unfold heap_addr, SCDK_HEAP_BASE in Hh; lia).
  assert (u64 0) as H0u by (unfold u64, two64; lia).
  destruct (request_sim other path_at vfs boot L s (F_read c 0 p n) Hm Ha) as (out & s' & E & Hm' & _ & [Ea Hspec] & Heff).
  { split_and!; done. }
  destruct (loader_request _ _ _ _ E) as (m & Em & Er). exists s'.
  assert (read_bytes d 0 n = d) as Erd by (unfold read_bytes, n; by rewrite Nat2Z.id, drop_0, firstn_all).
  assert (out = Ok (n, 0)) as Eout.
  { rewrite Hd in Hspec. unfold spec_read in Hspec. rewrite Erd in Hspec.
    by rewrite (proj2 (Z.eqb_neq n 0)), (proj2 (Z.ltb_ge _ 0)) in Hspec by lia. }
  rewrite Eout in Er. destruct m as [m|e|]; [|done..]. injection Er as Em0 _.
  unfold effect in Heff. rewrite Hd, Eout, Erd in Heff. split_and!.
  - unfold loader_read_file. rewrite bind_guard.
    2:{ by rewrite (proj2 (Z.eqb_neq _ 0) (vfs_nonzero _ _ Hm)), (proj2 (Z.eqb_neq _ 0) Hc),
          (proj2 (Z.eqb_neq _ 0) Hp0), (proj2 (Z.eqb_neq n 0)) by lia. }
    unfold n at 1. rewrite Nat2Z.id. destruct (length d) as [|l] eqn:El; [lia|]. cbn [loader_read_loop].
    rewrite (proj2 (Z.ltb_lt 0 n)) by lia. rewrite Z.add_0_r, Z.sub_0_r, (heap_addr_wrap p Hh).
    rewrite (bind_Ok _ _ _ _ _ Em). rewrite Em0.
    rewrite bind_guard by (by rewrite (proj2 (Z.eqb_neq n 0)), Z.ltb_irrefl by lia).
    destruct l; cbn [loader_read_loop]; by rewrite Z.add_0_l, Z.ltb_irrefl.
  - apply (loads_written s); [done|done|apply Heff].
  - done.
  - apply Heff. done.
Qed.

Lemma close_file_run s L hs c d :
  loads L hs s → path_at ≠ 0 → f_open (fstate_of s) !! c = Some d →
  ∃ s', loader_close_file services vfs c s = (Ok tt, s') ∧ loads L hs s' ∧ kernel_of s' = kernel_of s ∧
    f_open (fstate_of s') = delete c (f_open (fstate_of s)).
Proof.
  intros HL Ha Hd. pose proof (ld_mounted _ _ _ HL) as Hm. destruct (handle_nonzero s L c d Hm Hd) as [Hcu Hc].
  destruct (request_sim other path_at vfs boot L s (F_close c) Hm Ha Hcu) as (out & s' & E & Hm' & _ & Hspec & Hk).
  destruct (loader_request _ _ _ _ E) as (m & Em & Er). exists s'. cbn [file_spec] in Hspec. rewrite Hd in Hspec.
  destruct Hspec as [[x Hx] Ef]. cbn [effect] in Hk. rewrite Hx in Er. destruct m as [m|e|]; [|done..]. split_and!.
  - unfold loader_close_file.
    rewrite bind_guard by (by rewrite (proj2 (Z.eqb_neq _ 0) (vfs_nonzero _ _ Hm)), (proj2 (Z.eqb_neq _ 0) Hc)).
    by rewrite (bind_Ok _ _ _ _ _ Em).
  - apply (loads_grown s); [done|done|by rewrite Hk].
  - done.
  - by rewrite Ef.
Qed.

(** Room for one more open file. *)
Definition open_room (a : fstate) : Prop :=
  size (f_open a) ≠ Z.to_nat SCDK_TMPFS_MAX_OPEN_FILES ∧ (0 < f_objects a)%nat ∧ (0 < f_caps a)%nat.
Lemma spec_open_room a d out a' :
  spec_open (Some d) a out a' → open_room a →
  ∃ c, out = Ok (c, Z.of_nat (length d)) ∧ f_open a !! c = None ∧ f_open a' = <[c := d]> (f_open a) ∧
    f_objects a = S (f_objects a') ∧ f_caps a = S (f_caps a').
Proof.
  unfold spec_open. intros Hs (Hsz & Ho & Hc). rewrite decide_False in Hs by done.
  destruct (f_objects a) as [|n]; [lia|]. destruct (f_caps a) as [|m]; [lia|].
  destruct Hs as (c & -> & Hn & ->). by exists c.
Qed.

(** The open file of an image, and the size the loader sees. *)
Lemma open_image s L path buf d :
  mounted vfs boot L s → path_at ≠ 0 → request_ok L (kernel_of s) (F_open path) → cstr buf path →
  file_lookup path boot = Some d → open_room (fstate_of s) →
  ∃ c s', mounted vfs boot L s' ∧ grown (kernel_of s) (kernel_of s') ∧ f_open (fstate_of s) !! c = None ∧
    f_open (fstate_of s') = <[c := d]> (f_open (fstate_of s)) ∧
    (f_objects (fstate_of s) = S (f_objects (fstate_of s')) ∧ f_caps (fstate_of s) = S (f_caps (fstate_of s'))) ∧
    loader_open_file services path_at vfs buf s =
      (if decide (length d = 0%nat) then Err SCDK_ERR_NOENT
       else if SCDK_LOADER_MAX_IMAGE_SIZE <? Z.of_nat (length d) then Err SCDK_ERR_BOUNDS
       else Ok (c, Z.of_nat (length d)), s').
Proof.
  intros Hm Ha Hr Hb Hd Hroom. destruct (open_file_run s L path buf Hm Ha Hr Hb) as (m & s' & E & Hm' & Ho & Hg).
  rewrite Hd in Ho. destruct (spec_open_room _ _ _ _ Ho Hroom) as (c & Em & Hn & Ef & Ho' & Hc'). exists c, s'.
  destruct m as [m|e|]; [|done..]. injection Em as E0 E1.
  assert (f_open (fstate_of s') !! c = Some d) as Hc by (rewrite Ef; apply lookup_insert_eq).
  destruct (handle_nonzero _ _ _ _ Hm' Hc) as [_ Hc0]. split_and!; [done..|].
  rewrite E. cbn [rbind]. rewrite E0, E1, (proj2 (Z.eqb_neq c 0) Hc0). cbn [orb].
  destruct (decide (length d = 0%nat)) as [->|Hd0]; [done|]. rewrite (proj2 (Z.eqb_neq _ 0)) by lia. cbn [rguard rbind].
  by destruct (_ <? _).
Qed.

(** Reading an image: with the file services and the heap up and room for an open
    file, the result for a file of 1 to 65536 bytes is a new block with its
    contents, or NOMEM with nothing allocated; the open files are as before. *)
Lemma load_image L hs s path buf d :
  loads L hs s → scdk_service_lookup (kernel_of s) SCDK_SERVICE_VFS = Ok vfs → path_at ≠ 0 →
  request_ok L (kernel_of s) (F_open path) → cstr buf path → file_lookup path boot = Some d →
  0 < Z.of_nat (length d) <= SCDK_LOADER_MAX_IMAGE_SIZE → open_room (fstate_of s) →
  ∃ r s' L' hs', loader_read_image services path_at buf s = (r, s') ∧ loads L' hs' s' ∧ L ⊆ L' ∧
    f_open (fstate_of s') = f_open (fstate_of s) ∧
    match r with
    | Ok (p, n) => n = Z.of_nat (length d) ∧ user_load (kernel_of s') p (length d) = Ok d ∧
        ∃ A B sz, n <= sz ∧ allocs SCDK_HEAP_BASE hs = A ++ B ∧ allocs SCDK_HEAP_BASE hs' = A ++ (p, sz) :: B
    | Err e => e = SCDK_ERR_NOMEM ∧ allocs SCDK_HEAP_BASE hs' = allocs SCDK_HEAP_BASE hs
    | Ub => False
    end.
Proof.
  intros HL Hv Ha Hr Hb Hd Hlen Hroom. pose proof (ld_mounted _ _ _ HL) as Hm. set (n := Z.of_nat (length d)) in *.
  destruct (open_image s L path buf d Hm Ha Hr Hb Hd Hroom) as (c & s1 & Hm1 & Hg & Hn & Ef & _ & E1).
  rewrite decide_False in E1 by lia. fold n in E1. rewrite (proj2 (Z.ltb_ge _ n)) in E1 by lia.
  pose proof (loads_grown _ _ _ _ HL Hm1 Hg) as HL1. pose proof HL1 as [_ Hh1 Hr1 Hp1 Hu1].
  destruct (kalloc_pages (kernel_of s1) L hs n Hh1 Hr1) as (p & k2 & L2 & E2 & Hs2 & Hp2 & hs2 & Hh2 & Hr2 & Hpost);
    [apply Hm1|done|unfold u64, two64, SCDK_LOADER_MAX_IMAGE_SIZE in *; lia|].
  destruct (vm_mounted s1 k2 L L2 Hm1 Hu1 Hs2) as (Hm2 & Hu2 & Ef2). set (s2 := put_kernel k2 s1) in *.
  assert (loads L2 hs2 s2) as HL2 by (split; unfold s2; rewrite ?kernel_put_kernel; done).
  assert (f_open (fstate_of s2) !! c = Some d) as Hc2 by (rewrite Ef2, Ef; apply lookup_insert_eq).
  assert (∀ s', f_open (fstate_of s') = delete c (f_open (fstate_of s2)) →
    f_open (fstate_of s') = f_open (fstate_of s)) as Hback.
  { intros s' ->. rewrite Ef2, Ef. by apply delete_insert_id. }
  unfold loader_read_image. rewrite bind_guard by (by apply Z.eqb_neq).
  rewrite (bind_Ok _ _ s vfs s) by (apply onkern_same; unfold query; by rewrite Hv).
  rewrite (bind_Ok _ _ _ _ _ E1). rewrite (bind_Ok _ _ s1 p s2) by (by apply onkern_put).
  destruct Hpost as [[-> Hal]|(A & B & sz & Hsz & _ & Hlo & _ & HA & HB)].
  - rewrite Z.eqb_refl, (bind_Ok _ _ _ _ _ (eq_refl : ret _ s2 = _)).
    destruct (close_file_run s2 L2 hs2 c d HL2 Ha Hc2) as (s3 & E3 & HL3 & _ & Ef3).
    exists (Err SCDK_ERR_NOMEM), s3, L2, hs2. split_and!; [|done|apply Hs2|by apply Hback|done|done].
    rewrite (bind_Ok _ _ s2 (Ok tt) s3) by (unfold attempt; by rewrite E3). done.
  - assert ((p, sz) ∈ allocs SCDK_HEAP_BASE hs2) as Hin by (rewrite HB; apply elem_of_app; right; left).
    rewrite (proj2 (Z.eqb_neq p 0)) by (unfold SCDK_HEAP_BASE in Hlo; lia).
    destruct (read_file_run s2 L2 hs2 c d p sz HL2 Ha Hc2 ltac:(lia) Hin) as (s3 & E3 & HL3 & Ef3 & Hload).
    fold n in E3.
    rewrite (bind_Ok _ _ s2 (Ok tt) s3) by (unfold attempt, recover; by rewrite E3).
    assert (f_open (fstate_of s3) !! c = Some d) as Hc3 by (by rewrite Ef3).
    destruct (close_file_run s3 L2 hs2 c d HL3 Ha Hc3) as (s4 & E4 & HL4 & Ek4 & Ef4).
    exists (Ok (p, n)), s4, L2, hs2. split_and!; [|done|apply Hs2|apply Hback; by rewrite Ef4, Ef3|done|by rewrite Ek4|by exists A, B, sz].
    rewrite (bind_Ok _ _ s3 (Ok tt) s4) by (unfold attempt; by rewrite E4). done.
Qed.

(** Freeing the block of the image. *)
Lemma free_image k hs p sz :
  heap_wf k hs → heap_initialized (k_heap k) = true → (p, sz) ∈ allocs SCDK_HEAP_BASE hs →
  ∃ k' hs', scdk_kfree p k = (Ok tt, k') ∧ heap_wf k' hs' ∧
    (∀ sz', (p, sz') ∉ allocs SCDK_HEAP_BASE hs') ∧
    ∀ x, x ∈ allocs SCDK_HEAP_BASE hs → x ≠ (p, sz) → x ∈ allocs SCDK_HEAP_BASE hs'.
Proof.
  intros Hh Hr Hin. destruct (kfree_live k hs p sz Hh Hr Hin) as (k' & hs' & A & B & E & Hh' & _ & _ & EA & EB).
  exists k', hs'. split_and!; [done|done|exact (alloc_fresh hs' hs A B p sz (hl_sizes _ _ (hw_list _ _ Hh)) EB EA)|].
  intros x. rewrite EA, EB. rewrite !elem_of_app, elem_of_cons.
  intros [?|[?|?]] ?; [by left|done|by right].
Qed.

(** What [scdk_loader_load_from_vfs_with_endpoint] comes to once the image is read:
    the end of the call is that of task creation or of the run, with the image freed. *)
Definition freed (hs hs' : blocks) (image sz : Z) : Prop :=
  (∀ sz', (image, sz') ∉ allocs SCDK_HEAP_BASE hs') ∧
  ∀ x, x ∈ allocs SCDK_HEAP_BASE hs → x ≠ (image, sz) → x ∈ allocs SCDK_HEAP_BASE hs'.
Definition task_refused hs s (load : result (Z * Z) * T) (image sz : Z) : Prop :=
  ∃ e k2 k3 hs3, scdk_user_task_create (kernel_of s) = (Err e, k2) ∧ load = (Err e, put_kernel k3 s) ∧
    heap_wf k3 hs3 ∧ freed hs hs3 image sz.
Definition task_ran (run_flat : Z → list Z → Z → Z → Z → M T unit) s (load : result (Z * Z) * T)
    (image sz : Z) (d : list Z) (hhdm_offset endpoint : Z) : Prop :=
  ∃ task aspace thread k2, scdk_user_task_create (kernel_of s) = (Ok (task, aspace, thread), k2) ∧
    user_load k2 image (length d) = Ok d ∧
    ∀ status s3 hs3,
      run_flat task d (Z.of_nat (length d)) endpoint hhdm_offset (put_kernel k2 s) = (status, s3) → defined status →
      heap_wf (kernel_of s3) hs3 → heap_initialized (k_heap (kernel_of s3)) = true →
      (image, sz) ∈ allocs SCDK_HEAP_BASE hs3 →
      ∃ k4 hs4, load = (rbind status (λ _, Ok (task, thread)), put_kernel k4 s3) ∧
        heap_wf k4 hs4 ∧ freed hs3 hs4 image sz.

Lemma loads_base L hs s : loads L hs s → space_base (kernel_of s) L hs.
Proof. intros [Hm Hh Hr _ _]. split; [apply (fo_kernel _ _ _ (mo_files _ _ _ _ Hm))|apply Hm|done|done]. Qed.

Lemma run_image run_flat L hs s image sz d hhdm_offset endpoint :
  loads L hs s → (image, sz) ∈ allocs SCDK_HEAP_BASE hs → user_load (kernel_of s) image (length d) = Ok d →
  Z.of_nat (length d) <= sz →
  let load := (let* created := recover (onkern scdk_user_task_create) (onkern (scdk_kfree image)) in
    let '(task, address_space, main_thread) := (created : Z * Z * Z) in
    recover (guard ((address_space =? 0) || (main_thread =? 0)) SCDK_ERR_NOENT) (onkern (scdk_kfree image)) ;;
    let* bytes := onkern (query (λ k, user_load k image (Z.to_nat (Z.of_nat (length d))))) in
    let* status := attempt (run_flat task bytes (Z.of_nat (length d)) endpoint hhdm_offset) in
    onkern (scdk_kfree image) ;;
    lift status ;;
    ret (task, main_thread)) s in
  task_refused hs s load image sz ∨ task_ran run_flat s load image sz d hhdm_offset endpoint.
Proof.
  intros HL Hin Hload Hsz load. pose proof HL as [Hm Hh Hr Hp _].
  destruct (user_task_create_run (kernel_of s) L hs (loads_base _ _ _ HL))
    as (r & k2 & hs2 & Hc & Hd & Hh2 & Hr2 & Hsub & Hnz).
  assert (onkern scdk_user_task_create s = (r, put_kernel k2 s)) as Ec by (by apply onkern_put).
  destruct r as [[[task aspace] thread]|e|]; [right|left|done].
  - destruct Hnz as [Ha Ht]. exists task, aspace, thread, k2. split; [done|].
    assert (user_load k2 image (length d) = Ok d) as Hl2.
    { destruct (user_task_create_kept _ L _ _ (um_typed _ _ (mo_memory _ _ _ _ Hm)) Hp Hc) as [L2 Hk].
      rewrite (kept_load _ _ _ _ _ _ _ Hk Hp (um_synced _ _ (mo_memory _ _ _ _ Hm))); [done|..].
      all: pose proof (allocs_bounds _ _ _ _ (hl_sizes _ _ (hw_list _ _ Hh)) Hin); rewrite ?(hw_commit _ _ Hh); lia. }
    split; [done|]. intros status s3 hs3 Erun Hds Hh3 Hr3 Hin3.
    destruct (free_image _ _ _ _ Hh3 Hr3 Hin3) as (k4 & hs4 & Ef & Hh4 & Hf1 & Hf2).
    exists k4, hs4. split_and!; [|done|done]. unfold load.
    rewrite (bind_Ok _ _ s (task, aspace, thread) (put_kernel k2 s)) by (unfold recover; by rewrite Ec).
    rewrite (proj2 (Z.eqb_neq _ 0) Ha), (proj2 (Z.eqb_neq _ 0) Ht). cbn [orb].
    rewrite (bind_Ok _ _ _ tt (put_kernel k2 s)) by done. rewrite Nat2Z.id.
    rewrite (bind_Ok _ _ _ d (put_kernel k2 s)) by (apply onkern_same; unfold query; by rewrite kernel_put_kernel, Hl2).
    rewrite (bind_Ok _ _ _ status s3) by (unfold attempt; rewrite Erun; by destruct status).
    rewrite (bind_Ok _ _ _ tt (put_kernel k4 s3)) by (by apply onkern_put). by destruct status as [[]| |].
  - destruct (free_image _ _ _ _ Hh2 Hr2 (Hsub _ Hin)) as (k3 & hs3 & Ef & Hh3 & Hf1 & Hf2).
    exists e, k2, k3, hs3. split_and!; [done| |done|split; [done|auto]]. unfold load.
    rewrite (bind_Err _ _ _ e (put_kernel k3 s)); [done|]. unfold recover. rewrite Ec.
    rewrite (onkern_put _ _ (Ok tt) k3) by (by rewrite kernel_put_kernel). by rewrite put_kernel_put.
Qed.

(** C12. The program that runs is the file. With the file services and the heap up
    and room for an open file, loading a path whose file has 1 to 65536 bytes ends
    in one of three ways, the open files being as before each time. No block for
    the image can be had: NOMEM, and the allocations are as they were. The image is
    read but the task cannot be created: the error of the creation, and the block
    of the image is freed again (an address space made on the way stays behind).
    Or the task is created and run on exactly the contents of the file: neither the
    creation of the task nor the growth of the heap and of the page tables it
    causes changes a byte of the image (headers and structs of the heap are records
    of their own here); the call returns the task and its thread, or the error of
    the run, and the block is freed, provided the run left it allocated. *)
Theorem loader_runs_file run_flat L hs s path buf d hhdm_offset endpoint e :
  let load := scdk_loader_load_from_vfs_with_endpoint services path_at run_flat buf hhdm_offset endpoint s in
  loads L hs s → scdk_service_lookup (kernel_of s) SCDK_SERVICE_VFS = Ok vfs → path_at ≠ 0 →
  request_ok L (kernel_of s) (F_open path) → cstr buf path → file_lookup path boot = Some d →
  0 < Z.of_nat (length d) <= SCDK_LOADER_MAX_IMAGE_SIZE → open_room (fstate_of s) → hhdm_offset ≠ 0 →
  scdk_cap_check (kernel_of s) endpoint SCDK_RIGHT_SEND SCDK_OBJ_ENDPOINT = Ok e →
  ∃ s' L' hs', loads L' hs' s' ∧ L ⊆ L' ∧ f_open (fstate_of s') = f_open (fstate_of s) ∧
    (allocs SCDK_HEAP_BASE hs' = allocs SCDK_HEAP_BASE hs ∧ load = (Err SCDK_ERR_NOMEM, s') ∨
     ∃ image A B sz, user_load (kernel_of s') image (length d) = Ok d ∧ Z.of_nat (length d) <= sz ∧
       allocs SCDK_HEAP_BASE hs = A ++ B ∧ allocs SCDK_HEAP_BASE hs' = A ++ (image, sz) :: B ∧
       (task_refused hs' s' load image sz ∨ task_ran run_flat s' load image sz d hhdm_offset endpoint)).
Proof.
  intros load HL Hv Ha Hr Hb Hd Hlen Hroom Hh He.
  destruct (load_image L hs s path buf d HL Hv Ha Hr Hb Hd Hlen Hroom) as (r & s' & L' & hs' & E & HL' & Hsub & Ef & Hres).
  assert (endpoint ≠ 0) as Hep by (intros ->; done).
  exists s', L', hs'. split_and!; [done..|]. unfold load, scdk_loader_load_from_vfs_with_endpoint.
  rewrite bind_guard by (by rewrite (proj2 (Z.eqb_neq _ 0) Ha), (proj2 (Z.eqb_neq _ 0) Hh), (proj2 (Z.eqb_neq _ 0) Hep)).
  rewrite (bind_Ok _ _ s e s) by (apply onkern_same; unfold query; by rewrite He).
  destruct r as [[p n]|er|]; [right|left|done].
  2:{ destruct Hres as [-> Hal]. split; [done|]. by rewrite (bind_Err _ _ _ _ _ E). }
  destruct Hres as (-> & Hload & A & B & sz & Hsz & HA & HB). exists p, A, B, sz. split_and!; [done..|].
  rewrite (bind_Ok _ _ _ _ _ E). apply (run_image run_flat L' hs'); [done| |done|done].
  rewrite HB. apply elem_of_app. right. left.
Qed.

(** A file that is not an image: it is refused after it was opened, and stays
    open. *)
Definition not_image (d : list Z) : Prop := length d = 0%nat ∨ SCDK_LOADER_MAX_IMAGE_SIZE < Z.of_nat (length d).
Definition refusal (d : list Z) : err := if decide (length d = 0%nat) then SCDK_ERR_NOENT else SCDK_ERR_BOUNDS.
Lemma image_refused L s path buf d :
  mounted vfs boot L s → scdk_service_lookup (kernel_of s) SCDK_SERVICE_VFS = Ok vfs → path_at ≠ 0 →
  request_ok L (kernel_of s) (F_open path) → cstr buf path → file_lookup path boot = Some d →
  not_image d → open_room (fstate_of s) →
  ∃ c s', loader_read_image services path_at buf s = (Err (refusal d), s') ∧ mounted vfs boot L s' ∧
    grown (kernel_of s) (kernel_of s') ∧
    f_open (fstate_of s) !! c = None ∧ f_open (fstate_of s') = <[c := d]> (f_open (fstate_of s)) ∧
    f_objects (fstate_of s) = S (f_objects (fstate_of s')) ∧ f_caps (fstate_of s) = S (f_caps (fstate_of s')).
Proof.
  intros Hm Hv Ha Hr Hb Hd Hbad Hroom.
  destruct (open_image s L path buf d Hm Ha Hr Hb Hd Hroom) as (c & s1 & Hm1 & Hg & Hn & Ef & [Ho Hc] & E1).
  exists c, s1. split_and!; [|done..].
  unfold loader_read_image. rewrite bind_guard by (by apply Z.eqb_neq).
  rewrite (bind_Ok _ _ s vfs s) by (apply onkern_same; unfold query; by rewrite Hv).
  rewrite (bind_Err _ _ _ (refusal d) s1); [done|]. rewrite E1. unfold refusal.
  destruct (decide _); [done|]. destruct Hbad as [?|Hbig]; [done|]. by rewrite (proj2 (Z.ltb_lt _ _) Hbig).
Qed.

(** A load of such a file. *)
Lemma load_refused run_flat L s path buf d hhdm_offset endpoint e :
  mounted vfs boot L s → scdk_service_lookup (kernel_of s) SCDK_SERVICE_VFS = Ok vfs → path_at ≠ 0 →
  request_ok L (kernel_of s) (F_open path) → cstr buf path → file_lookup path boot = Some d →
  not_image d → open_room (fstate_of s) → hhdm_offset ≠ 0 →
  scdk_cap_check (kernel_of s) endpoint SCDK_RIGHT_SEND SCDK_OBJ_ENDPOINT = Ok e →
  ∃ c s', scdk_loader_load_from_vfs_with_endpoint services path_at run_flat buf hhdm_offset endpoint s =
      (Err (refusal d), s') ∧ mounted vfs boot L s' ∧ grown (kernel_of s) (kernel_of s') ∧
    f_open (fstate_of s) !! c = None ∧ f_open (fstate_of s') = <[c := d]> (f_open (fstate_of s)) ∧
    f_objects (fstate_of s) = S (f_objects (fstate_of s')) ∧ f_caps (fstate_of s) = S (f_caps (fstate_of s')).
Proof.
  intros Hm Hv Ha Hr Hb Hd Hbad Hroom Hh He.
  destruct (image_refused L s path buf d Hm Hv Ha Hr Hb Hd Hbad Hroom) as (c & s' & E & Hrest).
  exists c, s'. split; [|done]. assert (endpoint ≠ 0) as Hep by (intros ->; done).
  unfold scdk_loader_load_from_vfs_with_endpoint.
  rewrite bind_guard by (by rewrite (proj2 (Z.eqb_neq _ 0) Ha), (proj2 (Z.eqb_neq _ 0) Hh), (proj2 (Z.eqb_neq _ 0) Hep)).
  rewrite (bind_Ok _ _ s e s) by (apply onkern_same; unfold query; by rewrite He). by rewrite (bind_Err _ _ _ _ _ E).
Qed.

(** A growing kernel keeps its services and capabilities. *)
Lemma grown_service k k' id : grown k k' → scdk_service_lookup k' id = scdk_service_lookup k id.
Proof. intros Hg. unfold scdk_service_lookup. by rewrite (gw_eps _ _ Hg). Qed.
Lemma grown_cap_check k k' c r ty e :
  grown k k' → u64 c → scdk_cap_check k c r ty = Ok e → scdk_cap_check k' c r ty = Ok e.
Proof. intros Hg Hu. rewrite !cap_check_Ok. intros (? & Hl & ?). split_and!; [done|by apply Hg|tauto..]. Qed.

(** [n] loads in a row, with the result of each. *)
Fixpoint load_times (run_flat : Z → list Z → Z → Z → Z → M T unit) (buf : list Z) (hhdm_offset endpoint : Z) (n : nat)
  : M T (list (result (Z * Z))) :=
  match n with
  | O => ret []
  | S n =>
      let* r := attempt (scdk_loader_load_from_vfs_with_endpoint services path_at run_flat buf hhdm_offset endpoint) in
      let* rs := load_times run_flat buf hhdm_offset endpoint n in
      ret (r :: rs)
  end.

Lemma load_times_refused run_flat L path buf d hhdm_offset endpoint n : ∀ s e,
  mounted vfs boot L s → scdk_service_lookup (kernel_of s) SCDK_SERVICE_VFS = Ok vfs → path_at ≠ 0 →
  request_ok L (kernel_of s) (F_open path) → cstr buf path → file_lookup path boot = Some d →
  not_image d → hhdm_offset ≠ 0 → u64 endpoint →
  scdk_cap_check (kernel_of s) endpoint SCDK_RIGHT_SEND SCDK_OBJ_ENDPOINT = Ok e →
  (n + size (f_open (fstate_of s)) ≤ Z.to_nat SCDK_TMPFS_MAX_OPEN_FILES)%nat →
  (n ≤ f_objects (fstate_of s))%nat → (n ≤ f_caps (fstate_of s))%nat →
  ∃ s', load_times run_flat buf hhdm_offset endpoint n s = (Ok (replicate n (Err (refusal d))), s') ∧
    mounted vfs boot L s' ∧ f_open (fstate_of s) ⊆ f_open (fstate_of s') ∧
    size (f_open (fstate_of s')) = (n + size (f_open (fstate_of s)))%nat.
Proof.
  induction n as [|n IH]; intros s e Hm Hv Ha Hr Hb Hd Hbad Hh Hu He Hsz Ho Hc.
  { exists s. by split_and!. }
  destruct (load_refused run_flat L s path buf d hhdm_offset endpoint e Hm Hv Ha Hr Hb Hd Hbad)
    as (c & s1 & E & Hm1 & Hg & Hn & Ef & Eo & Ec); [split_and!; lia|done|done|].
  assert (size (f_open (fstate_of s1)) = S (size (f_open (fstate_of s)))) as Esz by (by rewrite Ef, map_size_insert_None).
  destruct (IH s1 e) as (s2 & E2 & Hm2 & Hsub & Esz2); try done; try lia.
  { by rewrite (grown_service _ _ _ Hg). } { by apply (grown_cap_check (kernel_of s)). }
  exists s2. split_and!; [|done| |lia].
  - cbn [load_times replicate]. rewrite (bind_Ok _ _ s (Err (refusal d)) s1) by (unfold attempt; by rewrite E).
    by rewrite (bind_Ok _ _ _ _ _ E2).
  - etrans; [|exact Hsub]. rewrite Ef. by apply insert_subseteq.
Qed.

(** With 32 open files nothing can be opened. *)
Lemma open_full L s path d :
  mounted vfs boot L s → path_at ≠ 0 → request_ok L (kernel_of s) (F_open path) → file_lookup path boot = Some d →
  size (f_open (fstate_of s)) = Z.to_nat SCDK_TMPFS_MAX_OPEN_FILES →
  ∃ s', request other path_at vfs (F_open path) s = (Ok (Err SCDK_ERR_NOMEM), s').
Proof.
  intros Hm Ha Hr Hd Hsz. destruct (request_sim other path_at vfs boot L s _ Hm Ha Hr) as (out & s' & E & _ & _ & Hs & _).
  unfold file_spec, spec_open in Hs. rewrite Hd, decide_True in Hs by done. destruct Hs as [-> _]. by exists s'.
Qed.
End loading.

(** ** Spawning a file that is not an image *)

(** The path of a spawn message. *)
Lemma spawn_path msg path rest :
  msg_arg0 msg ≠ 0 → msg_arg1 msg = Z.of_nat (length path) → (0 < length path < SCDK_PROC_MAX_PATH)%nat →
  Forall (λ b, b ≠ 0) path →
  ∃ buf, bounded_path_from_message (Some (path ++ rest)) msg SCDK_PROC_MAX_PATH = Ok buf ∧ cstr buf path.
Proof.
  intros Ha El Hl Hz. unfold bounded_path_from_message. rewrite (proj2 (Z.eqb_neq _ 0) Ha), El.
  unfold SCDK_PROC_MAX_PATH in *. change ((128 =? 0)%nat) with false. change (Z.of_nat 128) with 128. cbn [orb rguard rbind].
  rewrite (proj2 (Z.eqb_neq _ 0)), (proj2 (Z.leb_gt 128 _)) by lia. cbn [orb rguard rbind deref].
  rewrite Nat2Z.id, memcpy_Ok by (rewrite ?length_replicate, ?length_app; simpl; lia). cbn [rbind].
  rewrite take_app_length, store8_Ok by (rewrite patch_length; rewrite length_replicate; lia).
  eexists. split; [done|]. split; [done|]. exists (replicate (127 - length path) 0). unfold patch.
  rewrite take_0, app_nil_l, Nat.add_0_l, insert_app_r_alt, Nat.sub_diag, drop_replicate by lia.
  by replace (128 - length path)%nat with (S (127 - length path)) by lia.
Qed.

Section spawning.
Context {T : Type} {HM : HasMachine T} {HF : Beside files T} {HP : Beside proc T}.
Context (other : option (list Z) → handler_on T) (path_at vfs : Z) (boot : list (list Z * list Z)).
Context (run_flat : Z → list Z → Z → Z → Z → M T unit).

(** C39. Refused programs use up the open files. A spawn request for a file that
    is empty or larger than 65536 bytes is refused, with NOENT or BOUNDS, but the
    loader has opened the file and does not close it: one more file is open than
    before, under a token that is not in the reply, which is the request as it was
    sent. Loading such a file again does the same each time, and when 32 files are
    open no file of the archive can be opened: every open fails with NOMEM. *)
Theorem spawn_refusal_keeps_file_open L (s : T) path rest d msg endpoint context e buf' hhdm_offset :
  mounted vfs boot L s → scdk_service_lookup (kernel_of s) SCDK_SERVICE_VFS = Ok vfs → path_at ≠ 0 →
  msg_type msg = SCDK_MSG_PROCESS_SPAWN → msg_arg0 msg ≠ 0 → msg_arg1 msg = Z.of_nat (length path) →
  request_ok L (kernel_of s) (F_open path) → file_lookup path boot = Some d → not_image d →
  open_room (fstate_of s) → proc_hhdm_offset (own (U:=proc) s) ≠ 0 → u64 (msg_arg2 msg) →
  scdk_cap_check (kernel_of s) (msg_arg2 msg) SCDK_RIGHT_SEND SCDK_OBJ_ENDPOINT = Ok e →
  cstr buf' path → hhdm_offset ≠ 0 →
  ∃ c s', proc_endpoint_handler_fn (file_services other 2) path_at run_flat (Some (path ++ rest)) endpoint msg context s =
      (Ok (msg, Err (refusal d)), s') ∧
    f_open (fstate_of s) !! c = None ∧ f_open (fstate_of s') = <[c := d]> (f_open (fstate_of s)) ∧
    ∀ n, (S n + size (f_open (fstate_of s)) = Z.to_nat SCDK_TMPFS_MAX_OPEN_FILES)%nat →
      (S n ≤ f_objects (fstate_of s))%nat → (S n ≤ f_caps (fstate_of s))%nat →
      ∃ s'', load_times other path_at run_flat buf' hhdm_offset (msg_arg2 msg) n s' =
          (Ok (replicate n (Err (refusal d))), s'') ∧
        f_open (fstate_of s') ⊆ f_open (fstate_of s'') ∧
        ∀ path' d', request_ok L (kernel_of s'') (F_open path') → file_lookup path' boot = Some d' →
          ∃ s3, request other path_at vfs (F_open path') s'' = (Ok (Err SCDK_ERR_NOMEM), s3).
Proof.
  intros Hm Hv Ha Hty Ha0 El Hr Hd Hbad Hroom Hh Hu He Hb' Hh'.
  destruct (spawn_path msg path rest Ha0 El) as (buf & Ep & Hb); [apply Hr..|].
  destruct (load_refused other path_at vfs boot run_flat L s path buf d _ _ e Hm Hv Ha Hr Hb Hd Hbad Hroom Hh He)
    as (c & s' & E & Hm' & Hg & Hn & Ef & Eo & Ec).
  exists c, s'. split_and!; [|done|done|].
  - assert (msg_arg2 msg ≠ 0) as Hep by (intros E0; by rewrite E0 in He).
    assert (onkern (query (λ k, scdk_cap_check k (msg_arg2 msg) SCDK_RIGHT_SEND SCDK_OBJ_ENDPOINT)) s = (Ok e, s)) as Hc
      by (apply onkern_same; unfold query; by rewrite He).
    unfold proc_endpoint_handler_fn. rewrite Hty, Z.eqb_refl.
    rewrite answers_eq. unfold proc_handle_spawn. rewrite (bind_Ok _ _ s buf s) by (unfold lift; by rewrite Ep).
    rewrite (bind_Ok _ _ s (proc_hhdm_offset (own s)) s) by (by apply onown_read).
    rewrite (proj2 (Z.eqb_neq _ 0) Hep). cbn [negb].
    rewrite (bind_Err _ _ s (refusal d) s'); [done|]. by rewrite (bind_Ok _ _ _ _ _ Hc), E.
  - intros n Hsz Hno Hnc.
    assert (size (f_open (fstate_of s')) = S (size (f_open (fstate_of s)))) as Esz by (by rewrite Ef, map_size_insert_None).
    destruct (load_times_refused other path_at vfs boot run_flat L path buf' d hhdm_offset (msg_arg2 msg) n s' e)
      as (s'' & E2 & Hm2 & Hsub & Esz2); try done; try lia.
    { by rewrite (grown_service _ _ _ Hg). } { by apply (grown_cap_check (kernel_of s)). }
    exists s''. split_and!; [done|done|]. intros path' d' Hr' Hd'.
    apply (open_full other path_at vfs boot L s'' path' d'); [done..|lia].
Qed.
End spawning.

(** ** Witnesses: a heap of four pages, and the two services *)
Lemma heap_init_backed k k1 L :
  pt_typed k L → heap_extend 0 (heap_reset k) = (Ok tt, k1) →
  ∃ L' hs, vm_step k (set_heap_ready k1) L L' ∧ heap_wf (set_heap_ready k1) hs ∧
    heap_pages (heap_commit_end (k_heap (set_heap_ready k1))) (set_heap_ready k1) L'.
Proof.
  intros HT E. assert (vm_step k (heap_reset k) L L) as Hs0 by (by apply vm_step_heap).
  assert (0 <= 0 <= SCDK_HEAP_SIZE) as Hz by (unfold SCDK_HEAP_SIZE; lia).
  destruct (heap_extend_cases _ [] 0 _ _ (heap_wf_reset k) Hz E) as (hs & Hwf & _ & _).
  pose proof (heap_extend_pages (heap_reset k) L [] 0 (heap_wf_reset k) (vs_typed _ _ _ _ Hs0)) as Hb.
  rewrite E in Hb. destruct (grown_to_heap _ _ _ _ (k_heap (set_heap_ready k1)) (Hb ltac:(
    exists []; split; [|done]; split; try done; [apply Hs0|apply map_empty_subseteq|apply NoDup_nil_2
      |by intros p ?%elem_of_nil|simpl; lia]) Hz)) as (L' & Hs & Hp).
  exists L', hs. split_and!; [by eapply vm_step_trans|by apply heap_wf_ready|done].
Qed.

Definition demo_heap_up : kernel := set_heap_ready demo_grown.
Definition demo_loader_kernel : kernel := (start_endpoints demo_heap_up).2.
Definition demo_loader : machine * files := demo_fs demo_loader_kernel.

Lemma demo_vm_unmapped v t : scdk_vmm_virt_to_phys demo_vm v ≠ Ok t.
Proof.
  unfold scdk_vmm_virt_to_phys. rewrite virt_to_phys_pte. intros E. do 3 minv_step E.
  assert (∀ a, load64 demo_vm a = 0) as Hz by done. unfold pte, path in E2. cbn [reach] in E2. by rewrite Hz in E2.
Qed.
Lemma demo_loads : ∃ L hs, loads 4294967297 demo_files L hs demo_loader.
Proof.
  assert (heap_extend 0 (heap_reset demo_vm) = (Ok tt, demo_grown)) as Hrun
    by (apply run_to; [reflexivity|vm_compute; reflexivity]).
  destruct (heap_init_backed demo_vm demo_grown demo_labels demo_vm_typed Hrun) as (L & hs & Hs & Hwf & Hp).
  fold demo_heap_up in Hs, Hwf, Hp.
  assert (k_vmm demo_loader_kernel = k_vmm demo_heap_up ∧ k_pmm demo_loader_kernel = k_pmm demo_heap_up) as [Ev Ep]
    by exact (start_endpoints_memory demo_heap_up).
  assert (k_heap demo_loader_kernel = k_heap demo_heap_up) as Eh by (vm_compute; reflexivity).
  assert (user_labelled demo_heap_up L) as Hu.
  { intros v t Hv E. rewrite (vm_user_translate demo_vm _ demo_labels L) in E by (exact demo_vm_typed || exact Hs || exact Hv).
    destruct (demo_vm_unmapped _ _ E). }
  assert (user_memory demo_heap_up L) as Hum.
  { split; [apply Hs|vm_compute; reflexivity|]. intros v t Hv _ E. destruct (Hu v t Hv E) as (l & Hl & ?).
    intros l' Hl'. congruence. }
  assert (kernel_wf demo_heap_up) as Hk.
  { apply (kernel_wf_frame boot_kernel); [exact boot_kernel_wf|vm_compute; reflexivity..|].
    split; vm_compute; reflexivity. }
  exists L, hs. split.
  - apply demo_fs_mounted; [exact (start_endpoints_kwf _ Hk)|exact (user_memory_vmm _ _ L Ev Ep Hum)
      |vm_compute; reflexivity|eexists _, _; vm_compute; reflexivity|eexists _, _; vm_compute; reflexivity].
  - exact (heap_wf_same _ _ _ Hwf Eh).
  - vm_compute. reflexivity.
  - exact (heap_pages_same demo_heap_up demo_loader_kernel L Ev Eh (um_typed _ _ (user_memory_vmm _ _ L Ev Ep Hum)) Hp).
  - exact (user_labelled_same demo_heap_up demo_loader_kernel L Ev Hu).
Qed.

(** A run that returns at once. *)
Definition demo_run : Z → list Z → Z → Z → Z → M (machine * files) unit := λ _ _ _ _ _, ret tt.
Definition demo_load : M (machine * files) (Z * Z) :=
  scdk_loader_load_from_vfs_with_endpoint (file_services no_others 2) 8192 demo_run [47; 97; 0] 4096 4294967297.
Lemma demo_load_ok : is_Ok (demo_load demo_loader).1.
Proof. eexists. vm_compute. reflexivity. Qed.
Lemma demo_loader_vfs : scdk_service_lookup (kernel_of demo_loader) SCDK_SERVICE_VFS = Ok 4294967297.
Proof. vm_compute. reflexivity. Qed.
Lemma demo_loader_cap :
  ∃ e, scdk_cap_check (kernel_of demo_loader) 4294967297 SCDK_RIGHT_SEND SCDK_OBJ_ENDPOINT = Ok e.
Proof. eexists. vm_compute. reflexivity. Qed.
Lemma demo_loader_room : open_room (fstate_of demo_loader).
Proof. vm_compute. split_and!; [discriminate|lia|lia]. Qed.
Lemma demo_path_cstr : cstr [47; 97; 0] [47; 97].
Proof. split; [exact (proj2 (demo_open_ok ∅ boot_kernel))|exists []; reflexivity]. Qed.
Lemma Ok_not_Err {S A} (r : result A * S) e s' : is_Ok r.1 → r = (Err e, s') → False.
Proof. by intros [x Ex] ->. Qed.
Lemma loader_runs_file_witness :
  ∃ s' image task thread k2 k4, user_load k2 image (length [1; 2; 3]) = Ok [1; 2; 3] ∧
    demo_load demo_loader = (Ok (task, thread), put_kernel k4 (put_kernel k2 s')).
Proof.
  destruct demo_loads as (L & hs & HL). destruct demo_loader_cap as [e He].
  destruct (loader_runs_file no_others 8192 4294967297 demo_files demo_run L hs demo_loader [47; 97] [47; 97; 0] [1; 2; 3]
    4096 4294967297 e HL demo_loader_vfs ltac:(discriminate) (demo_open_ok L _) demo_path_cstr eq_refl
    ltac:(split; [reflexivity|discriminate]) demo_loader_room ltac:(discriminate) He)
    as (s' & L' & hs' & HL' & _ & _ & [[_ E]|(image & A & B & sz & _ & _ & _ & EB & [Hno|Hran])]).
  - destruct (Ok_not_Err _ _ _ demo_load_ok E).
  - destruct Hno as (er & k2 & k3 & hs3 & _ & E & _). destruct (Ok_not_Err _ _ _ demo_load_ok E).
  - destruct Hran as (task & aspace & thread & k2 & Hc & Hl & Hrun).
    destruct (user_task_create_run (kernel_of s') L' hs' (loads_base _ _ _ _ _ HL'))
      as (r & k2' & hs2 & Hc' & _ & Hh2 & Hr2 & Hsub & _).
    destruct (run_unique _ _ _ _ _ _ Hc Hc') as [_ Ek]. subst k2'.
    destruct (Hrun (Ok tt) (put_kernel k2 s') hs2) as (k4 & hs4 & E & _).
    + reflexivity.
    + discriminate.
    + rewrite kernel_put_kernel. exact Hh2.
    + rewrite kernel_put_kernel. exact Hr2.
    + apply Hsub. rewrite EB. apply elem_of_app. right. left.
    + exists s', image, task, thread, k2, k4. exact (conj Hl E).
Defined.

(** An archive with one empty file, [/e]; the process service beside the files. *)
#[local] Program Instance files_of_both : Beside files (machine * (files * proc)) := {|
  own := λ s, s.2.1; put_own := λ u s, (s.1, (u, s.2.2)) |}.
Solve Obligations with by intros; repeat match goal with p : _ * _ |- _ => destruct p end.
#[local] Program Instance proc_of_both : Beside proc (machine * (files * proc)) := {|
  own := λ s, s.2.2; put_own := λ u s, (s.1, (s.2.1, u)) |}.
Solve Obligations with by intros; repeat match goal with p : _ * _ |- _ => destruct p end.

Definition demo_empty_files : list (list Z * list Z) := [([47; 101], [])].
Definition demo_empty_initrd : initrd := {|
  limine_modules := None;
  initrd_files := {| ie_path := [47; 101] ++ replicate 126 0; ie_data := Some []; ie_size := 0; ie_flags := 0 |}
    :: replicate 31 entry_zero;
  initrd_file_count := 1; initrd_initialized := true |}.
Definition demo_spawner : machine * (files * proc) :=
  (machine_of demo_fs_kernel,
   (mk_files demo_empty_initrd (zeroed SCDK_TMPFS_MAX_OPEN_FILES null_file) true 4294967296 true, mk_proc true 4096)).
Lemma demo_empty_rep : initrd_rep demo_empty_initrd demo_empty_files.
Proof.
  split; [|done|unfold SCDK_INITRD_MAX_FILES; simpl; lia]. eexists [_]. split; [reflexivity|].
  constructor; [|constructor]. split_and!; [|reflexivity|by eexists _, _|by eexists|done|done].
  split; [repeat (apply Forall_cons; split; [simpl; lia|]); by apply Forall_nil|]. by exists (replicate 125 0).
Qed.
Lemma demo_spawner_mounted : ∃ L, mounted 4294967297 demo_empty_files L demo_spawner.
Proof.
  destruct demo_mounted_ok as (L & [[Hk _ _ _ _ _ _ _ _] Hv Ht Hm] & _). exists L. split; [|exact Hv|exact Ht|exact Hm].
  apply files_ok_start; [exact Hk|reflexivity|apply no_files; vm_compute; reflexivity|exact demo_empty_rep|reflexivity|].
  apply Forall_cons. split; [apply Forall_nil; exact I|by apply Forall_nil].
Qed.
(** [/e] with the VFS endpoint to start from. *)
Definition demo_spawn : scdk_message :=
  set_msg_args (scdk_message_init 0 SCDK_SERVICE_PROC SCDK_MSG_PROCESS_SPAWN) 4096 2 4294967297 0.
Definition no_more : option (list Z) → handler_on (machine * (files * proc)) := λ _ _ _ msg _, ret (msg, Err SCDK_ERR_NOTSUP).

Lemma demo_spawner_room :
  open_room (fstate_of demo_spawner) ∧ size (f_open (fstate_of demo_spawner)) = 0%nat ∧
  (32 ≤ f_objects (fstate_of demo_spawner))%nat ∧ (32 ≤ f_caps (fstate_of demo_spawner))%nat.
Proof.
  vm_compute. split_and!; [discriminate| | |reflexivity| |]; apply Nat.leb_le; vm_compute; reflexivity.
Qed.
Lemma demo_empty_path L k : request_ok L k (F_open [47; 101]).
Proof. split; [cbn; unfold SCDK_INITRD_MAX_PATH; lia|]. repeat (apply Forall_cons; split; [lia|]). by apply Forall_nil. Qed.
Lemma demo_spawner_cap :
  ∃ e, scdk_cap_check (kernel_of demo_spawner) 4294967297 SCDK_RIGHT_SEND SCDK_OBJ_ENDPOINT = Ok e.
Proof. eexists. vm_compute. reflexivity. Qed.
Lemma demo_spawner_vfs : scdk_service_lookup (kernel_of demo_spawner) SCDK_SERVICE_VFS = Ok 4294967297.
Proof. vm_compute. reflexivity. Qed.

(** After 32 requests for [/e] it cannot be opened any more. *)
Lemma spawn_refusal_keeps_file_open_witness :
  ∃ s' s'' s3, proc_endpoint_handler_fn (file_services no_more 2) 8192 (λ _ _ _ _ _, ret tt) (Some [47; 101]) 1 demo_spawn 0 demo_spawner =
      (Ok (demo_spawn, Err SCDK_ERR_NOENT), s') ∧
    load_times no_more 8192 (λ _ _ _ _ _, ret tt) [47; 101; 0] 4096 4294967297 31 s' =
      (Ok (replicate 31 (Err SCDK_ERR_NOENT)), s'') ∧
    request no_more 8192 4294967297 (F_open [47; 101]) s'' = (Ok (Err SCDK_ERR_NOMEM), s3).
Proof.
  destruct demo_spawner_mounted as (L & Hm). destruct demo_spawner_cap as [e He].
  destruct demo_spawner_room as (Hroom & Esz & Ho & Hc).
  destruct (spawn_refusal_keeps_file_open no_more 8192 4294967297 demo_empty_files (λ _ _ _ _ _, ret tt) L demo_spawner
    [47; 101] [] [] demo_spawn 1 0 e [47; 101; 0] 4096 Hm demo_spawner_vfs ltac:(discriminate) eq_refl ltac:(discriminate) eq_refl
    (demo_empty_path L _) eq_refl (or_introl eq_refl) Hroom ltac:(discriminate)
    ltac:(change (u64 4294967297); unfold u64, two64; lia) He) as (c & s' & E & _ & _ & Hall).
  - split; [exact (proj2 (demo_empty_path L (kernel_of demo_spawner)))|exists []; reflexivity].
  - discriminate.
  - destruct (Hall 31%nat) as (s'' & E2 & _ & Hfull).
    + rewrite Esz. reflexivity.
    + exact Ho.
    + exact Hc.
    + destruct (Hfull [47; 101] [] (demo_empty_path L _) eq_refl) as [s3 E3]. exists s', s'', s3. exact (conj E (conj E2 E3)).
Defined.
